(* ===== verification/_CoqProject ===== *)
-Q . S2P
Prelude.v
CText.v
Types.v
Rows.v
Sql.v
Wire.v
Deadline.v
Server.v
BrainDb.v
Brain.v
Fixture.v
Printed.v
DbLogic.v
Store.v
Commands.v
BrainLogic.v
Record.v
Votes.v
Invariant.v
Elections.v
Lifecycle.v
Creation.v
System.v
BallotBox.v
Examples.v
Htttp.v
Codec.v
CodecLogic.v
Delivery.v
Answers.v
Intake.v
Daemon.v
Frame.v
Channels.v
Client.v
EndToEnd.v
Token.v
Queue.v
Tetrissh.v
Tunnel.v
Rc.v
Accounts.v
Registry.v
Auth.v
Gate.v
Logmsg.v
Logd.v
Ballotd.v
Threads.v
Transport.v
Hops.v
Provision.v
Launch.v
Supervisor.v
Proc.v
Shell.v
Startup.v
Logstart.v
Dialog.v
Tetrisui.v
Ballotctl.v
Ballotu.v
Polling.v
Options.v
Demo.v
Democtl.v
Listing.v
Spawn.v
Backup.v
