(* ===== verification/Prelude.v ===== *)
(** * BallotBox, verified

    BallotBox is an electronic ballot box in C.  An administrator creates an
    election, opens it, closes it and publishes it; voters join it, cast a
    ballot, change it while the election is open, and look their receipt up
    afterwards.  This library translates the C sources under src/ into Rocq
    and proves what the program promises: one counted vote per eligible voter,
    no effect of a refused request, a count that is final once closed, and the
    message formats that carry all of it.

    ** The program's parts

    A voter's client (libballotclient) builds a [bcl_request_t], its codec
    writes it as an HTTTP message (libhtttp), and the transport sends it over
    an encrypted session.  In the daemon (ballotd) a session process
    authenticates the voter, parses and decodes the frame, overwrites the
    claimed name with the authenticated one, and hands the request to the one
    thread that owns the store; an administrator's client does the same over a
    local control socket.  The dispatcher makes one libballotbrain call of the
    request.  libballotbrain checks the election's rules and turns every read
    and write into SQL statements, which libtetrisdb sends line by line to the
    SQL runner, a Java process.  The answer travels back the same way.

    ** Which file models what

    Shared:
    - Prelude.v: C strings as lists of bytes, tactics, list lemmas;
    - CText.v: what the sources use of the C library ([snprintf] cuts, [%d]
      and [%u], [strtol], [atoi], [strcmp]);
    - Types.v: include/libballotbrain/types.h and db.h.

    The store (libtetrisdb):
    - Rows.v: socket/rows.c, the reader of a select reply, and the printer of
      the runner it inverts;
    - Printed.v: what makes a printed table readable and within its buffers;
    - Sql.v: [db_quote] of schema.c and the text of every statement;
    - Wire.v: wire.c, the line and response reader over a script of reads;
      Deadline.v: its poll loops and writes and the connects of socket.c, over
      what the calls and the clock answer, which amount to such scripts;
    - Server.v: socket/socket.c, the six tables, the meaning of a statement
      and of a transaction, and the class [Runner];
    - Provision.v: the rest of schema.c (directories, heap files, the catalog)
      and libtetrisauth/lib/secret.c, over a map from paths to files.

    The ballot box (libballotbrain):
    - BrainDb.v: db.c, txn.c and the id allocator of ballotbrain.c, as
      programs of the state-and-error monad [prog];
    - Brain.v: config.c, lifecycle.c, crypto.c, handlers.c;
    - DbLogic.v, Store.v, Commands.v: the invariant [wf] of the tables, the
      simulation judgements [sim] and [rsim], and the exact meaning of each
      database command;
    - BrainLogic.v, Record.v, Elections.v, Creation.v: the same for the
      handlers, against pure specifications ([record_spec] and the others);
    - Votes.v: the abstract ballot box, a map from voter to the vote that
      counts;
    - Invariant.v, Lifecycle.v: every write keeps [wf];
    - System.v: sequences of requests as a step relation with reachability;
    - BallotBox.v: the theorems about libballotbrain as a whole;
    - Fixture.v, Examples.v: a concrete runner that meets the laws, the
      theorems at work on it, and the behaviours the code does not guard
      against.

    The messages (libhtttp, libballotclient):
    - Htttp.v: htttp.c;
    - Codec.v: codec.c; CodecLogic.v: its line format, hex and arrays;
    - Delivery.v (requests), Answers.v (responses), Intake.v (requests from
      arbitrary bytes).

    The processes (ballotd, libballotclient, libtetrisutil):
    - Daemon.v: dispatch.c, one frame of session.c and of control_plane.c,
      the administrator's requests of main.c;
    - Frame.v, Channels.v: what each channel can change;
    - Client.v: voter.c, voter_crypto.c, admin.c, the send path of
      transport.c, name.c of libtetrisutil;
    - EndToEnd.v: client, codec, session, dispatcher and handler composed;
    - Ballotd.v: the threads and processes of main.c, session.c and
      control_plane.c as interleaved steps over their pipes; Threads.v: that
      every interleaving is serial, and the books of [admin_thread];
    - Startup.v: the options and the start of main.c, its accepting threads,
      and the admin socket's file of control_plane.c;
    - Transport.v: transport.c over real streams, ctl_frame.h, [session_main]
      of session.c; Hops.v: what the two hops guarantee.

    Accounts and sessions (libtetrisauth, libtetrissh):
    - Tetrissh.v: tetrissh.c and common.c over the class [OpenSSL]; Tunnel.v:
      the handshake, frames and delivery;
    - Token.v: token.c and hex.c of libtetrisauth/lib, over any HMAC;
    - Accounts.v: account.c, its statements and its registration semaphore;
      Registry.v: the user table under any schedule of faults;
    - Auth.v: auth.c and conf.c; Gate.v: what the pre-auth exchange
      guarantees.

    The programs at the terminal (libtetrisui, ballotctl, ballotu):
    - Dialog.v: the events of a client, runs, and rules for what holds of
      every run; Tetrisui.v: tetrisui.c, the widgets as programs over keys;
    - Ballotctl.v: ballotctl.c; Ballotu.v: ballotu.c; Options.v: their command
      lines;
    - Polling.v: the voter's client composed with EndToEnd.v;
    - Demo.v, Democtl.v: the two demos that run on a mock of the ballot box
      (mock.c, screens.c and main.c of ballotu and of ballotctl).

    The shell (tetrish):
    - Shell.v: main.c, shell.c and lib/rc_parser.c;
    - Listing.v: lib/perms.c, find.c, ld.c and ldr.c of system_programs, over
      what the operating system shows of a directory; Spawn.v: dspawn.c,
      dspawn2.c and dcheck.c, with several launchers at once as interleaved
      steps over the pid file; Backup.v: backup.c and sys.c.

    Beside them:
    - Launch.v: tetrisdb/runner.c and jvm.c, what a launcher does alone;
      Supervisor.v: tetrisdb/main.c, starts and stops as interleaved steps over
      the lock file, with the deaths of any of them;
    - Queue.v: pipe/queue.c of libtetrisdb, the bounded queue and its worker
      thread as actions that interleave at their critical sections;
    - Proc.v: pipe/proc.c, the worker's child and its pipes;
    - Rc.v: rc.c of libtetrisutil, the configuration files;
    - Logmsg.v: logmsg.c, the log sender and its threads;
    - Logd.v: tetrislogd/logger.c and config.c, the log daemon; Logstart.v:
      its start and end.

    ** How the C is represented

    A [char x[N]] holds a C string, the bytes before its NUL, and a copy into
    it cuts ([trunc N]); an array is the list of all its slots with its count
    kept apart, as the struct has them.  [int] and [long long] arithmetic that
    can wrap is written out ([i32], [u32], [i64]).  A function that returns [bb_result_t] is a
    program [world -> res A * world]: [Err e] is any code but [BB_OK].  Where
    the caller reads an out-parameter after an error, Daemon.v has the version
    that returns it.  The [world] holds the committed tables, the daemon's
    transaction connection, the write lock, the operation log, and two
    schedules: what each connection attempt does, and which statement meets
    which fault (failed by the runner, aborted as a deadlock victim, or never
    answered, whether the runner executed it or not).  The
    theorems quantify over the schedules; [healthy] is the schedule without
    faults, and only theorems about success assume it.

    A client of the terminal goes on for as long as its user likes, so it is
    an interaction tree ([ITree.iter] for its loops) over the events of
    Dialog.v: a key, something drawn, a request with its answer.  Its theorems
    are about all finite runs and quantify over keys and answers.

    ** What is a parameter

    [Runner] (Server.v) stands for the part of the SQL runner whose source is
    a jar: what its parser makes of a string constant, where a page puts a
    tuple, what the planner prints above a table.  Its laws are what db.c
    relies on; Fixture.v has an instance.  The date header of a response (the
    clock), the outcome of reading from a socket, and what a network does
    with a frame are arguments of the definitions that use them.  [UserRunner]
    (Accounts.v) is the runner's part for the user table, [OpenSSL] (Tetrissh.v)
    the library's operations with the options the sources pass, with its laws in
    [OpenSSLLaws] and a toy instance that meets them (Tunnel.v).  OpenSSL's
    HMAC (Token.v) and PBKDF2 (Accounts.v), the files and environment rc.c reads
    ([host], Rc.v), what one authentication round reads from outside
    ([readings], Auth.v), [localtime_r] with [strftime] (Logd.v) and what a child
    process says (Proc.v) are parameters too.

    ** What the theorems show

    - C1-C4, recording a ballot: it is atomic under every fault schedule,
      counts as the voter's one vote, passes exactly the gates, and a refused
      ballot leaves no trace.  They ask of a ballot a short plain id, a
      non-empty plain nonce that is no marker line, a receipt hash new to the
      election, and of the store version numbers to give out.
    - C5-C8, over every sequence of acceptable requests (System.v: texts that
      fit and print plainly, casts as above, an allocated id only from a
      healthy store): the invariant holds, a nonce is accepted once, an
      election only moves forward and keeps its configuration, a closed count
      is final.
    - C9, C11, C12, C14, the handlers: results with their hash rows,
      transitions, receipts with their option, creation read back.  The closing theorems of Examples.v are
      concrete runs outside of those hypotheses: the deadlock code that escapes,
      nonces that defeat the replay gate, a repeated id, colliding receipts, an
      empty entry that hides the voter list.
    - C15, C38, accounts: ids and names stay unique under every fault
      schedule, and a registered password logs in, no other does.
    - C16-C18, C21, the encrypted session: both ends agree on a key, the
      client talks only to the certified server, only sealed frames come
      through, and messages arrive in order.
    - C19, session tokens: exactly the minted and unexpired ones are accepted.
    - C39, C40, the pre-auth exchange and the session process: they end with
      the peer's stream, nothing is handled but sealed frames under a name that
      was proved or a guest's empty one, and the key is zeroed.
    - C20, C22, the statement queue: every interleaving keeps order and
      accounts for every statement, and shutdown terminates.
    - C23, C24, the store's formats: statements cannot be injected into, the
      row reader inverts the printer; Server.v has that replies do not depend
      on how the stream is cut, Deadline.v that a deadline bounds the sum of
      the waits.
    - C25, the runner's supervisor: however starts, stops and deaths
      interleave, one runner at a time, and the lock file names it.  Proc.v has
      that a worker's child leaks no descriptor and no process.
    - C26, C28, the daemon's concurrency: every interleaving of its threads
      and processes is serial, every answer is that of its call, every
      descriptor is closed once and every ready worker attended to once.
      Startup.v has that options are in range, that daemons which open the
      admin socket one at a time never displace one another, and what happens
      when they do not.
    - C27, C33, configuration: the last line decides, a number found is in its
      range;
      Shell.v has that the shell, the file's other reader, agrees on which
      lines are assignments.
    - C13, C29, logging: no dropped record goes uncounted, and the log is the
      accepted records, one line each.
    - C30, C32, C34, the messages: what the peer makes of every request and
      response the structs can hold, and bounds on whatever bytes arrive.
    - C35, C36, the channels: what each can change.
    - C10, C37, the clients' screens: in every run, whatever is typed and
      answered, what is sent is what was on the screen when the user pressed
      Enter, and a confirmed vote is the one recorded.
    - Options.v has that every command line of a client gives an exit status or
      the program C10 and C37 are about; Demo.v and Democtl.v that in every run
      of a demo a voter has one counted ballot at most and elections only move
      forward.
    - The shell's utilities: the walks print exactly the tree there is while
      its paths fit their buffers (and what happens when one does not), one
      daemon of a name runs when its launchers take turns, [dcheck] counts what
      [dspawn2] refuses to start again, the archiver gets its arguments whole
      when they have no quote.
    - C31, end to end: what a voter submits is what the store records, and
      what the store answers is what the voter is told, except for the one code
      that has no name on the wire; Hops.v has the same for
      an administrator's request over the control socket.

    ** Bounds and fuel

    Recursion follows the data wherever the C loop does.  The loops that do
    not (the line readers of Rows.v, Htttp.v and Wire.v, the digits of a
    printed number in CText.v) take fuel: for the readers, the bytes of the
    buffer and those still to be delivered, plus one, since each round
    consumes a line break; for the printers twenty digits, and no 64-bit
    number has more.
    The loops that wait for a child or a socket (Launch.v, Proc.v) end by the
    clock, which their sleeps move: 201 turns of 50 ms for the runner's ten
    seconds.  The attempt loops run their C counts ([BB_TXN_ATTEMPTS],
    [SELF_RETRY_ATTEMPTS]: three); a poll for the registration semaphore its
    five seconds in steps of at least a millisecond.  The loops over a stream
    (reads, writes, the pre-auth rounds, the frames of a session) take the
    bytes still to come as fuel, since each turn takes at least one of them or
    ends the loop; the shutdown drain of the log daemon has its C bound.
    The directory walks of Listing.v recurse on the descriptors left, as the
    code does.
    Totality is proved as such: the serializers succeed on every message that
    fits, the pre-auth exchange and the session process end, the queue's
    shutdown and every round of [admin_thread] terminate, and delivery and
    end-to-end theorems conclude that the answer arrives.

    ** What is not modelled

    The Java sources of the runner (the meaning of a statement is modelled in
    Server.v, not its execution engine); the calls that make and bind sockets
    (their outcomes are arguments); allocation failures; what the daemons and
    clients print to stderr; the signal handlers of the clients; the geometry
    and colours of the terminal screens; the macOS branches of sys.c; vendored
    and test code. *)
From Stdlib Require Export Ascii ZArith Lia.
From stdpp Require Export base tactics list gmap strings.

(** ** C strings

    A C string is the list of its bytes before the terminating NUL; a pointer
    into a string is the suffix that starts at it, so [*p == 0] is [p = nil].
    Raw buffers ([uint8_t] with a length) use the same type. *)
Abbreviation cstr := (list ascii).

Declare Scope cstr_scope.
Delimit Scope cstr_scope with cs.
Bind Scope cstr_scope with list.
Notation "$ s" := (String.list_ascii_of_string s%string) (at level 1, format "$ s") : cstr_scope.
Open Scope cstr_scope.

(** The value of a byte as an [unsigned char]. *)
Definition code (c : ascii) : Z := Z.of_N (N_of_ascii c).

Definition LF : ascii := "010"%char.
Definition CR : ascii := "013"%char.
Definition TAB : ascii := "009"%char.
Definition QUOTE : ascii := "'"%char.

Definition ceqb (a b : ascii) : bool := bool_decide (a = b).

(** ** Development tactics *)

(** Split hypotheses made of conjunctions, existentials and pairs. *)
Ltac deconj :=
  repeat match goal with
  | H : _ /\ _ |- _ => destruct H
  | H : exists _, _ |- _ => destruct H
  end.

(** Case on the discriminee of the first [match] or [if] of the goal or of a
    hypothesis, keeping the equation, and close the absurd branches. *)
Ltac split_match :=
  repeat (case_match; simplify_eq/=; try done).

(** Case on one boolean test written with [bool_decide]. *)
Ltac bdec := repeat (case_bool_decide; simplify_eq/=; try done).

Create HintDb ballot.

(** ** Lists *)

Lemma take_ge_id {A} n (l : list A) : length l <= n -> take n l = l.
Proof. apply take_ge. Qed.

Lemma take_app_take {A} n (l k : list A) : take n (take n l ++ k) = take n (l ++ k).
Proof.
  rewrite !take_app, take_take, Nat.min_id, length_take. f_equal.
  destruct (decide (length l <= n)%nat); f_equal; lia.
Qed.

Lemma Forall_take {A} (P : A -> Prop) n l : Forall P l -> Forall P (take n l).
Proof. revert n; induction l; intros [|n] H; simpl; inversion H; auto. Qed.

Lemma Forall_drop {A} (P : A -> Prop) n l : Forall P l -> Forall P (drop n l).
Proof. revert n; induction l; intros [|n] H; simpl; inversion H; auto. Qed.

Lemma filter_none {A} (P : A -> Prop) `{!forall x, Decision (P x)} (l : list A) :
  Forall (fun x => ~ P x) l -> filter P l = [].
Proof.
  induction 1 as [|x l Hx _ IH]; [done|].
  rewrite filter_cons_False; done.
Qed.

Lemma filter_all {A} (P : A -> Prop) `{!forall x, Decision (P x)} (l : list A) :
  Forall P l -> filter P l = l.
Proof.
  induction 1 as [|x l Hx _ IH]; [done|].
  rewrite filter_cons_True; [by rewrite IH|done].
Qed.

Lemma filter_map {A B} (f : A -> B) (P : B -> Prop) `{!forall x, Decision (P x)} (l : list A) :
  filter P (map f l) = map f (filter (fun x => P (f x)) l).
Proof.
  induction l as [|x l IH]; [done|]. cbn [map]. rewrite !filter_cons, IH.
  destruct (decide (P (f x))); done.
Qed.

Lemma filter_filter {A} (P Q : A -> Prop) `{!forall x, Decision (P x), !forall x, Decision (Q x)} (l : list A) :
  filter P (filter Q l) = filter (fun x => P x /\ Q x) l.
Proof.
  induction l as [|x l IH]; [done|]. rewrite !filter_cons.
  destruct (decide (Q x)), (decide (P x /\ Q x)); rewrite ?filter_cons, ?IH;
    try destruct (decide (P x)); tauto || done.
Qed.

Lemma filter_iff {A} (P Q : A -> Prop) `{!forall x, Decision (P x), !forall x, Decision (Q x)} (l : list A) :
  (forall x, x ∈ l -> P x <-> Q x) -> filter P l = filter Q l.
Proof.
  induction l as [|x l IH]; [done|]. intros HPQ. rewrite !filter_cons, IH.
  - pose proof (HPQ x ltac:(left)). destruct (decide (P x)), (decide (Q x)); tauto || done.
  - intros y Hy. apply HPQ. by right.
Qed.

(** At most one element of a list has a given key. *)
Lemma filter_key {A K} `{EqDecision K} (f : A -> K) (k : K) (l : list A) : NoDup (map f l) ->
  filter (fun x => f x = k) l = match head (filter (fun x => f x = k) l) with Some x => [x] | None => [] end.
Proof.
  induction l as [|x l IH]; [done|]. cbn [map]. intros [Hx Hnd]%NoDup_cons.
  rewrite filter_cons. destruct (decide (f x = k)) as [E|E]; [|by apply IH]. simpl. f_equal.
  apply filter_none, Forall_forall. intros y Hy Ey. apply Hx. rewrite E, <-Ey.
  apply list_elem_of_fmap. eauto.
Qed.

Lemma head_filter_Some {A} (P : A -> Prop) `{!forall x, Decision (P x)} (l : list A) x :
  head (filter P l) = Some x -> P x /\ x ∈ l.
Proof.
  intros Hh. destruct (filter P l) as [|y k] eqn:E; [done|]. simplify_eq/=.
  apply (list_elem_of_filter P). rewrite E. left.
Qed.

Lemma head_filter_None {A} (P : A -> Prop) `{!forall x, Decision (P x)} (l : list A) x :
  head (filter P l) = None -> x ∈ l -> ~ P x.
Proof.
  intros Hh Hx Hp. destruct (filter P l) as [|y k] eqn:E; [|done].
  assert (Hin : x ∈ filter P l) by (by apply (list_elem_of_filter P)). rewrite E in Hin. by apply not_elem_of_nil in Hin.
Qed.

(** A duplicate-free list inside another one is no longer than it. *)
Lemma NoDup_length_le {A} (l k : list A) : NoDup l -> (forall x, x ∈ l -> x ∈ k) -> (length l <= length k)%nat.
Proof. intros Hnd Hin. apply submseteq_length, NoDup_submseteq; auto. Qed.

#[export] Hint Resolve Forall_take Forall_drop : ballot.
