(* ===== verification/CText.v ===== *)
(** * The C library's text functions

    What the sources use of [<string.h>], [<stdio.h>] and [<stdlib.h>]:
    bounded copies, decimal printing with [%d] and [%u], [strtol] with its
    saturation and end pointer, [atoi], and lexicographic [strcmp]. *)
From S2P Require Import Prelude.
Local Open Scope Z_scope.

(** [snprintf(dst, n, "%s", s)] and [field_copy]-style bounded copies: the
    buffer keeps at most [n - 1] bytes. *)
Definition trunc (n : nat) (s : cstr) : cstr := take (n - 1) s.

(** ** Machine integers *)
Definition u8 (z : Z) : Z := z mod 2 ^ 8.
Definition u32 (z : Z) : Z := z mod 2 ^ 32.
Definition i32 (z : Z) : Z := (z + 2 ^ 31) mod 2 ^ 32 - 2 ^ 31.
Definition i64 (z : Z) : Z := (z + 2 ^ 63) mod 2 ^ 64 - 2 ^ 63.
Definition INT_MAX : Z := 2 ^ 31 - 1.
Definition LONG_MAX : Z := 2 ^ 63 - 1.
Definition LONG_MIN : Z := - 2 ^ 63.
Definition UINT32_MAX : Z := 2 ^ 32 - 1.

(** ** Decimal digits *)
Definition is_digit (c : ascii) : bool := (48 <=? code c) && (code c <=? 57).
Definition digit_val (c : ascii) : Z := code c - 48.
Definition digit_char (d : Z) : ascii := ascii_of_N (Z.to_N (48 + d)).

(** [isspace] in the C locale. *)
Definition is_space (c : ascii) : bool :=
  (code c =? 32) || ((9 <=? code c) && (code c <=? 13)).

(** Digits of a non-negative number, most significant first, in front of
    [acc]; [fuel] bounds the number of digits. *)
Fixpoint dec_digits (fuel : nat) (z : Z) (acc : cstr) : cstr :=
  match fuel with
  | O => acc
  | S f =>
    if z <? 10 then digit_char z :: acc
    else dec_digits f (z / 10) (digit_char (z mod 10) :: acc)
  end.

(** Twenty digits hold every 64-bit value. *)
Definition print_uint (z : Z) : cstr := dec_digits 20 z [].

(** [%d], [%ld]. *)
Definition print_int (z : Z) : cstr :=
  if z <? 0 then "-"%char :: print_uint (- z) else print_uint z.

(** Longest run of digits from the left: the accumulated value, how many
    digits were read and what is left. *)
Fixpoint scan_digits (acc : Z) (n : nat) (s : cstr) : Z * nat * cstr :=
  match s with
  | c :: s' => if is_digit c then scan_digits (acc * 10 + digit_val c) (S n) s' else (acc, n, s)
  | [] => (acc, n, [])
  end.

Fixpoint skip_space (s : cstr) : cstr :=
  match s with
  | c :: s' => if is_space c then skip_space s' else s
  | [] => []
  end.

(** [strtol(s, &end, 10)] on an LP64 target: the saturated value and [end].
    With no digits the value is 0 and [end] is [s]. *)
Definition strtol (s : cstr) : Z * cstr :=
  let s1 := skip_space s in
  let '(neg, s2) :=
    match s1 with
    | c :: t => if ceqb c "-" then (true, t) else if ceqb c "+" then (false, t) else (false, s1)
    | [] => (false, s1)
    end in
  let '(v, n, rest) := scan_digits 0 0 s2 in
  match n with
  | O => (0, s)
  | S _ => (if neg then Z.max LONG_MIN (- v) else Z.min LONG_MAX v, rest)
  end.

(** [atoi]: [(int)strtol(s, NULL, 10)]. *)
Definition atoi (s : cstr) : Z := i32 (fst (strtol s)).

(** [strcmp]: the sign of the first difference, bytes as unsigned. *)
Fixpoint strcmp (a b : cstr) : Z :=
  match a, b with
  | [], [] => 0
  | [], _ :: _ => -1
  | _ :: _, [] => 1
  | x :: a', y :: b' =>
    if code x <? code y then -1 else if code y <? code x then 1 else strcmp a' b'
  end.

Definition streq (a b : cstr) : bool := strcmp a b =? 0.

(** ** Lemmas *)

Lemma code_inj a b : code a = code b -> a = b.
Proof.
  unfold code; intros H. apply N2Z.inj in H.
  rewrite <-(ascii_N_embedding a), <-(ascii_N_embedding b). by rewrite H.
Qed.

Lemma code_range c : 0 <= code c < 256.
Proof. unfold code. pose proof (N_ascii_bounded c). lia. Qed.

Lemma code_ascii_of_Z z : 0 <= z < 256 -> code (ascii_of_N (Z.to_N z)) = z.
Proof. intros H. unfold code. rewrite N_ascii_embedding; lia. Qed.

Lemma strcmp_0 a b : strcmp a b = 0 <-> a = b.
Proof.
  split; [|intros ->; induction b as [|x b IH]; [done|]; simpl;
           by rewrite Z.ltb_irrefl].
  revert b; induction a as [|x a IH]; intros [|y b]; simpl; [done..|].
  destruct (Z.ltb_spec (code x) (code y)), (Z.ltb_spec (code y) (code x)); try done.
  intros H1. f_equal; [apply code_inj; lia | by apply IH].
Qed.

Lemma streq_true a b : streq a b = true <-> a = b.
Proof. unfold streq. by rewrite Z.eqb_eq, strcmp_0. Qed.

Lemma streq_refl a : streq a a = true.
Proof. by apply streq_true. Qed.

Lemma streq_false a b : streq a b = false <-> a <> b.
Proof. rewrite <-streq_true. by destruct (streq a b). Qed.

Lemma i32_id z : - 2 ^ 31 <= z <= INT_MAX -> i32 z = z.
Proof. unfold i32, INT_MAX. intros. rewrite Z.mod_small; lia. Qed.

Lemma i64_id z : - 2 ^ 63 <= z <= LONG_MAX -> i64 z = z.
Proof. unfold i64, LONG_MAX. intros. rewrite Z.mod_small; lia. Qed.

Lemma i32_range z : - 2 ^ 31 <= i32 z <= INT_MAX.
Proof. unfold i32, INT_MAX. pose proof (Z.mod_pos_bound (z + 2^31) (2^32)). lia. Qed.

Lemma u32_range z : 0 <= u32 z < 2 ^ 32.
Proof. apply Z.mod_pos_bound. lia. Qed.

Lemma u32_id z : 0 <= z < 2 ^ 32 -> u32 z = z.
Proof. apply Z.mod_small. Qed.

Lemma trunc_id n s : (length s < n)%nat -> trunc n s = s.
Proof. intros. apply take_ge. lia. Qed.

Lemma trunc_length n s : (0 < n)%nat -> (length (trunc n s) < n)%nat.
Proof. intros. unfold trunc. rewrite length_take. lia. Qed.

Lemma digit_char_spec d : 0 <= d <= 9 ->
  is_digit (digit_char d) = true /\ digit_val (digit_char d) = d.
Proof.
  intros H. unfold is_digit, digit_val, digit_char.
  rewrite code_ascii_of_Z by lia. split; [|lia].
  apply andb_true_intro; split; apply Z.leb_le; lia.
Qed.

(** A digit string is what [dec_digits] writes: it is read back exactly. *)
Lemma scan_dec_digits fuel z n tl : 0 <= z < 10 ^ Z.of_nat fuel -> (0 < fuel)%nat ->
  exists k, (0 < k)%nat /\ forall a, scan_digits a n (dec_digits fuel z tl) =
                 scan_digits (a * 10 ^ Z.of_nat k + z) (n + k) tl.
Proof.
  revert z n tl. induction fuel as [|f IH]; intros z n tl Hz Hf; [lia|].
  simpl. destruct (Z.ltb_spec z 10).
  - exists 1%nat. split; [lia|]. intros a. simpl.
    destruct (digit_char_spec z) as [-> ->]; [lia|].
    replace (n + 1)%nat with (S n) by lia. f_equal; lia.
  - assert (Hq : 0 <= z / 10 < 10 ^ Z.of_nat f).
    { split; [apply Z.div_pos; lia|]. apply Z.div_lt_upper_bound; [lia|].
      rewrite <-Z.pow_succ_r by lia. replace (Z.succ (Z.of_nat f)) with (Z.of_nat (S f)) by lia. lia. }
    assert (0 < f)%nat. { destruct f; [simpl in Hz; lia|lia]. }
    destruct (IH (z / 10) n (digit_char (z mod 10) :: tl)) as (k & Hk & E); [done..|].
    exists (S k). split; [lia|]. intros a. rewrite E. simpl.
    pose proof (Z.mod_pos_bound z 10 ltac:(lia)).
    destruct (digit_char_spec (z mod 10)) as [-> ->]; [lia|].
    replace (S (n + k)) with (n + S k)%nat by lia. f_equal.
    rewrite Nat2Z.inj_succ, Z.pow_succ_r by lia.
    rewrite (Z.div_mod z 10) at 3 by lia. lia.
Qed.

Definition not_digit_head (s : cstr) : Prop :=
  match s with c :: _ => is_digit c = false | [] => True end.

Lemma scan_not_digit a n s : not_digit_head s -> scan_digits a n s = (a, n, s).
Proof. destruct s as [|c s]; simpl; [done|]. by intros ->. Qed.

Lemma dec_digits_app fuel z tl : dec_digits fuel z tl = dec_digits fuel z [] ++ tl.
Proof.
  revert z tl; induction fuel as [|f IH]; intros z tl; [done|]. simpl.
  case_match; [done|]. rewrite IH, (IH _ [_]), <-app_assoc. done.
Qed.

Lemma dec_digits_digits fuel z : 0 <= z ->
  Forall (fun c => is_digit c = true) (dec_digits fuel z []).
Proof.
  revert z; induction fuel as [|f IH]; intros z Hz; [constructor|]. simpl.
  destruct (Z.ltb_spec z 10).
  - repeat constructor. apply digit_char_spec. lia.
  - rewrite dec_digits_app. apply Forall_app; split; [apply IH, Z.div_pos; lia|].
    repeat constructor. apply digit_char_spec.
    pose proof (Z.mod_pos_bound z 10 ltac:(lia)). lia.
Qed.

Lemma dec_digits_nonempty fuel z : (0 < fuel)%nat -> dec_digits fuel z [] <> [].
Proof.
  destruct fuel; [lia|]. intros _. simpl. case_match; [done|].
  rewrite dec_digits_app. by intros [_ ?]%app_eq_nil.
Qed.

Lemma dec_digits_length fuel z tl : (length (dec_digits fuel z tl) <= fuel + length tl)%nat.
Proof.
  revert z tl; induction fuel as [|f IH]; intros z tl; simpl; [lia|].
  case_match; simpl; [lia|]. rewrite IH. simpl. lia.
Qed.

Lemma print_uint_digits z : 0 <= z -> Forall (fun c => is_digit c = true) (print_uint z).
Proof. apply dec_digits_digits. Qed.

Lemma print_uint_length z : (length (print_uint z) <= 20)%nat.
Proof. unfold print_uint. etrans; [apply dec_digits_length|]. simpl. lia. Qed.

Lemma print_uint_nonempty z : print_uint z <> [].
Proof. apply dec_digits_nonempty. lia. Qed.

Lemma scan_print_uint z rest : 0 <= z < 10 ^ 20 -> not_digit_head rest ->
  exists k, (0 < k)%nat /\ scan_digits 0 0 (print_uint z ++ rest) = (z, k, rest).
Proof.
  intros Hz Hr. unfold print_uint. rewrite <-dec_digits_app.
  destruct (scan_dec_digits 20 z 0 rest) as (k & Hk & E); [simpl; lia|lia|].
  exists k. split; [done|]. by rewrite E, scan_not_digit by done.
Qed.

(** A digit run grows the value and the count, and the count is its length. *)
Lemma scan_digits_grows s : forall a n v k rest, scan_digits a n s = (v, k, rest) -> 0 <= a ->
  a <= v /\ (n <= k)%nat /\ (k + length rest = n + length s)%nat.
Proof.
  induction s as [|c s IH]; intros a n v k rest; simpl; [by intros [= <- <- <-]|].
  destruct (is_digit c) eqn:Hc; [|by intros [= <- <- <-]]. intros E Ha.
  assert (Hd : 0 <= digit_val c). { unfold is_digit, digit_val in *. apply andb_prop in Hc as [H%Z.leb_le _]. lia. }
  apply IH in E; lia.
Qed.

Lemma is_digit_not_space c : is_digit c = true -> is_space c = false.
Proof.
  unfold is_digit, is_space. intros [H1 H2]%andb_prop.
  apply Z.leb_le in H1, H2. apply orb_false_iff; split; [apply Z.eqb_neq; lia|].
  apply andb_false_iff. right. apply Z.leb_gt. lia.
Qed.

Lemma is_digit_not_sign c : is_digit c = true -> ceqb c "-" = false /\ ceqb c "+" = false.
Proof.
  intros H. split; apply bool_decide_eq_false_2; intros ->; done.
Qed.

(** What [%d] prints, [strtol] reads back, stopping right after it. *)
Lemma strtol_print_int z rest : LONG_MIN <= z <= LONG_MAX -> not_digit_head rest ->
  strtol (print_int z ++ rest) = (z, rest).
Proof.
  intros Hz Hr. unfold print_int, LONG_MIN, LONG_MAX in *. destruct (Z.ltb_spec z 0).
  - destruct (scan_print_uint (- z) rest) as (k & Hk & E); [lia|done|].
    unfold strtol. simpl. rewrite E. destruct k; [lia|].
    f_equal. unfold LONG_MIN. lia.
  - destruct (scan_print_uint z rest) as (k & Hk & E); [lia|done|].
    pose proof (print_uint_digits z ltac:(lia)) as Hd.
    unfold strtol. destruct (print_uint z) as [|c s] eqn:Ep; [by destruct (print_uint_nonempty z)|].
    inversion Hd as [|?? Hc _]; subst. simpl.
    rewrite (is_digit_not_space _ Hc).
    destruct (is_digit_not_sign _ Hc) as [-> ->].
    change (c :: (s ++ rest)) with ((c :: s) ++ rest). rewrite E.
    destruct k; [lia|]. f_equal. unfold LONG_MAX. lia.
Qed.

(** [atoi] inverts [%d] on the range of [int]. *)
Lemma atoi_print_int z : - 2 ^ 31 <= z <= INT_MAX -> atoi (print_int z) = z.
Proof.
  intros Hz. unfold atoi. rewrite <-(app_nil_r (print_int z)).
  unfold INT_MAX in *. rewrite strtol_print_int; [|unfold LONG_MIN, LONG_MAX; lia|done].
  simpl. apply i32_id. unfold INT_MAX. lia.
Qed.

Lemma print_int_length z : (length (print_int z) <= 21)%nat.
Proof.
  unfold print_int. case_match; simpl.
  - pose proof (print_uint_length (- z)). lia.
  - pose proof (print_uint_length z). lia.
Qed.

Lemma print_int_nonempty z : print_int z <> [].
Proof. unfold print_int. case_match; [done|]. apply print_uint_nonempty. Qed.

(** The bytes of a printed number: digits and a possible leading minus. *)
Definition int_char (c : ascii) : bool := is_digit c || ceqb c "-".

Lemma print_int_chars z : Forall (fun c => int_char c = true) (print_int z).
Proof.
  assert (H : forall z, 0 <= z -> Forall (fun c => int_char c = true) (print_uint z)).
  { intros x Hx. eapply Forall_impl; [apply print_uint_digits; done|].
    intros c Hc. unfold int_char. by rewrite Hc. }
  unfold print_int. destruct (Z.ltb_spec z 0); [constructor; [done|]|]; apply H; lia.
Qed.

Example atoi_ex1 : atoi ($"42abc") = 42. Proof. reflexivity. Qed.
Example atoi_ex2 : atoi ($" -7") = -7. Proof. reflexivity. Qed.
Example strtol_ex : strtol ($"x1") = (0, $"x1"). Proof. reflexivity. Qed.
