(* ===== verification/Types.v ===== *)
(** * The domain model: include/libballotbrain/types.h and db.h

    Fixed capacities, enums with the source's constructors, and the structs.
    A [char x[N]] field is the C string it holds; an array field is the list
    of its slots, with the companion [*_count] kept separate as in the source. *)
From S2P Require Import Prelude CText.

Definition BB_ID_LEN : nat := 16.
Definition BB_TITLE_LEN : nat := 64.
Definition BB_OPTION_LEN : nat := 32.
Definition BB_CERT_LEN : nat := 32.
Definition BB_TIME_LEN : nat := 32.
Definition BB_HASH_LEN : nat := 65.
Definition BB_NONCE_LEN : nat := 33.
Definition BB_MAX_OPTIONS : nat := 16.
Definition BB_MAX_VOTERS : nat := 64.
Definition BB_CIPHERTEXT_MAX : nat := 256.

Inductive bb_state_t :=
  | BB_STATE_DRAFT | BB_STATE_OPEN | BB_STATE_CLOSED | BB_STATE_PUBLISHED.

Inductive bb_cert_status_t :=
  | BB_CERT_INVALID | BB_CERT_EXPIRED | BB_CERT_NOT_ELIGIBLE | BB_CERT_VALID.

Inductive bb_result_t :=
  | BB_OK
  | BB_ERR_CONFIG_TITLE | BB_ERR_CONFIG_OPTIONS | BB_ERR_CONFIG_TIME | BB_ERR_CONFIG_ID_TAKEN
  | BB_ERR_ILLEGAL_TRANSITION | BB_ERR_NOT_OPEN | BB_ERR_CLOSED | BB_ERR_NOT_PUBLISHED
  | BB_ERR_NOT_ELIGIBLE | BB_ERR_CERT_INVALID | BB_ERR_CERT_EXPIRED
  | BB_ERR_BAD_OPTION | BB_ERR_REPLAY | BB_ERR_DECRYPT
  | BB_ERR_NOT_FOUND
  | BB_ERR_NOT_JOINED
  | BB_ERR_DB | BB_ERR_NOT_IMPLEMENTED | BB_ERR_RETRY.

#[export] Instance bb_state_eq_dec : EqDecision bb_state_t.
Proof. solve_decision. Defined.
#[export] Instance bb_cert_status_eq_dec : EqDecision bb_cert_status_t.
Proof. solve_decision. Defined.
#[export] Instance bb_result_eq_dec : EqDecision bb_result_t.
Proof. solve_decision. Defined.

Record bb_config_t := mkConfig {
  cfg_title : cstr;
  cfg_options : list cstr;
  cfg_option_count : Z;
  cfg_eligible : list cstr;
  cfg_eligible_count : Z;
  cfg_open_time : cstr;
  cfg_close_time : cstr }.

Record bb_election_t := mkElection {
  el_id : cstr;
  el_title : cstr;
  el_state : bb_state_t;
  el_options : list cstr;
  el_option_count : Z;
  el_eligible : list cstr;
  el_eligible_count : Z;
  el_open_time : cstr;
  el_close_time : cstr;
  el_tally : list Z }.

Record bb_ballot_t := mkBallot {
  bl_cert_name : cstr;
  bl_nonce : cstr;
  bl_payload : list ascii;
  bl_payload_len : Z }.

Record bb_ballot_hash_t := mkHashRow {
  bh_hash : cstr;
  bh_option_index : Z;
  bh_version : Z;
  bh_superseded : Z }.

Record bb_results_t := mkResults {
  rs_title : cstr;
  rs_tally : list Z;
  rs_option_count : Z;
  rs_options : list cstr;
  rs_hashes : list bb_ballot_hash_t;
  rs_hash_count : Z }.

Record bb_receipt_t := mkReceipt {
  rc_hash : cstr;
  rc_issued_at : cstr }.

#[export] Instance bb_ballot_hash_eq_dec : EqDecision bb_ballot_hash_t.
Proof. solve_decision. Defined.
#[export] Instance bb_receipt_eq_dec : EqDecision bb_receipt_t.
Proof. solve_decision. Defined.

(** Zeroed structs: what [memset(&x, 0, sizeof x)] leaves. *)
Definition no_options : list cstr := replicate BB_MAX_OPTIONS [].
Definition no_voters : list cstr := replicate BB_MAX_VOTERS [].
Definition zero_tally : list Z := replicate BB_MAX_OPTIONS 0%Z.
Definition zero_election : bb_election_t :=
  mkElection [] [] BB_STATE_DRAFT no_options 0 no_voters 0 [] [] zero_tally.
Definition zero_row : bb_ballot_hash_t := mkHashRow [] 0 0 0.
Definition zero_config : bb_config_t := mkConfig [] no_options 0 no_voters 0 [] [].
Definition zero_receipt : bb_receipt_t := mkReceipt [] [].
Definition zero_ballot : bb_ballot_t := mkBallot [] [] (replicate BB_CIPHERTEXT_MAX Ascii.zero) 0.
Definition zero_results : bb_results_t :=
  mkResults [] zero_tally 0 no_options (replicate BB_MAX_VOTERS zero_row) 0.

(** ** db.h: the typed command and its result *)
Inductive bb_db_op_t :=
  | BB_DB_INSERT_ELECTION | BB_DB_UPDATE_STATE | BB_DB_APPEND_BALLOT
  | BB_DB_MARK_SUPERSEDED | BB_DB_NONCE_MARK | BB_DB_SET_OWNER
  | BB_DB_GET_ELECTION | BB_DB_GET_TALLY | BB_DB_GET_HASHES
  | BB_DB_FIND_HASH | BB_DB_NONCE_SEEN | BB_DB_GET_PRIOR_BALLOT.

#[export] Instance bb_db_op_eq_dec : EqDecision bb_db_op_t.
Proof. solve_decision. Defined.

Record bb_db_cmd_t := mkCmd {
  cmd_op : bb_db_op_t;
  cmd_election_id : cstr;
  cmd_new_state : bb_state_t;
  cmd_hash_row : option bb_ballot_hash_t;
  cmd_hash : cstr;
  cmd_version : Z;
  cmd_nonce : cstr;
  cmd_cert_name : cstr;
  cmd_config : option bb_config_t }.

(** [bb_db_cmd_t c = {0}; c.op = op; snprintf(c.election_id, ...)]. *)
Definition new_cmd (op : bb_db_op_t) (election_id : cstr) : bb_db_cmd_t :=
  mkCmd op (trunc BB_ID_LEN election_id) BB_STATE_DRAFT None [] 0 [] [] None.

Record bb_db_result_t := mkDbResult {
  res_election : bb_election_t;
  res_tally : list Z;
  res_hashes : list bb_ballot_hash_t;
  res_hash_count : Z;
  res_found : bool;
  res_row : bb_ballot_hash_t }.

Definition zero_db_result : bb_db_result_t :=
  mkDbResult zero_election zero_tally (replicate BB_MAX_VOTERS zero_row) 0 false zero_row.

(** [bb_state_str] (ballotbrain.c). *)
Definition bb_state_str (s : bb_state_t) : cstr :=
  match s with
  | BB_STATE_DRAFT => $"DRAFT"
  | BB_STATE_OPEN => $"OPEN"
  | BB_STATE_CLOSED => $"CLOSED"
  | BB_STATE_PUBLISHED => $"PUBLISHED"
  end.

(** [parse_state] (db.c): the inverse, [None] for the C function's -1. *)
Definition parse_state (text : cstr) : option bb_state_t :=
  if streq text ($"DRAFT") then Some BB_STATE_DRAFT
  else if streq text ($"OPEN") then Some BB_STATE_OPEN
  else if streq text ($"CLOSED") then Some BB_STATE_CLOSED
  else if streq text ($"PUBLISHED") then Some BB_STATE_PUBLISHED
  else None.

Lemma parse_state_str s : parse_state (bb_state_str s) = Some s.
Proof. by destruct s. Qed.

#[export] Hint Rewrite parse_state_str : ballot.
