(* ===== verification/Rows.v ===== *)
(** * Reading a select reply: libtetrisdb/socket/rows.c

    The parser works on pointers into one reply body; a pointer is the suffix
    of the body that starts at it, and [NULL] is [None].  The second half
    gives the reply format of the runner ([Query.execute] of
    db/src/java/simpledb/execution/Query.java) and shows that the parser reads
    back exactly the rows that were printed. *)
From S2P Require Import Prelude CText.

Module Rows.

(** ** rows.c *)

(** [strchr(p, '\n') + 1], or NULL. *)
Fixpoint next_line (p : cstr) : option cstr :=
  match p with
  | [] => None
  | c :: p' => if ceqb c LF then Some p' else next_line p'
  end.

(** The line at [p] without its newline; [line_len p] is its length. *)
Fixpoint line_at (p : cstr) : cstr :=
  match p with
  | [] => []
  | c :: p' => if ceqb c LF then [] else c :: line_at p'
  end.

Definition line_len (p : cstr) : nat := length (line_at p).

(** Nothing but dashes, and at least one. *)
Definition is_rule_line (l : cstr) : bool :=
  match l with [] => false | _ => forallb (fun c => ceqb c "-") l end.

Definition is_rule (p : cstr) : bool := is_rule_line (line_at p).

(** The loop of [rows_begin]: [p] is the candidate line. *)
Fixpoint rows_scan (fuel : nat) (p : option cstr) : option cstr :=
  match fuel, p with
  | S f, Some (c :: p') =>
    if is_rule (c :: p') then next_line (c :: p') else rows_scan f (next_line (c :: p'))
  | _, _ => None
  end.

Definition rows_begin (body : cstr) : option cstr :=
  rows_scan (S (length body)) (next_line body).

Fixpoint skip_blanks (t : cstr) : cstr :=
  match t with
  | c :: t' => if ceqb c " " then skip_blanks t' else t
  | [] => []
  end.

Fixpoint starts_with (pre s : cstr) : bool :=
  match pre, s with
  | [], _ => true
  | a :: pre', c :: s' => ceqb a c && starts_with pre' s'
  | _ :: _, [] => false
  end.

(** The digits of the count line, accumulated in [int]s: the sums are cut to
    32 bits (what the machine does where C leaves signed overflow open). *)
Fixpoint scan_count (said digits : Z) (t : cstr) : Z * Z * cstr :=
  match t with
  | c :: t' => if is_digit c then scan_count (i32 (said * 10 + digit_val c)) (i32 (digits + 1)) t' else (said, digits, t)
  | [] => (said, digits, [])
  end.

(** The count line behind the blank line: [Some said], or [None] when it is
    not a count line. *)
Definition trailer_count (t : cstr) : option Z :=
  let '(said, digits, rest) := scan_count 0 0 (skip_blanks t) in
  if (digits =? 0)%Z || negb (starts_with ($" rows.") rest) then None else Some said.

Fixpoint block_count (fuel : nat) (p : option cstr) (n : Z) : Z :=
  match fuel, p with
  | S f, Some (c :: p') =>
    if (0 <? line_len (c :: p'))%nat then block_count f (next_line (c :: p')) (i32 (n + 1))
    else
      match next_line (c :: p') with
      | None => -1
      | Some t =>
        match trailer_count t with
        | None => -1
        | Some said => if (said =? n)%Z then n else -1
        end
      end
  | _, _ => -1
  end%Z.

Definition db_row_count (body : cstr) : Z :=
  match rows_begin body with
  | Some rows => block_count (S (length rows)) (Some rows) 0
  | None => -1
  end.

(** Tab-separated fields of one line, empty ones included. *)
Fixpoint split_tab (l : cstr) : list cstr :=
  match l with
  | [] => [[]]
  | c :: l' =>
    if ceqb c TAB then [] :: split_tab l'
    else match split_tab l' with
         | f :: fs => (c :: f) :: fs
         | [] => [[c]]
         end
  end.

Fixpoint advance (row : nat) (p : cstr) : option cstr :=
  match row with
  | O => Some p
  | S k => match next_line p with Some q => advance k q | None => None end
  end.

(** [db_row_fields(body, row, f, len, max)]: the number of fields and the
    first [max] of them, or [None] for the C function's -1. *)
Definition db_row_fields (body : cstr) (row : Z) (max : nat) : option (nat * list cstr) :=
  let count := db_row_count body in
  if (count <? 0)%Z || (row <? 0)%Z || (count <=? row)%Z then None
  else
    match rows_begin body with
    | None => None
    | Some p0 =>
      match advance (Z.to_nat row) p0 with
      | None => None
      | Some p => let fs := split_tab (line_at p) in Some (length fs, take max fs)
      end
    end.

(** [db_next_id]: -1 when the reply cannot be read.  [strtoll] saturates, and
    the successor is taken in a [long long]. *)
Definition db_next_id (body : cstr) : Z :=
  let rows := db_row_count body in
  if (rows <? 0)%Z then -1
  else if (rows =? 0)%Z then 1
  else
    match db_row_fields body 0 1 with
    | Some (_, f :: _) =>
      if (length f =? 0)%nat || (32 <=? length f)%nat then -1
      else let '(v, end_) := strtol f in
           match end_ with
           | [] => if (v <? 0)%Z then 1 else i64 (v + 1)
           | _ => -1
           end
    | _ => -1
    end%Z.

(** ** The runner's reply *)

(** Lines joined with ['\n'], the way [db_wire_response] stores them. *)
Fixpoint join_lines (ls : list cstr) : cstr :=
  match ls with
  | [] => []
  | [l] => l
  | l :: ls' => l ++ LF :: join_lines ls'
  end.

Fixpoint join_tab (fs : list cstr) : cstr :=
  match fs with
  | [] => []
  | [f] => f
  | f :: fs' => f ++ TAB :: join_tab fs'
  end.

(** [Query.execute]: column names, a rule, the tuples, a blank line, the
    count; the session prints [pre] before and [post] after it. *)
Definition reply_lines (pre : list cstr) (header rule : cstr) (rows : list (list cstr))
    (post : list cstr) : list cstr :=
  pre ++ header :: rule :: map join_tab rows ++
  [] :: ($" " ++ print_uint (Z.of_nat (length rows)) ++ $" rows.") :: post.

Definition reply_body pre header rule rows post : cstr :=
  join_lines (reply_lines pre header rule rows post).

(** ** Lemmas: lines *)

Definition no_char (c : ascii) (s : cstr) : Prop := Forall (fun x => x <> c) s.

Lemma no_char_app c s t : no_char c (s ++ t) <-> no_char c s /\ no_char c t.
Proof. apply Forall_app. Qed.

Lemma next_line_app l r : no_char LF l -> next_line (l ++ LF :: r) = Some r.
Proof.
  induction 1 as [|c l Hc _ IH]; [done|]. simpl. unfold ceqb.
  rewrite bool_decide_eq_false_2 by done. done.
Qed.

Lemma next_line_last l : no_char LF l -> next_line l = None.
Proof.
  induction 1 as [|c l Hc _ IH]; [done|]. simpl. unfold ceqb.
  rewrite bool_decide_eq_false_2 by done. done.
Qed.

Lemma line_at_app l r : no_char LF l -> line_at (l ++ LF :: r) = l.
Proof.
  induction 1 as [|c l Hc _ IH]; [done|]. simpl. unfold ceqb.
  rewrite bool_decide_eq_false_2 by done. by rewrite IH.
Qed.

Lemma line_at_last l : no_char LF l -> line_at l = l.
Proof.
  induction 1 as [|c l Hc _ IH]; [done|]. simpl. unfold ceqb.
  rewrite bool_decide_eq_false_2 by done. by rewrite IH.
Qed.

Lemma next_line_join l l2 ls : no_char LF l ->
  next_line (join_lines (l :: l2 :: ls)) = Some (join_lines (l2 :: ls)).
Proof. intros. by apply next_line_app. Qed.

Lemma line_at_join l ls : no_char LF l -> line_at (join_lines (l :: ls)) = l.
Proof. intros. destruct ls; [by apply line_at_last | by apply line_at_app]. Qed.

(** A pointer at a line that is not the last one is never at the NUL. *)
Lemma join_cons_ne l l2 ls : join_lines (l :: l2 :: ls) <> [].
Proof. simpl. by destruct l. Qed.

Lemma join_lines_length_cons l l2 ls :
  length (join_lines (l :: l2 :: ls)) = S (length l + length (join_lines (l2 :: ls))).
Proof. simpl. rewrite length_app. simpl. lia. Qed.

#[local] Ltac at_line := rewrite ?line_at_join by done.

(** ** [rows_begin] finds the first data row *)

Lemma is_rule_join l ls : no_char LF l -> is_rule (join_lines (l :: ls)) = is_rule_line l.
Proof. intros. unfold is_rule. by rewrite line_at_join. Qed.

Lemma rows_scan_step fuel l l2 ls : no_char LF l ->
  rows_scan (S fuel) (Some (join_lines (l :: l2 :: ls))) =
  if is_rule_line l then Some (join_lines (l2 :: ls))
  else rows_scan fuel (Some (join_lines (l2 :: ls))).
Proof.
  intros Hl. rewrite <-(is_rule_join l (l2 :: ls)) by done.
  pose proof (next_line_join l l2 ls Hl) as Hn.
  destruct (join_lines (l :: l2 :: ls)) as [|c p] eqn:E; [by destruct (join_cons_ne l l2 ls)|].
  cbn [rows_scan]. rewrite Hn. done.
Qed.

Lemma rows_scan_pre fuel pre l l2 ls :
  Forall (no_char LF) pre -> Forall (fun l => is_rule_line l = false) pre ->
  no_char LF l -> is_rule_line l = true ->
  (length pre < fuel)%nat ->
  rows_scan fuel (Some (join_lines (pre ++ l :: l2 :: ls))) = Some (join_lines (l2 :: ls)).
Proof.
  revert fuel; induction pre as [|x pre IH]; intros fuel Hn Hr Hl Hrl Hf.
  - destruct fuel; [simpl in *; lia|]. simpl app. rewrite rows_scan_step by done. by rewrite Hrl.
  - inversion Hn; inversion Hr; subst. destruct fuel; [simpl in *; lia|].
    assert (exists y ys, pre ++ l :: l2 :: ls = y :: ys) as (y & ys & E).
    { destruct pre; simpl; eauto. }
    change ((x :: pre) ++ l :: l2 :: ls) with (x :: (pre ++ l :: l2 :: ls)).
    rewrite E, rows_scan_step, <-E by done.
    match goal with H : is_rule_line x = false |- _ => rewrite H end.
    apply IH; try done. simpl in Hf. lia.
Qed.

Lemma join_lines_length ls : (length ls <= S (length (join_lines ls)))%nat.
Proof.
  induction ls as [|l [|l2 ls] IH]; [simpl; lia|simpl; lia|].
  rewrite join_lines_length_cons. simpl in *. lia.
Qed.

(** ** [block_count] agrees with the printed count *)

Lemma skip_blanks_print z rest : (0 <= z)%Z ->
  skip_blanks (print_uint z ++ rest) = print_uint z ++ rest.
Proof.
  intros Hz. pose proof (print_uint_digits z Hz) as Hd.
  destruct (print_uint z) as [|c s] eqn:E; [by destruct (print_uint_nonempty z)|].
  inversion Hd; subst. simpl. case_match eqn:Ec; [|done].
  apply bool_decide_eq_true in Ec. subst. done.
Qed.

Lemma scan_count_digits s : forall a n v k rest, scan_digits a n s = (v, k, rest) ->
  (0 <= a)%Z -> (v <= INT_MAX)%Z -> (Z.of_nat k <= INT_MAX)%Z -> scan_count a (Z.of_nat n) s = (v, Z.of_nat k, rest).
Proof.
  induction s as [|c s IH]; intros a n v k rest; simpl; [by intros [= <- <- <-]|].
  destruct (is_digit c) eqn:Hc; [|by intros [= <- <- <-]]. intros E Ha Hv Hk.
  assert (Hd : (0 <= digit_val c)%Z). { unfold is_digit, digit_val in *. apply andb_prop in Hc as [H%Z.leb_le _]. lia. }
  destruct (scan_digits_grows _ _ _ _ _ _ E) as (H1 & H2 & _); [lia|].
  rewrite !i32_id by lia. rewrite <-(IH _ _ _ _ _ E) by lia. f_equal. lia.
Qed.

Lemma trailer_count_print n rest : (Z.of_nat n <= INT_MAX)%Z ->
  trailer_count ($" " ++ print_uint (Z.of_nat n) ++ $" rows." ++ rest) = Some (Z.of_nat n).
Proof.
  intros Hn. unfold trailer_count.
  change (skip_blanks ($" " ++ print_uint (Z.of_nat n) ++ $" rows." ++ rest))
    with (skip_blanks (print_uint (Z.of_nat n) ++ $" rows." ++ rest)).
  rewrite skip_blanks_print by lia.
  destruct (scan_print_uint (Z.of_nat n) ($" rows." ++ rest)) as (k & Hk & E); [unfold INT_MAX in Hn; lia|done|].
  destruct (scan_digits_grows _ _ _ _ _ _ E) as (_ & _ & Hlen); [lia|].
  rewrite !length_app in Hlen. pose proof (print_uint_length (Z.of_nat n)).
  pose proof (scan_count_digits _ 0 0%nat _ _ _ E) as Hs. change (Z.of_nat 0) with 0%Z in Hs. rewrite Hs by (unfold INT_MAX in *; lia).
  rewrite (proj2 (Z.eqb_neq _ _)) by lia. done.
Qed.

Lemma block_count_rows fuel rows trailer post n :
  Forall (no_char LF) rows -> Forall (fun l => l <> []) rows ->
  no_char LF trailer ->
  (length rows < fuel)%nat -> (0 <= n)%Z -> (n + Z.of_nat (length rows) <= INT_MAX)%Z ->
  block_count fuel (Some (join_lines (rows ++ [] :: trailer :: post))) n =
  (match trailer_count (join_lines (trailer :: post)) with
   | Some said => if said =? n + Z.of_nat (length rows) then n + Z.of_nat (length rows) else -1
   | None => -1
   end)%Z.
Proof.
  revert fuel n; induction rows as [|r rows IH]; intros fuel n Hn Hne Ht Hf H0 Hm.
  - destruct fuel; [simpl in *; lia|].
    change (([] : list cstr) ++ [] :: trailer :: post) with ([] :: trailer :: post).
    change (join_lines ([] :: trailer :: post)) with (LF :: join_lines (trailer :: post)).
    rewrite Z.add_0_r. done.
  - inversion Hn; inversion Hne; subst. destruct fuel; [simpl in *; lia|].
    assert (exists y ys, rows ++ [] :: trailer :: post = y :: ys) as (y & ys & E).
    { destruct rows; simpl; eauto. }
    change ((r :: rows) ++ [] :: trailer :: post) with (r :: (rows ++ [] :: trailer :: post)).
    rewrite E.
    destruct (join_lines (r :: y :: ys)) as [|c p] eqn:Ej; [by destruct (join_cons_ne r y ys)|].
    cbn [block_count]. rewrite <-Ej. unfold line_len.
    rewrite line_at_join, next_line_join by done.
    destruct r as [|c0 r]; [done|]. rewrite (proj2 (Nat.ltb_lt _ _)) by (simpl; lia).
    cbn [length] in Hm. rewrite i32_id by lia. rewrite <-E, IH; try done; [|simpl in Hf; lia|lia..].
    replace (n + 1 + Z.of_nat (length rows))%Z with (n + Z.of_nat (length ((c0 :: r) :: rows)))%Z
      by (simpl length; lia). done.
Qed.

(** ** Tab-separated fields *)

Lemma split_join_tab f fs : Forall (no_char TAB) (f :: fs) -> split_tab (join_tab (f :: fs)) = f :: fs.
Proof.
  revert f; induction fs as [|g fs IH]; intros f H; inversion H as [|?? Hf Hfs]; subst.
  - simpl. clear -Hf. induction Hf as [|c f Hc _ IH]; [done|]. simpl. unfold ceqb.
    rewrite bool_decide_eq_false_2 by done. by rewrite IH.
  - change (join_tab (f :: g :: fs)) with (f ++ TAB :: join_tab (g :: fs)).
    clear -Hf Hfs IH. induction Hf as [|c f Hc _ IHf].
    + change (split_tab ([] ++ TAB :: join_tab (g :: fs)))
        with ([] :: split_tab (join_tab (g :: fs))). by rewrite IH.
    + cbn [app split_tab]. unfold ceqb. rewrite bool_decide_eq_false_2 by done. by rewrite IHf.
Qed.

Lemma join_tab_no_LF fs : Forall (no_char LF) fs -> no_char LF (join_tab fs).
Proof.
  induction 1 as [|f [|g fs] Hf Hfs IH]; [constructor|done|].
  apply no_char_app. split; [done|]. constructor; [done|]. exact IH.
Qed.

Lemma join_tab_two_ne f g fs : join_tab (f :: g :: fs) <> [].
Proof. simpl. by destruct f. Qed.

Lemma advance_join k rows l ls : Forall (no_char LF) rows -> (k <= length rows)%nat ->
  advance k (join_lines (rows ++ l :: ls)) = Some (join_lines (drop k (rows ++ l :: ls))).
Proof.
  revert k; induction rows as [|r rows IH]; intros [|k] H Hk; try done; [simpl in Hk; lia|].
  inversion H; subst. simpl app.
  assert (exists y ys, rows ++ l :: ls = y :: ys) as (y & ys & E).
  { destruct rows; simpl; eauto. }
  cbn [advance]. rewrite E, next_line_join, <-E by done. simpl drop. apply IH; [done|].
  simpl in Hk. lia.
Qed.

(** ** The reader inverts the printer *)

Section Reply.
Context (pre : list cstr) (header rule : cstr) (rows : list (list cstr)) (post : list cstr).

(** What is required of a reply for it to be readable: no stray newline or
    tab, no dashed line above the table, no row that prints as an empty line,
    and a number of rows an [int] holds. *)
Record reply_ok : Prop := {
  ok_pre : Forall (no_char LF) pre;
  ok_pre_rule : Forall (fun l => is_rule_line l = false) (tail (pre ++ [header]));
  ok_header : no_char LF header;
  ok_rule : no_char LF rule /\ is_rule_line rule = true;
  ok_fields : Forall (fun r => r <> [] /\ Forall (no_char LF) r /\ Forall (no_char TAB) r) rows;
  ok_nonempty : Forall (fun r => join_tab r <> []) rows;
  ok_count : (Z.of_nat (length rows) <= INT_MAX)%Z;
}.

Context (Hok : reply_ok).

Definition table_part : list cstr :=
  map join_tab rows ++ [] :: ($" " ++ print_uint (Z.of_nat (length rows)) ++ $" rows.") :: post.

Lemma table_part_cons : exists y ys, table_part = y :: ys.
Proof. unfold table_part. destruct (map join_tab rows); simpl; eauto. Qed.

Lemma rows_begin_reply : rows_begin (reply_body pre header rule rows post) = Some (join_lines table_part).
Proof.
  destruct Hok as [H1 H2 H3 [H4 H5] _ _ _]. unfold rows_begin, reply_body, reply_lines.
  fold table_part. destruct table_part_cons as (y & ys & E). rewrite E.
  assert (Hfuel : (length (pre ++ header :: rule :: y :: ys) <=
                   S (length (join_lines (pre ++ header :: rule :: y :: ys))))%nat)
    by apply join_lines_length.
  rewrite length_app in Hfuel. simpl in Hfuel.
  destruct pre as [|p0 pre'].
  - simpl app in *. rewrite next_line_join by done.
    rewrite rows_scan_step by done. by rewrite H5.
  - inversion H1; subst. simpl app.
    assert (exists z zs, pre' ++ header :: rule :: y :: ys = z :: zs) as (z & zs & Ez).
    { destruct pre'; simpl; eauto. }
    rewrite Ez, next_line_join, <-Ez by done.
    replace (pre' ++ header :: rule :: y :: ys) with ((pre' ++ [header]) ++ rule :: y :: ys)
      by (by rewrite <-app_assoc).
    apply rows_scan_pre; try done.
    + apply Forall_app; split; [done|]. by repeat constructor.
    + rewrite length_app. simpl app in Hfuel. simpl in *.
      replace ((pre' ++ [header]) ++ rule :: y :: ys) with (pre' ++ header :: rule :: y :: ys)
        by (by rewrite <-app_assoc). rewrite Ez.
      change (p0 :: (pre' ++ header :: rule :: y :: ys)) with (p0 :: (pre' ++ header :: rule :: y :: ys)) in Hfuel.
      rewrite Ez in Hfuel. lia.
Qed.

Lemma rows_no_LF : Forall (no_char LF) (map join_tab rows).
Proof.
  apply Forall_map. eapply Forall_impl; [apply Hok|]. intros r (_ & ? & _). by apply join_tab_no_LF.
Qed.

Lemma db_row_count_reply :
  db_row_count (reply_body pre header rule rows post) = Z.of_nat (length rows).
Proof.
  unfold db_row_count. rewrite rows_begin_reply. unfold table_part.
  assert (Ht : no_char LF ($" " ++ print_uint (Z.of_nat (length rows)) ++ $" rows.")).
  { rewrite !no_char_app. split; [by repeat constructor|]. split; [|by repeat constructor].
    eapply Forall_impl; [apply print_uint_digits; lia|]. intros c Hc ->. done. }
  pose proof (join_lines_length (map join_tab rows ++ [] ::
    ($" " ++ print_uint (Z.of_nat (length rows)) ++ $" rows.") :: post)) as Hf.
  rewrite length_app, length_map in Hf. cbn [length] in Hf.
  rewrite block_count_rows.
  - rewrite length_map.
    assert (Htc : trailer_count (join_lines
       (($" " ++ print_uint (Z.of_nat (length rows)) ++ $" rows.") :: post)) =
       Some (Z.of_nat (length rows))).
    { assert (Hj : exists rest, join_lines (($" " ++ print_uint (Z.of_nat (length rows)) ++ $" rows.") :: post)
                    = $" " ++ print_uint (Z.of_nat (length rows)) ++ $" rows." ++ rest).
      { destruct post as [|q qs]; [exists []|exists (LF :: join_lines (q :: qs))];
          simpl; rewrite <-?app_assoc; done. }
      destruct Hj as [rest ->]. apply trailer_count_print, Hok. }
    rewrite Htc. by rewrite Z.eqb_refl.
  - apply rows_no_LF.
  - apply Forall_map. apply Hok.
  - done.
  - rewrite length_map. lia.
  - lia.
  - rewrite length_map. apply Hok.
Qed.

Lemma db_row_fields_reply (i : nat) r max :
  rows !! i = Some r ->
  db_row_fields (reply_body pre header rule rows post) (Z.of_nat i) max =
  Some (length r, take max r).
Proof.
  intros Hi. pose proof (lookup_lt_Some _ _ _ Hi) as Hlt.
  unfold db_row_fields. rewrite db_row_count_reply, rows_begin_reply.
  rewrite (proj2 (Z.ltb_ge _ _)), (proj2 (Z.ltb_ge _ _)), (proj2 (Z.leb_gt _ _)) by lia. simpl.
  unfold table_part. rewrite Nat2Z.id, advance_join.
  - rewrite drop_app_le by (rewrite length_map; lia).
    rewrite <-fmap_drop, (drop_S _ _ _ Hi). simpl map. simpl app.
    pose proof (ok_fields Hok) as HF. rewrite Forall_forall in HF.
    destruct (HF r) as (Hne & HLF & HTAB); [by eapply list_elem_of_lookup_2|].
    rewrite line_at_join by (by apply join_tab_no_LF).
    destruct r as [|f fs]; [done|]. by rewrite split_join_tab.
  - apply rows_no_LF.
  - rewrite length_map. lia.
Qed.

End Reply.
Arguments reply_ok : clear implicits.

(** C24: the row reader inverts the runner's table printer: it reports the
    number of tuples, gives back every field of every tuple and refuses every
    other row number, whatever is printed above and below the table.  The reply
    is one the format can carry: no newline or tab inside a field, no dashed
    line above the rule, no tuple that prints as an empty line (a single empty
    field does, see [empty_name_locks_the_list_out] in Examples.v), and no more
    tuples than an [int] counts. *)
Theorem rows_reader_inverts_printer pre header rule rows post :
  Forall (no_char LF) pre -> Forall (fun l => is_rule_line l = false) (tail (pre ++ [header])) ->
  no_char LF header -> no_char LF rule -> is_rule_line rule = true ->
  Forall (fun r => r <> [] /\ Forall (no_char LF) r /\ Forall (no_char TAB) r) rows ->
  Forall (fun r => join_tab r <> []) rows -> (Z.of_nat (length rows) <= INT_MAX)%Z ->
  db_row_count (reply_body pre header rule rows post) = Z.of_nat (length rows) /\
  (forall i r max, rows !! i = Some r ->
     db_row_fields (reply_body pre header rule rows post) (Z.of_nat i) max = Some (length r, take max r)) /\
  (forall i max, ~ (0 <= i < Z.of_nat (length rows))%Z -> db_row_fields (reply_body pre header rule rows post) i max = None).
Proof.
  intros H1 H2 H3 H4 H5 H6 H7 H8. assert (Hok : reply_ok pre header rule rows) by (by split).
  split; [by apply db_row_count_reply|]. split; [intros; by apply db_row_fields_reply|].
  intros i max Hi. unfold db_row_fields. rewrite db_row_count_reply by done.
  rewrite (proj2 (Z.ltb_ge (Z.of_nat _) 0)) by lia. cbn [orb].
  destruct (Z.ltb_spec i 0); [done|]. by rewrite (proj2 (Z.leb_le _ _)) by lia.
Qed.

Lemma rows_reader_inverts_printer_witness :
  db_row_fields (reply_body [] ($"seq" ++ [TAB]) ($"--------") [[$"100"; $"Mascot"]; [$"101"; []]] []) 1 2 = Some (2%nat, [$"101"; []]).
Proof.
  refine (proj1 (proj2 (rows_reader_inverts_printer [] ($"seq" ++ [TAB]) ($"--------") [[$"100"; $"Mascot"]; [$"101"; []]] [] _ _ _ _ _ _ _ _)) 1%nat _ 2%nat eq_refl);
    repeat constructor; discriminate.
Defined.

End Rows.
