(* ===== verification/Sql.v ===== *)
(** * SQL text: db_quote and the statements of libballotbrain

    [db_quote] is schema.c's literal writer.  A statement is kept as the
    pieces of the format string it is printed with; [sql_text] is the text
    that goes on the wire, cut to [SQL_MAX] as [snprintf] does. *)
From S2P Require Import Prelude CText Types Rows.

Module Sql.

(** ** db_quote (schema.c) *)

(** The copy loop: [w] bytes are already written. *)
Fixpoint quote_loop (cap w : nat) (src : cstr) : cstr :=
  match src with
  | [] => []
  | c :: src' =>
    let n := (if ceqb c QUOTE then 2 else 1)%nat in
    if (w + n + 2 <=? cap)%nat then
      (if ceqb c QUOTE then [QUOTE; QUOTE] else [c]) ++ quote_loop cap (w + n) src'
    else []
  end.

Definition db_quote (cap : nat) (src : cstr) : cstr :=
  if (cap <? 3)%nat then [] else QUOTE :: quote_loop cap 1 src ++ [QUOTE].

(** ** Statements *)

Definition QUOTE_MAX : nat := 512.
Definition SQL_MAX : nat := 4096.

(** One directive of a format string: literal text, [%d], a [db_quote]d [%s],
    a state word between quotes, or a number carried over as text. *)
Inductive piece :=
  | Raw (t : cstr)
  | Num (z : Z)
  | Lit (s : cstr)
  | Word (s : bb_state_t)
  | NumText (t : cstr).

Definition render (p : piece) : cstr :=
  match p with
  | Raw t => t
  | Num z => print_int z
  | Lit s => db_quote QUOTE_MAX s
  | Word s => QUOTE :: bb_state_str s ++ [QUOTE]
  | NumText t => t
  end.

Definition render_all (ps : list piece) : cstr := concat (map render ps).

Inductive stmt :=
  | SetTransaction | Commit | Rollback
  | InsElection (seq : Z) (id title opn cls : cstr)
  | InsElectionState (seq_text id title : cstr) (state : bb_state_t) (opn cls : cstr)
  | SelElection (id : cstr)
  | SelElectionCarry (id : cstr)
  | DelElection (id : cstr)
  | SelMaxSeq
  | InsOption (id : cstr) (idx : Z) (name : cstr)
  | SelOption (id : cstr)
  | InsEligible (id cert : cstr)
  | SelEligible (id : cstr)
  | InsBallot (id hash : cstr) (opt ver sup : Z)
  | InsBallotSuperseded (id hash opt_text ver_text : cstr)
  | SelBallot (id hash : cstr)
  | DelBallot (id hash : cstr)
  | SelTally (id : cstr)
  | SelLive (id : cstr)
  | SelLiveHash (id hash : cstr)
  | InsNonce (id nonce : cstr)
  | SelNonce (id nonce : cstr)
  | DelOwner (id cert : cstr)
  | InsOwner (id cert hash : cstr) (ver : Z)
  | SelOwner (id cert : cstr).

Definition sql_pieces (s : stmt) : list piece :=
  match s with
  | SetTransaction => [Raw ($"set transaction read write;")]
  | Commit => [Raw ($"commit;")]
  | Rollback => [Raw ($"rollback;")]
  | InsElection seq id title opn cls =>
    [Raw ($"insert into election values ("); Num seq; Raw ($", "); Lit id; Raw ($", "); Lit title;
     Raw ($", "); Word BB_STATE_DRAFT; Raw ($", "); Lit opn; Raw ($", "); Lit cls; Raw ($");")]
  | InsElectionState seq id title state opn cls =>
    [Raw ($"insert into election values ("); NumText seq; Raw ($", "); Lit id; Raw ($", "); Lit title;
     Raw ($", "); Word state; Raw ($", "); Lit opn; Raw ($", "); Lit cls; Raw ($");")]
  | SelElection id =>
    [Raw ($"select seq, id, title, state, open_time, close_time from election where id = ");
     Lit id; Raw ($";")]
  | SelElectionCarry id =>
    [Raw ($"select seq, title, open_time, close_time from election where id = "); Lit id; Raw ($";")]
  | DelElection id => [Raw ($"delete from election where id = "); Lit id; Raw ($";")]
  | SelMaxSeq => [Raw ($"select max(seq) from election;")]
  | InsOption id idx name =>
    [Raw ($"insert into election_option values ("); Lit id; Raw ($", "); Num idx; Raw ($", ");
     Lit name; Raw ($");")]
  | SelOption id =>
    [Raw ($"select idx, name from election_option where election_id = "); Lit id; Raw ($";")]
  | InsEligible id cert =>
    [Raw ($"insert into election_eligible values ("); Lit id; Raw ($", "); Lit cert; Raw ($");")]
  | SelEligible id =>
    [Raw ($"select cert_name from election_eligible where election_id = "); Lit id; Raw ($";")]
  | InsBallot id hash opt ver sup =>
    [Raw ($"insert into ballot values ("); Lit id; Raw ($", "); Lit hash; Raw ($", "); Num opt;
     Raw ($", "); Num ver; Raw ($", "); Num sup; Raw ($");")]
  | InsBallotSuperseded id hash opt ver =>
    [Raw ($"insert into ballot values ("); Lit id; Raw ($", "); Lit hash; Raw ($", "); NumText opt;
     Raw ($", "); NumText ver; Raw ($", 1);")]
  | SelBallot id hash =>
    [Raw ($"select option_index, version from ballot where election_id = "); Lit id;
     Raw ($" and hash = "); Lit hash; Raw ($";")]
  | DelBallot id hash =>
    [Raw ($"delete from ballot where election_id = "); Lit id; Raw ($" and hash = "); Lit hash;
     Raw ($";")]
  | SelTally id =>
    [Raw ($"select option_index from ballot where election_id = "); Lit id;
     Raw ($" and superseded = 0;")]
  | SelLive id =>
    [Raw ($"select hash, option_index, version, superseded from ballot where election_id = "); Lit id;
     Raw ($" and superseded = 0;")]
  | SelLiveHash id hash =>
    [Raw ($"select hash, option_index, version, superseded from ballot where election_id = "); Lit id;
     Raw ($" and hash = "); Lit hash; Raw ($" and superseded = 0;")]
  | InsNonce id nonce =>
    [Raw ($"insert into nonce values ("); Lit id; Raw ($", "); Lit nonce; Raw ($");")]
  | SelNonce id nonce =>
    [Raw ($"select nonce from nonce where election_id = "); Lit id; Raw ($" and nonce = "); Lit nonce;
     Raw ($";")]
  | DelOwner id cert =>
    [Raw ($"delete from ballot_owner where election_id = "); Lit id; Raw ($" and cert_name = ");
     Lit cert; Raw ($";")]
  | InsOwner id cert hash ver =>
    [Raw ($"insert into ballot_owner values ("); Lit id; Raw ($", "); Lit cert; Raw ($", "); Lit hash;
     Raw ($", "); Num ver; Raw ($");")]
  | SelOwner id cert =>
    [Raw ($"select hash, version from ballot_owner where election_id = "); Lit id;
     Raw ($" and cert_name = "); Lit cert; Raw ($";")]
  end.

Definition sql_text (s : stmt) : cstr := trunc SQL_MAX (render_all (sql_pieces s)).

(** ** A reference reader for literals

    SQL's rule: inside a literal a doubled quote stands for one quote and a
    single quote ends the literal. *)
Fixpoint read_lit (s : cstr) : option (cstr * cstr) :=
  match s with
  | [] => None
  | c :: s1 =>
    if ceqb c QUOTE then
      match s1 with
      | c2 :: s2 =>
        if ceqb c2 QUOTE then
          match read_lit s2 with
          | Some (body, rest) => Some (QUOTE :: body, rest)
          | None => None
          end
        else Some ([], s1)
      | [] => Some ([], [])
      end
    else
      match read_lit s1 with
      | Some (body, rest) => Some (c :: body, rest)
      | None => None
      end
  end.

(** ** Lemmas on [db_quote] *)

Definition not_quote_head (s : cstr) : Prop :=
  match s with c :: _ => c <> QUOTE | [] => True end.

Lemma quote_loop_length cap w src : (w + 2 <= cap)%nat ->
  (w + length (quote_loop cap w src) + 2 <= cap)%nat.
Proof.
  revert w; induction src as [|c src IH]; intros w Hw; cbn [quote_loop length]; [lia|].
  case_match eqn:E; [|simpl; lia]. apply Nat.leb_le in E.
  rewrite length_app. specialize (IH (w + (if ceqb c QUOTE then 2 else 1))%nat).
  destruct (ceqb c QUOTE); simpl in *; lia.
Qed.

Lemma ceqb_quote_false c : c <> QUOTE -> ceqb c QUOTE = false.
Proof. intros. by apply bool_decide_eq_false_2. Qed.

Lemma read_lit_end rest : not_quote_head rest -> read_lit (QUOTE :: rest) = Some ([], rest).
Proof. intros Hr. destruct rest as [|c2 rest]; [done|]. simpl. by rewrite ceqb_quote_false. Qed.

(** Whatever is quoted, and however much of it fits, the literal ends where
    [db_quote] ends it: no input can reach the text behind it. *)
Lemma read_quote_loop cap w src rest : not_quote_head rest ->
  exists k, read_lit (quote_loop cap w src ++ QUOTE :: rest) = Some (take k src, rest).
Proof.
  intros Hr. revert w; induction src as [|c src IH]; intros w.
  - exists 0%nat. by apply read_lit_end.
  - cbn [quote_loop]. case_match; [|exists 0%nat; by apply read_lit_end].
    destruct (IH (w + (if ceqb c QUOTE then 2 else 1))%nat) as (k & Hk).
    exists (S k). destruct (ceqb c QUOTE) eqn:Ec.
    + apply bool_decide_eq_true in Ec as ->. simpl. by rewrite Hk.
    + simpl. by rewrite Ec, Hk.
Qed.

(** The size of a literal's body once its quotes are doubled. *)
Fixpoint quoted_size (src : cstr) : nat :=
  match src with
  | [] => 0
  | c :: s => (if ceqb c QUOTE then 2 else 1) + quoted_size s
  end.

Lemma quoted_size_le src : (quoted_size src <= 2 * length src)%nat.
Proof. induction src as [|c s IH]; simpl; [lia|]. destruct (ceqb c QUOTE); lia. Qed.

Lemma read_quote_loop_full cap w src rest : not_quote_head rest ->
  (w + quoted_size src + 2 <= cap)%nat ->
  read_lit (quote_loop cap w src ++ QUOTE :: rest) = Some (src, rest).
Proof.
  intros Hr. revert w; induction src as [|c src IH]; intros w Hw; [by apply read_lit_end|].
  cbn [quote_loop]. simpl in Hw. rewrite (proj2 (Nat.leb_le _ _)) by lia.
  specialize (IH (w + (if ceqb c QUOTE then 2 else 1))%nat ltac:(lia)).
  destruct (ceqb c QUOTE) eqn:Ec.
  - apply bool_decide_eq_true in Ec as ->. simpl. by rewrite IH.
  - simpl. by rewrite Ec, IH.
Qed.

(** A quote-free text that fits is copied verbatim. *)
Lemma quote_loop_plain cap w src : Rows.no_char QUOTE src -> (w + length src + 2 <= cap)%nat ->
  quote_loop cap w src = src.
Proof.
  intros Hn. revert w; induction Hn as [|c src Hc _ IH]; intros w Hw; [done|].
  cbn [quote_loop]. rewrite ceqb_quote_false by done. simpl in Hw.
  rewrite (proj2 (Nat.leb_le _ _)) by lia. simpl. rewrite IH by lia. done.
Qed.

Lemma db_quote_length cap src : (3 <= cap)%nat -> (length (db_quote cap src) < cap)%nat.
Proof.
  intros H. unfold db_quote. rewrite (proj2 (Nat.ltb_ge _ _)) by done.
  simpl. rewrite length_app. simpl. pose proof (quote_loop_length cap 1 src). lia.
Qed.

(** ** A reference lexer for statement text *)

Inductive tok := TText (t : cstr) | TLit (s : cstr).

(** [acc] is the text collected since the last literal. *)
Fixpoint lex (fuel : nat) (acc s : cstr) : option (list tok) :=
  match fuel with
  | O => None
  | S f =>
    match s with
    | [] => Some [TText acc]
    | c :: s' =>
      if ceqb c QUOTE then
        match read_lit s' with
        | Some (body, rest) =>
          match lex f [] rest with
          | Some ts => Some (TText acc :: TLit body :: ts)
          | None => None
          end
        | None => None
        end
      else lex f (acc ++ [c]) s'
    end
  end.

Definition lex_sql (s : cstr) : option (list tok) := lex (S (length s)) [] s.

(** The tokens a list of pieces stands for. *)
Fixpoint toks (acc : cstr) (ps : list piece) : list tok :=
  match ps with
  | [] => [TText acc]
  | Lit s :: ps' => TText acc :: TLit s :: toks [] ps'
  | Word s :: ps' => TText acc :: TLit (bb_state_str s) :: toks [] ps'
  | p :: ps' => toks (acc ++ render p) ps'
  end.

(** Literals fit their buffer and are followed by text that does not start
    with a quote; everything else is quote-free. *)
Fixpoint pieces_ok (ps : list piece) : Prop :=
  match ps with
  | [] => True
  | Lit s :: ps' => (length s <= 254)%nat /\ not_quote_head (render_all ps') /\ pieces_ok ps'
  | Word s :: ps' => not_quote_head (render_all ps') /\ pieces_ok ps'
  | p :: ps' => Rows.no_char QUOTE (render p) /\ pieces_ok ps'
  end.

Lemma lex_text fuel acc t s : Rows.no_char QUOTE t -> (length t < fuel)%nat ->
  lex fuel acc (t ++ s) = lex (fuel - length t) (acc ++ t) s.
Proof.
  intros Ht. revert fuel acc; induction Ht as [|c t Hc _ IH]; intros fuel acc Hf.
  - rewrite app_nil_r. simpl. by rewrite Nat.sub_0_r.
  - destruct fuel; [simpl in *; lia|]. cbn [app lex]. rewrite ceqb_quote_false by done.
    simpl in Hf. rewrite IH by lia. rewrite <-app_assoc. done.
Qed.

Lemma lex_lit fuel acc body lit rest : read_lit (lit ++ QUOTE :: rest) = Some (body, rest) ->
  lex (S fuel) acc (QUOTE :: lit ++ QUOTE :: rest) =
  (ts ← lex fuel [] rest; Some (TText acc :: TLit body :: ts)).
Proof. intros H. cbn [lex]. unfold ceqb at 1. rewrite bool_decide_eq_true_2, H by done. done. Qed.

Lemma render_lit s rest :
  render (Lit s) ++ rest = QUOTE :: quote_loop QUOTE_MAX 1 s ++ QUOTE :: rest.
Proof. cbn [render]. unfold db_quote. cbn. by rewrite <-app_assoc. Qed.

Lemma render_word s rest : render (Word s) ++ rest = QUOTE :: bb_state_str s ++ QUOTE :: rest.
Proof. cbn [render app]. by rewrite <-app_assoc. Qed.

Lemma lex_pieces ps : pieces_ok ps -> forall fuel acc, (length (render_all ps) < fuel)%nat ->
  lex fuel acc (render_all ps) = Some (toks acc ps).
Proof.
  assert (Hplain : forall t ps' fuel acc, Rows.no_char QUOTE t ->
    (forall fuel acc, (length (render_all ps') < fuel)%nat ->
       lex fuel acc (render_all ps') = Some (toks acc ps')) ->
    (length (t ++ render_all ps') < fuel)%nat ->
    lex fuel acc (t ++ render_all ps') = Some (toks (acc ++ t) ps')).
  { intros t ps' fuel acc Ht IH Hf. rewrite length_app in Hf.
    rewrite lex_text by (done || lia). apply IH. lia. }
  induction ps as [|p ps IH]; intros Hok fuel acc Hf.
  { destruct fuel; [simpl in *; lia|done]. }
  unfold render_all in *. cbn [map concat] in *. fold (render_all ps) in *.
  destruct p; cbn [pieces_ok] in Hok; deconj; cbn [toks].
  - by apply Hplain, Hf; auto.
  - by apply Hplain, Hf; auto.
  - rewrite render_lit in *. destruct fuel; [lia|]. pose proof (quoted_size_le s).
    rewrite (lex_lit _ _ s) by (apply read_quote_loop_full; [done|unfold QUOTE_MAX; lia]).
    rewrite IH; [done|done|]. simpl in Hf. rewrite length_app in Hf. simpl in Hf. lia.
  - rewrite render_word in *. destruct fuel; [lia|].
    rewrite (lex_lit _ _ (bb_state_str s)).
    + rewrite IH; [done|done|]. simpl in Hf. rewrite length_app in Hf. simpl in Hf. lia.
    + pose proof (read_quote_loop_full 20 1 (bb_state_str s) (render_all ps)) as Hq.
      rewrite quote_loop_plain in Hq; [apply Hq; [done|destruct s; simpl; lia]| |].
      * destruct s; by repeat constructor.
      * destruct s; simpl; lia.
  - by apply Hplain, Hf; auto.
Qed.

(** ** Every statement of db.c is well-formed *)

Definition lit_args (s : stmt) : list cstr :=
  omap (fun p => match p with Lit a => Some a | _ => None end) (sql_pieces s).

Definition numtext_args (s : stmt) : list cstr :=
  omap (fun p => match p with NumText a => Some a | _ => None end) (sql_pieces s).

(** The arguments are struct fields (at most 64 bytes) and carried-over
    number columns. *)
Definition args_fit (s : stmt) : Prop :=
  Forall (fun a => length a <= 254)%nat (lit_args s) /\
  Forall (fun a => Rows.no_char QUOTE a /\ length a <= 23)%nat (numtext_args s).

Lemma print_int_no_quote z : Rows.no_char QUOTE (print_int z).
Proof. eapply Forall_impl; [apply print_int_chars|]. by intros c Hc ->. Qed.

Lemma sql_pieces_ok s : args_fit s -> pieces_ok (sql_pieces s).
Proof.
  intros [Hl Hn]. unfold lit_args, numtext_args in *.
  destruct s; cbn in Hl, Hn; rewrite ?Forall_cons in *; deconj; cbn [sql_pieces pieces_ok];
    repeat match goal with |- _ /\ _ => split end;
    first [ exact I | assumption | apply print_int_no_quote | discriminate
          | repeat (constructor; [discriminate|]); constructor ].
Qed.

(** An upper bound on what a piece prints. *)
Definition weight (p : piece) : nat :=
  match p with
  | Raw t => length t
  | Num _ => 21
  | Lit _ => 511
  | Word _ => 11
  | NumText _ => 23
  end.

Lemma render_weight p : (forall t, p = NumText t -> length t <= 23)%nat ->
  (length (render p) <= weight p)%nat.
Proof.
  intros Hn. destruct p; cbn [render weight]; [lia|apply print_int_length| | |by apply Hn].
  - pose proof (db_quote_length QUOTE_MAX s). unfold QUOTE_MAX in *. lia.
  - destruct s; simpl; lia.
Qed.

(** No statement is cut by its buffer: [SQL_MAX] is large enough. *)
Lemma sql_text_full s : args_fit s -> sql_text s = render_all (sql_pieces s).
Proof.
  intros [_ Hn]. unfold sql_text. apply trunc_id. unfold SQL_MAX.
  assert (H : (length (render_all (sql_pieces s)) <= sum_list (map weight (sql_pieces s)))%nat).
  { unfold numtext_args in Hn. unfold render_all. induction (sql_pieces s) as [|p ps IH]; [done|].
    cbn [map concat sum_list]. rewrite length_app.
    pose proof (render_weight p) as Hp. destruct p; simpl omap in Hn;
      try (specialize (IH Hn); specialize (Hp ltac:(done)); simpl in *; lia).
    inversion Hn; subst. specialize (IH ltac:(done)).
    specialize (Hp ltac:(intros ? [= <-]; tauto)). simpl in *. lia. }
  eapply Nat.le_lt_trans; [exact H|]. destruct s; apply Nat.ltb_lt; vm_compute; done.
Qed.

(** C23: no argument can change the shape of a statement.  Read back with
    SQL's quoting rule, the text of every statement libballotbrain sends is
    the statement's own keywords around literals whose values are, byte for
    byte, the arguments given, quotes included. *)
Theorem statement_text_is_injection_free s : args_fit s ->
  lex_sql (sql_text s) = Some (toks [] (sql_pieces s)).
Proof. intros Hs. rewrite sql_text_full by done. apply lex_pieces; [by apply sql_pieces_ok|lia]. Qed.

Lemma statement_text_is_injection_free_witness :
  lex_sql (sql_text (InsNonce ($"E-100") ($"x'); drop table ballot; --"))) =
  Some [TText ($"insert into nonce values ("); TLit ($"E-100"); TText ($", ");
        TLit ($"x'); drop table ballot; --"); TText ($");")].
Proof. apply (statement_text_is_injection_free (InsNonce ($"E-100") ($"x'); drop table ballot; --"))). split; repeat constructor; simpl; lia. Defined.

End Sql.
