(* ===== verification/Wire.v ===== *)
(** * The line protocol of the SQL runner: libtetrisdb/wire.c

    A connection is the bytes already read and not yet consumed, plus the
    script of what the following waits and reads will give: some bytes, an
    interruption, end of file, an error, or the deadline.  Theorems quantify
    over the script, so they hold for every way the kernel can cut the stream
    into reads. *)
From S2P Require Import Prelude CText Rows.

Module Wire.

Inductive db_status_t := DB_OK | DB_RETRY | DB_ERROR | DB_TIMEOUT | DB_IO.

#[export] Instance db_status_eq_dec : EqDecision db_status_t.
Proof. solve_decision. Defined.

(** What one wait-then-read gives. *)
Inductive wire_read :=
  | RData (d : cstr)   (** bytes *)
  | RAgain             (** EINTR, EAGAIN *)
  | REof               (** the peer closed *)
  | RErr               (** poll or read failed *)
  | RLate.             (** the deadline passed *)

Record db_wire_t := mkWire { w_buf : cstr; w_script : list wire_read }.

Inductive wire_result := DB_WIRE_LINE (l : cstr) | DB_WIRE_EOF | DB_WIRE_IO | DB_WIRE_LATE.

(** The inner loop of [db_wire_line] over the buffered bytes: the finished
    line and the bytes behind it, or the partial line. *)
Fixpoint scan_buf (cap : nat) (out buf : cstr) : (cstr * cstr) + cstr :=
  match buf with
  | [] => inr out
  | c :: buf' =>
    if ceqb c LF then inl (out, buf')
    else scan_buf cap (if (length out + 1 <? cap)%nat then out ++ [c] else out) buf'
  end.

(** The outer loop: refill the buffer until the line ends.  A script that ran
    out is a deadline that passes. *)
Fixpoint refill (cap : nat) (out : cstr) (script : list wire_read) : wire_result * db_wire_t :=
  match script with
  | [] => (DB_WIRE_LATE, mkWire [] [])
  | RAgain :: s => refill cap out s
  | REof :: s => (DB_WIRE_EOF, mkWire [] s)
  | RErr :: s => (DB_WIRE_IO, mkWire [] s)
  | RLate :: s => (DB_WIRE_LATE, mkWire [] s)
  | RData d :: s =>
    match scan_buf cap out d with
    | inl (l, rest) => (DB_WIRE_LINE l, mkWire rest s)
    | inr out' => refill cap out' s
    end
  end.

Definition db_wire_line (w : db_wire_t) (cap : nat) : wire_result * db_wire_t :=
  match scan_buf cap [] (w_buf w) with
  | inl (l, rest) => (DB_WIRE_LINE l, mkWire rest (w_script w))
  | inr out => refill cap out (w_script w)
  end.

Definition DB_BODY_MAX : nat := 1024.
Definition DB_MARK_END : cstr := $"<<END ".
Definition DB_MARK_OK : cstr := $"<<END ok>>".
Definition DB_MARK_RETRY : cstr := $"<<END retry>>".

Definition classify (line : cstr) : db_status_t :=
  if streq line DB_MARK_OK then DB_OK
  else if streq line DB_MARK_RETRY then DB_RETRY
  else DB_ERROR.

(** One body line stored behind what is already in the caller's buffer;
    [None] is a NULL [body]. *)
Definition store_line (cap : nat) (body : cstr) (line : cstr) : cstr :=
  let used := length body in
  if (used + 1 <? cap)%nat then
    let text := (match body with [] => [] | _ => [LF] end) ++ line in
    body ++ take (cap - used - 1) text
  else body.

(** [db_wire_response]'s loop; [fuel] bounds the number of lines. *)
Fixpoint response_loop (fuel : nat) (w : db_wire_t) (cap : option nat) (body : cstr)
    : db_status_t * cstr * db_wire_t :=
  match fuel with
  | O => (DB_TIMEOUT, body, w)
  | S f =>
    match db_wire_line w DB_BODY_MAX with
    | (DB_WIRE_LATE, w') => (DB_TIMEOUT, body, w')
    | (DB_WIRE_EOF, w') | (DB_WIRE_IO, w') => (DB_IO, body, w')
    | (DB_WIRE_LINE line, w') =>
      if Rows.starts_with DB_MARK_END line then (classify line, body, w')
      else response_loop f w' cap
             (match cap with Some n => store_line n body line | None => body end)
    end
  end.

(** Bytes the connection can still deliver: every line takes at least its
    newline, so this bounds the loop. *)
Fixpoint script_bytes (s : list wire_read) : nat :=
  match s with
  | [] => 0
  | RData d :: s' => length d + script_bytes s'
  | _ :: s' => script_bytes s'
  end.

Definition db_wire_response (w : db_wire_t) (cap : option nat) : db_status_t * cstr * db_wire_t :=
  response_loop (S (length (w_buf w) + script_bytes (w_script w))) w cap [].

(** ** What the connection delivers *)

Inductive wire_end := EndEof | EndErr | EndLate.

(** The bytes before the first terminal event, that event, and the script
    behind it. *)
Fixpoint delivered (s : list wire_read) : cstr * wire_end :=
  match s with
  | [] => ([], EndLate)
  | RAgain :: s' => delivered s'
  | REof :: _ => ([], EndEof)
  | RErr :: _ => ([], EndErr)
  | RLate :: _ => ([], EndLate)
  | RData d :: s' => let '(bs, e) := delivered s' in (d ++ bs, e)
  end.

Definition pending (w : db_wire_t) : cstr := w_buf w ++ fst (delivered (w_script w)).

Definition end_result (e : wire_end) : wire_result :=
  match e with EndEof => DB_WIRE_EOF | EndErr => DB_WIRE_IO | EndLate => DB_WIRE_LATE end.

(** ** Lemmas *)

Lemma scan_buf_line cap out l rest : (length out < cap)%nat -> Rows.no_char LF l ->
  scan_buf cap out (l ++ LF :: rest) = inl (take (cap - 1) (out ++ l), rest).
Proof.
  intros Hc Hl. revert out Hc; induction Hl as [|c l Hne _ IH]; intros out Hc.
  - simpl. rewrite app_nil_r, take_ge by lia. done.
  - cbn [app scan_buf]. unfold ceqb. rewrite bool_decide_eq_false_2 by done.
    destruct (Nat.ltb_spec (length out + 1) cap).
    + rewrite IH by (rewrite length_app; simpl; lia). by rewrite <-app_assoc.
    + rewrite IH by done. replace (cap - 1)%nat with (length out) by lia.
      rewrite !take_app_length. done.
Qed.

Lemma scan_buf_partial cap out l : (length out < cap)%nat -> Rows.no_char LF l ->
  exists out', scan_buf cap out l = inr out' /\ out' = take (cap - 1) (out ++ l) /\ (length out' < cap)%nat.
Proof.
  intros Hc Hl. revert out Hc; induction Hl as [|c l Hne _ IH]; intros out Hc.
  - exists out. rewrite app_nil_r, take_ge by lia. done.
  - cbn [scan_buf]. unfold ceqb. rewrite bool_decide_eq_false_2 by done.
    destruct (Nat.ltb_spec (length out + 1) cap).
    + destruct (IH (out ++ [c])) as (o & H1 & H2 & H3); [rewrite length_app; simpl; lia|].
      exists o. by rewrite <-app_assoc in H2.
    + destruct (IH out) as (o & H1 & H2 & H3); [done|]. exists o. split; [done|]. split; [|done].
      rewrite H2. replace (cap - 1)%nat with (length out) by lia. by rewrite !take_app_length.
Qed.

(** Either a byte string has a first newline or it has none. *)
Lemma first_LF (d : cstr) : Rows.no_char LF d \/ exists l r, d = l ++ LF :: r /\ Rows.no_char LF l.
Proof.
  induction d as [|c d IH]; [left; constructor|].
  destruct (decide (c = LF)) as [->|Hc].
  - right. exists [], d. split; [done|constructor].
  - destruct IH as [H|(l & r & -> & H)].
    + left. by constructor.
    + right. exists (c :: l), r. split; [done|]. by constructor.
Qed.

Lemma LF_split_unique l r l' r' : Rows.no_char LF l -> Rows.no_char LF l' ->
  l ++ LF :: r = l' ++ LF :: r' -> l = l' /\ r = r'.
Proof.
  intros Hl. revert l'; induction Hl as [|c l Hc _ IH]; intros [|c' l'] Hl' E; simplify_eq/=; auto.
  - by inversion Hl'.
  - inversion Hl'; subst. destruct (IH l') as [-> ->]; done.
Qed.

Lemma LF_split_prefix d bs l rest : Rows.no_char LF d -> Rows.no_char LF l ->
  d ++ bs = l ++ LF :: rest ->
  exists l2, l = d ++ l2 /\ bs = l2 ++ LF :: rest /\ Rows.no_char LF l2.
Proof.
  intros Hd. revert l; induction Hd as [|c d Hne _ IHd]; intros l Hl E; [by exists l|].
  destruct l as [|c' l]; simplify_eq/=. inversion Hl; subst.
  destruct (IHd l) as (l2 & -> & -> & ?); [done..|]. by exists l2.
Qed.

Lemma refill_line cap out s l rest : (length out < cap)%nat -> Rows.no_char LF l ->
  fst (delivered s) = l ++ LF :: rest ->
  exists w', refill cap out s = (DB_WIRE_LINE (take (cap - 1) (out ++ l)), w') /\
    pending w' = rest /\ (length (w_buf w') + script_bytes (w_script w') < script_bytes s)%nat.
Proof.
  revert out l; induction s as [|ev s IH]; intros out l Hc Hl E; [by destruct l|].
  destruct ev; simpl in E; try (by destruct l); [|by apply IH].
  destruct (delivered s) as [bs e] eqn:Ed. simpl in E.
  destruct (first_LF d) as [Hd|(l1 & r1 & -> & Hl1)].
  - destruct (scan_buf_partial cap out d Hc Hd) as (o & Ho & -> & Hlen).
    cbn [refill]. rewrite Ho.
    destruct (LF_split_prefix d bs l rest Hd Hl E) as (l2 & -> & -> & Hl2).
    destruct (IH (take (cap - 1) (out ++ d)) l2) as (w' & Hw & Hp & Hb); [done..|].
    exists w'. split; [rewrite Hw; do 2 f_equal|split; [done|simpl; lia]].
    by rewrite app_assoc, take_app_take.
  - rewrite <-app_assoc in E. simpl in E. apply LF_split_unique in E as [-> <-]; [|done..].
    cbn [refill]. rewrite scan_buf_line by done. eexists. split; [done|].
    unfold pending. simpl. rewrite Ed, length_app. simpl. split; [done|lia].
Qed.

Lemma refill_end cap out s : (length out < cap)%nat -> Rows.no_char LF (fst (delivered s)) ->
  exists w', refill cap out s = (end_result (snd (delivered s)), w').
Proof.
  revert out; induction s as [|ev s IH]; intros out Hc H; [by eexists|].
  destruct ev; simpl in *; try (by eexists); [|by apply IH].
  destruct (delivered s) as [bs e]; simpl in *.
  apply Rows.no_char_app in H as [Hd Hb].
  destruct (scan_buf_partial cap out d Hc Hd) as (o & -> & _ & Hlen). by apply IH.
Qed.

(** [db_wire_line] depends only on the bytes: the first line, cut to its
    buffer, and exactly the bytes behind its newline are left. *)
Lemma db_wire_line_spec w cap l rest : (0 < cap)%nat -> Rows.no_char LF l ->
  pending w = l ++ LF :: rest ->
  exists w', db_wire_line w cap = (DB_WIRE_LINE (take (cap - 1) l), w') /\ pending w' = rest /\
    (length (w_buf w') + script_bytes (w_script w') <
     length (w_buf w) + script_bytes (w_script w))%nat.
Proof.
  intros Hc Hl. unfold pending. destruct w as [buf s]; simpl. intros E.
  unfold db_wire_line. simpl. destruct (first_LF buf) as [Hb|(l1 & r1 & -> & Hl1)].
  - destruct (scan_buf_partial cap [] buf Hc Hb) as (o & -> & -> & Hlen). simpl app in *.
    destruct (LF_split_prefix buf _ l rest Hb Hl E) as (l2 & -> & E2 & Hl2).
    destruct (refill_line cap (take (cap - 1) buf) s l2 rest) as (w' & -> & Hp & Hlt); [done..|].
    exists w'. split; [|split; [done|lia]]. by rewrite take_app_take.
  - rewrite <-app_assoc in E. simpl in E. apply LF_split_unique in E as [-> <-]; [|done..].
    rewrite scan_buf_line by done. eexists. split; [done|]. split; [done|].
    simpl. rewrite length_app. simpl. lia.
Qed.

Lemma db_wire_line_end w cap : (0 < cap)%nat -> Rows.no_char LF (pending w) ->
  exists w', db_wire_line w cap = (end_result (snd (delivered (w_script w))), w').
Proof.
  intros Hc. unfold pending, db_wire_line. intros [Hb Hd]%Rows.no_char_app.
  destruct (scan_buf_partial cap [] (w_buf w) Hc Hb) as (o & -> & _ & Hlen). by apply refill_end.
Qed.

(** ** Whole responses *)

(** Body lines as the runner sends them. *)
Definition frame_lines (ls : list cstr) : cstr := concat (map (fun l => l ++ [LF]) ls).

Definition clip (l : cstr) : cstr := take (DB_BODY_MAX - 1) l.

Definition wire_body (cap : option nat) (ls : list cstr) : cstr :=
  match cap with
  | Some n => foldl (store_line n) [] (map clip ls)
  | None => []
  end.

Lemma response_loop_spec fuel w cap body ls marker rest :
  Forall (Rows.no_char LF) ls ->
  Forall (fun l => Rows.starts_with DB_MARK_END (clip l) = false) ls ->
  Rows.no_char LF marker -> Rows.starts_with DB_MARK_END (clip marker) = true ->
  pending w = frame_lines ls ++ marker ++ LF :: rest ->
  (length (w_buf w) + script_bytes (w_script w) < fuel)%nat ->
  exists w', response_loop fuel w cap body =
    (classify (clip marker),
     match cap with Some n => foldl (store_line n) body (map clip ls) | None => body end, w') /\
    pending w' = rest.
Proof.
  intros Hls Hm. revert fuel w body; induction ls as [|l ls IH]; intros fuel w body Hmk Hms Hp Hf;
    (destruct fuel; [lia|]).
  - simpl in Hp. destruct (db_wire_line_spec w DB_BODY_MAX marker rest) as (w' & E & Hp' & _);
      [unfold DB_BODY_MAX; lia|done..|].
    cbn [response_loop]. rewrite E. fold (clip marker). rewrite Hms.
    exists w'. by destruct cap.
  - inversion Hls; inversion Hm; subst. unfold frame_lines in Hp. cbn [map concat] in Hp.
    rewrite <-!app_assoc in Hp. simpl in Hp.
    destruct (db_wire_line_spec w DB_BODY_MAX l (frame_lines ls ++ marker ++ LF :: rest))
      as (w' & E & Hp' & Hlt); [unfold DB_BODY_MAX; lia|done..|].
    cbn [response_loop]. rewrite E. fold (clip l).
    match goal with H : Rows.starts_with DB_MARK_END (clip l) = false |- _ => rewrite H end.
    edestruct (IH) with (w := w') (fuel := fuel) as (w2 & E2 & Hp2); [done..|lia|].
    exists w2. split; [|done]. rewrite E2. by destruct cap.
Qed.

(** ** The body is the joined lines when it fits *)

Lemma store_line_nil cap l : (0 < cap)%nat -> (length l < cap)%nat -> l <> [] -> store_line cap [] l = l.
Proof.
  intros. unfold store_line. simpl. destruct l as [|c l]; [done|].
  rewrite (proj2 (Nat.ltb_lt _ _)) by (simpl in *; lia). rewrite take_ge; [done|simpl in *; lia].
Qed.

Lemma store_line_app cap b l : b <> [] -> (length b + 1 + length l < cap)%nat ->
  store_line cap b l = b ++ LF :: l.
Proof.
  intros Hb Hl. unfold store_line. rewrite (proj2 (Nat.ltb_lt _ _)) by lia.
  destruct b as [|c b]; [done|]. rewrite take_ge; [done|]. simpl in *. lia.
Qed.

Lemma foldl_store_line cap b ls : b <> [] -> (length (Rows.join_lines (b :: ls)) < cap)%nat ->
  foldl (store_line cap) b ls = Rows.join_lines (b :: ls).
Proof.
  revert b; induction ls as [|l ls IH]; intros b Hb Hl; [done|]. cbn [foldl].
  assert (E : Rows.join_lines (b :: l :: ls) = Rows.join_lines ((b ++ LF :: l) :: ls)).
  { destruct ls; [done|]. cbn [Rows.join_lines]. by rewrite <-app_assoc. }
  rewrite E in *. rewrite store_line_app; [apply IH; [by destruct b|done]|done|].
  destruct ls as [|l2 ls]; [simpl in Hl|rewrite Rows.join_lines_length_cons in Hl];
    rewrite length_app in Hl; simpl in Hl; lia.
Qed.

Lemma wire_body_join cap l ls :
  l <> [] -> Forall (fun x => length x < DB_BODY_MAX)%nat (l :: ls) ->
  (length (Rows.join_lines (l :: ls)) < cap)%nat ->
  wire_body (Some cap) (l :: ls) = Rows.join_lines (l :: ls).
Proof.
  intros Hne HF Hlen. unfold wire_body.
  assert (Hclip : map clip (l :: ls) = l :: ls).
  { clear -HF. induction HF as [|x xs Hx _ IH]; [done|]. simpl. rewrite IH.
    unfold clip. rewrite take_ge; [done|]. unfold DB_BODY_MAX in *. lia. }
  rewrite Hclip. cbn [foldl].
  assert (length l < cap)%nat.
  { destruct ls; [simpl in Hlen; lia|]. rewrite Rows.join_lines_length_cons in Hlen. lia. }
  rewrite store_line_nil by (done || lia). by apply foldl_store_line.
Qed.

End Wire.
