(* ===== verification/Deadline.v ===== *)
(** * Waits that end: the poll loops of libtetrisdb/wire.c and socket/socket.c

    Below the script of reads of Wire.v: what [poll], [read], [write] and
    [connect] answer and what the clock says.  The reader over these answers is
    the reader of Wire.v over the script they amount to; a deadline bounds the
    sum of the waits, so a peer that dribbles is given up; a write hands over
    all bytes in order or says why not; a failed connect leaves no descriptor. *)
From S2P Require Import Prelude CText Rows Wire.
Import Wire.
Local Open Scope Z_scope.

Module Deadline.

(** ** wait_ready *)

Inductive poll_t := P_ready | P_timeout | P_eintr | P_error.
(** One turn: the clock before [poll], and its answer. *)
Record tick := mkTick { tk_now : Z; tk_poll : poll_t }.

Inductive waited := W_ready | W_late | W_io.

(** [None] is DB_NO_DEADLINE. *)
Definition passed (deadline : option Z) (now : Z) : bool := match deadline with Some d => d - now <=? 0 | None => false end.

(** Turns that run out are a [poll] that never returns in time. *)
Fixpoint wait_ready (deadline : option Z) (ts : list tick) : waited :=
  match ts with
  | [] => W_late
  | t :: ts' =>
    if passed deadline (tk_now t) then W_late
    else match tk_poll t with P_ready => W_ready | P_timeout => W_late | P_eintr => wait_ready deadline ts' | P_error => W_io end
  end.

(** ** db_wire_line, on the answers of [poll] and [read] *)

Inductive read_t := R_bytes (d : cstr) | R_again | R_eof | R_error.
(** One wait, and the read behind it. *)
Record round := mkRound { r_ticks : list tick; r_read : read_t }.

Fixpoint fill (deadline : option Z) (cap : nat) (out : cstr) (rs : list round) : wire_result * (cstr * list round) :=
  match rs with
  | [] => (DB_WIRE_LATE, ([], []))
  | r :: rs' =>
    match wait_ready deadline (r_ticks r) with
    | W_late => (DB_WIRE_LATE, ([], rs'))
    | W_io => (DB_WIRE_IO, ([], rs'))
    | W_ready =>
      match r_read r with
      | R_again => fill deadline cap out rs'
      | R_error => (DB_WIRE_IO, ([], rs'))
      | R_eof => (DB_WIRE_EOF, ([], rs'))
      | R_bytes d => match scan_buf cap out d with inl (l, rest) => (DB_WIRE_LINE l, (rest, rs')) | inr out' => fill deadline cap out' rs' end
      end
    end
  end.

(** The buffer, and what is still to come. *)
Definition db_wire_line (deadline : option Z) (cap : nat) (w : cstr * list round) : wire_result * (cstr * list round) :=
  match scan_buf cap [] (fst w) with
  | inl (l, rest) => (DB_WIRE_LINE l, (rest, snd w))
  | inr out => fill deadline cap out (snd w)
  end.

(** What a round amounts to. *)
Definition amounts (deadline : option Z) (r : round) : wire_read :=
  match wait_ready deadline (r_ticks r) with
  | W_late => RLate
  | W_io => RErr
  | W_ready => match r_read r with R_bytes d => RData d | R_again => RAgain | R_eof => REof | R_error => RErr end
  end.
Definition script (deadline : option Z) (w : cstr * list round) : db_wire_t := mkWire (fst w) (map (amounts deadline) (snd w)).

(** Wire.v's reader is this one. *)
Theorem line_refines deadline cap w :
  Wire.db_wire_line (script deadline w) cap = (fst (db_wire_line deadline cap w), script deadline (snd (db_wire_line deadline cap w))).
Proof.
  unfold Wire.db_wire_line, db_wire_line, script. destruct w as [buf rs]. cbn [fst snd w_buf w_script].
  destruct (scan_buf cap [] buf) as [[l rest]|out]; [done|]. revert out. induction rs as [|r rs IH]; intros out; [done|]. cbn [map refill fill]. unfold amounts at 1.
  destruct (wait_ready deadline (r_ticks r)); try done. destruct (r_read r); try done. destruct (scan_buf cap out d) as [[l rest]|out']; done.
Qed.

(** ** db_wire_write *)

Inductive write_t := Wr_bytes (n : nat) | Wr_eintr | Wr_again (ts : list tick) | Wr_error.
Inductive sent_t := Sent | Not_sent (w : waited).

(** What was written, and the code; answers that run out are a peer that takes
    no more. *)
Fixpoint db_wire_write (deadline : option Z) (data : cstr) (ws : list write_t) : sent_t * cstr :=
  match data with
  | [] => (Sent, [])
  | _ =>
    match ws with
    | [] => (Not_sent W_late, [])
    | Wr_eintr :: ws' => db_wire_write deadline data ws'
    | Wr_error :: _ => (Not_sent W_io, [])
    | Wr_again ts :: ws' => match wait_ready deadline ts with W_ready => db_wire_write deadline data ws' | x => (Not_sent x, []) end
    | Wr_bytes n :: ws' => let '(r, done_) := db_wire_write deadline (drop n data) ws' in (r, take n data ++ done_)
    end
  end.

(** All of it in order, or a part from the start and a reason. *)
Theorem write_in_order deadline data ws : let '(r, done_) := db_wire_write deadline data ws in
  prefix done_ data /\ (r = Sent <-> done_ = data).
Proof.
  revert data. induction ws as [|w ws IH]; intros data; (destruct data as [|c data]; [by cbn|]); cbn [db_wire_write].
  - split; [apply prefix_nil|done].
  - destruct w as [n| |ts|]; [|apply IH| |split; [apply prefix_nil|done]].
    + specialize (IH (drop n (c :: data))). destruct (db_wire_write deadline (drop n (c :: data)) ws) as [r done_]. destruct IH as [IP IE].
      assert (E : c :: data = take n (c :: data) ++ drop n (c :: data)) by (by rewrite take_drop). split.
      * rewrite E at 2. by apply prefix_app.
      * rewrite IE. split; [intros ->; by rewrite take_drop|]. intros H. rewrite E in H at 2. by apply app_inv_head in H.
    + destruct (wait_ready deadline ts); [apply IH|split; [apply prefix_nil|done]..].
Qed.

(** ** The sum of the waits *)

Lemma late_wait d ts : (forall t, head ts = Some t -> d <= tk_now t) -> wait_ready (Some d) ts = W_late.
Proof. destruct ts as [|t ts]; [done|]. intros H. cbn. by rewrite (proj2 (Z.leb_le _ _)) by (specialize (H t eq_refl); lia). Qed.

Lemma refill_end_kept cap out sc l w : refill cap out sc = (DB_WIRE_LINE l, w) -> snd (delivered (w_script w)) = snd (delivered sc).
Proof.
  revert out. induction sc as [|x sc IH]; intros out H; [done|]. destruct x as [d| | | |]; cbn in H; try done; [|by apply IH in H].
  cbn [delivered]. destruct (delivered sc) as [bs e] eqn:Ed. destruct (scan_buf cap out d) as [[l' rest]|out']; [|by apply IH in H].
  injection H as _ <-. cbn. by rewrite Ed.
Qed.

Lemma line_end_kept w cap l w' : Wire.db_wire_line w cap = (DB_WIRE_LINE l, w') -> snd (delivered (w_script w')) = snd (delivered (w_script w)).
Proof. unfold Wire.db_wire_line. destruct (scan_buf cap [] (w_buf w)) as [[l' rest]|out]; [by intros [= _ <-]|]. apply refill_end_kept. Qed.

(** A response of which only lines without a marker arrive. *)
Lemma unfinished_response fuel w cap body ls part : Forall (Rows.no_char LF) ls -> Forall (fun l => Rows.starts_with DB_MARK_END (clip l) = false) ls ->
  Rows.no_char LF part -> pending w = frame_lines ls ++ part -> snd (delivered (w_script w)) = EndLate -> fst (fst (response_loop fuel w cap body)) = DB_TIMEOUT.
Proof.
  intros HL HE. revert fuel w body. induction HL as [|l ls Hl HL IH]; intros fuel w body HP Hp He; (destruct fuel as [|f]; [done|]); cbn [response_loop].
  - cbn in Hp. destruct (db_wire_line_end w DB_BODY_MAX) as (w' & ->); [unfold DB_BODY_MAX; lia|by rewrite Hp|]. by rewrite He.
  - inversion HE as [|? ? Hl' HE']; subst. unfold frame_lines in Hp. cbn [map concat] in Hp. rewrite <-!app_assoc in Hp. cbn [app] in Hp.
    destruct (db_wire_line_spec w DB_BODY_MAX l (frame_lines ls ++ part)) as (w' & E & Hp' & _); [unfold DB_BODY_MAX; lia|done|done|]. rewrite E. fold (clip l). rewrite Hl'.
    apply IH; try done. by rewrite (line_end_kept _ _ _ _ E).
Qed.

(** The bytes of a round that came in time. *)
Definition came (d : Z) (r : round) : option cstr :=
  match amounts (Some d) r with RData b => Some b | RAgain => Some [] | _ => None end.

Lemma delivered_late d early late rest bs : mapM (came d) early = Some bs -> (forall t, head (r_ticks late) = Some t -> d <= tk_now t) ->
  delivered (map (amounts (Some d)) (early ++ late :: rest)) = (concat bs, EndLate).
Proof.
  revert bs. induction early as [|r early IH]; intros bs Hb Hl.
  - cbn in Hb. injection Hb as <-. cbn [app map delivered]. unfold amounts at 1. by rewrite late_wait.
  - cbn in Hb. apply bind_Some in Hb as (b & Hr & (bs' & Hb & [= <-])%bind_Some). specialize (IH _ Hb Hl). cbn [app map delivered].
    unfold came in Hr. destruct (amounts (Some d) r); try done; injection Hr as <-; by rewrite IH.
Qed.

(** A peer that dribbles is given up at the deadline, however regularly it
    writes: when the clock reaches it before the end marker came, the response
    is [DB_TIMEOUT]. *)
Theorem dribbling_times_out d buf early late rest cap bs ls part :
  mapM (came d) early = Some bs -> (forall t, head (r_ticks late) = Some t -> d <= tk_now t) ->
  buf ++ concat bs = frame_lines ls ++ part -> Forall (Rows.no_char LF) ls -> Forall (fun l => Rows.starts_with DB_MARK_END (clip l) = false) ls -> Rows.no_char LF part ->
  fst (fst (db_wire_response (script (Some d) (buf, early ++ late :: rest)) cap)) = DB_TIMEOUT.
Proof.
  intros Hb Hl Hp HL HE HP. assert (HD := delivered_late d early late rest bs Hb Hl). unfold db_wire_response.
  eapply unfinished_response; [exact HL|exact HE|exact HP| |]; unfold script, pending; cbn [w_buf w_script fst snd]; by rewrite HD.
Qed.

(** ** connect_deadline *)

Definition SUN_PATH : nat := 108.

(** What it meets: [socket], the first [connect] ([None]: in progress), the
    waits, and SO_ERROR. *)
Record dialing := mkDialing { di_socket : option Z; di_connect : option bool; di_ticks : list tick; di_error : bool }.

(** The descriptor, or -1; and the descriptors that are open. *)
Definition connect_deadline (path : cstr) (deadline : Z) (di : dialing) (fds : gset Z) : option Z * gset Z :=
  if (SUN_PATH <=? length path)%nat then (None, fds)
  else match di_socket di with
  | None => (None, fds)
  | Some fd =>
    let fds := fds ∪ {[fd]} in
    match di_connect di with
    | Some true => (Some fd, fds)
    | Some false => (None, fds ∖ {[fd]})
    | None =>
      match wait_ready (Some deadline) (di_ticks di) with
      | W_ready => if di_error di then (None, fds ∖ {[fd]}) else (Some fd, fds)
      | _ => (None, fds ∖ {[fd]})
      end
    end
  end.

(** [db_socket_open], with the greeting: the connection, and the descriptors. *)
Definition DB_READY : cstr := $"<<READY>>".
Definition db_socket_open (path : cstr) (deadline : Z) (di : dialing) (rs : list round) (fds : gset Z) : option (Z * (cstr * list round)) * gset Z :=
  match path with
  | [] => (None, fds)
  | _ =>
    match connect_deadline path deadline di fds with
    | (None, fds) => (None, fds)
    | (Some fd, fds) =>
      match db_wire_line (Some deadline) 64 ([], rs) with
      | (DB_WIRE_LINE line, w) => if streq line DB_READY then (Some (fd, w), fds) else (None, fds ∖ {[fd]})
      | _ => (None, fds ∖ {[fd]})
      end
    end
  end.

(** [None] is NULL. *)
Definition db_socket_close (c : option (Z * (cstr * list round))) (fds : gset Z) : gset Z :=
  match c with None => fds | Some (fd, _) => if 0 <=? fd then fds ∖ {[fd]} else fds end.

(** A connection is one more descriptor, a refusal none; and a connection has
    been greeted. *)
Theorem open_or_nothing path deadline di rs fds : (forall fd, di_socket di = Some fd -> fd ∉ fds) ->
  match db_socket_open path deadline di rs fds with
  | (None, fds') => fds' = fds
  | (Some (fd, w), fds') => fds' = fds ∪ {[fd]} /\ di_socket di = Some fd /\ db_wire_line (Some deadline) 64 ([], rs) = (DB_WIRE_LINE DB_READY, w)
  end.
Proof.
  intros Hf. unfold db_socket_open. destruct path as [|c path]; [done|]. unfold connect_deadline. destruct (SUN_PATH <=? _)%nat; [done|].
  destruct (di_socket di) as [fd|]; [|done]. assert (HD : (fds ∪ {[fd]}) ∖ {[fd]} = fds) by (specialize (Hf fd eq_refl); set_solver).
  assert (HG : match (match db_wire_line (Some deadline) 64 ([], rs) with
      | (DB_WIRE_LINE line, w) => if streq line DB_READY then (Some (fd, w), fds ∪ {[fd]}) else (None, (fds ∪ {[fd]}) ∖ {[fd]})
      | _ => (None, (fds ∪ {[fd]}) ∖ {[fd]}) end) with
    | (None, fds') => fds' = fds
    | (Some (fd', w), fds') => fds' = fds ∪ {[fd']} /\ Some fd = Some fd' /\ db_wire_line (Some deadline) 64 ([], rs) = (DB_WIRE_LINE DB_READY, w) end).
  { destruct (db_wire_line (Some deadline) 64 ([], rs)) as [[line| | |] w]; try done. destruct (streq line DB_READY) eqn:E; [|done]. apply streq_true in E. by subst. }
  destruct (di_connect di) as [[]|]; [done|done|]. destruct (wait_ready (Some deadline) (di_ticks di)); try done. by destruct (di_error di).
Qed.

End Deadline.
