(* ===== verification/Server.v ===== *)
(** * The store: SimpleDB behind one socket connection

    [tables] holds the six tables libballotbrain provisions.  [session_exec]
    is the runner's statement processing ([Parser.processNextStatement]:
    auto-commit outside a transaction, abort of the open transaction on any
    failure) and [db_socket_exec] the client's call of socket.c with its
    sticky failure.  What cannot be read here (the Zql jar, where a heap page
    puts a tuple, what the planner prints above a table) is the class
    [Runner], with the laws the client relies on.

    Deadlock aborts, refusals and lost connections are decided by a schedule
    of [fault]s that every theorem quantifies over. *)
From S2P Require Import Prelude CText Types Rows Sql Wire.
Import Sql Wire.

Module Server.

(** ** Tables *)

Record election_row := mkER {
  er_seq : Z; er_id : cstr; er_title : cstr; er_state : cstr; er_open : cstr; er_close : cstr }.
Record option_row := mkOR { or_eid : cstr; or_idx : Z; or_name : cstr }.
Record elig_row := mkGR { gr_eid : cstr; gr_cert : cstr }.
Record ballot_row := mkBR {
  br_eid : cstr; br_hash : cstr; br_opt : Z; br_ver : Z; br_sup : Z }.
Record owner_row := mkWR { wr_eid : cstr; wr_cert : cstr; wr_hash : cstr; wr_ver : Z }.
Record nonce_row := mkNR { nr_eid : cstr; nr_nonce : cstr }.

#[export] Instance ballot_row_eq_dec : EqDecision ballot_row.
Proof. solve_decision. Defined.
#[export] Instance owner_row_eq_dec : EqDecision owner_row.
Proof. solve_decision. Defined.

#[export] Instance nonce_row_eq_dec : EqDecision nonce_row.
Proof. solve_decision. Defined.

Record tables := mkTables {
  t_election : list election_row;
  t_option : list option_row;
  t_eligible : list elig_row;
  t_ballot : list ballot_row;
  t_owner : list owner_row;
  t_nonce : list nonce_row }.

Definition empty_tables : tables := mkTables [] [] [] [] [] [].

Definition set_election l t := mkTables l (t_option t) (t_eligible t) (t_ballot t) (t_owner t) (t_nonce t).
Definition set_option l t := mkTables (t_election t) l (t_eligible t) (t_ballot t) (t_owner t) (t_nonce t).
Definition set_eligible l t := mkTables (t_election t) (t_option t) l (t_ballot t) (t_owner t) (t_nonce t).
Definition set_ballot l t := mkTables (t_election t) (t_option t) (t_eligible t) l (t_owner t) (t_nonce t).
Definition set_owner l t := mkTables (t_election t) (t_option t) (t_eligible t) (t_ballot t) l (t_nonce t).
Definition set_nonce l t := mkTables (t_election t) (t_option t) (t_eligible t) (t_ballot t) (t_owner t) l.

(** ** The runner's own choices *)

(** Printable ASCII other than the quote. *)
Definition plain_char (c : ascii) : bool :=
  (32 <=? code c)%Z && (code c <=? 126)%Z && negb (ceqb c QUOTE).
Definition plain (s : cstr) : Prop := Forall (fun c => plain_char c = true) s.

Definition STRING_LEN : nat := 128.

(** A line the client takes for the end of a response. *)
Definition is_mark (l : cstr) : bool := Rows.starts_with DB_MARK_END (clip l).

Class Runner := {
  (** value of the string constant whose text between the outer quotes is given *)
  zql_string : cstr -> cstr;
  (** value of an integer constant, if the grammar takes it *)
  zql_number : Z -> option Z;
  (** where a heap page puts a new tuple *)
  place : forall {A}, A -> list A -> list A;
  (** printed above the table, the column names, and printed below it *)
  preamble : stmt -> list cstr;
  columns : stmt -> list cstr;
  postamble : stmt -> list cstr;

  zql_string_plain : forall s, plain s -> zql_string s = s;
  zql_number_int : forall z, (0 <= z <= INT_MAX)%Z -> zql_number z = Some z;
  place_perm : forall {A} (x : A) l, place x l ≡ₚ x :: l;
  preamble_lines : forall s, Forall (fun l => Rows.no_char LF l /\ Rows.is_rule_line l = false /\
                      is_mark l = false /\ l <> []) (preamble s);
  columns_names : forall s, columns s <> [] /\
                      Forall (fun n => Rows.no_char LF n /\ n <> [] /\ head n <> Some "<"%char) (columns s);
  postamble_lines : forall s, Forall (fun l => is_mark l = false) (postamble s);
  (** the text around the rows leaves three quarters of the client's buffer free *)
  reply_budget : forall s, (length (Rows.join_lines (preamble s)) + 3 * length (concat (columns s)) +
                      10 * length (columns s) + length (Rows.join_lines (postamble s)) <= 900)%nat;
}.

Section Exec.
Context `{R : Runner}.

(** ** Statement execution *)

(** The text between the quotes [db_quote] writes. *)
Definition lit_text (s : cstr) : cstr := quote_loop QUOTE_MAX 1 s.

(** [StringField]: a string column keeps [STRING_LEN] bytes. *)
Definition sval (s : cstr) : cstr := take STRING_LEN (zql_string (lit_text s)).

Definition nval (z : Z) : option Z := zql_number z.
Definition text_nval (t : cstr) : option Z :=
  match t, strtol t with
  | _ :: _, (v, []) => zql_number v
  | _, _ => None
  end.

Definition max_seq (l : list election_row) : Z := foldr Z.max (-2147483648)%Z (map er_seq l).

(** A data statement on the tables it sees: [None] is a failed statement. *)
Definition run_stmt (s : stmt) (t : tables) : option tables :=
  match s with
  | InsElection seq id title opn cls =>
    v ← nval seq;
    Some (set_election (place (mkER v (sval id) (sval title) ($"DRAFT") (sval opn) (sval cls)) (t_election t)) t)
  | InsElectionState seq id title st opn cls =>
    v ← text_nval seq;
    Some (set_election (place (mkER v (sval id) (sval title) (bb_state_str st) (sval opn) (sval cls)) (t_election t)) t)
  | DelElection id => Some (set_election (filter (fun r => er_id r <> sval id) (t_election t)) t)
  | InsOption id idx name =>
    v ← nval idx; Some (set_option (place (mkOR (sval id) v (sval name)) (t_option t)) t)
  | InsEligible id cert => Some (set_eligible (place (mkGR (sval id) (sval cert)) (t_eligible t)) t)
  | InsBallot id hash opt ver sup =>
    o ← nval opt; v ← nval ver; u ← nval sup;
    Some (set_ballot (place (mkBR (sval id) (sval hash) o v u) (t_ballot t)) t)
  | InsBallotSuperseded id hash opt ver =>
    o ← text_nval opt; v ← text_nval ver;
    Some (set_ballot (place (mkBR (sval id) (sval hash) o v 1%Z) (t_ballot t)) t)
  | DelBallot id hash =>
    Some (set_ballot (filter (fun r => ~ (br_eid r = sval id /\ br_hash r = sval hash)) (t_ballot t)) t)
  | InsNonce id nonce => Some (set_nonce (place (mkNR (sval id) (sval nonce)) (t_nonce t)) t)
  | DelOwner id cert =>
    Some (set_owner (filter (fun r => ~ (wr_eid r = sval id /\ wr_cert r = sval cert)) (t_owner t)) t)
  | InsOwner id cert hash ver =>
    v ← nval ver; Some (set_owner (place (mkWR (sval id) (sval cert) (sval hash) v) (t_owner t)) t)
  | _ => Some t
  end.

(** The tuples a select prints, every field as text. *)
Definition run_select (s : stmt) (t : tables) : list (list cstr) :=
  match s with
  | SelElection id =>
    map (fun r => [print_int (er_seq r); er_id r; er_title r; er_state r; er_open r; er_close r])
        (filter (fun r => er_id r = sval id) (t_election t))
  | SelElectionCarry id =>
    map (fun r => [print_int (er_seq r); er_title r; er_open r; er_close r])
        (filter (fun r => er_id r = sval id) (t_election t))
  | SelMaxSeq => match t_election t with [] => [] | l => [[print_int (max_seq l)]] end
  | SelOption id =>
    map (fun r => [print_int (or_idx r); or_name r]) (filter (fun r => or_eid r = sval id) (t_option t))
  | SelEligible id =>
    map (fun r => [gr_cert r]) (filter (fun r => gr_eid r = sval id) (t_eligible t))
  | SelBallot id hash =>
    map (fun r => [print_int (br_opt r); print_int (br_ver r)])
        (filter (fun r => br_eid r = sval id /\ br_hash r = sval hash) (t_ballot t))
  | SelTally id =>
    map (fun r => [print_int (br_opt r)])
        (filter (fun r => br_eid r = sval id /\ br_sup r = 0%Z) (t_ballot t))
  | SelLive id =>
    map (fun r => [br_hash r; print_int (br_opt r); print_int (br_ver r); print_int (br_sup r)])
        (filter (fun r => br_eid r = sval id /\ br_sup r = 0%Z) (t_ballot t))
  | SelLiveHash id hash =>
    map (fun r => [br_hash r; print_int (br_opt r); print_int (br_ver r); print_int (br_sup r)])
        (filter (fun r => br_eid r = sval id /\ br_hash r = sval hash /\ br_sup r = 0%Z) (t_ballot t))
  | SelNonce id nonce =>
    map (fun r => [nr_nonce r]) (filter (fun r => nr_eid r = sval id /\ nr_nonce r = sval nonce) (t_nonce t))
  | SelOwner id cert =>
    map (fun r => [wr_hash r; print_int (wr_ver r)])
        (filter (fun r => wr_eid r = sval id /\ wr_cert r = sval cert) (t_owner t))
  | _ => []
  end.

(** [Query.execute]'s header and rule. *)
Definition header_line (s : stmt) : cstr := concat (map (fun n => n ++ [TAB]) (columns s)).
Definition rule_line (s : stmt) : cstr :=
  replicate (length (header_line s) + length (columns s) * 4) "-"%char.

Definition reply (s : stmt) (t : tables) : list cstr :=
  Rows.reply_lines (preamble s) (header_line s) (rule_line s) (run_select s t) (postamble s).

(** One statement of a session: the marker it earns, the committed tables and
    the open transaction behind it, and what was printed. *)
Definition session_exec (db : tables) (txn : option tables) (s : stmt)
    : bool * tables * option tables * list cstr :=
  match s with
  | SetTransaction => match txn with None => (true, db, Some db, []) | Some _ => (false, db, txn, []) end
  | Commit => match txn with Some t => (true, t, None, []) | None => (false, db, None, []) end
  | Rollback => match txn with Some _ => (true, db, None, []) | None => (false, db, None, []) end
  | _ =>
    let t := default db txn in
    match run_stmt s t with
    | None => (false, db, None, [])
    | Some t' =>
      match txn with
      | Some _ => (true, db, Some t', reply s t)
      | None => (true, t', None, reply s t)
      end
    end
  end.

(** ** The world a daemon process sees *)

Inductive fault :=
  | F_ok                                   (** the statement is answered *)
  | F_retry                                (** deadlock victim *)
  | F_error                                (** the runner fails the statement *)
  | F_lost (late applied : bool).          (** no answer; [applied]: it was executed *)

Record conn := mkConn {
  c_txn : option tables;            (** the session's open transaction, runner side *)
  c_failed : option db_status_t;    (** the sticky failure *)
  c_unread : list cstr }.           (** lines sent and not read yet *)

Record world := mkWorld {
  w_tables : tables;          (** what is committed *)
  w_faults : list fault;      (** outcomes of the next statements *)
  w_opens : list bool;        (** outcomes of the next connects *)
  w_log : list cstr;          (** operation log lines *)
  w_lock : bool;              (** [write_lock] held *)
  w_conn : option conn }.     (** [ctx->txn_conn] *)

Definition with_tables x w := mkWorld x (w_faults w) (w_opens w) (w_log w) (w_lock w) (w_conn w).
Definition with_faults x w := mkWorld (w_tables w) x (w_opens w) (w_log w) (w_lock w) (w_conn w).
Definition with_opens x w := mkWorld (w_tables w) (w_faults w) x (w_log w) (w_lock w) (w_conn w).
Definition with_log x w := mkWorld (w_tables w) (w_faults w) (w_opens w) x (w_lock w) (w_conn w).
Definition with_lock x w := mkWorld (w_tables w) (w_faults w) (w_opens w) (w_log w) x (w_conn w).
Definition with_conn x w := mkWorld (w_tables w) (w_faults w) (w_opens w) (w_log w) (w_lock w) x.

Definition has_line_break (s : cstr) : bool := existsb (fun c => ceqb c LF || ceqb c CR) s.

Definition DB_MARK_ERROR : cstr := $"<<END error>>".

(** What [db_wire_response] takes from the lines in flight: those above the
    first marker, the status it names, and the lines left behind. *)
Fixpoint take_reply (acc ls : list cstr) : db_status_t * list cstr * list cstr :=
  match ls with
  | [] => (DB_IO, acc, [])
  | l :: ls' => if is_mark l then (classify (clip l), acc, ls') else take_reply (acc ++ [l]) ls'
  end.

(** [db_socket_exec(c, sql, body, cap)] (socket.c); [cap = None] is a NULL
    body.  Nobody reads the body of a failed statement. *)
Definition db_socket_exec (s : stmt) (cap : option nat) (c : conn) (w : world)
    : db_status_t * cstr * conn * world :=
  match c_failed c with
  | Some f => (f, [], c, w)
  | None =>
    if has_line_break (sql_text s) then (DB_ERROR, [], c, w)
    else
      let f := match w_faults w with f :: _ => f | [] => F_ok end in
      let w1 := with_faults (tail (w_faults w)) w in
      let answer (db : tables) (txn : option tables) (lines : list cstr) (mark : cstr) :=
        let '(st, body, rest) := take_reply [] (c_unread c ++ lines ++ [mark]) in
        (st, wire_body cap body, mkConn txn None rest, with_tables db w1) in
      match f with
      | F_ok =>
        let '(ok, db, txn, lines) := session_exec (w_tables w1) (c_txn c) s in
        answer db txn lines (if ok then DB_MARK_OK else DB_MARK_ERROR)
      | F_retry => answer (w_tables w1) None [] DB_MARK_RETRY
      | F_error => answer (w_tables w1) None [] DB_MARK_ERROR
      | F_lost late applied =>
        let st := if late then DB_TIMEOUT else DB_IO in
        if applied then
          let '(_, db, txn, _) := session_exec (w_tables w1) (c_txn c) s in
          (st, [], mkConn txn (Some st) [], with_tables db w1)
        else (st, [], mkConn (c_txn c) (Some st) [], w1)
      end
  end.

(** [db_socket_open]: a fresh session, or NULL. *)
Definition db_socket_open (w : world) : option conn * world :=
  let ok := match w_opens w with b :: _ => b | [] => true end in
  (if ok then Some (mkConn None None []) else None, with_opens (tail (w_opens w)) w).

End Exec.

(** ** The wire delivers what [db_socket_exec] reads *)

Lemma take_reply_split acc ls : Exists (fun l => is_mark l = true) ls ->
  exists pre m rest, ls = pre ++ m :: rest /\ Forall (fun l => is_mark l = false) pre /\ is_mark m = true /\
    take_reply acc ls = (classify (clip m), acc ++ pre, rest).
Proof.
  revert acc; induction ls as [|l ls IH]; intros acc Hex; [by inversion Hex|]. cbn [take_reply].
  destruct (is_mark l) eqn:El.
  - exists [], l, ls. rewrite app_nil_r. auto.
  - destruct (IH (acc ++ [l])) as (pre & m & rest & -> & HF & Hm & E); [by inversion Hex; congruence|].
    exists (l :: pre), m, rest. rewrite E, <-app_assoc. auto.
Qed.

(** However the kernel cuts the runner's answer into reads (partial
    lines, interrupted and empty reads included), [db_wire_response] returns
    the status of the first marker line and the lines above it, each clipped
    to its line buffer and all of them to the caller's, and leaves on the
    connection exactly the lines behind that marker. *)
Theorem wire_response_any_chunking (w : db_wire_t) (cap : option nat) (ls : list cstr) :
  Forall (Rows.no_char LF) ls -> Exists (fun l => is_mark l = true) ls -> pending w = frame_lines ls ->
  let '(st, body, rest) := take_reply [] ls in
  exists w', db_wire_response w cap = (st, wire_body cap body, w') /\ pending w' = frame_lines rest.
Proof.
  intros HF Hex Hp. destruct (take_reply_split [] ls Hex) as (pre & m & rest & -> & Hpre & Hm & ->).
  apply Forall_app in HF as [HF1 HF2]. inversion HF2; subst. unfold db_wire_response.
  edestruct (response_loop_spec (S (length (w_buf w) + script_bytes (w_script w))) w cap [] pre m (frame_lines rest))
    as (w' & E & Hw'); [done|done|done|done| |lia|].
  - rewrite Hp. unfold frame_lines. rewrite map_app, concat_app. cbn [map concat]. by rewrite <-!app_assoc.
  - exists w'. split; [|done]. rewrite E. unfold wire_body. by destruct cap.
Qed.

(** A select's answer that arrives in three pieces, one of them interrupted. *)
Definition sample_lines : list cstr := [$"nonce"; $"---------"; $"n1"; []; $" 1 rows."; $"<<END ok>>"; $"<<END error>>"].
Definition sample_wire : db_wire_t :=
  let bytes := frame_lines sample_lines in
  mkWire (take 8 bytes) [RAgain; RData (take 9 (drop 8 bytes)); RAgain; RData (drop 17 bytes); REof].

Lemma wire_response_any_chunking_witness :
  exists w', db_wire_response sample_wire (Some 4096%nat) =
    (DB_OK, Rows.join_lines [$"nonce"; $"---------"; $"n1"; []; $" 1 rows."], w') /\
    pending w' = $"<<END error>>" ++ [LF].
Proof.
  pose proof (wire_response_any_chunking sample_wire (Some 4096%nat) sample_lines) as H.
  destruct H as (w' & E & Hp).
  - repeat constructor; discriminate.
  - do 5 apply Exists_cons_tl. apply Exists_cons_hd. reflexivity.
  - reflexivity.
  - exists w'. split; [rewrite E; reflexivity|exact Hp].
Defined.

End Server.
