(* ===== verification/BrainDb.v ===== *)
(** * The store seam: libballotbrain/db.c and txn.c

    The typed commands of db.h, executed as SQL statements on a connection.
    A C function returning [bb_result_t] is a program of the state monad below:
    [Ok a] is [BB_OK] with its out-parameters, [Err e] any other code. *)
From S2P Require Import Prelude CText Types Rows Sql Wire Server.
Import Rows Sql Wire Server.

(** ** Error and state *)

Inductive res (A : Type) := Ok (a : A) | Err (e : bb_result_t).
Arguments Ok {A} _.
Arguments Err {A} _.

Definition prog (S A : Type) := S -> res A * S.

Section Monad.
Context {S : Type}.

Definition ret {A} (a : A) : prog S A := fun s => (Ok a, s).
Definition throw {A} (e : bb_result_t) : prog S A := fun s => (Err e, s).
Definition bind {A B} (m : prog S A) (k : A -> prog S B) : prog S B :=
  fun s => match m s with (Ok a, s') => k a s' | (Err e, s') => (Err e, s') end.

End Monad.

Notation "'let!' x ':=' m 'in' k" := (bind m (fun x => k))
  (at level 10, x pattern, m at level 100, k at level 200).
Notation "m1 ;! m2" := (bind m1 (fun _ => m2)) (at level 199, right associativity).

(** The [bb_result_t] a program returns. *)
Definition code_of {A} (r : res A) : bb_result_t := match r with Ok _ => BB_OK | Err e => e end.

Module BrainDb.

Definition BODY_MAX : nat := Z.to_nat 16384.
Definition SELF_RETRY_ATTEMPTS : nat := 3.

Section Db.
Context `{R : Runner}.

(** ** Small helpers *)

Definition map_status (st : db_status_t) : bb_result_t :=
  match st with DB_OK => BB_OK | DB_RETRY => BB_ERR_RETRY | _ => BB_ERR_DB end.

(** [exec_stmt(conn, sql, body, cap)]: the body on [BB_OK]. *)
Definition exec_stmt (s : stmt) (cap : option nat) : prog (conn * world) cstr :=
  fun '(c, w) =>
    let '(st, body, c', w') := db_socket_exec s cap c w in
    (match map_status st with BB_OK => Ok body | e => Err e end, (c', w')).

Definition run (s : stmt) : prog (conn * world) unit := exec_stmt s None ;! ret tt.
Definition query (s : stmt) : prog (conn * world) cstr := exec_stmt s (Some BODY_MAX).

Definition unsafe (s : cstr) : bool := existsb (fun c => ceqb c TAB || ceqb c LF || ceqb c CR) s.

(** [field_copy] into a buffer of [cap] bytes. *)
Definition field_copy (f : cstr) (cap : nat) : cstr := take (cap - 1) f.
Definition field_int (f : cstr) : Z := atoi (field_copy f 24).

(** [strrchr(s, c) + 1], if any. *)
Fixpoint after_last (c : ascii) (s : cstr) : option cstr :=
  match s with
  | [] => None
  | x :: s' => match after_last c s' with Some r => Some r | None => if ceqb x c then Some s' else None end
  end.

Definition id_seq (id : cstr) : Z :=
  match after_last "-" id with
  | None => 0
  | Some t => let '(v, rest) := strtol t in
              match rest with [] => if (v <? 0)%Z then 0%Z else i32 v | _ => 0%Z end
  end.

(** The fields of row [i], when the reply has at least [n] of them there. *)
Definition fields (body : cstr) (i : Z) (n : nat) : option (list cstr) :=
  match db_row_fields body i n with
  | Some (k, fs) => if (k <? n)%nat then None else Some fs
  | None => None
  end.
Definition fld (fs : list cstr) (i : nat) : cstr := default [] (fs !! i).

(** ** log_cmd *)

Definition q (s : cstr) : cstr := QUOTE :: s ++ [QUOTE].

Definition log_line (cmd : bb_db_cmd_t) : cstr :=
  let id := q (cmd_election_id cmd) in
  match cmd_op cmd with
  | BB_DB_INSERT_ELECTION =>
    $"[db] insert into election(id, title, state) values (" ++ id ++ $", ?, 'DRAFT')"
  | BB_DB_GET_ELECTION => $"[db] select * from election where id = " ++ id
  | BB_DB_UPDATE_STATE =>
    $"[db] election " ++ id ++ $": state -> " ++ q (bb_state_str (cmd_new_state cmd)) ++
    $" (delete + reinsert, no UPDATE in SimpleDB)"
  | BB_DB_APPEND_BALLOT =>
    let '(h, o, v, u) := match cmd_hash_row cmd with
      | Some r => (bh_hash r, bh_option_index r, bh_version r, bh_superseded r)
      | None => ($"?", (-1)%Z, (-1)%Z, 0%Z) end in
    $"[db] insert into ballot(election_id, hash, option_index, version, superseded) values (" ++
    id ++ $", " ++ q h ++ $", " ++ print_int o ++ $", " ++ print_int v ++ $", " ++ print_int u ++ $")"
  | BB_DB_MARK_SUPERSEDED =>
    $"[db] ballot " ++ q (cmd_hash cmd) ++ $" in " ++ id ++ $": superseded -> 1 (delete + reinsert)"
  | BB_DB_NONCE_MARK =>
    $"[db] insert into nonce(election_id, nonce) values (" ++ id ++ $", " ++ q (cmd_nonce cmd) ++ $")"
  | BB_DB_SET_OWNER =>
    $"[db] ballot_owner(" ++ id ++ $", cert=?) -> hash=" ++ q (cmd_hash cmd) ++ $" version=" ++
    print_int (cmd_version cmd)
  | BB_DB_GET_TALLY =>
    $"[db] select option_index from ballot where election_id = " ++ id ++ $" and superseded = 0"
  | BB_DB_GET_HASHES =>
    $"[db] select hash, option_index from ballot where election_id = " ++ id ++ $" and superseded = 0"
  | BB_DB_FIND_HASH =>
    $"[db] select 1 from ballot where election_id = " ++ id ++ $" and hash = " ++ q (cmd_hash cmd) ++
    $" and superseded = 0"
  | BB_DB_NONCE_SEEN =>
    $"[db] select 1 from nonce where election_id = " ++ id ++ $" and nonce = " ++ q (cmd_nonce cmd)
  | BB_DB_GET_PRIOR_BALLOT =>
    $"[db] select hash, version from ballot_owner where election_id = " ++ id ++ $" and cert=?"
  end.

(** [bb_log]: one line appended to the operation log. *)
Definition bb_log (line : cstr) (w : world) : world := with_log (w_log w ++ [line]) w.

(** ** The writes *)

Fixpoint insert_options (id : cstr) (i : Z) (opts : list cstr) : prog (conn * world) unit :=
  match opts with
  | [] => ret tt
  | o :: opts' =>
    if unsafe o then throw BB_ERR_DB
    else run (InsOption id i o) ;! insert_options id (i + 1)%Z opts'
  end.

Fixpoint insert_eligible (id : cstr) (certs : list cstr) : prog (conn * world) unit :=
  match certs with
  | [] => ret tt
  | c :: certs' =>
    if unsafe c then throw BB_ERR_DB
    else run (InsEligible id c) ;! insert_eligible id certs'
  end.

(** The first [count] slots of an array of [cap]. *)
Definition slots {A} (count : Z) (cap : nat) (l : list A) : list A :=
  take (Z.to_nat (Z.min count (Z.of_nat cap))) l.

Definition run_insert_election (cmd : bb_db_cmd_t) : prog (conn * world) unit :=
  match cmd_config cmd with
  | None => throw BB_ERR_DB
  | Some cfg =>
    let id := cmd_election_id cmd in
    if unsafe id || unsafe (cfg_title cfg) || unsafe (cfg_open_time cfg) || unsafe (cfg_close_time cfg)
    then throw BB_ERR_DB
    else
      run (InsElection (id_seq id) id (cfg_title cfg) (cfg_open_time cfg) (cfg_close_time cfg)) ;!
      insert_options id 0 (slots (cfg_option_count cfg) BB_MAX_OPTIONS (cfg_options cfg)) ;!
      insert_eligible id (slots (cfg_eligible_count cfg) BB_MAX_VOTERS (cfg_eligible cfg))
  end.

Definition run_update_state (cmd : bb_db_cmd_t) : prog (conn * world) unit :=
  let id := cmd_election_id cmd in
  let! body := query (SelElectionCarry id) in
  if (db_row_count body <=? 0)%Z then throw BB_ERR_DB
  else match fields body 0 4 with
  | None => throw BB_ERR_DB
  | Some f =>
    run (DelElection id) ;!
    run (InsElectionState (field_copy (fld f 0) 24) id (field_copy (fld f 1) BB_TITLE_LEN)
           (cmd_new_state cmd) (field_copy (fld f 2) BB_TIME_LEN) (field_copy (fld f 3) BB_TIME_LEN))
  end.

Definition run_append_ballot (cmd : bb_db_cmd_t) : prog (conn * world) unit :=
  match cmd_hash_row cmd with
  | None => throw BB_ERR_DB
  | Some r => run (InsBallot (cmd_election_id cmd) (bh_hash r) (bh_option_index r) (bh_version r)
                     (bh_superseded r))
  end.

Definition run_mark_superseded (cmd : bb_db_cmd_t) : prog (conn * world) unit :=
  let id := cmd_election_id cmd in
  let! body := query (SelBallot id (cmd_hash cmd)) in
  if (db_row_count body <=? 0)%Z then throw BB_ERR_DB
  else match fields body 0 2 with
  | None => throw BB_ERR_DB
  | Some f =>
    run (DelBallot id (cmd_hash cmd)) ;!
    run (InsBallotSuperseded id (cmd_hash cmd) (field_copy (fld f 0) 24) (field_copy (fld f 1) 24))
  end.

Definition run_nonce_mark (cmd : bb_db_cmd_t) : prog (conn * world) unit :=
  run (InsNonce (cmd_election_id cmd) (cmd_nonce cmd)).

Definition run_set_owner (cmd : bb_db_cmd_t) : prog (conn * world) unit :=
  run (DelOwner (cmd_election_id cmd) (cmd_cert_name cmd)) ;!
  run (InsOwner (cmd_election_id cmd) (cmd_cert_name cmd) (cmd_hash cmd) (cmd_version cmd)).

(** ** The reads

    The out-struct is zeroed by [db_exec] before the attempt, so a read
    returns it whole; [has_out] is [out != NULL]. *)

Definition set_res_election e r := mkDbResult e (res_tally r) (res_hashes r) (res_hash_count r) (res_found r) (res_row r).
Definition set_res_tally x r := mkDbResult (res_election r) x (res_hashes r) (res_hash_count r) (res_found r) (res_row r).
Definition set_res_hashes x n r := mkDbResult (res_election r) (res_tally r) x n (res_found r) (res_row r).
Definition set_res_found b r := mkDbResult (res_election r) (res_tally r) (res_hashes r) (res_hash_count r) b (res_row r).
Definition set_res_row x r := mkDbResult (res_election r) (res_tally r) (res_hashes r) (res_hash_count r) (res_found r) x.

(** [rows < 0] is read as 0. *)
Definition row_total (body : cstr) : nat := Z.to_nat (db_row_count body).

(** [for (i = 0; i < n; i++)] over an accumulator. *)
Definition for_rows {A} (n : nat) (f : A -> nat -> A) (a : A) : A := foldl f a (seq 0 n).

Definition in_options (i : Z) : bool := (0 <=? i)%Z && (i <? Z.of_nat BB_MAX_OPTIONS)%Z.

Definition read_options (body : cstr) : list cstr * Z :=
  let rows := row_total body in
  (for_rows rows (fun opts i =>
     match fields body (Z.of_nat i) 2 with
     | None => opts
     | Some f =>
       let idx := field_int (fld f 0) in
       if in_options idx then <[Z.to_nat idx := field_copy (fld f 1) BB_OPTION_LEN]> opts else opts
     end) no_options,
   Z.of_nat (Nat.min rows BB_MAX_OPTIONS)).

Definition read_eligible (body : cstr) : list cstr * Z :=
  let rows := row_total body in
  (for_rows (Nat.min rows BB_MAX_VOTERS) (fun es i =>
     match fields body (Z.of_nat i) 1 with
     | None => es
     | Some f => <[i := field_copy (fld f 0) BB_CERT_LEN]> es
     end) no_voters,
   Z.of_nat (Nat.min rows BB_MAX_VOTERS)).

Definition run_get_election (cmd : bb_db_cmd_t) (has_out : bool) : prog (conn * world) bb_db_result_t :=
  if negb has_out then throw BB_ERR_DB
  else
    let id := cmd_election_id cmd in
    let! body := query (SelElection id) in
    let rows := db_row_count body in
    if (rows <? 0)%Z then throw BB_ERR_DB
    else if (rows =? 0)%Z then ret zero_db_result
    else match fields body 0 6 with
    | None => throw BB_ERR_DB
    | Some f =>
      match parse_state (field_copy (fld f 3) 16) with
      | None => throw BB_ERR_DB
      | Some state =>
        let! obody := query (SelOption id) in
        let '(options, option_count) := read_options obody in
        let! ebody := query (SelEligible id) in
        let '(eligible, eligible_count) := read_eligible ebody in
        ret (set_res_found true (set_res_election
          (mkElection (field_copy (fld f 1) BB_ID_LEN) (field_copy (fld f 2) BB_TITLE_LEN) state
             options option_count eligible eligible_count
             (field_copy (fld f 4) BB_TIME_LEN) (field_copy (fld f 5) BB_TIME_LEN) zero_tally)
          zero_db_result))
      end
    end.

Definition read_tally (body : cstr) : list Z :=
  for_rows (row_total body) (fun tally i =>
    match fields body (Z.of_nat i) 1 with
    | None => tally
    | Some f =>
      let idx := field_int (fld f 0) in
      if in_options idx then alter (fun n => n + 1)%Z (Z.to_nat idx) tally else tally
    end) zero_tally.

Definition run_get_tally (cmd : bb_db_cmd_t) (has_out : bool) : prog (conn * world) bb_db_result_t :=
  if negb has_out then throw BB_ERR_DB
  else let! body := query (SelTally (cmd_election_id cmd)) in
       ret (set_res_tally (read_tally body) zero_db_result).

Definition read_hash_row (f : list cstr) : bb_ballot_hash_t :=
  mkHashRow (field_copy (fld f 0) BB_HASH_LEN) (field_int (fld f 1)) (field_int (fld f 2)) (field_int (fld f 3)).

(** [n] counts the rows kept; the loop stops at [BB_MAX_VOTERS] of them. *)
Definition read_hashes (body : cstr) : list bb_ballot_hash_t * nat :=
  for_rows (row_total body) (fun '(hs, n) i =>
    if (n <? BB_MAX_VOTERS)%nat then
      match fields body (Z.of_nat i) 4 with
      | None => (hs, n)
      | Some f => (<[n := read_hash_row f]> hs, S n)
      end
    else (hs, n)) (replicate BB_MAX_VOTERS zero_row, O).

Definition run_get_hashes (cmd : bb_db_cmd_t) (has_out : bool) : prog (conn * world) bb_db_result_t :=
  if negb has_out then throw BB_ERR_DB
  else let! body := query (SelLive (cmd_election_id cmd)) in
       let '(hs, n) := read_hashes body in
       ret (set_res_hashes hs (Z.of_nat n) zero_db_result).

Definition run_find_hash (cmd : bb_db_cmd_t) (has_out : bool) : prog (conn * world) bb_db_result_t :=
  if negb has_out then throw BB_ERR_DB
  else let! body := query (SelLiveHash (cmd_election_id cmd) (cmd_hash cmd)) in
       if (db_row_count body <=? 0)%Z then ret zero_db_result
       else match fields body 0 4 with
       | None => throw BB_ERR_DB
       | Some f => ret (set_res_found true (set_res_row (read_hash_row f) zero_db_result))
       end.

Definition run_nonce_seen (cmd : bb_db_cmd_t) (has_out : bool) : prog (conn * world) bb_db_result_t :=
  if negb has_out then throw BB_ERR_DB
  else let! body := query (SelNonce (cmd_election_id cmd) (cmd_nonce cmd)) in
       ret (set_res_found (0 <? db_row_count body)%Z zero_db_result).

Definition run_get_prior_ballot (cmd : bb_db_cmd_t) (has_out : bool) : prog (conn * world) bb_db_result_t :=
  if negb has_out then throw BB_ERR_DB
  else let! body := query (SelOwner (cmd_election_id cmd) (cmd_cert_name cmd)) in
       if (db_row_count body <=? 0)%Z then ret zero_db_result
       else match fields body 0 2 with
       | None => throw BB_ERR_DB
       | Some f => ret (set_res_found true (set_res_row
           (mkHashRow (field_copy (fld f 0) BB_HASH_LEN) 0 (field_int (fld f 1)) 0) zero_db_result))
       end.

(** ** Dispatch and db_exec *)

Definition op_is_write (op : bb_db_op_t) : bool :=
  match op with
  | BB_DB_INSERT_ELECTION | BB_DB_UPDATE_STATE | BB_DB_APPEND_BALLOT
  | BB_DB_MARK_SUPERSEDED | BB_DB_NONCE_MARK | BB_DB_SET_OWNER => true
  | _ => false
  end.

Definition wrote (m : prog (conn * world) unit) : prog (conn * world) bb_db_result_t :=
  m ;! ret zero_db_result.

Definition run_op (cmd : bb_db_cmd_t) (has_out : bool) : prog (conn * world) bb_db_result_t :=
  match cmd_op cmd with
  | BB_DB_INSERT_ELECTION => wrote (run_insert_election cmd)
  | BB_DB_UPDATE_STATE => wrote (run_update_state cmd)
  | BB_DB_APPEND_BALLOT => wrote (run_append_ballot cmd)
  | BB_DB_MARK_SUPERSEDED => wrote (run_mark_superseded cmd)
  | BB_DB_NONCE_MARK => wrote (run_nonce_mark cmd)
  | BB_DB_SET_OWNER => wrote (run_set_owner cmd)
  | BB_DB_GET_ELECTION => run_get_election cmd has_out
  | BB_DB_GET_TALLY => run_get_tally cmd has_out
  | BB_DB_GET_HASHES => run_get_hashes cmd has_out
  | BB_DB_FIND_HASH => run_find_hash cmd has_out
  | BB_DB_NONCE_SEEN => run_nonce_seen cmd has_out
  | BB_DB_GET_PRIOR_BALLOT => run_get_prior_ballot cmd has_out
  end.

(** [one_shot_attempt]: its own connection, closed at the end (closing rolls
    back whatever the session left open). *)
Definition one_shot_attempt (cmd : bb_db_cmd_t) (has_out is_write : bool) : prog world bb_db_result_t :=
  fun w =>
    match db_socket_open w with
    | (None, w1) => (Err BB_ERR_DB, w1)
    | (Some c, w1) =>
      if is_write then
        match (run SetTransaction ;! run_op cmd has_out) (c, w1) with
        | (Ok a, s) => let '(r, (_, w2)) := (run Commit ;! ret a) s in (r, w2)
        | (Err BB_ERR_RETRY, (_, w2)) => (Err BB_ERR_RETRY, w2)
        | (Err e, s) => let '(_, (_, w2)) := run Rollback s in (Err e, w2)
        end
      else let '(r, (_, w2)) := run_op cmd has_out (c, w1) in (r, w2)
    end.

Fixpoint attempts (n : nat) (cmd : bb_db_cmd_t) (has_out is_write : bool) : prog world bb_db_result_t :=
  fun w =>
    match n with
    | O => (Err BB_ERR_DB, w)
    | S n' =>
      match one_shot_attempt cmd has_out is_write w with
      | (Err BB_ERR_RETRY, w1) => attempts n' cmd has_out is_write w1
      | r => r
      end
    end.

Definition db_exec (cmd : bb_db_cmd_t) (has_out : bool) : prog world bb_db_result_t :=
  fun w0 =>
    let w := bb_log (log_line cmd) w0 in
    match w_conn w with
    | Some c => let '(r, (c', w')) := run_op cmd has_out (c, w) in (r, with_conn (Some c') w')
    | None => attempts SELF_RETRY_ATTEMPTS cmd has_out (op_is_write (cmd_op cmd)) w
    end.

(** ** txn.c *)

Definition bb_db_begin : prog world unit :=
  fun w =>
    match w_conn w with
    | Some _ => (Err BB_ERR_DB, w)
    | None =>
      match db_socket_open w with
      | (None, w1) => (Err BB_ERR_DB, w1)
      | (Some c, w1) =>
        match run SetTransaction (c, w1) with
        | (Ok _, (c', w2)) => (Ok tt, with_conn (Some c') w2)
        | (Err e, (_, w2)) => (Err e, w2)
        end
      end
    end.

Definition bb_db_commit : prog world unit :=
  fun w =>
    match w_conn w with
    | None => (Err BB_ERR_DB, w)
    | Some c => let '(r, (_, w1)) := run Commit (c, w) in (r, with_conn None w1)
    end.

Definition bb_db_rollback (w : world) : world :=
  match w_conn w with
  | None => w
  | Some c => let '(_, (_, w1)) := run Rollback (c, w) in with_conn None w1
  end.

(** ** bb_alloc_id (ballotbrain.c) *)

Definition ALLOC_BODY : nat := Z.to_nat 4096.

Definition alloc_next (st : db_status_t) (body : cstr) : Z :=
  match st with
  | DB_OK =>
    if (0 <? db_row_count body)%Z then
      match fields body 0 1 with
      | Some f =>
        let '(v, rest) := strtol (field_copy (fld f 0) 24) in
        match rest with [] => if (0 <=? v)%Z then i32 (i32 v + 1) else 100%Z | _ => 100%Z end
      | None => 100%Z
      end
    else 100%Z
  | _ => 100%Z
  end.

Definition bb_alloc_id (w : world) : cstr * world :=
  match db_socket_open w with
  | (None, w1) => (trunc BB_ID_LEN ($"E-" ++ print_int 100), w1)
  | (Some c, w1) =>
    let '(st, body, _, w2) := db_socket_exec SelMaxSeq (Some ALLOC_BODY) c w1 in
    (trunc BB_ID_LEN ($"E-" ++ print_int (alloc_next st body)), w2)
  end.

End Db.
End BrainDb.
