(* ===== verification/Brain.v ===== *)
(** * The election logic: libballotbrain's config.c, lifecycle.c, crypto.c and handlers.c

    Pointers the C checks against NULL are the arguments' presence; every
    caller in the daemon passes them. *)
From S2P Require Import Prelude CText Types Rows Sql Wire Server BrainDb.
Import Server BrainDb.

Module Brain.

(** ** config.c *)

Definition bb_validate_config (c : bb_config_t) : bb_result_t :=
  match cfg_title c with
  | [] => BB_ERR_CONFIG_TITLE
  | _ =>
    if (cfg_option_count c <? 2)%Z then BB_ERR_CONFIG_OPTIONS
    else if (strcmp (cfg_close_time c) (cfg_open_time c) <=? 0)%Z then BB_ERR_CONFIG_TIME
    else BB_OK
  end.

(** ** lifecycle.c *)

Definition bb_is_legal_transition (from to : bb_state_t) : bool :=
  match from with
  | BB_STATE_DRAFT => bool_decide (to = BB_STATE_OPEN)
  | BB_STATE_OPEN => bool_decide (to = BB_STATE_CLOSED)
  | BB_STATE_CLOSED => bool_decide (to = BB_STATE_PUBLISHED)
  | BB_STATE_PUBLISHED => false
  end.

(** ** crypto.c *)

Definition hex_digit (n : Z) : ascii :=
  default "0"%char ($"0123456789abcdef" !! Z.to_nat n).

Fixpoint hash_loop (n : nat) (state : Z) : cstr :=
  match n with
  | O => []
  | S n' =>
    let state' := u32 (state * 1103515245 + 12345) in
    hex_digit (Z.land (Z.shiftr state' 16) 15) :: hash_loop n' state'
  end.

Definition hash_from_seed (seed : Z) : cstr :=
  hash_loop (BB_HASH_LEN - 1) (u32 (seed * 2654435761 + 1)).

Definition fold (s : cstr) : Z := foldl (fun h c => u32 (h * 33 + code c)) 5381%Z s.

Definition bb_decrypt_ballot (b : bb_ballot_t) : Z :=
  if (0 <? bl_payload_len b)%Z then
    match bl_payload b with c :: _ => code c | [] => 0%Z end
  else 0%Z.

Definition receipt_hash (nonce : cstr) (version : Z) : cstr :=
  hash_from_seed (Z.lxor (fold nonce) (u32 (version * 2246822519))).

Definition bb_issue_receipt (b : bb_ballot_t) (version : Z) : bb_receipt_t :=
  mkReceipt (receipt_hash (bl_nonce b) version) ($"1970-01-01T00:00:00Z").

Section Handlers.
Context `{R : Runner}.

Definition log (line : cstr) : prog world unit := fun w => (Ok tt, bb_log line w).

Definition bb_verify_cert (cert : cstr) : prog world bb_cert_status_t :=
  match cert with
  | [] => ret BB_CERT_INVALID
  | _ => log ($"[cert] verify " ++ q cert ++ $" (placeholder -> VALID)") ;! ret BB_CERT_VALID
  end.

(** ** handlers.c *)

Definition load_election (election_id : cstr) : prog world bb_election_t :=
  let! res := db_exec (new_cmd BB_DB_GET_ELECTION election_id) true in
  if res_found res then ret (res_election res) else throw BB_ERR_NOT_FOUND.

(** [%d] of a [bb_result_t]: the position of the constructor in types.h. *)
Definition result_code (r : bb_result_t) : Z :=
  match r with
  | BB_OK => 0
  | BB_ERR_CONFIG_TITLE => 1 | BB_ERR_CONFIG_OPTIONS => 2 | BB_ERR_CONFIG_TIME => 3
  | BB_ERR_CONFIG_ID_TAKEN => 4 | BB_ERR_ILLEGAL_TRANSITION => 5 | BB_ERR_NOT_OPEN => 6
  | BB_ERR_CLOSED => 7 | BB_ERR_NOT_PUBLISHED => 8 | BB_ERR_NOT_ELIGIBLE => 9
  | BB_ERR_CERT_INVALID => 10 | BB_ERR_CERT_EXPIRED => 11 | BB_ERR_BAD_OPTION => 12
  | BB_ERR_REPLAY => 13 | BB_ERR_DECRYPT => 14 | BB_ERR_NOT_FOUND => 15
  | BB_ERR_NOT_JOINED => 16 | BB_ERR_DB => 17 | BB_ERR_NOT_IMPLEMENTED => 18 | BB_ERR_RETRY => 19
  end.

Definition cmd_with_config (cfg : bb_config_t) (c : bb_db_cmd_t) : bb_db_cmd_t :=
  mkCmd (cmd_op c) (cmd_election_id c) (cmd_new_state c) (cmd_hash_row c) (cmd_hash c)
        (cmd_version c) (cmd_nonce c) (cmd_cert_name c) (Some cfg).
Definition cmd_with_state (s : bb_state_t) (c : bb_db_cmd_t) : bb_db_cmd_t :=
  mkCmd (cmd_op c) (cmd_election_id c) s (cmd_hash_row c) (cmd_hash c)
        (cmd_version c) (cmd_nonce c) (cmd_cert_name c) (cmd_config c).
Definition cmd_with_row (r : bb_ballot_hash_t) (c : bb_db_cmd_t) : bb_db_cmd_t :=
  mkCmd (cmd_op c) (cmd_election_id c) (cmd_new_state c) (Some r) (cmd_hash c)
        (cmd_version c) (cmd_nonce c) (cmd_cert_name c) (cmd_config c).
Definition cmd_with_hash (h : cstr) (c : bb_db_cmd_t) : bb_db_cmd_t :=
  mkCmd (cmd_op c) (cmd_election_id c) (cmd_new_state c) (cmd_hash_row c) (trunc BB_HASH_LEN h)
        (cmd_version c) (cmd_nonce c) (cmd_cert_name c) (cmd_config c).
Definition cmd_with_version (v : Z) (c : bb_db_cmd_t) : bb_db_cmd_t :=
  mkCmd (cmd_op c) (cmd_election_id c) (cmd_new_state c) (cmd_hash_row c) (cmd_hash c)
        v (cmd_nonce c) (cmd_cert_name c) (cmd_config c).
Definition cmd_with_nonce (n : cstr) (c : bb_db_cmd_t) : bb_db_cmd_t :=
  mkCmd (cmd_op c) (cmd_election_id c) (cmd_new_state c) (cmd_hash_row c) (cmd_hash c)
        (cmd_version c) (trunc BB_NONCE_LEN n) (cmd_cert_name c) (cmd_config c).
Definition cmd_with_cert (n : cstr) (c : bb_db_cmd_t) : bb_db_cmd_t :=
  mkCmd (cmd_op c) (cmd_election_id c) (cmd_new_state c) (cmd_hash_row c) (cmd_hash c)
        (cmd_version c) (cmd_nonce c) (trunc BB_CERT_LEN n) (cmd_config c).

(** *** UC-1 *)

Definition insert_election (cfg : bb_config_t) (id : cstr) : prog world cstr :=
  db_exec (cmd_with_config cfg (new_cmd BB_DB_INSERT_ELECTION id)) false ;!
  ret (trunc BB_ID_LEN id).

Definition bb_create_election (cfg : bb_config_t) (desired_id : cstr) : prog world cstr :=
  match bb_validate_config cfg with
  | BB_OK =>
    match desired_id with
    | [] => fun w => let '(id, w1) := bb_alloc_id w in insert_election cfg id w1
    | _ => fun w =>
      match load_election desired_id w with
      | (Ok _, w1) =>
        (Err BB_ERR_CONFIG_ID_TAKEN,
         bb_log ($"[create] rejected: id " ++ q desired_id ++ $" already exists") w1)
      | (Err BB_ERR_NOT_FOUND, w1) => insert_election cfg (trunc BB_ID_LEN desired_id) w1
      | (Err e, w1) => (Err e, w1)
      end
    end
  | vr => log ($"[create] rejected config (err=" ++ print_int (result_code vr) ++ $")") ;! throw vr
  end.

Definition bb_transition_state (election_id : cstr) (to : bb_state_t) : prog world unit :=
  let! res := db_exec (new_cmd BB_DB_GET_ELECTION election_id) true in
  if negb (res_found res) then throw BB_ERR_NOT_FOUND
  else
    let from := el_state (res_election res) in
    if negb (bb_is_legal_transition from to) then
      log ($"[lifecycle] reject " ++ bb_state_str from ++ $" -> " ++ bb_state_str to ++ $" on " ++
           q election_id) ;!
      throw BB_ERR_ILLEGAL_TRANSITION
    else
      db_exec (cmd_with_state to (new_cmd BB_DB_UPDATE_STATE election_id)) false ;! ret tt.

(** *** Eligibility *)

Definition bb_check_eligibility (e : bb_election_t) (cert : cstr) : bool :=
  existsb (fun x => streq x cert) (slots (el_eligible_count e) BB_MAX_VOTERS (el_eligible e)).

Definition br (s : cstr) : cstr := $"[" ++ s ++ $"]".

(** The refusal's log lines, the whole list included ([tag] is join or cast). *)
Fixpoint log_list (tag : cstr) (i : Z) (es : list cstr) : prog world unit :=
  match es with
  | [] => ret tt
  | e :: es' =>
    log (br tag ++ $"   eligible[" ++ print_int i ++ $"] = " ++ br e) ;! log_list tag (i + 1)%Z es'
  end.

Definition log_not_eligible (tag election_id cert : cstr) (e : bb_election_t) : prog world unit :=
  log (br tag ++ $" " ++ q election_id ++ $": cert " ++ br cert ++ $" not on the " ++
       print_int (el_eligible_count e) ++ $"-entry eligible list") ;!
  log_list tag 0 (take (Z.to_nat (el_eligible_count e)) (el_eligible e)).

(** *** UC-2 *)

Definition bb_join (election_id cert : cstr) : prog world (bb_election_t * bool * Z) :=
  let! election := load_election election_id in
  let! status := bb_verify_cert cert in
  match status with
  | BB_CERT_INVALID => throw BB_ERR_CERT_INVALID
  | BB_CERT_EXPIRED => throw BB_ERR_CERT_EXPIRED
  | BB_CERT_NOT_ELIGIBLE => throw BB_ERR_NOT_ELIGIBLE
  | BB_CERT_VALID =>
    if negb (bb_check_eligibility election cert) then
      log_not_eligible ($"join") election_id cert election ;! throw BB_ERR_NOT_ELIGIBLE
    else if negb (bool_decide (el_state election = BB_STATE_OPEN)) then
      log ($"[join] " ++ q election_id ++ $" is " ++ bb_state_str (el_state election) ++ $", not OPEN") ;!
      throw BB_ERR_NOT_OPEN
    else
      let! prior := db_exec (cmd_with_cert cert (new_cmd BB_DB_GET_PRIOR_BALLOT election_id)) true in
      ret (election, res_found prior, if res_found prior then bh_version (res_row prior) else 0%Z)
  end.

(** *** UC-3 and UC-4 *)

Definition record_ballot_locked (election_id : cstr) (b : bb_ballot_t) : prog world bb_receipt_t :=
  let! election := load_election election_id in
  match el_state election with
  | BB_STATE_CLOSED | BB_STATE_PUBLISHED => throw BB_ERR_CLOSED
  | BB_STATE_DRAFT => throw BB_ERR_NOT_OPEN
  | BB_STATE_OPEN =>
    if negb (bb_check_eligibility election (bl_cert_name b)) then
      log_not_eligible ($"cast") election_id (bl_cert_name b) election ;! throw BB_ERR_NOT_ELIGIBLE
    else
      log ($"[crypto] decrypt ballot (placeholder, nonce=" ++ bl_nonce b ++ $")") ;!
      let option_index := bb_decrypt_ballot b in
      if ((option_index <? 0)%Z || (el_option_count election <=? option_index)%Z) then
        throw BB_ERR_BAD_OPTION
      else
        let! seen := db_exec (cmd_with_nonce (bl_nonce b) (new_cmd BB_DB_NONCE_SEEN election_id)) true in
        if res_found seen then throw BB_ERR_REPLAY
        else
          let! prior := db_exec (cmd_with_cert (bl_cert_name b)
                                   (new_cmd BB_DB_GET_PRIOR_BALLOT election_id)) true in
          let version := if res_found prior then i32 (bh_version (res_row prior) + 1) else 1%Z in
          let receipt := bb_issue_receipt b version in
          log ($"[crypto] issue receipt v" ++ print_int version ++ $" -> " ++ rc_hash receipt ++
               $" (placeholder)") ;!
          let row := mkHashRow (trunc BB_HASH_LEN (rc_hash receipt)) option_index version 0 in
          db_exec (cmd_with_row row (new_cmd BB_DB_APPEND_BALLOT election_id)) false ;!
          (if res_found prior then
             db_exec (cmd_with_hash (bh_hash (res_row prior))
                        (new_cmd BB_DB_MARK_SUPERSEDED election_id)) false ;! ret tt
           else ret tt) ;!
          db_exec (cmd_with_version version (cmd_with_hash (rc_hash receipt)
                    (cmd_with_cert (bl_cert_name b) (new_cmd BB_DB_SET_OWNER election_id)))) false ;!
          db_exec (cmd_with_nonce (bl_nonce b) (new_cmd BB_DB_NONCE_MARK election_id)) false ;!
          ret receipt
  end.

Definition BB_TXN_ATTEMPTS : nat := 3.

(** The attempt loop; [r] is the value of [r] on entry. *)
Fixpoint record_loop (n : nat) (r : res bb_receipt_t) (election_id : cstr) (b : bb_ballot_t)
    : prog world bb_receipt_t :=
  fun w =>
    match n with
    | O => (r, w)
    | S n' =>
      match bb_db_begin w with
      | (Err e, w1) => (Err e, w1)
      | (Ok _, w1) =>
        match record_ballot_locked election_id b w1 with
        | (Err BB_ERR_RETRY, w2) =>
          record_loop n' (Err BB_ERR_RETRY) election_id b (bb_db_rollback w2)
        | (Err e, w2) => (Err e, bb_db_rollback w2)
        | (Ok receipt, w2) =>
          match bb_db_commit w2 with
          | (Err BB_ERR_RETRY, w3) => record_loop n' (Err BB_ERR_RETRY) election_id b w3
          | (Err e, w3) => (Err e, w3)
          | (Ok _, w3) => (Ok receipt, w3)
          end
        end
      end
    end.

Definition bb_write_lock (w : world) : world := with_lock true w.
Definition bb_write_unlock (w : world) : world := with_lock false w.

Definition bb_record_ballot (election_id : cstr) (b : bb_ballot_t) : prog world bb_receipt_t :=
  fun w =>
    let '(r, w1) := record_loop BB_TXN_ATTEMPTS (Err BB_ERR_DB) election_id b (bb_write_lock w) in
    (r, bb_write_unlock w1).

(** *** UC-5 *)

Definition bb_publish_results (election_id : cstr) : prog world unit :=
  bb_transition_state election_id BB_STATE_PUBLISHED.

(** Copy the first [n] slots of [src] over [dst]. *)
Definition copy_slots {A} (n : nat) (src dst : list A) : list A := take n src ++ drop n dst.

Definition fetch_results (election_id : cstr) (e : bb_election_t) : prog world bb_results_t :=
  let! tally := db_exec (new_cmd BB_DB_GET_TALLY election_id) true in
  let! hashes := db_exec (new_cmd BB_DB_GET_HASHES election_id) true in
  let n := Z.to_nat (Z.min (el_option_count e) (Z.of_nat BB_MAX_OPTIONS)) in
  let hash_count := Z.min (res_hash_count hashes) (Z.of_nat BB_MAX_VOTERS) in
  ret (mkResults (trunc BB_TITLE_LEN (el_title e))
         (copy_slots n (res_tally tally) zero_tally)
         (el_option_count e)
         (copy_slots n (map (trunc BB_OPTION_LEN) (el_options e)) no_options)
         (copy_slots (Z.to_nat hash_count) (res_hashes hashes) (replicate BB_MAX_VOTERS zero_row))
         hash_count).

Definition bb_get_results (election_id cert : cstr) : prog world bb_results_t :=
  let! election := load_election election_id in
  if negb (bool_decide (el_state election = BB_STATE_PUBLISHED)) then throw BB_ERR_NOT_PUBLISHED
  else if negb (bb_check_eligibility election cert) then throw BB_ERR_NOT_ELIGIBLE
  else fetch_results election_id election.

Definition bb_get_results_admin (election_id : cstr) : prog world bb_results_t :=
  let! election := load_election election_id in
  if negb (bool_decide (el_state election = BB_STATE_PUBLISHED)) then throw BB_ERR_NOT_PUBLISHED
  else fetch_results election_id election.

(** *** UC-6 *)

Definition bb_lookup_hash (election_id hash : cstr) : prog world (bb_ballot_hash_t * cstr) :=
  let! election := load_election election_id in
  let! res := db_exec (cmd_with_hash hash (new_cmd BB_DB_FIND_HASH election_id)) true in
  if negb (res_found res) then throw BB_ERR_NOT_FOUND
  else
    let idx := bh_option_index (res_row res) in
    ret (res_row res,
         if ((0 <=? idx)%Z && (idx <? el_option_count election)%Z) then
           trunc BB_OPTION_LEN (default [] (el_options election !! Z.to_nat idx))
         else []).

End Handlers.
End Brain.
