(* ===== verification/Fixture.v ===== *)
(** * A concrete runner and concrete elections

    The runner that takes string constants as they are, appends tuples at the
    end of a page and prints nothing around a table: it satisfies every law
    of [Runner].  The examples and witnesses of the library evaluate on it. *)
From S2P Require Import Prelude CText Types Rows Sql Wire Server BrainDb Brain.
Import Server BrainDb Brain.

Module Fixture.

Definition page_append {A} (x : A) (l : list A) : list A := l ++ [x].

Definition int_literal (z : Z) : option Z :=
  if ((0 <=? z)%Z && (z <=? INT_MAX)%Z) then Some z else None.

#[export] Instance runner : Runner.
Proof.
  refine {| zql_string := fun s => s; zql_number := int_literal; place := @page_append;
            preamble := fun _ => []; columns := fun _ => [$"c"]; postamble := fun _ => [] |}.
  - done.
  - intros z Hz. unfold int_literal. rewrite (proj2 (andb_true_iff _ _)); [done|lia].
  - intros A x l. unfold page_append. apply Permutation_sym, Permutation_cons_append.
  - intros; constructor.
  - intros; split; [done|]. repeat constructor; done.
  - intros; constructor.
  - intros. simpl. lia.
Defined.

Definition start : world := mkWorld empty_tables [] [] [] false None.

Definition pad_to {A} (n : nat) (x : A) (l : list A) : list A := l ++ replicate (n - length l) x.

(** A two-option election for [certs]. *)
Definition config (certs : list cstr) : bb_config_t :=
  mkConfig ($"Mascot") (pad_to BB_MAX_OPTIONS [] [$"cat"; $"dog"]) 2
           (pad_to BB_MAX_VOTERS [] certs) (Z.of_nat (length certs)) ($"2026-01-01") ($"2026-02-01").

Definition ballot (cert nonce : cstr) (option : ascii) : bb_ballot_t :=
  mkBallot cert nonce (pad_to BB_CIPHERTEXT_MAX Ascii.zero [option]) 1.

(** Run a program for its effect. *)
Definition after {A} (m : prog world A) (w : world) : world := snd (m w).

Definition opened (certs : list cstr) : world :=
  after (bb_transition_state ($"E-100") BB_STATE_OPEN) (after (bb_create_election (config certs) []) start).

End Fixture.
