(* ===== verification/Printed.v ===== *)
(** * Tables the runner prints

    What the runner writes around a table (text above it, the column names,
    a rule, the count, text below it) and when the client reads the rows back:
    shared by every component that sends statements. *)
From S2P Require Import Prelude CText Rows Wire Server.
Import Rows Wire Server.

Module Printed.

(** ** Plain text *)

Lemma plain_no_quote s : plain s -> no_char QUOTE s.
Proof.
  intros Hs. eapply Forall_impl; [exact Hs|]. intros c Hc ->. unfold plain_char, ceqb in Hc.
  rewrite bool_decide_eq_true_2, andb_false_r in Hc; done.
Qed.

Lemma plain_char_ne c d : plain_char c = true -> (code d < 32)%Z -> c <> d.
Proof. intros Hc Hd ->. unfold plain_char in Hc. apply andb_true_iff in Hc as [Hc _]. lia. Qed.

Lemma plain_no_char d s : (code d < 32)%Z -> plain s -> no_char d s.
Proof. intros Hd Hs. eapply Forall_impl; [exact Hs|]. intros c Hc. by eapply plain_char_ne. Qed.

Lemma plain_no_LF s : plain s -> no_char LF s.
Proof. apply plain_no_char. done. Qed.
Lemma plain_no_TAB s : plain s -> no_char TAB s.
Proof. apply plain_no_char. done. Qed.
Lemma plain_no_CR s : plain s -> no_char CR s.
Proof. apply plain_no_char. done. Qed.

Lemma plain_take n s : plain s -> plain (take n s).
Proof. apply Forall_take. Qed.

Lemma int_char_plain c : int_char c = true -> plain_char c = true.
Proof.
  unfold int_char, is_digit, plain_char, ceqb. intros Hc. apply orb_true_iff in Hc as [Hc|Hc].
  - apply andb_true_iff in Hc. rewrite bool_decide_eq_false_2; [lia|]. intros ->. destruct Hc as [Hc _].
    vm_compute in Hc. done.
  - apply bool_decide_eq_true_1 in Hc as ->. done.
Qed.

Lemma plain_print_int z : plain (print_int z).
Proof. eapply Forall_impl; [apply print_int_chars|]. apply int_char_plain. Qed.

Definition no_break (s : cstr) : Prop := has_line_break s = false.

Lemma no_break_app s t : no_break s -> no_break t -> no_break (s ++ t).
Proof. unfold no_break, has_line_break. rewrite existsb_app. by intros -> ->. Qed.

Lemma no_break_plain s : plain s -> no_break s.
Proof.
  intros Hs. unfold no_break, has_line_break. induction Hs as [|c s Hc _ IH]; [done|].
  cbn [existsb]. rewrite IH, orb_false_r. unfold ceqb.
  rewrite !bool_decide_eq_false_2; [done|..]; by eapply plain_char_ne.
Qed.

Lemma no_break_take n s : no_break s -> no_break (take n s).
Proof.
  unfold no_break, has_line_break. revert n; induction s as [|c s IH]; intros [|n]; try done.
  cbn [take existsb]. intros [-> H]%orb_false_iff. by rewrite IH.
Qed.

(** ** Rows and lines *)

Definition MAX_ROW : nat := 200.

(** A printed row the client reads back as it was. *)
Definition row_ok (r : list cstr) : Prop :=
  Forall plain r /\ r <> [] /\ join_tab r <> [] /\ is_mark (join_tab r) = false /\
  (length (join_tab r) <= MAX_ROW)%nat.

Lemma is_mark_head c l : c <> "<"%char -> is_mark (c :: l) = false.
Proof.
  intros Hc. unfold is_mark, clip, DB_MARK_END. cbn. unfold ceqb.
  rewrite bool_decide_eq_false_2; [done|]. by intros <-.
Qed.

Lemma is_mark_nil : is_mark [] = false.
Proof. done. Qed.

Lemma replicate_rule n c : c = "-"%char -> (0 < n)%nat ->
  no_char LF (replicate n c) /\ is_rule_line (replicate n c) = true /\ is_mark (replicate n c) = false.
Proof.
  intros -> Hn. split; [|split].
  - by apply Forall_replicate.
  - destruct n; [lia|]. unfold is_rule_line. cbn [replicate forallb]. induction n; [done|].
    cbn [replicate forallb]. rewrite IHn by lia. done.
  - destruct n; [lia|]. cbn [replicate]. by apply is_mark_head.
Qed.

Lemma take_reply_lines acc ls m : Forall (fun l => is_mark l = false) ls -> is_mark m = true ->
  take_reply acc (ls ++ [m]) = (classify (clip m), acc ++ ls, []).
Proof.
  intros Hls Hm. revert acc; induction Hls as [|l ls Hl _ IH]; intros acc; cbn [app take_reply].
  - by rewrite Hm, app_nil_r.
  - by rewrite Hl, IH, <-app_assoc.
Qed.

Lemma join_lines_size ls : (length (join_lines ls) <= sum_list (map (fun l => S (length l)) ls))%nat.
Proof.
  induction ls as [|l ls IH]; [done|]. destruct ls as [|l2 ls]; [simpl; lia|].
  rewrite join_lines_length_cons.
  change (S (length l + length (join_lines (l2 :: ls))) <=
    S (length l) + sum_list (map (fun l => S (length l)) (l2 :: ls)))%nat. lia.
Qed.

Lemma join_lines_sum ls : ls <> [] ->
  sum_list (map (fun l => S (length l)) ls) = S (length (join_lines ls)).
Proof.
  induction ls as [|l ls IH]; [done|]. intros _. destruct ls as [|l2 ls]; [simpl; lia|].
  rewrite join_lines_length_cons. change (S (length l) + sum_list (map (fun l => S (length l)) (l2 :: ls)) =
    S (S (length l + length (join_lines (l2 :: ls)))))%nat. rewrite IH by done. lia.
Qed.

Lemma lines_sum_le ls : (sum_list (map (fun l => S (length l)) ls) <= S (length (join_lines ls)))%nat.
Proof. destruct ls; [simpl; lia|]. by rewrite join_lines_sum. Qed.

Lemma rows_sum (rows : list (list cstr)) : Forall row_ok rows ->
  (sum_list (map (fun l => S (length l)) (map join_tab rows)) <= 201 * length rows)%nat.
Proof.
  induction 1 as [|r rows (_ & _ & _ & _ & Hl) _ IH]; [simpl; lia|].
  cbn [map sum_list_with id length]. unfold MAX_ROW in Hl. lia.
Qed.

Lemma join_lines_elem l ls : l ∈ ls -> (length l <= length (join_lines ls))%nat.
Proof.
  induction ls as [|x ls IH]; [by intros ?%not_elem_of_nil|]. intros Hin.
  destruct ls as [|y ls]; [apply list_elem_of_singleton in Hin as ->; done|].
  rewrite join_lines_length_cons. apply elem_of_cons in Hin as [->|Hin]; [lia|].
  specialize (IH Hin). lia.
Qed.

Lemma join_tab_length r : (length (join_tab r) <= sum_list (map (fun f => S (length f)) r))%nat.
Proof.
  induction r as [|f fs IH]; [done|]. destruct fs as [|g fs]; [simpl; lia|].
  change (join_tab (f :: g :: fs)) with (f ++ TAB :: join_tab (g :: fs)). rewrite length_app.
  change (length f + S (length (join_tab (g :: fs))) <=
    S (length f) + sum_list (map (fun f => S (length f)) (g :: fs)))%nat. lia.
Qed.

Lemma row_ok_intro c f fs : Forall plain ((c :: f) :: fs) -> c <> "<"%char ->
  (sum_list (map (fun f => S (length f)) ((c :: f) :: fs)) <= MAX_ROW)%nat -> row_ok ((c :: f) :: fs).
Proof.
  intros Hp Hc Hl.
  assert (exists l, join_tab ((c :: f) :: fs) = c :: l) as [l E] by (destruct fs; eexists; reflexivity).
  repeat split; [done|done|by rewrite E|rewrite E; by apply is_mark_head|].
  etrans; [apply join_tab_length|done].
Qed.

Lemma print_int_cons z : exists c l, print_int z = c :: l /\ c <> "<"%char.
Proof.
  pose proof (print_int_chars z) as HF. destruct (print_int z) as [|c l] eqn:E;
    [by destruct (print_int_nonempty z)|]. exists c, l. split; [done|]. inversion HF; subst. by intros ->.
Qed.

(** ** The text around a table *)

Section Table.
Context (pre cols post : list cstr).

(** The same demands as the laws of [Runner]. *)
Record printing_ok : Prop := {
  pr_pre : Forall (fun l => no_char LF l /\ is_rule_line l = false /\ is_mark l = false /\ l <> []) pre;
  pr_cols : cols <> [] /\ Forall (fun n => no_char LF n /\ n <> [] /\ head n <> Some "<"%char) cols;
  pr_post : Forall (fun l => is_mark l = false) post;
  pr_budget : (length (join_lines pre) + 3 * length (concat cols) + 10 * length cols + length (join_lines post) <= 900)%nat }.

Definition table_header : cstr := concat (map (fun n => n ++ [TAB]) cols).
Definition table_rule : cstr := replicate (length table_header + length cols * 4) "-"%char.
Definition table_lines (rows : list (list cstr)) : list cstr := reply_lines pre table_header table_rule rows post.
Definition table_body (rows : list (list cstr)) : cstr := reply_body pre table_header table_rule rows post.

Context (Hp : printing_ok).

Lemma header_no_LF : no_char LF table_header.
Proof.
  destruct (pr_cols Hp) as [_ HF]. unfold table_header. apply Forall_concat, Forall_map.
  eapply Forall_impl; [exact HF|]. intros n (Hn & _). apply Forall_app. split; [done|]. by repeat constructor.
Qed.

Lemma header_cons : exists c l, table_header = c :: l /\ c <> "<"%char /\ TAB ∈ table_header.
Proof.
  destruct (pr_cols Hp) as [Hne HF]. unfold table_header. destruct cols as [|n ns]; [done|].
  inversion HF as [|? ? (_ & Hn & Hh) _]; subst. destruct n as [|c n]; [done|]. exists c. eexists.
  split; [reflexivity|]. split; [by intros ->|]. cbn [map concat]. set_solver.
Qed.

Lemma header_not_rule : is_rule_line table_header = false.
Proof.
  destruct header_cons as (c & l & E & _ & Hin). unfold is_rule_line. rewrite E in *.
  apply not_true_iff_false. intros Hall. rewrite forallb_forall in Hall.
  specialize (Hall _ (proj1 (list_elem_of_In _ _) Hin)). done.
Qed.

Lemma rule_ok : no_char LF table_rule /\ is_rule_line table_rule = true /\ is_mark table_rule = false.
Proof.
  apply replicate_rule; [done|]. destruct header_cons as (c & l & -> & _). simpl. lia.
Qed.

Lemma table_readable rows : Forall row_ok rows -> (Z.of_nat (length rows) <= INT_MAX)%Z -> reply_ok pre table_header table_rule rows.
Proof.
  intros Hrows Hn. split.
  - eapply Forall_impl; [apply (pr_pre Hp)|]. intros l Hl. simpl in Hl. tauto.
  - assert (HF : Forall (fun l => is_rule_line l = false) (pre ++ [table_header])).
    { apply Forall_app; split; [|repeat constructor; apply header_not_rule].
      eapply Forall_impl; [apply (pr_pre Hp)|]. intros l Hl. simpl in Hl. tauto. }
    destruct (pre ++ [table_header]); [done|]. by inversion HF.
  - apply header_no_LF.
  - split; apply rule_ok.
  - eapply Forall_impl; [exact Hrows|]. intros r (Hr & Hne & _). repeat split; [done|..];
      (eapply Forall_impl; [exact Hr|]); [apply plain_no_LF|apply plain_no_TAB].
  - eapply Forall_impl; [exact Hrows|]. intros r (_ & _ & ? & _). done.
  - done.
Qed.

(** No line of a table is taken for a marker. *)
Lemma table_no_mark rows : Forall row_ok rows -> Forall (fun l => is_mark l = false) (table_lines rows).
Proof.
  intros Hrows. unfold table_lines, reply_lines. rewrite Forall_app, !Forall_cons, Forall_app, !Forall_cons.
  repeat split.
  - eapply Forall_impl; [apply (pr_pre Hp)|]. intros l Hl. simpl in Hl. tauto.
  - destruct header_cons as (c & l & -> & Hc & _). by apply is_mark_head.
  - apply rule_ok.
  - apply Forall_map. eapply Forall_impl; [exact Hrows|]. intros r (_ & _ & _ & ? & _). done.
  - apply (pr_post Hp).
Qed.

Lemma header_length : length table_header = (length (concat cols) + length cols)%nat.
Proof.
  unfold table_header. induction cols as [|n ns IH]; [done|]. cbn [map concat length].
  rewrite !length_app, IH. simpl. lia.
Qed.

(** The whole reply is within [901 + 201 n] bytes and some. *)
Lemma table_size rows : Forall row_ok rows -> (length (table_body rows) <= 940 + 201 * length rows)%nat.
Proof.
  intros Hrows. unfold table_body, reply_body. etrans; [apply join_lines_size|].
  unfold reply_lines. rewrite map_app, sum_list_with_app. cbn [map sum_list_with id].
  rewrite map_app, sum_list_with_app. cbn [map sum_list_with id].
  pose proof (rows_sum _ Hrows) as Hr. pose proof (pr_budget Hp) as Hb.
  pose proof (lines_sum_le pre) as H1. pose proof (lines_sum_le post) as H2.
  unfold table_rule. rewrite length_replicate, header_length, !length_app.
  pose proof (print_uint_length (Z.of_nat (length rows))).
  simpl length at 1. simpl length at 4. simpl (length []).
  set (a := sum_list (map _ (map join_tab _))) in *.
  change (length ($" ")) with 1%nat. change (length ($" rows.")) with 6%nat. lia.
Qed.

Lemma table_short rows : Forall row_ok rows -> Forall (fun l => length l < DB_BODY_MAX)%nat (table_lines rows).
Proof.
  intros Hrows. pose proof (pr_budget Hp) as Hb. unfold DB_BODY_MAX.
  unfold table_lines, reply_lines. rewrite Forall_app, !Forall_cons, Forall_app, !Forall_cons.
  pose proof header_length as Hh. repeat split.
  - apply Forall_forall. intros l Hl%join_lines_elem. lia.
  - lia.
  - unfold table_rule. rewrite length_replicate. lia.
  - apply Forall_map. eapply Forall_impl; [exact Hrows|]. intros r (_ & _ & _ & _ & Hl).
    unfold MAX_ROW in Hl. simpl. lia.
  - simpl. lia.
  - rewrite !length_app. pose proof (print_uint_length (Z.of_nat (length rows))).
    change (length ($" ")) with 1%nat. change (length ($" rows.")) with 6%nat. lia.
  - apply Forall_forall. intros l Hl%join_lines_elem. lia.
Qed.

Lemma table_wire rows cap : Forall row_ok rows -> (940 + 201 * length rows < cap)%nat ->
  wire_body (Some cap) (table_lines rows) = table_body rows.
Proof.
  intros Hok Hcap. pose proof (table_size rows Hok) as Hsz. pose proof (table_short rows Hok) as Hsh.
  unfold table_body, reply_body in *. fold (table_lines rows) in *.
  assert (exists l ls, table_lines rows = l :: ls /\ l <> []) as (l & ls & E & Hl).
  { unfold table_lines, reply_lines. pose proof (pr_pre Hp) as Hpre. destruct pre as [|p ps].
    - destruct header_cons as (c & l & -> & _). by do 2 eexists.
    - inversion Hpre; subst. do 2 eexists. split; [reflexivity|]. tauto. }
  rewrite E in *. apply wire_body_join; [done..|lia].
Qed.

End Table.

End Printed.
