(* ===== verification/DbLogic.v ===== *)
(** * Reasoning about programs on a connection

    [sim t m r t']: inside a transaction that sees tables [t], the program [m]
    returns [r] and leaves the transaction at [t'], or a fault of the schedule
    made it stop with [BB_ERR_RETRY] or [BB_ERR_DB]; the committed tables are
    untouched either way.  [rsim t m r] is the same for a program that only
    reads, inside a transaction or outside of one. *)
From S2P Require Import Prelude CText Types Rows Sql Wire Server BrainDb Printed.
Import Rows Sql Wire Server BrainDb Printed.

Section Logic.
Context `{R : Runner}.

(** ** Values survive the trip into a column *)

Lemma sval_plain s : plain s -> (length s <= 64)%nat -> sval s = s.
Proof.
  intros Hs Hl. unfold sval, lit_text. rewrite quote_loop_plain.
  - rewrite zql_string_plain by done. apply take_ge. unfold STRING_LEN. lia.
  - by apply plain_no_quote.
  - unfold QUOTE_MAX. lia.
Qed.

Lemma nval_int z : (0 <= z <= INT_MAX)%Z -> nval z = Some z.
Proof. apply zql_number_int. Qed.

Lemma strtol_print_int_end z : (LONG_MIN <= z <= LONG_MAX)%Z -> strtol (print_int z) = (z, []).
Proof. intros Hz. pose proof (strtol_print_int z [] Hz I) as E. by rewrite app_nil_r in E. Qed.

Lemma text_nval_print z : (0 <= z <= INT_MAX)%Z -> text_nval (print_int z) = Some z.
Proof.
  intros Hz. unfold text_nval. destruct (print_int z) eqn:E; [by destruct (print_int_nonempty z)|].
  rewrite <-E, strtol_print_int_end; [by apply zql_number_int|].
  unfold INT_MAX, LONG_MIN, LONG_MAX in *. lia.
Qed.

(** ** Statements never contain a line break *)

Definition args_plain (s : stmt) : Prop :=
  Forall plain (lit_args s) /\ Forall plain (numtext_args s).

Lemma plain_quote_loop cap w s : plain s -> Forall (fun c => plain_char c = true \/ c = QUOTE) (quote_loop cap w s).
Proof.
  intros Hs. revert w; induction Hs as [|c s Hc _ IH]; intros w; [constructor|]. cbn [quote_loop].
  case_match; [|constructor]. apply Forall_app. split; [|apply IH]. case_match; auto.
Qed.

Lemma no_break_quote s : plain s -> no_break (db_quote QUOTE_MAX s).
Proof.
  intros Hs. unfold db_quote. case_match; [done|]. apply (no_break_app [_]); [done|].
  apply no_break_app; [|done]. pose proof (plain_quote_loop QUOTE_MAX 1 s Hs) as HF.
  unfold no_break, has_line_break. induction HF as [|c l Hc _ IH]; [done|]; destruct Hc as [Hc| ->]; cbn [existsb];
    rewrite IH, orb_false_r; [|done].
  unfold ceqb. rewrite !bool_decide_eq_false_2; [done|..]; by eapply plain_char_ne.
Qed.

Lemma sql_text_no_break s : args_plain s -> has_line_break (sql_text s) = false.
Proof.
  intros [Hl Hn]. apply no_break_take. unfold render_all, lit_args, numtext_args in *.
  assert (Hraw : Forall (fun p => match p with Raw t => no_break t | _ => True end) (sql_pieces s))
    by (destruct s; repeat constructor).
  induction Hraw as [|p ps Hp _ IH]; [done|]. cbn [map concat]. destruct p; cbn in Hl, Hn;
    rewrite ?Forall_cons in Hl; rewrite ?Forall_cons in Hn; (apply no_break_app; [|apply IH; tauto]).
  - done.
  - apply no_break_plain, plain_print_int.
  - apply no_break_quote; tauto.
  - by destruct s0.
  - apply no_break_plain; tauto.
Qed.

(** ** Replies *)

Definition sel_ok (s : stmt) (t : tables) : Prop :=
  Forall row_ok (run_select s t) /\ (length (run_select s t) <= BB_MAX_VOTERS)%nat.

Definition select_body (s : stmt) (t : tables) : cstr :=
  reply_body (preamble s) (header_line s) (rule_line s) (run_select s t) (postamble s).

Lemma printing_of s : printing_ok (preamble s) (columns s) (postamble s).
Proof. split; [apply preamble_lines|apply columns_names|apply postamble_lines|apply reply_budget]. Qed.

Lemma reply_readable s t : sel_ok s t ->
  reply_ok (preamble s) (header_line s) (rule_line s) (run_select s t).
Proof. intros [Hrows Hn]. apply (table_readable _ _ _ (printing_of s)); [done|]. unfold BB_MAX_VOTERS, INT_MAX in *. lia. Qed.

(** No line of a reply is taken for a marker. *)
Lemma reply_no_mark s t : sel_ok s t -> Forall (fun l => is_mark l = false) (reply s t).
Proof. intros [Hrows _]. by apply (table_no_mark _ _ _ (printing_of s)). Qed.

Lemma reply_wire s t cap : sel_ok s t -> (940 + 201 * length (run_select s t) < cap)%nat ->
  wire_body (Some cap) (reply s t) = select_body s t.
Proof. intros [Hrows _]. by apply (table_wire _ _ _ (printing_of s)). Qed.

(** ** Judgments *)

Definition clean (txn : option tables) : conn := mkConn txn None [].

(** [w'] differs from [w] at most in the consumed schedule and the log. *)
Record frame (w w' : world) : Prop := mkFrame {
  fr_tables : w_tables w' = w_tables w;
  fr_lock : w_lock w' = w_lock w;
  fr_conn : w_conn w' = w_conn w;
  fr_opens : w_opens w' = w_opens w;
  fr_faults : w_faults w = [] -> w_faults w' = [] }.

#[global] Instance frame_preorder : PreOrder frame.
Proof.
  split; [by intros w; split|]. intros x y z [] []; split; [congruence..|auto].
Qed.

(** The schedule, not the program, stopped it. *)
Definition faulty {A} (w : world) (r : res A) : Prop :=
  w_faults w <> [] /\ (r = Err BB_ERR_RETRY \/ r = Err BB_ERR_DB).

(** On tables [t] the program returns [r] and changes nothing. *)
Definition rsim {A} (t : tables) (m : prog (conn * world) A) (r : res A) : Prop :=
  forall txn w, default (w_tables w) txn = t ->
  match m (clean txn, w) with
  | (r', (c', w')) => frame w w' /\ ((r' = r /\ c' = clean txn) \/ faulty w r')
  end.

(** In a transaction that sees [t] the program returns [r] and leaves [t']. *)
Definition sim {A} (t : tables) (m : prog (conn * world) A) (r : res A) (t' : tables) : Prop :=
  forall w,
  match m (clean (Some t), w) with
  | (r', (c', w')) => frame w w' /\ ((r' = r /\ c' = clean (Some t')) \/ faulty w r')
  end.

(** ** Single statements *)

Definition is_control (s : stmt) : bool :=
  match s with SetTransaction | Commit | Rollback => true | _ => false end.

Lemma session_exec_data db txn s : is_control s = false ->
  session_exec db txn s =
  let t := default db txn in
  match run_stmt s t with
  | None => (false, db, None, [])
  | Some t' => match txn with
               | Some _ => (true, db, Some t', reply s t)
               | None => (true, t', None, reply s t)
               end
  end.
Proof. by destruct s. Qed.

(** What [exec_stmt] can do with a statement that succeeds on [t]. *)
Lemma exec_stmt_data s cap txn w t' :
  let t := default (w_tables w) txn in
  is_control s = false -> args_plain s -> sel_ok s t -> run_stmt s t = Some t' ->
  (txn = None -> t' = t) ->
  match exec_stmt s cap (clean txn, w) with
  | (r, (c', w')) => frame w w' /\
      ((r = Ok (wire_body cap (reply s t)) /\ c' = clean (if txn then Some t' else None)) \/ faulty w r)
  end.
Proof.
  intros t Hc Ha Hok Hrun Hro. unfold exec_stmt, db_socket_exec. cbn [clean c_failed].
  rewrite sql_text_no_break by done.
  assert (Hfr : frame w (with_faults (tail (w_faults w)) w)) by (split; try done; simpl; by intros ->).
  assert (Hmk : forall lines m, m = DB_MARK_OK \/ m = DB_MARK_RETRY \/ m = DB_MARK_ERROR ->
    Forall (fun l => is_mark l = false) lines ->
    take_reply [] (c_unread (clean txn) ++ lines ++ [m]) = (classify m, lines, [])).
  { intros lines m Hm Hl. simpl. rewrite take_reply_lines; [|done|by destruct Hm as [->|[->| ->]]].
    by destruct Hm as [->|[->| ->]]. }
  assert (Hdb : forall x, (if txn then w_tables w else t') = x ->
    frame w (with_tables x (with_faults (tail (w_faults w)) w))).
  { intros x <-. destruct Hfr. split; try done. simpl. destruct txn; [done|]. by rewrite Hro. }
  assert (Hse : session_exec (w_tables w) txn s =
     (true, if txn then w_tables w else t', if txn then Some t' else None, reply s t)).
  { rewrite session_exec_data by done. cbv zeta. fold t. rewrite Hrun. by destruct txn. }
  assert (Hw : with_tables (w_tables w) (with_faults (tail (w_faults w)) w) = with_faults (tail (w_faults w)) w)
    by done.
  destruct (w_faults w) as [|[| | |late []] fs] eqn:Ef; cbn [with_faults w_tables c_txn clean tail];
    rewrite ?Hse, ?Hmk by (try apply reply_no_mark; auto); (split; [eauto|]).
  - left. done.
  - left. done.
  - right. split; [by rewrite Ef|]. by left.
  - right. split; [by rewrite Ef|]. by right.
  - right. split; [by rewrite Ef|]. destruct late; by right.
  - right. split; [by rewrite Ef|]. destruct late; by right.
Qed.

Lemma rsim_query s : forall t, is_control s = false -> args_plain s -> sel_ok s t -> run_stmt s t = Some t ->
  rsim t (query s) (Ok (select_body s t)).
Proof.
  intros t Hc Ha Hok Hrun txn w Et. pose proof (exec_stmt_data s (Some BODY_MAX) txn w t) as H.
  cbv zeta in H. rewrite Et in H. specialize (H Hc Ha Hok Hrun (fun _ => eq_refl)). unfold query.
  rewrite reply_wire in H; [|done|].
  - destruct (exec_stmt _ _ _) as [r [c' w']]. destruct H as [Hf H]. split; [done|].
    destruct H as [[-> ->]|H]; [left|by right]. split; [done|]. destruct txn; [|done].
    simpl in Et. by subst.
  - destruct Hok as [_ Hn]. unfold BB_MAX_VOTERS, BODY_MAX in *. lia.
Qed.

Lemma sim_run s t t' : is_control s = false -> args_plain s -> run_select s t = [] -> run_stmt s t = Some t' ->
  sim t (run s) (Ok tt) t'.
Proof.
  intros Hc Ha Hsel Hrun w.
  assert (Hok : sel_ok s t) by (split; rewrite Hsel; [done|simpl; lia]).
  pose proof (exec_stmt_data s None (Some t) w t' Hc Ha Hok Hrun ltac:(done)) as H.
  unfold run, bind. destruct (exec_stmt _ _ _) as [r [c' w']]. destruct H as [Hf H].
  destruct r as [a|e]; (split; [done|]); destruct H as [[E ->]|[H1 H2]]; try (left; done); right;
    (split; [done|]); destruct H2 as [H2|H2]; simplify_eq; auto.
Qed.

(** ** Composition *)

Lemma faulty_bind {A B} w (e : bb_result_t) : @faulty A w (Err e) -> @faulty B w (Err e).
Proof. intros [H1 H2]. split; [done|]. destruct H2 as [H2|H2]; simplify_eq; auto. Qed.

Lemma frame_faulty {A} w w' (r : res A) : frame w w' -> faulty w' r -> faulty w r.
Proof. intros [] [H1 H2]. split; [|done]. naive_solver. Qed.

Lemma faulty_not_ok {A} w (a : A) : ~ faulty w (Ok a).
Proof. intros [_ [H|H]]; done. Qed.

Lemma rsim_ret {A} t (a : A) : rsim t (ret a) (Ok a).
Proof. intros txn w _. split; [reflexivity|]. by left. Qed.

Lemma rsim_throw {A} t e : rsim t (@throw _ A e) (Err e).
Proof. intros txn w _. split; [reflexivity|]. by left. Qed.

Lemma rsim_bind {A B} t (m : prog _ A) (k : A -> prog _ B) a r :
  rsim t m (Ok a) -> rsim t (k a) r -> rsim t (bind m k) r.
Proof.
  intros Hm Hk txn w Et. specialize (Hm txn w Et). unfold bind.
  destruct (m (clean txn, w)) as [[a'|e] [c' w']]; destruct Hm as [Hf Hm].
  - destruct Hm as [[[= ->] ->]|Hm]; [|by apply faulty_not_ok in Hm].
    specialize (Hk txn w'). destruct (k a (clean txn, w')) as [r2 [c2 w2]].
    destruct Hk as [Hf2 Hk]; [by rewrite (fr_tables _ _ Hf)|]. split; [by etrans|].
    destruct Hk as [Hk|Hk]; [by left|right; by eapply frame_faulty].
  - destruct Hm as [[[= ] _]|Hm]. split; [done|]. right. by eapply faulty_bind.
Qed.

Lemma rsim_bind_err {A B} t (m : prog _ A) (k : A -> prog _ B) e :
  rsim t m (Err e) -> rsim t (bind m k) (Err e).
Proof.
  intros Hm txn w Et. specialize (Hm txn w Et). unfold bind.
  destruct (m (clean txn, w)) as [[a'|e'] [c' w']]; destruct Hm as [Hf Hm].
  - destruct Hm as [[[= ] ?]|Hm]; by apply faulty_not_ok in Hm.
  - split; [done|]. destruct Hm as [[[= ->] ->]|Hm]; [by left|right; by eapply faulty_bind].
Qed.

Lemma rsim_sim {A} t (m : prog _ A) r : rsim t m r -> sim t m r t.
Proof. intros Hm w. apply (Hm (Some t) w). done. Qed.

Lemma sim_ret {A} t (a : A) : sim t (ret a) (Ok a) t.
Proof. apply rsim_sim, rsim_ret. Qed.

Lemma sim_throw {A} t e : sim t (@throw _ A e) (Err e) t.
Proof. apply rsim_sim, rsim_throw. Qed.

Lemma sim_bind {A B} t t1 t2 (m : prog _ A) (k : A -> prog _ B) a r :
  sim t m (Ok a) t1 -> sim t1 (k a) r t2 -> sim t (bind m k) r t2.
Proof.
  intros Hm Hk w. specialize (Hm w). unfold bind.
  destruct (m (clean (Some t), w)) as [[a'|e] [c' w']]; destruct Hm as [Hf Hm].
  - destruct Hm as [[[= ->] ->]|Hm]; [|by apply faulty_not_ok in Hm].
    specialize (Hk w'). destruct (k a (clean (Some t1), w')) as [r2 [c2 w2]].
    destruct Hk as [Hf2 Hk]. split; [by etrans|].
    destruct Hk as [Hk|Hk]; [by left|right; by eapply frame_faulty].
  - destruct Hm as [[[= ] _]|Hm]. split; [done|]. right. by eapply faulty_bind.
Qed.

(** ** Reading a reply back *)

Lemma select_count s t : sel_ok s t -> db_row_count (select_body s t) = Z.of_nat (length (run_select s t)).
Proof. intros Hok. by apply db_row_count_reply, reply_readable. Qed.

Lemma select_total s t : sel_ok s t -> row_total (select_body s t) = length (run_select s t).
Proof. intros Hok. unfold row_total. by rewrite select_count, Nat2Z.id. Qed.

Lemma select_fields s t i n r : sel_ok s t -> run_select s t !! i = Some r -> length r = n ->
  fields (select_body s t) (Z.of_nat i) n = Some r.
Proof.
  intros Hok Hi Hn. unfold fields, select_body.
  rewrite (db_row_fields_reply _ _ _ _ _ (reply_readable _ _ Hok) i r n Hi).
  rewrite Hn, (proj2 (Nat.ltb_ge _ _)), take_ge; [done|lia|lia].
Qed.

Lemma field_copy_fit s n : (length s < n)%nat -> field_copy s n = s.
Proof. intros. unfold field_copy. apply take_ge. lia. Qed.

Lemma field_copy_int z n : (21 < n)%nat -> field_copy (print_int z) n = print_int z.
Proof. intros. apply field_copy_fit. pose proof (print_int_length z). lia. Qed.

Lemma field_int_print z : (- 2 ^ 31 <= z <= INT_MAX)%Z -> field_int (print_int z) = z.
Proof. intros. unfold field_int. rewrite field_copy_int by lia. by apply atoi_print_int. Qed.

(** A loop over the rows is a fold over the tuples. *)
Lemma for_rows_foldl {A B} (rows : list B) (f : A -> nat -> A) (g : A -> B -> A) a :
  (forall a i r, rows !! i = Some r -> f a i = g a r) ->
  for_rows (length rows) f a = foldl g a rows.
Proof.
  intros Hfg. unfold for_rows.
  assert (H : forall k a, (forall a i r, rows !! i = Some r -> f a (k + i)%nat = g a r) ->
    foldl f a (seq k (length rows)) = foldl g a rows).
  { clear. induction rows as [|r rows IH]; intros k a H; [done|]. cbn [length seq foldl].
    rewrite (IH (S k)).
    - f_equal. rewrite <-(H a 0%nat r eq_refl). by rewrite Nat.add_0_r.
    - intros a' i r' Hi. rewrite <-(H a' (S i) r' Hi). f_equal. lia. }
  apply (H 0%nat). apply Hfg.
Qed.

End Logic.
