(* ===== verification/Store.v ===== *)
(** * The stored elections: invariant and meaning of each database command

    [wf] is the well-formedness of the six tables; [rsim]/[sim] lemmas give
    the exact meaning of every command of db.c on well-formed tables. *)
From S2P Require Import Prelude CText Types Rows Sql Wire Server BrainDb Printed DbLogic.
Import Rows Sql Wire Server BrainDb Printed.

Module Store.

(** ** Well-formed values *)

Definition text_ok (max : nat) (s : cstr) : Prop := plain s /\ (length s <= max)%nat.

(** Text that may stand alone on a reply line. *)
Definition cell_ok (max : nat) (s : cstr) : Prop := text_ok max s /\ s <> [] /\ is_mark s = false.

Definition hex_char (c : ascii) : bool := existsb (ceqb c) ($"0123456789abcdef").
Definition hash_ok (h : cstr) : Prop := length h = 64%nat /\ Forall (fun c => hex_char c = true) h.

Definition int_ok (z : Z) : Prop := (0 <= z <= INT_MAX)%Z.

Definition id_ok := text_ok 15.
Definition title_ok := text_ok 63.
Definition time_ok := text_ok 31.
Definition name_ok := text_ok 31.
Definition cert_ok := cell_ok 31.
Definition nonce_ok := cell_ok 32.

Definition er_ok (r : election_row) : Prop :=
  int_ok (er_seq r) /\ id_ok (er_id r) /\ title_ok (er_title r) /\
  (exists s, er_state r = bb_state_str s) /\ time_ok (er_open r) /\ time_ok (er_close r).
Definition or_ok (r : option_row) : Prop :=
  id_ok (or_eid r) /\ (0 <= or_idx r < Z.of_nat BB_MAX_OPTIONS)%Z /\ name_ok (or_name r).
Definition gr_ok (r : elig_row) : Prop := id_ok (gr_eid r) /\ cert_ok (gr_cert r).
Definition br_ok (r : ballot_row) : Prop :=
  id_ok (br_eid r) /\ hash_ok (br_hash r) /\ (0 <= br_opt r < Z.of_nat BB_MAX_OPTIONS)%Z /\
  int_ok (br_ver r) /\ (br_sup r = 0%Z \/ br_sup r = 1%Z).
Definition wr_ok (r : owner_row) : Prop :=
  id_ok (wr_eid r) /\ cert_ok (wr_cert r) /\ hash_ok (wr_hash r) /\ int_ok (wr_ver r).
Definition nr_ok (r : nonce_row) : Prop := id_ok (nr_eid r) /\ nonce_ok (nr_nonce r).

(** ** Views of one election *)

Definition find_election (t : tables) (e : cstr) : option election_row :=
  head (filter (fun r => er_id r = e) (t_election t)).
Definition options_of (t : tables) (e : cstr) : list option_row := filter (fun r => or_eid r = e) (t_option t).
Definition certs_of (t : tables) (e : cstr) : list cstr :=
  map gr_cert (filter (fun r => gr_eid r = e) (t_eligible t)).
Definition live_of (t : tables) (e : cstr) : list ballot_row :=
  filter (fun r => br_eid r = e /\ br_sup r = 0%Z) (t_ballot t).
Definition owner_of (t : tables) (e cert : cstr) : option owner_row :=
  head (filter (fun r => wr_eid r = e /\ wr_cert r = cert) (t_owner t)).

Definition live_key (r : ballot_row) : cstr * cstr * Z := (br_eid r, br_hash r, br_ver r).
Definition owner_key (r : owner_row) : cstr * cstr * Z := (wr_eid r, wr_hash r, wr_ver r).

Definition ids (t : tables) : list cstr := map er_id (t_election t).

(** ** The invariant *)

Record wf (t : tables) : Prop := mkWf {
  wf_election : Forall er_ok (t_election t);
  wf_option : Forall or_ok (t_option t);
  wf_eligible : Forall gr_ok (t_eligible t);
  wf_ballot : Forall br_ok (t_ballot t);
  wf_owner : Forall wr_ok (t_owner t);
  wf_nonce : Forall nr_ok (t_nonce t);
  (** ids, owners, ballot hashes and nonces are keys *)
  wf_ids : NoDup (ids t);
  wf_owners : NoDup (map (fun r => (wr_eid r, wr_cert r)) (t_owner t));
  wf_hashes : NoDup (map (fun r => (br_eid r, br_hash r)) (t_ballot t));
  wf_nonces : NoDup (map (fun r => (nr_eid r, nr_nonce r)) (t_nonce t));
  (** the live ballots are exactly the ones the owner table points at *)
  wf_live : map live_key (filter (fun r => br_sup r = 0%Z) (t_ballot t)) ≡ₚ map owner_key (t_owner t);
  (** only eligible voters own a ballot *)
  wf_entitled : Forall (fun r => wr_cert r ∈ certs_of t (wr_eid r)) (t_owner t);
  (** every recorded option exists *)
  wf_choices : Forall (fun r => br_opt r < Z.of_nat (length (options_of t (br_eid r))))%Z (t_ballot t);
  (** the arrays of an election fit the structs *)
  wf_option_room : forall e, (length (options_of t e) <= BB_MAX_OPTIONS)%nat;
  wf_cert_room : forall e, (length (certs_of t e) <= BB_MAX_VOTERS)%nat;
  (** every row belongs to an election *)
  wf_option_fk : Forall (fun r => or_eid r ∈ ids t) (t_option t);
  wf_eligible_fk : Forall (fun r => gr_eid r ∈ ids t) (t_eligible t);
  wf_ballot_fk : Forall (fun r => br_eid r ∈ ids t) (t_ballot t);
  wf_owner_fk : Forall (fun r => wr_eid r ∈ ids t) (t_owner t);
  wf_nonce_fk : Forall (fun r => nr_eid r ∈ ids t) (t_nonce t);
  (** a ballot's version counts the voter's casts, each of which spent a nonce *)
  wf_versions : Forall (fun r => wr_ver r <= Z.of_nat (length (t_nonce t)))%Z (t_owner t);
  (** [seq] is the number in the id *)
  wf_seq : Forall (fun r => er_seq r = id_seq (er_id r)) (t_election t) }.

Lemma wf_empty : wf empty_tables.
Proof. split; try constructor; simpl; try (intros; unfold BB_MAX_OPTIONS, BB_MAX_VOTERS; lia). Qed.

(** ** What the reads return *)

Definition pad {A} (l dflt : list A) : list A := l ++ drop (length l) dflt.

Definition option_array (rows : list option_row) : list cstr :=
  foldl (fun opts r => <[Z.to_nat (or_idx r) := or_name r]> opts) no_options rows.

Definition state_of (r : election_row) : bb_state_t := default BB_STATE_DRAFT (parse_state (er_state r)).

Definition election_view (t : tables) (r : election_row) : bb_election_t :=
  mkElection (er_id r) (er_title r) (state_of r)
    (option_array (options_of t (er_id r))) (Z.of_nat (length (options_of t (er_id r))))
    (pad (certs_of t (er_id r)) no_voters) (Z.of_nat (length (certs_of t (er_id r))))
    (er_open r) (er_close r) zero_tally.

Definition election_result (t : tables) (e : cstr) : bb_db_result_t :=
  match find_election t e with
  | None => zero_db_result
  | Some r => set_res_found true (set_res_election (election_view t r) zero_db_result)
  end.

Definition count_option (rows : list ballot_row) (i : nat) : Z :=
  Z.of_nat (length (filter (fun r => br_opt r = Z.of_nat i) rows)).
Definition tally_view (rows : list ballot_row) : list Z := map (count_option rows) (seq 0 BB_MAX_OPTIONS).

Definition hash_view (r : ballot_row) : bb_ballot_hash_t :=
  mkHashRow (br_hash r) (br_opt r) (br_ver r) (br_sup r).

Definition prior_view (o : owner_row) : bb_db_result_t :=
  set_res_found true (set_res_row (mkHashRow (wr_hash o) 0 (wr_ver o) 0) zero_db_result).

(** ** Rows print and parse back *)

Lemma hex_plain c : hex_char c = true -> plain_char c = true /\ c <> "<"%char.
Proof.
  unfold hex_char. intros (x & Hx & Hc)%existsb_exists. unfold ceqb in Hc.
  apply bool_decide_eq_true_1 in Hc as ->. simpl in Hx.
  repeat destruct Hx as [<-|Hx]; try done.
Qed.

Lemma hash_plain h : hash_ok h -> plain h.
Proof. intros [_ H]. eapply Forall_impl; [exact H|]. intros c Hc. by apply hex_plain. Qed.

Lemma hash_cons h : hash_ok h -> exists c l, h = c :: l /\ c <> "<"%char.
Proof.
  intros [Hl H]. destruct h as [|c l]; [done|]. exists c, l. split; [done|]. inversion H; subst.
  by apply hex_plain.
Qed.

Lemma state_str_plain s : plain (bb_state_str s) /\ (length (bb_state_str s) <= 9)%nat.
Proof. destruct s; split; try (simpl; lia); by repeat constructor. Qed.

Lemma elem_plain max s : text_ok max s -> plain s.
Proof. by intros []. Qed.

#[local] Ltac row_size :=
  unfold id_ok, title_ok, time_ok, name_ok, cert_ok, nonce_ok, cell_ok, text_ok, hash_ok in *; deconj;
  repeat match goal with
  | |- context [print_int ?z] =>
    lazymatch goal with H : (length (print_int z) <= 21)%nat |- _ => fail | _ => pose proof (print_int_length z) end
  end; cbn [map sum_list_with id]; unfold MAX_ROW; simpl length in *; lia.

#[local] Ltac row_cells :=
  repeat first [ assumption | apply plain_print_int | by eapply elem_plain | by apply hash_plain
               | match goal with |- Forall plain _ => constructor end ].

Lemma row_election r : er_ok r ->
  row_ok [print_int (er_seq r); er_id r; er_title r; er_state r; er_open r; er_close r].
Proof.
  intros (_ & Hi & Ht & [s Hs] & Ho & Hc). destruct (print_int_cons (er_seq r)) as (c & l & E & Hne).
  pose proof (print_int_length (er_seq r)) as Hl. pose proof (plain_print_int (er_seq r)) as Hp.
  rewrite E in *. destruct (state_str_plain s) as [Hsp Hsl]. rewrite Hs. apply row_ok_intro; [|done|].
  - row_cells.
  - row_size.
Qed.

Lemma row_carry r : er_ok r -> row_ok [print_int (er_seq r); er_title r; er_open r; er_close r].
Proof.
  intros (_ & Hi & Ht & _ & Ho & Hc). destruct (print_int_cons (er_seq r)) as (c & l & E & Hne).
  pose proof (print_int_length (er_seq r)) as Hl. pose proof (plain_print_int (er_seq r)) as Hp.
  rewrite E in *. apply row_ok_intro; [|done|].
  - row_cells.
  - row_size.
Qed.

Lemma row_option r : or_ok r -> row_ok [print_int (or_idx r); or_name r].
Proof.
  intros (_ & _ & Hn). destruct (print_int_cons (or_idx r)) as (c & l & E & Hne).
  pose proof (print_int_length (or_idx r)) as Hl. pose proof (plain_print_int (or_idx r)) as Hp.
  rewrite E in *. apply row_ok_intro; [|done|].
  - row_cells.
  - row_size.
Qed.

Lemma row_cell max s : cell_ok max s -> (max <= 100)%nat -> row_ok [s].
Proof. intros [[Hp Hl] [Hne Hm]] Hmax. repeat split; simpl; auto. unfold MAX_ROW. lia. Qed.

Lemma row_ints z z2 : row_ok [print_int z; print_int z2].
Proof.
  destruct (print_int_cons z) as (c & l & E & Hne).
  pose proof (print_int_length z) as Hl. pose proof (plain_print_int z) as Hp.
  rewrite E in *. apply row_ok_intro; [|done|].
  - row_cells.
  - row_size.
Qed.

Lemma row_int z : row_ok [print_int z].
Proof.
  destruct (print_int_cons z) as (c & l & E & Hne).
  pose proof (print_int_length z) as Hl. pose proof (plain_print_int z) as Hp.
  rewrite E in *. apply row_ok_intro; [|done|].
  - row_cells.
  - row_size.
Qed.

Lemma row_hash h fs : hash_ok h -> Forall plain fs -> (sum_list (map (fun f => S (length f)) fs) <= 100)%nat ->
  row_ok (h :: fs).
Proof.
  intros Hh Hfs Hl. pose proof (hash_plain _ Hh) as Hp. destruct (hash_cons _ Hh) as (c & l & -> & Hne).
  destruct Hh as [Hlen _]. apply row_ok_intro; [by constructor|done|].
  change (S (length (c :: l)) + sum_list (map (fun f => S (length f)) fs) <= 200)%nat. rewrite Hlen. lia.
Qed.

Lemma row_live r : br_ok r ->
  row_ok [br_hash r; print_int (br_opt r); print_int (br_ver r); print_int (br_sup r)].
Proof.
  intros (_ & Hh & _). apply row_hash; [done| |].
  - row_cells.
  - row_size.
Qed.

Lemma row_owner r : wr_ok r -> row_ok [wr_hash r; print_int (wr_ver r)].
Proof.
  intros (_ & _ & Hh & _). apply row_hash; [done| |].
  - row_cells.
  - row_size.
Qed.

End Store.
