(* ===== verification/Commands.v ===== *)
(** * The commands of db.c on well-formed tables

    Each [run_*] program of the seam returns exactly what its table-level
    meaning says ([rsim] for the reads, [sim] for the writes). *)
From S2P Require Import Prelude CText Types Rows Sql Wire Server BrainDb Printed DbLogic Store.
Import Rows Sql Wire Server BrainDb Store Printed.

Section Commands.
Context `{R : Runner}.

Lemma sval_text max s : text_ok max s -> (max <= 64)%nat -> sval s = s.
Proof. intros [Hp Hl] Hm. apply sval_plain; [done|lia]. Qed.

Lemma sval_id e : id_ok e -> sval e = e.
Proof. intros. eapply sval_text; [done|lia]. Qed.
Lemma sval_cert c : cert_ok c -> sval c = c.
Proof. intros [? _]. eapply sval_text; [done|lia]. Qed.
Lemma sval_nonce c : nonce_ok c -> sval c = c.
Proof. intros [? _]. eapply sval_text; [done|lia]. Qed.
Lemma sval_hash h : hash_ok h -> sval h = h.
Proof. intros Hh. apply sval_plain; [by apply hash_plain|]. destruct Hh. lia. Qed.

Lemma hash_cell h : hash_ok h -> text_ok 64 h.
Proof. intros Hh. split; [by apply hash_plain|]. destruct Hh. lia. Qed.

Lemma cert_plain c : cert_ok c -> plain c.
Proof. by intros [[? _] _]. Qed.
Lemma nonce_plain c : nonce_ok c -> plain c.
Proof. by intros [[? _] _]. Qed.

#[local] Ltac plain_arg :=
  first [ assumption | apply plain_print_int | by eapply elem_plain | by apply hash_plain
        | by apply cert_plain | by apply nonce_plain
        | apply plain_take; plain_arg ].
#[local] Ltac args := split; cbn; repeat (apply Forall_cons_2; [plain_arg|]); apply Forall_nil_2.

Context (t : tables) (Hwf : wf t).

Lemma owners_in_room e : (length (filter (fun r => wr_eid r = e) (t_owner t)) <= BB_MAX_VOTERS)%nat.
Proof.
  etrans; [|apply (wf_cert_room _ Hwf e)].
  rewrite <-(length_map wr_cert). apply NoDup_length_le.
  - pose proof (wf_owners _ Hwf) as Hnd. induction (t_owner t) as [|r l IH]; [constructor|].
    cbn [map] in Hnd. apply NoDup_cons in Hnd as [Hr Hnd]. rewrite filter_cons.
    destruct (decide (wr_eid r = e)) as [E|E]; [|by apply IH]. cbn [map]. constructor; [|by apply IH].
    intros (y & Hy & [Hye Hyin]%list_elem_of_filter)%list_elem_of_fmap. apply Hr, list_elem_of_fmap.
    exists y. split; [congruence|done].
  - intros c (r & -> & [<- Hr]%list_elem_of_filter)%list_elem_of_fmap.
    pose proof (wf_entitled _ Hwf) as HF. rewrite Forall_forall in HF. by apply HF.
Qed.

Lemma live_in_room e : (length (live_of t e) <= BB_MAX_VOTERS)%nat.
Proof.
  etrans; [|apply (owners_in_room e)]. unfold live_of.
  rewrite <-(filter_filter (fun r => br_eid r = e) (fun r => br_sup r = 0%Z)).
  rewrite <-(length_map live_key). rewrite <-(length_map owner_key (filter _ (t_owner t))).
  pose proof (filter_map live_key (fun k => k.1.1 = e) (filter (fun r => br_sup r = 0%Z) (t_ballot t))) as E1.
  pose proof (filter_map owner_key (fun k => k.1.1 = e) (t_owner t)) as E2.
  etrans; [apply Nat.eq_le_incl, f_equal; symmetry; apply E1|].
  etrans; [|apply Nat.eq_le_incl, f_equal; apply E2].
  by rewrite (wf_live _ Hwf).
Qed.

Section One.
Context (e : cstr) (He : id_ok e).

Lemma sel_election : run_select (SelElection e) t =
  match find_election t e with
  | Some r => [[print_int (er_seq r); er_id r; er_title r; er_state r; er_open r; er_close r]]
  | None => []
  end.
Proof.
  cbn [run_select]. rewrite sval_id by done. rewrite (filter_key er_id) by apply Hwf.
  unfold find_election. by destruct (head _).
Qed.

Lemma sel_carry : run_select (SelElectionCarry e) t =
  match find_election t e with
  | Some r => [[print_int (er_seq r); er_title r; er_open r; er_close r]]
  | None => []
  end.
Proof.
  cbn [run_select]. rewrite sval_id by done. rewrite (filter_key er_id) by apply Hwf.
  unfold find_election. by destruct (head _).
Qed.

Lemma find_election_ok r : find_election t e = Some r -> er_ok r /\ er_id r = e /\ r ∈ t_election t.
Proof.
  intros [Hr Hin]%head_filter_Some. pose proof (wf_election _ Hwf) as HF. rewrite Forall_forall in HF.
  auto.
Qed.

Lemma sel_ok_election : sel_ok (SelElection e) t.
Proof.
  unfold sel_ok. rewrite sel_election. destruct (find_election t e) as [r|] eqn:E; (split; [|unfold BB_MAX_VOTERS; simpl; lia]);
    [|constructor]. apply find_election_ok in E as (? & _). apply Forall_singleton; by apply row_election.
Qed.

Lemma sel_ok_carry : sel_ok (SelElectionCarry e) t.
Proof.
  unfold sel_ok. rewrite sel_carry. destruct (find_election t e) as [r|] eqn:E; (split; [|unfold BB_MAX_VOTERS; simpl; lia]);
    [|constructor]. apply find_election_ok in E as (? & _). apply Forall_singleton; by apply row_carry.
Qed.

(** A select over the rows of one table that satisfy [P]. *)
Lemma sel_ok_filter {A} (l : list A) (ok : A -> Prop) (P : A -> Prop) `{!forall x, Decision (P x)}
    (f : A -> list cstr) s :
  Forall ok l -> (forall x, ok x -> row_ok (f x)) -> run_select s t = map f (filter P l) ->
  (length (filter P l) <= BB_MAX_VOTERS)%nat -> sel_ok s t.
Proof.
  intros Hl Hf Hs Hn. unfold sel_ok. rewrite Hs, length_map. split; [|done]. apply Forall_map.
  apply Forall_forall. intros x [_ Hx]%list_elem_of_filter. rewrite Forall_forall in Hl. by apply Hf, Hl.
Qed.

Lemma sel_ok_option : sel_ok (SelOption e) t.
Proof.
  eapply (sel_ok_filter (t_option t) or_ok (fun r => or_eid r = e)); [apply Hwf|apply row_option| |].
  - cbn [run_select]. by rewrite sval_id.
  - pose proof (wf_option_room _ Hwf e). unfold options_of, BB_MAX_OPTIONS, BB_MAX_VOTERS in *. lia.
Qed.

Lemma sel_eligible : run_select (SelEligible e) t = map (fun c => [c]) (certs_of t e).
Proof. cbn [run_select]. rewrite sval_id by done. unfold certs_of. by rewrite map_map. Qed.

Lemma sel_ok_eligible : sel_ok (SelEligible e) t.
Proof.
  eapply (sel_ok_filter (t_eligible t) gr_ok (fun r => gr_eid r = e)); [apply Hwf| | |].
  - intros r [_ Hc]. simpl. eapply row_cell; [apply Hc|lia].
  - cbn [run_select]. by rewrite sval_id.
  - pose proof (wf_cert_room _ Hwf e) as H. unfold certs_of in H. by rewrite length_map in H.
Qed.

Lemma sel_ok_tally : sel_ok (SelTally e) t.
Proof.
  eapply (sel_ok_filter (t_ballot t) br_ok (fun r => br_eid r = e /\ br_sup r = 0%Z)); [apply Hwf| | |].
  - intros r _. apply row_int.
  - cbn [run_select]. by rewrite sval_id.
  - apply live_in_room.
Qed.

Lemma sel_ok_live : sel_ok (SelLive e) t.
Proof.
  eapply (sel_ok_filter (t_ballot t) br_ok (fun r => br_eid r = e /\ br_sup r = 0%Z)); [apply Hwf| | |].
  - apply row_live.
  - cbn [run_select]. by rewrite sval_id.
  - apply live_in_room.
Qed.

(** The ballot row with a given hash. *)
Definition ballot_of (h : cstr) : option ballot_row :=
  head (filter (fun r => (br_eid r, br_hash r) = (e, h)) (t_ballot t)).

Lemma ballot_filter h : filter (fun r => br_eid r = e /\ br_hash r = h) (t_ballot t) =
  match ballot_of h with Some r => [r] | None => [] end.
Proof.
  clear He.
  rewrite (filter_iff _ (fun r => (br_eid r, br_hash r) = (e, h))) by (intros ? _; split; [by intros [-> ->]|by intros [= -> ->]]).
  by apply (filter_key (fun r => (br_eid r, br_hash r))), Hwf.
Qed.

Lemma ballot_of_ok h r : ballot_of h = Some r -> br_ok r /\ br_eid r = e /\ br_hash r = h /\ r ∈ t_ballot t.
Proof.
  clear He.
  intros [[= <- <-] Hin]%head_filter_Some. pose proof (wf_ballot _ Hwf) as HF.
  rewrite Forall_forall in HF. auto.
Qed.

Lemma sel_ballot h : hash_ok h -> run_select (SelBallot e h) t =
  match ballot_of h with Some r => [[print_int (br_opt r); print_int (br_ver r)]] | None => [] end.
Proof.
  intros Hh. cbn [run_select]. rewrite sval_id, sval_hash by done. rewrite ballot_filter.
  by destruct (ballot_of h).
Qed.

Lemma sel_ok_ballot h : hash_ok h -> sel_ok (SelBallot e h) t.
Proof.
  intros Hh. unfold sel_ok. rewrite sel_ballot by done. destruct (ballot_of h); (split; [|unfold BB_MAX_VOTERS; simpl; lia]);
    [apply Forall_singleton, row_ints|constructor].
Qed.

(** FIND_HASH takes any presented text. *)
Lemma sel_live_hash h : plain h -> (length h <= 64)%nat -> run_select (SelLiveHash e h) t =
  match ballot_of h with
  | Some r => if decide (br_sup r = 0%Z) then
      [[br_hash r; print_int (br_opt r); print_int (br_ver r); print_int (br_sup r)]] else []
  | None => []
  end.
Proof.
  intros Hp Hl. cbn [run_select]. rewrite sval_id, sval_plain by done.
  rewrite (filter_iff _ (fun r => br_sup r = 0%Z /\ br_eid r = e /\ br_hash r = h)) by (intros; tauto).
  rewrite <-(filter_filter (fun r => br_sup r = 0%Z) (fun r => br_eid r = e /\ br_hash r = h)).
  rewrite ballot_filter. destruct (ballot_of h) as [r|]; [|done]. rewrite filter_cons.
  by destruct (decide _).
Qed.

Lemma sel_ok_live_hash h : plain h -> (length h <= 64)%nat -> sel_ok (SelLiveHash e h) t.
Proof.
  intros Hp Hl. unfold sel_ok. rewrite sel_live_hash by done. destruct (ballot_of h) as [r|] eqn:E;
    [|split; [constructor|unfold BB_MAX_VOTERS; simpl; lia]]. destruct (decide _); (split; [|unfold BB_MAX_VOTERS; simpl; lia]); [|constructor].
  apply Forall_singleton. apply ballot_of_ok in E as (Hr & _). by apply row_live.
Qed.

Definition nonce_row_of (n : cstr) : option nonce_row :=
  head (filter (fun r => (nr_eid r, nr_nonce r) = (e, n)) (t_nonce t)).

Lemma sel_nonce n : nonce_ok n -> run_select (SelNonce e n) t =
  match nonce_row_of n with Some r => [[nr_nonce r]] | None => [] end.
Proof.
  intros Hn. cbn [run_select]. rewrite sval_id, sval_nonce by done.
  rewrite (filter_iff _ (fun r => (nr_eid r, nr_nonce r) = (e, n))) by (intros ? _; split; [by intros [-> ->]|by intros [= -> ->]]).
  rewrite (filter_key (fun r => (nr_eid r, nr_nonce r))) by apply Hwf. unfold nonce_row_of.
  by destruct (head _).
Qed.

Lemma sel_ok_nonce n : nonce_ok n -> sel_ok (SelNonce e n) t.
Proof.
  intros Hn. unfold sel_ok. rewrite sel_nonce by done. destruct (nonce_row_of n) as [r|] eqn:E;
    (split; [|unfold BB_MAX_VOTERS; simpl; lia]); [|constructor]. apply Forall_singleton.
  apply head_filter_Some in E as [[= _ ->] _]. eapply row_cell; [done|lia].
Qed.

Lemma sel_owner c : cert_ok c -> run_select (SelOwner e c) t =
  match owner_of t e c with Some o => [[wr_hash o; print_int (wr_ver o)]] | None => [] end.
Proof.
  intros Hc. cbn [run_select]. rewrite sval_id, sval_cert by done. unfold owner_of.
  rewrite (filter_iff _ (fun r => (wr_eid r, wr_cert r) = (e, c))) by (intros ? _; split; [by intros [-> ->]|by intros [= -> ->]]).
  rewrite (filter_key (fun r => (wr_eid r, wr_cert r))) by apply Hwf. by destruct (head _).
Qed.

Lemma owner_of_ok c o : owner_of t e c = Some o -> wr_ok o /\ wr_eid o = e /\ wr_cert o = c /\ o ∈ t_owner t.
Proof.
  clear He.
  intros [[<- <-] Hin]%head_filter_Some. pose proof (wf_owner _ Hwf) as HF.
  rewrite Forall_forall in HF. auto.
Qed.

Lemma sel_ok_owner c : cert_ok c -> sel_ok (SelOwner e c) t.
Proof.
  intros Hc. unfold sel_ok. rewrite sel_owner by done. destruct (owner_of t e c) as [o|] eqn:E;
    (split; [|unfold BB_MAX_VOTERS; simpl; lia]); [|constructor]. apply Forall_singleton.
  apply owner_of_ok in E as (Ho & _). by apply row_owner.
Qed.

(** ** Decoding the replies *)

Lemma foldl_map {A B C} (f : A -> B -> A) (g : C -> B) a l : foldl f a (map g l) = foldl (fun a x => f a (g x)) a l.
Proof. revert a; induction l as [|x l IH]; intros a; simpl; [done|apply IH]. Qed.

Lemma foldl_ext_elem {A B} (f g : A -> B -> A) a l :
  (forall a x, x ∈ l -> f a x = g a x) -> foldl f a l = foldl g a l.
Proof.
  revert a; induction l as [|x l IH]; intros a H; [done|]. simpl. rewrite H by left. apply IH.
  intros a' y Hy. apply H. by right.
Qed.

Lemma fld_0 a l : fld (a :: l) 0 = a.
Proof. done. Qed.
Lemma fld_S a l i : fld (a :: l) (S i) = fld l i.
Proof. done. Qed.

Lemma in_options_ok z : (0 <= z < Z.of_nat BB_MAX_OPTIONS)%Z -> in_options z = true.
Proof. intros. unfold in_options. apply andb_true_iff. lia. Qed.

Lemma read_options_ok : read_options (select_body (SelOption e) t) =
  (option_array (options_of t e), Z.of_nat (length (options_of t e))).
Proof.
  pose proof sel_ok_option as Hok. unfold read_options. rewrite select_total by done.
  assert (Hs : run_select (SelOption e) t = map (fun r => [print_int (or_idx r); or_name r]) (options_of t e))
    by (cbn [run_select]; by rewrite sval_id).
  f_equal.
  - rewrite (for_rows_foldl _ _ (fun opts (f : list cstr) =>
      let idx := field_int (fld f 0) in
      if in_options idx then <[Z.to_nat idx := field_copy (fld f 1) BB_OPTION_LEN]> opts else opts)).
    + rewrite Hs, foldl_map. apply foldl_ext_elem. intros opts r [_ Hr]%list_elem_of_filter.
      pose proof (wf_option _ Hwf) as HF. rewrite Forall_forall in HF. destruct (HF r Hr) as (_ & Hi & [_ Hn]).
      cbv zeta. rewrite ?fld_S, ?fld_0. rewrite field_int_print by (unfold BB_MAX_OPTIONS, INT_MAX in *; lia).
      rewrite in_options_ok by done. rewrite field_copy_fit; [done|]. unfold BB_OPTION_LEN. lia.
    + intros opts i r Hi. rewrite (select_fields _ _ _ 2 r); [done|done|done|].
      rewrite Hs in Hi. apply list_lookup_fmap_Some in Hi as (x & -> & _). done.
  - rewrite Hs, length_map. pose proof (wf_option_room _ Hwf e). f_equal. lia.
Qed.

(** Filling the first slots of an array in order. *)
Lemma fill_slots {A} (l d : list A) : (length l <= length d)%nat ->
  foldl (fun es '(i, x) => <[i := x]> es) d (imap pair l) = pad l d.
Proof.
  intros Hl. unfold pad. revert Hl.
  assert (H : forall k (p : list A), length p = k -> (k + length l <= length d)%nat ->
    foldl (fun es '(i, x) => <[i := x]> es) (p ++ drop k d) (imap (fun i x => ((k + i)%nat, x)) l) =
    p ++ l ++ drop (k + length l) d).
  { induction l as [|x l IH]; intros k p Hp Hl; [simpl; by rewrite Nat.add_0_r|].
    cbn [imap foldl length] in *. rewrite Nat.add_0_r.
    assert (Hk : (k < length d)%nat) by lia. apply lookup_lt_is_Some_2 in Hk as [y Hy].
    rewrite (drop_S _ _ _ Hy), (insert_app_r_alt p _ k) by lia. rewrite Hp, Nat.sub_diag. simpl.
    replace (p ++ x :: drop (S k) d) with ((p ++ [x]) ++ drop (S k) d) by (by rewrite <-app_assoc).
    erewrite imap_ext; [rewrite IH|].
    - rewrite <-app_assoc. simpl. do 4 f_equal. lia.
    - rewrite length_app. simpl. lia.
    - lia.
    - intros i z _. simpl. f_equal. lia. }
  intros Hl. apply (H 0%nat []); [done|lia].
Qed.

Lemma imap_seq {A} (l : list A) (d : A) : imap pair l = map (fun i => (i, default d (l !! i))) (seq 0 (length l)).
Proof.
  apply list_eq. intros i. rewrite list_lookup_imap, list_lookup_fmap.
  destruct (decide (i < length l)%nat) as [Hi|Hi].
  - rewrite lookup_seq_lt by done. simpl. apply lookup_lt_is_Some_2 in Hi as [x ->]. done.
  - rewrite lookup_ge_None_2 by lia. rewrite lookup_seq_ge by lia. done.
Qed.

Lemma read_eligible_ok : read_eligible (select_body (SelEligible e) t) =
  (pad (certs_of t e) no_voters, Z.of_nat (length (certs_of t e))).
Proof.
  pose proof sel_ok_eligible as Hok. unfold read_eligible. rewrite select_total by done.
  rewrite sel_eligible, length_map. pose proof (wf_cert_room _ Hwf e) as Hroom.
  rewrite Nat.min_l by done. f_equal. rewrite <-fill_slots by (unfold no_voters; by rewrite length_replicate).
  rewrite (imap_seq _ []), foldl_map. apply foldl_ext_elem. intros es i Hi.
  apply elem_of_seq in Hi as [_ Hi]. simpl in Hi. apply lookup_lt_is_Some_2 in Hi as [c Hc].
  rewrite (select_fields _ _ _ 1 [c]); [|done|by rewrite sel_eligible, list_lookup_fmap, Hc|done].
  rewrite Hc. rewrite ?fld_S, ?fld_0. simpl default. rewrite field_copy_fit; [done|].
  apply list_elem_of_lookup_2, list_elem_of_fmap in Hc as (r & -> & [_ Hr]%list_elem_of_filter).
  pose proof (wf_eligible _ Hwf) as HF. rewrite Forall_forall in HF.
  destruct (HF r Hr) as [_ [[_ Hl] _]]. unfold BB_CERT_LEN. lia.
Qed.

Lemma tally_fold base rows : length base = BB_MAX_OPTIONS ->
  Forall (fun r => 0 <= br_opt r < Z.of_nat BB_MAX_OPTIONS)%Z rows ->
  foldl (fun tally r => alter (fun n => n + 1)%Z (Z.to_nat (br_opt r)) tally) base rows =
  imap (fun i n => (n + count_option rows i)%Z) base.
Proof.
  intros Hb HF. revert base Hb; induction HF as [|r rows Hr _ IH]; intros base Hb.
  - apply list_eq. intros i. cbn [foldl]. rewrite list_lookup_imap. destruct (base !! i); [|done]. simpl.
    f_equal. unfold count_option. simpl. lia.
  - cbn [foldl]. rewrite IH by (by rewrite length_alter). apply list_eq. intros i.
    rewrite !list_lookup_imap. unfold count_option. rewrite filter_cons.
    destruct (decide (br_opt r = Z.of_nat i)) as [E|E].
    + rewrite E, Nat2Z.id, list_lookup_alter_eq. destruct (base !! i); simpl; [|done]. f_equal. lia.
    + rewrite list_lookup_alter_ne by lia. done.
Qed.

Lemma read_tally_ok : read_tally (select_body (SelTally e) t) = tally_view (live_of t e).
Proof.
  pose proof sel_ok_tally as Hok. unfold read_tally. rewrite select_total by done.
  assert (Hs : run_select (SelTally e) t = map (fun r => [print_int (br_opt r)]) (live_of t e))
    by (cbn [run_select]; by rewrite sval_id).
  assert (HF : Forall (fun r => 0 <= br_opt r < Z.of_nat BB_MAX_OPTIONS)%Z (live_of t e)).
  { apply Forall_forall. intros r [_ Hr]%list_elem_of_filter. pose proof (wf_ballot _ Hwf) as HF.
    rewrite Forall_forall in HF. apply (HF r Hr). }
  rewrite (for_rows_foldl _ _ (fun tally (f : list cstr) =>
    let idx := field_int (fld f 0) in
    if in_options idx then alter (fun n => n + 1)%Z (Z.to_nat idx) tally else tally)).
  - rewrite Hs, foldl_map. transitivity
      (foldl (fun tally r => alter (fun n => n + 1)%Z (Z.to_nat (br_opt r)) tally) zero_tally (live_of t e)).
    + apply foldl_ext_elem. intros tl r Hr. rewrite Forall_forall in HF. specialize (HF r Hr).
      cbv zeta. rewrite ?fld_S, ?fld_0. rewrite field_int_print by (unfold BB_MAX_OPTIONS, INT_MAX in *; lia).
      by rewrite in_options_ok.
    + rewrite tally_fold by done. unfold tally_view, zero_tally. apply list_eq. intros i.
      rewrite list_lookup_imap, list_lookup_fmap. destruct (decide (i < BB_MAX_OPTIONS)%nat) as [Hi|Hi].
      * rewrite lookup_replicate_2, lookup_seq_lt by done. done.
      * rewrite lookup_seq_ge by lia. rewrite lookup_ge_None_2; [done|]. rewrite length_replicate. lia.
  - intros tl i r Hi. rewrite (select_fields _ _ _ 1 r); [done|done|done|].
    rewrite Hs in Hi. apply list_lookup_fmap_Some in Hi as (x & -> & _). done.
Qed.

Lemma fill_count {A} cap (l d : list A) : (length l <= cap)%nat -> length d = cap ->
  foldl (fun '(hs, n) x => if (n <? cap)%nat then (<[n := x]> hs, S n) else (hs, n)) (d, O) l =
  (pad l d, length l).
Proof.
  intros Hl Hd. unfold pad.
  assert (H : forall k (p : list A), length p = k -> (k + length l <= cap)%nat ->
    foldl (fun '(hs, n) x => if (n <? cap)%nat then (<[n := x]> hs, S n) else (hs, n)) (p ++ drop k d, k) l =
    (p ++ l ++ drop (k + length l) d, (k + length l)%nat)).
  { clear Hl. induction l as [|x l IH]; intros k p Hp Hl; [simpl; by rewrite Nat.add_0_r|].
    cbn [foldl length] in *. rewrite (proj2 (Nat.ltb_lt _ _)) by lia.
    assert (Hk : (k < length d)%nat) by lia. apply lookup_lt_is_Some_2 in Hk as [y Hy].
    rewrite (drop_S _ _ _ Hy), (insert_app_r_alt p _ k) by lia. rewrite Hp, Nat.sub_diag. simpl.
    replace (p ++ x :: drop (S k) d) with ((p ++ [x]) ++ drop (S k) d) by (by rewrite <-app_assoc).
    rewrite (IH (S k)); [|rewrite length_app; simpl; lia|lia].
    rewrite <-app_assoc. simpl. f_equal; [do 4 f_equal|]; lia. }
  apply (H 0%nat []); [done|lia].
Qed.

Lemma read_hash_row_ok r : br_ok r ->
  read_hash_row [br_hash r; print_int (br_opt r); print_int (br_ver r); print_int (br_sup r)] = hash_view r.
Proof.
  intros (_ & [Hh _] & Ho & Hv & Hs). unfold read_hash_row, hash_view, int_ok in *.
  rewrite ?fld_S, ?fld_0.
  rewrite !field_int_print by (unfold BB_MAX_OPTIONS, INT_MAX in *; destruct Hs; lia).
  rewrite field_copy_fit; [done|]. unfold BB_HASH_LEN. lia.
Qed.

Lemma read_hashes_ok : read_hashes (select_body (SelLive e) t) =
  (pad (map hash_view (live_of t e)) (replicate BB_MAX_VOTERS zero_row), length (live_of t e)).
Proof.
  pose proof sel_ok_live as Hok. unfold read_hashes. rewrite select_total by done.
  assert (Hs : run_select (SelLive e) t = map (fun r => [br_hash r; print_int (br_opt r);
    print_int (br_ver r); print_int (br_sup r)]) (live_of t e)) by (cbn [run_select]; by rewrite sval_id).
  rewrite (for_rows_foldl _ _ (fun '(hs, n) (f : list cstr) =>
    if (n <? BB_MAX_VOTERS)%nat then (<[n := read_hash_row f]> hs, S n) else (hs, n))).
  - rewrite Hs, foldl_map. rewrite <-(length_map hash_view (live_of t e)).
    rewrite <-(fill_count BB_MAX_VOTERS).
    + rewrite foldl_map. apply foldl_ext_elem. intros [hs n] r [_ Hr]%list_elem_of_filter.
      pose proof (wf_ballot _ Hwf) as HF. rewrite Forall_forall in HF. by rewrite read_hash_row_ok by auto.
    + rewrite length_map. apply live_in_room.
    + by rewrite length_replicate.
  - intros [hs n] i r Hi. rewrite (select_fields _ _ _ 4 r); [done|done|done|].
    rewrite Hs in Hi. apply list_lookup_fmap_Some in Hi as (x & -> & _). done.
Qed.

(** ** The reads *)

Context (cmd : bb_db_cmd_t) (Hcmd : cmd_election_id cmd = e).

Lemma field_state s : parse_state (field_copy (bb_state_str s) 16) = Some s.
Proof. destruct s; done. Qed.

Lemma get_election_ok : rsim t (run_get_election cmd true) (Ok (election_result t e)).
Proof.
  unfold run_get_election. cbn [negb]. rewrite Hcmd.
  eapply rsim_bind; [apply rsim_query; [done|args|apply sel_ok_election|done]|].
  rewrite select_count by apply sel_ok_election. rewrite sel_election. unfold election_result.
  destruct (find_election t e) as [r|] eqn:E; [|apply rsim_ret].
  destruct (find_election_ok _ E) as ((_ & [_ Hi] & [_ Ht] & [s Hs] & [_ Ho] & [_ Hc]) & He' & _).
  cbn [length Z.of_nat Z.ltb Z.compare Z.eqb].
  erewrite (select_fields _ _ 0 6); [|apply sel_ok_election|by rewrite sel_election, E|done].
  rewrite ?fld_S, ?fld_0. rewrite Hs, field_state.
  eapply rsim_bind; [apply rsim_query; [done|args|apply sel_ok_option|done]|].
  rewrite read_options_ok.
  eapply rsim_bind; [apply rsim_query; [done|args|apply sel_ok_eligible|done]|].
  rewrite read_eligible_ok.
  rewrite !field_copy_fit by (unfold BB_ID_LEN, BB_TITLE_LEN, BB_TIME_LEN; lia).
  unfold election_view, state_of. rewrite Hs, parse_state_str, He'. apply rsim_ret.
Qed.

Lemma get_tally_ok :
  rsim t (run_get_tally cmd true) (Ok (set_res_tally (tally_view (live_of t e)) zero_db_result)).
Proof.
  unfold run_get_tally. cbn [negb]. rewrite Hcmd.
  eapply rsim_bind; [apply rsim_query; [done|args|apply sel_ok_tally|done]|].
  rewrite read_tally_ok. apply rsim_ret.
Qed.

Lemma get_hashes_ok :
  rsim t (run_get_hashes cmd true)
    (Ok (set_res_hashes (pad (map hash_view (live_of t e)) (replicate BB_MAX_VOTERS zero_row))
           (Z.of_nat (length (live_of t e))) zero_db_result)).
Proof.
  unfold run_get_hashes. cbn [negb]. rewrite Hcmd.
  eapply rsim_bind; [apply rsim_query; [done|args|apply sel_ok_live|done]|].
  rewrite read_hashes_ok. apply rsim_ret.
Qed.

(** The live ballot with a given hash. *)
Definition live_ballot (h : cstr) : option ballot_row :=
  match ballot_of h with
  | Some r => if decide (br_sup r = 0%Z) then Some r else None
  | None => None
  end.

Definition found_row (o : option bb_ballot_hash_t) : bb_db_result_t :=
  match o with
  | Some r => set_res_found true (set_res_row r zero_db_result)
  | None => zero_db_result
  end.

Lemma find_hash_ok : plain (cmd_hash cmd) -> (length (cmd_hash cmd) <= 64)%nat ->
  rsim t (run_find_hash cmd true) (Ok (found_row (hash_view <$> live_ballot (cmd_hash cmd)))).
Proof.
  intros Hp Hl. pose proof (sel_ok_live_hash _ Hp Hl) as Hok.
  unfold run_find_hash. cbn [negb]. rewrite Hcmd.
  eapply rsim_bind; [apply rsim_query; [done|args|done|done]|].
  rewrite select_count by done. rewrite sel_live_hash by done. unfold live_ballot.
  destruct (ballot_of (cmd_hash cmd)) as [r|] eqn:E; [|apply rsim_ret].
  destruct (decide (br_sup r = 0%Z)) as [Hs|Hs]; [|apply rsim_ret].
  cbn [length Z.of_nat Z.leb Z.compare].
  erewrite (select_fields _ _ 0 4); [|done|rewrite sel_live_hash, E, decide_True by done; done|done].
  rewrite read_hash_row_ok by apply (ballot_of_ok _ _ E). apply rsim_ret.
Qed.

Lemma nonce_seen_ok : nonce_ok (cmd_nonce cmd) ->
  rsim t (run_nonce_seen cmd true)
    (Ok (set_res_found (if nonce_row_of (cmd_nonce cmd) then true else false) zero_db_result)).
Proof.
  intros Hn. pose proof (sel_ok_nonce _ Hn) as Hok. unfold run_nonce_seen. cbn [negb]. rewrite Hcmd.
  eapply rsim_bind; [apply rsim_query; [done|args|done|done]|].
  rewrite select_count by done. rewrite sel_nonce by done.
  destruct (nonce_row_of _); apply rsim_ret.
Qed.

Lemma get_prior_ok : cert_ok (cmd_cert_name cmd) ->
  rsim t (run_get_prior_ballot cmd true)
    (Ok (match owner_of t e (cmd_cert_name cmd) with Some o => prior_view o | None => zero_db_result end)).
Proof.
  intros Hc. pose proof (sel_ok_owner _ Hc) as Hok. unfold run_get_prior_ballot. cbn [negb]. rewrite Hcmd.
  eapply rsim_bind; [apply rsim_query; [done|args|done|done]|].
  rewrite select_count by done. rewrite sel_owner by done.
  destruct (owner_of t e (cmd_cert_name cmd)) as [o|] eqn:E; [|apply rsim_ret].
  destruct (owner_of_ok _ _ E) as ((_ & _ & [Hh _] & Hv) & _).
  cbn [length Z.of_nat Z.leb Z.compare].
  erewrite (select_fields _ _ 0 2); [|done|rewrite sel_owner, E by done; done|done].
  rewrite ?fld_S, ?fld_0. rewrite field_int_print by (unfold int_ok, INT_MAX in *; lia).
  rewrite field_copy_fit by (unfold BB_HASH_LEN; lia). apply rsim_ret.
Qed.

End One.
End Commands.

#[global] Arguments ballot_of : clear implicits.
#[global] Arguments live_ballot : clear implicits.
#[global] Arguments nonce_row_of : clear implicits.

(** ** The writes

    Their effect on the tables, whatever else the tables hold. *)
Section Writes.
Context `{R : Runner}.

Definition add_ballot (e h : cstr) (o v u : Z) (t : tables) : tables :=
  set_ballot (place (mkBR e h o v u) (t_ballot t)) t.
Definition drop_ballot (e h : cstr) (t : tables) : tables :=
  set_ballot (filter (fun r => ~ (br_eid r = e /\ br_hash r = h)) (t_ballot t)) t.
Definition add_nonce (e n : cstr) (t : tables) : tables := set_nonce (place (mkNR e n) (t_nonce t)) t.
Definition put_owner (e c h : cstr) (v : Z) (t : tables) : tables :=
  set_owner (place (mkWR e c h v) (filter (fun r => ~ (wr_eid r = e /\ wr_cert r = c)) (t_owner t))) t.
Definition put_state (r : election_row) (s : bb_state_t) (t : tables) : tables :=
  set_election (place (mkER (er_seq r) (er_id r) (er_title r) (bb_state_str s) (er_open r) (er_close r))
    (filter (fun x => er_id x <> er_id r) (t_election t))) t.

Fixpoint add_options (e : cstr) (i : Z) (opts : list cstr) (t : tables) : tables :=
  match opts with
  | [] => t
  | o :: opts' => add_options e (i + 1) opts' (set_option (place (mkOR e i o) (t_option t)) t)
  end.
Fixpoint add_certs (e : cstr) (certs : list cstr) (t : tables) : tables :=
  match certs with
  | [] => t
  | c :: certs' => add_certs e certs' (set_eligible (place (mkGR e c) (t_eligible t)) t)
  end.
Definition add_election (e : cstr) (cfg : bb_config_t) (t : tables) : tables :=
  add_certs e (slots (cfg_eligible_count cfg) BB_MAX_VOTERS (cfg_eligible cfg))
    (add_options e 0 (slots (cfg_option_count cfg) BB_MAX_OPTIONS (cfg_options cfg))
      (set_election (place (mkER (id_seq e) e (cfg_title cfg) ($"DRAFT") (cfg_open_time cfg)
                            (cfg_close_time cfg)) (t_election t)) t)).

#[local] Ltac plain_arg :=
  first [ assumption | apply plain_print_int | by eapply elem_plain | by apply hash_plain
        | by apply cert_plain | by apply nonce_plain
        | apply plain_take; plain_arg ].
#[local] Ltac args := split; cbn; repeat (apply Forall_cons_2; [plain_arg|]); apply Forall_nil_2.

Lemma append_ok t cmd e r : cmd_election_id cmd = e -> id_ok e -> cmd_hash_row cmd = Some r ->
  hash_ok (bh_hash r) -> int_ok (bh_option_index r) -> int_ok (bh_version r) -> int_ok (bh_superseded r) ->
  sim t (run_append_ballot cmd) (Ok tt)
    (add_ballot e (bh_hash r) (bh_option_index r) (bh_version r) (bh_superseded r) t).
Proof.
  intros He Hid Hr Hh Ho Hv Hs. unfold run_append_ballot. rewrite Hr, He. apply sim_run; [done|args|done|].
  cbn [run_stmt]. rewrite !nval_int by done. simpl. by rewrite sval_id, sval_hash.
Qed.

Lemma nonce_mark_ok t cmd e : cmd_election_id cmd = e -> id_ok e -> nonce_ok (cmd_nonce cmd) ->
  sim t (run_nonce_mark cmd) (Ok tt) (add_nonce e (cmd_nonce cmd) t).
Proof.
  intros He Hid Hn. unfold run_nonce_mark. rewrite He. apply sim_run; [done|args|done|].
  cbn [run_stmt]. by rewrite sval_id, sval_nonce.
Qed.

Lemma set_owner_ok t cmd e : cmd_election_id cmd = e -> id_ok e -> cert_ok (cmd_cert_name cmd) ->
  hash_ok (cmd_hash cmd) -> int_ok (cmd_version cmd) ->
  sim t (run_set_owner cmd) (Ok tt) (put_owner e (cmd_cert_name cmd) (cmd_hash cmd) (cmd_version cmd) t).
Proof.
  intros He Hid Hc Hh Hv. unfold run_set_owner. rewrite He.
  eapply sim_bind; [apply sim_run; [done|args|done|]|apply sim_run; [done|args|done|]].
  - cbn [run_stmt]. rewrite sval_id, sval_cert by done. reflexivity.
  - cbn [run_stmt]. rewrite nval_int by done. simpl. rewrite sval_id, sval_cert, sval_hash by done. reflexivity.
Qed.

Lemma mark_ok t cmd e r : cmd_election_id cmd = e -> id_ok e -> hash_ok (cmd_hash cmd) -> br_ok r ->
  filter (fun r => br_eid r = e /\ br_hash r = cmd_hash cmd) (t_ballot t) = [r] ->
  sim t (run_mark_superseded cmd) (Ok tt)
    (add_ballot e (cmd_hash cmd) (br_opt r) (br_ver r) 1 (drop_ballot e (cmd_hash cmd) t)).
Proof.
  intros He Hid Hh Hr Hf. unfold run_mark_superseded. rewrite He.
  assert (Hs : run_select (SelBallot e (cmd_hash cmd)) t = [[print_int (br_opt r); print_int (br_ver r)]])
    by (cbn [run_select]; by rewrite sval_id, sval_hash, Hf).
  assert (Hok : sel_ok (SelBallot e (cmd_hash cmd)) t).
  { split; rewrite Hs; [apply Forall_singleton, row_ints|unfold BB_MAX_VOTERS; simpl; lia]. }
  destruct Hr as (_ & _ & Ho & Hv & _). unfold int_ok in Hv.
  eapply sim_bind; [apply rsim_sim, rsim_query; [done|args|done|done]|].
  rewrite select_count, Hs by done. cbn [length Z.of_nat Z.leb Z.compare].
  erewrite (select_fields _ _ 0 2); [|done|by rewrite Hs|done].
  rewrite ?fld_S, ?fld_0. rewrite !field_copy_int by lia.
  eapply sim_bind; (apply sim_run; [done|args|done|]).
  - cbn [run_stmt]. rewrite sval_id, sval_hash by done. reflexivity.
  - cbn [run_stmt]. rewrite !text_nval_print by (unfold BB_MAX_OPTIONS, INT_MAX in *; lia). simpl.
    rewrite sval_id, sval_hash by done. reflexivity.
Qed.

Lemma update_state_ok t cmd e r : wf t -> cmd_election_id cmd = e -> id_ok e ->
  find_election t e = Some r ->
  sim t (run_update_state cmd) (Ok tt) (put_state r (cmd_new_state cmd) t).
Proof.
  intros Hwf He Hid Hf. unfold run_update_state. rewrite He.
  pose proof (sel_ok_carry _ Hwf _ Hid) as Hok. pose proof (sel_carry _ Hwf _ Hid) as Hs. rewrite Hf in Hs.
  destruct (find_election_ok _ Hwf _ _ Hf) as ((Hq & _ & [Htp Htl] & _ & [Hop Hol] & [Hcp Hcl]) & Hre & _).
  eapply sim_bind; [apply rsim_sim, rsim_query; [done|args|done|done]|].
  rewrite select_count, Hs by done. cbn [length Z.of_nat Z.leb Z.compare].
  erewrite (select_fields _ _ 0 4); [|done|by rewrite Hs|done].
  rewrite ?fld_S, ?fld_0. rewrite field_copy_int, !field_copy_fit by (unfold BB_TITLE_LEN, BB_TIME_LEN; lia).
  eapply sim_bind; (apply sim_run; [done|args|done|]).
  - cbn [run_stmt]. rewrite sval_id by done. reflexivity.
  - cbn [run_stmt]. rewrite text_nval_print by done. simpl.
    rewrite sval_id, !sval_plain by (done || lia). unfold put_state. by rewrite Hre.
Qed.

Lemma plain_safe s : plain s -> unsafe s = false.
Proof.
  induction 1 as [|c s Hc _ IH]; [done|]. cbn [unsafe existsb]. fold (unsafe s). rewrite IH, orb_false_r.
  unfold ceqb. rewrite !bool_decide_eq_false_2; [done|..]; by eapply plain_char_ne.
Qed.

Lemma insert_options_ok e : id_ok e -> forall opts i t, (0 <= i)%Z ->
  (i + Z.of_nat (length opts) <= INT_MAX)%Z -> Forall name_ok opts ->
  sim t (insert_options e i opts) (Ok tt) (add_options e i opts t).
Proof.
  intros Hid. induction opts as [|o opts IH]; intros i t Hi Hm Ho; [apply sim_ret|].
  inversion Ho as [|? ? [Hop Hol] Ho']; subst. cbn [insert_options add_options length] in *.
  rewrite plain_safe by done. eapply sim_bind; [apply sim_run; [done|args|done|]|apply IH; try done; lia].
  cbn [run_stmt]. rewrite nval_int by lia. simpl. by rewrite sval_id, sval_plain by (done || lia).
Qed.

Lemma insert_eligible_ok e : id_ok e -> forall certs t, Forall cert_ok certs ->
  sim t (insert_eligible e certs) (Ok tt) (add_certs e certs t).
Proof.
  intros Hid. induction certs as [|c certs IH]; intros t Hc; [apply sim_ret|].
  inversion Hc; subst. cbn [insert_eligible add_certs].
  rewrite plain_safe by (by apply cert_plain).
  eapply sim_bind; [apply sim_run; [done|args|done|]|by apply IH].
  cbn [run_stmt]. by rewrite sval_id, sval_cert.
Qed.

(** A configuration whose texts fit the structs and print plainly. *)
Record config_ok (cfg : bb_config_t) : Prop := {
  co_title : title_ok (cfg_title cfg);
  co_open : time_ok (cfg_open_time cfg);
  co_close : time_ok (cfg_close_time cfg);
  co_options : Forall name_ok (slots (cfg_option_count cfg) BB_MAX_OPTIONS (cfg_options cfg));
  co_certs : Forall cert_ok (slots (cfg_eligible_count cfg) BB_MAX_VOTERS (cfg_eligible cfg)) }.

Lemma slots_length {A} n cap (l : list A) : (length (slots n cap l) <= cap)%nat.
Proof. unfold slots. rewrite length_take. lia. Qed.

Lemma insert_election_ok t cmd e cfg : cmd_election_id cmd = e -> id_ok e -> cmd_config cmd = Some cfg ->
  config_ok cfg -> int_ok (id_seq e) ->
  sim t (run_insert_election cmd) (Ok tt) (add_election e cfg t).
Proof.
  intros He Hid Hc [[Htp Htl] [Hop Hol] [Hcp Hcl] Hopts Hcerts] Hseq. unfold run_insert_election. rewrite Hc, He.
  destruct (Hid) as [Hip _]. rewrite !plain_safe by done. cbn [orb].
  eapply sim_bind; [apply sim_run; [done|args|done|]|eapply sim_bind].
  - cbn [run_stmt]. rewrite nval_int by done. simpl. rewrite sval_id, !sval_plain by (done || lia). reflexivity.
  - apply insert_options_ok; [done|lia| |done].
    pose proof (slots_length (cfg_option_count cfg) BB_MAX_OPTIONS (cfg_options cfg)).
    unfold BB_MAX_OPTIONS, INT_MAX in *. lia.
  - by apply insert_eligible_ok.
Qed.

End Writes.
