(* ===== verification/BrainLogic.v ===== *)
(** * Reasoning about the handlers

    [hsim t m r t']: with the daemon's transaction open on tables [t], the
    handler code [m] returns [r] and leaves the transaction at [t'], unless a
    fault stopped it.  [osim t m r]: outside of a transaction, on committed
    tables [t], [m] returns [r] and changes nothing, unless the store stopped
    it with [BB_ERR_DB].  [owsim t m a t'] is the same for a write that owns
    its transaction: it commits [t'] whole or not at all. *)
From S2P Require Import Prelude CText Types Rows Sql Wire Server BrainDb Brain Printed DbLogic Store Commands.
Import Rows Sql Wire Server BrainDb Brain Store Printed.

Section Logic.
Context `{R : Runner}.

(** ** Transaction control *)

Lemma control_text s : is_control s = true -> has_line_break (sql_text s) = false.
Proof. by destruct s. Qed.

Lemma begin_ok w :
  match run SetTransaction (clean None, w) with
  | (r, (c', w')) => frame w w' /\ ((r = Ok tt /\ c' = clean (Some (w_tables w))) \/ faulty w r)
  end.
Proof.
  unfold run, bind, exec_stmt, db_socket_exec. cbn [clean c_failed]. rewrite control_text by done.
  assert (Hfr : frame w (with_tables (w_tables w) (with_faults (tail (w_faults w)) w)))
    by (split; try done; simpl; by intros ->).
  destruct (w_faults w) as [|[| | |late []] fs] eqn:Ef; simpl; try destruct late; simpl;
    (split; [exact Hfr|]); try (by left); right; (split; [by rewrite Ef|]); auto.
Qed.

(** A commit publishes the transaction, or fails; a deadlock abort publishes
    nothing, a lost answer may hide a commit. *)
Lemma commit_ok t w :
  match run Commit (clean (Some t), w) with
  | (r, (c', w')) =>
    w_lock w' = w_lock w /\ w_conn w' = w_conn w /\ w_opens w' = w_opens w /\
    (w_faults w = [] -> w_faults w' = []) /\
    ((r = Ok tt /\ w_tables w' = t) \/
     (faulty w r /\ (w_tables w' = w_tables w \/ (r = Err BB_ERR_DB /\ w_tables w' = t))))
  end.
Proof.
  unfold run, bind, exec_stmt, db_socket_exec. cbn [clean c_failed]. rewrite control_text by done.
  unfold faulty. destruct (w_faults w) as [|[| | |late []] fs] eqn:Ef; simpl; try destruct late; simpl;
    repeat (split; [done|]); try (by left); right; (split; [split; [done|]|]); auto.
Qed.

(** A rollback changes no committed data, whatever the connection's state. *)
Lemma rollback_frame c w : match run Rollback (c, w) with (_, (_, w')) => frame w w' end.
Proof.
  unfold run, bind, exec_stmt, db_socket_exec. destruct (c_failed c) as [f|]; [destruct f; simpl; done|].
  rewrite control_text by done.
  assert (Hfr : frame w (with_tables (w_tables w) (with_faults (tail (w_faults w)) w)))
    by (split; try done; simpl; by intros ->).
  destruct (w_faults w) as [|[| | |late []] fs] eqn:Ef; destruct (c_txn c); cbn -[take_reply];
    try destruct late; try destruct (take_reply _ _) as [[[] ?] ?]; cbn; exact Hfr.
Qed.

(** ** Judgments *)

Record hframe (w w' : world) : Prop := mkHFrame {
  hf_tables : w_tables w' = w_tables w;
  hf_lock : w_lock w' = w_lock w;
  hf_opens : w_opens w' = w_opens w;
  hf_faults : w_faults w = [] -> w_faults w' = [] }.

#[global] Instance hframe_preorder : PreOrder hframe.
Proof. split; [by intros w; split|]. intros x y z [] []; split; [congruence..|auto]. Qed.

Lemma frame_hframe w w' c : frame w w' -> hframe w (with_conn c w').
Proof. intros []. by split. Qed.

Lemma hframe_faulty {A} w w' (r : res A) : hframe w w' -> faulty w' r -> faulty w r.
Proof. intros [] [H1 H2]. split; [|done]. naive_solver. Qed.

Definition hsim {A} (t : tables) (m : prog world A) (r : res A) (t' : tables) : Prop :=
  forall w, w_conn w = Some (clean (Some t)) ->
  match m w with
  | (r', w') => hframe w w' /\ is_Some (w_conn w') /\
                ((r' = r /\ w_conn w' = Some (clean (Some t'))) \/ faulty w r')
  end.

(** The store answers every statement and every connect. *)
Definition healthy (w : world) : Prop := w_faults w = [] /\ w_opens w = [].

Definition stopped {A} (w : world) (r : res A) : Prop := ~ healthy w /\ r = Err BB_ERR_DB.

(** Between two requests: no transaction, and health is not lost by serving. *)
Record oframe (w w' : world) : Prop := mkOFrame {
  of_lock : w_lock w' = w_lock w;
  of_conn : w_conn w' = None;
  of_healthy : healthy w -> healthy w' }.

Definition osim {A} (t : tables) (m : prog world A) (r : res A) : Prop :=
  forall w, w_conn w = None -> w_tables w = t ->
  match m w with
  | (r', w') => oframe w w' /\ w_tables w' = t /\ (r' = r \/ stopped w r')
  end.

Definition owsim {A} (t : tables) (m : prog world A) (a : A) (t' : tables) : Prop :=
  forall w, w_conn w = None -> w_tables w = t ->
  match m w with
  | (r', w') => oframe w w' /\
      ((r' = Ok a /\ w_tables w' = t') \/ (stopped w r' /\ (w_tables w' = t \/ w_tables w' = t')))
  end.

(** ** Composition *)

Lemma hsim_ret {A} t (a : A) : hsim t (ret a) (Ok a) t.
Proof. intros w Hc. split; [reflexivity|]. split; [by rewrite Hc|]. by left. Qed.

Lemma hsim_throw {A} t e : hsim t (@throw _ A e) (Err e) t.
Proof. intros w Hc. split; [reflexivity|]. split; [by rewrite Hc|]. by left. Qed.

Lemma hsim_log t line : hsim t (log line) (Ok tt) t.
Proof. intros w Hc. split; [by split|]. split; [simpl; by rewrite Hc|]. by left. Qed.

Lemma hsim_bind {A B} t t1 t2 (m : prog world A) (k : A -> prog world B) a r :
  hsim t m (Ok a) t1 -> hsim t1 (k a) r t2 -> hsim t (bind m k) r t2.
Proof.
  intros Hm Hk w Hc. specialize (Hm w Hc). unfold bind.
  destruct (m w) as [[a'|e] w']; destruct Hm as (Hf & Hs & Hm).
  - destruct Hm as [[[= ->] Hc']|Hm]; [|by apply faulty_not_ok in Hm].
    specialize (Hk w' Hc'). destruct (k a w') as [r2 w2]. destruct Hk as (Hf2 & Hs2 & Hk).
    split; [by etrans|]. split; [done|].
    destruct Hk as [Hk|Hk]; [by left|right; by eapply hframe_faulty].
  - destruct Hm as [[[= ] _]|Hm]. split; [done|]. split; [done|]. right. by eapply faulty_bind.
Qed.

Lemma hsim_bind_err {A B} t t1 (m : prog world A) (k : A -> prog world B) e :
  hsim t m (Err e) t1 -> hsim t (bind m k) (Err e) t1.
Proof.
  intros Hm w Hc. specialize (Hm w Hc). unfold bind.
  destruct (m w) as [[a'|e'] w']; destruct Hm as (Hf & Hs & Hm).
  - destruct Hm as [[[= ] ?]|Hm]; by apply faulty_not_ok in Hm.
  - split; [done|]. split; [done|]. destruct Hm as [[[= ->] Hc']|Hm]; [by left|right; by eapply faulty_bind].
Qed.

Lemma oframe_trans w w' w'' : oframe w w' -> oframe w' w'' -> oframe w w''.
Proof. intros [] []. split; [congruence|done|auto]. Qed.

Lemma oframe_refl w : w_conn w = None -> oframe w w.
Proof. by split. Qed.

Lemma stopped_trans {A} w w' (r : res A) : oframe w w' -> stopped w' r -> stopped w r.
Proof. intros [] [H1 H2]. split; [|done]. tauto. Qed.

Lemma osim_ret {A} t (a : A) : osim t (ret a) (Ok a).
Proof. intros w Hc Ht. split; [by apply oframe_refl|]. auto. Qed.

Lemma osim_throw {A} t e : osim t (@throw _ A e) (Err e).
Proof. intros w Hc Ht. split; [by apply oframe_refl|]. auto. Qed.

Lemma osim_log t line : osim t (log line) (Ok tt).
Proof. intros w Hc Ht. split; [by split|]. auto. Qed.

Lemma osim_bind {A B} t (m : prog world A) (k : A -> prog world B) a r :
  osim t m (Ok a) -> osim t (k a) r -> osim t (bind m k) r.
Proof.
  intros Hm Hk w Hc Ht. specialize (Hm w Hc Ht). unfold bind.
  destruct (m w) as [[a'|e] w']; destruct Hm as (Hf & Ht' & Hm).
  - destruct Hm as [[= ->]|[_ Hm]]; [|done].
    specialize (Hk w' (of_conn _ _ Hf) Ht'). destruct (k a w') as [r2 w2]. destruct Hk as (Hf2 & Ht2 & Hk).
    split; [by eapply oframe_trans|]. split; [done|].
    destruct Hk as [Hk|Hk]; [by left|right; by eapply stopped_trans].
  - destruct Hm as [[= ]|[Hs [= ->]]]. split; [done|]. split; [done|]. right. by split.
Qed.

Lemma osim_bind_err {A B} t (m : prog world A) (k : A -> prog world B) e :
  osim t m (Err e) -> osim t (bind m k) (Err e).
Proof.
  intros Hm w Hc Ht. specialize (Hm w Hc Ht). unfold bind.
  destruct (m w) as [[a'|e'] w']; destruct Hm as (Hf & Ht' & Hm).
  - by destruct Hm as [[= ]|[_ Hm]].
  - split; [done|]. split; [done|]. destruct Hm as [[= ->]|[Hs [= ->]]]; [by left|right; by split].
Qed.

Lemma osim_owsim_bind {A B} t t' (m : prog world A) (k : A -> prog world B) a b :
  osim t m (Ok a) -> owsim t (k a) b t' -> owsim t (bind m k) b t'.
Proof.
  intros Hm Hk w Hc Ht. specialize (Hm w Hc Ht). unfold bind.
  destruct (m w) as [[a'|e] w']; destruct Hm as (Hf & Ht' & Hm).
  - destruct Hm as [[= ->]|[_ Hm]]; [|done].
    specialize (Hk w' (of_conn _ _ Hf) Ht'). destruct (k a w') as [r2 w2]. destruct Hk as (Hf2 & Hk).
    split; [by eapply oframe_trans|]. destruct Hk as [Hk|[Hk Hk']]; [by left|right].
    split; [by eapply stopped_trans|done].
  - destruct Hm as [[= ]|[Hs [= ->]]]. split; [done|]. right. split; [by split|]. by left.
Qed.

Lemma owsim_ret {A B} t t' (m : prog world A) a (b : B) :
  owsim t m a t' -> owsim t (m ;! ret b) b t'.
Proof.
  intros Hm w Hc Ht. specialize (Hm w Hc Ht). unfold bind.
  destruct (m w) as [[a'|e] w']; destruct Hm as (Hf & Hm); (split; [done|]).
  - destruct Hm as [[_ Hm]|[[_ [= ]] _]]. by left.
  - destruct Hm as [[[= ] _]|[[Hs [= ->]] Hm]]. right. by split.
Qed.

(** ** txn.c *)

Lemma bb_db_begin_ok w : w_conn w = None ->
  match bb_db_begin w with
  | (Ok _, w') => w_conn w' = Some (clean (Some (w_tables w))) /\ w_tables w' = w_tables w /\
                  w_lock w' = w_lock w /\ (healthy w -> healthy w')
  | (Err e, w') => oframe w w' /\ w_tables w' = w_tables w /\ ~ healthy w /\
                   (e = BB_ERR_RETRY \/ e = BB_ERR_DB)
  end.
Proof.
  intros Hc. unfold bb_db_begin. rewrite Hc.
  assert (Hof : oframe w (with_opens (tail (w_opens w)) w)).
  { split; [done|done|]. intros [H1 H2]. split; [done|]. simpl. by rewrite H2. }
  unfold db_socket_open. set (w1 := with_opens (tail (w_opens w)) w) in *.
  destruct (match w_opens w with b :: _ => b | [] => true end) eqn:Eo.
  - pose proof (begin_ok w1) as Hb.
    change (mkConn None None []) with (clean None). destruct (run SetTransaction (clean None, w1)) as [[[]|e] [c' w']];
      destruct Hb as [Hf Hb].
    + destruct Hb as [[_ ->]|Hb]; [|by apply faulty_not_ok in Hb]. destruct Hf. simpl.
      do 3 (split; [done|]). intros Hh. apply Hof in Hh as [H1 H2]. split; simpl; [auto|congruence].
    + destruct Hb as [[[= ] _]|[Hn Hr]]. destruct Hf. split; [|split; [done|]].
      * eapply oframe_trans; [exact Hof|]. split; [done|etrans; [eassumption|exact Hc]|]. intros [H1 H2]. split; [auto|congruence].
      * split; [intros [H1 H2]; by apply Hn|]. destruct Hr as [[= ->]|[= ->]]; auto.
  - split; [done|]. split; [done|]. split; [|auto]. intros [_ H2]. by rewrite H2 in Eo.
Qed.

Lemma bb_db_rollback_ok w : is_Some (w_conn w) ->
  w_conn (bb_db_rollback w) = None /\ w_tables (bb_db_rollback w) = w_tables w /\
  w_lock (bb_db_rollback w) = w_lock w /\ (healthy w -> healthy (bb_db_rollback w)).
Proof.
  intros [c Hc]. unfold bb_db_rollback. rewrite Hc. pose proof (rollback_frame c w) as Hf.
  destruct (run Rollback (c, w)) as [r [c' w']]. destruct Hf. simpl. do 3 (split; [done|]).
  intros [H1 H2]. split; simpl; [auto|congruence].
Qed.

(** ** db_exec *)

Lemma db_exec_in_txn t cmd out r t' : sim t (run_op cmd out) r t' -> hsim t (db_exec cmd out) r t'.
Proof.
  intros Hm w Hc. unfold db_exec. cbv zeta.
  change (w_conn (bb_log (log_line cmd) w)) with (w_conn w). rewrite Hc.
  specialize (Hm (bb_log (log_line cmd) w)). destruct (run_op cmd out _) as [r' [c' w']]. destruct Hm as [Hf Hm].
  assert (Hf' : hframe w (with_conn (Some c') w')).
  { destruct Hf. by split. }
  split; [done|]. split; [done|]. destruct Hm as [[-> ->]|Hm]; [by left|right; done].
Qed.

Lemma db_exec_read_in_txn t cmd out r : rsim t (run_op cmd out) r -> hsim t (db_exec cmd out) r t.
Proof. intros H. by apply db_exec_in_txn, rsim_sim. Qed.

Lemma open_spec w : exists o, db_socket_open w = (o, with_opens (tail (w_opens w)) w) /\
  ((o = Some (clean None)) \/ (o = None /\ w_opens w <> [])).
Proof.
  unfold db_socket_open. destruct (w_opens w) as [|[] l] eqn:E; eexists; (split; [reflexivity|]); auto.
Qed.

Lemma not_healthy_faults w : w_faults w <> [] -> ~ healthy w.
Proof. by intros H []. Qed.
Lemma not_healthy_opens w : w_opens w <> [] -> ~ healthy w.
Proof. by intros H []. Qed.

Lemma open_oframe w : w_conn w = None -> oframe w (with_opens (tail (w_opens w)) w).
Proof. intros. split; [done|done|]. intros [H1 H2]. split; [done|]. simpl. by rewrite H2. Qed.

Lemma frame_oframe w w' : frame w w' -> w_conn w = None -> oframe w w'.
Proof. intros [] Hc. split; [done|congruence|]. intros [H1 H2]. split; [auto|congruence]. Qed.

(** One attempt of a read: the answer, or a retry or failure the store caused. *)
Lemma one_shot_read t cmd a : rsim t (run_op cmd true) (Ok a) ->
  forall w, w_conn w = None -> w_tables w = t ->
  match one_shot_attempt cmd true false w with
  | (r', w') => oframe w w' /\ w_tables w' = t /\
                (r' = Ok a \/ (~ healthy w /\ (r' = Err BB_ERR_RETRY \/ r' = Err BB_ERR_DB)))
  end.
Proof.
  intros Hm w Hc Ht. unfold one_shot_attempt. destruct (open_spec w) as (o & -> & Ho).
  pose proof (open_oframe w Hc) as Hof. set (w1 := with_opens (tail (w_opens w)) w) in *.
  destruct Ho as [->|[-> Ho]].
  - specialize (Hm None w1 Ht). destruct (run_op cmd true (clean None, w1)) as [r' [c' w']].
    destruct Hm as [Hf Hm]. pose proof (frame_oframe _ _ Hf Hc) as Hof2.
    split; [by eapply oframe_trans|]. split; [by rewrite (fr_tables _ _ Hf)|].
    destruct Hm as [[-> _]|[Hn Hr]]; [by left|right]. split; [|done]. by apply (not_healthy_faults w).
  - split; [done|]. split; [done|]. right. split; [by apply (not_healthy_opens w)|]. by right.
Qed.

Lemma attempts_S n cmd out is_write w : attempts (S n) cmd out is_write w =
  match one_shot_attempt cmd out is_write w with
  | (Err BB_ERR_RETRY, w1) => attempts n cmd out is_write w1
  | r => r
  end.
Proof. done. Qed.

Lemma attempts_read t cmd a n : rsim t (run_op cmd true) (Ok a) ->
  forall w, w_conn w = None -> w_tables w = t ->
  match attempts (S n) cmd true false w with
  | (r', w') => oframe w w' /\ w_tables w' = t /\ (r' = Ok a \/ stopped w r')
  end.
Proof.
  intros Hm. induction n as [|n IH]; intros w Hc Ht; pose proof (one_shot_read _ _ _ Hm w Hc Ht) as H;
    rewrite attempts_S; destruct (one_shot_attempt cmd true false w) as [r1 w1];
    destruct H as (Hf & Ht1 & [->|[Hn [->| ->]]]); try (unfold stopped; auto; fail).
  { cbn [attempts]. unfold stopped. auto. }
  specialize (IH w1 (of_conn _ _ Hf) Ht1). destruct (attempts (S n) cmd true false w1) as [r' w'].
  destruct IH as (Hf' & Ht' & Hr). split; [by eapply oframe_trans|]. split; [done|].
  destruct Hr as [->|Hr]; [by left|right; by eapply stopped_trans].
Qed.

Lemma db_exec_read t cmd a : op_is_write (cmd_op cmd) = false -> rsim t (run_op cmd true) (Ok a) ->
  osim t (db_exec cmd true) (Ok a).
Proof.
  intros Hw Hm w Hc Ht. unfold db_exec. cbv zeta.
  change (w_conn (bb_log (log_line cmd) w)) with (w_conn w). rewrite Hc, Hw.
  pose proof (attempts_read t cmd a 2 Hm (bb_log (log_line cmd) w) Hc Ht) as H.
  unfold SELF_RETRY_ATTEMPTS. destruct (attempts 3 cmd true false _) as [r' w'].
  destruct H as ([] & Ht' & Hr). split; [by split|]. by split.
Qed.

(** One attempt of a write: all of it is committed, or none. *)
Lemma one_shot_write t cmd out a t' : sim t (run_op cmd out) (Ok a) t' ->
  forall w, w_conn w = None -> w_tables w = t ->
  match one_shot_attempt cmd out true w with
  | (r', w') => oframe w w' /\
      ((r' = Ok a /\ w_tables w' = t') \/
       (~ healthy w /\ ((r' = Err BB_ERR_RETRY /\ w_tables w' = t) \/
                        (r' = Err BB_ERR_DB /\ (w_tables w' = t \/ w_tables w' = t')))))
  end.
Proof.
  intros Hm w Hc Ht. unfold one_shot_attempt. destruct (open_spec w) as (o & -> & Ho).
  pose proof (open_oframe w Hc) as Hof. set (w1 := with_opens (tail (w_opens w)) w) in *.
  destruct Ho as [->|[-> Ho]].
  2: { split; [done|]. right. split; [by apply (not_healthy_opens w)|]. right. auto. }
  assert (Hrun : match (run SetTransaction ;! run_op cmd out) (clean None, w1) with
    | (r', (c', w')) => frame w1 w' /\ ((r' = Ok a /\ c' = clean (Some t')) \/ faulty w1 r') end).
  { pose proof (begin_ok w1) as Hb. unfold bind at 1.
    destruct (run SetTransaction (clean None, w1)) as [[[]|e] [c2 w2]]; destruct Hb as [Hf Hb].
    - destruct Hb as [[_ ->]|Hb]; [|by apply faulty_not_ok in Hb].
      change (w_tables w1) with (w_tables w). rewrite Ht. specialize (Hm w2).
      destruct (run_op cmd out _) as [r3 [c3 w3]]. destruct Hm as [Hf3 Hm]. split; [by etrans|].
      destruct Hm as [Hm|Hm]; [by left|right; by eapply frame_faulty].
    - destruct Hb as [[[= ] _]|Hb]. split; [done|]. right. by eapply faulty_bind. }
  destruct ((run SetTransaction ;! run_op cmd out) (clean None, w1)) as [[a'|e] [c2 w2]];
    destruct Hrun as [Hf Hr]; pose proof (frame_oframe _ _ Hf Hc) as Hof2.
  - destruct Hr as [[[= ->] ->]|Hr]; [|by apply faulty_not_ok in Hr].
    pose proof (commit_ok t' w2) as Hcm. unfold bind.
    destruct (run Commit (clean (Some t'), w2)) as [[[]|e] [c3 w3]];
      destruct Hcm as (Hl & Hcn & Hop & Hfl & Hcm).
    all: assert (Hof3 : oframe w w3) by (eapply oframe_trans; [exact Hof|]; eapply oframe_trans;
           [exact Hof2|]; split; [done|rewrite Hcn; apply Hof2|intros [H1 H2]; split; [auto|congruence]]).
    + destruct Hcm as [[_ Ht3]|[[_ [H|H]] _]]; [|done|done]. split; [done|]. by left.
    + assert (Ht2 : w_tables w2 = t) by (rewrite (fr_tables _ _ Hf); done).
      destruct Hcm as [[[= ] _]|[[Hn Hr] Htb]]. split; [done|]. right.
      split; [intros Hh; apply Hn; by apply Hof2, Hof|].
      destruct Hr as [[= ->]|[= ->]]; [left|right]; (split; [done|]).
      * destruct Htb as [Htb|[[= ] _]]. congruence.
      * destruct Htb as [Htb|[_ Htb]]; [left; congruence|by right].
  - destruct Hr as [[[= ] _]|[Hn Hr]]. assert (Hnh : ~ healthy w) by (intros Hh; apply Hn; by apply Hof).
    assert (Ht2 : w_tables w2 = t) by (rewrite (fr_tables _ _ Hf); done).
    destruct Hr as [[= ->]|[= ->]].
    + split; [by eapply oframe_trans|]. right. split; [done|]. left. done.
    + pose proof (rollback_frame c2 w2) as Hrb. destruct (run Rollback (c2, w2)) as [r3 [c3 w3]].
      split; [eapply oframe_trans; [exact Hof|]; eapply oframe_trans; [exact Hof2|];
              apply frame_oframe; [done|apply Hof2]|].
      right. split; [done|]. right. split; [done|]. left. by rewrite (fr_tables _ _ Hrb).
Qed.

Lemma attempts_write t cmd out a t' n : sim t (run_op cmd out) (Ok a) t' ->
  owsim t (attempts (S n) cmd out true) a t'.
Proof.
  intros Hm. induction n as [|n IH]; intros w Hc Ht; pose proof (one_shot_write _ _ _ _ _ Hm w Hc Ht) as H;
    rewrite attempts_S; destruct (one_shot_attempt cmd out true w) as [r1 w1];
    destruct H as (Hf & [[-> H]|[Hn [[-> H]|[-> H]]]]); try (unfold stopped; auto 10; fail).
  { cbn [attempts]. unfold stopped. auto 10. }
  specialize (IH w1 (of_conn _ _ Hf) H). destruct (attempts (S n) cmd out true w1) as [r' w'].
  destruct IH as (Hf' & Hr). split; [by eapply oframe_trans|].
  destruct Hr as [Hr|[Hr Hr']]; [by left|right]. split; [by eapply stopped_trans|done].
Qed.

Lemma db_exec_write t cmd out a t' : op_is_write (cmd_op cmd) = true -> sim t (run_op cmd out) (Ok a) t' ->
  owsim t (db_exec cmd out) a t'.
Proof.
  intros Hw Hm w Hc Ht. unfold db_exec. cbv zeta.
  change (w_conn (bb_log (log_line cmd) w)) with (w_conn w). rewrite Hc, Hw.
  pose proof (attempts_write t cmd out a t' 2 Hm (bb_log (log_line cmd) w) Hc Ht) as H.
  unfold SELF_RETRY_ATTEMPTS. destruct (attempts 3 cmd out true _) as [r' w'].
  destruct H as ([] & Hr). split; [by split|]. done.
Qed.

End Logic.
