(* ===== verification/Record.v ===== *)
(** * Casting and updating a ballot (UC-3, UC-4)

    [record_spec] is what [bb_record_ballot] promises of the stored tables;
    the handler, its transaction and its retry loop implement it. *)
From S2P Require Import Prelude CText Types Rows Sql Wire Server BrainDb Brain Printed DbLogic Store Commands BrainLogic.
Import Rows Sql Wire Server BrainDb Brain Store Printed.

Module Record.
Section Record.
Context `{R : Runner}.

(** ** The promise *)

Definition next_version (t : tables) (e c : cstr) : Z :=
  match owner_of t e c with Some o => i32 (wr_ver o + 1) | None => 1%Z end.

(** The tables after an accepted ballot. *)
Definition record_effect (t : tables) (e c n h : cstr) (opt ver : Z) : tables :=
  let t1 := add_ballot e h opt ver 0 t in
  let t2 := match owner_of t e c with
            | Some o => match ballot_of t e (wr_hash o) with
                        | Some r => add_ballot e (wr_hash o) (br_opt r) (br_ver r) 1 (drop_ballot e (wr_hash o) t1)
                        | None => t1
                        end
            | None => t1
            end in
  add_nonce e n (put_owner e c h ver t2).

Definition record_spec (t : tables) (e : cstr) (b : bb_ballot_t) : res bb_receipt_t * tables :=
  match find_election t e with
  | None => (Err BB_ERR_NOT_FOUND, t)
  | Some r =>
    match state_of r with
    | BB_STATE_CLOSED | BB_STATE_PUBLISHED => (Err BB_ERR_CLOSED, t)
    | BB_STATE_DRAFT => (Err BB_ERR_NOT_OPEN, t)
    | BB_STATE_OPEN =>
      if bool_decide (bl_cert_name b ∈ certs_of t e) then
        if (bb_decrypt_ballot b <? Z.of_nat (length (options_of t e)))%Z then
          match nonce_row_of t e (bl_nonce b) with
          | Some _ => (Err BB_ERR_REPLAY, t)
          | None =>
            let ver := next_version t e (bl_cert_name b) in
            let receipt := bb_issue_receipt b ver in
            (Ok receipt,
             record_effect t e (bl_cert_name b) (bl_nonce b) (rc_hash receipt) (bb_decrypt_ballot b) ver)
          end
        else (Err BB_ERR_BAD_OPTION, t)
      else (Err BB_ERR_NOT_ELIGIBLE, t)
    end
  end.

(** A receipt about to be issued (the nonce is unspent) is not already in the
    election: what a collision-free hash would guarantee. *)
Definition fresh_receipt (t : tables) (e : cstr) (b : bb_ballot_t) : Prop :=
  nonce_row_of t e (bl_nonce b) = None ->
  ballot_of t e (receipt_hash (bl_nonce b) (next_version t e (bl_cert_name b))) = None.

(** A store that still has version numbers to give out. *)
Definition version_room (t : tables) : Prop := (Z.of_nat (length (t_nonce t)) < INT_MAX)%Z.

(** ** Receipts *)

Lemma hex_digit_ok n : hex_char (hex_digit n) = true.
Proof.
  unfold hex_digit. destruct ($"0123456789abcdef" !! Z.to_nat n) as [c|] eqn:E; [|done].
  apply list_elem_of_lookup_2 in E. unfold hex_char. apply existsb_exists. exists c. split.
  - by apply list_elem_of_In.
  - unfold ceqb. by apply bool_decide_eq_true_2.
Qed.

Lemma hash_loop_ok n s : length (hash_loop n s) = n /\ Forall (fun c => hex_char c = true) (hash_loop n s).
Proof.
  revert s; induction n as [|n IH]; intros s; [done|]. cbn [hash_loop length].
  destruct (IH (u32 (s * 1103515245 + 12345))) as [-> HF]. split; [done|]. constructor; [apply hex_digit_ok|done].
Qed.

Lemma receipt_hash_ok n v : hash_ok (receipt_hash n v).
Proof. split; apply (hash_loop_ok 64). Qed.

(** ** The reads, as the handlers issue them *)

Context (t : tables) (Hwf : wf t) (e : cstr) (He : id_ok e).

Lemma trunc_id_ok : trunc BB_ID_LEN e = e.
Proof. destruct He. apply trunc_id. unfold BB_ID_LEN. lia. Qed.

Lemma trunc_cert c : cert_ok c -> trunc BB_CERT_LEN c = c.
Proof. intros [[_ Hl] _]. apply trunc_id. unfold BB_CERT_LEN. lia. Qed.

Lemma trunc_nonce n : nonce_ok n -> trunc BB_NONCE_LEN n = n.
Proof. intros [[_ Hl] _]. apply trunc_id. unfold BB_NONCE_LEN. lia. Qed.

Lemma trunc_hash h : hash_ok h -> trunc BB_HASH_LEN h = h.
Proof. intros [Hl _]. apply trunc_id. unfold BB_HASH_LEN. lia. Qed.

Definition load_result : res bb_election_t :=
  match find_election t e with Some r => Ok (election_view t r) | None => Err BB_ERR_NOT_FOUND end.

Lemma get_cmd : rsim t (run_op (new_cmd BB_DB_GET_ELECTION e) true) (Ok (election_result t e)).
Proof. apply get_election_ok; [done|done|]. apply trunc_id_ok. Qed.

Lemma load_h : hsim t (load_election e) load_result t.
Proof.
  eapply hsim_bind; [apply db_exec_read_in_txn, get_cmd|]. unfold election_result, load_result.
  destruct (find_election t e); [apply hsim_ret|apply hsim_throw].
Qed.

Lemma load_o : osim t (load_election e) load_result.
Proof.
  eapply osim_bind; [apply db_exec_read; [done|apply get_cmd]|]. unfold election_result, load_result.
  destruct (find_election t e); [apply osim_ret|apply osim_throw].
Qed.

Lemma find_id r : find_election t e = Some r -> er_id r = e.
Proof.
  clear He. intros [Hr _]%head_filter_Some. done. Qed.

(** The array scan is membership in the stored list. *)
Lemma eligibility_view r c : find_election t e = Some r ->
  bb_check_eligibility (election_view t r) c = bool_decide (c ∈ certs_of t e).
Proof.
  clear He.
  intros Hr. unfold bb_check_eligibility, election_view. cbn [el_eligible el_eligible_count].
  rewrite (find_id r Hr). pose proof (wf_cert_room _ Hwf e) as Hroom.
  unfold slots, pad. rewrite Z.min_l, Nat2Z.id, take_app_length by (unfold BB_MAX_VOTERS in *; lia).
  apply eq_bool_prop_intro. rewrite bool_decide_spec. rewrite Is_true_true, existsb_exists.
  split.
  - intros (x & Hx & Hc). apply streq_true in Hc as ->. by apply list_elem_of_In.
  - intros Hc. exists c. split; [by apply list_elem_of_In|apply streq_refl].
Qed.

Lemma cert_of_ok c : c ∈ certs_of t e -> cert_ok c.
Proof.
  clear He.
  intros (r & -> & [_ Hr]%list_elem_of_filter)%list_elem_of_fmap.
  pose proof (wf_eligible _ Hwf) as HF. rewrite Forall_forall in HF. by apply HF.
Qed.

Lemma hsim_log_list tag i es : hsim t (log_list tag i es) (Ok tt) t.
Proof. revert i; induction es as [|x es IH]; intros i; [apply hsim_ret|]. eapply hsim_bind; [apply hsim_log|apply IH]. Qed.

Lemma osim_log_list tag i es : osim t (log_list tag i es) (Ok tt).
Proof. revert i; induction es as [|x es IH]; intros i; [apply osim_ret|]. eapply osim_bind; [apply osim_log|apply IH]. Qed.

(** ** The row the owner table points at *)

Lemma prior_row c o : owner_of t e c = Some o ->
  exists r, ballot_of t e (wr_hash o) = Some r /\ br_sup r = 0%Z /\ br_ver r = wr_ver o.
Proof.
  clear He.
  intros Ho. destruct (owner_of_ok _ Hwf _ _ _ Ho) as (_ & Hoe & _ & Hin).
  assert (Hk : owner_key o ∈ map live_key (filter (fun r => br_sup r = 0%Z) (t_ballot t))).
  { rewrite (wf_live _ Hwf). apply list_elem_of_fmap. by exists o. }
  apply list_elem_of_fmap in Hk as (r & Hrk & [Hsup Hr]%list_elem_of_filter).
  unfold owner_key, live_key in Hrk. injection Hrk as Hre Hrh Hrv. exists r. split; [|done].
  pose proof (ballot_filter _ Hwf e (wr_hash o)) as Hf.
  assert (Hr' : r ∈ filter (fun r => br_eid r = e /\ br_hash r = wr_hash o) (t_ballot t))
    by (apply list_elem_of_filter; split; [split; congruence|done]).
  rewrite Hf in Hr'. destruct (ballot_of t e (wr_hash o)); [|by apply not_elem_of_nil in Hr'].
  apply list_elem_of_singleton in Hr'. by subst.
Qed.

Lemma next_version_ok c : version_room t -> int_ok (next_version t e c) /\
  (1 <= next_version t e c <= Z.of_nat (length (t_nonce t)) + 1)%Z /\
  (forall o, owner_of t e c = Some o -> next_version t e c = (wr_ver o + 1)%Z).
Proof.
  clear He.
  intros Hroom. unfold next_version, int_ok, version_room in *.
  destruct (owner_of t e c) as [o|] eqn:Ho; [|split; [unfold INT_MAX; lia|split; [lia|done]]].
  destruct (owner_of_ok _ Hwf _ _ _ Ho) as ((_ & _ & _ & Hv) & _ & _ & Hin).
  pose proof (wf_versions _ Hwf) as HF. rewrite Forall_forall in HF. specialize (HF o Hin).
  unfold int_ok in Hv. simpl in HF. rewrite i32_id by (unfold INT_MAX in *; lia).
  split; [lia|]. split; [lia|]. by intros ? [= ->].
Qed.

(** ** The locked body *)

Context (b : bb_ballot_t) (Hn : nonce_ok (bl_nonce b)).

Lemma payload_option_ok : (0 <= bb_decrypt_ballot b)%Z.
Proof.
  unfold bb_decrypt_ballot. case_match; [|lia]. case_match; [lia|].
  match goal with |- (0 <= code ?c)%Z => pose proof (code_range c); lia end.
Qed.

Lemma wrote_ok t1 (m : prog (conn * world) unit) t2 : sim t1 m (Ok tt) t2 -> sim t1 (wrote m) (Ok zero_db_result) t2.
Proof. intros Hm. eapply sim_bind; [done|apply sim_ret]. Qed.

Lemma seen_h : hsim t (db_exec (cmd_with_nonce (bl_nonce b) (new_cmd BB_DB_NONCE_SEEN e)) true)
  (Ok (set_res_found (if nonce_row_of t e (bl_nonce b) then true else false) zero_db_result)) t.
Proof.
  pose proof (nonce_seen_ok t Hwf e He (cmd_with_nonce (bl_nonce b) (new_cmd BB_DB_NONCE_SEEN e))) as H.
  cbn [cmd_election_id cmd_nonce cmd_with_nonce new_cmd] in H. rewrite trunc_nonce in H by done.
  apply db_exec_read_in_txn. apply H; [apply trunc_id_ok|done].
Qed.

Lemma prior_cmd c : cert_ok c -> rsim t (run_op (cmd_with_cert c (new_cmd BB_DB_GET_PRIOR_BALLOT e)) true)
  (Ok (match owner_of t e c with Some o => prior_view o | None => zero_db_result end)).
Proof.
  intros Hc. pose proof (get_prior_ok t Hwf e He (cmd_with_cert c (new_cmd BB_DB_GET_PRIOR_BALLOT e))) as H.
  cbn [cmd_election_id cmd_cert_name cmd_with_cert new_cmd] in H. rewrite trunc_cert in H by done.
  apply H; [apply trunc_id_ok|done].
Qed.

Lemma append_h h opt ver : hash_ok h -> int_ok opt -> int_ok ver ->
  hsim t (db_exec (cmd_with_row (mkHashRow (trunc BB_HASH_LEN h) opt ver 0) (new_cmd BB_DB_APPEND_BALLOT e)) false)
    (Ok zero_db_result) (add_ballot e h opt ver 0 t).
Proof.
  intros Hh Ho Hv. rewrite trunc_hash by done. apply db_exec_in_txn, wrote_ok.
  eapply (append_ok t _ e (mkHashRow h opt ver 0)); try done. apply trunc_id_ok.
Qed.

Lemma owner_h t1 c h ver : cert_ok c -> hash_ok h -> int_ok ver ->
  hsim t1 (db_exec (cmd_with_version ver (cmd_with_hash h (cmd_with_cert c (new_cmd BB_DB_SET_OWNER e)))) false)
    (Ok zero_db_result) (put_owner e c h ver t1).
Proof.
  intros Hc Hh Hv. apply db_exec_in_txn, wrote_ok.
  pose proof (set_owner_ok t1 (cmd_with_version ver (cmd_with_hash h (cmd_with_cert c (new_cmd BB_DB_SET_OWNER e)))) e) as H.
  cbn [cmd_election_id cmd_cert_name cmd_hash cmd_version cmd_with_cert cmd_with_hash cmd_with_version new_cmd] in H.
  rewrite trunc_cert, trunc_hash in H by done. apply H; [apply trunc_id_ok|done..].
Qed.

Lemma nonce_h t1 : hsim t1 (db_exec (cmd_with_nonce (bl_nonce b) (new_cmd BB_DB_NONCE_MARK e)) false)
  (Ok zero_db_result) (add_nonce e (bl_nonce b) t1).
Proof.
  apply db_exec_in_txn, wrote_ok.
  pose proof (nonce_mark_ok t1 (cmd_with_nonce (bl_nonce b) (new_cmd BB_DB_NONCE_MARK e)) e) as H.
  cbn [cmd_election_id cmd_nonce cmd_with_nonce new_cmd] in H. rewrite trunc_nonce in H by done.
  apply H; [apply trunc_id_ok|done..].
Qed.

(** Superseding the prior ballot, behind the append of the new one. *)
Lemma mark_h c o r h opt ver : owner_of t e c = Some o -> ballot_of t e (wr_hash o) = Some r ->
  ballot_of t e h = None ->
  let t1 := add_ballot e h opt ver 0 t in
  hsim t1 (db_exec (cmd_with_hash (wr_hash o) (new_cmd BB_DB_MARK_SUPERSEDED e)) false)
    (Ok zero_db_result) (add_ballot e (wr_hash o) (br_opt r) (br_ver r) 1 (drop_ballot e (wr_hash o) t1)).
Proof.
  intros Ho Hr Hfresh t1. destruct (owner_of_ok _ Hwf _ _ _ Ho) as ((_ & _ & Hh & _) & _).
  apply db_exec_in_txn, wrote_ok.
  pose proof (mark_ok t1 (cmd_with_hash (wr_hash o) (new_cmd BB_DB_MARK_SUPERSEDED e)) e r) as H.
  cbn [cmd_election_id cmd_hash cmd_with_hash new_cmd] in H. rewrite trunc_hash in H by done.
  apply H; [apply trunc_id_ok|done|done|by apply (ballot_of_ok _ Hwf _ _ _ Hr)|].
  apply Permutation_singleton_r. subst t1. cbn [add_ballot t_ballot set_ballot].
  rewrite place_perm, filter_cons_False.
  - by rewrite ballot_filter, Hr.
  - cbn [br_eid br_hash]. intros [_ Heq]. congruence.
Qed.

Context (Hfresh : fresh_receipt t e b) (Hroom : version_room t).

Lemma record_locked_ok :
  hsim t (record_ballot_locked e b) (fst (record_spec t e b)) (snd (record_spec t e b)).
Proof.
  unfold record_ballot_locked, record_spec. pose proof load_h as Hload. unfold load_result in Hload.
  destruct (find_election t e) as [r|] eqn:Hr; [|by apply hsim_bind_err].
  eapply hsim_bind; [exact Hload|]. cbn [el_state election_view].
  destruct (state_of r); try apply hsim_throw. rewrite (eligibility_view r) by done.
  destruct (decide (bl_cert_name b ∈ certs_of t e)) as [Hin|Hin];
    [rewrite bool_decide_eq_true_2 by done|rewrite bool_decide_eq_false_2 by done]; cbn [negb].
  2: { eapply hsim_bind; [|apply hsim_throw]. eapply hsim_bind; [apply hsim_log|apply hsim_log_list]. }
  eapply hsim_bind; [apply hsim_log|]. cbv zeta. cbn [el_option_count election_view]. rewrite (find_id r) by done.
  rewrite (proj2 (Z.ltb_ge _ _)) by apply payload_option_ok. rewrite orb_false_l.
  destruct (Z.ltb_spec (bb_decrypt_ballot b) (Z.of_nat (length (options_of t e)))) as [Hopt|Hopt];
    [rewrite (proj2 (Z.leb_gt _ _)) by done|rewrite (proj2 (Z.leb_le _ _)) by done; apply hsim_throw].
  eapply hsim_bind; [apply seen_h|]. destruct (nonce_row_of t e (bl_nonce b)) eqn:Hnr; [apply hsim_throw|].
  pose proof (cert_of_ok _ Hin) as Hc. cbn [res_found set_res_found].
  eapply hsim_bind; [by apply db_exec_read_in_txn, prior_cmd|].
  assert (Hv : (if res_found (match owner_of t e (bl_cert_name b) with
      Some o => prior_view o | None => zero_db_result end) then
      i32 (bh_version (res_row (match owner_of t e (bl_cert_name b) with
        Some o => prior_view o | None => zero_db_result end)) + 1) else 1%Z) =
      next_version t e (bl_cert_name b))
    by (unfold next_version; by destruct (owner_of t e (bl_cert_name b))).
  rewrite Hv. clear Hv. destruct (next_version_ok (bl_cert_name b) Hroom) as (Hver & _ & _).
  pose proof (Hfresh Hnr) as Hfr. set (ver := next_version t e (bl_cert_name b)) in *.
  pose proof (receipt_hash_ok (bl_nonce b) ver) as Hh. set (h := receipt_hash (bl_nonce b) ver) in *.
  assert (Hopt_ok : int_ok (bb_decrypt_ballot b)).
  { pose proof payload_option_ok. pose proof (wf_option_room _ Hwf e). unfold int_ok, INT_MAX, BB_MAX_OPTIONS in *. lia. }
  eapply hsim_bind; [apply hsim_log|]. cbn [rc_hash bb_issue_receipt fst snd]. fold h.
  eapply hsim_bind; [by apply append_h|].
  unfold record_effect. destruct (owner_of t e (bl_cert_name b)) as [o|] eqn:Ho.
  - destruct (prior_row _ _ Ho) as (pr & Hpr & _). rewrite Hpr. cbn [res_found prior_view set_res_found].
    eapply hsim_bind; [eapply hsim_bind; [by eapply mark_h|apply hsim_ret]|].
    eapply hsim_bind; [by apply owner_h|]. eapply hsim_bind; [apply nonce_h|]. apply hsim_ret.
  - cbn [res_found zero_db_result]. eapply hsim_bind; [apply hsim_ret|].
    eapply hsim_bind; [by apply owner_h|]. eapply hsim_bind; [apply nonce_h|]. apply hsim_ret.
Qed.

(** ** The transaction and its retries *)

(** How the loop may end: as promised, or stopped by the store, with the
    tables as they were or (a commit whose answer was lost) as promised. *)
Definition record_outcome (bad : Prop) (r : res bb_receipt_t) (t' : tables) : Prop :=
  (r = fst (record_spec t e b) /\ t' = snd (record_spec t e b)) \/
  (bad /\ (r = Err BB_ERR_DB \/ r = Err BB_ERR_RETRY) /\
   (t' = t \/ (r = Err BB_ERR_DB /\ t' = snd (record_spec t e b)))).

Lemma record_spec_err x : fst (record_spec t e b) = Err x -> snd (record_spec t e b) = t /\ x <> BB_ERR_RETRY /\ x <> BB_OK.
Proof. unfold record_spec. repeat case_match; simpl; intros [= <-]; done. Qed.

Lemma record_loop_ok (bad : Prop) n r0 w : w_conn w = None -> w_tables w = t -> (~ healthy w -> bad) ->
  (n = O -> bad /\ (r0 = Err BB_ERR_DB \/ r0 = Err BB_ERR_RETRY)) ->
  match record_loop n r0 e b w with
  | (r, w') => oframe w w' /\ record_outcome bad r (w_tables w')
  end.
Proof.
  revert r0 w; induction n as [|n IH]; intros r0 w Hc Ht Hbad H0.
  { destruct (H0 eq_refl) as [Hb Hr]. simpl. split; [by apply oframe_refl|]. right. auto. }
  cbn [record_loop]. pose proof (bb_db_begin_ok w Hc) as Hb.
  destruct (bb_db_begin w) as [[[]|x] w1].
  2: { destruct Hb as (Hof & Ht1 & Hn1 & Hx). split; [done|]. right. split; [auto|].
       split; [by destruct Hx as [->| ->]; auto|]. left. congruence. }
  destruct Hb as (Hc1 & Ht1 & Hl1 & Hh1). rewrite Ht in Hc1.
  pose proof (record_locked_ok w1 Hc1) as Hrec.
  assert (Hretry : forall w2, w_conn w2 = None -> w_tables w2 = t -> w_lock w2 = w_lock w ->
    (healthy w -> healthy w2) -> ~ healthy w ->
    match record_loop n (Err BB_ERR_RETRY) e b w2 with
    | (r, w') => oframe w w' /\ record_outcome bad r (w_tables w') end).
  { intros w2 Hc2 Ht2 Hl2 Hh2 Hn2. specialize (IH (Err BB_ERR_RETRY) w2 Hc2 Ht2 ltac:(auto) ltac:(auto)).
    destruct (record_loop n _ e b w2) as [r w']. destruct IH as [[] Ho]. split; [|done].
    split; [congruence|done|auto]. }
  destruct (record_ballot_locked e b w1) as [r2 w2]. destruct Hrec as ([Htb Hlk Hop Hfl] & Hsome & Hr).
  assert (Hh2 : healthy w -> healthy w2) by (intros Hh; destruct (Hh1 Hh); split; [auto|congruence]).
  assert (Hnh : w_faults w1 <> [] -> ~ healthy w) by (intros Hf Hh; apply Hh1 in Hh as [? _]; done).
  destruct (bb_db_rollback_ok w2 Hsome) as (Hc3 & Ht3 & Hl3 & Hh3).
  assert (Hof3 : oframe w (bb_db_rollback w2)) by (split; [congruence|done|auto]).
  destruct r2 as [a|x].
  - destruct Hr as [[Hr Hc2]|Hr]; [|by apply faulty_not_ok in Hr].
    unfold bb_db_commit. rewrite Hc2. pose proof (commit_ok (snd (record_spec t e b)) w2) as Hcm.
    destruct (run Commit (clean (Some _), w2)) as [r3 [c3 w3]]. destruct Hcm as (Hl & Hcn & Hop3 & Hfl3 & Hcm).
    assert (Hh4 : healthy w -> healthy (with_conn None w3))
      by (intros Hh; destruct (Hh2 Hh); split; [simpl; auto|simpl; congruence]).
    assert (Hof : oframe w (with_conn None w3)) by (split; [simpl; congruence|done|auto]).
    destruct Hcm as [[-> Ht4]|[[Hf Hr3] Ht4]].
    + split; [done|]. left. by rewrite <-Hr.
    + assert (Hn1 : ~ healthy w) by (intros Hh; by destruct (Hh2 Hh)).
      destruct Hr3 as [-> | ->].
      * destruct Ht4 as [Ht4|[[= ] _]]. apply Hretry; simpl; auto; congruence.
      * split; [done|]. right. split; [auto|]. split; [auto|].
        destruct Ht4 as [Ht4|[_ Ht4]]; [left; simpl; congruence|right; auto].
  - destruct Hr as [[Hr Hc2]|[Hf Hr]].
    + symmetry in Hr. destruct (record_spec_err x Hr) as (Hsame & Hx & _).
      assert (Hout : record_outcome bad (Err x) (w_tables (bb_db_rollback w2)))
        by (left; split; [done|congruence]).
      destruct x; try done.
    + destruct Hr as [[= ->]|[= ->]].
      * apply Hretry; auto; congruence.
      * split; [done|]. right. split; [auto|]. split; [auto|]. left. congruence.
Qed.

Lemma record_ballot_ok w : w_conn w = None -> w_tables w = t ->
  match bb_record_ballot e b w with
  | (r, w') => w_conn w' = None /\ w_lock w' = false /\ (healthy w -> healthy w') /\
               record_outcome (~ healthy w) r (w_tables w')
  end.
Proof.
  intros Hc Ht. unfold bb_record_ballot.
  pose proof (record_loop_ok (~ healthy w) 3 (Err BB_ERR_DB) (bb_write_lock w) Hc Ht ltac:(done) ltac:(done)) as H.
  unfold BB_TXN_ATTEMPTS. destruct (record_loop 3 _ e b _) as [r w']. destruct H as [[_ Hcn Hhl] Ho].
  do 2 (split; [done|]). split; [|done]. intros Hh. by apply Hhl.
Qed.

End Record.
End Record.
