(* ===== verification/Votes.v ===== *)
(** * The abstract ballot box

    What an election promises, with no rows in sight: a map from voter to the
    option and the version of the one ballot that counts.  [votes] reads it
    out of the tables; an accepted ballot is an insertion into it, the tally
    a count of it. *)
From S2P Require Import Prelude CText Types Rows Sql Wire Server BrainDb Brain Printed DbLogic Store Commands BrainLogic Record.
Import Server BrainDb Brain Store Record Printed.

Module Votes.

(** The counted ballot an owner row points at. *)
Definition choice (t : tables) (o : owner_row) : Z * Z :=
  match ballot_of t (wr_eid o) (wr_hash o) with
  | Some r => (br_opt r, br_ver r)
  | None => (0, wr_ver o)%Z
  end.

Definition owners_of (t : tables) (e : cstr) : list owner_row := filter (fun r => wr_eid r = e) (t_owner t).

Definition votes (t : tables) (e : cstr) : gmap cstr (Z * Z) :=
  list_to_map (map (fun o => (wr_cert o, choice t o)) (owners_of t e)).

(** Votes for option [i]. *)
Definition votes_for (i : nat) (m : gmap cstr (Z * Z)) : nat :=
  size (filter (fun kv => kv.2.1 = Z.of_nat i) m).

Lemma owners_certs t e : wf t -> NoDup (map wr_cert (owners_of t e)).
Proof.
  intros Hwf. pose proof (wf_owners _ Hwf) as Hnd. unfold owners_of.
  induction (t_owner t) as [|r l IH]; [constructor|].
  cbn [map] in Hnd. apply NoDup_cons in Hnd as [Hr Hnd]. rewrite filter_cons.
  destruct (decide (wr_eid r = e)) as [E|E]; [|by apply IH]. cbn [map]. constructor; [|by apply IH].
  intros (y & Hy & [Hye Hyin]%list_elem_of_filter)%list_elem_of_fmap. apply Hr, list_elem_of_fmap.
  exists y. split; [congruence|done].
Qed.

Lemma votes_keys t e : map fst (map (fun o => (wr_cert o, choice t o)) (owners_of t e)) = map wr_cert (owners_of t e).
Proof. by rewrite map_map. Qed.

Lemma owner_of_alt t e c : owner_of t e c = head (filter (fun r => wr_cert r = c) (owners_of t e)).
Proof.
  unfold owner_of, owners_of. rewrite filter_filter. f_equal. apply filter_iff. tauto.
Qed.

Lemma votes_lookup t e c : wf t -> votes t e !! c = choice t <$> owner_of t e c.
Proof.
  intros Hwf. unfold votes. rewrite owner_of_alt. pose proof (owners_certs t e Hwf) as Hnd.
  induction (owners_of t e) as [|o l IH]; [done|]. cbn [map] in *.
  apply NoDup_cons in Hnd as [Ho Hnd]. rewrite list_to_map_cons, filter_cons.
  destruct (decide (wr_cert o = c)) as [<-|Hne].
  - by rewrite lookup_insert_eq.
  - rewrite lookup_insert_ne by done. by apply IH.
Qed.

(** ** The tally counts the map *)

Lemma size_filter_list_to_map (P : cstr * (Z * Z) -> Prop) `{!forall x, Decision (P x)} l : NoDup (map fst l) ->
  size (filter P (list_to_map l : gmap cstr (Z * Z))) = length (filter P l).
Proof.
  induction l as [|[k v] l IH]; [done|]. cbn [map].
  intros [Hk Hnd]%NoDup_cons. rewrite list_to_map_cons, filter_cons.
  assert (Hl : (list_to_map l : gmap cstr (Z * Z)) !! k = None) by (by apply not_elem_of_list_to_map_1).
  destruct (decide (P (k, v))) as [HP|HP].
  - rewrite map_filter_insert_True by done. rewrite map_size_insert_None.
    + cbn [length]. f_equal. by apply IH.
    + rewrite map_lookup_filter, Hl. done.
  - rewrite map_filter_insert_False by done. rewrite delete_id by done. by apply IH.
Qed.

Lemma live_keys t e : wf t -> map live_key (live_of t e) ≡ₚ map owner_key (owners_of t e).
Proof.
  intros Hwf. unfold live_of, owners_of.
  rewrite <-(filter_filter (fun r => br_eid r = e) (fun r => br_sup r = 0%Z)).
  pose proof (filter_map live_key (fun k => k.1.1 = e) (filter (fun r => br_sup r = 0%Z) (t_ballot t))) as E1.
  pose proof (filter_map owner_key (fun k => k.1.1 = e) (t_owner t)) as E2.
  etrans; [apply Permutation_refl'; symmetry; apply E1|].
  etrans; [|apply Permutation_refl'; apply E2]. by rewrite (wf_live _ Hwf).
Qed.

Definition key_option (t : tables) (k : cstr * cstr * Z) : Z :=
  match ballot_of t k.1.1 k.1.2 with Some r => br_opt r | None => 0%Z end.

Lemma ballot_of_row t r : wf t -> r ∈ t_ballot t -> ballot_of t (br_eid r) (br_hash r) = Some r.
Proof.
  intros Hwf Hr. pose proof (ballot_filter _ Hwf (br_eid r) (br_hash r)) as Hf.
  assert (Hin : r ∈ filter (fun x => br_eid x = br_eid r /\ br_hash x = br_hash r) (t_ballot t))
    by (apply list_elem_of_filter; done).
  rewrite Hf in Hin. destruct (ballot_of _ _ _); [|by apply not_elem_of_nil in Hin].
  apply list_elem_of_singleton in Hin. by subst.
Qed.

Lemma live_options t e : wf t ->
  map br_opt (live_of t e) ≡ₚ map (fun o => (choice t o).1) (owners_of t e).
Proof.
  intros Hwf. transitivity (map (key_option t) (map live_key (live_of t e))).
  - rewrite map_map. apply Permutation_refl', map_ext_Forall, Forall_forall.
    intros r [_ Hr]%list_elem_of_filter. unfold key_option, live_key. simpl. by rewrite ballot_of_row.
  - rewrite (live_keys t e Hwf), map_map. apply Permutation_refl', map_ext. intros o.
    unfold key_option, choice, owner_key. simpl. by destruct (ballot_of _ _ _).
Qed.

Lemma tally_votes t e i : wf t -> count_option (live_of t e) i = Z.of_nat (votes_for i (votes t e)).
Proof.
  intros Hwf. unfold count_option, votes_for, votes. f_equal.
  rewrite size_filter_list_to_map by (rewrite votes_keys; by apply owners_certs).
  rewrite <-(length_map br_opt).
  pose proof (filter_map br_opt (fun z => z = Z.of_nat i) (live_of t e)) as E1. rewrite <-E1.
  rewrite (live_options t e Hwf).
  rewrite (filter_map (fun o => (choice t o).1) (fun z => z = Z.of_nat i)).
  rewrite (filter_map (fun o => (wr_cert o, choice t o)) (fun kv => kv.2.1 = Z.of_nat i)).
  by rewrite !length_map.
Qed.

(** ** Lookups as membership *)

Lemma owner_of_iff t e c o : wf t -> owner_of t e c = Some o <-> o ∈ t_owner t /\ wr_eid o = e /\ wr_cert o = c.
Proof.
  intros Hwf. split; [intros Ho; destruct (owner_of_ok _ Hwf _ _ _ Ho); tauto|].
  intros (Hin & He & Hc). unfold owner_of.
  rewrite (filter_iff _ (fun r => (wr_eid r, wr_cert r) = (e, c)))
    by (intros ? _; split; [by intros [-> ->]|by intros [= -> ->]]).
  assert (Hf : o ∈ filter (fun r => (wr_eid r, wr_cert r) = (e, c)) (t_owner t))
    by (apply list_elem_of_filter; split; [congruence|done]).
  rewrite (filter_key (fun r => (wr_eid r, wr_cert r))) in Hf by apply Hwf.
  destruct (head _); [|by apply not_elem_of_nil in Hf]. apply list_elem_of_singleton in Hf. by subst.
Qed.

Lemma ballot_of_iff t e h r : wf t -> ballot_of t e h = Some r <-> r ∈ t_ballot t /\ br_eid r = e /\ br_hash r = h.
Proof.
  intros Hwf. split; [intros Ho; destruct (ballot_of_ok _ Hwf _ _ _ Ho); tauto|].
  intros (Hin & <- & <-). by apply ballot_of_row.
Qed.

Lemma owner_keys t : wf t -> NoDup (map owner_key (t_owner t)).
Proof.
  intros Hwf. rewrite <-(wf_live _ Hwf). pose proof (wf_hashes _ Hwf) as Hnd.
  induction (t_ballot t) as [|r l IH]; [constructor|]. cbn [map] in Hnd. apply NoDup_cons in Hnd as [Hr Hnd].
  rewrite filter_cons. destruct (decide _); [|by apply IH]. cbn [map]. constructor; [|by apply IH].
  intros (y & Hy & [_ Hyin]%list_elem_of_filter)%list_elem_of_fmap. apply Hr, list_elem_of_fmap.
  exists y. unfold live_key in Hy. split; [congruence|done].
Qed.

(** The live row behind an owner row. *)
Lemma owner_live t o : wf t -> o ∈ t_owner t ->
  exists r, r ∈ t_ballot t /\ br_sup r = 0%Z /\ live_key r = owner_key o /\
            ballot_of t (wr_eid o) (wr_hash o) = Some r.
Proof.
  intros Hwf Ho. assert (Hk : owner_key o ∈ map live_key (filter (fun r => br_sup r = 0%Z) (t_ballot t))).
  { rewrite (wf_live _ Hwf). apply list_elem_of_fmap. by exists o. }
  apply list_elem_of_fmap in Hk as (r & Hrk & [Hsup Hr]%list_elem_of_filter).
  exists r. do 3 (split; [done|]). apply ballot_of_iff; [done|].
  unfold live_key, owner_key in Hrk. split; [done|]. split; congruence.
Qed.

End Votes.
