(* ===== verification/Invariant.v ===== *)
(** * The invariant is kept by every write *)
From S2P Require Import Prelude CText Types Rows Sql Wire Server BrainDb Brain Printed DbLogic Store Commands BrainLogic Record Votes.
Import Server BrainDb Brain Store Record Votes Printed.

Module Invariant.
Section Recorded.
Context `{R : Runner}.
Context (t : tables) (Hwf : wf t) (e c n h : cstr) (opt : Z).
Context (He : id_ok e) (Hid : e ∈ ids t) (Hc : c ∈ certs_of t e) (Hopt : (0 <= opt < Z.of_nat (length (options_of t e)))%Z).
Context (Hn : nonce_ok n) (Hnew : nonce_row_of t e n = None) (Hh : hash_ok h) (Hfresh : ballot_of t e h = None).
Context (Hroom : version_room t).

#[local] Notation ver := (next_version t e c).
#[local] Notation t' := (record_effect t e c n h opt ver).

(** The rows that go and the rows that stay. *)
Record shape (os : list owner_row) (prs olds : list ballot_row) (orest : list owner_row) (brest : list ballot_row) : Prop := {
  sh_owner : t_owner t ≡ₚ os ++ orest;
  sh_owner' : t_owner t' ≡ₚ mkWR e c h ver :: orest;
  sh_ballot : t_ballot t ≡ₚ prs ++ brest;
  sh_ballot' : t_ballot t' ≡ₚ olds ++ mkBR e h opt ver 0 :: brest;
  sh_rest : Forall (fun o => ~ (wr_eid o = e /\ wr_cert o = c)) orest;
  sh_prior : (os = [] /\ prs = [] /\ olds = []) \/
    exists o r, owner_of t e c = Some o /\ os = [o] /\ prs = [r] /\ live_key r = owner_key o /\ br_sup r = 0%Z /\
      wr_eid o = e /\ wr_cert o = c /\
      olds = [mkBR e (br_hash r) (br_opt r) (br_ver r) 1] }.

Lemma partition_filter {A} (P : A -> Prop) `{!forall x, Decision (P x)} (l : list A) :
  l ≡ₚ filter P l ++ filter (fun x => ~ P x) l.
Proof.
  induction l as [|x l IH]; [done|]. rewrite !filter_cons. destruct (decide (P x)), (decide (~ P x)); try done.
  - simpl. by rewrite <-IH.
  - rewrite <-Permutation_middle. by rewrite <-IH.
Qed.

Lemma owner_filter : filter (fun r => wr_eid r = e /\ wr_cert r = c) (t_owner t) =
  match owner_of t e c with Some o => [o] | None => [] end.
Proof.
  unfold owner_of. rewrite (filter_iff _ (fun r => (wr_eid r, wr_cert r) = (e, c)))
    by (intros ? _; split; [by intros [-> ->]|by intros [= -> ->]]).
  apply (filter_key (fun r => (wr_eid r, wr_cert r))), Hwf.
Qed.

Lemma record_shape : exists os prs olds orest brest, shape os prs olds orest brest.
Proof.
  pose proof (partition_filter (fun r => wr_eid r = e /\ wr_cert r = c) (t_owner t)) as Hpo.
  rewrite owner_filter in Hpo. destruct (owner_of t e c) as [o|] eqn:Ho.
  - destruct (owner_of_ok _ Hwf _ _ _ Ho) as (_ & Hoe & Hoc & _).
    destruct (prior_row _ Hwf _ _ _ Ho) as (r & Hr & Hsup & Hv).
    destruct (ballot_of_ok _ Hwf _ _ _ Hr) as (_ & Hre & Hrh & _).
    pose proof (partition_filter (fun x => br_eid x = e /\ br_hash x = wr_hash o) (t_ballot t)) as Hpb.
    rewrite ballot_filter, Hr in Hpb by done.
    exists [o], [r], [mkBR e (br_hash r) (br_opt r) (br_ver r) 1]. do 2 eexists. split.
    + exact Hpo.
    + unfold record_effect. rewrite Ho, Hr. cbn. rewrite place_perm. reflexivity.
    + exact Hpb.
    + unfold record_effect. rewrite Ho, Hr. cbn. rewrite Hrh, place_perm. constructor. rewrite place_perm, filter_cons_True; [done|].
      cbn. intros [_ ->]. congruence.
    + apply Forall_forall. by intros x [Hx _]%list_elem_of_filter.
    + right. exists o, r. unfold live_key, owner_key. repeat split; congruence.
  - exists [], [], [], (t_owner t), (t_ballot t).
    assert (Hn0 : filter (fun r => ~ (wr_eid r = e /\ wr_cert r = c)) (t_owner t) = t_owner t).
    { apply filter_all, Forall_forall. intros x Hx. by eapply head_filter_None in Ho. }
    split; try done.
    + unfold record_effect. rewrite Ho. cbn. by rewrite place_perm, Hn0.
    + unfold record_effect. rewrite Ho. cbn. by rewrite place_perm.
    + apply Forall_forall. intros x Hx. by eapply head_filter_None in Ho.
    + by left.
Qed.

Lemma record_same : t_election t' = t_election t /\ t_option t' = t_option t /\ t_eligible t' = t_eligible t /\
  t_nonce t' ≡ₚ mkNR e n :: t_nonce t.
Proof.
  unfold record_effect. destruct (owner_of t e c) as [o|]; [destruct (ballot_of t e (wr_hash o))|];
    (do 3 (split; [reflexivity|])); cbn; by rewrite place_perm.
Qed.

Lemma fresh_key : (e, h) ∉ map (fun r => (br_eid r, br_hash r)) (t_ballot t).
Proof.
  intros (r & [= -> ->] & Hr)%list_elem_of_fmap. rewrite ballot_of_row in Hfresh by done. done.
Qed.

Lemma nonce_key : (e, n) ∉ map (fun r => (nr_eid r, nr_nonce r)) (t_nonce t).
Proof.
  intros (r & [= -> ->] & Hr)%list_elem_of_fmap. unfold nonce_row_of in Hnew. by eapply head_filter_None in Hnew.
Qed.

(** Per-row facts carry over: they hold of what stays, and of the new rows. *)
Lemma ballots_carry (P : ballot_row -> Prop) : Forall P (t_ballot t) -> P (mkBR e h opt ver 0) ->
  (forall r, r ∈ t_ballot t -> br_eid r = e -> P r -> P (mkBR e (br_hash r) (br_opt r) (br_ver r) 1)) ->
  Forall P (t_ballot t').
Proof.
  intros HF Hnewrow Hold. destruct record_shape as (os & prs & olds & orest & brest & [Ho Ho' Hb Hb' _ Hp]).
  rewrite Hb'. pose proof HF as HF'. rewrite Hb, Forall_app in HF. destruct HF as [H1 H2].
  apply Forall_app; split; [|by constructor].
  destruct Hp as [(-> & -> & ->)|(o & r & _ & -> & -> & Hk & Hs & Hoe & Hoc & ->)]; [constructor|].
  unfold live_key, owner_key in Hk. apply Forall_singleton. inversion H1; subst. apply Hold; [rewrite Hb; left|congruence|done].
Qed.

Lemma owners_carry (P : owner_row -> Prop) : Forall P (t_owner t) -> P (mkWR e c h ver) -> Forall P (t_owner t').
Proof.
  intros HF Hnewrow. destruct record_shape as (os & prs & olds & orest & brest & [Ho Ho' _ _ _ _]).
  rewrite Ho'. rewrite Ho, Forall_app in HF. constructor; tauto.
Qed.

Lemma nonces_carry (P : nonce_row -> Prop) : Forall P (t_nonce t) -> P (mkNR e n) -> Forall P (t_nonce t').
Proof. intros HF Hp. destruct record_same as (_ & _ & _ & ->). by constructor. Qed.

Lemma live_carry : map live_key (filter (fun r => br_sup r = 0%Z) (t_ballot t')) ≡ₚ map owner_key (t_owner t').
Proof.
  destruct record_shape as (os & prs & olds & orest & brest & [Ho Ho' Hb Hb' _ Hp]).
  rewrite Hb', Ho'. pose proof (wf_live _ Hwf) as Hl. rewrite Hb, Ho in Hl.
  rewrite filter_app, filter_cons_True by done. rewrite filter_app, map_app in Hl.
  destruct Hp as [(-> & -> & ->)|(o & r & _ & -> & -> & Hk & Hs & _ & _ & ->)].
  - cbn in *. by rewrite Hl.
  - rewrite filter_cons_True in Hl by done. cbn in Hl. rewrite filter_cons_False by done. cbn.
    constructor. rewrite Hk in Hl. by apply Permutation_cons_inv in Hl.
Qed.

Lemma hashes_carry : NoDup (map (fun r => (br_eid r, br_hash r)) (t_ballot t')).
Proof.
  destruct record_shape as (os & prs & olds & orest & brest & [Ho Ho' Hb Hb' _ Hp]).
  rewrite Hb'. pose proof (wf_hashes _ Hwf) as Hnd. pose proof fresh_key as Hf. rewrite Hb in Hnd, Hf.
  destruct Hp as [(-> & -> & ->)|(o & r & _ & -> & -> & Hk & Hs & Hoe & _ & ->)]; cbn in *; [by constructor|].
  unfold live_key, owner_key in Hk. assert (br_eid r = e) as Hre by congruence. rewrite Hre in *.
  apply NoDup_cons in Hnd as [H1 H2]. apply not_elem_of_cons in Hf as [H3 H4].
  constructor; [|by constructor]. apply not_elem_of_cons. auto.
Qed.

Lemma owners_key_carry : NoDup (map (fun r => (wr_eid r, wr_cert r)) (t_owner t')).
Proof.
  destruct record_shape as (os & prs & olds & orest & brest & [Ho Ho' Hb Hb' Hrest Hp]).
  rewrite Ho'. pose proof (wf_owners _ Hwf) as Hnd. rewrite Ho, map_app in Hnd.
  apply NoDup_app in Hnd as (_ & _ & Hnd). cbn. constructor; [|done].
  intros (x & Hx & Hin)%list_elem_of_fmap. rewrite Forall_forall in Hrest. apply (Hrest x Hin).
  injection Hx as <- <-. done.
Qed.

Lemma record_wf : wf t'.
Proof.
  destruct record_same as (Ee & Eo & Eg & En).
  destruct (next_version_ok _ Hwf e c Hroom) as (Hv & [Hv1 Hv2] & _).
  assert (Hlen : length (t_nonce t') = S (length (t_nonce t))) by (rewrite En; done).
  pose proof (wf_option_room _ Hwf e) as Hor.
  split; unfold ids, options_of, certs_of; rewrite ?Ee, ?Eo, ?Eg; try apply Hwf.
  - apply ballots_carry; [apply Hwf| |].
    + unfold br_ok; cbn [br_eid br_hash br_opt br_ver br_sup]. split; [done|]. split; [done|]. split; [lia|]. auto.
    + intros r _ Hre (_ & H2 & H3 & H4 & _). unfold br_ok; cbn. auto 10.
  - apply owners_carry; [apply Hwf|]. unfold wr_ok; cbn. pose proof (cert_of_ok _ Hwf _ _ Hc). auto.
  - apply nonces_carry; [apply Hwf|]. by split.
  - apply owners_key_carry.
  - apply hashes_carry.
  - rewrite En. cbn. constructor; [apply nonce_key|apply Hwf].
  - apply live_carry.
  - apply owners_carry; [apply Hwf|]. apply Hc.
  - apply ballots_carry; [apply (wf_choices _ Hwf)|apply Hopt|]. intros r _ Hre. cbn. by rewrite Hre.
  - apply ballots_carry; [apply Hwf|done|]. done.
  - apply owners_carry; [apply Hwf|]. done.
  - apply nonces_carry; [apply Hwf|]. done.
  - rewrite Hlen. apply owners_carry; [|cbn [wr_ver]; lia]. eapply Forall_impl; [apply (wf_versions _ Hwf)|]. intros x. simpl. lia.
Qed.

(** ** An accepted ballot is an insertion into the abstract box *)

Lemma choice_new : choice t' (mkWR e c h ver) = (opt, ver).
Proof.
  destruct record_shape as (os & prs & olds & orest & brest & [_ _ _ Hb' _ _]).
  unfold choice. cbn [wr_eid wr_hash]. rewrite (proj2 (ballot_of_iff _ _ _ (mkBR e h opt ver 0) record_wf)); [done|].
  split; [|done]. rewrite Hb'. apply elem_of_app. right. left.
Qed.

Lemma choice_other o : o ∈ t_owner t -> ~ (wr_eid o = e /\ wr_cert o = c) -> choice t' o = choice t o.
Proof.
  intros Ho Hne. destruct (owner_live t o Hwf Ho) as (r & Hr & Hsup & Hk & Hbo).
  unfold choice. rewrite Hbo. destruct record_shape as (os & prs & olds & orest & brest & [Hos _ Hb Hb' _ Hp]).
  assert (Hin : r ∈ brest).
  { rewrite Hb in Hr. apply elem_of_app in Hr as [Hr|Hr]; [|done]. exfalso.
    destruct Hp as [(-> & -> & ->)|(o2 & r2 & _ & -> & -> & Hk2 & _ & Ho2e & Ho2c & ->)];
      [by apply not_elem_of_nil in Hr|]. apply list_elem_of_singleton in Hr as ->.
    assert (owner_key o = owner_key o2) as Hkk by congruence.
    pose proof (owner_keys t Hwf) as Hnd. rewrite Hos in Hnd, Ho. cbn in Hnd, Ho.
    apply NoDup_cons in Hnd as [Hnd _]. apply elem_of_cons in Ho as [->|Ho]; [by apply Hne|].
    apply Hnd. rewrite <-Hkk. apply list_elem_of_fmap. by exists o. }
  rewrite (proj2 (ballot_of_iff _ _ _ r record_wf)); [done|]. unfold live_key, owner_key in Hk.
  split; [|split; congruence]. rewrite Hb'. apply elem_of_app. right. by right.
Qed.

Lemma owner_new : owner_of t' e c = Some (mkWR e c h ver).
Proof.
  destruct record_shape as (os & prs & olds & orest & brest & [_ Ho' _ _ _ _]).
  apply owner_of_iff; [apply record_wf|]. split; [|done]. rewrite Ho'. left.
Qed.

Lemma owner_other e2 c2 : ~ (e2 = e /\ c2 = c) -> owner_of t' e2 c2 = owner_of t e2 c2.
Proof.
  intros Hne. apply option_eq. intros o. rewrite !owner_of_iff by (done || apply record_wf).
  destruct record_shape as (os & prs & olds & orest & brest & [Ho Ho' _ _ _ Hp]).
  rewrite Ho, Ho', elem_of_app, elem_of_cons. split.
  - intros ([->|Hin] & <- & <-); [by destruct Hne|auto].
  - intros ([Hin|Hin] & <- & <-); [|auto].
    destruct Hp as [(-> & _)|(o2 & _ & _ & -> & _ & _ & _ & H1 & H2 & _)]; [by apply not_elem_of_nil in Hin|].
    apply list_elem_of_singleton in Hin as ->. by destruct Hne.
Qed.

Lemma votes_recorded e2 : votes t' e2 = if decide (e2 = e) then <[c := (opt, ver)]> (votes t e) else votes t e2.
Proof.
  apply map_eq. intros c2. rewrite votes_lookup by apply record_wf.
  destruct (decide (e2 = e /\ c2 = c)) as [[-> ->]|Hne].
  - rewrite decide_True, lookup_insert_eq, owner_new by done. cbn. by rewrite choice_new.
  - rewrite owner_other by done. transitivity (votes t e2 !! c2).
    + rewrite votes_lookup by done. destruct (owner_of t e2 c2) as [o|] eqn:Ho; [|done]. cbn. f_equal.
      apply owner_of_iff in Ho as (Hin & H1 & H2); [|done]. apply choice_other; [done|]. congruence.
    + destruct (decide (e2 = e)) as [->|]; [|done]. rewrite lookup_insert_ne; [done|]. by intros ->; apply Hne.
Qed.

End Recorded.
End Invariant.
