(* ===== verification/Elections.v ===== *)
(** * Creating, opening, closing, publishing and reading an election

    The pure meaning of the remaining handlers ([*_spec]) and the proof that
    the handlers implement it, under every fault schedule. *)
From S2P Require Import Prelude CText Types Rows Sql Wire Server BrainDb Brain Printed DbLogic Store Commands BrainLogic Record Votes Invariant.
Import Server BrainDb Brain Store Record Votes Printed.

Module Elections.
Section Elections.
Context `{R : Runner}.

(** ** Specifications *)

Definition transition_spec (t : tables) (e : cstr) (to : bb_state_t) : res unit * tables :=
  match find_election t e with
  | None => (Err BB_ERR_NOT_FOUND, t)
  | Some r => if bb_is_legal_transition (state_of r) to then (Ok tt, put_state r to t)
              else (Err BB_ERR_ILLEGAL_TRANSITION, t)
  end.

Definition join_spec (t : tables) (e c : cstr) : res (bb_election_t * bool * Z) :=
  match find_election t e with
  | None => Err BB_ERR_NOT_FOUND
  | Some r =>
    if bool_decide (c = []) then Err BB_ERR_CERT_INVALID
    else if negb (bool_decide (c ∈ certs_of t e)) then Err BB_ERR_NOT_ELIGIBLE
    else if negb (bool_decide (state_of r = BB_STATE_OPEN)) then Err BB_ERR_NOT_OPEN
    else Ok (election_view t r,
             match owner_of t e c with Some _ => true | None => false end,
             match owner_of t e c with Some o => wr_ver o | None => 0%Z end)
  end.

Definition results_of (t : tables) (e : cstr) (r : election_row) : bb_results_t :=
  mkResults (er_title r)
    (take (length (options_of t e)) (tally_view (live_of t e)) ++ drop (length (options_of t e)) zero_tally)
    (Z.of_nat (length (options_of t e)))
    (take (length (options_of t e)) (option_array (options_of t e)) ++ drop (length (options_of t e)) no_options)
    (pad (map hash_view (live_of t e)) (replicate BB_MAX_VOTERS zero_row))
    (Z.of_nat (length (live_of t e))).

Definition results_spec (gate : bool) (t : tables) (e c : cstr) : res bb_results_t :=
  match find_election t e with
  | None => Err BB_ERR_NOT_FOUND
  | Some r =>
    if negb (bool_decide (state_of r = BB_STATE_PUBLISHED)) then Err BB_ERR_NOT_PUBLISHED
    else if gate && negb (bool_decide (c ∈ certs_of t e)) then Err BB_ERR_NOT_ELIGIBLE
    else Ok (results_of t e r)
  end.

Definition option_name (t : tables) (e : cstr) (i : Z) : cstr :=
  default [] (option_array (options_of t e) !! Z.to_nat i).

Definition lookup_spec (t : tables) (e h : cstr) : res (bb_ballot_hash_t * cstr) :=
  match find_election t e with
  | None => Err BB_ERR_NOT_FOUND
  | Some _ => match live_ballot t e h with
              | None => Err BB_ERR_NOT_FOUND
              | Some r => Ok (hash_view r, option_name t e (br_opt r))
              end
  end.

Definition create_spec (t : tables) (cfg : bb_config_t) (id : cstr) : res cstr * tables :=
  match bb_validate_config cfg with
  | BB_OK => match find_election t id with
             | Some _ => (Err BB_ERR_CONFIG_ID_TAKEN, t)
             | None => (Ok id, add_election id cfg t)
             end
  | err => (Err err, t)
  end.

Context (t : tables) (Hwf : wf t) (e : cstr) (He : id_ok e).

(** How a write request may end. *)
Definition write_outcome {A} (bad : Prop) (spec : res A * tables) (r : res A) (t' : tables) : Prop :=
  (r = fst spec /\ t' = snd spec) \/ (bad /\ r = Err BB_ERR_DB /\ (t' = t \/ t' = snd spec)).

Lemma osim_outcome {A} (m : prog world A) x w : w_conn w = None -> w_tables w = t -> osim t m x ->
  match m w with (r, w') => oframe w w' /\ write_outcome (~ healthy w) (x, t) r (w_tables w') end.
Proof.
  intros Hc Ht Hm. specialize (Hm w Hc Ht). destruct (m w) as [r w']. destruct Hm as (Hf & Ht' & Hr).
  split; [done|]. destruct Hr as [->|[Hn ->]]; [by left|right]. auto.
Qed.

Lemma owsim_outcome {A} (m : prog world A) a t' w : w_conn w = None -> w_tables w = t -> owsim t m a t' ->
  match m w with (r, w') => oframe w w' /\ write_outcome (~ healthy w) (Ok a, t') r (w_tables w') end.
Proof.
  intros Hc Ht Hm. specialize (Hm w Hc Ht). destruct (m w) as [r w']. destruct Hm as (Hf & Hr).
  split; [done|]. destruct Hr as [[-> Ht']|[[Hn ->] Hr]]; [by left|right]. auto.
Qed.

(** ** Transitions *)

Lemma transition_ok to w : w_conn w = None -> w_tables w = t ->
  match bb_transition_state e to w with
  | (r, w') => oframe w w' /\ write_outcome (~ healthy w) (transition_spec t e to) r (w_tables w')
  end.
Proof.
  intros Hc Ht. pose proof (db_exec_read t (new_cmd BB_DB_GET_ELECTION e) _ eq_refl (get_cmd t Hwf e He)) as Hg.
  unfold election_result in Hg. unfold transition_spec, bb_transition_state.
  destruct (find_election t e) as [r|] eqn:Hr.
  2: { apply osim_outcome; [done..|]. eapply osim_bind; [exact Hg|apply osim_throw]. }
  destruct (bb_is_legal_transition (state_of r) to) eqn:Hl.
  - apply owsim_outcome; [done..|]. eapply osim_owsim_bind; [exact Hg|].
    cbn [res_found set_res_found negb res_election set_res_election el_state election_view].
    rewrite Hl. cbn [negb]. eapply owsim_ret, db_exec_write; [done|]. apply wrote_ok.
    pose proof (update_state_ok t (cmd_with_state to (new_cmd BB_DB_UPDATE_STATE e)) e r Hwf) as H.
    apply H; try done. by apply trunc_id_ok.
  - apply osim_outcome; [done..|]. eapply osim_bind; [exact Hg|].
    cbn [res_found set_res_found negb res_election set_res_election el_state election_view].
    rewrite Hl. cbn [negb]. eapply osim_bind; [apply osim_log|apply osim_throw].
Qed.

(** ** Join *)

Lemma join_ok c : osim t (bb_join e c) (join_spec t e c).
Proof.
  unfold bb_join, join_spec. pose proof (load_o t Hwf e He) as Hload. unfold load_result in Hload.
  destruct (find_election t e) as [r|] eqn:Hr; [|by apply osim_bind_err].
  eapply osim_bind; [exact Hload|]. destruct c as [|a c]; [eapply osim_bind; [apply osim_ret|apply osim_throw]|].
  eapply osim_bind; [eapply osim_bind; [apply osim_log|apply osim_ret]|].
  rewrite (bool_decide_eq_false_2 (a :: c = [])) by done. rewrite (eligibility_view t Hwf e r) by done.
  destruct (decide (a :: c ∈ certs_of t e)) as [Hin|Hin];
    [rewrite bool_decide_eq_true_2 by done|rewrite bool_decide_eq_false_2 by done]; cbn [negb].
  2: { eapply osim_bind; [|apply osim_throw]. eapply osim_bind; [apply osim_log|apply osim_log_list]. }
  cbn [el_state election_view]. destruct (decide (state_of r = BB_STATE_OPEN)) as [Hs|Hs];
    [rewrite bool_decide_eq_true_2 by done|rewrite bool_decide_eq_false_2 by done]; cbn [negb].
  2: { eapply osim_bind; [apply osim_log|apply osim_throw]. }
  eapply osim_bind; [apply db_exec_read; [done|]; apply prior_cmd; [done..|by eapply cert_of_ok]|].
  destruct (owner_of t e (a :: c)) as [o|]; apply osim_ret.
Qed.

(** ** Results *)

Lemma tally_cmd : rsim t (run_op (new_cmd BB_DB_GET_TALLY e) true)
  (Ok (set_res_tally (tally_view (live_of t e)) zero_db_result)).
Proof. apply get_tally_ok; [done|done|]. by apply trunc_id_ok. Qed.

Lemma hashes_cmd : rsim t (run_op (new_cmd BB_DB_GET_HASHES e) true)
  (Ok (set_res_hashes (pad (map hash_view (live_of t e)) (replicate BB_MAX_VOTERS zero_row))
         (Z.of_nat (length (live_of t e))) zero_db_result)).
Proof. apply get_hashes_ok; [done|done|]. by apply trunc_id_ok. Qed.

Lemma trunc_map_options rows : Forall or_ok rows ->
  map (trunc BB_OPTION_LEN) (option_array rows) = option_array rows.
Proof.
  intros HF. unfold option_array.
  assert (H : forall base, Forall (fun o => length o < BB_OPTION_LEN)%nat base ->
    Forall (fun o => length o < BB_OPTION_LEN)%nat
      (foldl (fun opts r => <[Z.to_nat (or_idx r) := or_name r]> opts) base rows)).
  { induction HF as [|r rows (_ & _ & [_ Hr]) _ IH]; intros base Hb; [done|]. cbn [foldl]. apply IH.
    apply Forall_insert; [done|]. unfold BB_OPTION_LEN. lia. }
  specialize (H no_options). rewrite <-(map_id (foldl _ _ _)) at 2. apply map_ext_Forall.
  eapply Forall_impl; [apply H; apply Forall_replicate; unfold BB_OPTION_LEN; simpl; lia|].
  intros o Ho. simpl. by apply trunc_id.
Qed.

Lemma length_option_array rows : length (option_array rows) = BB_MAX_OPTIONS.
Proof.
  unfold option_array. assert (H : forall base : list cstr,
    length (foldl (fun opts r => <[Z.to_nat (or_idx r) := or_name r]> opts) base rows) = length base).
  { induction rows as [|r rows IH]; intros base; [done|]. cbn [foldl]. by rewrite IH, length_insert. }
  rewrite H. apply length_replicate.
Qed.

Lemma pad_copy {A} (l d : list A) : copy_slots (length l) (pad l d) d = pad l d.
Proof. unfold copy_slots, pad. by rewrite take_app_length. Qed.

Lemma fetch_ok r : find_election t e = Some r ->
  osim t (fetch_results e (election_view t r)) (Ok (results_of t e r)).
Proof.
  intros Hr. unfold fetch_results. eapply osim_bind; [apply db_exec_read; [done|apply tally_cmd]|].
  eapply osim_bind; [apply db_exec_read; [done|apply hashes_cmd]|].
  cbn [res_tally set_res_tally res_hashes res_hash_count set_res_hashes el_option_count el_options el_title election_view].
  destruct (find_election_ok _ Hwf _ _ Hr) as ((_ & _ & [_ Ht] & _) & Hre & _). rewrite Hre.
  rewrite trunc_id by (unfold BB_TITLE_LEN; lia).
  pose proof (wf_option_room _ Hwf e) as Ho. pose proof (live_in_room _ Hwf e) as Hlv.
  rewrite !Z.min_l by lia. rewrite !Nat2Z.id.
  rewrite trunc_map_options.
  - rewrite <-(length_map hash_view (live_of t e)) at 1. rewrite pad_copy. apply osim_ret.
  - apply Forall_forall. intros x [_ Hx]%list_elem_of_filter. pose proof (wf_option _ Hwf) as HF.
    rewrite Forall_forall in HF. auto.
Qed.

Lemma results_ok c : osim t (bb_get_results e c) (results_spec true t e c).
Proof.
  unfold bb_get_results, results_spec. pose proof (load_o t Hwf e He) as Hload. unfold load_result in Hload.
  destruct (find_election t e) as [r|] eqn:Hr; [|by apply osim_bind_err].
  eapply osim_bind; [exact Hload|]. cbn [el_state election_view].
  destruct (negb (bool_decide (state_of r = BB_STATE_PUBLISHED))); [apply osim_throw|].
  rewrite (eligibility_view t Hwf e r) by done. cbn [andb].
  destruct (negb (bool_decide (c ∈ certs_of t e))); [apply osim_throw|]. by apply fetch_ok.
Qed.

Lemma results_admin_ok c : osim t (bb_get_results_admin e) (results_spec false t e c).
Proof.
  unfold bb_get_results_admin, results_spec. pose proof (load_o t Hwf e He) as Hload. unfold load_result in Hload.
  destruct (find_election t e) as [r|] eqn:Hr; [|by apply osim_bind_err].
  eapply osim_bind; [exact Hload|]. cbn [el_state election_view].
  destruct (negb (bool_decide (state_of r = BB_STATE_PUBLISHED))); [apply osim_throw|]. by apply fetch_ok.
Qed.

(** ** Receipt lookup *)

Lemma option_array_names i o : option_array (options_of t e) !! i = Some o -> (length o < BB_OPTION_LEN)%nat.
Proof.
  intros Hi. assert (HF : Forall or_ok (options_of t e)).
  { apply Forall_forall. intros x [_ Hx]%list_elem_of_filter. pose proof (wf_option _ Hwf) as HF.
    rewrite Forall_forall in HF. auto. }
  rewrite <-(trunc_map_options _ HF) in Hi. apply list_lookup_fmap_Some in Hi as (x & -> & _).
  apply trunc_length. unfold BB_OPTION_LEN. lia.
Qed.

Lemma lookup_ok h : plain h -> (length h <= 64)%nat -> osim t (bb_lookup_hash e h) (lookup_spec t e h).
Proof.
  intros Hp Hl. unfold bb_lookup_hash, lookup_spec. pose proof (load_o t Hwf e He) as Hload.
  unfold load_result in Hload. destruct (find_election t e) as [r|] eqn:Hr; [|by apply osim_bind_err].
  eapply osim_bind; [exact Hload|].
  assert (Hf : rsim t (run_op (cmd_with_hash h (new_cmd BB_DB_FIND_HASH e)) true)
    (Ok (found_row (hash_view <$> live_ballot t e h)))).
  { pose proof (find_hash_ok t Hwf e He (cmd_with_hash h (new_cmd BB_DB_FIND_HASH e))) as H.
    cbn [cmd_election_id cmd_hash cmd_with_hash new_cmd] in H.
    rewrite (trunc_id BB_HASH_LEN h) in H by (unfold BB_HASH_LEN; lia).
    apply H; [by apply trunc_id_ok|done|done]. }
  eapply osim_bind; [apply db_exec_read; [done|exact Hf]|].
  destruct (live_ballot t e h) as [b|] eqn:Hb; [|apply osim_throw].
  cbn [fmap option_fmap option_map found_row res_found set_res_found negb res_row set_res_row bh_option_index hash_view].
  cbn [el_option_count el_options election_view]. rewrite (find_id t e r) by done.
  unfold live_ballot in Hb. destruct (ballot_of t e h) as [b'|] eqn:Hb'; [|done]. destruct (decide _); [|done].
  injection Hb as ->. destruct (ballot_of_ok _ Hwf _ _ _ Hb') as (_ & Hbe & _ & Hin).
  pose proof (wf_choices _ Hwf) as HF. rewrite Forall_forall in HF. specialize (HF b Hin). simpl in HF.
  rewrite Hbe in HF. pose proof (wf_ballot _ Hwf) as HB. rewrite Forall_forall in HB.
  destruct (HB b Hin) as (_ & _ & Ho & _).
  rewrite (proj2 (Z.leb_le _ _)), (proj2 (Z.ltb_lt _ _)) by lia. cbn [andb].
  unfold option_name. rewrite trunc_id; [apply osim_ret|].
  destruct (option_array (options_of t e) !! Z.to_nat (br_opt b)) as [o|] eqn:E; simpl; [|unfold BB_OPTION_LEN; lia].
  by eapply option_array_names.
Qed.

End Elections.
End Elections.
