(* ===== verification/Lifecycle.v ===== *)
(** * Elections come and move on: the invariant across creation and transition *)
From S2P Require Import Prelude CText Types Rows Sql Wire Server BrainDb Brain Printed DbLogic Store Commands BrainLogic Record Votes Invariant Elections.
Import Server BrainDb Brain Store Record Votes Invariant Elections Printed.

Module Lifecycle.
Section Lifecycle.
Context `{R : Runner}.

Lemma find_election_iff t e r : wf t -> find_election t e = Some r <-> r ∈ t_election t /\ er_id r = e.
Proof.
  intros Hwf. split; [intros [<- Hin]%head_filter_Some; done|]. intros [Hin <-]. unfold find_election.
  assert (Hf : r ∈ filter (fun x => er_id x = er_id r) (t_election t)) by (by apply list_elem_of_filter).
  rewrite (filter_key er_id) in Hf by apply Hwf.
  destruct (head _); [|by apply not_elem_of_nil in Hf]. apply list_elem_of_singleton in Hf. by subst.
Qed.

Lemma find_election_None t e : find_election t e = None <-> e ∉ ids t.
Proof.
  split.
  - intros Hf (r & -> & Hr)%list_elem_of_fmap. by eapply head_filter_None in Hf.
  - intros Hn. unfold find_election. rewrite filter_none; [done|]. apply Forall_forall. intros r Hr Hre.
    apply Hn, list_elem_of_fmap. exists r. done.
Qed.

Lemma find_election_ids t e r : find_election t e = Some r -> e ∈ ids t.
Proof. intros [<- Hin]%head_filter_Some. apply list_elem_of_fmap. eauto. Qed.

(** ** Transition *)

Section Move.
Context (t : tables) (Hwf : wf t) (r : election_row) (Hr : find_election t (er_id r) = Some r) (s : bb_state_t).

Definition moved_row : election_row :=
  mkER (er_seq r) (er_id r) (er_title r) (bb_state_str s) (er_open r) (er_close r).

Lemma split_election : t_election t ≡ₚ r :: filter (fun x => er_id x <> er_id r) (t_election t).
Proof.
  pose proof (partition_filter (fun x => er_id x = er_id r) (t_election t)) as Hp.
  rewrite (filter_key er_id) in Hp by apply Hwf. unfold find_election in Hr. rewrite Hr in Hp. exact Hp.
Qed.

Lemma moved_election : t_election (put_state r s t) ≡ₚ moved_row :: filter (fun x => er_id x <> er_id r) (t_election t).
Proof. cbn. by rewrite place_perm. Qed.

Lemma moved_ids : ids (put_state r s t) ≡ₚ ids t.
Proof.
  unfold ids. rewrite moved_election. transitivity (map er_id (r :: filter (fun x => er_id x <> er_id r) (t_election t)));
    [done|]. by rewrite <-split_election.
Qed.

Lemma moved_carry (P : election_row -> Prop) : Forall P (t_election t) -> (P r -> P moved_row) ->
  Forall P (t_election (put_state r s t)).
Proof.
  intros HF Hm. rewrite moved_election. rewrite split_election in HF. inversion HF; subst. constructor; auto.
Qed.

Lemma fk_carry {A} (f : A -> cstr) l : Forall (fun x => f x ∈ ids t) l -> Forall (fun x => f x ∈ ids (put_state r s t)) l.
Proof. intros HF. eapply Forall_impl; [exact HF|]. intros x. simpl. by rewrite moved_ids. Qed.

Lemma put_state_wf : wf (put_state r s t).
Proof.
  split; try (by apply fk_carry, Hwf); try apply Hwf.
  - apply moved_carry; [apply Hwf|]. intros (H1 & H2 & H3 & H4 & H5). unfold er_ok. cbn. eauto 10.
  - rewrite moved_ids. apply Hwf.
  - apply moved_carry; [apply (wf_seq _ Hwf)|done].
Qed.

Lemma put_state_find e : find_election (put_state r s t) e =
  if decide (e = er_id r) then Some moved_row else find_election t e.
Proof.
  apply option_eq. intros x. rewrite find_election_iff by apply put_state_wf. rewrite moved_election, elem_of_cons.
  rewrite list_elem_of_filter. destruct (decide (e = er_id r)) as [->|Hne].
  - split; [intros ([->|[Hx _]] & Hxe); done|]. intros [= <-]. split; [by left|done].
  - rewrite find_election_iff by done. split; [intros ([->|[_ Hx]] & <-); done|].
    intros (Hx & <-). split; [|done]. right. done.
Qed.

Lemma moved_state : state_of moved_row = s.
Proof. unfold state_of. cbn. by rewrite parse_state_str. Qed.

End Move.

(** A transition touches the state column of one row and nothing else. *)
Lemma put_state_votes r s t e : votes (put_state r s t) e = votes t e.
Proof. done. Qed.

(** ** Creation *)

Section Made.
Context (t : tables) (Hwf : wf t) (e : cstr) (He : id_ok e) (Hnew : find_election t e = None).
Context (cfg : bb_config_t) (Hcfg : config_ok cfg) (Hseq : int_ok (id_seq e)).

#[local] Notation opts := (slots (cfg_option_count cfg) BB_MAX_OPTIONS (cfg_options cfg)).
#[local] Notation certs := (slots (cfg_eligible_count cfg) BB_MAX_VOTERS (cfg_eligible cfg)).
#[local] Notation t' := (add_election e cfg t).

Definition made_row : election_row :=
  mkER (id_seq e) e (cfg_title cfg) ($"DRAFT") (cfg_open_time cfg) (cfg_close_time cfg).
Definition option_rows (i : Z) (l : list cstr) : list option_row := imap (fun k o => mkOR e (i + Z.of_nat k) o) l.

Lemma add_options_same l i u : t_election (add_options e i l u) = t_election u /\ t_eligible (add_options e i l u) = t_eligible u /\
  t_ballot (add_options e i l u) = t_ballot u /\ t_owner (add_options e i l u) = t_owner u /\ t_nonce (add_options e i l u) = t_nonce u.
Proof. revert i u; induction l as [|o l IH]; intros i u; [done|]. cbn [add_options]. destruct (IH (i + 1)%Z (set_option (place (mkOR e i o) (t_option u)) u)) as (-> & -> & -> & -> & ->). done. Qed.

Lemma add_options_rows l i u : t_option (add_options e i l u) ≡ₚ option_rows i l ++ t_option u.
Proof.
  revert i u; induction l as [|o l IH]; intros i u; [done|]. cbn [add_options]. rewrite IH. cbn [t_option set_option].
  rewrite place_perm, <-Permutation_middle. unfold option_rows. cbn [imap app]. rewrite Z.add_0_r. constructor.
  apply Permutation_app_tail, Permutation_refl', imap_ext. intros k x _. simpl. f_equal. lia.
Qed.

Lemma add_certs_same l u : t_election (add_certs e l u) = t_election u /\ t_option (add_certs e l u) = t_option u /\
  t_ballot (add_certs e l u) = t_ballot u /\ t_owner (add_certs e l u) = t_owner u /\ t_nonce (add_certs e l u) = t_nonce u.
Proof. revert u; induction l as [|o l IH]; intros u; [done|]. cbn [add_certs]. destruct (IH (set_eligible (place (mkGR e o) (t_eligible u)) u)) as (-> & -> & -> & -> & ->). done. Qed.

Lemma add_certs_rows l u : t_eligible (add_certs e l u) ≡ₚ map (mkGR e) l ++ t_eligible u.
Proof.
  revert u; induction l as [|o l IH]; intros u; [done|]. cbn [add_certs]. rewrite IH. cbn [t_eligible set_eligible map app].
  by rewrite place_perm, <-Permutation_middle.
Qed.

Lemma made_tables : t_election t' ≡ₚ made_row :: t_election t /\ t_option t' ≡ₚ option_rows 0 opts ++ t_option t /\
  t_eligible t' ≡ₚ map (mkGR e) certs ++ t_eligible t /\
  t_ballot t' = t_ballot t /\ t_owner t' = t_owner t /\ t_nonce t' = t_nonce t.
Proof.
  unfold add_election. set (u0 := set_election _ t). set (u1 := add_options e 0 opts u0).
  destruct (add_certs_same certs u1) as (C1 & C2 & C3 & C4 & C5).
  destruct (add_options_same opts 0 u0) as (D1 & D2 & D3 & D4 & D5). fold u1 in D1, D2, D3, D4, D5.
  rewrite add_certs_rows, C1, C2, C3, C4, C5, D1, D2, D3, D4, D5. unfold u1. rewrite add_options_rows.
  subst u0. cbn. by rewrite place_perm.
Qed.

Lemma new_id : e ∉ ids t.
Proof. by apply find_election_None. Qed.

Lemma made_ids : ids t' ≡ₚ e :: ids t.
Proof. unfold ids. destruct made_tables as (-> & _). done. Qed.

Lemma filter_foreign {A} (f : A -> cstr) l : Forall (fun x => f x ∈ ids t) l -> filter (fun x => f x = e) l = [].
Proof.
  intros HF. apply filter_none. eapply Forall_impl; [exact HF|]. intros x Hx Hxe. simpl in Hx. rewrite Hxe in Hx.
  by apply new_id.
Qed.

Lemma option_rows_eid i l : Forall (fun r => or_eid r = e) (option_rows i l).
Proof. apply Forall_forall. intros r Hr. apply elem_of_lookup_imap in Hr as (k & o & -> & _). done. Qed.

Lemma made_options e2 : options_of t' e2 ≡ₚ if decide (e2 = e) then option_rows 0 opts else options_of t e2.
Proof.
  unfold options_of. destruct made_tables as (_ & -> & _). rewrite filter_app.
  destruct (decide (e2 = e)) as [->|Hne].
  - rewrite (filter_foreign or_eid (t_option t)) by apply Hwf. rewrite app_nil_r, filter_all; [done|]. apply option_rows_eid.
  - rewrite (filter_none _ (option_rows 0 opts)); [done|]. eapply Forall_impl; [apply option_rows_eid|].
    intros x Hx ?. congruence.
Qed.

Lemma made_certs e2 : certs_of t' e2 ≡ₚ if decide (e2 = e) then certs else certs_of t e2.
Proof.
  unfold certs_of. destruct made_tables as (_ & _ & -> & _). rewrite filter_app.
  destruct (decide (e2 = e)) as [->|Hne].
  - rewrite (filter_foreign gr_eid (t_eligible t)) by apply Hwf. rewrite app_nil_r, filter_all.
    + rewrite map_map. simpl. by rewrite map_id.
    + by apply Forall_map, Forall_forall.
  - rewrite (filter_none _ (map (mkGR e) certs)); [done|]. apply Forall_map, Forall_forall. intros x _. simpl. congruence.
Qed.

Lemma fk_keep {A} (f : A -> cstr) l : Forall (fun x => f x ∈ ids t) l -> Forall (fun x => f x ∈ ids t') l.
Proof. intros HF. eapply Forall_impl; [exact HF|]. intros x Hx. simpl in *. rewrite made_ids. by right. Qed.

Lemma old_id {A} (f : A -> cstr) l x : Forall (fun x => f x ∈ ids t) l -> x ∈ l -> f x <> e.
Proof. intros HF Hx Hxe. rewrite Forall_forall in HF. specialize (HF x Hx). simpl in HF. rewrite Hxe in HF. by apply new_id. Qed.

Lemma add_election_wf : wf t'.
Proof.
  destruct made_tables as (Ee & Eo & Eg & Eb & Ew & En). destruct Hcfg as [Ct Cop Ccl Copt Ccert].
  split; rewrite ?Eb, ?Ew, ?En; try apply Hwf.
  - rewrite Ee. constructor; [|apply Hwf]. unfold er_ok; cbn. repeat (split; [done|]). split; [by exists BB_STATE_DRAFT|done].
  - rewrite Eo. apply Forall_app; split; [|apply Hwf]. apply Forall_forall. intros r Hr.
    apply elem_of_lookup_imap in Hr as (k & o & -> & Hk). unfold or_ok; cbn. split; [done|]. split.
    + apply lookup_lt_Some in Hk. pose proof (slots_length (cfg_option_count cfg) BB_MAX_OPTIONS (cfg_options cfg)). lia.
    + rewrite Forall_forall in Copt. apply Copt. by eapply list_elem_of_lookup_2.
  - rewrite Eg. apply Forall_app; split; [|apply Hwf]. apply Forall_map. eapply Forall_impl; [exact Ccert|]. by intros c Hc; split.
  - rewrite made_ids. constructor; [apply new_id|apply Hwf].
  - apply Forall_forall. intros o Ho. rewrite made_certs, decide_False.
    + pose proof (wf_entitled _ Hwf) as HF. rewrite Forall_forall in HF. auto.
    + eapply (old_id wr_eid); [apply Hwf|done].
  - apply Forall_forall. intros b Hb. rewrite made_options, decide_False.
    + pose proof (wf_choices _ Hwf) as HF. rewrite Forall_forall in HF. auto.
    + eapply (old_id br_eid); [apply Hwf|done].
  - intros e2. rewrite made_options. destruct (decide _); [|apply Hwf]. unfold option_rows.
    rewrite length_imap. apply slots_length.
  - intros e2. rewrite made_certs. destruct (decide _); [|apply Hwf]. apply slots_length.
  - rewrite Eo. apply Forall_app; split; [|apply (fk_keep or_eid), Hwf]. eapply Forall_impl; [apply option_rows_eid|].
    intros x Hx. simpl in Hx. rewrite Hx, made_ids. left.
  - rewrite Eg. apply Forall_app; split; [|apply (fk_keep gr_eid), Hwf]. apply Forall_map, Forall_forall. intros x _. simpl.
    rewrite made_ids. left.
  - apply (fk_keep br_eid), Hwf.
  - apply (fk_keep wr_eid), Hwf.
  - apply (fk_keep nr_eid), Hwf.
  - rewrite Ee. constructor; [done|apply Hwf].
Qed.

Lemma made_find e2 : find_election t' e2 = if decide (e2 = e) then Some made_row else find_election t e2.
Proof.
  apply option_eq. intros x. rewrite find_election_iff by apply add_election_wf.
  destruct made_tables as (-> & _). rewrite elem_of_cons. destruct (decide (e2 = e)) as [->|Hne].
  - split; [|intros [= <-]; split; [by left|done]]. intros ([->|Hx] & Hxe); [done|]. exfalso. apply new_id.
    apply list_elem_of_fmap. exists x. done.
  - rewrite find_election_iff by done. split; [intros ([->|Hx] & <-); done|]. intros (Hx & <-). auto.
Qed.

Lemma made_votes e2 : votes t' e2 = votes t e2.
Proof.
  destruct made_tables as (_ & _ & _ & Eb & Ew & _). unfold votes, owners_of, choice, ballot_of. by rewrite Ew, Eb.
Qed.

End Made.
End Lifecycle.
End Lifecycle.
