(* ===== verification/Creation.v ===== *)
(** * UC-1: creating an election, with a chosen id or an allocated one *)
From S2P Require Import Prelude CText Types Rows Sql Wire Server BrainDb Brain Printed DbLogic Store Commands BrainLogic Record Votes Invariant Elections Lifecycle.
Import Rows Sql Server BrainDb Brain Store Record Votes Elections Lifecycle Printed.

Module Creation.
Section Creation.
Context `{R : Runner}.
Context (t : tables) (Hwf : wf t) (cfg : bb_config_t) (Hcfg : config_ok cfg).

Lemma insert_o e : id_ok e -> int_ok (id_seq e) -> owsim t (insert_election cfg e) e (add_election e cfg t).
Proof.
  intros He Hseq. unfold insert_election. rewrite trunc_id_ok by done. eapply owsim_ret, db_exec_write; [done|].
  apply wrote_ok. apply insert_election_ok; try done. by apply trunc_id_ok.
Qed.

(** A bad configuration is refused before the store is touched. *)
Lemma create_invalid id w : bb_validate_config cfg <> BB_OK ->
  bb_create_election cfg id w =
  (Err (bb_validate_config cfg),
   bb_log ($"[create] rejected config (err=" ++ print_int (result_code (bb_validate_config cfg)) ++ $")") w).
Proof. intros Hv. unfold bb_create_election. by destruct (bb_validate_config cfg). Qed.

Lemma create_ok e w : id_ok e -> e <> [] -> int_ok (id_seq e) -> w_conn w = None -> w_tables w = t ->
  match bb_create_election cfg e w with
  | (r, w') => oframe w w' /\ write_outcome t (~ healthy w) (create_spec t cfg e) r (w_tables w')
  end.
Proof.
  intros He Hne Hseq Hc Ht. unfold create_spec.
  destruct (decide (bb_validate_config cfg = BB_OK)) as [Hv|Hv].
  2: { rewrite create_invalid by done. split; [by split|]. left. destruct (bb_validate_config cfg); done. }
  unfold bb_create_election. rewrite Hv. destruct e as [|a e]; [done|].
  pose proof (load_o t Hwf _ He w Hc Ht) as Hload. unfold load_result in Hload.
  destruct (load_election (a :: e) w) as [r w1]. destruct Hload as (Hf & Ht1 & Hr).
  destruct (find_election t (a :: e)) as [row|] eqn:Hfind.
  - destruct Hr as [->|[Hn ->]].
    + split; [by destruct Hf; split|]. by left.
    + split; [done|]. right. auto.
  - destruct Hr as [->|[Hn ->]].
    + rewrite trunc_id_ok by done. pose proof (insert_o _ He Hseq w1 (of_conn _ _ Hf) Ht1) as Hi.
      destruct (insert_election cfg (a :: e) w1) as [r w2]. destruct Hi as (Hf2 & Hi).
      split; [by eapply oframe_trans|]. destruct Hi as [[-> Ht2]|[[Hn ->] Ht2]]; [by left|right].
      split; [intros Hh; apply Hn; by apply Hf|]. auto.
    + split; [done|]. right. auto.
Qed.

(** ** Allocation *)

Definition next_seq (t : tables) : Z :=
  match t_election t with [] => 100%Z | l => (max_seq l + 1)%Z end.
Definition next_id (t : tables) : cstr := $"E-" ++ print_int (next_seq t).

Lemma max_seq_ge l r : r ∈ l -> (er_seq r <= max_seq l)%Z.
Proof.
  unfold max_seq. induction l as [|x l IH]; [by intros ?%not_elem_of_nil|]. cbn [map foldr].
  intros [->|Hr]%elem_of_cons; [lia|]. specialize (IH Hr). lia.
Qed.

Lemma max_seq_range l : Forall er_ok l -> l <> [] -> int_ok (max_seq l).
Proof.
  unfold max_seq, int_ok. induction 1 as [|r l [Hr _] _ IH]; [done|]. intros _. cbn [map foldr].
  unfold int_ok in Hr. destruct l as [|r2 l]; [simpl; unfold INT_MAX in *; lia|]. specialize (IH ltac:(done)). lia.
Qed.

(** The allocator still has numbers. *)
Definition seq_room : Prop := (next_seq t <= INT_MAX)%Z.

Lemma next_seq_ok : seq_room -> int_ok (next_seq t).
Proof.
  unfold seq_room, next_seq, int_ok. intros H. destruct (t_election t) as [|r l] eqn:E; [unfold INT_MAX; lia|].
  pose proof (max_seq_range (r :: l)) as Hm. rewrite <-E in Hm. specialize (Hm (wf_election _ Hwf) ltac:(by rewrite E)).
  unfold int_ok in Hm. rewrite E in Hm. lia.
Qed.

Lemma after_last_none c s : no_char c s -> after_last c s = None.
Proof.
  induction 1 as [|x s Hx _ IH]; [done|]. cbn [after_last]. rewrite IH. unfold ceqb. by rewrite bool_decide_eq_false_2.
Qed.

Lemma after_last_E s : no_char "-"%char s -> after_last "-" ($"E-" ++ s) = Some s.
Proof.
  intros Hs. change ($"E-" ++ s) with ("E"%char :: "-"%char :: s). cbn [after_last]. by rewrite after_last_none.
Qed.

Lemma print_int_no_dash z : (0 <= z)%Z -> no_char "-"%char (print_int z).
Proof.
  intros Hz. unfold print_int. rewrite (proj2 (Z.ltb_ge _ _)) by lia.
  eapply Forall_impl; [by apply print_uint_digits|]. by intros c Hc ->.
Qed.

Lemma id_seq_print z : int_ok z -> id_seq ($"E-" ++ print_int z) = z.
Proof.
  intros Hz. unfold int_ok, INT_MAX in Hz. unfold id_seq.
  rewrite after_last_E by (apply print_int_no_dash; lia). rewrite strtol_print_int_end by (unfold LONG_MIN, LONG_MAX; lia).
  rewrite (proj2 (Z.ltb_ge _ _)) by lia. apply i32_id. unfold INT_MAX. lia.
Qed.

Lemma print_int_small z : int_ok z -> (length (print_int z) <= 10)%nat.
Proof.
  intros Hz. unfold int_ok, INT_MAX in Hz. unfold print_int. rewrite (proj2 (Z.ltb_ge _ _)) by lia.
  unfold print_uint. assert (H : forall k fuel x acc, (0 <= x < 10 ^ Z.of_nat k)%Z -> (0 < k)%nat ->
    (length (dec_digits fuel x acc) <= k + length acc)%nat).
  { induction k as [|k IH]; [lia|]. intros fuel x acc Hx _. destruct fuel as [|fuel]; [simpl; lia|].
    cbn [dec_digits]. case_match; [simpl; lia|]. destruct k as [|k]; [simpl in Hx; lia|].
    etrans; [apply IH; [|lia]|simpl; lia]. rewrite Nat2Z.inj_succ, Z.pow_succ_r in Hx by lia.
    split; [apply Z.div_pos; lia|]. apply Z.div_lt_upper_bound; lia. }
  etrans; [apply (H 10%nat); [simpl; lia|lia]|]. simpl. lia.
Qed.

Lemma next_id_ok : seq_room -> id_ok (next_id t) /\ int_ok (id_seq (next_id t)).
Proof.
  intros Hr. pose proof (next_seq_ok Hr) as Hn. unfold next_id. rewrite id_seq_print by done. split; [|done].
  split.
  - apply Forall_app; split; [by repeat constructor|apply plain_print_int].
  - rewrite length_app. pose proof (print_int_small _ Hn). simpl. lia.
Qed.

Lemma next_id_fresh : seq_room -> find_election t (next_id t) = None.
Proof.
  intros Hr. apply find_election_None. intros (r & Hre & Hin)%list_elem_of_fmap.
  pose proof (wf_seq _ Hwf) as HF. rewrite Forall_forall in HF. specialize (HF r Hin). simpl in HF.
  rewrite <-Hre in HF. unfold next_id in HF. rewrite id_seq_print in HF by (by apply next_seq_ok).
  unfold next_seq in HF. pose proof (max_seq_ge _ _ Hin). destruct (t_election t); [by apply not_elem_of_nil in Hin|]. lia.
Qed.

Lemma sel_max : run_select SelMaxSeq t = match t_election t with [] => [] | l => [[print_int (max_seq l)]] end.
Proof. done. Qed.

Lemma sel_ok_max : sel_ok SelMaxSeq t.
Proof.
  unfold sel_ok. rewrite sel_max. destruct (t_election t); (split; [|unfold BB_MAX_VOTERS; simpl; lia]);
    [constructor|]. apply Forall_singleton, row_int.
Qed.

Lemma alloc_next_ok : seq_room -> alloc_next Wire.DB_OK (select_body SelMaxSeq t) = next_seq t.
Proof.
  intros Hr. pose proof sel_ok_max as Hok. unfold alloc_next. rewrite select_count by done.
  pose proof (next_seq_ok Hr) as Hn. pose proof (max_seq_range _ (wf_election _ Hwf)) as Hm.
  unfold next_seq, int_ok in *. pose proof sel_max as Hs. rewrite Hs.
  destruct (t_election t) as [|r l]; [done|]. specialize (Hm ltac:(done)). cbn [length Z.of_nat Z.ltb Z.compare].
  erewrite (select_fields _ _ 0 1); [|done|by rewrite Hs|done]. rewrite fld_0, field_copy_int by lia.
  rewrite strtol_print_int_end by (unfold INT_MAX, LONG_MIN, LONG_MAX in *; lia).
  rewrite (proj2 (Z.leb_le _ _)) by lia. rewrite (i32_id (max_seq _)) by (unfold INT_MAX in *; lia). rewrite i32_id; [done|unfold INT_MAX in *; lia].
Qed.

Lemma alloc_ok w : seq_room -> healthy w -> w_conn w = None -> w_tables w = t ->
  exists w', bb_alloc_id w = (next_id t, w') /\ oframe w w' /\ w_tables w' = t.
Proof.
  intros Hr [Hhf Hho] Hc Ht. unfold bb_alloc_id, db_socket_open. rewrite Hho.
  set (w1 := with_opens (tail []) w). change (mkConn None None []) with (clean None).
  pose proof (exec_stmt_data SelMaxSeq (Some ALLOC_BODY) None w1 t) as H. cbv zeta in H.
  change (default (w_tables w1) None) with (w_tables w) in H. rewrite Ht in H.
  specialize (H eq_refl ltac:(by repeat constructor) sel_ok_max eq_refl ltac:(done)).
  rewrite reply_wire in H; [|apply sel_ok_max|].
  2: { rewrite sel_max. unfold ALLOC_BODY. destruct (t_election t); simpl length; lia. }
  unfold exec_stmt in H. destruct (db_socket_exec SelMaxSeq (Some ALLOC_BODY) (clean None) w1) as [[[st body] c'] w2].
  destruct H as [[F1 F2 F3 F4 F5] [[Hok _]|[Hn _]]]; [|done].
  destruct st; try done. simpl in Hok. injection Hok as ->.
  exists w2. rewrite alloc_next_ok by done. destruct (next_id_ok Hr) as [Hid _].
  unfold next_id in Hid. rewrite trunc_id_ok by done. split; [done|]. split; [|by rewrite F1].
  split; [done|by rewrite F3|]. intros _. split; [by apply F5|by rewrite F4].
Qed.

(** An allocated id is new, so a healthy store always takes the election. *)
Lemma create_auto_ok w : bb_validate_config cfg = BB_OK -> seq_room -> healthy w -> w_conn w = None -> w_tables w = t ->
  exists w', bb_create_election cfg [] w = (Ok (next_id t), w') /\ oframe w w' /\
             w_tables w' = add_election (next_id t) cfg t.
Proof.
  intros Hv Hr Hh Hc Ht. unfold bb_create_election. rewrite Hv.
  destruct (alloc_ok w Hr Hh Hc Ht) as (w1 & -> & Hf & Ht1). destruct (next_id_ok Hr) as [Hid Hseq].
  pose proof (insert_o _ Hid Hseq w1 (of_conn _ _ Hf) Ht1) as Hi.
  destruct (insert_election cfg (next_id t) w1) as [r w2]. destruct Hi as (Hf2 & [[-> Ht2]|[[Hn _] _]]).
  - exists w2. split; [done|]. split; [by eapply oframe_trans|done].
  - exfalso. apply Hn, Hf, Hh.
Qed.

End Creation.
End Creation.
