(* ===== verification/System.v ===== *)
(** * The ballot box as a system of requests

    Any number of requests, served one after the other (ballotd hands every
    request to one thread), against a store whose failures a schedule decides.
    [step] is one served request; the theorems are about every reachable
    world. *)
From S2P Require Import Prelude CText Types Rows Sql Wire Server BrainDb Brain Printed DbLogic Store Commands BrainLogic Record Votes Invariant Elections Lifecycle Creation.
Import Server BrainDb Brain Store Record Votes Invariant Elections Lifecycle Creation Printed.

Module System.

Inductive request :=
  | Create (cfg : bb_config_t) (id : cstr)
  | Transition (e : cstr) (to : bb_state_t)
  | Cast (e : cstr) (b : bb_ballot_t)
  | Join (e cert : cstr)
  | Results (e cert : cstr)
  | ResultsAdmin (e : cstr)
  | Lookup (e h : cstr).

Section System.
Context `{R : Runner}.

Definition serve (q : request) (w : world) : world :=
  match q with
  | Create cfg id => snd (bb_create_election cfg id w)
  | Transition e to => snd (bb_transition_state e to w)
  | Cast e b => snd (bb_record_ballot e b w)
  | Join e c => snd (bb_join e c w)
  | Results e c => snd (bb_get_results e c w)
  | ResultsAdmin e => snd (bb_get_results_admin e w)
  | Lookup e h => snd (bb_lookup_hash e h w)
  end.

(** What the theorems ask of a request: texts that fit their structs and
    print plainly; a receipt hash that is new; an id of one's own unless the
    store is there to allocate one. *)
Definition acceptable (w : world) (q : request) : Prop :=
  match q with
  | Create cfg [] => config_ok cfg /\ seq_room (w_tables w) /\ healthy w
  | Create cfg id => config_ok cfg /\ id_ok id /\ int_ok (id_seq id)
  | Transition e _ | Join e _ | Results e _ | ResultsAdmin e => id_ok e
  | Cast e b => id_ok e /\ nonce_ok (bl_nonce b) /\ fresh_receipt (w_tables w) e b /\ version_room (w_tables w)
  | Lookup e h => id_ok e /\ plain h /\ (length h <= 64)%nat
  end.

Inductive step : world -> world -> Prop :=
  | step_serve w q : acceptable w q -> step w (serve q w).

(** Between two requests. *)
Record idle (w : world) : Prop := mkIdle {
  idle_conn : w_conn w = None;
  idle_lock : w_lock w = false;
  idle_wf : wf (w_tables w) }.

(** What a request may do to the tables. *)
Inductive effect (t : tables) : tables -> Prop :=
  | eff_none : effect t t
  | eff_create cfg id : bb_validate_config cfg = BB_OK -> config_ok cfg -> id_ok id -> int_ok (id_seq id) ->
      find_election t id = None -> effect t (add_election id cfg t)
  | eff_move r to : find_election t (er_id r) = Some r -> bb_is_legal_transition (state_of r) to = true ->
      effect t (put_state r to t)
  | eff_cast e b r : id_ok e -> nonce_ok (bl_nonce b) -> fresh_receipt t e b -> version_room t ->
      find_election t e = Some r -> state_of r = BB_STATE_OPEN -> bl_cert_name b ∈ certs_of t e ->
      (bb_decrypt_ballot b < Z.of_nat (length (options_of t e)))%Z -> nonce_row_of t e (bl_nonce b) = None ->
      effect t (record_effect t e (bl_cert_name b) (bl_nonce b)
                  (receipt_hash (bl_nonce b) (next_version t e (bl_cert_name b)))
                  (bb_decrypt_ballot b) (next_version t e (bl_cert_name b))).

(** ** The specifications have exactly these effects *)

Lemma record_spec_effect t e b : id_ok e -> nonce_ok (bl_nonce b) -> fresh_receipt t e b -> version_room t ->
  effect t (snd (record_spec t e b)).
Proof.
  intros He Hn Hf Hv. unfold record_spec. repeat case_match; try constructor; cbn [snd rc_hash bb_issue_receipt].
  eapply eff_cast; try done.
  - by eapply bool_decide_eq_true_1.
  - by apply Z.ltb_lt.
Qed.

Lemma transition_spec_effect t e to : effect t (snd (transition_spec t e to)).
Proof.
  unfold transition_spec. destruct (find_election t e) as [r|] eqn:Hr; [|constructor].
  case_match; [|constructor]. cbn [snd]. apply eff_move; [|done]. by rewrite (find_id t e r).
Qed.

Lemma create_spec_effect t cfg id : config_ok cfg -> id_ok id -> int_ok (id_seq id) ->
  effect t (snd (create_spec t cfg id)).
Proof. intros Hc Hi Hs. unfold create_spec. repeat case_match; try constructor; try done. Qed.

Lemma write_outcome_effect {A} t bad (spec : res A * tables) r t' :
  effect t (snd spec) -> write_outcome t bad spec r t' -> effect t t'.
Proof. intros He [[_ ->]|(_ & _ & [->| ->])]; [done|constructor|done]. Qed.

Lemma oframe_idle w w' : oframe w w' -> idle w -> wf (w_tables w') -> idle w'.
Proof. intros [] []. split; [done|congruence|done]. Qed.

Lemma effect_wf t t' : wf t -> effect t t' -> wf t'.
Proof.
  intros Hwf He. destruct He; [done|by apply add_election_wf|by apply put_state_wf|].
  apply record_wf; try done; auto.
  - by eapply find_election_ids.
  - split; [apply payload_option_ok|done].
  - apply receipt_hash_ok.
Qed.

Lemma osim_idle {A} (m : prog world A) x w : idle w -> osim (w_tables w) m x ->
  idle (snd (m w)) /\ effect (w_tables w) (w_tables (snd (m w))).
Proof.
  intros Hi Hm. pose proof Hi as [Hc Hl Hwf]. specialize (Hm w Hc eq_refl). destruct (m w) as [r w'].
  destruct Hm as (Hf & Ht & _). simpl. rewrite Ht. split; [|constructor].
  apply (oframe_idle w); [done..|]. by rewrite Ht.
Qed.

Lemma outcome_idle {A} (m : prog world A) spec w : idle w -> effect (w_tables w) (snd spec) ->
  match m w with (r, w') => oframe w w' /\ write_outcome (w_tables w) (~ healthy w) spec r (w_tables w') end ->
  idle (snd (m w)) /\ effect (w_tables w) (w_tables (snd (m w))).
Proof.
  intros Hi He Hm. destruct (m w) as [r w']. destruct Hm as (Hf & Ho). simpl.
  assert (He' : effect (w_tables w) (w_tables w')) by (by eapply write_outcome_effect).
  split; [|done]. apply (oframe_idle w); [done..|]. eapply effect_wf; [apply Hi|done].
Qed.

(** Every request, on every fault schedule, ends idle and has one of the
    effects above or none. *)
Lemma serve_ok w q : idle w -> acceptable w q -> idle (serve q w) /\ effect (w_tables w) (w_tables (serve q w)).
Proof.
  intros Hi Ha. pose proof Hi as [Hc Hl Hwf]. destruct q as [cfg id|e to|e b|e c|e c|e|e h]; cbn [acceptable serve] in *.
  - destruct id as [|a id].
    + destruct Ha as (Hcfg & Hr & Hh). destruct (decide (bb_validate_config cfg = BB_OK)) as [Hv|Hv].
      * destruct (create_auto_ok _ Hwf cfg Hcfg w Hv Hr Hh Hc eq_refl) as (w' & -> & Hf & Ht).
        destruct (next_id_ok _ Hwf Hr) as [Hid Hseq].
        assert (He : effect (w_tables w) (w_tables w')).
        { simpl. rewrite Ht. apply eff_create; try done. by apply next_id_fresh. }
        split; [|done]. apply (oframe_idle w); [done..|]. by eapply effect_wf.
      * rewrite create_invalid by done. simpl. split; [by split|constructor].
    + destruct Ha as (Hcfg & Hid & Hseq). eapply outcome_idle; [done| |by apply create_ok].
      by apply create_spec_effect.
  - eapply outcome_idle; [done|apply transition_spec_effect|by apply transition_ok].
  - destruct Ha as (He & Hn & Hf & Hv).
    pose proof (record_ballot_ok _ Hwf e He b Hn Hf Hv w Hc eq_refl) as H.
    destruct (bb_record_ballot e b w) as [r w']. destruct H as (Hc' & Hl' & _ & Ho). simpl.
    assert (Heff : effect (w_tables w) (w_tables w')).
    { destruct Ho as [[_ ->]|(_ & _ & [->|[_ ->]])]; [by apply record_spec_effect|constructor|by apply record_spec_effect]. }
    split; [|done]. split; [done|done|]. by eapply effect_wf.
  - eapply osim_idle; [done|by apply join_ok].
  - eapply osim_idle; [done|by apply results_ok].
  - eapply osim_idle; [done|by eapply (results_admin_ok _ Hwf e Ha [])].
  - destruct Ha as (He & Hp & Hlh). eapply osim_idle; [done|by apply lookup_ok].
Qed.

(** ** Elections only move forward *)

Definition rank (s : bb_state_t) : nat :=
  match s with BB_STATE_DRAFT => 0 | BB_STATE_OPEN => 1 | BB_STATE_CLOSED => 2 | BB_STATE_PUBLISHED => 3 end.

Lemma legal_rank from to : bb_is_legal_transition from to = true -> rank to = S (rank from).
Proof. destruct from, to; done. Qed.

(** Everything but the state column of an election is fixed at creation. *)
Record advances (t t' : tables) (r r' : election_row) : Prop := {
  adv_title : er_title r' = er_title r;
  adv_open : er_open r' = er_open r;
  adv_close : er_close r' = er_close r;
  adv_rank : (rank (state_of r) <= rank (state_of r'))%nat;
  adv_certs : certs_of t' (er_id r) ≡ₚ certs_of t (er_id r);
  adv_options : options_of t' (er_id r) ≡ₚ options_of t (er_id r) }.

Lemma advances_refl t t' r : certs_of t' (er_id r) ≡ₚ certs_of t (er_id r) ->
  options_of t' (er_id r) ≡ₚ options_of t (er_id r) -> advances t t' r r.
Proof. by split. Qed.

Lemma effect_advances t t' e r : wf t -> effect t t' -> find_election t e = Some r ->
  exists r', find_election t' e = Some r' /\ advances t t' r r' /\ (rank (state_of r') <= S (rank (state_of r)))%nat.
Proof.
  intros Hwf He Hr. pose proof (find_id t e r Hr) as Hre. destruct He as [|cfg id Hv Hcfg Hid Hseq Hnew|r2 to Hr2 Hl|e2 b r2].
  - exists r. split; [done|]. split; [by apply advances_refl|lia].
  - assert (e <> id) as Hne by congruence. exists r. rewrite made_find, decide_False by done.
    split; [done|]. split; [|lia]. apply advances_refl; rewrite Hre.
    + by rewrite made_certs, decide_False.
    + by rewrite made_options, decide_False.
  - rewrite put_state_find by done. destruct (decide (e = er_id r2)) as [->|Hne].
    + assert (r2 = r) as -> by congruence. exists (moved_row r to). split; [done|].
      pose proof (legal_rank _ _ Hl) as Hrk. rewrite <-(moved_state r to) in Hrk.
      split; [|lia]. split; try done. lia.
    + exists r. split; [done|]. split; [by apply advances_refl|lia].
  - destruct (record_same t e2 (bl_cert_name b) (bl_nonce b) (receipt_hash (bl_nonce b) (next_version t e2 (bl_cert_name b)))
      (bb_decrypt_ballot b)) as (Ee & Eo & Eg & _).
    exists r. unfold find_election. rewrite Ee. split; [done|]. split; [|lia].
    apply advances_refl; unfold certs_of, options_of; [by rewrite Eg|by rewrite Eo].
Qed.

(** No ballot counts for or leaves an election that is not open. *)
Lemma effect_votes t t' e r : wf t -> effect t t' -> find_election t e = Some r -> state_of r <> BB_STATE_OPEN ->
  votes t' e = votes t e.
Proof.
  intros Hwf He Hr Hs. destruct He as [|cfg id Hv Hcfg Hid Hseq Hnew|r2 to Hr2 Hl|e2 b r2 He2 Hn Hf Hroom Hr2 Hs2 Hc Ho Hnn];
    [done|by apply made_votes|done|].
  rewrite votes_recorded; try done; auto.
  - rewrite decide_False; [done|]. intros ->. congruence.
  - by eapply find_election_ids.
  - split; [apply payload_option_ok|done].
  - apply receipt_hash_ok.
Qed.

End System.
End System.
