(* ===== verification/BallotBox.v ===== *)
(** * What the ballot box guarantees

    The theorems about libballotbrain as a whole: recording a ballot, the
    life of an election, the tally and the receipts, over every sequence of
    requests and every fault schedule of the store. *)
From stdpp Require Import relations.
From S2P Require Import Prelude CText Types Rows Sql Wire Server BrainDb Brain Fixture Printed DbLogic Store Commands BrainLogic Record Votes Invariant Elections Lifecycle Creation System.
Import Server BrainDb Brain Store Record Votes Invariant Elections Lifecycle Creation System Printed.

Module BallotBox.
Section BallotBox.
Context `{R : Runner}.

(** The four conditions on a ballot, together. *)
Definition castable (w : world) (e : cstr) (b : bb_ballot_t) : Prop := acceptable w (Cast e b).

(** C1: recording a ballot is atomic under every schedule of deadlocks,
    refusals, lost answers and failed connects. It is about a ballot with an
    election id of at most 15 plain bytes, a non-empty nonce of at most 32
    plain bytes that is no marker line of the runner ([nonce_ok]), a receipt
    hash no earlier ballot of the election has ([fresh_receipt]), and a store
    with version numbers left ([version_room]). Then the handler always ends
    with no transaction open and the write lock released; the tables are those
    of [record_spec] and the result its result, or the store (not the program)
    stopped it with BB_ERR_DB or BB_ERR_RETRY, and then the tables are
    untouched, except that a commit whose answer was lost may have taken
    effect whole. The conditions matter: [marker_nonce_votes_twice],
    [empty_nonce_is_replayed] and [colliding_receipts_lose_a_vote]
    (Examples.v) show the code outside of them. *)
Theorem record_ballot_atomic w e b : idle w -> id_ok e -> nonce_ok (bl_nonce b) ->
  fresh_receipt (w_tables w) e b -> version_room (w_tables w) ->
  let '(r, w') := bb_record_ballot e b w in
  idle w' /\ record_outcome (w_tables w) e b (~ healthy w) r (w_tables w').
Proof.
  intros Hi He Hn Hf Hv. destruct (serve_ok w (Cast e b) Hi) as [Hi' _]; [done|]. cbn [serve] in Hi'.
  destruct Hi as [Hc _ Hwf].
  pose proof (record_ballot_ok _ Hwf e He b Hn Hf Hv w Hc eq_refl) as H.
  destruct (bb_record_ballot e b w) as [r w']. split; [done|]. tauto.
Qed.

Lemma record_spec_ok t e b rc : fst (record_spec t e b) = Ok rc ->
  exists r, find_election t e = Some r /\ state_of r = BB_STATE_OPEN /\ bl_cert_name b ∈ certs_of t e /\
    (bb_decrypt_ballot b < Z.of_nat (length (options_of t e)))%Z /\ nonce_row_of t e (bl_nonce b) = None /\
    rc = bb_issue_receipt b (next_version t e (bl_cert_name b)) /\
    snd (record_spec t e b) = record_effect t e (bl_cert_name b) (bl_nonce b) (rc_hash rc)
      (bb_decrypt_ballot b) (next_version t e (bl_cert_name b)).
Proof.
  unfold record_spec. repeat case_match; simpl; intros [= <-]. eexists. split; [done|]. split; [done|].
  split; [by eapply bool_decide_eq_true_1|]. split; [by apply Z.ltb_lt|]. done.
Qed.

Lemma nonce_row_mem t e n : nonce_row_of t e n <> None <-> mkNR e n ∈ t_nonce t.
Proof.
  unfold nonce_row_of. split.
  - intros H. destruct (head _) as [[e2 n2]|] eqn:E; [|done]. apply head_filter_Some in E as [[= <- <-] Hin]. done.
  - intros Hin H. by apply (head_filter_None _ _ _ H Hin).
Qed.

(** C2: a ballot that is accepted is counted, under every fault schedule. It
    is about a ballot with an election id of at most 15 plain bytes, a
    non-empty nonce of at most 32 plain bytes that is no marker line of the
    runner ([nonce_ok]), a receipt hash no earlier ballot of the election has
    ([fresh_receipt]), and a store with version numbers left ([version_room]).
    When [bb_record_ballot] returns BB_OK, the election was open, the voter on
    its list, the option on its ballot paper and the nonce unspent; the
    abstract box is the old one with this voter's entry replaced by (option,
    version), where the version is one past the voter's last; every other
    election is as it was; the nonce is spent and the receipt is the one
    issued for that version. *)
Theorem record_ballot_counts w e b rc w' : idle w -> id_ok e -> nonce_ok (bl_nonce b) ->
  fresh_receipt (w_tables w) e b -> version_room (w_tables w) ->
  bb_record_ballot e b w = (Ok rc, w') ->
  let t := w_tables w in
  let ver := match owner_of t e (bl_cert_name b) with Some o => (wr_ver o + 1)%Z | None => 1%Z end in
  (exists r, find_election t e = Some r /\ state_of r = BB_STATE_OPEN) /\
  bl_cert_name b ∈ certs_of t e /\
  (0 <= bb_decrypt_ballot b < Z.of_nat (length (options_of t e)))%Z /\
  mkNR e (bl_nonce b) ∉ t_nonce t /\ mkNR e (bl_nonce b) ∈ t_nonce (w_tables w') /\
  rc = bb_issue_receipt b ver /\
  (forall e2, votes (w_tables w') e2 =
     if decide (e2 = e) then <[bl_cert_name b := (bb_decrypt_ballot b, ver)]> (votes t e) else votes t e2).
Proof.
  intros Hi He Hn Hf Hv Heq t ver. pose proof Hi as [Hc _ Hwf].
  pose proof (record_ballot_ok _ Hwf e He b Hn Hf Hv w Hc eq_refl) as H. rewrite Heq in H.
  destruct H as (_ & _ & _ & [[Hr Ht]|(_ & [H|H] & _)]); [|done|done].
  symmetry in Hr. destruct (record_spec_ok _ _ _ _ Hr) as (r & Hfe & Hst & Hcert & Hopt & Hnn & Hrc & Hsp).
  rewrite Hsp in Ht. pose proof (payload_option_ok b) as Hp.
  assert (Hver : next_version t e (bl_cert_name b) = ver).
  { destruct (next_version_ok _ Hwf e (bl_cert_name b) Hv) as (_ & _ & Hnv). unfold ver.
    destruct (owner_of t e (bl_cert_name b)) as [o|] eqn:Ho; [by apply Hnv|]. unfold next_version. by rewrite Ho. }
  fold t in Hrc, Ht. rewrite Hver in Hrc, Ht.
  split; [by exists r|]. split; [done|]. split; [done|]. split; [|split; [|split; [done|]]].
  - intros Hin. by apply nonce_row_mem in Hin.
  - rewrite Ht, <-Hver. destruct (record_same t e (bl_cert_name b) (bl_nonce b) (rc_hash rc) (bb_decrypt_ballot b))
      as (_ & _ & _ & ->). left.
  - intros e2. rewrite Ht, <-Hver. rewrite Hrc. rewrite <-Hver. apply votes_recorded; try done.
    + by eapply find_election_ids.
    + apply receipt_hash_ok.
    + by apply Hf.
Qed.

(** C3: with a store that answers, the result is decided by the gates, in the
    order of the decision table: unknown election, then closed or not open,
    then eligibility, then the option, then the replayed nonce; a ballot that
    passes them all is accepted. So the handler is total: it always returns
    one of these answers. It is about a ballot with an election id of at most
    15 plain bytes, a non-empty nonce of at most 32 plain bytes that is no
    marker line of the runner ([nonce_ok]), a receipt hash no earlier ballot
    of the election has ([fresh_receipt]), and a store with version numbers
    left ([version_room]). An empty nonce is outside:
    [empty_nonce_is_replayed] shows it accepted while spent. *)
Theorem record_ballot_gates w e b : idle w -> id_ok e -> nonce_ok (bl_nonce b) ->
  fresh_receipt (w_tables w) e b -> version_room (w_tables w) -> healthy w ->
  let t := w_tables w in
  code_of (fst (bb_record_ballot e b w)) =
  match find_election t e with
  | None => BB_ERR_NOT_FOUND
  | Some r =>
    match state_of r with
    | BB_STATE_CLOSED | BB_STATE_PUBLISHED => BB_ERR_CLOSED
    | BB_STATE_DRAFT => BB_ERR_NOT_OPEN
    | BB_STATE_OPEN =>
      if decide (bl_cert_name b ∈ certs_of t e) then
        if decide (bb_decrypt_ballot b < Z.of_nat (length (options_of t e)))%Z then
          if decide (mkNR e (bl_nonce b) ∈ t_nonce t) then BB_ERR_REPLAY else BB_OK
        else BB_ERR_BAD_OPTION
      else BB_ERR_NOT_ELIGIBLE
    end
  end.
Proof.
  intros [Hc _ Hwf] He Hn Hf Hv Hh t.
  pose proof (record_ballot_ok _ Hwf e He b Hn Hf Hv w Hc eq_refl) as H.
  destruct (bb_record_ballot e b w) as [r w']. destruct H as (_ & _ & _ & [[-> _]|(Hbad & _)]); [|done].
  cbn [fst]. unfold record_spec. fold t. destruct (find_election t e) as [x|]; [|done].
  destruct (state_of x); try done. rewrite bool_decide_decide. destruct (decide (_ ∈ certs_of t e)); [|done].
  destruct (Z.ltb_spec (bb_decrypt_ballot b) (Z.of_nat (length (options_of t e)))); [rewrite decide_True by done|by rewrite decide_False by lia].
  destruct (decide (mkNR e (bl_nonce b) ∈ t_nonce t)) as [Hin|Hin].
  - apply nonce_row_mem in Hin. by destruct (nonce_row_of t e (bl_nonce b)).
  - destruct (nonce_row_of t e (bl_nonce b)) eqn:E; [|done]. exfalso. apply Hin, nonce_row_mem. by rewrite E.
Qed.


(** ** Sequences of requests *)

Lemma rtc_serve w w' : rtc step w w' -> idle w -> idle w'.
Proof.
  induction 1 as [|x y z Hxy _ IH]; [done|]. intros Hi. apply IH. destruct Hxy as [x q Ha]. by apply serve_ok.
Qed.

Lemma nonces_grow t t' x : effect t t' -> x ∈ t_nonce t -> x ∈ t_nonce t'.
Proof.
  intros He Hx. destruct He as [|cfg id|r to|e b]; try done.
  - destruct (made_tables t id cfg) as (_ & _ & _ & _ & _ & ->). done.
  - destruct (record_same t e (bl_cert_name b) (bl_nonce b) (receipt_hash (bl_nonce b) (next_version t e (bl_cert_name b)))
      (bb_decrypt_ballot b)) as (_ & _ & _ & ->). by right.
Qed.

Lemma rtc_nonces w w' x : rtc step w w' -> idle w -> x ∈ t_nonce (w_tables w) -> x ∈ t_nonce (w_tables w').
Proof.
  induction 1 as [|w y z Hxy _ IH]; [done|]. intros Hi Hx. destruct Hxy as [w q Ha].
  destruct (serve_ok w q Hi Ha) as [Hi' He]. apply IH; [done|]. by eapply nonces_grow.
Qed.

(** C5: from any idle world, every sequence of acceptable requests on every
    fault schedule keeps the ballot box idle between requests (no transaction
    left open, the write lock free) and its tables well formed: ids, owners,
    ballot hashes and nonces are keys, the live ballots are exactly those the
    owner table points at, only eligible voters own one, every recorded option
    exists, and every list fits the structs that carry it. [acceptable]
    (System.v) asks plain texts that fit their structs, of a cast the same
    four conditions as above, and of a creation an id of its own, or a healthy
    store to allocate one: [allocator_repeats_an_id] shows the allocator
    failing on a store that is not. *)
Theorem reachable_well_formed w w' : idle w -> rtc step w w' -> idle w'.
Proof. intros. by eapply rtc_serve. Qed.

(** C6: a nonce is good for one ballot. Once a ballot with some nonce was
    accepted in an election, no later ballot carrying that nonce is ever
    accepted there, whoever casts it and whatever acceptable requests are
    served in between on whatever fault schedule, while version numbers are
    left. It is about a ballot with an election id of at most 15 plain bytes,
    a non-empty nonce of at most 32 plain bytes that is no marker line of the
    runner ([nonce_ok]), a receipt hash no earlier ballot of the election has
    ([fresh_receipt]), and a store with version numbers left ([version_room]).
    [empty_nonce_is_replayed] and [marker_nonce_votes_twice] are what
    [nonce_ok] keeps out. *)
Theorem nonce_never_reused w e b rc w1 w2 b2 : idle w -> id_ok e -> nonce_ok (bl_nonce b) ->
  fresh_receipt (w_tables w) e b -> version_room (w_tables w) ->
  bb_record_ballot e b w = (Ok rc, w1) -> rtc step w1 w2 ->
  bl_nonce b2 = bl_nonce b -> version_room (w_tables w2) ->
  code_of (fst (bb_record_ballot e b2 w2)) <> BB_OK.
Proof.
  intros Hi He Hn Hf Hv Heq Hsteps Hnn Hroom.
  destruct (serve_ok w (Cast e b) Hi) as [Hi1 _]; [done|]. cbn [serve] in Hi1. rewrite Heq in Hi1. simpl in Hi1.
  pose proof Hi as [Hc _ Hwf].
  assert (Hin : mkNR e (bl_nonce b) ∈ t_nonce (w_tables w1)).
  { pose proof (record_ballot_ok _ Hwf e He b Hn Hf Hv w Hc eq_refl) as H.
    rewrite Heq in H. destruct H as (_ & _ & _ & [[Hr Ht]|(_ & [H|H] & _)]); [|done|done].
    symmetry in Hr. destruct (record_spec_ok _ _ _ _ Hr) as (r & _ & _ & _ & _ & _ & Hrc & Hsp).
    rewrite Ht, Hsp. destruct (record_same (w_tables w) e (bl_cert_name b) (bl_nonce b) (rc_hash rc) (bb_decrypt_ballot b))
      as (_ & _ & _ & ->). left. }
  pose proof (rtc_nonces _ _ _ Hsteps Hi1 Hin) as Hin2. rewrite <-Hnn in Hin2.
  assert (Hi2 : idle w2) by (by eapply rtc_serve). pose proof Hi2 as [Hc2 _ Hwf2].
  assert (Hf2 : fresh_receipt (w_tables w2) e b2).
  { intros Hnone. by apply nonce_row_mem in Hin2. }
  pose proof (record_ballot_ok _ Hwf2 e He b2 ltac:(by rewrite Hnn) Hf2 Hroom w2 Hc2 eq_refl) as H.
  destruct (bb_record_ballot e b2 w2) as [r2 w3]. cbn [fst].
  destruct H as (_ & _ & _ & [[-> _]|(_ & [->| ->] & _)]); [|done|done].
  destruct (fst (record_spec (w_tables w2) e b2)) eqn:E; [|by apply record_spec_err in E as (_ & _ & ?)].
  destruct (record_spec_ok _ _ _ _ E) as (_ & _ & _ & _ & _ & Hnone & _). by apply nonce_row_mem in Hin2.
Qed.

(** C7: an election only moves forward along DRAFT, OPEN, CLOSED, PUBLISHED.
    Over every sequence of acceptable requests ([acceptable], System.v) and
    every fault schedule it is never lost, its title, times, options and
    eligible list stay what they were at creation, and its state never steps
    back. *)
Theorem election_only_advances w w' e r : idle w -> rtc step w w' -> find_election (w_tables w) e = Some r ->
  exists r', find_election (w_tables w') e = Some r' /\ advances (w_tables w) (w_tables w') r r'.
Proof.
  intros Hi Hsteps. revert r. induction Hsteps as [w|w y z Hxy _ IH]; intros r Hr.
  { exists r. split; [done|]. by apply advances_refl. }
  destruct Hxy as [w q Ha]. destruct (serve_ok w q Hi Ha) as [Hi' He].
  destruct (effect_advances _ _ e r (idle_wf _ Hi) He Hr) as (r1 & Hr1 & [A1 A2 A3 A4 A5 A6] & _).
  destruct (IH Hi' r1 Hr1) as (r2 & Hr2 & [B1 B2 B3 B4 B5 B6]). exists r2. split; [done|].
  assert (Hid : er_id r1 = er_id r) by (rewrite (find_id _ _ _ Hr), (find_id _ _ _ Hr1); done).
  rewrite Hid in *. split; [congruence..|lia|by rewrite B5|by rewrite B6].
Qed.

(** C8: the count is final once voting ends. From a world where an election is
    CLOSED or PUBLISHED, no sequence of acceptable requests ([acceptable],
    System.v), on any fault schedule, changes its counted ballots. *)
Theorem closed_count_is_final w w' e r : idle w -> rtc step w w' -> find_election (w_tables w) e = Some r ->
  (state_of r = BB_STATE_CLOSED \/ state_of r = BB_STATE_PUBLISHED) ->
  votes (w_tables w') e = votes (w_tables w) e.
Proof.
  intros Hi Hsteps. revert r. induction Hsteps as [w|w y z Hxy _ IH]; intros r Hr Hs; [done|].
  destruct Hxy as [w q Ha]. destruct (serve_ok w q Hi Ha) as [Hi' He].
  destruct (effect_advances _ _ e r (idle_wf _ Hi) He Hr) as (r1 & Hr1 & [_ _ _ Hrk _ _] & _).
  rewrite (IH Hi' r1 Hr1).
  - eapply effect_votes; [apply Hi|done|done|]. by destruct Hs as [-> | ->].
  - destruct Hs as [Hs|Hs]; rewrite Hs in Hrk; simpl in Hrk; destruct (state_of r1); simpl in Hrk; auto; lia.
Qed.

(** ** Reading *)

Lemma osim_ok {A} t (m : prog world A) x w r w' : osim t m x -> w_conn w = None -> w_tables w = t ->
  m w = (r, w') -> code_of r <> BB_ERR_DB -> r = x.
Proof.
  intros Hm Hc Ht Heq Hr. specialize (Hm w Hc Ht). rewrite Heq in Hm. destruct Hm as (_ & _ & [Hx|[_ ->]]); done.
Qed.

Lemma osim_healthy {A} t (m : prog world A) x w : osim t m x -> w_conn w = None -> w_tables w = t -> healthy w ->
  fst (m w) = x.
Proof. intros Hm Hc Ht Hh. specialize (Hm w Hc Ht). destruct (m w). by destruct Hm as (_ & _ & [->|[? _]]). Qed.

Lemma count_partition (n : nat) (l : list Z) : Forall (fun z => 0 <= z < Z.of_nat n)%Z l ->
  sum_list (map (fun i => length (filter (fun z => z = Z.of_nat i) l)) (seq 0 n)) = length l.
Proof.
  induction 1 as [|z l Hz _ IH].
  - generalize 0%nat at 1. induction n as [|n IHn]; intros k; [done|]. cbn [seq map sum_list_with]. by rewrite IHn.
  - cbn [length]. rewrite <-IH. clear IH. destruct (Z_of_nat_complete z ltac:(lia)) as [k ->].
    assert (Hk : (k < n)%nat) by lia. clear Hz.
    rewrite <-(take_drop k (seq 0 n)), !map_app, !sum_list_with_app.
    rewrite drop_seq, take_seq, Nat.min_l by lia. destruct (n - k)%nat as [|m] eqn:E; [lia|]. cbn [seq map sum_list_with].
    rewrite Nat.add_0_l. rewrite filter_cons_True by done.
    assert (Hout : forall a b, (k < a \/ a + b <= k)%nat ->
      sum_list (map (fun i => length (filter (fun z => z = Z.of_nat i) (Z.of_nat k :: l))) (seq a b)) =
      sum_list (map (fun i => length (filter (fun z => z = Z.of_nat i) l)) (seq a b))).
    { intros a b Hab. f_equal. apply map_ext_in. intros i Hi%in_seq. by rewrite filter_cons_False by lia. }
    rewrite !Hout by lia. cbn [length id]. unfold id. lia.
Qed.

Lemma votes_size t e : wf t -> size (votes t e) = length (live_of t e).
Proof.
  intros Hwf. rewrite <-(length_map live_key), (live_keys t e Hwf), length_map. unfold votes.
  pose proof (owners_certs t e Hwf) as Hnd. rewrite <-(length_map (fun o => (wr_cert o, choice t o))).
  rewrite <-votes_keys with (t := t) in Hnd. revert Hnd. generalize (map (fun o => (wr_cert o, choice t o)) (owners_of t e)).
  induction l as [|[k v] l IH]; [done|]. cbn [map]. intros [Hk Hnd]%NoDup_cons.
  rewrite list_to_map_cons, map_size_insert_None by (by apply not_elem_of_list_to_map_1). cbn [length]. by rewrite IH.
Qed.

Lemma votes_in_range t e : wf t ->
  sum_list (map (fun i => votes_for i (votes t e)) (seq 0 (length (options_of t e)))) = size (votes t e).
Proof.
  intros Hwf. rewrite votes_size by done. rewrite <-(length_map br_opt). rewrite <-(count_partition (length (options_of t e))).
  - f_equal. apply map_ext. intros i. pose proof (tally_votes t e i Hwf) as Ht. unfold count_option in Ht.
    rewrite (filter_map br_opt (fun z => z = Z.of_nat i)), length_map. lia.
  - apply Forall_map, Forall_forall. intros r [[Hre _] Hr]%list_elem_of_filter.
    pose proof (wf_choices _ Hwf) as H1. pose proof (wf_ballot _ Hwf) as H2. rewrite Forall_forall in H1, H2.
    specialize (H1 r Hr). destruct (H2 r Hr) as (_ & _ & Ho & _). simpl in H1. rewrite Hre in H1. simpl. lia.
Qed.

(** The row published for the current ballot of an owner. *)
Definition counted_row (t : tables) (o : owner_row) : bb_ballot_hash_t :=
  mkHashRow (wr_hash o) (choice t o).1 (choice t o).2 0.

Definition key_row (t : tables) (k : cstr * cstr * Z) : bb_ballot_hash_t :=
  match ballot_of t k.1.1 k.1.2 with Some r => mkHashRow k.1.2 (br_opt r) (br_ver r) 0 | None => mkHashRow k.1.2 0 k.2 0 end.

Lemma live_rows t e : wf t -> map hash_view (live_of t e) ≡ₚ map (counted_row t) (owners_of t e).
Proof.
  intros Hwf. transitivity (map (key_row t) (map live_key (live_of t e))).
  - rewrite map_map. apply Permutation_refl', map_ext_Forall, Forall_forall.
    intros r [[_ Hs] Hr]%list_elem_of_filter. unfold key_row, live_key, hash_view. cbn [fst snd].
    by rewrite ballot_of_row, Hs.
  - rewrite (live_keys t e Hwf), map_map. apply Permutation_refl', map_ext. intros o.
    unfold key_row, counted_row, choice, owner_key. cbn [fst snd]. by destruct (ballot_of _ _ _).
Qed.

Lemma owners_hashes t e : wf t -> NoDup (map wr_hash (owners_of t e)).
Proof.
  intros Hwf. assert (Hp : map wr_hash (owners_of t e) ≡ₚ map br_hash (live_of t e)).
  { transitivity (map (fun k : cstr * cstr * Z => k.1.2) (map owner_key (owners_of t e))); [by rewrite map_map|].
    rewrite <-(live_keys t e Hwf), map_map. done. }
  rewrite Hp. apply (NoDup_fmap_1 (pair e)).
  assert (Hs : map (pair e) (map br_hash (live_of t e)) = map (fun r => (br_eid r, br_hash r)) (live_of t e)).
  { rewrite map_map. apply map_ext_Forall, Forall_forall. by intros r [[-> _] _]%list_elem_of_filter. }
  change (NoDup (map (pair e) (map br_hash (live_of t e)))). rewrite Hs.
  eapply sublist_NoDup; [apply (wf_hashes _ Hwf)|]. apply (fmap_sublist (fun r => (br_eid r, br_hash r))), sublist_filter.
Qed.

Lemma live_le_certs t e : wf t -> (length (live_of t e) <= length (certs_of t e))%nat.
Proof.
  intros Hwf. rewrite <-(length_map live_key), (live_keys t e Hwf), length_map, <-(length_map wr_cert).
  apply NoDup_length_le; [by apply owners_certs|]. intros x (o & -> & [<- Ho]%list_elem_of_filter)%list_elem_of_fmap.
  pose proof (wf_entitled _ Hwf) as HF. rewrite Forall_forall in HF. by apply HF.
Qed.

(** C9: published results are the votes. When [bb_get_results] answers, the
    election is PUBLISHED and the caller on its list; each option's figure is
    the number of voters whose current ballot names it, beside that option's
    name; the figures add up to the number of voters who cast a ballot, at
    most the number of eligible entries; and the hash rows are, up to order,
    exactly the current ballots, one per voter: its receipt hash, the option
    and version it counts with, not superseded. The hashes differ, and the
    rest of the array is zero: no vote is lost and nobody counts twice. *)
Theorem results_are_the_votes w e c rs w' : idle w -> id_ok e -> bb_get_results e c w = (Ok rs, w') ->
  let t := w_tables w in
  (exists r, find_election t e = Some r /\ state_of r = BB_STATE_PUBLISHED /\ rs_title rs = er_title r) /\
  c ∈ certs_of t e /\
  rs_option_count rs = Z.of_nat (length (options_of t e)) /\
  (forall i, (i < length (options_of t e))%nat -> rs_tally rs !! i = Some (Z.of_nat (votes_for i (votes t e))) /\
     rs_options rs !! i = option_array (options_of t e) !! i) /\
  sum_list (map (fun i => votes_for i (votes t e)) (seq 0 (length (options_of t e)))) = size (votes t e) /\
  (size (votes t e) <= length (certs_of t e))%nat /\
  rs_hash_count rs = Z.of_nat (size (votes t e)) /\
  take (size (votes t e)) (rs_hashes rs) ≡ₚ map (counted_row t) (owners_of t e) /\
  drop (size (votes t e)) (rs_hashes rs) = replicate (BB_MAX_VOTERS - size (votes t e)) zero_row /\
  NoDup (map wr_cert (owners_of t e)) /\ NoDup (map wr_hash (owners_of t e)) /\
  (forall o, o ∈ owners_of t e -> votes t e !! wr_cert o = Some (choice t o)).
Proof.
  intros [Hc _ Hwf] He Heq t.
  assert (Hr : Ok rs = results_spec true t e c) by (eapply osim_ok; [by apply results_ok|done..]).
  unfold results_spec in Hr. destruct (find_election t e) as [r|] eqn:Hf; [|done].
  destruct (decide (state_of r = BB_STATE_PUBLISHED)) as [Hs|Hs];
    [rewrite (bool_decide_eq_true_2 _ Hs) in Hr|rewrite (bool_decide_eq_false_2 _ Hs) in Hr; done].
  destruct (decide (c ∈ certs_of t e)) as [Hin|Hin];
    [rewrite (bool_decide_eq_true_2 _ Hin) in Hr|rewrite (bool_decide_eq_false_2 _ Hin) in Hr; done].
  simpl in Hr. injection Hr as ->. split; [by exists r|]. split; [done|]. split; [done|].
  pose proof (wf_option_room t Hwf e) as Hroom. split; [|split; [by apply votes_in_range|]].
  - intros i Hi. cbn [rs_tally rs_options results_of].
    rewrite (lookup_app_l (take _ (option_array _))), (lookup_take_lt (option_array _)) by
      (rewrite ?length_take, ?length_option_array; lia). split; [|done].
    rewrite lookup_app_l, lookup_take_lt by (rewrite ?length_take; unfold tally_view; rewrite ?length_map, ?length_seq; lia).
    unfold tally_view. rewrite list_lookup_fmap, lookup_seq_lt by (unfold BB_MAX_OPTIONS in *; lia). simpl.
    by rewrite tally_votes.
  - rewrite votes_size by done. split; [by apply live_le_certs|]. split; [done|].
    pose proof (live_in_room t Hwf e) as Hlv.
    cbn [rs_hashes results_of]. unfold pad. rewrite length_map, drop_replicate.
    rewrite take_app_length', drop_app_length' by (by rewrite length_map).
    split; [by apply live_rows|]. split; [done|]. split; [by apply owners_certs|]. split; [by apply owners_hashes|].
    intros o Ho. rewrite votes_lookup by done. erewrite (proj2 (owner_of_iff t e (wr_cert o) o Hwf)); [done|].
    by apply list_elem_of_filter in Ho as [].
Qed.

(** With a store that answers, results are given to an eligible voter, or
    over the admin channel to the operator, exactly when the election is
    PUBLISHED; every refusal names its gate, publication first, and no tally
    is read before the gates are passed. *)
Theorem results_answer w e c : idle w -> id_ok e -> healthy w ->
  fst (bb_get_results e c w) = results_spec true (w_tables w) e c /\
  fst (bb_get_results_admin e w) = results_spec false (w_tables w) e c.
Proof.
  intros [Hc _ Hwf] He Hh. split.
  - eapply osim_healthy; [by apply results_ok|done..].
  - eapply osim_healthy; [by apply results_admin_ok|done..].
Qed.


Lemma counted_ballot t e c o : wf t -> owner_of t e c = Some o ->
  exists b, ballot_of t e (wr_hash o) = Some b /\ br_sup b = 0%Z /\ votes t e !! c = Some (br_opt b, br_ver b).
Proof.
  intros Hwf Ho. rewrite votes_lookup, Ho by done. apply owner_of_iff in Ho as (Hin & Hoe & _); [|done].
  destruct (owner_live _ o Hwf Hin) as (b & _ & Hs & _ & Hb). exists b. cbn [fmap option_fmap option_map].
  unfold choice. rewrite Hb. by rewrite Hoe in Hb.
Qed.

Lemma live_owned t e h b : wf t -> ballot_of t e h = Some b -> br_sup b = 0%Z ->
  exists c o, owner_of t e c = Some o /\ wr_hash o = h.
Proof.
  intros Hwf Hb Hs. apply ballot_of_iff in Hb as (Hin & Hbe & Hbh); [|done].
  assert (Hk : live_key b ∈ map owner_key (t_owner t)).
  { rewrite <-(wf_live _ Hwf). apply list_elem_of_fmap. exists b. split; [done|]. by apply list_elem_of_filter. }
  apply list_elem_of_fmap in Hk as (o & Hok & Ho). unfold live_key, owner_key in Hok. injection Hok as H1 H2 H3.
  exists (wr_cert o), o. split; [|congruence]. apply owner_of_iff; [done|]. split; [done|]. split; [congruence|done].
Qed.

(** C12: a receipt is found exactly while its ballot counts. Looking up a hash
    in an existing election of a store that answers either gives that hash,
    not superseded, with the option and version of a voter's current ballot
    and the name the loaded election has for that option, or BB_ERR_NOT_FOUND,
    and then the hash is that of no voter's current ballot: a superseded
    receipt and one never issued get the same answer. *)
Theorem receipt_found_iff_counted w e h r : idle w -> id_ok e -> plain h -> (length h <= 64)%nat -> healthy w ->
  find_election (w_tables w) e = Some r ->
  let t := w_tables w in
  match fst (bb_lookup_hash e h w) with
  | Ok (row, name) =>
      bh_hash row = h /\ bh_superseded row = 0%Z /\
      exists c o el, owner_of t e c = Some o /\ wr_hash o = h /\
        votes t e !! c = Some (bh_option_index row, bh_version row) /\
        fst (load_election e w) = Ok el /\ (0 <= bh_option_index row < el_option_count el)%Z /\
        el_options el !! Z.to_nat (bh_option_index row) = Some name
  | Err x => x = BB_ERR_NOT_FOUND /\ forall c o, owner_of t e c = Some o -> wr_hash o <> h
  end.
Proof.
  intros [Hc _ Hwf] He Hp Hl Hh Hr t. erewrite osim_healthy by (by apply lookup_ok || done).
  unfold lookup_spec, live_ballot. fold t in Hr |- *. rewrite Hr. destruct (ballot_of t e h) as [b|] eqn:Hb.
  2: { split; [done|]. intros c o Ho <-. destruct (counted_ballot t e c o Hwf Ho) as (b & Hb' & _). by rewrite Hb in Hb'. }
  destruct (decide (br_sup b = 0%Z)) as [Hs|Hs].
  2: { split; [done|]. intros c o Ho <-. destruct (counted_ballot t e c o Hwf Ho) as (b' & Hb' & Hs' & _).
       rewrite Hb in Hb'. by injection Hb' as <-. }
  destruct (ballot_of_ok _ Hwf _ _ _ Hb) as ((_ & _ & Ho & _) & Hbe & Hbh & Hin). split; [done|]. split; [done|].
  destruct (live_owned t e h b Hwf Hb Hs) as (c & o & Hco & Hoh). exists c, o, (election_view t r).
  destruct (counted_ballot t e c o Hwf Hco) as (b' & Hb' & _ & Hv). rewrite Hoh, Hb in Hb'. injection Hb' as <-.
  split; [done|]. split; [done|]. split; [done|]. split; [|split].
  - rewrite (osim_healthy t _ _ w (load_o t Hwf e He)) by done. unfold load_result. by rewrite Hr.
  - cbn [hash_view bh_option_index election_view el_option_count]. rewrite (find_id _ _ _ Hr), <-Hbe. split; [lia|].
    pose proof (wf_choices _ Hwf) as HF. rewrite Forall_forall in HF. by apply HF.
  - cbn [hash_view bh_option_index election_view el_options]. rewrite (find_id _ _ _ Hr). unfold option_name.
    destruct (lookup_lt_is_Some_2 (option_array (options_of t e)) (Z.to_nat (br_opt b))) as [x ->]; [|done].
    rewrite length_option_array. lia.
Qed.

(** Joining answers from the stored election.  An eligible voter of an
    open election receives it together with whether a ballot of theirs already
    counts and its version; every refusal is decided in order: unknown
    election, empty certificate, not on the list, not open. *)
Theorem join_answer w e c : idle w -> id_ok e -> healthy w -> fst (bb_join e c w) = join_spec (w_tables w) e c.
Proof. intros [Hc _ Hwf] He Hh. eapply osim_healthy; [by apply join_ok|done..]. Qed.

(** ** Creating *)

Lemma option_array_lookup rows base i : NoDup (map or_idx rows) -> Forall (fun r => 0 <= or_idx r)%Z rows ->
  (i < length base)%nat ->
  foldl (fun opts r => <[Z.to_nat (or_idx r) := or_name r]> opts) base rows !! i =
  match head (filter (fun r => or_idx r = Z.of_nat i) rows) with Some r => Some (or_name r) | None => base !! i end.
Proof.
  intros Hnd HF. revert base; induction HF as [|r rows Hr _ IH]; intros base Hi; [done|]. cbn [map] in Hnd.
  apply NoDup_cons in Hnd as [Hnr Hnd]. cbn [foldl]. rewrite IH by (rewrite ?length_insert; done).
  rewrite filter_cons. destruct (decide (or_idx r = Z.of_nat i)) as [E|E].
  - rewrite filter_none; [|apply Forall_forall; intros x Hx Hxi; apply Hnr; rewrite E, <-Hxi; apply list_elem_of_fmap; eauto].
    simpl. rewrite E, Nat2Z.id. by rewrite list_lookup_insert_eq.
  - destruct (head _); [done|]. by rewrite list_lookup_insert_ne by lia.
Qed.

Lemma option_array_perm rows rows' : rows ≡ₚ rows' -> NoDup (map or_idx rows) -> Forall (fun r => 0 <= or_idx r)%Z rows ->
  option_array rows = option_array rows'.
Proof.
  intros Hp Hnd HF. apply list_eq. intros i.
  destruct (decide (i < BB_MAX_OPTIONS)%nat) as [Hi|Hi].
  2: { rewrite !lookup_ge_None_2; [done|..]; rewrite length_option_array; lia. }
  assert (Hl : (i < length no_options)%nat) by (unfold no_options; rewrite length_replicate; done).
  unfold option_array. rewrite !option_array_lookup; try done; [|by rewrite <-Hp|by rewrite <-Hp].
  rewrite (filter_key or_idx (Z.of_nat i) rows) by done. 
  pose proof (filter_key or_idx (Z.of_nat i) rows' ltac:(by rewrite <-Hp)) as Hk.
  assert (Hpf : filter (fun r => or_idx r = Z.of_nat i) rows ≡ₚ filter (fun r => or_idx r = Z.of_nat i) rows') by (by rewrite Hp).
  rewrite (filter_key or_idx (Z.of_nat i) rows), Hk in Hpf by done. rewrite Hk.
  destruct (head (filter _ rows)) as [r|], (head (filter _ rows')) as [r'|]; try done;
    [apply Permutation_singleton_inj in Hpf; by subst|by apply Permutation_length in Hpf|by apply Permutation_length in Hpf].
Qed.

Lemma option_rows_array e l : (length l <= BB_MAX_OPTIONS)%nat -> option_array (option_rows e 0 l) = pad l no_options.
Proof.
  intros Hl. rewrite <-(fill_slots l no_options) by (unfold no_options; by rewrite length_replicate).
  unfold option_array, option_rows. generalize no_options as base.
  assert (H : forall k (base : list cstr), foldl (fun opts r => <[Z.to_nat (or_idx r) := or_name r]> opts) base
      (imap (fun i o => mkOR e (Z.of_nat k + Z.of_nat i) o) l) =
    foldl (fun es '(i, x) => <[i := x]> es) base (imap (fun i x => ((k + i)%nat, x)) l)).
  { clear. induction l as [|o l IH]; intros k base; [done|]. cbn [imap foldl or_idx or_name].
    rewrite Z.add_0_r, Nat2Z.id, Nat.add_0_r. erewrite imap_ext; [rewrite (IH (S k))|].
    - f_equal. apply imap_ext. intros i x _. simpl. f_equal. lia.
    - intros i x _. simpl. f_equal. lia. }
  intros base. apply (H 0%nat).
Qed.

Lemma option_rows_idx e l k : map or_idx (option_rows e k l) = map (fun i => k + Z.of_nat i)%Z (seq 0 (length l)).
Proof.
  apply list_eq. intros i. rewrite !list_lookup_fmap. unfold option_rows. rewrite list_lookup_imap.
  destruct (decide (i < length l)%nat) as [Hi|Hi].
  - rewrite lookup_seq_lt by done. by apply lookup_lt_is_Some_2 in Hi as [x ->].
  - rewrite lookup_ge_None_2 by lia. by rewrite lookup_seq_ge by lia.
Qed.

(** C14: an election reads back as it was configured. With a store that
    answers, creating a valid configuration of plain texts that fit
    ([config_ok], no voter name that is empty or a marker line) under an
    explicit new id (plain, at most 15 bytes, its number within an int)
    succeeds, and loading that id
    returns a DRAFT election with the configured title, times and options in
    order, and the configured voters (in some order); creating it again is
    refused as taken. [empty_name_locks_the_list_out] (Examples.v) shows the
    list not reading back with an empty voter name. *)
Theorem created_election_reads_back w cfg e : idle w -> healthy w -> id_ok e -> e <> [] -> int_ok (id_seq e) ->
  config_ok cfg -> bb_validate_config cfg = BB_OK -> find_election (w_tables w) e = None ->
  let opts := slots (cfg_option_count cfg) BB_MAX_OPTIONS (cfg_options cfg) in
  let certs := slots (cfg_eligible_count cfg) BB_MAX_VOTERS (cfg_eligible cfg) in
  exists w' el, bb_create_election cfg e w = (Ok e, w') /\ fst (load_election e w') = Ok el /\
    el_id el = e /\ el_title el = cfg_title cfg /\ el_state el = BB_STATE_DRAFT /\
    el_open_time el = cfg_open_time cfg /\ el_close_time el = cfg_close_time cfg /\
    el_options el = pad opts no_options /\ el_option_count el = Z.of_nat (length opts) /\
    slots (el_eligible_count el) BB_MAX_VOTERS (el_eligible el) ≡ₚ certs /\
    fst (bb_create_election cfg e w') = Err BB_ERR_CONFIG_ID_TAKEN.
Proof.
  intros [Hc Hlk Hwf] Hh He Hne Hseq Hcfg Hv Hnew opts certs.
  pose proof (create_ok _ Hwf cfg Hcfg e w He Hne Hseq Hc eq_refl) as H.
  destruct (bb_create_election cfg e w) as [r w']. destruct H as [Hf [[-> Ht]|(Hn & _)]]; [|done].
  unfold create_spec in *. rewrite Hv, Hnew in *. cbn [fst snd] in *.
  assert (Hwf' : wf (w_tables w')) by (rewrite Ht; by apply add_election_wf).
  assert (Hfind : find_election (w_tables w') e = Some (made_row e cfg)) by (rewrite Ht, made_find, decide_True by done; done).
  pose proof (made_options _ Hwf e Hnew cfg e) as Ho. rewrite decide_True in Ho by done. rewrite <-Ht in Ho.
  pose proof (made_certs _ Hwf e Hnew cfg e) as Hg. rewrite decide_True in Hg by done. rewrite <-Ht in Hg.
  fold opts in Ho. fold certs in Hg.
  assert (Hlo : (length opts <= BB_MAX_OPTIONS)%nat) by apply slots_length.
  assert (Hlc : (length certs <= BB_MAX_VOTERS)%nat) by apply slots_length.
  exists w', (election_view (w_tables w') (made_row e cfg)). split; [done|].
  split; [|do 5 (split; [done|])].
  { erewrite osim_healthy; [|by apply load_o|apply Hf|done|by apply Hf]. unfold load_result. by rewrite Hfind. }
  cbn [election_view el_options el_option_count el_eligible el_eligible_count er_id made_row].
  split; [|split; [|split]].
  - rewrite <-(option_rows_array e opts Hlo). apply option_array_perm; [done|..].
    + rewrite Ho, option_rows_idx. apply NoDup_fmap_2; [intros ? ? ?; lia|apply NoDup_seq].
    + rewrite Ho. apply Forall_forall. intros x Hx. apply elem_of_lookup_imap in Hx as (k & o & -> & _). simpl. lia.
  - rewrite Ho. unfold option_rows. by rewrite length_imap.
  - pose proof (Permutation_length Hg) as Hlg. unfold slots, pad. rewrite Z.min_l, Nat2Z.id, take_app_length by lia. done.
  - pose proof (create_ok _ Hwf' cfg Hcfg e w' He Hne Hseq (of_conn _ _ Hf) eq_refl) as H.
    destruct (bb_create_election cfg e w') as [r w2]. unfold create_spec in H. rewrite Hv, Hfind in H.
    destruct H as [_ [[-> _]|(Hn & _)]]; [done|]. exfalso. by apply Hn, Hf.
Qed.

(** An allocated id is new: with a store that answers, creating without a
    desired id takes the number after the highest one in use (100 in an empty
    store), that id belongs to no election, and the election is stored under
    it. *)
Theorem allocated_id_is_new w cfg : idle w -> healthy w -> config_ok cfg -> bb_validate_config cfg = BB_OK ->
  seq_room (w_tables w) ->
  exists w', bb_create_election cfg [] w = (Ok (next_id (w_tables w)), w') /\
    find_election (w_tables w) (next_id (w_tables w)) = None /\
    find_election (w_tables w') (next_id (w_tables w)) = Some (made_row (next_id (w_tables w)) cfg) /\
    idle w'.
Proof.
  intros [Hc Hl Hwf] Hh Hcfg Hv Hr. destruct (create_auto_ok _ Hwf cfg Hcfg w Hv Hr Hh Hc eq_refl) as (w' & -> & Hf & Ht).
  pose proof (next_id_fresh _ Hwf Hr) as Hnew. destruct (next_id_ok _ Hwf Hr) as [Hid Hseq].
  exists w'. split; [done|]. split; [done|]. rewrite Ht. split; [rewrite made_find, decide_True by done; done|].
  apply (oframe_idle w); [done|by split|]. rewrite Ht. by apply add_election_wf.
Qed.

(** ** Errors *)

Lemma attempts_no_retry n cmd out is_write w : code_of (fst (attempts n cmd out is_write w)) <> BB_ERR_RETRY.
Proof.
  revert w; induction n as [|n IH]; intros w; [done|]. rewrite attempts_S.
  destruct (one_shot_attempt cmd out is_write w) as [[a|e] w1]; [done|]. by destruct e.
Qed.

(** Outside of a caller's transaction [db_exec] never reports
    BB_ERR_RETRY: it redoes the whole command, and gives up with BB_ERR_DB.
    For every command, every store and every schedule. *)
Theorem db_exec_hides_retry cmd out w : w_conn w = None -> code_of (fst (db_exec cmd out w)) <> BB_ERR_RETRY.
Proof.
  intros Hc. unfold db_exec. cbv zeta. change (w_conn (bb_log (log_line cmd) w)) with (w_conn w). rewrite Hc.
  apply attempts_no_retry.
Qed.

End BallotBox.
End BallotBox.
