(* ===== verification/Examples.v ===== *)
(** * The ballot box at work, and where it breaks

    Concrete elections on the runner of Fixture.v: instances of the theorems
    of BallotBox.v, and the behaviours outside of their hypotheses that the
    code does not guard against. *)
From stdpp Require Import relations.
From S2P Require Import Prelude CText Types Rows Sql Wire Server BrainDb Brain Fixture Printed DbLogic Store Commands BrainLogic Record Votes Invariant Elections Lifecycle Creation System BallotBox.
Import Server BrainDb Brain Fixture Store Record Votes Elections Lifecycle Creation System BallotBox Printed.

Module Examples.

Definition E : cstr := $"E-100".
Definition voters : list cstr := [$"ann"; $"bob"].
Definition box : world := serve (Transition E BB_STATE_OPEN) (serve (Create (config voters) E) start).
Definition yes : bb_ballot_t := ballot ($"ann") ($"n1") "001".
Definition closed_box : world :=
  serve (Transition E BB_STATE_PUBLISHED) (serve (Transition E BB_STATE_CLOSED) (serve (Cast E yes) box)).

(** ** The examples satisfy the hypotheses *)

#[local] Ltac text := split; [by repeat constructor|simpl; lia].

Lemma start_idle : idle start.
Proof. split; [done|done|apply wf_empty]. Qed.

Lemma E_ok : id_ok E /\ int_ok (id_seq E).
Proof. split; [text|]. vm_compute. split; discriminate. Qed.

Lemma config_fits : config_ok (config voters).
Proof. split; [text|text|text|by repeat (constructor; [text|])|]. by repeat (constructor; [split; [text|done]|]). Qed.

Lemma create_acceptable : acceptable start (Create (config voters) E).
Proof. destruct E_ok. split; [apply config_fits|]. done. Qed.

Lemma box_idle : idle box.
Proof.
  apply (serve_ok _ (Transition E BB_STATE_OPEN)); [|apply E_ok].
  apply (serve_ok _ (Create (config voters) E)); [apply start_idle|apply create_acceptable].
Qed.

Lemma nonce_fits : nonce_ok ($"n1").
Proof. split; [text|done]. Qed.

Lemma yes_castable : castable box E yes.
Proof.
  split; [apply E_ok|]. split; [apply nonce_fits|]. split; [intros _; vm_compute; reflexivity|].
  unfold version_room, INT_MAX. vm_compute. reflexivity.
Qed.

Lemma closed_idle : idle closed_box.
Proof.
  do 2 (apply (serve_ok _ (Transition E _)); [|apply E_ok]).
  apply (serve_ok _ (Cast E yes)); [apply box_idle|apply yes_castable].
Qed.

(** ** Instances of the theorems *)

Lemma faults_idle f w : idle w -> idle (with_faults f w).
Proof. intros [Hc Hl Hwf]. by split. Qed.

Lemma faults_castable f w e b : castable w e b -> castable (with_faults f w) e b.
Proof. done. Qed.

Definition shaky : world := with_faults [F_ok; F_retry; F_ok; F_lost false true] box.

Lemma shaky_idle : idle shaky.
Proof. unfold shaky. apply faults_idle, box_idle. Qed.

Lemma shaky_castable : castable shaky E yes.
Proof. unfold shaky. apply faults_castable, yes_castable. Qed.

Lemma shaky_fails : ~ healthy shaky.
Proof. by intros [H _]. Qed.

Lemma record_ballot_atomic_witness : ~ healthy shaky /\
  let '(r, w') := bb_record_ballot E yes shaky in
  idle w' /\ record_outcome (w_tables shaky) E yes (~ healthy shaky) r (w_tables w').
Proof.
  split; [exact shaky_fails|]. destruct shaky_castable as (He & Hn & Hf & Hv).
  pose proof (record_ballot_atomic shaky E yes shaky_idle He Hn) as H. exact (H Hf Hv).
Defined.

Definition cast_yes : res bb_receipt_t * world := Eval vm_compute in bb_record_ballot E yes box.
Definition yes_receipt : bb_receipt_t := match fst cast_yes with Ok rc => rc | Err _ => zero_receipt end.

Lemma record_ballot_counts_witness :
  bb_record_ballot E yes box = (Ok yes_receipt, snd cast_yes) /\
  votes (w_tables (snd cast_yes)) E = <[$"ann" := (1, 1)%Z]> (votes (w_tables box) E).
Proof.
  assert (Heq : bb_record_ballot E yes box = (Ok yes_receipt, snd cast_yes)) by (vm_compute; reflexivity).
  split; [exact Heq|].
  destruct yes_castable as (He & Hn & Hf & Hv).
  destruct (record_ballot_counts box E yes yes_receipt (snd cast_yes) box_idle He Hn Hf Hv Heq)
    as (_ & _ & _ & _ & _ & _ & Hvotes).
  rewrite (Hvotes E), decide_True by reflexivity. reflexivity.
Defined.

Lemma record_ballot_gates_witness : healthy box /\ code_of (fst (bb_record_ballot E yes box)) = BB_OK.
Proof.
  assert (Hh : healthy box) by (split; vm_compute; reflexivity). split; [exact Hh|].
  destruct yes_castable as (He & Hn & Hf & Hv).
  rewrite (record_ballot_gates box E yes box_idle He Hn Hf Hv Hh). vm_compute. reflexivity.
Defined.

(** A ballot for an election that does not exist. *)
Lemma stray_castable : castable box ($"E-7") yes.
Proof.
  split; [text|]. split; [apply nonce_fits|]. split; [intros _; vm_compute; reflexivity|].
  unfold version_room, INT_MAX. vm_compute. reflexivity.
Qed.


(** A whole election, from the empty store to the published results. *)
Lemma cast_steps : rtc step box closed_box.
Proof.
  unfold closed_box. eapply rtc_l; [apply (step_serve _ (Cast E yes)), yes_castable|].
  eapply rtc_l; [apply (step_serve _ (Transition E BB_STATE_CLOSED)), E_ok|].
  eapply rtc_l; [apply (step_serve _ (Transition E BB_STATE_PUBLISHED)), E_ok|]. apply rtc_refl.
Qed.

Lemma box_steps : rtc step start box.
Proof.
  unfold box. eapply rtc_l; [apply (step_serve _ (Create (config voters) E)), create_acceptable|].
  eapply rtc_l; [apply (step_serve _ (Transition E BB_STATE_OPEN)), E_ok|]. apply rtc_refl.
Qed.

Lemma whole_run : rtc step start closed_box.
Proof. exact (rtc_trans _ _ _ box_steps cast_steps).
Qed.

Lemma reachable_well_formed_witness : idle closed_box /\ size (votes (w_tables closed_box) E) = 1%nat.
Proof. split; [exact (reachable_well_formed start closed_box start_idle whole_run)|vm_compute; reflexivity]. Defined.

Definition copycat : bb_ballot_t := ballot ($"bob") ($"n1") "000".

(** Bob votes in between, then sends Ann's nonce. *)
Definition bobs : bb_ballot_t := ballot ($"bob") ($"n2") "000".
Definition both : world := serve (Cast E bobs) (snd cast_yes).

Lemma bobs_step : rtc step (snd cast_yes) both.
Proof.
  unfold both. eapply rtc_l; [apply (step_serve _ (Cast E bobs))|apply rtc_refl]. split; [apply E_ok|].
  split; [split; [text|done]|]. split; [intros _; vm_compute; reflexivity|]. unfold version_room, INT_MAX. vm_compute. reflexivity.
Qed.

Lemma nonce_never_reused_witness : code_of (fst (bb_record_ballot E copycat both)) <> BB_OK /\
  size (votes (w_tables both) E) = 2%nat.
Proof.
  split; [|vm_compute; reflexivity]. destruct yes_castable as (He & Hn & Hf & Hv).
  apply (nonce_never_reused box E yes yes_receipt (snd cast_yes) both copycat box_idle He Hn Hf Hv).
  - vm_compute. reflexivity.
  - apply bobs_step.
  - reflexivity.
  - unfold version_room, INT_MAX. vm_compute. reflexivity.
Defined.

Definition box_row : election_row := Eval vm_compute in default (mkER 0 [] [] [] [] []) (find_election (w_tables box) E).

Lemma election_only_advances_witness : state_of box_row = BB_STATE_OPEN /\
  exists r', find_election (w_tables closed_box) E = Some r' /\ state_of r' = BB_STATE_PUBLISHED /\
             advances (w_tables box) (w_tables closed_box) box_row r'.
Proof.
  split; [reflexivity|].
  destruct (election_only_advances box closed_box E box_row box_idle cast_steps) as (r' & Hr & Ha); [vm_compute; reflexivity|].
  exists r'. split; [exact Hr|]. split; [|exact Ha]. vm_compute in Hr. injection Hr as <-. reflexivity.
Defined.

(** Voting has ended with Ann's ballot; Bob's late one comes before publication. *)
Definition ended : world := serve (Transition E BB_STATE_CLOSED) (serve (Cast E yes) box).
Definition ended_row : election_row := Eval vm_compute in default (mkER 0 [] [] [] [] []) (find_election (w_tables ended) E).
Definition closed_row : election_row := Eval vm_compute in default (mkER 0 [] [] [] [] []) (find_election (w_tables closed_box) E).
Definition late : world := serve (Transition E BB_STATE_PUBLISHED) (serve (Cast E bobs) ended).

Lemma ended_idle : idle ended.
Proof.
  unfold ended. apply (serve_ok _ (Transition E _)); [|apply E_ok]. apply (serve_ok _ (Cast E yes)); [apply box_idle|apply yes_castable].
Qed.

Lemma late_steps : rtc step ended late.
Proof.
  unfold late. eapply rtc_l; [apply (step_serve _ (Cast E bobs))|].
  - split; [apply E_ok|]. split; [split; [text|done]|]. split; [intros _; vm_compute; reflexivity|].
    unfold version_room, INT_MAX. vm_compute. reflexivity.
  - eapply rtc_l; [apply (step_serve _ (Transition E BB_STATE_PUBLISHED)), E_ok|apply rtc_refl].
Qed.

Lemma closed_count_is_final_witness :
  votes (w_tables late) E = votes (w_tables ended) E /\ size (votes (w_tables ended) E) = 1%nat.
Proof.
  split; [|vm_compute; reflexivity].
  apply (closed_count_is_final ended late E ended_row ended_idle late_steps); [|left]; vm_compute; reflexivity.
Defined.

Definition published : res bb_results_t * world := Eval vm_compute in bb_get_results E ($"bob") closed_box.
Definition published_results : bb_results_t := match fst published with Ok rs => rs | Err _ => zero_results end.

Lemma results_are_the_votes_witness :
  rs_tally published_results !! 1%nat = Some (Z.of_nat (votes_for 1 (votes (w_tables closed_box) E))) /\
  votes_for 1 (votes (w_tables closed_box) E) = 1%nat /\
  take 1 (rs_hashes published_results) ≡ₚ [mkHashRow (rc_hash yes_receipt) 1 1 0].
Proof.
  assert (Heq : bb_get_results E ($"bob") closed_box = (Ok published_results, snd published)) by (vm_compute; reflexivity).
  destruct (results_are_the_votes closed_box E ($"bob") published_results (snd published) closed_idle (proj1 E_ok) Heq)
    as (_ & _ & _ & Ht & _ & _ & _ & Hrows & _).
  split; [apply Ht; vm_compute; lia|]. split; [vm_compute; reflexivity|].
  replace (size (votes (w_tables closed_box) E)) with 1%nat in Hrows by (vm_compute; reflexivity).
  rewrite Hrows. vm_compute. reflexivity.
Defined.

Lemma closed_healthy : healthy closed_box.
Proof. split; vm_compute; reflexivity. Qed.

Lemma results_answer_witness :
  fst (bb_get_results E ($"eve") closed_box) = Err BB_ERR_NOT_ELIGIBLE /\
  (exists rs, fst (bb_get_results_admin E closed_box) = Ok rs).
Proof.
  destruct (results_answer closed_box E ($"eve") closed_idle (proj1 E_ok) closed_healthy) as [-> ->].
  split; [vm_compute; reflexivity|]. eexists. vm_compute. reflexivity.
Defined.


Lemma yes_hash_plain : plain (rc_hash yes_receipt).
Proof. unfold plain. rewrite Forall_forall. intros c Hc. apply list_elem_of_In in Hc. revert c Hc. apply forallb_forall. vm_compute. reflexivity. Qed.

Lemma receipt_found_iff_counted_witness :
  exists c row, fst (bb_lookup_hash E (rc_hash yes_receipt) closed_box) = Ok (row, $"dog") /\
    votes (w_tables closed_box) E !! c = Some (bh_option_index row, bh_version row).
Proof.
  pose proof (receipt_found_iff_counted closed_box E (rc_hash yes_receipt) closed_row closed_idle (proj1 E_ok) yes_hash_plain
    ltac:(vm_compute; lia) closed_healthy ltac:(vm_compute; reflexivity)) as H. cbv zeta in H.
  destruct (fst (bb_lookup_hash E (rc_hash yes_receipt) closed_box)) as [[row name]|x] eqn:Heq.
  - destruct H as (_ & _ & c & o & el & _ & _ & Hv & _). exists c, row. split; [|exact Hv].
    vm_compute in Heq. injection Heq as <- <-. reflexivity.
  - vm_compute in Heq. discriminate Heq.
Defined.

Lemma join_answer_witness : fst (bb_join E ($"eve") box) = Err BB_ERR_NOT_ELIGIBLE.
Proof.
  rewrite (join_answer box E ($"eve") box_idle (proj1 E_ok)); [vm_compute; reflexivity|].
  split; vm_compute; reflexivity.
Defined.

Lemma created_election_reads_back_witness :
  exists w' el, bb_create_election (config voters) E start = (Ok E, w') /\ fst (load_election E w') = Ok el /\
    el_title el = $"Mascot" /\ el_option_count el = 2%Z.
Proof.
  destruct (created_election_reads_back start (config voters) E start_idle) as (w' & el & H1 & H2 & _ & H3 & _ & _ & _ & _ & H4 & _).
  - split; reflexivity.
  - apply E_ok.
  - discriminate.
  - apply E_ok.
  - apply config_fits.
  - reflexivity.
  - reflexivity.
  - exists w', el. rewrite H1, H2, H3, H4. repeat split; reflexivity.
Defined.

Lemma allocated_id_is_new_witness : exists w', bb_create_election (config voters) [] start = (Ok E, w') /\ idle w'.
Proof.
  destruct (allocated_id_is_new start (config voters) start_idle) as (w' & H1 & _ & _ & H2).
  - split; reflexivity.
  - apply config_fits.
  - reflexivity.
  - unfold seq_room, INT_MAX. vm_compute. discriminate.
  - exists w'. split; [exact H1|exact H2].
Defined.

Lemma db_exec_hides_retry_witness :
  code_of (fst (db_exec (new_cmd BB_DB_GET_ELECTION E) true (with_faults [F_retry; F_retry; F_retry] box))) <> BB_ERR_RETRY.
Proof. apply (db_exec_hides_retry (new_cmd BB_DB_GET_ELECTION E) true (with_faults [F_retry; F_retry; F_retry] box)). reflexivity. Defined.

(** ** Outside of the hypotheses *)

Definition tally_of (w : world) (i : nat) : Z := count_option (live_of (w_tables w) E) i.

(** BB_ERR_RETRY, which types.h says never crosses the daemon boundary,
    is what [bb_record_ballot] returns when the store aborts the opening
    statement once, or every one of the three attempts at its commit. *)
Theorem record_ballot_leaks_retry :
  fst (bb_record_ballot E yes (with_faults [F_retry] box)) = Err BB_ERR_RETRY /\
  fst (bb_record_ballot E yes (with_faults (concat (replicate 3 (replicate 10 F_ok ++ [F_retry]))) box)) = Err BB_ERR_RETRY.
Proof. split; vm_compute; reflexivity. Qed.

Definition marker_ballot : bb_ballot_t := ballot ($"ann") ($"<<END ok>>") "001".

(** A nonce that reads like the runner's end marker breaks the replay
    gate and the one-ballot rule.  The row [select nonce] prints is taken for
    the end of the reply, so the spent nonce is not seen and every later reply
    of the transaction is read one statement late, the prior-ballot query
    included: the same ballot, sent twice by one voter, is accepted twice and
    counted twice. *)
Theorem marker_nonce_votes_twice :
  let '(r1, w1) := bb_record_ballot E marker_ballot box in
  let '(r2, w2) := bb_record_ballot E marker_ballot w1 in
  code_of r1 = BB_OK /\ code_of r2 = BB_OK /\ tally_of w2 1 = 2%Z /\ length (t_owner (w_tables w2)) = 1%nat.
Proof. vm_compute. repeat split; reflexivity. Qed.

Definition blank_ballot : bb_ballot_t := ballot ($"ann") [] "001".

(** An empty nonce can be replayed.  Its row prints as an empty line,
    which ends the table for [db_row_count]; the count does not match the
    trailer, the reply is refused, and the spent nonce is not seen: the same
    ballot is accepted again and again. *)
Theorem empty_nonce_is_replayed :
  let '(r1, w1) := bb_record_ballot E blank_ballot box in
  let '(r2, w2) := bb_record_ballot E blank_ballot w1 in
  code_of r1 = BB_OK /\ code_of r2 = BB_OK /\ t_nonce (w_tables w2) = [mkNR E []; mkNR E []].
Proof. vm_compute. repeat split; reflexivity. Qed.

(** Two elections under one id.  When the connection for the id query
    fails, [bb_alloc_id] falls back to E-100, and a creation that reaches the
    store right after inserts a second E-100. *)
Theorem allocator_repeats_an_id :
  let w1 := serve (Create (config voters) []) start in
  let '(r, w2) := bb_create_election (config voters) [] (with_opens [false] w1) in
  r = Ok E /\ ids (w_tables w2) = [E; E].
Proof. vm_compute. repeat split; reflexivity. Qed.

(** A receipt collision loses a vote.  The placeholder hash maps the
    nonces Ez and FY to one receipt; when the first voter updates, the delete
    by hash takes the other voter's row too, and that vote is gone from the
    count while its owner row stays. *)
Theorem colliding_receipts_lose_a_vote :
  let w1 := serve (Cast E (ballot ($"ann") ($"Ez") "001")) box in
  let w2 := serve (Cast E (ballot ($"bob") ($"FY") "001")) w1 in
  let '(r, w3) := bb_record_ballot E (ballot ($"ann") ($"n3") "000") w2 in
  tally_of w2 1 = 2%Z /\ code_of r = BB_OK /\
  tally_of w3 0 = 1%Z /\ tally_of w3 1 = 0%Z /\ length (t_owner (w_tables w3)) = 2%nat.
Proof. vm_compute. repeat split; reflexivity. Qed.

(** One empty name on the eligible list locks everybody out.  The row it
    prints is an empty line, the whole list reads as having no rows, and a
    voter who is on the list is refused as not eligible. *)
Theorem empty_name_locks_the_list_out :
  let w := serve (Transition E BB_STATE_OPEN) (serve (Create (config [$"ann"; []]) E) start) in
  $"ann" ∈ certs_of (w_tables w) E /\ fst (bb_join E ($"ann") w) = Err BB_ERR_NOT_ELIGIBLE.
Proof. split; [apply (list_elem_of_lookup_2 _ 0)|]; vm_compute; reflexivity. Qed.

End Examples.
