(* ===== verification/Htttp.v ===== *)
(** * The message grammar: libhtttp/htttp.c

    A wire buffer is the list of its bytes; an offset into it is the suffix
    that starts there.  A parsed text field is read back as a C string, so it
    is what precedes the first NUL of the copied bytes. *)
From S2P Require Import Prelude CText Rows.

Module Htttp.

Definition HTTTP_VERSION : cstr := $"HTTTP/1.0".
Definition VERSION_LEN : nat := 9.
Definition HTTTP_MAX_METHOD : nat := 16.
Definition HTTTP_MAX_PATH : nat := 256.
Definition HTTTP_MAX_HEADERS : nat := 32.
Definition HTTTP_MAX_KEY : nat := 64.
Definition HTTTP_MAX_VALUE : nat := 256.

Inductive htttp_err := HTTTP_ERR_MALFORMED | HTTTP_ERR_TOOLONG | HTTTP_ERR_LENGTH | HTTTP_ERR_NOSPACE.

Inductive hres (A : Type) := HOk (a : A) | HErr (e : htttp_err).
Arguments HOk {A} _.
Arguments HErr {A} _.

Definition hbind {A B} (m : hres A) (k : A -> hres B) : hres B :=
  match m with HOk a => k a | HErr e => HErr e end.
Notation "'let?' x ':=' m 'in' k" := (hbind m (fun x => k))
  (at level 10, x pattern, m at level 100, k at level 200).

Record htttp_header_t := mkHeader { h_key : cstr; h_value : cstr }.

(** [body = None] is the NULL pointer. *)
Record htttp_request_t := mkRequest {
  rq_method : cstr; rq_path : cstr; rq_headers : list htttp_header_t;
  rq_body : option (list ascii); rq_body_len : nat }.

Record htttp_response_t := mkResponse {
  rp_status : Z; rp_headers : list htttp_header_t;
  rp_body : option (list ascii); rp_body_len : nat }.

(** ** Helpers *)

Definition NUL : ascii := Ascii.zero.
Definition COLON : ascii := ":"%char.
Definition SP : ascii := " "%char.

Definition to_lower (c : ascii) : Z :=
  if ((65 <=? code c)%Z && (code c <=? 90)%Z) then (code c - 65 + 97)%Z else code c.

Fixpoint ci_eq (a b : cstr) : bool :=
  match a, b with
  | [], [] => true
  | x :: a', y :: b' => (to_lower x =? to_lower y)%Z && ci_eq a' b'
  | _, _ => false
  end.

(** [find_crlf]: the bytes before the next CRLF and those behind it. *)
Fixpoint find_crlf (buf : list ascii) : option (list ascii * list ascii) :=
  match buf with
  | [] => None
  | c :: buf' =>
    match buf' with
    | d :: rest =>
      if (ceqb c CR && ceqb d LF) then Some ([], rest)
      else match find_crlf buf' with Some (l, r) => Some (c :: l, r) | None => None end
    | [] => None
    end
  end.

(** Bytes read as a C string. *)
Fixpoint cstring (s : list ascii) : cstr :=
  match s with
  | [] => []
  | c :: s' => if ceqb c NUL then [] else c :: cstring s'
  end.

Definition copy_token (cap : nat) (src : list ascii) : hres cstr :=
  if (cap <=? length src)%nat then HErr HTTTP_ERR_TOOLONG else HOk (cstring src).

Fixpoint uint_loop (value : Z) (s : list ascii) : hres Z :=
  match s with
  | [] => HOk value
  | c :: s' =>
    if negb (is_digit c) then HErr HTTTP_ERR_MALFORMED
    else
      let digit := digit_val c in
      if ((UINT32_MAX - digit) / 10 <? value)%Z then HErr HTTTP_ERR_TOOLONG
      else uint_loop (u32 (value * 10 + digit)) s'
  end.

Definition parse_uint (src : list ascii) : hres Z :=
  match src with
  | [] => HErr HTTTP_ERR_MALFORMED
  | _ => if (32 <? length src)%nat then HErr HTTTP_ERR_TOOLONG else uint_loop 0 src
  end.

(** The bytes before the first [c] and those behind it, if there is one. *)
Fixpoint split_at (c : ascii) (s : list ascii) : option (list ascii * list ascii) :=
  match s with
  | [] => None
  | x :: s' =>
    if ceqb x c then Some ([], s')
    else match split_at c s' with Some (l, r) => Some (x :: l, r) | None => None end
  end.

Fixpoint htttp_header_get (hs : list htttp_header_t) (key : cstr) : option cstr :=
  match hs with
  | [] => None
  | h :: hs' => if ci_eq (h_key h) key then Some (h_value h) else htttp_header_get hs' key
  end.

(** ** Parsing *)

(** The header lines; [hs] are the ones stored so far.  Every turn consumes a
    CRLF, so [S (length rest)] turns are enough. *)
Fixpoint header_loop (fuel : nat) (rest : list ascii) (hs : list htttp_header_t)
    : hres (list htttp_header_t * list ascii) :=
  match fuel with
  | O => HErr HTTTP_ERR_MALFORMED
  | S f =>
    match find_crlf rest with
    | None => HErr HTTTP_ERR_MALFORMED
    | Some ([], rest') => HOk (hs, rest')
    | Some (line, rest') =>
      match split_at COLON line with
      | Some ((_ :: _) as key, c :: value) =>
        if negb (ceqb c SP) then HErr HTTTP_ERR_MALFORMED
        else if (HTTTP_MAX_HEADERS <=? length hs)%nat then HErr HTTTP_ERR_TOOLONG
        else
          let? k := copy_token HTTTP_MAX_KEY key in
          let? v := copy_token HTTTP_MAX_VALUE value in
          header_loop f rest' (hs ++ [mkHeader k v])
      | _ => HErr HTTTP_ERR_MALFORMED
      end
    end
  end.

Definition parse_tail (rest : list ascii) : hres (list htttp_header_t * option (list ascii) * nat) :=
  let? (hs, body) := header_loop (S (length rest)) rest [] in
  match htttp_header_get hs ($"Content-Length") with
  | None => match body with [] => HOk (hs, None, O) | _ => HErr HTTTP_ERR_LENGTH end
  | Some cl =>
    match parse_uint cl with
    | HErr _ => HErr HTTTP_ERR_MALFORMED
    | HOk declared =>
      if negb (declared =? Z.of_nat (length body))%Z then HErr HTTTP_ERR_LENGTH
      else HOk (hs, match body with [] => None | _ => Some body end, length body)
    end
  end.

(** [copy_token(...) != 0] is reported as TOOLONG whatever it was. *)
Definition htttp_parse_request (buf : list ascii) : hres htttp_request_t :=
  match find_crlf buf with
  | None => HErr HTTTP_ERR_MALFORMED
  | Some (line, rest) =>
    match split_at SP line with
    | Some ((_ :: _) as method, line1) =>
      match copy_token HTTTP_MAX_METHOD method with
      | HErr _ => HErr HTTTP_ERR_TOOLONG
      | HOk m =>
        match split_at SP line1 with
        | Some ((_ :: _) as path, version) =>
          match copy_token HTTTP_MAX_PATH path with
          | HErr _ => HErr HTTTP_ERR_TOOLONG
          | HOk p =>
            if bool_decide (version = HTTTP_VERSION) then
              let? (hs, body, n) := parse_tail rest in HOk (mkRequest m p hs body n)
            else HErr HTTTP_ERR_MALFORMED
          end
        | _ => HErr HTTTP_ERR_MALFORMED
        end
      end
    | _ => HErr HTTTP_ERR_MALFORMED
    end
  end.

Definition htttp_parse_response (buf : list ascii) : hres htttp_response_t :=
  match find_crlf buf with
  | None => HErr HTTTP_ERR_MALFORMED
  | Some (line, rest) =>
    if ((length line <=? VERSION_LEN)%nat || negb (bool_decide (take VERSION_LEN line = HTTTP_VERSION))) then
      HErr HTTTP_ERR_MALFORMED
    else
      match drop VERSION_LEN line with
      | c :: line1 =>
        if negb (ceqb c SP) then HErr HTTTP_ERR_MALFORMED
        else
          match split_at SP line1 with
          | Some ((_ :: _) as st, _) =>
            match parse_uint st with
            | HErr _ => HErr HTTTP_ERR_MALFORMED
            | HOk status =>
              if ((status <? 100)%Z || (599 <? status)%Z) then HErr HTTTP_ERR_MALFORMED
              else let? (hs, body, n) := parse_tail rest in HOk (mkResponse status hs body n)
            end
          | _ => HErr HTTTP_ERR_MALFORMED
          end
      | [] => HErr HTTTP_ERR_MALFORMED
      end
  end.

(** ** Serializing *)

Definition valid_field (s : cstr) (allow_space : bool) : bool :=
  forallb (fun c => ((33 <=? code c)%Z && (code c <=? 126)%Z) || (allow_space && ceqb c SP)) s.

(** [buf_append]: the bytes written so far and those behind them. *)
Definition buf_append (cap : nat) (src out : list ascii) : hres (list ascii) :=
  match src with
  | [] => HOk out
  | _ => if (cap - length out <? length src)%nat then HErr HTTTP_ERR_NOSPACE else HOk (out ++ src)
  end.

Definition CRLF : cstr := [CR; LF].

Definition emit_header (cap : nat) (key value : cstr) (out : list ascii) : hres (list ascii) :=
  let? out := buf_append cap key out in
  let? out := buf_append cap ($": ") out in
  let? out := buf_append cap value out in
  buf_append cap CRLF out.

Fixpoint emit_loop (cap : nat) (hs : list htttp_header_t) (skip_date : bool) (out : list ascii) : hres (list ascii) :=
  match hs with
  | [] => HOk out
  | h :: hs' =>
    if ci_eq (h_key h) ($"Content-Length") then emit_loop cap hs' skip_date out
    else if skip_date && ci_eq (h_key h) ($"Date") then emit_loop cap hs' skip_date out
    else match h_key h with
    | [] => HErr HTTTP_ERR_MALFORMED
    | _ =>
      if negb (valid_field (h_key h) false) || negb (valid_field (h_value h) true) then HErr HTTTP_ERR_MALFORMED
      else let? out := emit_header cap (h_key h) (h_value h) out in emit_loop cap hs' skip_date out
    end
  end.

Definition emit_headers (cap : nat) (hs : list htttp_header_t) (skip_date : bool) (out : list ascii) : hres (list ascii) :=
  if (HTTTP_MAX_HEADERS <? length hs)%nat then HErr HTTTP_ERR_TOOLONG else emit_loop cap hs skip_date out.

Definition body_bytes (body : option (list ascii)) (n : nat) : list ascii := take n (default [] body).

Definition emit_body (cap : nat) (body : option (list ascii)) (n : nat) (out : list ascii) : hres (list ascii) :=
  let? out := (if (0 <? n)%nat then emit_header cap ($"Content-Length") (print_uint (Z.of_nat n)) out else HOk out) in
  let? out := buf_append cap CRLF out in
  buf_append cap (body_bytes body n) out.

Definition null_with_length (body : option (list ascii)) (n : nat) : bool :=
  match body with None => (0 <? n)%nat | Some _ => false end.

Definition htttp_serialize_request (req : htttp_request_t) (cap : nat) : hres (list ascii) :=
  if null_with_length (rq_body req) (rq_body_len req) then HErr HTTTP_ERR_MALFORMED
  else match rq_method req, rq_path req with
  | [], _ | _, [] => HErr HTTTP_ERR_MALFORMED
  | _, _ =>
    if negb (valid_field (rq_method req) false) || negb (valid_field (rq_path req) false) then HErr HTTTP_ERR_MALFORMED
    else
      let? out := buf_append cap (rq_method req) [] in
      let? out := buf_append cap [SP] out in
      let? out := buf_append cap (rq_path req) out in
      let? out := buf_append cap [SP] out in
      let? out := buf_append cap HTTTP_VERSION out in
      let? out := buf_append cap CRLF out in
      let? out := emit_headers cap (rq_headers req) false out in
      emit_body cap (rq_body req) (rq_body_len req) out
  end.

Definition htttp_reason (status : Z) : option cstr :=
  (if status =? 200 then Some ($"OK")
   else if status =? 201 then Some ($"Created")
   else if status =? 400 then Some ($"Bad Request")
   else if status =? 401 then Some ($"Unauthorized")
   else if status =? 403 then Some ($"Forbidden")
   else if status =? 404 then Some ($"Not Found")
   else if status =? 409 then Some ($"Conflict")
   else if status =? 413 then Some ($"Payload Too Large")
   else if status =? 429 then Some ($"Too Many Requests")
   else if status =? 500 then Some ($"Internal Server Error")
   else if status =? 501 then Some ($"Not Implemented")
   else None)%Z.

(** [date] is what [gmtime_r] and [strftime] give for the current time. *)
Definition htttp_serialize_response (date : option cstr) (res : htttp_response_t) (cap : nat) : hres (list ascii) :=
  if null_with_length (rp_body res) (rp_body_len res) then HErr HTTTP_ERR_MALFORMED
  else match htttp_reason (rp_status res), date with
  | Some reason, Some date =>
    let? out := buf_append cap HTTTP_VERSION [] in
    let? out := buf_append cap [SP] out in
    let? out := buf_append cap (print_int (rp_status res)) out in
    let? out := buf_append cap [SP] out in
    let? out := buf_append cap reason out in
    let? out := buf_append cap CRLF out in
    let? out := emit_header cap ($"Date") date out in
    let? out := emit_headers cap (rp_headers res) true out in
    emit_body cap (rp_body res) (rp_body_len res) out
  | _, _ => HErr HTTTP_ERR_MALFORMED
  end.

(** ** htttp_header_set *)

Definition htttp_header_set (hs : list htttp_header_t) (key value : cstr) : hres (list htttp_header_t) :=
  match key with
  | [] => HErr HTTTP_ERR_MALFORMED
  | _ =>
    if negb (valid_field key false) || negb (valid_field value true) then HErr HTTTP_ERR_MALFORMED
    else if (HTTTP_MAX_HEADERS <=? length hs)%nat then HErr HTTTP_ERR_TOOLONG
    else match copy_token HTTTP_MAX_KEY key, copy_token HTTTP_MAX_VALUE value with
    | HOk k, HOk v => HOk (hs ++ [mkHeader k v])
    | _, _ => HErr HTTTP_ERR_TOOLONG
    end
  end.

(** ** Appending *)

Lemma buf_append_ok cap src out out' : buf_append cap src out = HOk out' ->
  out' = out ++ src /\ ((length out <= cap)%nat -> (length out' <= cap)%nat).
Proof.
  unfold buf_append. destruct src as [|c src]; [intros [= <-]; by rewrite app_nil_r|]. case_match; [done|].
  intros [= <-]. split; [done|]. apply Nat.ltb_ge in H. rewrite length_app. lia.
Qed.

Lemma hbind_ok {A B} (m : hres A) (k : A -> hres B) b : hbind m k = HOk b -> exists a, m = HOk a /\ k a = HOk b.
Proof. destruct m; simpl; [eauto|done]. Qed.

Definition fits (cap : nat) (out out' : list ascii) : Prop := (length out <= cap)%nat -> (length out' <= cap)%nat.

(** Peel the appends of a successful serialization. *)
#[local] Ltac peel :=
  repeat match goal with
  | H : hbind _ _ = HOk _ |- _ => apply hbind_ok in H as (? & ? & H)
  | H : buf_append _ _ _ = HOk _ |- _ => apply buf_append_ok in H as [-> ?]
  end.

Definition header_text (h : htttp_header_t) : list ascii := h_key h ++ $": " ++ h_value h ++ CRLF.

Lemma emit_header_ok cap k v out out' : emit_header cap k v out = HOk out' ->
  out' = out ++ header_text (mkHeader k v) /\ fits cap out out'.
Proof.
  unfold emit_header. intros H. peel. unfold header_text, fits. cbn [h_key h_value].
  split; [by rewrite <-!app_assoc|tauto].
Qed.

(** The headers a serializer keeps. *)
Definition kept (skip_date : bool) (h : htttp_header_t) : bool :=
  negb (ci_eq (h_key h) ($"Content-Length")) && negb (skip_date && ci_eq (h_key h) ($"Date")).
Definition keep (skip_date : bool) (hs : list htttp_header_t) : list htttp_header_t :=
  filter (fun h => kept skip_date h = true) hs.

Definition header_valid (h : htttp_header_t) : Prop :=
  h_key h <> [] /\ valid_field (h_key h) false = true /\ valid_field (h_value h) true = true.

Definition headers_text (hs : list htttp_header_t) : list ascii := concat (map header_text hs).

Lemma emit_loop_ok cap hs sd out out' : emit_loop cap hs sd out = HOk out' ->
  out' = out ++ headers_text (keep sd hs) /\ Forall header_valid (keep sd hs) /\ fits cap out out'.
Proof.
  revert out; induction hs as [|h hs IH]; intros out; cbn [emit_loop].
  - intros [= <-]. rewrite app_nil_r. split; [done|]. split; [constructor|by intros ?].
  - unfold keep. rewrite filter_cons. unfold kept. fold (keep sd hs).
    destruct (ci_eq (h_key h) ($"Content-Length")) eqn:E1; [rewrite decide_False by done; apply IH|].
    destruct (sd && ci_eq (h_key h) ($"Date")) eqn:E2; [rewrite decide_False by done; apply IH|].
    rewrite decide_True by done. destruct (h_key h) as [|c k] eqn:Ek; [done|]. rewrite <-Ek in *.
    destruct (negb (valid_field (h_key h) false) || negb (valid_field (h_value h) true)) eqn:Ev; [done|].
    apply orb_false_iff in Ev as [Ev1%negb_false_iff Ev2%negb_false_iff].
    intros (out1 & H1 & H2)%hbind_ok. apply emit_header_ok in H1 as [-> F1]. apply IH in H2 as (-> & HF & F2).
    split; [|split].
    + unfold headers_text. cbn [map concat]. rewrite <-app_assoc. destruct h; done.
    + constructor; [|done]. split; [by rewrite Ek|done].
    + intros Hl. by apply F2, F1.
Qed.

Definition length_header (n : nat) : list htttp_header_t :=
  if (0 <? n)%nat then [mkHeader ($"Content-Length") (print_uint (Z.of_nat n))] else [].

Lemma emit_body_ok cap body n out out' : emit_body cap body n out = HOk out' ->
  out' = out ++ headers_text (length_header n) ++ CRLF ++ body_bytes body n /\ fits cap out out'.
Proof.
  unfold emit_body, length_header. intros (out1 & H1 & H2)%hbind_ok. peel.
  destruct (0 <? n)%nat.
  - apply emit_header_ok in H1 as [-> F1]. split; [|intros Hl; apply F1 in Hl; tauto].
    unfold headers_text. cbn [map concat]. by rewrite app_nil_r, <-!app_assoc.
  - injection H1 as <-. split; [by rewrite <-!app_assoc|]. intros Hl. tauto.
Qed.

(** ** Scanning what was written *)

Lemma find_crlf_app l rest : Rows.no_char CR l -> find_crlf (l ++ CRLF ++ rest) = Some (l, rest).
Proof.
  induction 1 as [|c l Hc _ IH]; [done|]. cbn [app find_crlf].
  destruct (l ++ CRLF ++ rest) as [|d r] eqn:E; [by destruct l|].
  unfold ceqb at 1. rewrite bool_decide_eq_false_2 by done. cbn [andb]. by rewrite IH.
Qed.

Lemma split_at_app c l rest : Rows.no_char c l -> split_at c (l ++ c :: rest) = Some (l, rest).
Proof.
  induction 1 as [|x l Hx _ IH]; cbn [app split_at]; unfold ceqb.
  - by rewrite bool_decide_eq_true_2.
  - rewrite bool_decide_eq_false_2 by done. by rewrite IH.
Qed.

Lemma valid_no_char c s sp : valid_field s sp = true -> (code c < 33 \/ 126 < code c)%Z -> (sp = true -> c <> SP) ->
  Rows.no_char c s.
Proof.
  unfold valid_field. rewrite forallb_forall. intros Hv Hc Hs. apply Forall_forall. intros x Hx ->.
  apply list_elem_of_In in Hx. specialize (Hv c Hx). apply orb_true_iff in Hv as [Hv|Hv].
  - apply andb_true_iff in Hv. lia.
  - apply andb_true_iff in Hv as [Hsp Hv]. apply (Hs Hsp). unfold ceqb in Hv. by apply bool_decide_eq_true_1 in Hv.
Qed.

Lemma cstring_id s : Rows.no_char NUL s -> cstring s = s.
Proof. induction 1 as [|c s Hc _ IH]; [done|]. cbn [cstring]. unfold ceqb. by rewrite bool_decide_eq_false_2, IH. Qed.

Lemma copy_token_valid cap s sp : valid_field s sp = true -> (length s < cap)%nat -> copy_token cap s = HOk s.
Proof.
  intros Hv Hl. unfold copy_token. rewrite (proj2 (Nat.leb_gt _ _)) by done. rewrite cstring_id; [done|].
  eapply valid_no_char; [done|left; done|done].
Qed.

(** A header the parser reads back as it is. *)
Definition header_fits (h : htttp_header_t) : Prop :=
  header_valid h /\ Rows.no_char COLON (h_key h) /\ (length (h_key h) < HTTTP_MAX_KEY)%nat /\
  (length (h_value h) < HTTTP_MAX_VALUE)%nat.

Lemma header_loop_ok fuel hs hs0 rest : Forall header_fits hs -> (length hs < fuel)%nat ->
  (length hs0 + length hs <= HTTTP_MAX_HEADERS)%nat ->
  header_loop fuel (headers_text hs ++ CRLF ++ rest) hs0 = HOk (hs0 ++ hs, rest).
Proof.
  intros HF. revert fuel hs0; induction HF as [|h hs ((Hne & Hk & Hv) & Hcol & Hlk & Hlv) _ IH]; intros fuel hs0 Hf Hn;
    (destruct fuel as [|fuel]; [simpl in Hf; lia|]); cbn [header_loop].
  - change (headers_text [] ++ CRLF ++ rest) with ([] ++ CRLF ++ rest).
    rewrite find_crlf_app by constructor. by rewrite app_nil_r.
  - assert (E : headers_text (h :: hs) ++ CRLF ++ rest =
      (h_key h ++ COLON :: SP :: h_value h) ++ CRLF ++ headers_text hs ++ CRLF ++ rest).
    { unfold headers_text. cbn [map concat]. unfold header_text at 1. by rewrite <-!app_assoc. }
    rewrite E, find_crlf_app.
    2: { apply Rows.no_char_app. split; [eapply valid_no_char; [done|left; done|done]|].
         repeat (constructor; [done|]). eapply valid_no_char; [done|left; done|done]. }
    destruct (h_key h ++ COLON :: SP :: h_value h) as [|c0 l0] eqn:El; [by destruct (h_key h)|]. rewrite <-El.
    rewrite split_at_app by done. destruct (h_key h) as [|k0 k] eqn:Ek; [done|]. rewrite <-Ek in *.
    change (ceqb SP SP) with true. cbn [negb]. cbn [length] in Hn, Hf.
    rewrite (proj2 (Nat.leb_gt _ _)) by lia. rewrite (copy_token_valid _ _ _ Hk), (copy_token_valid _ _ _ Hv) by done.
    cbn [hbind]. rewrite IH; [|lia|rewrite length_app; simpl; lia]. rewrite <-app_assoc. by destruct h.
Qed.

(** ** Numbers *)

(** The value of a digit string. *)
Fixpoint digits_value (acc : Z) (s : list ascii) : Z :=
  match s with [] => acc | c :: s' => digits_value (acc * 10 + digit_val c) s' end.

Lemma digit_val_range c : is_digit c = true -> (0 <= digit_val c <= 9)%Z.
Proof. unfold is_digit, digit_val. rewrite andb_true_iff. lia. Qed.

Lemma digits_value_ge acc s : (0 <= acc)%Z -> Forall (fun c => is_digit c = true) s -> (acc <= digits_value acc s)%Z.
Proof.
  intros Ha HF. revert acc Ha; induction HF as [|c s Hc _ IH]; intros acc Ha; cbn [digits_value]; [lia|].
  pose proof (digit_val_range c Hc). specialize (IH (acc * 10 + digit_val c)%Z ltac:(lia)). lia.
Qed.

Lemma uint_loop_ok acc s v : (0 <= acc <= UINT32_MAX)%Z ->
  uint_loop acc s = HOk v <->
  Forall (fun c => is_digit c = true) s /\ v = digits_value acc s /\ (v <= UINT32_MAX)%Z.
Proof.
  revert acc; induction s as [|c s IH]; intros acc Ha; cbn [uint_loop digits_value].
  - split; [intros [= <-]; repeat split; [constructor|lia]|]. intros (_ & -> & _). done.
  - destruct (is_digit c) eqn:Hc; cbn [negb]; [|split; [done|intros (HF & _); inversion HF; congruence]].
    pose proof (digit_val_range c Hc) as Hd. set (d := digit_val c) in *.
    destruct (Z.ltb_spec ((UINT32_MAX - d) / 10) acc) as [Hlt|Hge].
    + split; [done|]. intros (HF & -> & Hv). exfalso. inversion HF; subst.
      assert (UINT32_MAX < acc * 10 + d)%Z.
      { pose proof (Z.mul_succ_div_gt (UINT32_MAX - d) 10 ltac:(lia)). lia. }
      pose proof (digits_value_ge (acc * 10 + d) s ltac:(lia) ltac:(done)). lia.
    + assert (Hle : (acc * 10 + d <= UINT32_MAX)%Z).
      { pose proof (Z.mul_div_le (UINT32_MAX - d) 10 ltac:(lia)). lia. }
      rewrite u32_id by (unfold UINT32_MAX in *; lia). rewrite IH by lia. rewrite Forall_cons.
      split; [intros (? & ? & ?); auto|intros ((_ & ?) & ? & ?); auto].
Qed.

Lemma digits_value_scan acc s n : Forall (fun c => is_digit c = true) s ->
  fst (fst (scan_digits acc n s)) = digits_value acc s.
Proof.
  intros HF. revert acc n; induction HF as [|c s Hc _ IH]; intros acc n; [done|]. cbn [scan_digits digits_value].
  rewrite Hc. apply IH.
Qed.

Lemma parse_uint_print z : (0 <= z <= UINT32_MAX)%Z -> parse_uint (print_uint z) = HOk z.
Proof.
  intros Hz. pose proof (print_uint_length z) as Hl. pose proof (print_uint_digits z ltac:(lia)) as Hd.
  unfold parse_uint. destruct (print_uint z) as [|c l] eqn:E; [by destruct (print_uint_nonempty z)|]. rewrite <-E in *.
  rewrite (proj2 (Nat.ltb_ge _ _)) by lia. apply uint_loop_ok; [unfold UINT32_MAX; lia|]. split; [done|].
  split; [|lia]. rewrite <-(digits_value_scan 0 _ 0) by done.
  destruct (scan_print_uint z [] ltac:(unfold UINT32_MAX in Hz; lia) I) as (k & _ & Hs). rewrite app_nil_r in Hs.
  by rewrite Hs.
Qed.

(** Numbers on the wire never wrap.  [parse_uint] accepts exactly the
    digit strings of 1 to 32 bytes whose value fits 32 bits, and returns that
    value; a sign, a blank or an overflow is refused. *)
Theorem parse_uint_exact s v : parse_uint s = HOk v <->
  s <> [] /\ (length s <= 32)%nat /\ Forall (fun c => is_digit c = true) s /\ v = digits_value 0 s /\ (v <= UINT32_MAX)%Z.
Proof.
  unfold parse_uint. destruct s as [|c s]; [by split; [done|intros [? _]]|].
  destruct (Nat.ltb_spec 32 (length (c :: s))) as [Hlt|Hge].
  - split; [done|]. intros (_ & Hl & _). lia.
  - rewrite uint_loop_ok by (unfold UINT32_MAX; lia). split; [by intros (? & ? & ?)|by intros (_ & _ & ? & ? & ?)].
Qed.

(** ** Round trips *)

(** The generated Content-Length is the one the parser finds. *)
Lemma header_get_keep sd hs : htttp_header_get (keep sd hs) ($"Content-Length") = None.
Proof.
  induction hs as [|h hs IH]; [done|]. unfold keep. rewrite filter_cons. fold (keep sd hs). unfold kept.
  destruct (ci_eq (h_key h) ($"Content-Length")) eqn:E; [by rewrite decide_False|].
  destruct (decide _); [|done]. cbn [htttp_header_get]. by rewrite E.
Qed.

Lemma header_get_app hs hs2 k : htttp_header_get hs k = None -> htttp_header_get (hs ++ hs2) k = htttp_header_get hs2 k.
Proof. induction hs as [|h hs IH]; [done|]. cbn [htttp_header_get app]. by case_match. Qed.

(** A body of [n] bytes, as a message carries it. *)
Definition body_fits (body : option (list ascii)) (n : nat) : Prop :=
  (n <= length (default [] body))%nat /\ (Z.of_nat n <= UINT32_MAX)%Z.
Definition body_view (body : option (list ascii)) (n : nat) : option (list ascii) :=
  if (0 <? n)%nat then Some (body_bytes body n) else None.

Lemma length_header_fits n : (Z.of_nat n <= UINT32_MAX)%Z -> Forall header_fits (length_header n).
Proof.
  intros Hn. unfold length_header. case_match; [|constructor]. constructor; [|constructor].
  pose proof (print_uint_digits (Z.of_nat n) ltac:(lia)) as Hd. pose proof (print_uint_length (Z.of_nat n)).
  split; [split; [done|split; [done|]]|split; [cbn [h_key]; repeat (apply Forall_cons_2; [discriminate|]); apply Forall_nil_2|split; [unfold HTTTP_MAX_KEY; simpl; lia|simpl h_value; unfold HTTTP_MAX_VALUE; lia]]].
  cbn [h_value]. unfold valid_field. apply forallb_forall. intros c Hc%list_elem_of_In. rewrite Forall_forall in Hd.
  specialize (Hd c Hc). unfold is_digit in Hd. apply andb_true_iff in Hd. apply orb_true_iff. left. apply andb_true_iff. lia.
Qed.

Lemma concat_length_ge hs : (length hs <= length (headers_text hs))%nat.
Proof.
  induction hs as [|h hs IH]; [done|]. unfold headers_text. cbn [map concat length]. fold (headers_text hs).
  unfold header_text. rewrite !length_app. simpl. lia.
Qed.

Lemma parse_tail_ok hs0 sd hs body n : hs0 = [] \/ (exists h, hs0 = [h] /\ ci_eq (h_key h) ($"Content-Length") = false) ->
  Forall header_fits (hs0 ++ keep sd hs) -> body_fits body n ->
  (length (hs0 ++ keep sd hs ++ length_header n) <= HTTTP_MAX_HEADERS)%nat ->
  parse_tail (headers_text (hs0 ++ keep sd hs ++ length_header n) ++ CRLF ++ body_bytes body n) =
  HOk (hs0 ++ keep sd hs ++ length_header n, body_view body n, n).
Proof.
  intros H0 HF [Hb Hu] Hn. unfold parse_tail. rewrite header_loop_ok.
  - cbn [hbind app]. rewrite app_assoc, header_get_app.
    2: { destruct H0 as [->|(h & -> & Hh)]; cbn [app htttp_header_get]; rewrite ?Hh; apply header_get_keep. }
    assert (Hlen : length (body_bytes body n) = n) by (unfold body_bytes; rewrite length_take; lia).
    unfold length_header, body_view. destruct (Nat.ltb_spec 0 n) as [Hpos|Hz].
    + cbn [htttp_header_get h_key h_value]. change (ci_eq ($"Content-Length") ($"Content-Length")) with true. cbv iota.
      rewrite parse_uint_print by lia. rewrite Hlen, Z.eqb_refl. cbn [negb].
      destruct (body_bytes body n) eqn:E; [simpl in Hlen; lia|done].
    + assert (n = 0)%nat as -> by lia. cbn. unfold body_bytes. by rewrite take_0.
  - rewrite app_assoc. apply Forall_app; split; [done|by apply length_header_fits].
  - pose proof (concat_length_ge (hs0 ++ keep sd hs ++ length_header n)). rewrite (length_app (headers_text _)). lia.
  - simpl. done.
Qed.

Lemma valid_no_space s : valid_field s false = true -> Rows.no_char SP s.
Proof. intros H. eapply valid_no_char; [done|left; done|done]. Qed.
Lemma valid_no_CR s sp : valid_field s sp = true -> Rows.no_char CR s.
Proof. intros H. eapply valid_no_char; [done|left; done|done]. Qed.

(** A request whose text fields fit their arrays and whose header names have
    no colon (the one separator [valid_field] lets through). *)
Record request_fits (req : htttp_request_t) : Prop := {
  rf_method : (length (rq_method req) < HTTTP_MAX_METHOD)%nat;
  rf_path : (length (rq_path req) < HTTTP_MAX_PATH)%nat;
  rf_headers : Forall (fun h => Rows.no_char COLON (h_key h) /\ (length (h_key h) < HTTTP_MAX_KEY)%nat /\
                         (length (h_value h) < HTTTP_MAX_VALUE)%nat) (rq_headers req);
  rf_count : (length (keep false (rq_headers req) ++ length_header (rq_body_len req)) <= HTTTP_MAX_HEADERS)%nat;
  rf_body : body_fits (rq_body req) (rq_body_len req) }.

(** The bytes of a request. *)
Definition request_text (req : htttp_request_t) : list ascii :=
  (rq_method req ++ SP :: rq_path req ++ SP :: HTTTP_VERSION) ++ CRLF ++
  headers_text (keep false (rq_headers req) ++ length_header (rq_body_len req)) ++ CRLF ++
  body_bytes (rq_body req) (rq_body_len req).

Lemma serialize_request_text req cap out : htttp_serialize_request req cap = HOk out ->
  out = request_text req /\
  (length out <= cap)%nat /\ rq_method req <> [] /\ rq_path req <> [] /\
  valid_field (rq_method req) false = true /\ valid_field (rq_path req) false = true /\
  Forall header_valid (keep false (rq_headers req)).
Proof.
  unfold htttp_serialize_request. case_match; [done|].
  destruct (rq_method req) as [|m0 m] eqn:Em; [done|]. destruct (rq_path req) as [|p0 p] eqn:Ep; [done|].
  rewrite <-Em, <-Ep. case_match; [done|]. apply orb_false_iff in H0 as [Hm%negb_false_iff Hp%negb_false_iff].
  intros H1. do 6 (let o := fresh "o" in let E := fresh "E" in apply hbind_ok in H1 as (o & E & H1); apply buf_append_ok in E as [-> ?]).
  apply hbind_ok in H1 as (o & E & H1).
  apply emit_body_ok in H1 as [-> Hf]. unfold emit_headers in E. case_match; [done|]. apply emit_loop_ok in E as (-> & HF & Hf2).
  split; [|split; [|split; [by rewrite Em|split; [by rewrite Ep|done]]]].
  - unfold request_text, headers_text. rewrite map_app, concat_app. do 4 (rewrite <-?app_assoc; cbn [app]). done.
  - apply Hf, Hf2. repeat match goal with H : _ -> (length _ <= cap)%nat |- _ => apply H; clear H end. simpl. lia.
Qed.

Lemma no_char_cons c x s : x <> c -> Rows.no_char c s -> Rows.no_char c (x :: s).
Proof. by constructor. Qed.

Lemma keep_fits sd hs : Forall header_valid (keep sd hs) ->
  Forall (fun h => Rows.no_char COLON (h_key h) /\ (length (h_key h) < HTTTP_MAX_KEY)%nat /\
            (length (h_value h) < HTTTP_MAX_VALUE)%nat) hs -> Forall header_fits (keep sd hs).
Proof.
  intros Hv Hf. apply Forall_forall. intros h Hh. rewrite Forall_forall in Hv, Hf. split; [by apply Hv|].
  apply Hf. by apply list_elem_of_filter in Hh as [_ Hh].
Qed.

Lemma parse_request_text req : request_fits req -> rq_method req <> [] -> rq_path req <> [] ->
  valid_field (rq_method req) false = true -> valid_field (rq_path req) false = true ->
  Forall header_valid (keep false (rq_headers req)) ->
  htttp_parse_request (request_text req) =
  HOk (mkRequest (rq_method req) (rq_path req) (keep false (rq_headers req) ++ length_header (rq_body_len req))
         (body_view (rq_body req) (rq_body_len req)) (rq_body_len req)).
Proof.
  intros [Hm Hp Hh Hn Hb] Hmne Hpne Hmv Hpv HF. unfold htttp_parse_request, request_text. rewrite find_crlf_app.
  2: { apply Rows.no_char_app; split; [by eapply valid_no_CR|]. apply no_char_cons; [done|].
       apply Rows.no_char_app; split; [by eapply valid_no_CR|]. apply no_char_cons; [done|].
       repeat (apply Forall_cons_2; [discriminate|]). apply Forall_nil_2. }
  rewrite split_at_app by (by apply valid_no_space). destruct (rq_method req) as [|m0 m] eqn:Em; [done|]. rewrite <-Em in *.
  rewrite (copy_token_valid _ _ _ Hmv) by done. rewrite split_at_app by (by apply valid_no_space).
  destruct (rq_path req) as [|p0 p] eqn:Ep; [done|]. rewrite <-Ep in *. rewrite (copy_token_valid _ _ _ Hpv) by done.
  rewrite bool_decide_eq_true_2 by done.
  pose proof (parse_tail_ok [] false (rq_headers req) (rq_body req) (rq_body_len req)) as Ht. cbn [app] in Ht.
  rewrite Ht; [done|by left| |done|done]. by apply keep_fits.
Qed.

(** What a peer parses is what was sent.  Every request the serializer
    writes (into any buffer, never past its capacity) parses back to the same
    method, path and body, with the caller's headers in order, any caller
    Content-Length replaced by the one that counts the body: no field can
    forge a line, a header or a second message. *)
Theorem request_roundtrip req cap out : request_fits req -> htttp_serialize_request req cap = HOk out ->
  (length out <= cap)%nat /\
  htttp_parse_request out =
  HOk (mkRequest (rq_method req) (rq_path req) (keep false (rq_headers req) ++ length_header (rq_body_len req))
         (body_view (rq_body req) (rq_body_len req)) (rq_body_len req)).
Proof.
  intros Hf (-> & Hl & Hmne & Hpne & Hmv & Hpv & HF)%serialize_request_text. split; [done|]. by apply parse_request_text.
Qed.

Definition sample_request : htttp_request_t :=
  mkRequest ($"CAST") ($"/election") [mkHeader ($"Election-Id") ($"E-100"); mkHeader ($"content-length") ($"999")]
    (Some ($"cert=ann")) 8.

Lemma request_roundtrip_witness : exists out, htttp_serialize_request sample_request 200 = HOk out /\
  htttp_parse_request out = HOk (mkRequest ($"CAST") ($"/election")
    [mkHeader ($"Election-Id") ($"E-100"); mkHeader ($"Content-Length") ($"8")] (Some ($"cert=ann")) 8).
Proof.
  eexists. split; [vm_compute; reflexivity|]. refine (proj2 (request_roundtrip sample_request 200 _ _ _)).
  - split; [vm_compute; lia|vm_compute; lia| |vm_compute; lia|split; vm_compute; [lia|discriminate]].
    repeat (apply Forall_cons_2; [split; [repeat (apply Forall_cons_2; [discriminate|]); apply Forall_nil_2|vm_compute; lia]|]).
    apply Forall_nil_2.
  - vm_compute. reflexivity.
Defined.

(** *** Responses *)

Record response_fits (date : cstr) (res : htttp_response_t) : Prop := {
  pf_date : valid_field date true = true /\ (length date < 48)%nat;
  pf_headers : Forall (fun h => Rows.no_char COLON (h_key h) /\ (length (h_key h) < HTTTP_MAX_KEY)%nat /\
                         (length (h_value h) < HTTTP_MAX_VALUE)%nat) (rp_headers res);
  pf_count : (S (length (keep true (rp_headers res) ++ length_header (rp_body_len res))) <= HTTTP_MAX_HEADERS)%nat;
  pf_body : body_fits (rp_body res) (rp_body_len res) }.

Lemma reason_known status reason : htttp_reason status = Some reason ->
  (100 <= status <= 599)%Z /\ Rows.no_char CR reason /\ Rows.no_char CR (print_int status) /\
  Rows.no_char SP (print_int status) /\ parse_uint (print_int status) = HOk status /\ print_int status <> [].
Proof.
  unfold htttp_reason. intros H.
  assert (Hr : Rows.no_char CR reason /\ (200 <= status <= 501)%Z).
  { repeat (case_match; [simplify_eq; split; [repeat (apply Forall_cons_2; [discriminate|]); apply Forall_nil_2|lia]|]). done. }
  destruct Hr as [Hr Hs]. assert (Hd : Forall (fun c => int_char c = true) (print_int status)) by apply print_int_chars.
  split; [lia|]. split; [done|]. split; [eapply Forall_impl; [exact Hd|]; by intros c Hc ->|].
  split; [eapply Forall_impl; [exact Hd|]; by intros c Hc ->|]. split; [|apply print_int_nonempty].
  unfold print_int. rewrite (proj2 (Z.ltb_ge _ _)) by lia. apply parse_uint_print. unfold UINT32_MAX. lia.
Qed.

(** The bytes of a response. *)
Definition response_text (date reason : cstr) (res : htttp_response_t) : list ascii :=
  (HTTTP_VERSION ++ SP :: print_int (rp_status res) ++ SP :: reason) ++ CRLF ++
  headers_text ([mkHeader ($"Date") date] ++ keep true (rp_headers res) ++ length_header (rp_body_len res)) ++ CRLF ++
  body_bytes (rp_body res) (rp_body_len res).

Lemma serialize_response_text date res cap out : htttp_serialize_response (Some date) res cap = HOk out ->
  exists reason, htttp_reason (rp_status res) = Some reason /\
  out = response_text date reason res /\
  (length out <= cap)%nat /\ Forall header_valid (keep true (rp_headers res)).
Proof.
  unfold htttp_serialize_response. case_match; [done|]. destruct (htttp_reason (rp_status res)) as [reason|]; [|done].
  intros H1. exists reason. split; [done|].
  do 6 (let o := fresh "o" in let E := fresh "E" in apply hbind_ok in H1 as (o & E & H1); apply buf_append_ok in E as [-> ?]).
  apply hbind_ok in H1 as (o & E0 & H1). apply emit_header_ok in E0 as [-> Hf0].
  apply hbind_ok in H1 as (o & E & H1).
  apply emit_body_ok in H1 as [-> Hf]. unfold emit_headers in E. case_match; [done|]. apply emit_loop_ok in E as (-> & HF & Hf2).
  split; [|split; [|done]].
  - unfold response_text, headers_text. rewrite !map_app, !concat_app. cbn [map concat]. rewrite app_nil_r.
    do 4 (rewrite <-?app_assoc; cbn [app]). done.
  - apply Hf, Hf2, Hf0. repeat match goal with H : _ -> (length _ <= cap)%nat |- _ => apply H; clear H end. simpl. lia.
Qed.

Lemma parse_response_text date reason res : response_fits date res -> htttp_reason (rp_status res) = Some reason ->
  Forall header_valid (keep true (rp_headers res)) ->
  htttp_parse_response (response_text date reason res) =
  HOk (mkResponse (rp_status res)
         (mkHeader ($"Date") date :: keep true (rp_headers res) ++ length_header (rp_body_len res))
         (body_view (rp_body res) (rp_body_len res)) (rp_body_len res)).
Proof.
  intros [[Hdv Hdl] Hh Hn Hb] Hr HF.
  destruct (reason_known _ _ Hr) as (Hst & Hrc & Hpc & Hps & Hpu & Hpne).
  unfold htttp_parse_response, response_text. rewrite find_crlf_app.
  2: { apply Rows.no_char_app; split; [repeat (apply Forall_cons_2; [discriminate|]); apply Forall_nil_2|].
       apply no_char_cons; [done|]. apply Rows.no_char_app; split; [done|]. by apply no_char_cons. }
  set (tail := print_int (rp_status res) ++ SP :: reason).
  change (length (HTTTP_VERSION ++ SP :: tail)) with (S (S (S (S (S (S (S (S (S (S (length tail))))))))))).
  change (take VERSION_LEN (HTTTP_VERSION ++ SP :: tail)) with HTTTP_VERSION.
  change (drop VERSION_LEN (HTTTP_VERSION ++ SP :: tail)) with (SP :: tail).
  rewrite (proj2 (Nat.leb_gt _ _)) by (unfold VERSION_LEN; lia). rewrite bool_decide_eq_true_2 by done.
  cbn [negb orb]. change (ceqb SP SP) with true. cbn [negb]. unfold tail. rewrite split_at_app by done.
  destruct (print_int (rp_status res)) as [|c0 l0] eqn:Ep; [done|]. rewrite Hpu.
  rewrite (proj2 (Z.ltb_ge (rp_status res) 100)), (proj2 (Z.ltb_ge 599 (rp_status res))) by lia. cbn [orb].
  rewrite (parse_tail_ok [mkHeader ($"Date") date] true (rp_headers res) (rp_body res) (rp_body_len res)); [done|..].
  - right. eexists. split; [done|]. reflexivity.
  - apply Forall_app; split; [|by apply keep_fits]. apply Forall_singleton.
    split; [split; [done|split; [done|done]]|split; [cbn [h_key]; repeat (apply Forall_cons_2; [discriminate|]); apply Forall_nil_2|]].
    split; [vm_compute; lia|]. cbn [h_value]. unfold HTTTP_MAX_VALUE. lia.
  - done.
  - cbn [app length]. lia.
Qed.

(** The same for responses: status, headers and body come back exactly,
    behind the generated Date and with the generated Content-Length; a status
    without a reason phrase is never written. *)
Theorem response_roundtrip date res cap out : response_fits date res ->
  htttp_serialize_response (Some date) res cap = HOk out ->
  (length out <= cap)%nat /\ htttp_reason (rp_status res) <> None /\
  htttp_parse_response out =
  HOk (mkResponse (rp_status res)
         (mkHeader ($"Date") date :: keep true (rp_headers res) ++ length_header (rp_body_len res))
         (body_view (rp_body res) (rp_body_len res)) (rp_body_len res)).
Proof.
  intros Hf (reason & Hr & -> & Hl & HF)%serialize_response_text. split; [done|]. split; [by rewrite Hr|].
  by apply parse_response_text.
Qed.

Definition sample_response : htttp_response_t := mkResponse 404 [] (Some ($"result=BB_ERR_NOT_FOUND")) 23.
Definition sample_date : cstr := $"Thu, 01 Jan 2026 00:00:00 GMT".

Lemma response_roundtrip_witness : exists out, htttp_serialize_response (Some sample_date) sample_response 200 = HOk out /\
  htttp_parse_response out = HOk (mkResponse 404 [mkHeader ($"Date") sample_date; mkHeader ($"Content-Length") ($"23")]
    (Some ($"result=BB_ERR_NOT_FOUND")) 23).
Proof.
  eexists. split; [vm_compute; reflexivity|]. refine (proj2 (proj2 (response_roundtrip sample_date sample_response 200 _ _ _))).
  - split; [split; vm_compute; [reflexivity|lia]|apply Forall_nil_2|vm_compute; lia|split; vm_compute; [lia|discriminate]].
  - vm_compute. reflexivity.
Defined.

(** *** Untrusted input *)

Lemma find_crlf_suffix buf l r : find_crlf buf = Some (l, r) -> exists k, buf = k ++ r.
Proof.
  revert l r; induction buf as [|c buf IH]; [done|]. intros l r. cbn [find_crlf]. destruct buf as [|d rest]; [done|].
  destruct (ceqb c CR && ceqb d LF); [intros [= <- <-]; by exists [c; d]|].
  destruct (find_crlf (d :: rest)) as [[l' r']|]; [|done]. intros [= <- <-]. destruct (IH l' r' eq_refl) as [k ->].
  by exists (c :: k).
Qed.

Lemma cstring_length s : (length (cstring s) <= length s)%nat.
Proof. induction s as [|c s IH]; [done|]. cbn [cstring]. case_match; simpl; lia. Qed.

Lemma copy_token_fits cap src s : copy_token cap src = HOk s -> (length s < cap)%nat.
Proof.
  unfold copy_token. destruct (Nat.leb_spec cap (length src)); [done|]. intros [= <-]. pose proof (cstring_length src). lia.
Qed.

Definition header_sized (h : htttp_header_t) : Prop :=
  (length (h_key h) < HTTTP_MAX_KEY)%nat /\ (length (h_value h) < HTTTP_MAX_VALUE)%nat.

Lemma header_loop_safe fuel rest hs hs' body : header_loop fuel rest hs = HOk (hs', body) ->
  Forall header_sized hs -> (length hs <= HTTTP_MAX_HEADERS)%nat ->
  Forall header_sized hs' /\ (length hs' <= HTTTP_MAX_HEADERS)%nat /\ exists k, rest = k ++ body.
Proof.
  revert rest hs; induction fuel as [|fuel IH]; intros rest hs; cbn [header_loop]; [done|].
  destruct (find_crlf rest) as [[line rest']|] eqn:Ef; [|done]. apply find_crlf_suffix in Ef as [k ->].
  destruct line as [|c0 l0]; [intros [= <- <-] ? ?; eauto|].
  destruct (split_at COLON (c0 :: l0)) as [[key v]|]; [|done]. destruct key as [|k0 key]; [done|]. destruct v as [|c v]; [done|].
  destruct (negb (ceqb c SP)); [done|]. destruct (Nat.leb_spec HTTTP_MAX_HEADERS (length hs)) as [|Hlt]; [done|].
  intros (x & Hx & H)%hbind_ok HF Hn. apply hbind_ok in H as (y & Hy & H).
  apply copy_token_fits in Hx, Hy. destruct (IH _ _ H) as (H1 & H2 & k2 & ->).
  - apply Forall_app; split; [done|]. apply Forall_singleton. done.
  - rewrite length_app. simpl. lia.
  - split; [done|]. split; [done|]. exists (k ++ k2). by rewrite app_assoc.
Qed.

Lemma parse_tail_safe rest hs body n : parse_tail rest = HOk (hs, body, n) ->
  Forall header_sized hs /\ (length hs <= HTTTP_MAX_HEADERS)%nat /\ length (default [] body) = n /\
  exists k, rest = k ++ default [] body.
Proof.
  unfold parse_tail. intros ([hs1 b1] & H1 & H2)%hbind_ok.
  destruct (header_loop_safe _ _ _ _ _ H1) as (HF & Hn & k & ->); [constructor|simpl; unfold HTTTP_MAX_HEADERS; lia|].
  destruct (htttp_header_get hs1 ($"Content-Length")) as [cl|].
  - destruct (parse_uint cl) as [d|]; [|done]. destruct (negb (d =? Z.of_nat (length b1))%Z); [done|].
    injection H2 as <- <- <-. destruct b1; eauto.
  - destruct b1; [|done]. injection H2 as <- <- <-. eauto.
Qed.

(** No byte sequence makes the parser over-read or overfill.  Whatever
    the frame holds, an accepted request has text fields that fit their arrays
    with the terminator, at most 32 headers, and a body that is exactly the
    last [body_len] bytes of the frame. *)
Theorem parsed_request_is_bounded buf req : htttp_parse_request buf = HOk req ->
  (length (rq_method req) < HTTTP_MAX_METHOD)%nat /\ (length (rq_path req) < HTTTP_MAX_PATH)%nat /\
  (length (rq_headers req) <= HTTTP_MAX_HEADERS)%nat /\ Forall header_sized (rq_headers req) /\
  length (default [] (rq_body req)) = rq_body_len req /\ exists k, buf = k ++ default [] (rq_body req).
Proof.
  unfold htttp_parse_request. destruct (find_crlf buf) as [[line rest]|] eqn:Ef; [|done].
  apply find_crlf_suffix in Ef as [k ->].
  destruct (split_at SP line) as [[m line1]|]; [|done]. destruct m as [|m0 m]; [done|].
  destruct (copy_token HTTTP_MAX_METHOD (m0 :: m)) as [m'|] eqn:Em; [|done].
  destruct (split_at SP line1) as [[p v]|]; [|done]. destruct p as [|p0 p]; [done|].
  destruct (copy_token HTTTP_MAX_PATH (p0 :: p)) as [p'|] eqn:Ep; [|done]. case_bool_decide; [|done].
  intros ([[hs b] n] & H1 & [= <-])%hbind_ok. apply parse_tail_safe in H1 as (H1 & H2 & H3 & k2 & ->).
  apply copy_token_fits in Em, Ep. cbn [rq_method rq_path rq_headers rq_body rq_body_len].
  do 5 (split; [done|]). exists (k ++ k2). by rewrite app_assoc.
Qed.

Lemma parsed_request_is_bounded_witness : exists buf req, htttp_parse_request buf = HOk req /\
  length (default [] (rq_body req)) = 8%nat.
Proof.
  exists ($"CAST /election HTTTP/1.0" ++ CRLF ++ $"Content-Length: 8" ++ CRLF ++ CRLF ++ $"cert=ann"). eexists.
  split; [vm_compute; reflexivity|].
  refine (proj1 (proj2 (proj2 (proj2 (proj2 (parsed_request_is_bounded
    ($"CAST /election HTTTP/1.0" ++ CRLF ++ $"Content-Length: 8" ++ CRLF ++ CRLF ++ $"cert=ann") _ _)))))).
  vm_compute. reflexivity.
Defined.

(** ** Where serializer and parser disagree *)

(** A header name with a colon passes [valid_field], and the peer cannot parse
    the message. *)
Lemma colon_in_key_is_sent_and_refused :
  hbind (htttp_serialize_request (mkRequest ($"GET") ($"/") [mkHeader ($"a:b") ($"v")] None 0) 100)
    (fun out => HOk (htttp_parse_request out)) = HOk (HErr HTTTP_ERR_MALFORMED).
Proof. vm_compute. reflexivity. Qed.

(** A full header array plus a body is sent with 33 headers, one more than the
    peer takes. *)
Lemma full_headers_with_body_are_refused :
  hbind (htttp_serialize_request (mkRequest ($"GET") ($"/") (replicate 32 (mkHeader ($"k") ($"v"))) (Some ($"x")) 1) 1000)
    (fun out => HOk (htttp_parse_request out)) = HOk (HErr HTTTP_ERR_TOOLONG).
Proof. vm_compute. reflexivity. Qed.

(** ** Writing succeeds when the text fits *)

Lemma buf_append_fits cap src out : (length out + length src <= cap)%nat -> buf_append cap src out = HOk (out ++ src).
Proof.
  intros Hl. unfold buf_append. destruct src; [by rewrite app_nil_r|]. by rewrite (proj2 (Nat.ltb_ge _ _)) by lia.
Qed.

(** Push the appends of a goal through, each within the capacity. *)
Ltac appends := repeat (rewrite buf_append_fits by (rewrite ?length_app in *; simpl in *; lia); cbn [hbind]).

Lemma emit_header_fits cap key value out : (length out + length (header_text (mkHeader key value)) <= cap)%nat ->
  emit_header cap key value out = HOk (out ++ header_text (mkHeader key value)).
Proof.
  unfold emit_header, header_text. cbn [h_key h_value]. intros Hl. rewrite !length_app in Hl. appends.
  by rewrite <-!app_assoc.
Qed.

Lemma emit_loop_fits cap hs sd out : Forall header_valid (keep sd hs) ->
  (length out + length (headers_text (keep sd hs)) <= cap)%nat ->
  emit_loop cap hs sd out = HOk (out ++ headers_text (keep sd hs)).
Proof.
  revert out. induction hs as [|h hs IH]; intros out; cbn [emit_loop].
  { intros _ _. by rewrite app_nil_r. }
  unfold keep. rewrite filter_cons. unfold kept. fold (keep sd hs).
  destruct (ci_eq (h_key h) ($"Content-Length")) eqn:E1; [rewrite decide_False by done; apply IH|].
  destruct (sd && ci_eq (h_key h) ($"Date")) eqn:E2; [rewrite decide_False by done; apply IH|].
  rewrite decide_True by done. intros [(Hk & Hv1 & Hv2) HF]%Forall_cons Hl.
  unfold headers_text in Hl |- *. cbn [map concat] in Hl |- *. fold (headers_text (keep sd hs)) in Hl |- *.
  destruct (h_key h) as [|c k] eqn:Ek; [done|]. rewrite <-Ek in *. rewrite Hv1, Hv2. cbn [negb orb].
  rewrite length_app in Hl.
  pose proof (emit_header_fits cap (h_key h) (h_value h) out) as He. change (header_text (mkHeader (h_key h) (h_value h))) with (header_text h) in He.
  rewrite He by lia. cbn [hbind]. rewrite IH; [by rewrite <-app_assoc|done|].
  rewrite length_app, <-Nat.add_assoc. exact Hl.
Qed.

Lemma emit_body_fits cap body n out :
  (length out + length (headers_text (length_header n) ++ CRLF ++ body_bytes body n) <= cap)%nat ->
  emit_body cap body n out = HOk (out ++ headers_text (length_header n) ++ CRLF ++ body_bytes body n).
Proof.
  unfold emit_body, length_header. destruct (0 <? n)%nat; unfold headers_text; cbn [map concat]; intros Hl.
  - rewrite app_nil_r in *. rewrite !length_app in Hl. rewrite emit_header_fits by lia. cbn [hbind].
    rewrite buf_append_fits by (rewrite length_app; lia). cbn [hbind].
    rewrite buf_append_fits by (rewrite !length_app; lia). by rewrite <-!app_assoc.
  - cbn [hbind app] in *. rewrite length_app in Hl. rewrite buf_append_fits by lia. cbn [hbind].
    rewrite buf_append_fits by (rewrite length_app; lia). by rewrite <-!app_assoc.
Qed.

Lemma headers_text_app hs hs' : headers_text (hs ++ hs') = headers_text hs ++ headers_text hs'.
Proof. unfold headers_text. by rewrite map_app, concat_app. Qed.

Lemma headers_text_one h : headers_text [h] = header_text h.
Proof. apply app_nil_r. Qed.

Lemma serialize_request_fits req cap : null_with_length (rq_body req) (rq_body_len req) = false ->
  rq_method req <> [] -> rq_path req <> [] -> valid_field (rq_method req) false = true ->
  valid_field (rq_path req) false = true -> (length (rq_headers req) <= HTTTP_MAX_HEADERS)%nat ->
  Forall header_valid (keep false (rq_headers req)) -> (length (request_text req) <= cap)%nat ->
  htttp_serialize_request req cap = HOk (request_text req).
Proof.
  unfold htttp_serialize_request, request_text. rewrite headers_text_app. intros -> Hm Hp Hvm Hvp Hn HF Hl.
  destruct (rq_method req) as [|m0 m] eqn:Em; [done|]. destruct (rq_path req) as [|p0 p] eqn:Ep; [done|].
  rewrite <-Em, <-Ep in *. rewrite Hvm, Hvp. cbn [negb orb].
  repeat (rewrite length_app in Hl; cbn [length] in Hl).
  appends. unfold emit_headers. rewrite (proj2 (Nat.ltb_ge _ _)) by done.
  rewrite emit_loop_fits; [|done|rewrite !length_app; simpl in *; lia]. cbn [hbind].
  rewrite emit_body_fits by (rewrite !length_app in *; simpl in *; lia).
  f_equal. do 4 (rewrite <-?app_assoc; cbn [app]). done.
Qed.

Lemma serialize_response_fits date reason res cap : null_with_length (rp_body res) (rp_body_len res) = false ->
  htttp_reason (rp_status res) = Some reason -> (length (rp_headers res) <= HTTTP_MAX_HEADERS)%nat ->
  Forall header_valid (keep true (rp_headers res)) -> (length (response_text date reason res) <= cap)%nat ->
  htttp_serialize_response (Some date) res cap = HOk (response_text date reason res).
Proof.
  unfold htttp_serialize_response, response_text. rewrite !headers_text_app, headers_text_one. intros -> -> Hn HF Hl.
  repeat (rewrite length_app in Hl; cbn [length] in Hl).
  appends.
  rewrite emit_header_fits by (rewrite !length_app in *; simpl in *; lia). cbn [hbind].
  unfold emit_headers. rewrite (proj2 (Nat.ltb_ge _ _)) by done.
  rewrite emit_loop_fits; [|done|rewrite !length_app in *; simpl in *; lia]. cbn [hbind].
  rewrite emit_body_fits by (rewrite !length_app in *; simpl in *; lia).
  f_equal. do 4 (rewrite <-?app_assoc; cbn [app]). done.
Qed.

End Htttp.
