(* ===== verification/Codec.v ===== *)
(** * The client codec: libballotclient/codec.c

    [bcl_request_t] and [bcl_response_t] (client.h) and their translation to
    and from HTTTP messages.  A body under construction is the list of bytes
    written so far; [None] is the C functions' -1. *)
From S2P Require Import Prelude CText Types Rows Htttp.

Module Codec.
Import Htttp.

Inductive bcl_op_t :=
  | BCL_JOIN | BCL_CAST | BCL_UPDATE | BCL_RESULTS | BCL_CHECK
  | BCL_CREATE | BCL_OPEN | BCL_CLOSE | BCL_PUBLISH
  | BCL_ADMIN_RESULTS | BCL_ADMIN_CHECK | BCL_ADMIN_NEXT_ID.

#[export] Instance bcl_op_eq_dec : EqDecision bcl_op_t.
Proof. solve_decision. Defined.

Record bcl_request_t := mkReq {
  cr_op : bcl_op_t;
  cr_cert_name : cstr;
  cr_election_id : cstr;
  cr_ballot : bb_ballot_t;
  cr_hash : cstr;
  cr_config : bb_config_t }.

Record bcl_response_t := mkResp {
  cp_status : bb_result_t;
  cp_election : bb_election_t;
  cp_has_prior_ballot : Z;
  cp_prior_ballot_version : Z;
  cp_receipt : bb_receipt_t;
  cp_tally : list Z;
  cp_option_count : Z;
  cp_options : list cstr;
  cp_hashes : list bb_ballot_hash_t;
  cp_hash_count : Z;
  cp_found : Z;
  cp_found_option : Z;
  cp_found_option_name : cstr }.

Definition zero_req (op : bcl_op_t) : bcl_request_t := mkReq op [] [] zero_ballot [] zero_config.

Definition zero_resp : bcl_response_t :=
  mkResp BB_OK zero_election 0 0 zero_receipt zero_tally 0 no_options
    (replicate BB_MAX_VOTERS zero_row) 0 0 0 [].

(** ** Names *)

Definition OP_NAMES : list (bcl_op_t * cstr) :=
  [(BCL_JOIN, $"JOIN"); (BCL_CAST, $"CAST"); (BCL_UPDATE, $"UPDATE");
   (BCL_RESULTS, $"RESULTS"); (BCL_CHECK, $"CHECK"); (BCL_CREATE, $"CREATE");
   (BCL_OPEN, $"OPEN"); (BCL_CLOSE, $"CLOSE"); (BCL_PUBLISH, $"PUBLISH");
   (BCL_ADMIN_RESULTS, $"ADMIN_RESULTS");
   (BCL_ADMIN_CHECK, $"ADMIN_CHECK");
   (BCL_ADMIN_NEXT_ID, $"ADMIN_NEXT_ID")].

(** The two linear searches every table is read with. *)
Fixpoint name_of {A} `{EqDecision A} (table : list (A * cstr)) (a : A) : option cstr :=
  match table with
  | [] => None
  | (b, name) :: table' => if decide (b = a) then Some name else name_of table' a
  end.

Fixpoint of_name {A} (table : list (A * cstr)) (s : cstr) : option A :=
  match table with
  | [] => None
  | (a, name) :: table' => if streq name s then Some a else of_name table' s
  end.

Definition method_from_op (op : bcl_op_t) : option cstr := name_of OP_NAMES op.
Definition op_from_method (m : cstr) : option bcl_op_t := of_name OP_NAMES m.

Definition RESULT_NAMES : list (bb_result_t * cstr) :=
  [(BB_OK, $"BB_OK");
   (BB_ERR_CONFIG_TITLE, $"BB_ERR_CONFIG_TITLE");
   (BB_ERR_CONFIG_OPTIONS, $"BB_ERR_CONFIG_OPTIONS");
   (BB_ERR_CONFIG_TIME, $"BB_ERR_CONFIG_TIME");
   (BB_ERR_CONFIG_ID_TAKEN, $"BB_ERR_CONFIG_ID_TAKEN");
   (BB_ERR_ILLEGAL_TRANSITION, $"BB_ERR_ILLEGAL_TRANSITION");
   (BB_ERR_NOT_OPEN, $"BB_ERR_NOT_OPEN");
   (BB_ERR_CLOSED, $"BB_ERR_CLOSED");
   (BB_ERR_NOT_PUBLISHED, $"BB_ERR_NOT_PUBLISHED");
   (BB_ERR_NOT_ELIGIBLE, $"BB_ERR_NOT_ELIGIBLE");
   (BB_ERR_CERT_INVALID, $"BB_ERR_CERT_INVALID");
   (BB_ERR_CERT_EXPIRED, $"BB_ERR_CERT_EXPIRED");
   (BB_ERR_BAD_OPTION, $"BB_ERR_BAD_OPTION");
   (BB_ERR_REPLAY, $"BB_ERR_REPLAY");
   (BB_ERR_DECRYPT, $"BB_ERR_DECRYPT");
   (BB_ERR_NOT_FOUND, $"BB_ERR_NOT_FOUND");
   (BB_ERR_NOT_JOINED, $"BB_ERR_NOT_JOINED");
   (BB_ERR_DB, $"BB_ERR_DB");
   (BB_ERR_NOT_IMPLEMENTED, $"BB_ERR_NOT_IMPLEMENTED")].

Definition name_from_result (r : bb_result_t) : option cstr := name_of RESULT_NAMES r.
Definition result_from_name (s : cstr) : option bb_result_t := of_name RESULT_NAMES s.

Definition STATE_NAMES : list (bb_state_t * cstr) :=
  [(BB_STATE_DRAFT, $"DRAFT"); (BB_STATE_OPEN, $"OPEN"); (BB_STATE_CLOSED, $"CLOSED");
   (BB_STATE_PUBLISHED, $"PUBLISHED")].

Definition state_from_name (s : cstr) : option bb_state_t := of_name STATE_NAMES s.

(** ** Hex *)

Definition hex_char (n : Z) : ascii :=
  default NUL (($"0123456789abcdef") !! Z.to_nat n).

(** [in] is the [in_len] bytes the source reads. *)
Definition hex_encode (bytes : list ascii) (out_cap : nat) : option cstr :=
  if (out_cap <? length bytes * 2 + 1)%nat then None
  else Some (concat (map (fun c => [hex_char (Z.shiftr (code c) 4); hex_char (Z.land (code c) 15)]) bytes)).

Definition hex_nibble (c : ascii) : option Z :=
  (if (48 <=? code c) && (code c <=? 57) then Some (code c - 48)
   else if (97 <=? code c) && (code c <=? 102) then Some (code c - 97 + 10)
   else if (65 <=? code c) && (code c <=? 70) then Some (code c - 65 + 10)
   else None)%Z.

(** The bytes written to [out], and whether every digit was one: a bad digit
    stops the loop with the earlier bytes already stored. *)
Fixpoint hex_pairs (s : cstr) : list ascii * bool :=
  match s with
  | h :: l :: s' =>
    match hex_nibble h, hex_nibble l with
    | Some hi, Some lo =>
      let '(bytes, ok) := hex_pairs s' in
      (ascii_of_N (Z.to_N (u8 (Z.lor (Z.shiftl hi 4) lo))) :: bytes, ok)
    | _, _ => ([], false)
    end
  | _ => ([], true)
  end.

Definition hex_decode (hex : cstr) (out_cap : nat) : list ascii * bool :=
  if negb (length hex mod 2 =? 0)%nat then ([], false)
  else if (out_cap <? length hex / 2)%nat then ([], false)
  else hex_pairs hex.

(** ** The body writer *)

Definition CODEC_BODY_MAX : nat := Z.to_nat 8192.

(** A CR anywhere, or an LF before the last byte. *)
Fixpoint breaks_line (text : cstr) : bool :=
  match text with
  | [] => false
  | c :: text' => ceqb c CR || (ceqb c LF && negb (bool_decide (text' = []))) || breaks_line text'
  end.

(** [text] is what the format expands to. *)
Definition body_append (text body : cstr) : option cstr :=
  if (CODEC_BODY_MAX - length body <=? length text)%nat then None
  else if breaks_line text then None
  else Some (body ++ text).

(** A run of [body_append] calls, each returning -1 at once if it fails. *)
Fixpoint body_append_all (texts : list cstr) (body : cstr) : option cstr :=
  match texts with
  | [] => Some body
  | t :: texts' => body' ← body_append t body; body_append_all texts' body'
  end.

(** ["key=%s\n"] *)
Definition line (key val : cstr) : cstr := key ++ "="%char :: val ++ [LF].

(** ** The body reader *)

Definition EQ : ascii := "="%char.

(** The lines of the body; the last may lack its LF. *)
Fixpoint split_lines (body : list ascii) : list (list ascii) :=
  match body with
  | [] => []
  | c :: body' =>
    if ceqb c LF then [] :: split_lines body'
    else match split_lines body', body' with
    | l :: ls, _ :: _ => (c :: l) :: ls
    | _, _ => [[c]]
    end
  end.

Definition strip_cr (l : list ascii) : list ascii :=
  match last l with
  | Some c => if ceqb c CR then take (length l - 1) l else l
  | None => l
  end.

Definition kv_line (l : list ascii) : option (cstr * cstr) :=
  match split_at EQ (strip_cr l) with
  | Some ((_ :: _) as k, v) => Some (cstring (take 63 k), cstring (take 319 v))
  | _ => None
  end.

(** [body_for_each]: the calls of [fn], in order. *)
Definition body_for_each {A} (body : option (list ascii)) (body_len : nat)
    (fn : cstr -> cstr -> A -> A) (ctx : A) : A :=
  foldl (fun a '(k, v) => fn k v a) ctx (omap kv_line (split_lines (body_bytes body body_len))).

(** ["/election/%15[^/]"] *)
Fixpoint until_slash (s : cstr) : cstr :=
  match s with
  | [] => []
  | c :: s' => if ceqb c "/" then [] else c :: until_slash s'
  end.

Definition path_election_id (path : cstr) : option cstr :=
  if Rows.starts_with ($"/election/") path then
    match take (BB_ID_LEN - 1) (until_slash (drop 10 path)) with
    | [] => None
    | id => Some id
    end
  else None.

(** ** Requests *)

Record create_ctx_t := mkCreateCtx { cc_cfg : bb_config_t; cc_id : cstr; cc_opt_i : nat; cc_elig_i : nat }.

Definition create_kv (k v : cstr) (c : create_ctx_t) : create_ctx_t :=
  let g := cc_cfg c in
  if streq k ($"election_id") then mkCreateCtx g (trunc BB_ID_LEN v) (cc_opt_i c) (cc_elig_i c)
  else if streq k ($"title") then
    mkCreateCtx (mkConfig (trunc BB_TITLE_LEN v) (cfg_options g) (cfg_option_count g) (cfg_eligible g)
                   (cfg_eligible_count g) (cfg_open_time g) (cfg_close_time g)) (cc_id c) (cc_opt_i c) (cc_elig_i c)
  else if streq k ($"open_time") then
    mkCreateCtx (mkConfig (cfg_title g) (cfg_options g) (cfg_option_count g) (cfg_eligible g)
                   (cfg_eligible_count g) (trunc BB_TIME_LEN v) (cfg_close_time g)) (cc_id c) (cc_opt_i c) (cc_elig_i c)
  else if streq k ($"close_time") then
    mkCreateCtx (mkConfig (cfg_title g) (cfg_options g) (cfg_option_count g) (cfg_eligible g)
                   (cfg_eligible_count g) (cfg_open_time g) (trunc BB_TIME_LEN v)) (cc_id c) (cc_opt_i c) (cc_elig_i c)
  else if streq k ($"option") then
    if (cc_opt_i c <? BB_MAX_OPTIONS)%nat then
      mkCreateCtx (mkConfig (cfg_title g) (<[cc_opt_i c := trunc BB_OPTION_LEN v]> (cfg_options g)) (cfg_option_count g)
                     (cfg_eligible g) (cfg_eligible_count g) (cfg_open_time g) (cfg_close_time g))
        (cc_id c) (S (cc_opt_i c)) (cc_elig_i c)
    else c
  else if streq k ($"eligible") then
    if (cc_elig_i c <? BB_MAX_VOTERS)%nat then
      mkCreateCtx (mkConfig (cfg_title g) (cfg_options g) (cfg_option_count g)
                     (<[cc_elig_i c := trunc BB_CERT_LEN v]> (cfg_eligible g)) (cfg_eligible_count g)
                     (cfg_open_time g) (cfg_close_time g))
        (cc_id c) (cc_opt_i c) (S (cc_elig_i c))
    else c
  else c.

Record ballot_ctx_t := mkBallotCtx { bc_ballot : bb_ballot_t; bc_got_payload : bool }.

(** A failed [hex_decode] leaves the bytes it stored, but no length. *)
Definition ballot_kv (k v : cstr) (c : ballot_ctx_t) : ballot_ctx_t :=
  let b := bc_ballot c in
  if streq k ($"nonce") then
    mkBallotCtx (mkBallot (bl_cert_name b) (trunc BB_NONCE_LEN v) (bl_payload b) (bl_payload_len b)) (bc_got_payload c)
  else if streq k ($"payload") then
    let '(bytes, ok) := hex_decode v BB_CIPHERTEXT_MAX in
    let payload := bytes ++ drop (length bytes) (bl_payload b) in
    if ok then mkBallotCtx (mkBallot (bl_cert_name b) (bl_nonce b) payload (Z.of_nat (length bytes))) true
    else mkBallotCtx (mkBallot (bl_cert_name b) (bl_nonce b) payload (bl_payload_len b)) (bc_got_payload c)
  else c.

Definition hash_kv (k v : cstr) (hash : cstr) : cstr :=
  if streq k ($"hash") then trunc BB_HASH_LEN v else hash.

(** ["for (int i = 0; i < count; i++)"] over an array: the entries read.  A
    count past the array is undefined behaviour, excluded by [sendable]. *)
Definition entries {A} (count : Z) (l : list A) : list A := take (Z.to_nat count) l.

Definition election_path (id suffix : cstr) : cstr := trunc HTTTP_MAX_PATH ($"/election/" ++ id ++ suffix).

(** The path and the [body_append] texts of each op. *)
Definition request_parts (req : bcl_request_t) : option (cstr * list cstr) :=
  let id := cr_election_id req in
  let g := cr_config req in
  match cr_op req with
  | BCL_CREATE =>
    Some (trunc HTTTP_MAX_PATH ($"/election"),
          (match id with [] => [] | _ => [line ($"election_id") id] end) ++
          [line ($"title") (cfg_title g); line ($"open_time") (cfg_open_time g); line ($"close_time") (cfg_close_time g)] ++
          map (line ($"option")) (entries (cfg_option_count g) (cfg_options g)) ++
          map (line ($"eligible")) (entries (cfg_eligible_count g) (cfg_eligible g)))
  | BCL_OPEN | BCL_CLOSE | BCL_PUBLISH | BCL_JOIN | BCL_RESULTS | BCL_ADMIN_RESULTS =>
    Some (election_path id [], [])
  | BCL_CAST | BCL_UPDATE =>
    hex ← hex_encode (entries (bl_payload_len (cr_ballot req)) (bl_payload (cr_ballot req))) (BB_CIPHERTEXT_MAX * 2 + 1);
    Some (election_path id ($"/ballot"), [line ($"nonce") (bl_nonce (cr_ballot req)); line ($"payload") hex])
  | BCL_CHECK | BCL_ADMIN_CHECK =>
    Some (election_path id ($"/check"), [line ($"hash") (cr_hash req)])
  | BCL_ADMIN_NEXT_ID => Some (trunc HTTTP_MAX_PATH ($"/election/next-id"), [])
  end.

(** [off > 0] decides whether the message has a body. *)
Definition body_field (body : cstr) : option (list ascii) := match body with [] => None | _ => Some body end.

Definition bcl_encode_request (req : bcl_request_t) (cap : nat) : option (list ascii) :=
  method ← method_from_op (cr_op req);
  '(path, texts) ← request_parts req;
  body ← body_append_all texts [];
  hs ← (match cr_cert_name req with
        | [] => Some []
        | _ => match htttp_header_set [] ($"Cert-Name") (cr_cert_name req) with HOk hs => Some hs | HErr _ => None end
        end);
  match htttp_serialize_request
          (mkRequest (trunc HTTTP_MAX_METHOD method) (trunc HTTTP_MAX_PATH path) hs (body_field body) (length body)) cap with
  | HOk out => Some out
  | HErr _ => None
  end.

Definition bcl_decode_request (http : htttp_request_t) : option bcl_request_t :=
  op ← op_from_method (rq_method http);
  let cert := match htttp_header_get (rq_headers http) ($"Cert-Name") with
              | Some c => trunc BB_CERT_LEN c
              | None => []
              end in
  match op with
  | BCL_CREATE =>
    let c := body_for_each (rq_body http) (rq_body_len http) create_kv (mkCreateCtx zero_config [] 0 0) in
    let g := cc_cfg c in
    Some (mkReq op cert (cc_id c) zero_ballot []
            (mkConfig (cfg_title g) (cfg_options g) (Z.of_nat (cc_opt_i c)) (cfg_eligible g)
               (Z.of_nat (cc_elig_i c)) (cfg_open_time g) (cfg_close_time g)))
  | BCL_ADMIN_NEXT_ID => Some (mkReq op cert [] zero_ballot [] zero_config)
  | BCL_OPEN | BCL_CLOSE | BCL_PUBLISH | BCL_JOIN | BCL_RESULTS | BCL_ADMIN_RESULTS =>
    id ← path_election_id (rq_path http);
    Some (mkReq op cert id zero_ballot [] zero_config)
  | BCL_CAST | BCL_UPDATE =>
    id ← path_election_id (rq_path http);
    let b0 := mkBallot (trunc BB_CERT_LEN cert) [] (bl_payload zero_ballot) 0 in
    let c := body_for_each (rq_body http) (rq_body_len http) ballot_kv (mkBallotCtx b0 false) in
    if bc_got_payload c then Some (mkReq op cert id (bc_ballot c) [] zero_config) else None
  | BCL_CHECK | BCL_ADMIN_CHECK =>
    id ← path_election_id (rq_path http);
    match body_for_each (rq_body http) (rq_body_len http) hash_kv [] with
    | [] => None
    | hash => Some (mkReq op cert id zero_ballot hash zero_config)
    end
  end.

(** ** Responses *)

Definition bcl_http_status (status : bb_result_t) : Z :=
  match status with
  | BB_OK => 200
  | BB_ERR_CONFIG_TITLE | BB_ERR_CONFIG_OPTIONS | BB_ERR_CONFIG_TIME | BB_ERR_BAD_OPTION | BB_ERR_DECRYPT => 400
  | BB_ERR_NOT_ELIGIBLE | BB_ERR_CERT_INVALID | BB_ERR_CERT_EXPIRED => 403
  | BB_ERR_NOT_FOUND => 404
  | BB_ERR_ILLEGAL_TRANSITION | BB_ERR_NOT_OPEN | BB_ERR_CLOSED | BB_ERR_NOT_PUBLISHED | BB_ERR_REPLAY
  | BB_ERR_NOT_JOINED | BB_ERR_CONFIG_ID_TAKEN => 409
  | BB_ERR_DB | BB_ERR_NOT_IMPLEMENTED | BB_ERR_RETRY => 500
  end.

(** ["%s%d"] with a comma from the second entry on. *)
Definition csv (tally : list Z) : list cstr :=
  imap (fun i z => (match i with O => [] | S _ => [","%char] end) ++ print_int z) tally.

Definition row_text (h : bb_ballot_hash_t) : cstr :=
  bh_hash h ++ ","%char :: print_int (bh_option_index h) ++ ","%char :: print_int (bh_version h) ++
  ","%char :: print_int (bh_superseded h).

Definition response_texts (op : bcl_op_t) (resp : bcl_response_t) : list cstr :=
  let e := cp_election resp in
  match op with
  | BCL_CREATE | BCL_ADMIN_NEXT_ID =>
    match el_id e with [] => [] | _ => [line ($"election_id") (el_id e)] end
  | BCL_OPEN | BCL_CLOSE | BCL_PUBLISH => []
  | BCL_JOIN =>
    match el_id e with
    | [] => []
    | _ =>
      [line ($"election_id") (el_id e); line ($"title") (el_title e); line ($"state") (bb_state_str (el_state e));
       line ($"open_time") (el_open_time e); line ($"close_time") (el_close_time e);
       line ($"has_prior_ballot") (print_int (cp_has_prior_ballot resp));
       line ($"prior_ballot_version") (print_int (cp_prior_ballot_version resp))] ++
      map (line ($"option")) (entries (el_option_count e) (el_options e))
    end
  | BCL_CAST | BCL_UPDATE =>
    match rc_hash (cp_receipt resp) with
    | [] => []
    | _ => [line ($"hash") (rc_hash (cp_receipt resp)); line ($"issued_at") (rc_issued_at (cp_receipt resp))]
    end
  | BCL_RESULTS | BCL_ADMIN_RESULTS =>
    [line ($"election_id") (el_id e); line ($"title") (el_title e);
     line ($"tally_count") (print_int (cp_option_count resp))] ++
    (if (0 <? cp_option_count resp)%Z then
       [$"tally="] ++ csv (entries (cp_option_count resp) (cp_tally resp)) ++ [[LF]] ++
       map (line ($"result_option")) (entries (cp_option_count resp) (cp_options resp))
     else []) ++
    [line ($"hash_count") (print_int (cp_hash_count resp))] ++
    map (fun h => line ($"row") (row_text h)) (entries (cp_hash_count resp) (cp_hashes resp))
  | BCL_CHECK | BCL_ADMIN_CHECK =>
    [line ($"found") (print_int (cp_found resp))] ++
    (if (cp_found resp =? 0)%Z then []
     else [line ($"found_option") (print_int (cp_found_option resp));
           line ($"found_option_name") (cp_found_option_name resp)])
  end.

(** [date]: see [htttp_serialize_response]. *)
Definition bcl_encode_response (date : option cstr) (op : bcl_op_t) (resp : bcl_response_t) (cap : nat)
    : option (list ascii) :=
  sname ← name_from_result (cp_status resp);
  body ← body_append_all (line ($"status") sname :: response_texts op resp) [];
  match htttp_serialize_response date
          (mkResponse (bcl_http_status (cp_status resp)) [] (body_field body) (length body)) cap with
  | HOk out => Some out
  | HErr _ => None
  end.

(** ** Decoding responses *)

(** Assignments to the fields of the response and of its election. *)
Definition set_status x (r : bcl_response_t) :=
  mkResp x (cp_election r) (cp_has_prior_ballot r) (cp_prior_ballot_version r) (cp_receipt r) (cp_tally r) (cp_option_count r) (cp_options r) (cp_hashes r) (cp_hash_count r) (cp_found r) (cp_found_option r) (cp_found_option_name r).
Definition set_election x (r : bcl_response_t) :=
  mkResp (cp_status r) x (cp_has_prior_ballot r) (cp_prior_ballot_version r) (cp_receipt r) (cp_tally r) (cp_option_count r) (cp_options r) (cp_hashes r) (cp_hash_count r) (cp_found r) (cp_found_option r) (cp_found_option_name r).
Definition set_has_prior x (r : bcl_response_t) :=
  mkResp (cp_status r) (cp_election r) x (cp_prior_ballot_version r) (cp_receipt r) (cp_tally r) (cp_option_count r) (cp_options r) (cp_hashes r) (cp_hash_count r) (cp_found r) (cp_found_option r) (cp_found_option_name r).
Definition set_prior_version x (r : bcl_response_t) :=
  mkResp (cp_status r) (cp_election r) (cp_has_prior_ballot r) x (cp_receipt r) (cp_tally r) (cp_option_count r) (cp_options r) (cp_hashes r) (cp_hash_count r) (cp_found r) (cp_found_option r) (cp_found_option_name r).
Definition set_receipt x (r : bcl_response_t) :=
  mkResp (cp_status r) (cp_election r) (cp_has_prior_ballot r) (cp_prior_ballot_version r) x (cp_tally r) (cp_option_count r) (cp_options r) (cp_hashes r) (cp_hash_count r) (cp_found r) (cp_found_option r) (cp_found_option_name r).
Definition set_tally x (r : bcl_response_t) :=
  mkResp (cp_status r) (cp_election r) (cp_has_prior_ballot r) (cp_prior_ballot_version r) (cp_receipt r) x (cp_option_count r) (cp_options r) (cp_hashes r) (cp_hash_count r) (cp_found r) (cp_found_option r) (cp_found_option_name r).
Definition set_option_count x (r : bcl_response_t) :=
  mkResp (cp_status r) (cp_election r) (cp_has_prior_ballot r) (cp_prior_ballot_version r) (cp_receipt r) (cp_tally r) x (cp_options r) (cp_hashes r) (cp_hash_count r) (cp_found r) (cp_found_option r) (cp_found_option_name r).
Definition set_options x (r : bcl_response_t) :=
  mkResp (cp_status r) (cp_election r) (cp_has_prior_ballot r) (cp_prior_ballot_version r) (cp_receipt r) (cp_tally r) (cp_option_count r) x (cp_hashes r) (cp_hash_count r) (cp_found r) (cp_found_option r) (cp_found_option_name r).
Definition set_hashes x (r : bcl_response_t) :=
  mkResp (cp_status r) (cp_election r) (cp_has_prior_ballot r) (cp_prior_ballot_version r) (cp_receipt r) (cp_tally r) (cp_option_count r) (cp_options r) x (cp_hash_count r) (cp_found r) (cp_found_option r) (cp_found_option_name r).
Definition set_hash_count x (r : bcl_response_t) :=
  mkResp (cp_status r) (cp_election r) (cp_has_prior_ballot r) (cp_prior_ballot_version r) (cp_receipt r) (cp_tally r) (cp_option_count r) (cp_options r) (cp_hashes r) x (cp_found r) (cp_found_option r) (cp_found_option_name r).
Definition set_found x (r : bcl_response_t) :=
  mkResp (cp_status r) (cp_election r) (cp_has_prior_ballot r) (cp_prior_ballot_version r) (cp_receipt r) (cp_tally r) (cp_option_count r) (cp_options r) (cp_hashes r) (cp_hash_count r) x (cp_found_option r) (cp_found_option_name r).
Definition set_found_option x (r : bcl_response_t) :=
  mkResp (cp_status r) (cp_election r) (cp_has_prior_ballot r) (cp_prior_ballot_version r) (cp_receipt r) (cp_tally r) (cp_option_count r) (cp_options r) (cp_hashes r) (cp_hash_count r) (cp_found r) x (cp_found_option_name r).
Definition set_found_name x (r : bcl_response_t) :=
  mkResp (cp_status r) (cp_election r) (cp_has_prior_ballot r) (cp_prior_ballot_version r) (cp_receipt r) (cp_tally r) (cp_option_count r) (cp_options r) (cp_hashes r) (cp_hash_count r) (cp_found r) (cp_found_option r) x.
Definition set_el_id x (e : bb_election_t) :=
  mkElection x (el_title e) (el_state e) (el_options e) (el_option_count e) (el_eligible e) (el_eligible_count e) (el_open_time e) (el_close_time e) (el_tally e).
Definition set_el_title x (e : bb_election_t) :=
  mkElection (el_id e) x (el_state e) (el_options e) (el_option_count e) (el_eligible e) (el_eligible_count e) (el_open_time e) (el_close_time e) (el_tally e).
Definition set_el_state x (e : bb_election_t) :=
  mkElection (el_id e) (el_title e) x (el_options e) (el_option_count e) (el_eligible e) (el_eligible_count e) (el_open_time e) (el_close_time e) (el_tally e).
Definition set_el_open x (e : bb_election_t) :=
  mkElection (el_id e) (el_title e) (el_state e) (el_options e) (el_option_count e) (el_eligible e) (el_eligible_count e) x (el_close_time e) (el_tally e).
Definition set_el_close x (e : bb_election_t) :=
  mkElection (el_id e) (el_title e) (el_state e) (el_options e) (el_option_count e) (el_eligible e) (el_eligible_count e) (el_open_time e) x (el_tally e).
Definition set_el_options x n (e : bb_election_t) :=
  mkElection (el_id e) (el_title e) (el_state e) x n (el_eligible e) (el_eligible_count e) (el_open_time e) (el_close_time e) (el_tally e).

(** The [tally=] loop: [slots] entries of the array are left. *)
Fixpoint read_csv (slots i : nat) (p : cstr) (tally : list Z) : list Z :=
  match slots, p with
  | S slots', _ :: _ =>
    let tally := <[i := atoi p]> tally in
    match split_at "," p with
    | Some (_, p') => read_csv slots' (S i) p' tally
    | None => tally
    end
  | _, _ => tally
  end.

(** [sscanf]'s [%d]: blanks, a sign and digits, of which one is required. *)
Definition scan_d (s : cstr) : option (Z * cstr) :=
  let '(v, rest) := strtol s in
  if (length rest =? length s)%nat then None else Some (i32 v, rest).

Definition scan_comma (s : cstr) : option cstr :=
  match s with c :: s' => if ceqb c "," then Some s' else None | [] => None end.

Fixpoint until_comma (s : cstr) : cstr :=
  match s with
  | [] => []
  | c :: s' => if ceqb c "," then [] else c :: until_comma s'
  end.

(** ["%64[^,],%d,%d,%d"] with all four conversions done. *)
Definition scan_row (v : cstr) : option bb_ballot_hash_t :=
  let hash := take (BB_HASH_LEN - 1) (until_comma v) in
  match hash with
  | [] => None
  | _ =>
    s ← scan_comma (drop (length hash) v);
    '(opt, s) ← scan_d s;
    s ← scan_comma s;
    '(ver, s) ← scan_d s;
    s ← scan_comma s;
    '(sup, _) ← scan_d s;
    Some (mkHashRow (trunc BB_HASH_LEN hash) opt ver sup)
  end.

Record resp_ctx_t := mkRespCtx { rx_resp : bcl_response_t; rx_row_i : nat; rx_result_opt_i : nat; rx_status_valid : bool }.

Definition on_resp (f : bcl_response_t -> bcl_response_t) (c : resp_ctx_t) : resp_ctx_t :=
  mkRespCtx (f (rx_resp c)) (rx_row_i c) (rx_result_opt_i c) (rx_status_valid c).
Definition on_election (f : bb_election_t -> bb_election_t) (c : resp_ctx_t) : resp_ctx_t :=
  on_resp (fun r => set_election (f (cp_election r)) r) c.

Definition response_kv (k v : cstr) (c : resp_ctx_t) : resp_ctx_t :=
  let r := rx_resp c in
  if streq k ($"status") then
    match result_from_name v with
    | Some st => mkRespCtx (set_status st r) (rx_row_i c) (rx_result_opt_i c) true
    | None => c
    end
  else if streq k ($"election_id") then on_election (set_el_id (trunc BB_ID_LEN v)) c
  else if streq k ($"title") then on_election (set_el_title (trunc BB_TITLE_LEN v)) c
  else if streq k ($"state") then
    match state_from_name v with Some st => on_election (set_el_state st) c | None => c end
  else if streq k ($"open_time") then on_election (set_el_open (trunc BB_TIME_LEN v)) c
  else if streq k ($"close_time") then on_election (set_el_close (trunc BB_TIME_LEN v)) c
  else if streq k ($"has_prior_ballot") then on_resp (set_has_prior (atoi v)) c
  else if streq k ($"prior_ballot_version") then on_resp (set_prior_version (atoi v)) c
  else if streq k ($"option") then
    let e := cp_election r in
    if (el_option_count e <? Z.of_nat BB_MAX_OPTIONS)%Z then
      on_election (set_el_options (<[Z.to_nat (el_option_count e) := trunc BB_OPTION_LEN v]> (el_options e))
                     (el_option_count e + 1)%Z) c
    else c
  else if streq k ($"hash") then on_resp (set_receipt (mkReceipt (trunc BB_HASH_LEN v) (rc_issued_at (cp_receipt r)))) c
  else if streq k ($"issued_at") then on_resp (set_receipt (mkReceipt (rc_hash (cp_receipt r)) (trunc BB_TIME_LEN v))) c
  else if streq k ($"tally_count") then on_resp (set_option_count (atoi v)) c
  else if streq k ($"result_option") then
    if (rx_result_opt_i c <? BB_MAX_OPTIONS)%nat then
      mkRespCtx (set_options (<[rx_result_opt_i c := trunc BB_OPTION_LEN v]> (cp_options r)) r)
        (rx_row_i c) (S (rx_result_opt_i c)) (rx_status_valid c)
    else c
  else if streq k ($"tally") then on_resp (set_tally (read_csv BB_MAX_OPTIONS 0 v (cp_tally r))) c
  else if streq k ($"hash_count") then on_resp (set_hash_count (atoi v)) c
  else if streq k ($"row") then
    if (rx_row_i c <? BB_MAX_VOTERS)%nat then
      match scan_row v with
      | Some h => mkRespCtx (set_hashes (<[rx_row_i c := h]> (cp_hashes r)) r) (S (rx_row_i c)) (rx_result_opt_i c) (rx_status_valid c)
      | None => c
      end
    else c
  else if streq k ($"found") then on_resp (set_found (atoi v)) c
  else if streq k ($"found_option") then on_resp (set_found_option (atoi v)) c
  else if streq k ($"found_option_name") then on_resp (set_found_name (trunc BB_OPTION_LEN v)) c
  else c.

(** The response as written, and whether the function returned 0. *)
Definition bcl_decode_response (http : htttp_response_t) : bcl_response_t * bool :=
  let c := body_for_each (rp_body http) (rp_body_len http) response_kv (mkRespCtx zero_resp 0 0 false) in
  let r := rx_resp c in
  let hash_count := if (cp_hash_count r <? 0)%Z || (Z.of_nat (rx_row_i c) <? cp_hash_count r)%Z
                    then Z.of_nat (rx_row_i c) else cp_hash_count r in
  let option_count := if (cp_option_count r <? 0)%Z || (Z.of_nat BB_MAX_OPTIONS <? cp_option_count r)%Z
                      then Z.of_nat (rx_result_opt_i c) else cp_option_count r in
  (set_option_count option_count (set_hash_count hash_count r), rx_status_valid c).

End Codec.
