(* ===== verification/CodecLogic.v ===== *)
(** * The codec's line format

    The body writer and the body reader are inverse on [key=value] lines, hex
    is inverse to itself, and the repeated keys fill their arrays in order. *)
From S2P Require Import Prelude CText Types Rows Htttp Codec.

Module CodecLogic.
Import Htttp Codec.

(** ** The writer *)

(** Text with no line break of its own. *)
Definition oneline (s : cstr) : Prop := Forall (fun c => c <> CR /\ c <> LF) s.

#[export] Instance oneline_dec s : Decision (oneline s).
Proof. unfold oneline. apply _. Defined.

Lemma oneline_app s t : oneline (s ++ t) <-> oneline s /\ oneline t.
Proof. apply Forall_app. Qed.

Lemma breaks_line_LF s : breaks_line (s ++ [LF]) = false <-> oneline s.
Proof.
  induction s as [|c s IH]; [split; [intros; apply Forall_nil_2|done]|]. cbn [app breaks_line]. unfold oneline.
  rewrite Forall_cons, !orb_false_iff, IH. unfold ceqb.
  assert (Hne : bool_decide (s ++ [LF] = []) = false) by (apply bool_decide_eq_false_2; by destruct s).
  rewrite Hne, andb_true_r, !bool_decide_eq_false. tauto.
Qed.

Lemma breaks_line_plain s : oneline s -> breaks_line s = false.
Proof.
  induction 1 as [|c s [H1 H2] _ IH]; [done|]. cbn [breaks_line]. unfold ceqb.
  by rewrite (bool_decide_eq_false_2 (c = CR)), (bool_decide_eq_false_2 (c = LF)), IH.
Qed.

Lemma breaks_line_line k v : breaks_line (line k v) = false <-> oneline k /\ oneline v.
Proof.
  unfold line. change (k ++ "="%char :: v ++ [LF]) with (k ++ ["="%char] ++ v ++ [LF]).
  rewrite !app_assoc, breaks_line_LF, !oneline_app. split; [tauto|]. intros [? ?]. split; [split; [done|]|done].
  by apply Forall_singleton.
Qed.

Lemma body_append_all_fits texts body : Forall (fun t => breaks_line t = false) texts ->
  (length (body ++ concat texts) < CODEC_BODY_MAX)%nat -> body_append_all texts body = Some (body ++ concat texts).
Proof.
  revert body. induction texts as [|t texts IH]; intros body HF Hl; cbn [body_append_all concat].
  { by rewrite app_nil_r. }
  apply Forall_cons in HF as [Ht HF]. cbn [concat] in Hl. rewrite !length_app in Hl.
  unfold body_append. rewrite (proj2 (Nat.leb_gt _ _)) by lia. rewrite Ht. simpl.
  rewrite IH; [by rewrite <-app_assoc|done|]. rewrite !length_app. lia.
Qed.

Lemma body_append_all_breaks texts body : ~ Forall (fun t => breaks_line t = false) texts ->
  body_append_all texts body = None.
Proof.
  revert body. induction texts as [|t texts IH]; intros body HF; [by destruct HF|]. cbn [body_append_all].
  unfold body_append. case_match; [done|]. destruct (breaks_line t) eqn:Et; [done|]. simpl. apply IH.
  intros HF'. apply HF. by constructor.
Qed.

(** ** The reader *)

Lemma split_lines_line l rest : Rows.no_char LF l -> split_lines (l ++ LF :: rest) = l :: split_lines rest.
Proof.
  induction 1 as [|c l Hc _ IH]; [done|]. cbn [app split_lines]. unfold ceqb. rewrite bool_decide_eq_false_2 by done.
  rewrite IH. by destruct l.
Qed.

(** A line the reader takes for a key and a value; it hands over at most 319
    bytes of the value. *)
Definition kv_wide (kv : cstr * cstr) : Prop :=
  let '(k, v) := kv in
  k <> [] /\ (length k <= 63)%nat /\ Rows.no_char EQ k /\ Rows.no_char NUL (k ++ v) /\ oneline k /\ oneline v.

Definition kv_cut (kv : cstr * cstr) : cstr * cstr := (kv.1, take 319 kv.2).

(** A line the reader hands over whole. *)
Definition kv_ok (kv : cstr * cstr) : Prop := kv_wide kv /\ (length kv.2 <= 319)%nat.

Definition kv_text (kvs : list (cstr * cstr)) : cstr := concat (map (fun '(k, v) => line k v) kvs).

Lemma strip_cr_oneline l : oneline l -> strip_cr l = l.
Proof.
  intros Hl. unfold strip_cr. destruct (last l) as [c|] eqn:E; [|done].
  apply last_Some in E as [l' ->]. apply oneline_app in Hl as [_ [[Hc _] _]%Forall_cons].
  unfold ceqb. by rewrite bool_decide_eq_false_2.
Qed.

Lemma kv_line_wide k v : kv_wide (k, v) -> kv_line (k ++ EQ :: v) = Some (kv_cut (k, v)).
Proof.
  intros (Hk & Hlk & Heq & Hnul & Ok & Ov). unfold kv_line. rewrite strip_cr_oneline.
  2: { apply oneline_app; split; [done|]. by constructor. }
  rewrite split_at_app by done. destruct k as [|k0 k'] eqn:E; [done|]. rewrite <-E in *.
  apply Rows.no_char_app in Hnul as [Hn1 Hn2]. rewrite (take_ge k) by done. rewrite !cstring_id; [done|by apply Forall_take|done].
Qed.

Lemma oneline_no_LF s : oneline s -> Rows.no_char LF s.
Proof. intros H. eapply Forall_impl; [exact H|]. by intros ? []. Qed.

Lemma read_kv_wide kvs : Forall kv_wide kvs -> omap kv_line (split_lines (kv_text kvs)) = map kv_cut kvs.
Proof.
  induction 1 as [|[k v] kvs Hkv _ IH]; [done|]. unfold kv_text. cbn [map concat]. fold (kv_text kvs).
  pose proof Hkv as (_ & _ & _ & _ & Ok & Ov). unfold line.
  replace ((k ++ "="%char :: v ++ [LF]) ++ kv_text kvs) with ((k ++ EQ :: v) ++ LF :: kv_text kvs).
  2: { by rewrite <-!app_assoc; cbn [app]; rewrite <-app_assoc. }
  rewrite split_lines_line. 2: { apply Rows.no_char_app; split; [by apply oneline_no_LF|].
    constructor; [done|by apply oneline_no_LF]. }
  cbn [omap list_omap]. by rewrite kv_line_wide, IH.
Qed.

Lemma kv_cut_ok kvs : Forall kv_ok kvs -> map kv_cut kvs = kvs.
Proof.
  induction 1 as [|[k v] kvs [_ Hl] _ IH]; [done|]. cbn [map]. rewrite IH. unfold kv_cut. by rewrite take_ge.
Qed.

Lemma body_view_id t : body_bytes (body_view (body_field t) (length t)) (length t) = t.
Proof.
  unfold body_view, body_bytes, body_field. destruct t as [|c t]; [done|].
  change (0 <? length (c :: t))%nat with true. cbv iota beta. unfold default, from_option, id.
  rewrite (take_ge (c :: t)) by done. by rewrite take_ge.
Qed.

Definition kv_fold {A} (fn : cstr -> cstr -> A -> A) (ctx : A) (kvs : list (cstr * cstr)) : A :=
  foldl (fun a '(k, v) => fn k v a) ctx kvs.

(** What the decoders see of a body the encoders wrote. *)
Lemma body_for_each_wide {A} kvs (fn : cstr -> cstr -> A -> A) ctx : Forall kv_wide kvs ->
  body_for_each (body_view (body_field (kv_text kvs)) (length (kv_text kvs))) (length (kv_text kvs)) fn ctx =
  kv_fold fn ctx (map kv_cut kvs).
Proof. intros Hk. unfold body_for_each, kv_fold. by rewrite body_view_id, read_kv_wide. Qed.

Lemma body_for_each_kv {A} kvs (fn : cstr -> cstr -> A -> A) ctx : Forall kv_ok kvs ->
  body_for_each (body_view (body_field (kv_text kvs)) (length (kv_text kvs))) (length (kv_text kvs)) fn ctx =
  kv_fold fn ctx kvs.
Proof.
  intros Hk. rewrite body_for_each_wide by (eapply Forall_impl; [exact Hk|]; by intros ? []). by rewrite kv_cut_ok.
Qed.

(** ** Hex *)

Lemma hex_char_spec n : (0 <= n < 16)%Z ->
  hex_nibble (hex_char n) = Some n /\ hex_char n <> NUL /\ hex_char n <> CR /\ hex_char n <> LF.
Proof.
  intros Hn. assert (Hc : n ∈ map Z.of_nat (seq 0 16)).
  { apply list_elem_of_fmap. exists (Z.to_nat n). split; [lia|]. apply elem_of_seq. lia. }
  clear Hn. revert n Hc.
  apply (Forall_forall (fun n => hex_nibble (hex_char n) = Some n /\ hex_char n <> NUL /\ hex_char n <> CR /\ hex_char n <> LF)).
  cbn. repeat (apply Forall_cons_2; [done|]). apply Forall_nil_2.
Qed.

Lemma hex_nibbles c : (0 <= Z.shiftr (code c) 4 < 16)%Z /\ (0 <= Z.land (code c) 15 < 16)%Z /\
  Z.lor (Z.shiftl (Z.shiftr (code c) 4) 4) (Z.land (code c) 15) = code c.
Proof.
  pose proof (code_range c). rewrite Z.shiftr_div_pow2 by lia. change 15%Z with (Z.ones 4). rewrite Z.land_ones by lia.
  split; [split; [apply Z.div_pos; lia|apply Z.div_lt_upper_bound; lia]|].
  split; [apply Z.mod_pos_bound; lia|]. rewrite <-Z.shiftr_div_pow2 by lia.
  apply Z.bits_inj'. intros i Hi. rewrite Z.lor_spec, Z.shiftl_spec by lia.
  rewrite <-Z.land_ones, Z.land_spec by lia.
  destruct (decide (i < 4)%Z).
  - rewrite Z.testbit_neg_r by lia. rewrite Z.ones_spec_low by lia. by rewrite andb_true_r.
  - rewrite Z.shiftr_spec by lia. rewrite Z.ones_spec_high by lia. rewrite andb_false_r, orb_false_r. f_equal. lia.
Qed.

Definition hex_text (bytes : list ascii) : cstr :=
  concat (map (fun c => [hex_char (Z.shiftr (code c) 4); hex_char (Z.land (code c) 15)]) bytes).

Lemma hex_text_length bytes : length (hex_text bytes) = (2 * length bytes)%nat.
Proof. induction bytes as [|c bytes IH]; [done|]. unfold hex_text in *. simpl in *. lia. Qed.

Lemma hex_text_plain bytes : oneline (hex_text bytes) /\ Rows.no_char NUL (hex_text bytes).
Proof.
  induction bytes as [|c bytes [IH1 IH2]]; [split; apply Forall_nil_2|]. unfold hex_text. cbn [map concat app].
  destruct (hex_nibbles c) as (H1 & H2 & _). apply hex_char_spec in H1, H2.
  split; do 2 (constructor; [tauto|]); done.
Qed.

Lemma hex_pairs_text bytes : hex_pairs (hex_text bytes) = (bytes, true).
Proof.
  induction bytes as [|c bytes IH]; [done|]. unfold hex_text. cbn [map concat app hex_pairs].
  destruct (hex_nibbles c) as (H1 & H2 & Hc). destruct (hex_char_spec _ H1) as [-> _], (hex_char_spec _ H2) as [-> _].
  fold (hex_text bytes). rewrite IH. rewrite Hc. pose proof (code_range c). unfold u8. rewrite Z.mod_small by lia.
  unfold code. by rewrite N2Z.id, ascii_N_embedding.
Qed.

Lemma hex_roundtrip bytes cap : (length bytes <= cap)%nat -> hex_decode (hex_text bytes) cap = (bytes, true).
Proof.
  intros Hl. unfold hex_decode. rewrite hex_text_length, Nat.mul_comm, Nat.Div0.mod_mul, Nat.div_mul by lia.
  cbn [Nat.eqb negb]. rewrite (proj2 (Nat.ltb_ge _ _)) by done. apply hex_pairs_text.
Qed.

(** ** Filling the arrays *)

(** An array of [n] slots whose first ones are [l]. *)
Definition pad {A} (n : nat) (x : A) (l : list A) : list A := l ++ replicate (n - length l) x.

Lemma insert_pad {A} n (x v : A) l : (length l < n)%nat -> <[length l := v]> (pad n x l) = pad n x (l ++ [v]).
Proof.
  intros Hl. unfold pad. rewrite insert_app_r_alt by done. rewrite Nat.sub_diag, length_app, <-app_assoc. simpl.
  replace (n - length l)%nat with (S (n - (length l + 1)))%nat by lia. done.
Qed.

Lemma pad_length {A} n (x : A) l : (length l <= n)%nat -> length (pad n x l) = n.
Proof. intros. unfold pad. rewrite length_app, length_replicate. lia. Qed.

Lemma pad_nil {A} n (x : A) : pad n x [] = replicate n x.
Proof. unfold pad. simpl. by rewrite Nat.sub_0_r. Qed.

Lemma kv_fold_app {A} (fn : cstr -> cstr -> A -> A) ctx l k : kv_fold fn ctx (l ++ k) = kv_fold fn (kv_fold fn ctx l) k.
Proof. apply foldl_app. Qed.

Lemma kv_fold_cons {A} (fn : cstr -> cstr -> A -> A) ctx k v l : kv_fold fn ctx ((k, v) :: l) = kv_fold fn (fn k v ctx) l.
Proof. done. Qed.

Lemma create_options title opts0 n elig m t0 t1 id e pre opts :
  (length pre + length opts <= BB_MAX_OPTIONS)%nat -> Forall (fun o => length o < BB_OPTION_LEN)%nat opts ->
  opts0 = pad BB_MAX_OPTIONS [] pre ->
  kv_fold create_kv (mkCreateCtx (mkConfig title opts0 n elig m t0 t1) id (length pre) e) (map (pair ($"option")) opts) =
  mkCreateCtx (mkConfig title (pad BB_MAX_OPTIONS [] (pre ++ opts)) n elig m t0 t1) id (length (pre ++ opts)) e.
Proof.
  revert pre opts0. induction opts as [|o opts IH]; intros pre opts0 Hl HF ->; [by rewrite app_nil_r|].
  apply Forall_cons in HF as [Ho HF]. cbn [map length] in *. rewrite kv_fold_cons.
  change (create_kv ($"option") o ?c) with
    (if (cc_opt_i c <? BB_MAX_OPTIONS)%nat then
       mkCreateCtx (mkConfig (cfg_title (cc_cfg c)) (<[cc_opt_i c := trunc BB_OPTION_LEN o]> (cfg_options (cc_cfg c))) (cfg_option_count (cc_cfg c))
         (cfg_eligible (cc_cfg c)) (cfg_eligible_count (cc_cfg c)) (cfg_open_time (cc_cfg c)) (cfg_close_time (cc_cfg c)))
         (cc_id c) (S (cc_opt_i c)) (cc_elig_i c) else c).
  cbn [cc_opt_i cc_cfg cc_id cc_elig_i cfg_title cfg_options cfg_option_count cfg_eligible cfg_eligible_count cfg_open_time cfg_close_time].
  rewrite (proj2 (Nat.ltb_lt _ _)), trunc_id, insert_pad by lia.
  replace (S (length pre)) with (length (pre ++ [o])) by (rewrite length_app; simpl; lia).
  rewrite IH; [by rewrite <-app_assoc|rewrite length_app; simpl; lia|done|done].
Qed.

Lemma create_eligible title opts n elig0 m t0 t1 id i pre certs :
  (length pre + length certs <= BB_MAX_VOTERS)%nat -> Forall (fun o => length o < BB_CERT_LEN)%nat certs ->
  elig0 = pad BB_MAX_VOTERS [] pre ->
  kv_fold create_kv (mkCreateCtx (mkConfig title opts n elig0 m t0 t1) id i (length pre)) (map (pair ($"eligible")) certs) =
  mkCreateCtx (mkConfig title opts n (pad BB_MAX_VOTERS [] (pre ++ certs)) m t0 t1) id i (length (pre ++ certs)).
Proof.
  revert pre elig0. induction certs as [|o certs IH]; intros pre elig0 Hl HF ->; [by rewrite app_nil_r|].
  apply Forall_cons in HF as [Ho HF]. cbn [map length] in *. rewrite kv_fold_cons.
  change (create_kv ($"eligible") o ?c) with
    (if (cc_elig_i c <? BB_MAX_VOTERS)%nat then
       mkCreateCtx (mkConfig (cfg_title (cc_cfg c)) (cfg_options (cc_cfg c)) (cfg_option_count (cc_cfg c))
         (<[cc_elig_i c := trunc BB_CERT_LEN o]> (cfg_eligible (cc_cfg c))) (cfg_eligible_count (cc_cfg c)) (cfg_open_time (cc_cfg c)) (cfg_close_time (cc_cfg c)))
         (cc_id c) (cc_opt_i c) (S (cc_elig_i c)) else c).
  cbn [cc_opt_i cc_cfg cc_id cc_elig_i cfg_title cfg_options cfg_option_count cfg_eligible cfg_eligible_count cfg_open_time cfg_close_time].
  rewrite (proj2 (Nat.ltb_lt _ _)), trunc_id, insert_pad by lia.
  replace (S (length pre)) with (length (pre ++ [o])) by (rewrite length_app; simpl; lia).
  rewrite IH; [by rewrite <-app_assoc|rewrite length_app; simpl; lia|done|done].
Qed.

(** ** Keys *)

(** A key the reader returns whole; the sources' keys all are. *)
Definition key_ok (k : cstr) : bool :=
  negb (bool_decide (k = [])) && (length k <=? 24)%nat &&
  forallb (fun c => negb (ceqb c EQ) && negb (ceqb c NUL) && negb (ceqb c CR) && negb (ceqb c LF)) k.

(** The value of a line fits the reader's buffer and the writer's total. *)
Definition val_ok (n : nat) (v : cstr) : Prop := (length v <= n)%nat /\ Rows.no_char NUL v.

Lemma kv_wide_intro n k v : key_ok k = true -> val_ok n v -> oneline v -> kv_wide (k, v).
Proof.
  unfold key_ok. rewrite !andb_true_iff, negb_true_iff, bool_decide_eq_false, Nat.leb_le, forallb_forall.
  intros [[Hne Hl] Hc] [Hv Hn] Ho. unfold kv_wide.
  assert (Hk : Forall (fun c => c <> EQ /\ c <> NUL /\ c <> CR /\ c <> LF) k).
  { apply Forall_forall. intros c Hin%list_elem_of_In. specialize (Hc c Hin). unfold ceqb in Hc.
    rewrite !andb_true_iff, !negb_true_iff, !bool_decide_eq_false in Hc. tauto. }
  split; [done|]. split; [lia|].
  split; [eapply Forall_impl; [exact Hk|]; intros c; simpl; tauto|].
  split; [apply Rows.no_char_app; split; [eapply Forall_impl; [exact Hk|]; intros c; simpl; tauto|done]|].
  split; [eapply Forall_impl; [exact Hk|]; intros c; simpl; tauto|done].
Qed.

Lemma key_ok_length k : key_ok k = true -> (length k <= 24)%nat.
Proof. unfold key_ok. rewrite !andb_true_iff, Nat.leb_le. tauto. Qed.

Lemma key_ok_oneline k : key_ok k = true -> oneline k.
Proof. intros Hk. apply (kv_wide_intro 0 k []); [done|split; [simpl; lia|apply Forall_nil_2]|apply Forall_nil_2]. Qed.

Lemma kv_text_length n kvs : Forall (fun kv => key_ok kv.1 = true /\ val_ok n kv.2) kvs ->
  (length (kv_text kvs) <= (26 + n) * length kvs)%nat.
Proof.
  induction 1 as [|[k v] kvs [Hk [Hv _]] _ IH]; [simpl; lia|]. unfold kv_text. cbn [map concat length]. fold (kv_text kvs).
  apply key_ok_length in Hk. unfold line. rewrite !length_app. cbn [length] in *. rewrite length_app. simpl in *. lia.
Qed.

Lemma kv_ok_intro k v : key_ok k = true -> val_ok 319 v -> oneline v -> kv_ok (k, v).
Proof. intros Hk Hv Ho. split; [by eapply kv_wide_intro|apply Hv]. Qed.

Lemma kv_wide_all n kvs : Forall (fun kv => key_ok kv.1 = true /\ val_ok n kv.2) kvs ->
  Forall (fun kv => oneline kv.2) kvs -> Forall kv_wide kvs.
Proof.
  intros HF HO. rewrite Forall_forall in *. intros [k v] Hin. destruct (HF _ Hin) as [Hk Hv].
  eapply kv_wide_intro; [done|exact Hv|by apply (HO _ Hin)].
Qed.

Lemma kv_ok_all n kvs : (n <= 319)%nat -> Forall (fun kv => key_ok kv.1 = true /\ val_ok n kv.2) kvs ->
  Forall (fun kv => oneline kv.2) kvs -> Forall kv_ok kvs.
Proof.
  intros Hn HF HO. rewrite Forall_forall in *. intros [k v] Hin. destruct (HF _ Hin) as [Hk [Hv Hv']].
  apply kv_ok_intro; [done| |by apply (HO _ Hin)]. split; [simpl in *; lia|done].
Qed.

(** The writer accepts such lines exactly when every value is one line. *)
Lemma body_append_kvs n kvs : Forall (fun kv => key_ok kv.1 = true /\ val_ok n kv.2) kvs ->
  ((26 + n) * length kvs < CODEC_BODY_MAX)%nat ->
  body_append_all (map (fun '(k, v) => line k v) kvs) [] =
  (if decide (Forall (fun kv => oneline kv.2) kvs) then Some (kv_text kvs) else None).
Proof.
  intros HF Hl. destruct (decide _) as [HO|HO].
  - rewrite body_append_all_fits; [done| |].
    + apply Forall_fmap. rewrite Forall_forall in *. intros [k v] Hin. apply breaks_line_line.
      split; [apply key_ok_oneline, (HF _ Hin)|apply (HO _ Hin)].
    + cbn [app]. pose proof (kv_text_length n kvs HF). unfold kv_text in *. lia.
  - apply body_append_all_breaks. intros HB. apply HO. rewrite Forall_fmap in HB. rewrite Forall_forall in *.
    intros [k v] Hin. specialize (HB _ Hin). by apply breaks_line_line in HB as [_ HB].
Qed.

End CodecLogic.
