(* ===== verification/Delivery.v ===== *)
(** * Requests across the wire

    What one side encodes, the other decodes: [delivered] is what the peer makes
    of every request the structs can hold, and [shaped] are those that arrive
    as they were meant. *)
From S2P Require Import Prelude CText Types Rows Htttp Codec CodecLogic.

Module Delivery.
Import Htttp Codec CodecLogic.

(** ** What a request sends *)

(** A C string in a [char] array of [n]. *)
Definition held (n : nat) (s : cstr) : Prop := (length s < n)%nat /\ Rows.no_char NUL s.

Definition has_id_path (op : bcl_op_t) : bool :=
  match op with BCL_CREATE | BCL_ADMIN_NEXT_ID => false | _ => true end.

Definition payload_bytes (b : bb_ballot_t) : list ascii := entries (bl_payload_len b) (bl_payload b).

(** The path and the [key=value] lines of each request. *)
Definition request_path (req : bcl_request_t) : cstr :=
  match cr_op req with
  | BCL_CREATE => $"/election"
  | BCL_ADMIN_NEXT_ID => $"/election/next-id"
  | BCL_CAST | BCL_UPDATE => $"/election/" ++ cr_election_id req ++ $"/ballot"
  | BCL_CHECK | BCL_ADMIN_CHECK => $"/election/" ++ cr_election_id req ++ $"/check"
  | _ => $"/election/" ++ cr_election_id req
  end.

Definition request_kvs (req : bcl_request_t) : list (cstr * cstr) :=
  let g := cr_config req in
  match cr_op req with
  | BCL_CREATE =>
    (match cr_election_id req with [] => [] | id => [($"election_id", id)] end) ++
    [($"title", cfg_title g); ($"open_time", cfg_open_time g); ($"close_time", cfg_close_time g)] ++
    map (pair ($"option")) (entries (cfg_option_count g) (cfg_options g)) ++
    map (pair ($"eligible")) (entries (cfg_eligible_count g) (cfg_eligible g))
  | BCL_CAST | BCL_UPDATE =>
    [($"nonce", bl_nonce (cr_ballot req)); ($"payload", hex_text (payload_bytes (cr_ballot req)))]
  | BCL_CHECK | BCL_ADMIN_CHECK => [($"hash", cr_hash req)]
  | _ => []
  end.

Record config_shaped (g : bb_config_t) : Prop := {
  gs_title : held BB_TITLE_LEN (cfg_title g);
  gs_open : held BB_TIME_LEN (cfg_open_time g);
  gs_close : held BB_TIME_LEN (cfg_close_time g);
  gs_options : length (cfg_options g) = BB_MAX_OPTIONS /\ (0 <= cfg_option_count g <= Z.of_nat BB_MAX_OPTIONS)%Z /\
               Forall (held BB_OPTION_LEN) (cfg_options g);
  gs_eligible : length (cfg_eligible g) = BB_MAX_VOTERS /\ (0 <= cfg_eligible_count g <= Z.of_nat BB_MAX_VOTERS)%Z /\
                Forall (held BB_CERT_LEN) (cfg_eligible g) }.

(** A filled-in request: strings in their arrays, counts within them, and for
    each operation the fields it cannot do without.  159 bytes is the longest
    payload whose hex fits the reader's value buffer. *)
Record shaped (req : bcl_request_t) : Prop := {
  sh_cert : held BB_CERT_LEN (cr_cert_name req);
  sh_id : held BB_ID_LEN (cr_election_id req);
  sh_path : has_id_path (cr_op req) = true -> cr_election_id req <> [] /\ Rows.no_char "/" (cr_election_id req);
  sh_config : cr_op req = BCL_CREATE -> config_shaped (cr_config req);
  sh_ballot : cr_op req = BCL_CAST \/ cr_op req = BCL_UPDATE ->
    held BB_NONCE_LEN (bl_nonce (cr_ballot req)) /\ length (bl_payload (cr_ballot req)) = BB_CIPHERTEXT_MAX /\
    (0 <= bl_payload_len (cr_ballot req) <= 159)%Z;
  sh_hash : cr_op req = BCL_CHECK \/ cr_op req = BCL_ADMIN_CHECK -> held BB_HASH_LEN (cr_hash req) /\ cr_hash req <> [] }.

(** What the C types alone give: strings in their arrays and counts within
    them, a payload of up to BB_CIPHERTEXT_MAX bytes included. *)
Record filled (req : bcl_request_t) : Prop := {
  fl_cert : held BB_CERT_LEN (cr_cert_name req);
  fl_id : held BB_ID_LEN (cr_election_id req);
  fl_config : cr_op req = BCL_CREATE -> config_shaped (cr_config req);
  fl_ballot : cr_op req = BCL_CAST \/ cr_op req = BCL_UPDATE ->
    held BB_NONCE_LEN (bl_nonce (cr_ballot req)) /\ length (bl_payload (cr_ballot req)) = BB_CIPHERTEXT_MAX /\
    (0 <= bl_payload_len (cr_ballot req) <= Z.of_nat BB_CIPHERTEXT_MAX)%Z;
  fl_hash : cr_op req = BCL_CHECK \/ cr_op req = BCL_ADMIN_CHECK -> held BB_HASH_LEN (cr_hash req) }.

Lemma shaped_filled req : shaped req -> filled req.
Proof.
  intros [Hc Hi _ Hg Hb Hh]. split; try done.
  - intros E. destruct (Hb E) as (? & ? & ?). unfold BB_CIPHERTEXT_MAX. split; [done|]. split; [done|]. lia.
  - intros E. by destruct (Hh E).
Qed.

(** Every value is one line, the path has no blank or control byte, and the
    name is printable. *)
Definition clean (req : bcl_request_t) : Prop :=
  Forall (fun kv => oneline kv.2) (request_kvs req) /\
  valid_field (request_path req) false = true /\ valid_field (cr_cert_name req) true = true.

(** The request as the peer's struct holds it: the fields of the operation,
    the array slots past a count and every other field zeroed. *)
Definition wire_config (g : bb_config_t) : bb_config_t :=
  mkConfig (cfg_title g) (pad BB_MAX_OPTIONS [] (entries (cfg_option_count g) (cfg_options g))) (cfg_option_count g)
    (pad BB_MAX_VOTERS [] (entries (cfg_eligible_count g) (cfg_eligible g))) (cfg_eligible_count g)
    (cfg_open_time g) (cfg_close_time g).

Definition wire_view (req : bcl_request_t) : bcl_request_t :=
  let '(mkReq op cert id b hash g) := req in
  match op with
  | BCL_CREATE => mkReq op cert id zero_ballot [] (wire_config g)
  | BCL_ADMIN_NEXT_ID => mkReq op cert [] zero_ballot [] zero_config
  | BCL_CAST | BCL_UPDATE =>
    mkReq op cert id (mkBallot cert (bl_nonce b) (pad BB_CIPHERTEXT_MAX NUL (payload_bytes b)) (bl_payload_len b)) [] zero_config
  | BCL_CHECK | BCL_ADMIN_CHECK => mkReq op cert id zero_ballot hash zero_config
  | _ => mkReq op cert id zero_ballot [] zero_config
  end.

(** ** Encoding *)

Lemma entries_length {A} (n : Z) (l : list A) : (0 <= n <= Z.of_nat (length l))%Z ->
  length (entries n l) = Z.to_nat n.
Proof. intros. unfold entries. rewrite length_take. lia. Qed.

Lemma held_entries n m (l : list cstr) : Forall (held n) l -> Forall (held n) (entries m l).
Proof. apply Forall_take. Qed.

Lemma request_path_length req : filled req -> (length (request_path req) < HTTTP_MAX_PATH)%nat.
Proof.
  intros H. destruct (fl_id _ H) as [Hi _]. unfold request_path, BB_ID_LEN, HTTTP_MAX_PATH in *.
  destruct (cr_op req); rewrite ?length_app; simpl; lia.
Qed.

Lemma request_parts_kvs req : filled req ->
  request_parts req = Some (request_path req, map (fun '(k, v) => line k v) (request_kvs req)).
Proof.
  intros H. pose proof (request_path_length req H) as Hp.
  unfold request_parts, election_path, request_path, request_kvs in *.
  destruct (cr_op req) eqn:Eop; rewrite ?app_nil_r; try (rewrite trunc_id by done; done).
  1, 2: destruct (fl_ballot _ H) as (_ & Hl & Hn); [rewrite Eop; tauto|];
    unfold hex_encode; rewrite (proj2 (Nat.ltb_ge _ _)) by
      (change (take ?n ?l) with (entries n l); rewrite entries_length; unfold BB_CIPHERTEXT_MAX in *; lia);
    simpl; rewrite trunc_id by done; done.
  rewrite trunc_id by (vm_compute; lia). do 2 f_equal. rewrite !map_app, !map_map. by destruct (cr_election_id req).
Qed.

Lemma held_val n m s : held n s -> (n - 1 <= m)%nat -> val_ok m s.
Proof. intros [Hl Hn] ?. split; [lia|done]. Qed.

Lemma held_vals n m k (l : list cstr) : key_ok k = true -> Forall (held n) l -> (n - 1 <= m)%nat ->
  Forall (fun kv => key_ok kv.1 = true /\ val_ok m kv.2) (map (pair k) l).
Proof.
  intros Hk HF Hm. apply Forall_fmap. eapply Forall_impl; [exact HF|]. intros s Hs. split; [done|by eapply held_val].
Qed.

(** The longest value of each kind of request. *)
Definition value_max (op : bcl_op_t) : nat := match op with BCL_CREATE => 63 | _ => 512 end.

Lemma request_kvs_bounds req : filled req ->
  Forall (fun kv => key_ok kv.1 = true /\ val_ok (value_max (cr_op req)) kv.2) (request_kvs req) /\
  ((26 + value_max (cr_op req)) * length (request_kvs req) < CODEC_BODY_MAX)%nat.
Proof.
  intros H. unfold request_kvs, CODEC_BODY_MAX. destruct (cr_op req) eqn:Eop; simpl value_max;
    try (split; [apply Forall_nil_2|simpl; lia]).
  1, 2: destruct (fl_ballot _ H) as (Hn & Hl & Hp); [rewrite Eop; tauto|]; split; [|simpl; lia];
    apply Forall_cons_2; [split; [done|eapply held_val; [exact Hn|unfold BB_NONCE_LEN; lia]]|]; apply Forall_singleton;
    split; [done|]; split; [|apply hex_text_plain]; simpl; rewrite hex_text_length; unfold payload_bytes;
    rewrite entries_length; unfold BB_CIPHERTEXT_MAX in *; lia.
  1, 3: pose proof (fl_hash _ H) as Hh; specialize (Hh ltac:(rewrite Eop; tauto)); split; [|simpl; lia]; apply Forall_singleton;
    split; [done|]; eapply held_val; [exact Hh|unfold BB_HASH_LEN; lia].
  destruct (fl_config _ H Eop) as [Ht Ho Hc (Hl1 & Hn1 & Hf1) (Hl2 & Hn2 & Hf2)]. split.
  - apply Forall_app; split; [|apply Forall_app; split; [|apply Forall_app; split]].
    + pose proof (fl_id _ H) as Hi. destruct (cr_election_id req) eqn:Ei; [apply Forall_nil_2|]. rewrite <-Ei in *.
      apply Forall_singleton. split; [done|]. eapply held_val; [exact Hi|unfold BB_ID_LEN; lia].
    + repeat (apply Forall_cons_2; [split; [done|eapply held_val; [eassumption|vm_compute; lia]]|]). apply Forall_nil_2.
    + eapply held_vals; [done|by apply held_entries|unfold BB_OPTION_LEN; lia].
    + eapply held_vals; [done|by apply held_entries|unfold BB_CERT_LEN; lia].
  - rewrite !length_app, !length_map, !entries_length by lia. unfold BB_MAX_OPTIONS, BB_MAX_VOTERS in *.
    assert (length (match cr_election_id req with [] => [] | id => [($"election_id", id)] end) <= 1)%nat by (case_match; simpl; lia).
    simpl length at 2. lia.
Qed.

(** No message is longer; every buffer the sources pass holds 65536 bytes. *)
Definition MESSAGE_MAX : nat := Z.to_nat 9216.

(** The HTTTP message of a request. *)
Definition op_method (op : bcl_op_t) : cstr := default [] (method_from_op op).

Definition cert_headers (cert : cstr) : list htttp_header_t :=
  match cert with [] => [] | _ => [mkHeader ($"Cert-Name") cert] end.

Definition request_http (req : bcl_request_t) : htttp_request_t :=
  mkRequest (op_method (cr_op req)) (request_path req) (cert_headers (cr_cert_name req))
    (body_field (kv_text (request_kvs req))) (length (kv_text (request_kvs req))).

Lemma op_method_ok op : method_from_op op = Some (op_method op) /\ op_from_method (op_method op) = Some op /\
  op_method op <> [] /\ (length (op_method op) < HTTTP_MAX_METHOD)%nat /\ valid_field (op_method op) false = true.
Proof. destruct op; vm_compute; repeat split; try lia; discriminate. Qed.

Lemma keep_cert cert : keep false (cert_headers cert) = cert_headers cert.
Proof. by destruct cert. Qed.

Lemma cert_headers_valid cert : valid_field cert true = true -> Forall header_valid (cert_headers cert).
Proof. intros Hv. destruct cert; [apply Forall_nil_2|]. apply Forall_singleton. split; [done|split; [done|done]]. Qed.

Lemma body_field_null t : null_with_length (body_field t) (length t) = false.
Proof. by destruct t. Qed.

Lemma request_path_nonempty req : request_path req <> [].
Proof. unfold request_path. by destruct (cr_op req). Qed.

Lemma filled_text_length req : filled req -> (length (request_text (request_http req)) <= MESSAGE_MAX)%nat.
Proof.
  intros H. pose proof (request_path_length req H) as Hp. destruct (op_method_ok (cr_op req)) as (_ & _ & _ & Hm & _).
  destruct (request_kvs_bounds req H) as [HF Hb]. pose proof (kv_text_length _ _ HF). destruct (fl_cert _ H) as [Hc _].
  unfold request_text, request_http. cbn [rq_method rq_path rq_headers rq_body rq_body_len].
  rewrite keep_cert, headers_text_app.
  assert (Hh : (length (headers_text (cert_headers (cr_cert_name req))) <= 44)%nat).
  { destruct (cr_cert_name req) eqn:E; [simpl; lia|]. rewrite <-E in *. cbn [cert_headers].
    unfold cert_headers. rewrite E, <-E, headers_text_one. unfold header_text. cbn [h_key h_value].
    rewrite !length_app. unfold BB_CERT_LEN in *. simpl. lia. }
  assert (Hl : forall n, (length (headers_text (length_header n)) <= 38)%nat).
  { intros n. unfold length_header. case_match; [|simpl; lia]. rewrite headers_text_one. unfold header_text. cbn [h_key h_value].
    rewrite !length_app. pose proof (print_uint_length (Z.of_nat n)). simpl. lia. }
  specialize (Hl (length (kv_text (request_kvs req)))).
  assert (Hbody : (length (body_bytes (body_field (kv_text (request_kvs req))) (length (kv_text (request_kvs req)))) <= CODEC_BODY_MAX)%nat).
  { unfold body_bytes. rewrite length_take. lia. }
  repeat (rewrite length_app || cbn [length]). unfold HTTTP_MAX_METHOD, HTTTP_MAX_PATH, MESSAGE_MAX, CODEC_BODY_MAX in *. simpl. lia.
Qed.

Lemma cert_header_set cert : held BB_CERT_LEN cert -> cert <> [] ->
  htttp_header_set [] ($"Cert-Name") cert =
  if valid_field cert true then HOk (cert_headers cert) else HErr HTTTP_ERR_MALFORMED.
Proof.
  intros [Hl _] Hne. unfold htttp_header_set. change (valid_field ($"Cert-Name") false) with true. cbn [negb orb].
  destruct (valid_field cert true) eqn:Ev; [|done]. cbn [negb length Nat.leb]. change (HTTTP_MAX_HEADERS <=? 0)%nat with false.
  rewrite (copy_token_valid _ _ _ Ev) by (unfold BB_CERT_LEN, HTTTP_MAX_VALUE in *; lia).
  cbv iota. change (copy_token HTTTP_MAX_KEY ($"Cert-Name")) with (HOk ($"Cert-Name")). by destruct cert.
Qed.

Lemma encode_filled req cap : filled req -> (MESSAGE_MAX <= cap)%nat ->
  (clean req -> bcl_encode_request req cap = Some (request_text (request_http req))) /\
  (~ clean req -> bcl_encode_request req cap = None).
Proof.
  intros H Hcap. unfold bcl_encode_request, clean. destruct (op_method_ok (cr_op req)) as (-> & _ & Hmne & Hml & Hmv). simpl.
  rewrite (request_parts_kvs req H). simpl. destruct (request_kvs_bounds req H) as [HF Hb]. rewrite (body_append_kvs _ _ HF Hb).
  destruct (decide _) as [HO|HO]; [|split; [by intros [? _]|done]]. simpl.
  pose proof (request_path_length req H) as Hp. rewrite !trunc_id by done.
  assert (Hcert : forall k, (match cr_cert_name req with
     | [] => Some []
     | _ => match htttp_header_set [] ($"Cert-Name") (cr_cert_name req) with HOk hs => Some hs | HErr _ => None end
     end ≫= k) = if valid_field (cr_cert_name req) true then k (cert_headers (cr_cert_name req)) else None : option (list ascii)).
  { intros k. destruct (cr_cert_name req) eqn:E; [done|]. rewrite <-E.
    rewrite cert_header_set; [|apply (fl_cert _ H)|by rewrite E]. destruct (valid_field (cr_cert_name req) true); reflexivity. }
  rewrite Hcert. destruct (valid_field (cr_cert_name req) true) eqn:Ec; [|split; [by intros (_ & _ & ?)|done]].
  destruct (valid_field (request_path req) false) eqn:Ep; split; try (by intros (_ & ? & _)); try tauto; intros _.
  - fold (request_http req). rewrite serialize_request_fits; [done|apply body_field_null|done|apply request_path_nonempty|done|done| | |].
    + simpl. unfold cert_headers. case_match; simpl; unfold HTTTP_MAX_HEADERS; lia.
    + simpl. rewrite keep_cert. by apply cert_headers_valid.
    + pose proof (filled_text_length req H). lia.
  - unfold htttp_serialize_request. cbn [rq_method rq_path rq_headers rq_body rq_body_len]. rewrite body_field_null.
    pose proof (request_path_nonempty req). destruct (op_method (cr_op req)); [done|]. destruct (request_path req) eqn:E; [done|].
    rewrite Ep. by rewrite orb_true_r.
Qed.

Lemma encode_shaped req cap : shaped req -> (MESSAGE_MAX <= cap)%nat ->
  (clean req -> bcl_encode_request req cap = Some (request_text (request_http req))) /\
  (~ clean req -> bcl_encode_request req cap = None).
Proof. intros H. by apply encode_filled, shaped_filled. Qed.

Lemma request_text_length req : shaped req -> (length (request_text (request_http req)) <= MESSAGE_MAX)%nat.
Proof. intros H. by apply filled_text_length, shaped_filled. Qed.

(** ** Decoding *)

Lemma request_http_fits req : filled req -> request_fits (request_http req).
Proof.
  intros H. destruct (op_method_ok (cr_op req)) as (_ & _ & _ & Hm & _). destruct (fl_cert _ H) as [Hc _].
  destruct (request_kvs_bounds req H) as [HF Hb]. pose proof (kv_text_length _ _ HF).
  split; cbn [request_http rq_method rq_path rq_headers rq_body rq_body_len].
  - done.
  - by apply request_path_length.
  - unfold cert_headers. destruct (cr_cert_name req); [apply Forall_nil_2|]. apply Forall_singleton. cbn [h_key h_value].
    split; [repeat (apply Forall_cons_2; [discriminate|]); apply Forall_nil_2|]. split; [vm_compute; lia|].
    unfold BB_CERT_LEN, HTTTP_MAX_VALUE in *. lia.
  - rewrite keep_cert, length_app. assert (length (cert_headers (cr_cert_name req)) <= 1)%nat by (destruct (cr_cert_name req); simpl; lia).
    assert (forall n, length (length_header n) <= 1)%nat by (intros; unfold length_header; case_match; simpl; lia).
    specialize (H2 (length (kv_text (request_kvs req)))). unfold HTTTP_MAX_HEADERS. lia.
  - unfold body_fits. destruct (kv_text (request_kvs req)) as [|c t] eqn:E; [done|]. cbn [body_field default]. rewrite <-E in *.
    rewrite E, <-E. split; [done|]. unfold UINT32_MAX, CODEC_BODY_MAX in *. lia.
Qed.

Lemma cert_received cert n : (length cert < BB_CERT_LEN)%nat ->
  match htttp_header_get (cert_headers cert ++ length_header n) ($"Cert-Name") with
  | Some c => trunc BB_CERT_LEN c
  | None => []
  end = cert.
Proof.
  intros Hl. unfold cert_headers, length_header. destruct cert as [|c cert]; [by destruct (0 <? n)%nat|].
  change (htttp_header_get _ _) with (Some (c :: cert)). by apply trunc_id.
Qed.

(** The part of an id the peer reads out of a path. *)
Definition seen_id (req : bcl_request_t) : cstr := until_slash (cr_election_id req).

Lemma until_slash_app id suffix : suffix = [] \/ (exists t, suffix = "/"%char :: t) -> until_slash (id ++ suffix) = until_slash id.
Proof.
  intros Hsuf. induction id as [|c id IH]; cbn [app until_slash]; [by destruct Hsuf as [->|[t ->]]|]. case_match; [done|]. by rewrite IH.
Qed.

Lemma until_slash_id id : Rows.no_char "/" id -> until_slash id = id.
Proof.
  induction 1 as [|c id Hc _ IH]; cbn [until_slash]; [done|]. unfold ceqb. by rewrite bool_decide_eq_false_2, IH.
Qed.

Lemma until_slash_length id : (length (until_slash id) <= length id)%nat.
Proof. induction id as [|c id IH]; cbn [until_slash]; [done|]. case_match; simpl; lia. Qed.

Lemma path_id id suffix : (length id < BB_ID_LEN)%nat -> suffix = [] \/ (exists t, suffix = "/"%char :: t) ->
  path_election_id ($"/election/" ++ id ++ suffix) = match until_slash id with [] => None | i => Some i end.
Proof.
  intros Hl Hsuf. unfold path_election_id.
  change (Rows.starts_with ($"/election/") ($"/election/" ++ id ++ suffix)) with true.
  change (drop 10 ($"/election/" ++ id ++ suffix)) with (id ++ suffix). cbv iota.
  rewrite until_slash_app by done. pose proof (until_slash_length id). rewrite take_ge by lia. by destruct (until_slash id).
Qed.

Lemma request_path_id req : filled req -> has_id_path (cr_op req) = true ->
  path_election_id (request_path req) = match seen_id req with [] => None | i => Some i end.
Proof.
  intros H Ho. destruct (fl_id _ H) as [Hi _]. unfold request_path, seen_id.
  destruct (cr_op req); try discriminate Ho;
    solve [apply path_id; eauto | rewrite <-(app_nil_r (cr_election_id req)) at 1; apply path_id; eauto].
Qed.

Lemma decode_create req : filled req -> cr_op req = BCL_CREATE ->
  kv_fold create_kv (mkCreateCtx zero_config [] 0 0) (request_kvs req) =
  mkCreateCtx (mkConfig (cfg_title (cr_config req)) (cfg_options (wire_config (cr_config req))) 0
                 (cfg_eligible (wire_config (cr_config req))) 0 (cfg_open_time (cr_config req)) (cfg_close_time (cr_config req)))
    (cr_election_id req) (Z.to_nat (cfg_option_count (cr_config req))) (Z.to_nat (cfg_eligible_count (cr_config req))).
Proof.
  intros H Eop. unfold request_kvs. rewrite Eop.
  destruct (fl_config _ H Eop) as [[Ht _] [Ho _] [Hc _] (Hl1 & Hn1 & Hf1) (Hl2 & Hn2 & Hf2)]. destruct (fl_id _ H) as [Hi _].
  rewrite !kv_fold_app.
  assert (E : kv_fold create_kv (mkCreateCtx zero_config [] 0 0) (match cr_election_id req with [] => [] | id => [($"election_id", id)] end) =
              mkCreateCtx zero_config (cr_election_id req) 0 0).
  { destruct (cr_election_id req) eqn:E; [done|]. rewrite <-E in *. rewrite kv_fold_cons.
    change (create_kv ($"election_id") ?v ?c) with (mkCreateCtx (cc_cfg c) (trunc BB_ID_LEN v) (cc_opt_i c) (cc_elig_i c)).
    by rewrite trunc_id. }
  rewrite E. rewrite !kv_fold_cons. change (kv_fold create_kv ?c []) with c.
  change (create_kv ($"title") ?v (mkCreateCtx zero_config ?i 0 0)) with
    (mkCreateCtx (mkConfig (trunc BB_TITLE_LEN v) no_options 0 no_voters 0 [] []) i 0 0).
  change (create_kv ($"open_time") ?v (mkCreateCtx (mkConfig ?t ?os ?n ?es ?m ?x ?y) ?i ?a ?b)) with
    (mkCreateCtx (mkConfig t os n es m (trunc BB_TIME_LEN v) y) i a b).
  change (create_kv ($"close_time") ?v (mkCreateCtx (mkConfig ?t ?os ?n ?es ?m ?x ?y) ?i ?a ?b)) with
    (mkCreateCtx (mkConfig t os n es m x (trunc BB_TIME_LEN v)) i a b).
  rewrite !trunc_id by done.
  change 0%nat with (@length cstr []) at 1. rewrite (create_options _ _ _ _ _ _ _ _ _ []); [| | |by rewrite pad_nil].
  - change 0%nat with (@length cstr []) at 1. rewrite (create_eligible _ _ _ _ _ _ _ _ _ []); [| | |by rewrite pad_nil].
    + cbn [app]. by rewrite !entries_length by lia.
    + cbn [length]. rewrite entries_length by lia. lia.
    + eapply Forall_impl; [by apply held_entries|]. by intros ? [].
  - cbn [length]. rewrite entries_length by lia. lia.
  - eapply Forall_impl; [by apply held_entries|]. by intros ? [].
Qed.

Lemma ballot_kvs req : cr_op req = BCL_CAST \/ cr_op req = BCL_UPDATE ->
  request_kvs req = [($"nonce", bl_nonce (cr_ballot req)); ($"payload", hex_text (payload_bytes (cr_ballot req)))].
Proof. unfold request_kvs. by intros [-> | ->]. Qed.

(** A payload of up to 159 bytes is read back; the hex of a longer one is cut
    to 319 digits, an odd number, and does not decode. *)
Lemma decode_ballot req cert : filled req -> cr_op req = BCL_CAST \/ cr_op req = BCL_UPDATE ->
  let c := kv_fold ballot_kv (mkBallotCtx (mkBallot cert [] (bl_payload zero_ballot) 0) false) (map kv_cut (request_kvs req)) in
  if (bl_payload_len (cr_ballot req) <=? 159)%Z then
    c = mkBallotCtx (mkBallot cert (bl_nonce (cr_ballot req)) (pad BB_CIPHERTEXT_MAX NUL (payload_bytes (cr_ballot req)))
                       (bl_payload_len (cr_ballot req))) true
  else bc_got_payload c = false.
Proof.
  intros H Hop. destruct (fl_ballot _ H Hop) as ([Hn _] & Hl & Hp).
  assert (Hpl : length (payload_bytes (cr_ballot req)) = Z.to_nat (bl_payload_len (cr_ballot req)))
    by (unfold payload_bytes; rewrite entries_length; unfold BB_CIPHERTEXT_MAX in *; lia).
  pose proof (hex_text_length (payload_bytes (cr_ballot req))) as Hx.
  cbv zeta. rewrite (ballot_kvs req Hop). unfold kv_cut. cbn [map fst snd]. rewrite (take_ge (bl_nonce (cr_ballot req))) by (unfold BB_NONCE_LEN in Hn; lia).
  rewrite !kv_fold_cons. change (kv_fold ballot_kv ?c []) with c.
  change (ballot_kv ($"nonce") ?v (mkBallotCtx (mkBallot ?c [] ?p ?n) ?g)) with
    (mkBallotCtx (mkBallot c (trunc BB_NONCE_LEN v) p n) g). rewrite trunc_id by done.
  unfold ballot_kv. change (streq ($"payload") ($"nonce")) with false. change (streq ($"payload") ($"payload")) with true. cbv iota.
  destruct (Z.leb_spec (bl_payload_len (cr_ballot req)) 159).
  - rewrite take_ge by lia. rewrite hex_roundtrip by (unfold BB_CIPHERTEXT_MAX; lia).
    cbn [bc_ballot bl_cert_name bl_nonce bl_payload zero_ballot]. unfold pad. by rewrite drop_replicate, Hpl, Z2Nat.id by lia.
  - unfold hex_decode. rewrite length_take, Nat.min_l by lia. reflexivity.
Qed.

(** What the peer makes of a clean request. *)
Definition delivered (req : bcl_request_t) : option bcl_request_t :=
  let '(mkReq op cert id b hash g) := req in
  if has_id_path op then
    match seen_id req with
    | [] => None
    | id =>
      if bool_decide (op = BCL_CAST \/ op = BCL_UPDATE) && (159 <? bl_payload_len b)%Z then None
      else if bool_decide (op = BCL_CHECK \/ op = BCL_ADMIN_CHECK) && bool_decide (hash = []) then None
      else Some (wire_view (mkReq op cert id b hash g))
    end
  else Some (wire_view req).

Lemma delivered_shaped req : shaped req -> delivered req = Some (wire_view req).
Proof.
  intros [_ _ Hp _ Hb Hh]. destruct req as [op cert id b hash g]. cbn [cr_op cr_election_id cr_ballot cr_hash] in *. unfold delivered, seen_id.
  cbn [cr_election_id]. destruct (has_id_path op) eqn:Ho; [|done]. destruct (Hp eq_refl) as [Hne Hs]. rewrite until_slash_id by done.
  assert (E1 : bool_decide (op = BCL_CAST \/ op = BCL_UPDATE) && (159 <? bl_payload_len b)%Z = false).
  { case_bool_decide as E; [|done]. destruct (Hb E) as (_ & _ & ?). apply Z.ltb_ge. lia. }
  assert (E2 : bool_decide (op = BCL_CHECK \/ op = BCL_ADMIN_CHECK) && bool_decide (hash = []) = false).
  { destruct (decide (op = BCL_CHECK \/ op = BCL_ADMIN_CHECK)) as [E|E]; [|by rewrite bool_decide_eq_false_2].
    destruct (Hh E) as (_ & ?). by rewrite (bool_decide_eq_false_2 (hash = [])), andb_false_r. }
  rewrite E1, E2. by destruct id.
Qed.

(** The message a request becomes, decoded. *)
Lemma decode_request_http req hs : filled req -> clean req ->
  hs = cert_headers (cr_cert_name req) ++ length_header (length (kv_text (request_kvs req))) ->
  bcl_decode_request (mkRequest (op_method (cr_op req)) (request_path req) hs
    (body_view (body_field (kv_text (request_kvs req))) (length (kv_text (request_kvs req)))) (length (kv_text (request_kvs req)))) =
  delivered req.
Proof.
  intros H (HO & _) ->. destruct (request_kvs_bounds req H) as [HF _].
  assert (HK : Forall kv_wide (request_kvs req)) by (by eapply kv_wide_all).
  destruct (op_method_ok (cr_op req)) as (_ & Hop & _). unfold bcl_decode_request. cbn [rq_method rq_path rq_headers rq_body rq_body_len].
  rewrite Hop. cbn [mbind option_bind]. rewrite (cert_received _ _ (proj1 (fl_cert _ H))).
  pose proof (request_path_id req H) as Hpath. rewrite !(body_for_each_wide _ _ _ HK).
  assert (Hcreate : cr_op req = BCL_CREATE -> map kv_cut (request_kvs req) = request_kvs req).
  { intros Eop. apply kv_cut_ok. eapply kv_ok_all; [|exact HF|exact HO]. rewrite Eop. simpl. lia. }
  assert (Hhash : cr_op req = BCL_CHECK \/ cr_op req = BCL_ADMIN_CHECK ->
    kv_fold hash_kv [] (map kv_cut (request_kvs req)) = cr_hash req).
  { intros Eop. destruct (fl_hash _ H Eop) as [Hh _]. unfold BB_HASH_LEN in Hh.
    assert (E : request_kvs req = [($"hash", cr_hash req)]) by (unfold request_kvs; by destruct Eop as [-> | ->]).
    rewrite E. unfold kv_cut. cbn [map fst snd]. rewrite take_ge by lia.
    change (kv_fold hash_kv [] [($"hash", cr_hash req)]) with (trunc BB_HASH_LEN (cr_hash req)). by apply trunc_id. }
  assert (Hcert : trunc BB_CERT_LEN (cr_cert_name req) = cr_cert_name req) by apply trunc_id, (fl_cert _ H).
  pose proof (decode_ballot req (cr_cert_name req) H) as Hballot.
  destruct (cr_op req) eqn:Eop.
  6: { rewrite Hcreate, decode_create by done. destruct (fl_config _ H Eop) as [_ _ _ (_ & Hn1 & _) (_ & Hn2 & _)].
       destruct req as [op cert id b hash g]. cbn in Eop |- *. subst op. cbn in *. by rewrite !Z2Nat.id by lia. }
  11: by destruct req; cbn in Eop |- *; subst.
  all: rewrite Hpath by done; destruct req as [op cert id b hash g]; cbn [cr_op] in Eop; subst op; unfold delivered;
    cbn [has_id_path]; destruct (seen_id _) as [|i0 i] eqn:Ei; try reflexivity; cbn [mbind option_bind].
  all: try (rewrite (Hhash ltac:(auto)); by destruct hash).
  all: rewrite Hcert; specialize (Hballot ltac:(auto)); cbv zeta in Hballot; cbn [cr_ballot] in Hballot;
    rewrite Z.ltb_antisym; destruct (_ <=? 159)%Z; rewrite Hballot; reflexivity.
Qed.

(** The receiving end of a clean request. *)
Lemma filled_arrives req : filled req -> clean req -> exists http,
  htttp_parse_request (request_text (request_http req)) = HOk http /\ bcl_decode_request http = delivered req.
Proof.
  intros H Hc. pose proof Hc as (HO & Hp & Hv). destruct (op_method_ok (cr_op req)) as (_ & _ & Hmne & _ & Hmv).
  eexists. split.
  - apply parse_request_text; [by apply request_http_fits|done|apply request_path_nonempty|done|done|].
    cbn [request_http rq_headers]. rewrite keep_cert. by apply cert_headers_valid.
  - cbn [request_http rq_method rq_path rq_headers rq_body rq_body_len]. apply decode_request_http; [done|done|]. by rewrite keep_cert.
Qed.

Lemma request_arrives req : shaped req -> clean req -> exists http,
  htttp_parse_request (request_text (request_http req)) = HOk http /\ bcl_decode_request http = Some (wire_view req).
Proof. intros H Hc. rewrite <-(delivered_shaped req H). by apply filled_arrives, Hc; apply shaped_filled. Qed.

(** C30: what the peer makes of every request the C types can hold.  A value
    with a line break, or an id or name that is not printable, is refused by
    the encoder.  Every other request is encoded (in any of the sources'
    buffers), parsed, and decoded to exactly the fields of its operation, with
    these exceptions: the peer refuses an election id that is empty or starts
    with a slash, reads one with a slash up to it, and refuses a ballot with a
    payload over 159 bytes (BB_CIPHERTEXT_MAX is 256) and a check without a
    hash.  No title, option, voter name, nonce or hash can add a line, a field
    or a header. *)
Theorem request_delivered req cap : filled req -> (MESSAGE_MAX <= cap)%nat ->
  (clean req -> exists out http, bcl_encode_request req cap = Some out /\ htttp_parse_request out = HOk http /\
                  bcl_decode_request http = delivered req) /\
  (~ clean req -> bcl_encode_request req cap = None).
Proof.
  intros H Hcap. destruct (encode_filled req cap H Hcap) as [He Hn]. split; [|done]. intros Hc.
  destruct (filled_arrives req H Hc) as (http & Hp & Hd). exists (request_text (request_http req)), http. auto.
Qed.

(** Ann's ballot for option 1 of E-100. *)
Definition sample_cast : bcl_request_t :=
  mkReq BCL_CAST ($"ann") ($"E-100") (mkBallot ($"ann") ($"n1") (pad BB_CIPHERTEXT_MAX NUL ["001"%char]) 1) [] zero_config.

Ltac closed_chars := repeat (apply Forall_cons_2; [discriminate|]); apply Forall_nil_2.
Ltac closed_held := split; [vm_compute; lia|closed_chars].

Lemma sample_cast_shaped : shaped sample_cast.
Proof.
  split; try (intros; discriminate).
  - closed_held.
  - closed_held.
  - intros _. split; [discriminate|closed_chars].
  - intros _. split; [closed_held|]. split; [reflexivity|vm_compute; split; discriminate].
  - intros [? | ?]; discriminate.
Qed.

Lemma sample_cast_clean : clean sample_cast.
Proof.
  split; [|split; reflexivity].
  repeat (apply Forall_cons_2; [repeat (apply Forall_cons_2; [split; discriminate|]); apply Forall_nil_2|]). apply Forall_nil_2.
Qed.

Lemma request_delivered_witness : exists out http, bcl_encode_request sample_cast MESSAGE_MAX = Some out /\
  htttp_parse_request out = HOk http /\ bcl_decode_request http = Some (wire_view sample_cast).
Proof.
  destruct (proj1 (request_delivered sample_cast MESSAGE_MAX (shaped_filled _ sample_cast_shaped) (le_n _)) sample_cast_clean)
    as (out & http & H1 & H2 & H3). exists out, http. split; [exact H1|]. split; [exact H2|]. rewrite H3. vm_compute. reflexivity.
Defined.

(** What the peer makes of a request: [None] if nothing was sent or it did
    not parse, [Some None] if the peer refuses it. *)
Definition received (req : bcl_request_t) : option (option bcl_request_t) :=
  out ← bcl_encode_request req MESSAGE_MAX;
  match htttp_parse_request out with HOk http => Some (bcl_decode_request http) | HErr _ => None end.

Definition cast_of (n : nat) : bcl_request_t :=
  mkReq BCL_CAST ($"ann") ($"E-100") (mkBallot ($"ann") ($"n1") (replicate BB_CIPHERTEXT_MAX "x"%char) (Z.of_nat n)) [] zero_config.

(** A ballot whose payload is longer than 159 bytes never arrives,
    although [BB_CIPHERTEXT_MAX] allows 256 and the encoder sends it: its hex
    overruns the reader's 320-byte value buffer, is cut to an odd length and
    does not decode, so the daemon answers 400. *)
Lemma long_payload_never_arrives n : (160 <= n <= BB_CIPHERTEXT_MAX)%nat -> received (cast_of n) = Some None.
Proof.
  intros Hn. assert (Hin : n ∈ seq 160 97) by (apply elem_of_seq; unfold BB_CIPHERTEXT_MAX in *; lia).
  assert (Hall : forallb (fun n => match received (cast_of n) with Some None => true | _ => false end) (seq 160 97) = true)
    by (vm_compute; reflexivity).
  rewrite forallb_forall in Hall. apply list_elem_of_In, Hall in Hin. by repeat case_match.
Qed.

End Delivery.
