(* ===== verification/Answers.v ===== *)
(** * Responses across the wire

    The daemon's answer, encoded by it and decoded by the client, is the
    answer; whatever bytes a peer sends, the decoded struct stays within its
    arrays. *)
From S2P Require Import Prelude CText Types Rows Htttp Codec CodecLogic Delivery.

Module Answers.
Import Htttp Codec CodecLogic Delivery.

(** ** Numbers as text *)

Definition int_range (z : Z) : Prop := (- 2 ^ 31 <= z <= INT_MAX)%Z.

Lemma dec_digits_short k fuel z : (0 <= z < 10 ^ Z.of_nat (S k))%Z -> (length (dec_digits fuel z []) <= S k)%nat.
Proof.
  revert k z. induction fuel as [|f IH]; intros k z Hz; simpl; [lia|]. destruct (Z.ltb_spec z 10); [simpl; lia|].
  rewrite dec_digits_app, length_app. simpl. destruct k as [|k]; [simpl in Hz; lia|].
  assert (Hq : (0 <= z / 10 < 10 ^ Z.of_nat (S k))%Z).
  { split; [apply Z.div_pos; lia|]. apply Z.div_lt_upper_bound; [lia|]. rewrite <-Z.pow_succ_r by lia.
    replace (Z.succ (Z.of_nat (S k))) with (Z.of_nat (S (S k))) by lia. lia. }
  specialize (IH k (z / 10)%Z Hq). lia.
Qed.

Lemma print_int_short z : int_range z -> (length (print_int z) <= 11)%nat.
Proof.
  unfold int_range, INT_MAX, print_int, print_uint. intros Hz. case_match; cbn [length].
  - pose proof (dec_digits_short 9 20 (- z)). lia.
  - pose proof (dec_digits_short 9 20 z). lia.
Qed.

Lemma int_char_not_special c : int_char c = true -> c <> NUL /\ c <> CR /\ c <> LF /\ c <> ","%char /\ c <> EQ.
Proof. intros H. repeat split; intros ->; discriminate H. Qed.

Lemma print_int_no z c : int_char c = false -> Rows.no_char c (print_int z).
Proof. intros Hc. eapply Forall_impl; [apply print_int_chars|]. intros x Hx ->. by rewrite Hx in Hc. Qed.

Lemma print_int_oneline z : oneline (print_int z).
Proof. eapply Forall_impl; [apply print_int_chars|]. intros x Hx%int_char_not_special. tauto. Qed.

Lemma atoi_print_app z rest : int_range z -> not_digit_head rest -> atoi (print_int z ++ rest) = z.
Proof.
  unfold int_range, INT_MAX. intros Hz Hr. unfold atoi. rewrite strtol_print_int; [|unfold LONG_MIN, LONG_MAX; lia|done].
  simpl. apply i32_id. unfold INT_MAX. lia.
Qed.

Lemma scan_d_print z rest : int_range z -> not_digit_head rest -> scan_d (print_int z ++ rest) = Some (z, rest).
Proof.
  unfold int_range, INT_MAX. intros Hz Hr. unfold scan_d. rewrite strtol_print_int; [|unfold LONG_MIN, LONG_MAX; lia|done].
  rewrite length_app. pose proof (print_int_nonempty z). destruct (print_int z) as [|c s]; [done|]. cbn [length].
  rewrite (proj2 (Nat.eqb_neq _ _)) by lia. rewrite i32_id; [done|]. unfold INT_MAX. lia.
Qed.

(** ** The tally *)

Definition csv_tail (l : list Z) : cstr := concat (map (fun z => ","%char :: print_int z) l).

Lemma csv_text z l : concat (csv (z :: l)) = print_int z ++ csv_tail l.
Proof.
  unfold csv. cbn [imap concat app]. f_equal. unfold csv_tail. f_equal.
  induction l as [|y l IH] using rev_ind; [done|].
  rewrite imap_app, map_app, IH. done.
Qed.

Lemma read_csv_text slots pre z l : (length pre + S (length l) <= BB_MAX_OPTIONS)%nat -> (S (length l) <= slots)%nat ->
  Forall int_range (z :: l) ->
  read_csv slots (length pre) (print_int z ++ csv_tail l) (pad BB_MAX_OPTIONS 0%Z pre) = pad BB_MAX_OPTIONS 0%Z (pre ++ z :: l).
Proof.
  revert slots pre z. induction l as [|y l IH]; intros slots pre z Hl Hs [Hz HF]%Forall_cons;
    (destruct slots as [|slots]; [lia|]); cbn [length] in *.
  - unfold csv_tail. cbn [map concat]. cbn [read_csv]. rewrite atoi_print_app by done. rewrite insert_pad by lia.
    assert (Hn : split_at "," (print_int z ++ []) = None).
    { rewrite app_nil_r. pose proof (print_int_no z "," eq_refl) as Hn. clear -Hn.
      induction Hn as [|c s Hc _ IH]; [done|]. cbn [split_at]. unfold ceqb. by rewrite bool_decide_eq_false_2, IH. }
    rewrite Hn. pose proof (print_int_nonempty z). by destruct (print_int z).
  - unfold csv_tail. cbn [map concat app]. fold (csv_tail l).
    cbn [read_csv]. rewrite split_at_app by (by apply print_int_no).
    rewrite atoi_print_app by done. rewrite insert_pad by lia.
    replace (S (length pre)) with (length (pre ++ [z])) by (rewrite length_app; simpl; lia).
    rewrite IH; [|rewrite length_app; simpl; lia|lia|done]. rewrite <-app_assoc.
    pose proof (print_int_nonempty z). by destruct (print_int z).
Qed.

(** ** Hash rows *)

Record row_ok (h : bb_ballot_hash_t) : Prop := {
  ro_hash : held BB_HASH_LEN (bh_hash h) /\ bh_hash h <> [] /\ Rows.no_char "," (bh_hash h);
  ro_ints : int_range (bh_option_index h) /\ int_range (bh_version h) /\ int_range (bh_superseded h) }.

Lemma until_comma_app s rest : Rows.no_char "," s -> until_comma (s ++ ","%char :: rest) = s.
Proof. induction 1 as [|c s Hc _ IH]; [done|]. cbn [app until_comma]. unfold ceqb. by rewrite bool_decide_eq_false_2, IH. Qed.

Lemma scan_row_text h : row_ok h -> scan_row (row_text h) = Some h.
Proof.
  intros [([Hl _] & Hne & Hc) (H1 & H2 & H3)]. unfold scan_row, row_text. rewrite until_comma_app by done.
  unfold BB_HASH_LEN in *. rewrite take_ge, drop_app_length by lia. destruct (bh_hash h) as [|c s] eqn:E; [done|]. rewrite <-E in *.
  cbn [scan_comma]. change (ceqb "," ",") with true. cbv iota. cbn [mbind option_bind].
  rewrite scan_d_print by done. cbn [mbind option_bind scan_comma]. change (ceqb "," ",") with true. cbv iota. cbn [mbind option_bind].
  rewrite scan_d_print by done. cbn [mbind option_bind scan_comma]. change (ceqb "," ",") with true. cbv iota. cbn [mbind option_bind].
  rewrite <-(app_nil_r (print_int (bh_superseded h))), scan_d_print by done. cbn [mbind option_bind].
  rewrite trunc_id by done. by destruct h.
Qed.

(** ** What a response sends *)

Definition response_kvs (op : bcl_op_t) (resp : bcl_response_t) : list (cstr * cstr) :=
  let e := cp_election resp in
  match op with
  | BCL_CREATE | BCL_ADMIN_NEXT_ID => match el_id e with [] => [] | id => [($"election_id", id)] end
  | BCL_OPEN | BCL_CLOSE | BCL_PUBLISH => []
  | BCL_JOIN =>
    match el_id e with
    | [] => []
    | id =>
      [($"election_id", id); ($"title", el_title e); ($"state", bb_state_str (el_state e)); ($"open_time", el_open_time e);
       ($"close_time", el_close_time e); ($"has_prior_ballot", print_int (cp_has_prior_ballot resp));
       ($"prior_ballot_version", print_int (cp_prior_ballot_version resp))] ++
      map (pair ($"option")) (entries (el_option_count e) (el_options e))
    end
  | BCL_CAST | BCL_UPDATE =>
    match rc_hash (cp_receipt resp) with
    | [] => []
    | hash => [($"hash", hash); ($"issued_at", rc_issued_at (cp_receipt resp))]
    end
  | BCL_RESULTS | BCL_ADMIN_RESULTS =>
    [($"election_id", el_id e); ($"title", el_title e); ($"tally_count", print_int (cp_option_count resp))] ++
    (if (0 <? cp_option_count resp)%Z then
       ($"tally", concat (csv (entries (cp_option_count resp) (cp_tally resp)))) ::
       map (pair ($"result_option")) (entries (cp_option_count resp) (cp_options resp))
     else []) ++
    [($"hash_count", print_int (cp_hash_count resp))] ++
    map (fun h => ($"row", row_text h)) (entries (cp_hash_count resp) (cp_hashes resp))
  | BCL_CHECK | BCL_ADMIN_CHECK =>
    ($"found", print_int (cp_found resp)) ::
    (if (cp_found resp =? 0)%Z then []
     else [($"found_option", print_int (cp_found_option resp)); ($"found_option_name", cp_found_option_name resp)])
  end.

(** A filled-in response: strings in their arrays, counts within them, rows
    as [bb_issue_receipt] writes them. *)
Record resp_shaped (resp : bcl_response_t) : Prop := {
  rp_id : held BB_ID_LEN (el_id (cp_election resp));
  rp_title : held BB_TITLE_LEN (el_title (cp_election resp));
  rp_times : held BB_TIME_LEN (el_open_time (cp_election resp)) /\ held BB_TIME_LEN (el_close_time (cp_election resp));
  rp_el_options : length (el_options (cp_election resp)) = BB_MAX_OPTIONS /\
    (0 <= el_option_count (cp_election resp) <= Z.of_nat BB_MAX_OPTIONS)%Z /\
    Forall (held BB_OPTION_LEN) (el_options (cp_election resp));
  rp_prior : int_range (cp_has_prior_ballot resp) /\ int_range (cp_prior_ballot_version resp);
  rp_receipt : held BB_HASH_LEN (rc_hash (cp_receipt resp)) /\ held BB_TIME_LEN (rc_issued_at (cp_receipt resp));
  rp_tally : length (cp_tally resp) = BB_MAX_OPTIONS /\ Forall int_range (cp_tally resp);
  rp_options : length (cp_options resp) = BB_MAX_OPTIONS /\ (0 <= cp_option_count resp <= Z.of_nat BB_MAX_OPTIONS)%Z /\
    Forall (held BB_OPTION_LEN) (cp_options resp);
  rp_hashes : length (cp_hashes resp) = BB_MAX_VOTERS /\ (0 <= cp_hash_count resp <= Z.of_nat BB_MAX_VOTERS)%Z /\
    Forall row_ok (entries (cp_hash_count resp) (cp_hashes resp));
  rp_found : int_range (cp_found resp) /\ int_range (cp_found_option resp) /\ held BB_OPTION_LEN (cp_found_option_name resp) }.

(** The response as the client's struct holds it. *)
Definition base_resp (st : bb_result_t) : bcl_response_t := set_status st zero_resp.

Definition answer_view (op : bcl_op_t) (resp : bcl_response_t) : bcl_response_t :=
  let base := base_resp (cp_status resp) in
  let e := cp_election resp in
  match op with
  | BCL_CREATE | BCL_ADMIN_NEXT_ID => set_election (set_el_id (el_id e) zero_election) base
  | BCL_OPEN | BCL_CLOSE | BCL_PUBLISH => base
  | BCL_JOIN =>
    match el_id e with
    | [] => base
    | id =>
      set_election (mkElection id (el_title e) (el_state e) (pad BB_MAX_OPTIONS [] (entries (el_option_count e) (el_options e)))
                      (el_option_count e) no_voters 0 (el_open_time e) (el_close_time e) zero_tally)
        (set_has_prior (cp_has_prior_ballot resp) (set_prior_version (cp_prior_ballot_version resp) base))
    end
  | BCL_CAST | BCL_UPDATE =>
    match rc_hash (cp_receipt resp) with [] => base | _ => set_receipt (cp_receipt resp) base end
  | BCL_RESULTS | BCL_ADMIN_RESULTS =>
    set_election (set_el_id (el_id e) (set_el_title (el_title e) zero_election))
      (set_tally (pad BB_MAX_OPTIONS 0%Z (entries (cp_option_count resp) (cp_tally resp)))
      (set_options (pad BB_MAX_OPTIONS [] (entries (cp_option_count resp) (cp_options resp)))
      (set_option_count (cp_option_count resp)
      (set_hashes (pad BB_MAX_VOTERS zero_row (entries (cp_hash_count resp) (cp_hashes resp)))
      (set_hash_count (cp_hash_count resp) base)))))
  | BCL_CHECK | BCL_ADMIN_CHECK =>
    if (cp_found resp =? 0)%Z then base
    else set_found (cp_found resp) (set_found_option (cp_found_option resp) (set_found_name (cp_found_option_name resp) base))
  end.

(** ** Encoding *)

Lemma kv_text_app l k : kv_text (l ++ k) = kv_text l ++ kv_text k.
Proof. unfold kv_text. by rewrite map_app, concat_app. Qed.

Lemma concat_lines k vs : concat (map (line k) vs) = kv_text (map (pair k) vs).
Proof. unfold kv_text. by rewrite map_map. Qed.

Lemma tally_text c vs :
  concat ([$"tally="] ++ c ++ [[LF]] ++ map (line ($"result_option")) vs) =
  kv_text (($"tally", concat c) :: map (pair ($"result_option")) vs).
Proof.
  rewrite !concat_app, concat_lines. unfold kv_text at 2. cbn [map concat]. fold (kv_text (map (pair ($"result_option")) vs)).
  unfold line. rewrite !app_nil_r, <-!app_assoc. cbn [app]. by rewrite <-app_assoc.
Qed.

Lemma response_text_kvs op resp : concat (response_texts op resp) = kv_text (response_kvs op resp).
Proof.
  unfold response_texts, response_kvs. destruct op; try done.
  - destruct (el_id (cp_election resp)); [done|]. by rewrite concat_app, kv_text_app, concat_lines.
  - by destruct (rc_hash (cp_receipt resp)).
  - by destruct (rc_hash (cp_receipt resp)).
  - rewrite !concat_app, !kv_text_app. do 2 f_equal; [|f_equal; unfold kv_text; by rewrite map_map].
    destruct (0 <? cp_option_count resp)%Z; [|done]. apply tally_text.
  - by destruct (cp_found resp =? 0)%Z.
  - by destruct (el_id (cp_election resp)).
  - rewrite !concat_app, !kv_text_app. do 2 f_equal; [|f_equal; unfold kv_text; by rewrite map_map].
    destruct (0 <? cp_option_count resp)%Z; [|done]. apply tally_text.
  - by destruct (cp_found resp =? 0)%Z.
  - by destruct (el_id (cp_election resp)).
Qed.

(** Values are one line each. *)
Definition answer_clean (op : bcl_op_t) (resp : bcl_response_t) : Prop :=
  Forall (fun kv => oneline kv.2) (response_kvs op resp).

Definition unbroken (texts : list cstr) : Prop := Forall (fun t => breaks_line t = false) texts.

Lemma unbroken_lines k vs : key_ok k = true -> unbroken (map (line k) vs) <-> Forall (fun kv => oneline kv.2) (map (pair k) vs).
Proof.
  intros Hk%key_ok_oneline. unfold unbroken. rewrite !Forall_fmap. apply Forall_proper; [|done]. intros v. simpl.
  rewrite breaks_line_line. tauto.
Qed.

Lemma unbroken_line k v ts kvs : key_ok k = true -> (unbroken ts <-> Forall (fun kv => oneline kv.2) kvs) ->
  unbroken (line k v :: ts) <-> Forall (fun kv => oneline kv.2) ((k, v) :: kvs).
Proof. intros Hk%key_ok_oneline IH. unfold unbroken in *. rewrite !Forall_cons, breaks_line_line, IH. simpl. tauto. Qed.

Lemma unbroken_nil : unbroken [] <-> Forall (fun kv : cstr * cstr => oneline kv.2) [].
Proof. split; intros; apply Forall_nil_2. Qed.

Lemma unbroken_app ts us k l : (unbroken ts <-> Forall (fun kv : cstr * cstr => oneline kv.2) k) ->
  (unbroken us <-> Forall (fun kv => oneline kv.2) l) -> unbroken (ts ++ us) <-> Forall (fun kv => oneline kv.2) (k ++ l).
Proof. unfold unbroken. intros H1 H2. by rewrite !Forall_app, H1, H2. Qed.

Lemma csv_piece i z : oneline ((match i with O => [] | S _ => [","%char] end) ++ print_int z).
Proof. apply oneline_app. split; [destruct i; [apply Forall_nil_2|by apply Forall_singleton]|apply print_int_oneline]. Qed.

Lemma csv_oneline l : Forall oneline (csv l).
Proof.
  unfold csv. apply Forall_forall. intros x (i & z & -> & _)%elem_of_lookup_imap_1. apply csv_piece.
Qed.

Lemma unbroken_tally l : unbroken ([$"tally="] ++ csv l ++ [[LF]]) <-> Forall (fun kv => oneline kv.2) [($"tally", concat (csv l))].
Proof.
  pose proof (csv_oneline l) as Hc. split; intros _.
  - apply Forall_singleton. simpl. induction Hc; [apply Forall_nil_2|]. by apply oneline_app.
  - apply Forall_cons_2; [done|]. apply Forall_app; split; [|by apply Forall_singleton].
    eapply Forall_impl; [exact Hc|]. apply breaks_line_plain.
Qed.

Lemma unbroken_results resp :
  unbroken (response_texts BCL_RESULTS resp) <-> answer_clean BCL_RESULTS resp.
Proof.
  unfold answer_clean, response_texts, response_kvs. repeat first [apply unbroken_app | apply unbroken_line; [done|] | apply unbroken_nil].
  - destruct (0 <? cp_option_count resp)%Z; [|apply unbroken_nil].
    rewrite (app_assoc _ [[LF]]), (app_assoc [_] (_ ++ _)).
    match goal with |- _ <-> Forall _ (?x :: ?l) => change (x :: l) with ([x] ++ l) end.
    apply unbroken_app; [apply unbroken_tally|by apply unbroken_lines].
  - rewrite <-(map_map row_text (line ($"row"))), <-(map_map row_text (pair ($"row"))). by apply unbroken_lines.
Qed.

Lemma unbroken_response op resp : unbroken (response_texts op resp) <-> answer_clean op resp.
Proof.
  destruct op; try apply unbroken_results; unfold answer_clean, response_texts, response_kvs; try case_match;
    repeat first [apply unbroken_app | apply unbroken_line; [done|] | apply unbroken_nil | by apply unbroken_lines | case_match].
Qed.

(** ** Sizes *)

Lemma kv_text_one k v : length (kv_text [(k, v)]) = (length k + length v + 2)%nat.
Proof. unfold kv_text. cbn [map concat]. unfold line. rewrite app_nil_r, length_app. cbn [length]. rewrite length_app. simpl. lia. Qed.

Lemma kv_text_cons k v kvs : length (kv_text ((k, v) :: kvs)) = (length k + length v + 2 + length (kv_text kvs))%nat.
Proof. change ((k, v) :: kvs) with ([(k, v)] ++ kvs). by rewrite kv_text_app, length_app, kv_text_one. Qed.

Lemma kv_text_group k n vs : Forall (fun v => length v <= n)%nat vs ->
  (length (kv_text (map (pair k) vs)) <= (length k + 2 + n) * length vs)%nat.
Proof. induction 1 as [|v vs Hv _ IH]; cbn [map]; [simpl; lia|]. rewrite kv_text_cons. cbn [length]. lia. Qed.

Lemma csv_length l : Forall int_range l -> (length (concat (csv l)) <= 12 * length l)%nat.
Proof.
  destruct l as [|z l]; [simpl; lia|]. rewrite csv_text, length_app. intros [Hz HF]%Forall_cons.
  apply print_int_short in Hz. assert (Ht : (length (csv_tail l) <= 12 * length l)%nat); [|simpl; lia].
  unfold csv_tail. induction HF as [|y l Hy _ IH]; [simpl; lia|]. cbn [map concat]. rewrite length_app.
  apply print_int_short in Hy. simpl in *. lia.
Qed.

Lemma row_text_length h : row_ok h -> (length (row_text h) <= 100)%nat.
Proof.
  intros [([Hl _] & _) (H1 & H2 & H3)]. apply print_int_short in H1, H2, H3. unfold row_text, BB_HASH_LEN in *.
  repeat (rewrite length_app; cbn [length]). lia.
Qed.

Lemma int_val z n : int_range z -> (11 <= n)%nat -> val_ok n (print_int z).
Proof. intros Hz Hn. apply print_int_short in Hz. split; [lia|by apply print_int_no]. Qed.

Lemma no_NUL_csv l : Rows.no_char NUL (concat (csv l)).
Proof.
  destruct l as [|z l]; [apply Forall_nil_2|]. rewrite csv_text. apply Rows.no_char_app; split; [by apply print_int_no|].
  unfold csv_tail. induction l as [|y l IH]; [apply Forall_nil_2|]. cbn [map concat]. apply Rows.no_char_app; split; [|done].
  apply Forall_cons_2; [done|by apply print_int_no].
Qed.

Lemma row_val h : row_ok h -> val_ok 319 (row_text h).
Proof.
  intros Hr. pose proof (row_text_length h Hr). split; [lia|]. destruct Hr as [([_ Hn] & _) _]. unfold row_text.
  apply Rows.no_char_app; split; [done|]. apply Forall_cons_2; [done|]. apply Rows.no_char_app; split; [by apply print_int_no|].
  apply Forall_cons_2; [done|]. apply Rows.no_char_app; split; [by apply print_int_no|]. apply Forall_cons_2; [done|by apply print_int_no].
Qed.

Lemma state_val st : val_ok 319 (bb_state_str st).
Proof. split; [destruct st; simpl; lia|destruct st; closed_chars]. Qed.

(** Close the goals "this key and value are in bounds". *)
Ltac vals :=
  repeat match goal with
  | |- Forall _ [] => apply Forall_nil_2
  | |- Forall _ (_ ++ _) => apply Forall_app; split
  | |- Forall _ (_ :: _) => apply Forall_cons_2; [split; [done|cbn [snd]]|]
  | |- val_ok _ (print_int _) => apply int_val; [tauto|lia]
  | |- val_ok _ (bb_state_str _) => apply state_val
  | |- val_ok _ _ => eapply held_val; [eassumption|vm_compute; lia]
  end.

Lemma response_vals op resp : resp_shaped resp ->
  Forall (fun kv => key_ok kv.1 = true /\ val_ok 319 kv.2) (response_kvs op resp).
Proof.
  intros [Hid Ht [Ho Hc] (Hel & Hen & Hef) Hp [Hr1 Hr2] [Htl Htf] (Hol & Hon & Hof) (Hhl & Hhn & Hhf) (Hf1 & Hf2 & Hf3)].
  assert (Hres : Forall (fun kv => key_ok kv.1 = true /\ val_ok 319 kv.2) (response_kvs BCL_RESULTS resp)).
  { unfold response_kvs. assert (int_range (cp_option_count resp)) by (unfold int_range, INT_MAX, BB_MAX_OPTIONS in *; lia).
    assert (int_range (cp_hash_count resp)) by (unfold int_range, INT_MAX, BB_MAX_VOTERS in *; lia).
    vals.
    - destruct (0 <? cp_option_count resp)%Z; [|apply Forall_nil_2]. apply Forall_cons_2.
      + split; [done|]. split; [|apply no_NUL_csv]. etrans; [apply csv_length, Forall_take; done|].
        change (take ?n ?l) with (entries n l). rewrite entries_length by lia. unfold BB_MAX_OPTIONS in *. simpl. lia.
      + eapply held_vals; [done|by apply held_entries|vm_compute; lia].
    - apply Forall_fmap. eapply Forall_impl; [exact Hhf|]. intros h Hh. split; [done|by apply row_val]. }
  destruct op; try exact Hres; unfold response_kvs; try (destruct (el_id (cp_election resp)) eqn:E; [apply Forall_nil_2|rewrite <-E in *]);
    try (destruct (rc_hash (cp_receipt resp)) eqn:E; [apply Forall_nil_2|rewrite <-E in *]); vals;
    try (eapply held_vals; [done|by apply held_entries|vm_compute; lia]).
  all: destruct (cp_found resp =? 0)%Z; vals.
Qed.

(** Room for the longest response behind its status line; the 64 rows of a
    full RESULTS answer take 6720 of it. *)
Definition ROOM : nat := Z.to_nat 8000.

Lemma held_group k n (c : Z) (l : list cstr) : Forall (held (S n)) l -> (0 <= c <= Z.of_nat (length l))%Z ->
  (length (kv_text (map (pair k) (entries c l))) <= (length k + 2 + n) * Z.to_nat c)%nat.
Proof.
  intros HF Hc. rewrite <-(entries_length c l Hc). apply kv_text_group.
  eapply Forall_impl; [by apply held_entries|]. intros v [Hv _]. simpl in *. lia.
Qed.

Lemma results_size resp : resp_shaped resp -> (length (kv_text (response_kvs BCL_RESULTS resp)) <= ROOM)%nat.
Proof.
  intros [[Hid _] [Ht _] _ _ _ _ [Htl Htf] (Hol & Hon & Hof) (Hhl & Hhn & Hhf) _]. unfold response_kvs.
  assert (int_range (cp_option_count resp)) as Hi1%print_int_short by (unfold int_range, INT_MAX, BB_MAX_OPTIONS in *; lia).
  assert (int_range (cp_hash_count resp)) as Hi2%print_int_short by (unfold int_range, INT_MAX, BB_MAX_VOTERS in *; lia).
  assert (Htally : (length (kv_text (if (0 <? cp_option_count resp)%Z then
       ($"tally", concat (csv (entries (cp_option_count resp) (cp_tally resp)))) ::
       map (pair ($"result_option")) (entries (cp_option_count resp) (cp_options resp)) else [])) <= 935)%nat).
  { destruct (0 <? cp_option_count resp)%Z; [|simpl; lia]. rewrite kv_text_cons.
    pose proof (csv_length (entries (cp_option_count resp) (cp_tally resp)) ltac:(by apply Forall_take)) as Hc.
    pose proof (held_group ($"result_option") 31 (cp_option_count resp) _ Hof ltac:(lia)) as Hg.
    rewrite entries_length in Hc by lia. unfold BB_MAX_OPTIONS in *. simpl length in *. lia. }
  assert (Hrows : (length (kv_text (map (fun h => ($"row", row_text h)) (entries (cp_hash_count resp) (cp_hashes resp)))) <= 105 * 64)%nat).
  { rewrite <-(map_map row_text (pair ($"row"))).
    assert (Hf : Forall (fun v => length v <= 100)%nat (map row_text (entries (cp_hash_count resp) (cp_hashes resp)))).
    { apply Forall_fmap. eapply Forall_impl; [exact Hhf|]. apply row_text_length. }
    apply (kv_text_group ($"row")) in Hf. rewrite length_map, entries_length in Hf by lia. etrans; [exact Hf|].
    change (length ($"row")) with 3%nat. unfold BB_MAX_VOTERS in *. lia. }
  rewrite !kv_text_app, !length_app, !kv_text_cons. change (kv_text []) with (@nil ascii).
  unfold BB_ID_LEN, BB_TITLE_LEN, ROOM in *. simpl length in *. lia.
Qed.

Lemma response_size op resp : resp_shaped resp -> (length (kv_text (response_kvs op resp)) <= ROOM)%nat.
Proof.
  intros H. destruct op; try exact (results_size resp H);
    destruct H as [[Hid _] [Ht _] [[Ho _] [Hc _]] (Hel & Hen & Hef) [Hp1 Hp2] [[Hr1 _] [Hr2 _]] _ _ _ (Hf1 & Hf2 & [Hf3 _])];
    apply print_int_short in Hp1, Hp2, Hf1, Hf2; unfold response_kvs, ROOM;
    unfold BB_ID_LEN, BB_TITLE_LEN, BB_TIME_LEN, BB_HASH_LEN, BB_OPTION_LEN, BB_MAX_OPTIONS in *; try (simpl; lia).
  - destruct (el_id (cp_election resp)) eqn:E; [simpl; lia|]. rewrite <-E in *. rewrite kv_text_app, length_app, !kv_text_cons.
    pose proof (held_group ($"option") 31 (el_option_count (cp_election resp)) _ Hef ltac:(lia)) as Hg.
    assert (length (bb_state_str (el_state (cp_election resp))) <= 9)%nat by (destruct (el_state _); simpl; lia).
    simpl length in *. lia.
  - destruct (rc_hash (cp_receipt resp)) eqn:E; [simpl; lia|]. rewrite <-E in *. rewrite !kv_text_cons. change (kv_text []) with (@nil ascii). simpl length in *. lia.
  - destruct (rc_hash (cp_receipt resp)) eqn:E; [simpl; lia|]. rewrite <-E in *. rewrite !kv_text_cons. change (kv_text []) with (@nil ascii). simpl length in *. lia.
  - rewrite kv_text_cons. destruct (cp_found resp =? 0)%Z; rewrite ?kv_text_cons; change (kv_text []) with (@nil ascii); simpl length in *; lia.
  - destruct (el_id (cp_election resp)) eqn:E; [simpl; lia|]. rewrite <-E in *. rewrite kv_text_one. simpl length in *. lia.
  - rewrite kv_text_cons. destruct (cp_found resp =? 0)%Z; rewrite ?kv_text_cons; change (kv_text []) with (@nil ascii); simpl length in *; lia.
  - destruct (el_id (cp_election resp)) eqn:E; [simpl; lia|]. rewrite <-E in *. rewrite kv_text_one. simpl length in *. lia.
Qed.

(** ** Decoding: the repeated keys *)

Lemma fold_option c pre opts : el_options (cp_election (rx_resp c)) = pad BB_MAX_OPTIONS [] pre ->
  el_option_count (cp_election (rx_resp c)) = Z.of_nat (length pre) ->
  (length pre + length opts <= BB_MAX_OPTIONS)%nat -> Forall (held BB_OPTION_LEN) opts ->
  kv_fold response_kv c (map (pair ($"option")) opts) =
  on_election (set_el_options (pad BB_MAX_OPTIONS [] (pre ++ opts)) (Z.of_nat (length (pre ++ opts)))) c.
Proof.
  revert pre c. induction opts as [|o opts IH]; intros pre c Ho Hn Hl HF.
  - rewrite app_nil_r. destruct c as [[? [] ? ? ? ? ? ? ? ? ? ? ?] ? ? ?]. simpl in *. by subst.
  - apply Forall_cons in HF as [[Hb _] HF]. cbn [map length] in *. rewrite kv_fold_cons.
    change (response_kv ($"option") o c) with
      (if (el_option_count (cp_election (rx_resp c)) <? Z.of_nat BB_MAX_OPTIONS)%Z then
         on_election (set_el_options (<[Z.to_nat (el_option_count (cp_election (rx_resp c))) := trunc BB_OPTION_LEN o]> (el_options (cp_election (rx_resp c))))
           (el_option_count (cp_election (rx_resp c)) + 1)%Z) c else c).
    rewrite Ho, Hn, (proj2 (Z.ltb_lt _ _)), trunc_id, Nat2Z.id, insert_pad by (done || lia).
    rewrite (IH (pre ++ [o])); [by rewrite <-app_assoc|done| |rewrite length_app; simpl; lia|done].
    rewrite length_app. simpl. lia.
Qed.

Lemma fold_result_option c pre opts : cp_options (rx_resp c) = pad BB_MAX_OPTIONS [] pre -> rx_result_opt_i c = length pre ->
  (length pre + length opts <= BB_MAX_OPTIONS)%nat -> Forall (held BB_OPTION_LEN) opts ->
  kv_fold response_kv c (map (pair ($"result_option")) opts) =
  mkRespCtx (set_options (pad BB_MAX_OPTIONS [] (pre ++ opts)) (rx_resp c)) (rx_row_i c) (length (pre ++ opts)) (rx_status_valid c).
Proof.
  revert pre c. induction opts as [|o opts IH]; intros pre c Ho Hn Hl HF.
  - rewrite app_nil_r. destruct c as [[] ? ? ?]. simpl in *. by subst.
  - apply Forall_cons in HF as [[Hb _] HF]. cbn [map length] in *. rewrite kv_fold_cons.
    change (response_kv ($"result_option") o c) with
      (if (rx_result_opt_i c <? BB_MAX_OPTIONS)%nat then
         mkRespCtx (set_options (<[rx_result_opt_i c := trunc BB_OPTION_LEN o]> (cp_options (rx_resp c))) (rx_resp c))
           (rx_row_i c) (S (rx_result_opt_i c)) (rx_status_valid c) else c).
    rewrite Ho, Hn, (proj2 (Nat.ltb_lt _ _)), trunc_id, insert_pad by (done || lia).
    rewrite (IH (pre ++ [o])); [by rewrite <-app_assoc|done| |rewrite length_app; simpl; lia|done].
    rewrite length_app. simpl. lia.
Qed.

Lemma fold_row c pre hs : cp_hashes (rx_resp c) = pad BB_MAX_VOTERS zero_row pre -> rx_row_i c = length pre ->
  (length pre + length hs <= BB_MAX_VOTERS)%nat -> Forall row_ok hs ->
  kv_fold response_kv c (map (fun h => ($"row", row_text h)) hs) =
  mkRespCtx (set_hashes (pad BB_MAX_VOTERS zero_row (pre ++ hs)) (rx_resp c)) (length (pre ++ hs)) (rx_result_opt_i c) (rx_status_valid c).
Proof.
  revert pre c. induction hs as [|h hs IH]; intros pre c Ho Hn Hl HF.
  - rewrite app_nil_r. destruct c as [[] ? ? ?]. simpl in *. by subst.
  - apply Forall_cons in HF as [Hr HF]. cbn [map length] in *. rewrite kv_fold_cons.
    change (response_kv ($"row") ?v c) with
      (if (rx_row_i c <? BB_MAX_VOTERS)%nat then
         match scan_row v with
         | Some h => mkRespCtx (set_hashes (<[rx_row_i c := h]> (cp_hashes (rx_resp c))) (rx_resp c)) (S (rx_row_i c)) (rx_result_opt_i c) (rx_status_valid c)
         | None => c
         end else c).
    rewrite Ho, Hn, (proj2 (Nat.ltb_lt _ _)), scan_row_text, insert_pad by (done || lia).
    rewrite (IH (pre ++ [h])); [by rewrite <-app_assoc|done| |rewrite length_app; simpl; lia|done].
    rewrite length_app. simpl. lia.
Qed.

Lemma state_from_str st : state_from_name (bb_state_str st) = Some st.
Proof. by destruct st. Qed.

Lemma atoi_int z : int_range z -> atoi (print_int z) = z.
Proof. apply atoi_print_int. Qed.

Definition ctx_of (st : bb_result_t) : resp_ctx_t := mkRespCtx (base_resp st) 0 0 true.

Lemma decode_join resp : resp_shaped resp ->
  kv_fold response_kv (ctx_of (cp_status resp)) (response_kvs BCL_JOIN resp) = mkRespCtx (answer_view BCL_JOIN resp) 0 0 true.
Proof.
  intros [[Hid _] [Ht _] [[Ho _] [Hc _]] (Hel & Hen & Hef) [Hp1 Hp2] _ _ _ _ _]. unfold response_kvs, answer_view.
  destruct (el_id (cp_election resp)) as [|i0 i] eqn:E; [done|]. rewrite <-E in *. rewrite kv_fold_app.
  match goal with |- context [kv_fold response_kv ?c [_; _; _; _; _; _; _]] =>
    set (e := cp_election resp) in *;
    assert (Hpre : kv_fold response_kv c [($"election_id", el_id e); ($"title", el_title e); ($"state", bb_state_str (el_state e));
       ($"open_time", el_open_time e); ($"close_time", el_close_time e);
       ($"has_prior_ballot", print_int (cp_has_prior_ballot resp)); ($"prior_ballot_version", print_int (cp_prior_ballot_version resp))] =
      on_resp (fun r => set_election (mkElection (trunc BB_ID_LEN (el_id e)) (trunc BB_TITLE_LEN (el_title e)) (el_state e) no_options 0 no_voters 0
           (trunc BB_TIME_LEN (el_open_time e)) (trunc BB_TIME_LEN (el_close_time e)) zero_tally)
        (set_has_prior (atoi (print_int (cp_has_prior_ballot resp))) (set_prior_version (atoi (print_int (cp_prior_ballot_version resp))) r))) c) by (by destruct (el_state e))
  end.
  rewrite Hpre, !trunc_id, !atoi_int by done. rewrite (fold_option _ []); [|by rewrite pad_nil|done| |by apply held_entries].
  - cbn [app]. rewrite entries_length by lia. by rewrite Z2Nat.id by lia.
  - cbn [length]. rewrite entries_length by lia. unfold BB_MAX_OPTIONS in *. lia.
Qed.

Lemma decode_tally resp c : resp_shaped resp -> cp_tally (rx_resp c) = zero_tally -> cp_options (rx_resp c) = no_options ->
  rx_result_opt_i c = 0%nat ->
  kv_fold response_kv c
    (if (0 <? cp_option_count resp)%Z then
       ($"tally", concat (csv (entries (cp_option_count resp) (cp_tally resp)))) ::
       map (pair ($"result_option")) (entries (cp_option_count resp) (cp_options resp))
     else []) =
  mkRespCtx (set_options (pad BB_MAX_OPTIONS [] (entries (cp_option_count resp) (cp_options resp)))
            (set_tally (pad BB_MAX_OPTIONS 0%Z (entries (cp_option_count resp) (cp_tally resp))) (rx_resp c)))
    (rx_row_i c) (Z.to_nat (cp_option_count resp)) (rx_status_valid c).
Proof.
  intros [_ _ _ _ _ _ [Htl Htf] (Hol & Hon & Hof) _ _] Ht Ho Hi. destruct (Z.ltb_spec 0 (cp_option_count resp)) as [Hpos|Hz].
  - rewrite kv_fold_cons. change (response_kv ($"tally") ?v c) with (on_resp (set_tally (read_csv BB_MAX_OPTIONS 0 v (cp_tally (rx_resp c)))) c).
    rewrite (fold_result_option _ []); [|cbn [rx_resp on_resp cp_options set_tally]; by rewrite pad_nil|done| |by apply held_entries].
    2: { cbn [length]. rewrite entries_length by lia. unfold BB_MAX_OPTIONS in *. lia. }
    cbn [app]. rewrite (entries_length (cp_option_count resp) (cp_options resp)) by lia.
    destruct (entries (cp_option_count resp) (cp_tally resp)) as [|z l] eqn:E.
    { apply (f_equal length) in E. rewrite entries_length in E by lia. simpl in E. lia. }
    assert (Hlen : S (length l) = Z.to_nat (cp_option_count resp)).
    { apply (f_equal length) in E. rewrite entries_length in E by lia. simpl in E. lia. }
    assert (HF : Forall int_range (z :: l)) by (rewrite <-E; by apply Forall_take).
    rewrite csv_text, Ht. change 0%nat with (@length Z []) at 1. unfold zero_tally. rewrite <-(pad_nil BB_MAX_OPTIONS 0%Z).
    rewrite read_csv_text; [done| | |done]; unfold BB_MAX_OPTIONS in *; simpl length; lia.
  - assert (cp_option_count resp = 0)%Z as -> by lia. unfold entries. rewrite !take_0, !pad_nil.
    destruct c as [[] ? ? ?]. simpl in *. by subst.
Qed.

Lemma decode_results resp : resp_shaped resp ->
  kv_fold response_kv (ctx_of (cp_status resp)) (response_kvs BCL_RESULTS resp) =
  mkRespCtx (answer_view BCL_RESULTS resp) (Z.to_nat (cp_hash_count resp)) (Z.to_nat (cp_option_count resp)) true.
Proof.
  intros H. pose proof H as [[Hid _] [Ht _] _ _ _ _ _ (Hol & Hon & Hof) (Hhl & Hhn & Hhf) _]. unfold response_kvs.
  set (e := cp_election resp) in *. rewrite kv_fold_app.
  assert (E1 : kv_fold response_kv (ctx_of (cp_status resp)) [($"election_id", el_id e); ($"title", el_title e); ($"tally_count", print_int (cp_option_count resp))] =
    on_resp (fun r => set_option_count (atoi (print_int (cp_option_count resp)))
      (set_election (set_el_title (trunc BB_TITLE_LEN (el_title e)) (set_el_id (trunc BB_ID_LEN (el_id e)) zero_election)) r)) (ctx_of (cp_status resp))) by done.
  rewrite E1, !trunc_id, atoi_int by (done || (unfold int_range, INT_MAX, BB_MAX_OPTIONS in *; lia)).
  rewrite kv_fold_app, decode_tally by done. rewrite kv_fold_app, kv_fold_cons. change (kv_fold response_kv ?c []) with c.
  change (response_kv ($"hash_count") ?v ?c) with (on_resp (set_hash_count (atoi v)) c).
  rewrite atoi_int by (unfold int_range, INT_MAX, BB_MAX_VOTERS in *; lia).
  rewrite (fold_row _ []); [|by rewrite pad_nil|done| |done].
  - cbn [app]. by rewrite entries_length by lia.
  - cbn [length]. rewrite entries_length by lia. unfold BB_MAX_VOTERS in *. lia.
Qed.

(** The counts are the ones the clamps leave alone. *)
Definition settle (c : resp_ctx_t) : bcl_response_t :=
  let r := rx_resp c in
  let hash_count := if (cp_hash_count r <? 0)%Z || (Z.of_nat (rx_row_i c) <? cp_hash_count r)%Z
                    then Z.of_nat (rx_row_i c) else cp_hash_count r in
  let option_count := if (cp_option_count r <? 0)%Z || (Z.of_nat BB_MAX_OPTIONS <? cp_option_count r)%Z
                      then Z.of_nat (rx_result_opt_i c) else cp_option_count r in
  set_option_count option_count (set_hash_count hash_count r).

Lemma settle_id c : (0 <= cp_hash_count (rx_resp c) <= Z.of_nat (rx_row_i c))%Z ->
  (0 <= cp_option_count (rx_resp c) <= Z.of_nat BB_MAX_OPTIONS)%Z -> settle c = rx_resp c.
Proof.
  intros H1 H2. unfold settle.
  destruct (Z.ltb_spec (cp_hash_count (rx_resp c)) 0), (Z.ltb_spec (Z.of_nat (rx_row_i c)) (cp_hash_count (rx_resp c))),
    (Z.ltb_spec (cp_option_count (rx_resp c)) 0), (Z.ltb_spec (Z.of_nat BB_MAX_OPTIONS) (cp_option_count (rx_resp c))); try lia.
  by destruct (rx_resp c).
Qed.

Lemma results_settle resp : resp_shaped resp ->
  settle (mkRespCtx (answer_view BCL_RESULTS resp) (Z.to_nat (cp_hash_count resp)) (Z.to_nat (cp_option_count resp)) true) =
  answer_view BCL_RESULTS resp.
Proof. intros [_ _ _ _ _ _ _ (_ & Hon & _) (_ & Hhn & _) _]. apply settle_id; cbn; lia. Qed.

Lemma decode_plain op resp : resp_shaped resp -> op <> BCL_RESULTS -> op <> BCL_ADMIN_RESULTS ->
  kv_fold response_kv (ctx_of (cp_status resp)) (response_kvs op resp) = mkRespCtx (answer_view op resp) 0 0 true /\
  cp_hash_count (answer_view op resp) = 0%Z /\ cp_option_count (answer_view op resp) = 0%Z.
Proof.
  intros H H1 H2. split; [|destruct op; try done; unfold answer_view; repeat case_match; done].
  pose proof (decode_join resp H) as Hj.
  destruct H as [[Hid _] _ _ _ _ [[Hr1 _] [Hr2 _]] _ _ _ (Hf1 & Hf2 & [Hf3 _])].
  assert (Hfound : kv_fold response_kv (ctx_of (cp_status resp)) (response_kvs BCL_CHECK resp) = mkRespCtx (answer_view BCL_CHECK resp) 0 0 true).
  { unfold response_kvs, answer_view. rewrite kv_fold_cons.
    change (response_kv ($"found") ?v ?c) with (on_resp (set_found (atoi v)) c). rewrite atoi_int by done.
    destruct (Z.eqb_spec (cp_found resp) 0) as [->|Hne]; [done|]. rewrite !kv_fold_cons. change (kv_fold response_kv ?c []) with c.
    change (response_kv ($"found_option") ?v ?c) with (on_resp (set_found_option (atoi v)) c).
    change (response_kv ($"found_option_name") ?v ?c) with (on_resp (set_found_name (trunc BB_OPTION_LEN v)) c).
    by rewrite atoi_int, trunc_id by done. }
  destruct op; try done; unfold response_kvs, answer_view;
    try (destruct (rc_hash (cp_receipt resp)) eqn:E; [done|rewrite <-E in *]);
    try (destruct (el_id (cp_election resp)) eqn:E; [done|rewrite <-E in *]); rewrite !kv_fold_cons; change (kv_fold response_kv ?c []) with c;
    change (response_kv ($"hash") ?v ?c) with (on_resp (set_receipt (mkReceipt (trunc BB_HASH_LEN v) (rc_issued_at (cp_receipt (rx_resp c))))) c);
    change (response_kv ($"issued_at") ?v ?c) with (on_resp (set_receipt (mkReceipt (rc_hash (cp_receipt (rx_resp c))) (trunc BB_TIME_LEN v))) c);
    change (response_kv ($"election_id") ?v ?c) with (on_election (set_el_id (trunc BB_ID_LEN v)) c);
    rewrite !trunc_id by done; cbn; by destruct (cp_receipt resp).
Qed.

Lemma decode_kvs op resp : resp_shaped resp ->
  let c := kv_fold response_kv (ctx_of (cp_status resp)) (response_kvs op resp) in
  settle c = answer_view op resp /\ rx_status_valid c = true.
Proof.
  intros H c. destruct (decide (op = BCL_RESULTS \/ op = BCL_ADMIN_RESULTS)) as [Hop|Hop].
  - assert (E : c = mkRespCtx (answer_view op resp) (Z.to_nat (cp_hash_count resp)) (Z.to_nat (cp_option_count resp)) true)
      by (pose proof (decode_results resp H); by destruct Hop as [-> | ->]).
    rewrite E. split; [|done]. pose proof (results_settle resp H). by destruct Hop as [-> | ->].
  - destruct (decode_plain op resp H) as (E & E1 & E2); [tauto|tauto|]. subst c. rewrite E. split; [|done].
    apply settle_id; cbn [rx_resp rx_row_i]; rewrite ?E1, ?E2; vm_compute; split; discriminate.
Qed.

(** ** The message *)

Definition status_name (st : bb_result_t) : cstr := default [] (name_from_result st).
Definition status_reason (st : bb_result_t) : cstr := default [] (htttp_reason (bcl_http_status st)).

Definition answer_kvs (op : bcl_op_t) (resp : bcl_response_t) : list (cstr * cstr) :=
  ($"status", status_name (cp_status resp)) :: response_kvs op resp.

Definition answer_http (op : bcl_op_t) (resp : bcl_response_t) : htttp_response_t :=
  mkResponse (bcl_http_status (cp_status resp)) [] (body_field (kv_text (answer_kvs op resp))) (length (kv_text (answer_kvs op resp))).

Lemma status_name_ok st : st <> BB_ERR_RETRY -> name_from_result st = Some (status_name st) /\
  result_from_name (status_name st) = Some st /\ (length (status_name st) <= 25)%nat /\
  val_ok 319 (status_name st) /\ oneline (status_name st).
Proof.
  intros Hst. assert (Hp : Forall (fun st => val_ok 319 (status_name st) /\ oneline (status_name st)) (map fst RESULT_NAMES)).
  { repeat (apply Forall_cons_2; [split; [split; [vm_compute; lia|closed_chars]|repeat (apply Forall_cons_2; [done|]); apply Forall_nil_2]|]).
    apply Forall_nil_2. }
  rewrite Forall_forall in Hp.
  assert (Hin : st ∈ map fst RESULT_NAMES) by (apply list_elem_of_In; destruct st; simpl; tauto). apply Hp in Hin.
  split; [by destruct st|]. split; [by destruct st|]. split; [destruct st; vm_compute; lia || done|done].
Qed.

Lemma status_reason_ok st : htttp_reason (bcl_http_status st) = Some (status_reason st) /\
  (length (status_reason st) <= 21)%nat /\ int_range (bcl_http_status st).
Proof. destruct st; (split; [done|split; [vm_compute; lia|vm_compute; split; discriminate]]). Qed.

Lemma answer_body op resp : cp_status resp <> BB_ERR_RETRY -> resp_shaped resp ->
  body_append_all (line ($"status") (status_name (cp_status resp)) :: response_texts op resp) [] =
  (if decide (answer_clean op resp) then Some (kv_text (answer_kvs op resp)) else None) /\
  (length (kv_text (answer_kvs op resp)) < CODEC_BODY_MAX)%nat.
Proof.
  intros Hst H. destruct (status_name_ok _ Hst) as (_ & _ & Hl & _ & Ho). pose proof (response_size op resp H) as Hs.
  assert (Hlen : (length (kv_text (answer_kvs op resp)) < CODEC_BODY_MAX)%nat).
  { unfold answer_kvs. rewrite kv_text_cons. unfold ROOM, CODEC_BODY_MAX in *. simpl length. lia. }
  split; [|done]. destruct (decide _) as [Hc|Hc].
  - rewrite body_append_all_fits; [|apply Forall_cons_2; [by apply breaks_line_line; split; [apply key_ok_oneline|]|by apply unbroken_response]|].
    + cbn [app concat]. rewrite response_text_kvs. done.
    + cbn [app concat]. by rewrite response_text_kvs.
  - apply body_append_all_breaks. intros HF%Forall_cons. apply Hc, unbroken_response, HF.
Qed.

(** What [strftime] writes: [%a, %d %b %Y %H:%M:%S GMT]. *)
Definition date_ok (date : cstr) : Prop := valid_field date true = true /\ (length date < 48)%nat.

Lemma answer_fits date op resp : date_ok date -> (length (kv_text (answer_kvs op resp)) < CODEC_BODY_MAX)%nat ->
  response_fits date (answer_http op resp).
Proof.
  intros Hd Hl. split; [done| | |]; cbn [answer_http rp_headers rp_body rp_body_len].
  - apply Forall_nil_2.
  - assert (forall n, length (length_header n) <= 1)%nat as Hn by (intros; unfold length_header; case_match; simpl; lia).
    specialize (Hn (length (kv_text (answer_kvs op resp)))). simpl. unfold HTTTP_MAX_HEADERS. lia.
  - unfold body_fits. destruct (kv_text (answer_kvs op resp)) as [|c t] eqn:E; [done|]. cbn [body_field default]. rewrite <-E in *.
    rewrite E, <-E. split; [done|]. unfold UINT32_MAX, CODEC_BODY_MAX in *. lia.
Qed.

Lemma answer_text_length date op resp : date_ok date -> (length (kv_text (answer_kvs op resp)) < CODEC_BODY_MAX)%nat ->
  (length (response_text date (status_reason (cp_status resp)) (answer_http op resp)) <= MESSAGE_MAX)%nat.
Proof.
  intros [_ Hd] Hl. destruct (status_reason_ok (cp_status resp)) as (_ & Hr & Hi%print_int_short).
  unfold response_text. cbn [answer_http rp_status rp_headers rp_body rp_body_len]. rewrite !headers_text_app, headers_text_one.
  generalize dependent (kv_text (answer_kvs op resp)). intros t Hl.
  assert (Hlh : forall n, (length (headers_text (length_header n)) <= 38)%nat).
  { intros n. unfold length_header. case_match; [|simpl; lia]. rewrite headers_text_one. unfold header_text. cbn [h_key h_value].
    rewrite !length_app. pose proof (print_uint_length (Z.of_nat n)). simpl. lia. }
  specialize (Hlh (length t)).
  assert (Hbody : (length (body_bytes (body_field t) (length t)) <= CODEC_BODY_MAX)%nat).
  { unfold body_bytes. rewrite length_take. lia. }
  unfold header_text. cbn [h_key h_value]. repeat (rewrite length_app || cbn [length]).
  change (length (headers_text (keep true []))) with 0%nat. unfold MESSAGE_MAX, CODEC_BODY_MAX in *. simpl. lia.
Qed.

Lemma decode_answer op resp st hs : cp_status resp <> BB_ERR_RETRY -> resp_shaped resp -> answer_clean op resp ->
  bcl_decode_response (mkResponse st hs
    (body_view (body_field (kv_text (answer_kvs op resp))) (length (kv_text (answer_kvs op resp)))) (length (kv_text (answer_kvs op resp)))) =
  (answer_view op resp, true).
Proof.
  intros Hst H Hc. destruct (status_name_ok _ Hst) as (_ & Hn & _ & Hv & Ho).
  unfold bcl_decode_response. cbn [rp_body rp_body_len]. rewrite body_for_each_kv.
  2: { apply Forall_cons_2; [by apply kv_ok_intro|]. eapply kv_ok_all; [|by apply response_vals|exact Hc]. lia. }
  unfold answer_kvs. rewrite kv_fold_cons.
  assert (E : response_kv ($"status") (status_name (cp_status resp)) (mkRespCtx zero_resp 0 0 false) = ctx_of (cp_status resp)).
  { unfold response_kv. change (streq ($"status") ($"status")) with true. cbv iota. by rewrite Hn. }
  rewrite E. destruct (decode_kvs op resp H) as [E1 E2]. fold (settle (kv_fold response_kv (ctx_of (cp_status resp)) (response_kvs op resp))).
  by rewrite E1, E2.
Qed.

Lemma encode_answer date op resp cap : cp_status resp <> BB_ERR_RETRY -> date_ok date -> resp_shaped resp -> (MESSAGE_MAX <= cap)%nat ->
  bcl_encode_response (Some date) op resp cap =
  if decide (answer_clean op resp) then Some (response_text date (status_reason (cp_status resp)) (answer_http op resp)) else None.
Proof.
  intros Hst Hd H Hcap. unfold bcl_encode_response. destruct (status_name_ok _ Hst) as (-> & _).
  destruct (answer_body op resp Hst H) as [Hb Hl]. cbn [mbind option_bind]. rewrite Hb.
  destruct (decide (answer_clean op resp)) as [Hc|Hc]; [|reflexivity]. cbn [mbind option_bind].
  destruct (status_reason_ok (cp_status resp)) as (Hr & _).
  pose proof (serialize_response_fits date (status_reason (cp_status resp)) (answer_http op resp) cap) as Hs.
  fold (answer_http op resp). rewrite Hs;
    [reflexivity|apply body_field_null|exact Hr|apply Nat.le_0_l|apply Forall_nil_2|].
  exact (Nat.le_trans _ _ _ (answer_text_length date op resp Hd Hl) Hcap).
Qed.

(** The receiving end of a clean answer. *)
Lemma answer_arrives date op resp : cp_status resp <> BB_ERR_RETRY -> date_ok date -> resp_shaped resp -> answer_clean op resp ->
  exists http, htttp_parse_response (response_text date (status_reason (cp_status resp)) (answer_http op resp)) = HOk http /\
    bcl_decode_response http = (answer_view op resp, true).
Proof.
  intros Hst Hd H Hc. destruct (answer_body op resp Hst H) as [_ Hl]. destruct (status_reason_ok (cp_status resp)) as (Hr & _).
  eexists. split; [apply parse_response_text; [by apply answer_fits|done|apply Forall_nil_2]|]. by apply decode_answer.
Qed.

(** C32: an answer arrives whole or is not sent.  For every operation, a
    filled-in response whose values are one line each is encoded within the
    8192-byte body (a full result list included) and the client parses and
    decodes exactly it: status, election, receipt, tally, every hash row.  A
    value with a line break, and the status [BB_ERR_RETRY], are refused by
    the encoder, so the client hears nothing at all. *)
Theorem response_delivered date op resp cap : date_ok date -> resp_shaped resp -> (MESSAGE_MAX <= cap)%nat ->
  (cp_status resp <> BB_ERR_RETRY /\ answer_clean op resp ->
     exists out http, bcl_encode_response (Some date) op resp cap = Some out /\ htttp_parse_response out = HOk http /\
       bcl_decode_response http = (answer_view op resp, true)) /\
  (cp_status resp = BB_ERR_RETRY \/ ~ answer_clean op resp -> bcl_encode_response (Some date) op resp cap = None).
Proof.
  intros Hd H Hcap. split.
  - intros [Hst Hc]. destruct (answer_arrives date op resp Hst Hd H Hc) as (http & Hp & Hde).
    exists (response_text date (status_reason (cp_status resp)) (answer_http op resp)), http.
    rewrite encode_answer by done. by rewrite decide_True.
  - destruct (decide (cp_status resp = BB_ERR_RETRY)) as [E|Hst]; [intros _; unfold bcl_encode_response; by rewrite E|].
    intros [?|Hc]; [done|]. rewrite encode_answer by done. by rewrite decide_False.
Qed.

(** Two options, one counted ballot. *)
Definition sample_answer : bcl_response_t :=
  mkResp BB_OK (set_el_id ($"E-100") (set_el_title ($"Budget") zero_election)) 0 0 zero_receipt
    (pad BB_MAX_OPTIONS 0%Z [0; 1]%Z) 2 (pad BB_MAX_OPTIONS [] [$"yes"; $"no"])
    (pad BB_MAX_VOTERS zero_row [mkHashRow ($"4f1b") 1 2 0]) 1 0 0 [].

Ltac closed_int := vm_compute; split; discriminate.

Lemma sample_answer_shaped : resp_shaped sample_answer.
Proof.
  split; try closed_held.
  - split; closed_held.
  - split; [reflexivity|]. split; [closed_int|]. repeat (apply Forall_cons_2; [closed_held|]); apply Forall_nil_2.
  - split; closed_int.
  - split; closed_held.
  - split; [reflexivity|]. repeat (apply Forall_cons_2; [closed_int|]); apply Forall_nil_2.
  - split; [reflexivity|]. split; [closed_int|]. repeat (apply Forall_cons_2; [closed_held|]); apply Forall_nil_2.
  - split; [reflexivity|]. split; [closed_int|]. apply Forall_singleton.
    split; [split; [closed_held|split; [discriminate|closed_chars]]|split; [closed_int|split; closed_int]].
  - split; [closed_int|]. split; [closed_int|closed_held].
Qed.

Lemma sample_answer_clean : answer_clean BCL_RESULTS sample_answer.
Proof.
  repeat (apply Forall_cons_2; [repeat (apply Forall_cons_2; [split; discriminate|]); apply Forall_nil_2|]). apply Forall_nil_2.
Qed.

Lemma response_delivered_witness : exists out http,
  bcl_encode_response (Some sample_date) BCL_RESULTS sample_answer MESSAGE_MAX = Some out /\
  htttp_parse_response out = HOk http /\ bcl_decode_response http = (answer_view BCL_RESULTS sample_answer, true).
Proof.
  refine (proj1 (response_delivered sample_date BCL_RESULTS sample_answer MESSAGE_MAX _ sample_answer_shaped (le_n _)) _).
  - split; [reflexivity|vm_compute; lia].
  - split; [discriminate|exact sample_answer_clean].
Defined.

(** ** Whatever the bytes *)

Definition short (n : nat) (s : cstr) : Prop := (length s < n)%nat.

(** Every array has its slots and every string its terminator. *)
Record resp_storage (r : bcl_response_t) : Prop := {
  so_el_option_count : (0 <= el_option_count (cp_election r) <= Z.of_nat BB_MAX_OPTIONS)%Z;
  so_hashes : length (cp_hashes r) = BB_MAX_VOTERS /\ Forall (fun h => short BB_HASH_LEN (bh_hash h)) (cp_hashes r);
  so_options : length (cp_options r) = BB_MAX_OPTIONS /\ Forall (short BB_OPTION_LEN) (cp_options r);
  so_tally : length (cp_tally r) = BB_MAX_OPTIONS;
  so_el_options : length (el_options (cp_election r)) = BB_MAX_OPTIONS /\ Forall (short BB_OPTION_LEN) (el_options (cp_election r));
  so_election : short BB_ID_LEN (el_id (cp_election r)) /\ short BB_TITLE_LEN (el_title (cp_election r)) /\
                short BB_TIME_LEN (el_open_time (cp_election r)) /\ short BB_TIME_LEN (el_close_time (cp_election r));
  so_receipt : short BB_HASH_LEN (rc_hash (cp_receipt r)) /\ short BB_TIME_LEN (rc_issued_at (cp_receipt r));
  so_found : short BB_OPTION_LEN (cp_found_option_name r) }.

Definition ctx_bounded (c : resp_ctx_t) : Prop :=
  resp_storage (rx_resp c) /\ (rx_row_i c <= BB_MAX_VOTERS)%nat /\ (rx_result_opt_i c <= BB_MAX_OPTIONS)%nat.

Lemma short_trunc n s : (0 < n)%nat -> short n (trunc n s).
Proof. apply trunc_length. Qed.

Lemma read_csv_length slots i p tally : length (read_csv slots i p tally) = length tally.
Proof.
  revert i p tally. induction slots as [|slots IH]; intros i p tally; [done|]. cbn [read_csv]. destruct p; [done|].
  destruct (split_at _ _) as [[]|]; rewrite ?IH; apply length_insert.
Qed.

Lemma scan_row_short v h : scan_row v = Some h -> short BB_HASH_LEN (bh_hash h).
Proof.
  unfold scan_row. destruct (take _ _) as [|c l] eqn:E; [done|]. intros H.
  destruct (scan_comma _); [|done]. cbn [mbind option_bind] in H. destruct (scan_d _) as [[]|]; [|done]. cbn [mbind option_bind] in H.
  destruct (scan_comma _); [|done]. cbn [mbind option_bind] in H. destruct (scan_d _) as [[]|]; [|done]. cbn [mbind option_bind] in H.
  destruct (scan_comma _); [|done]. cbn [mbind option_bind] in H. destruct (scan_d _) as [[]|]; [|done]. cbn [mbind option_bind] in H.
  injection H as <-. apply short_trunc. vm_compute. lia.
Qed.

(** One line keeps the context bounded, whatever its key and value. *)
Lemma response_kv_bounded k v c : ctx_bounded c -> ctx_bounded (response_kv k v c).
Proof.
  intros ([Hn [Hh1 Hh2] [Ho1 Ho2] Ht [He1 He2] (Hf1 & Hf2 & Hf3 & Hf4) [Hr1 Hr2] Hfn] & Hrow & Hopt).
  assert (Hb : forall n s, short (S n) (trunc (S n) s)) by (intros; apply short_trunc; lia).
  unfold response_kv; repeat (case_match; [|try (split; [by split|done])]); try (split; [by split|done]);
    (split; [split|]; cbn [rx_resp rx_row_i rx_result_opt_i on_resp on_election cp_election cp_hashes cp_options cp_tally cp_receipt cp_found_option_name
       set_status set_election set_has_prior set_prior_version set_receipt set_tally set_option_count set_options set_hashes set_hash_count
       set_found set_found_option set_found_name set_el_id set_el_title set_el_state set_el_open set_el_close set_el_options
       el_id el_title el_open_time el_close_time el_options el_option_count rc_hash rc_issued_at];
     rewrite ?read_csv_length, ?length_insert; repeat split; try done; try apply Hb; try apply Forall_insert; try done; try apply Hb;
     try (by eapply scan_row_short); try lia;
     try (match goal with H : (_ <? _)%Z = true |- _ => apply Z.ltb_lt in H end; lia);
     try (match goal with H : (_ <? _)%nat = true |- _ => apply Nat.ltb_lt in H end; lia)).
Qed.

(** A struct a caller may loop over to its counts. *)
Definition resp_in_bounds (r : bcl_response_t) : Prop :=
  resp_storage r /\ (0 <= cp_hash_count r <= Z.of_nat BB_MAX_VOTERS)%Z /\ (0 <= cp_option_count r <= Z.of_nat BB_MAX_OPTIONS)%Z.

Lemma zero_bounded : ctx_bounded (mkRespCtx zero_resp 0 0 false).
Proof.
  split; [|vm_compute; lia]. split; try (split; [reflexivity|]; repeat (apply Forall_cons_2; [vm_compute; lia|]); apply Forall_nil_2);
    repeat split; vm_compute; try lia; discriminate.
Qed.

Lemma kv_fold_inv {A} (P : A -> Prop) (fn : cstr -> cstr -> A -> A) kvs ctx :
  (forall k v a, P a -> P (fn k v a)) -> P ctx -> P (kv_fold fn ctx kvs).
Proof. intros Hf. revert ctx. induction kvs as [|[k v] kvs IH]; [done|]. intros ctx Hc. apply IH. by apply Hf. Qed.

(** A client is never led outside its arrays.  Whatever message arrives,
    from the daemon or from anything answering in its place, the decoded
    response has counts within its arrays (never the sender's claim past the
    rows that came), full-length arrays and terminated strings, whether or
    not the decoder then reports a usable status. *)
Theorem decoded_response_in_bounds http : resp_in_bounds (fst (bcl_decode_response http)).
Proof.
  unfold bcl_decode_response. cbn [fst]. unfold body_for_each.
  match goal with |- context [foldl ?f ?c ?l] => change (foldl f c l) with (kv_fold response_kv c l) end.
  set (c := kv_fold _ _ _). fold (settle c).
  assert (Hc : ctx_bounded c) by (apply kv_fold_inv; [apply response_kv_bounded|apply zero_bounded]).
  destruct Hc as (Hs & Hr & Ho). split; [by destruct Hs; split|]. unfold settle. cbn [cp_hash_count cp_option_count set_option_count set_hash_count].
  split.
  - destruct (Z.ltb_spec (cp_hash_count (rx_resp c)) 0), (Z.ltb_spec (Z.of_nat (rx_row_i c)) (cp_hash_count (rx_resp c))); cbn [orb]; lia.
  - destruct (Z.ltb_spec (cp_option_count (rx_resp c)) 0), (Z.ltb_spec (Z.of_nat BB_MAX_OPTIONS) (cp_option_count (rx_resp c))); cbn [orb]; lia.
Qed.

End Answers.
