(* ===== verification/Intake.v ===== *)
(** * What a daemon accepts from the wire

    The request decoder on arbitrary messages: whatever a peer sends, the
    struct handed to the dispatcher respects every array and every count. *)
From S2P Require Import Prelude CText Types Rows Htttp Codec CodecLogic Delivery Answers.

Module Intake.
Import Htttp Codec CodecLogic Delivery Answers.

Record config_in_bounds (g : bb_config_t) : Prop := {
  gb_title : short BB_TITLE_LEN (cfg_title g);
  gb_times : short BB_TIME_LEN (cfg_open_time g) /\ short BB_TIME_LEN (cfg_close_time g);
  gb_options : length (cfg_options g) = BB_MAX_OPTIONS /\ Forall (short BB_OPTION_LEN) (cfg_options g);
  gb_eligible : length (cfg_eligible g) = BB_MAX_VOTERS /\ Forall (short BB_CERT_LEN) (cfg_eligible g) }.

Record ballot_in_bounds (b : bb_ballot_t) : Prop := {
  bb_cert : short BB_CERT_LEN (bl_cert_name b);
  bb_nonce : short BB_NONCE_LEN (bl_nonce b);
  bb_payload : length (bl_payload b) = BB_CIPHERTEXT_MAX;
  bb_payload_len : (0 <= bl_payload_len b <= Z.of_nat BB_CIPHERTEXT_MAX)%Z }.

Record req_in_bounds (r : bcl_request_t) : Prop := {
  rb_names : short BB_CERT_LEN (cr_cert_name r) /\ short BB_ID_LEN (cr_election_id r) /\ short BB_HASH_LEN (cr_hash r);
  rb_ballot : ballot_in_bounds (cr_ballot r);
  rb_config : config_in_bounds (cr_config r);
  rb_counts : (0 <= cfg_option_count (cr_config r) <= Z.of_nat BB_MAX_OPTIONS)%Z /\
              (0 <= cfg_eligible_count (cr_config r) <= Z.of_nat BB_MAX_VOTERS)%Z }.

Lemma zero_config_bounded : config_in_bounds zero_config.
Proof.
  split; try (split; [reflexivity|]; repeat (apply Forall_cons_2; [vm_compute; lia|]); apply Forall_nil_2);
    try split; vm_compute; lia.
Qed.

Lemma zero_ballot_bounded cert : short BB_CERT_LEN cert -> ballot_in_bounds (mkBallot cert [] (bl_payload zero_ballot) 0).
Proof. intros Hc. split; [done|vm_compute; lia|reflexivity|vm_compute; split; discriminate]. Qed.

Definition create_bounded (c : create_ctx_t) : Prop :=
  config_in_bounds (cc_cfg c) /\ short BB_ID_LEN (cc_id c) /\
  (cc_opt_i c <= BB_MAX_OPTIONS)%nat /\ (cc_elig_i c <= BB_MAX_VOTERS)%nat.

Lemma create_kv_bounded k v c : create_bounded c -> create_bounded (create_kv k v c).
Proof.
  intros ([Ht [Ho Hc] [Hl1 Hf1] [Hl2 Hf2]] & Hid & H1 & H2).
  assert (Hb : forall n s, short (S n) (trunc (S n) s)) by (intros; apply short_trunc; lia).
  unfold create_kv; repeat (case_match; [|try (split; [by split|done])]); try (split; [by split|done]);
    (split; [split|]; cbn [cc_cfg cc_id cc_opt_i cc_elig_i cfg_title cfg_options cfg_eligible cfg_open_time cfg_close_time];
     rewrite ?length_insert; repeat split; try done; try apply Hb; try apply Forall_insert; try done; try apply Hb;
     try (match goal with H : (_ <? _)%nat = true |- _ => apply Nat.ltb_lt in H end; lia)).
Qed.

Lemma hex_pairs_length s n : (length s <= 2 * n)%nat -> (length (fst (hex_pairs s)) <= n)%nat.
Proof.
  revert s. induction n as [|n IH]; intros [|h [|l s]] Hl; cbn [hex_pairs]; simpl in *; try lia.
  destruct (hex_nibble h), (hex_nibble l); simpl; try lia. specialize (IH s ltac:(lia)). destruct (hex_pairs s). simpl in *. lia.
Qed.

Lemma hex_decode_length v cap : (length (fst (hex_decode v cap)) <= cap)%nat.
Proof.
  unfold hex_decode. destruct (Nat.eqb_spec (length v mod 2) 0) as [Hm|]; cbn [negb]; [|simpl; lia].
  destruct (Nat.ltb_spec cap (length v / 2)); [simpl; lia|]. apply hex_pairs_length.
  pose proof (Nat.div_mod_eq (length v) 2). lia.
Qed.

Lemma ballot_kv_bounded k v c : ballot_in_bounds (bc_ballot c) -> ballot_in_bounds (bc_ballot (ballot_kv k v c)).
Proof.
  intros H. pose proof H as [Hc Hn Hp Hl]. unfold ballot_kv. case_match.
  { split; cbn [bc_ballot bl_cert_name bl_nonce bl_payload bl_payload_len]; [done|apply short_trunc; vm_compute; lia|done|done]. }
  case_match; [|done]. pose proof (hex_decode_length v BB_CIPHERTEXT_MAX) as Hh. destruct (hex_decode v _) as [bytes ok] eqn:E. cbn [fst] in Hh.
  destruct ok; split; cbn [bc_ballot bl_cert_name bl_nonce bl_payload bl_payload_len]; try done; try (rewrite length_app, length_drop; lia).
  lia.
Qed.

Lemma path_id_short path id : path_election_id path = Some id -> short BB_ID_LEN id.
Proof.
  unfold path_election_id. case_match; [|done]. destruct (take _ _) eqn:E; [done|]. intros [= <-].
  apply (f_equal length) in E. rewrite length_take in E. unfold short, BB_ID_LEN in *. cbn [length] in *. lia.
Qed.

(** C34: the daemon's request struct is always within bounds.  Whatever
    message is received, on the voter channel or the admin channel, a request
    the decoder returns has counts within its arrays, a payload length within
    the payload buffer and terminated strings, so no later loop or copy of
    the daemon can run past them. *)
Theorem decoded_request_in_bounds http : match bcl_decode_request http with Some req => req_in_bounds req | None => True end.
Proof.
  unfold bcl_decode_request. destruct (op_from_method _) as [op|]; [|done]. cbn [mbind option_bind].
  set (cert := match htttp_header_get _ _ with Some c => _ | None => _ end).
  assert (Hcert : short BB_CERT_LEN cert) by (subst cert; case_match; [apply short_trunc|]; vm_compute; lia).
  assert (H0 : forall c, short BB_CERT_LEN c -> ballot_in_bounds (mkBallot c [] (bl_payload zero_ballot) 0)) by apply zero_ballot_bounded.
  assert (Hz : ballot_in_bounds zero_ballot) by (apply H0; vm_compute; lia).
  assert (Hid : forall id hash, short BB_ID_LEN id -> short BB_HASH_LEN hash -> req_in_bounds (mkReq op cert id zero_ballot hash zero_config)).
  { intros id hash Hi Hh. split; [done|done|apply zero_config_bounded|vm_compute; repeat split; discriminate]. }
  assert (Hnil : forall n, short (S n) []) by (intros; unfold short; simpl; lia).
  assert (Hhash : forall b n, short BB_HASH_LEN (body_for_each b n hash_kv [])).
  { intros b n. apply (kv_fold_inv (short BB_HASH_LEN)); [|apply Hnil]. intros k v a Ha. unfold hash_kv. case_match; [|done].
    apply short_trunc. vm_compute. lia. }
  assert (Hbal : forall b n id, short BB_ID_LEN id ->
    let c := body_for_each b n ballot_kv (mkBallotCtx (mkBallot (trunc BB_CERT_LEN cert) [] (bl_payload zero_ballot) 0) false) in
    req_in_bounds (mkReq op cert id (bc_ballot c) [] zero_config)).
  { intros b n id Hi c. split; [by split; [|split; [|apply Hnil]]|cbn|apply zero_config_bounded|vm_compute; repeat split; discriminate].
    apply (kv_fold_inv (fun c => ballot_in_bounds (bc_ballot c))); [apply ballot_kv_bounded|]. apply H0, short_trunc. vm_compute. lia. }
  destruct op; try (apply Hid; [apply Hnil|apply Hnil]);
    try (destruct (path_election_id _) as [id|] eqn:E; [|done]; cbn [mbind option_bind]; apply path_id_short in E; try (apply Hid; [done|apply Hnil])).
  - match goal with |- context [bc_got_payload ?c] => destruct (bc_got_payload c) end; [by apply Hbal|done].
  - match goal with |- context [bc_got_payload ?c] => destruct (bc_got_payload c) end; [by apply Hbal|done].
  - pose proof (Hhash (rq_body http) (rq_body_len http)). by destruct (body_for_each (rq_body http) (rq_body_len http) hash_kv []); [|apply Hid].
  - set (c := body_for_each (rq_body http) (rq_body_len http) create_kv (mkCreateCtx zero_config [] 0 0)). assert (Hc : create_bounded c).
    { apply (kv_fold_inv create_bounded); [apply create_kv_bounded|]. split; [apply zero_config_bounded|vm_compute; lia]. }
    destruct Hc as (Hg & Hi & H1 & H2). split; [by split; [|split; [|apply Hnil]]|done| |cbn; lia]. destruct Hg; by split.
  - pose proof (Hhash (rq_body http) (rq_body_len http)). by destruct (body_for_each (rq_body http) (rq_body_len http) hash_kv []); [|apply Hid].
Qed.

End Intake.
