(* ===== verification/Daemon.v ===== *)
(** * The daemon: ballotd/dispatch.c, session.c, control_plane.c and main.c

    One decoded request becomes one libballotbrain call and its out-parameters
    a response; the voter channel and the admin channel each admit their own
    operations.  Out-parameters are what the C caller's struct holds when the
    call returns, also when it returns an error. *)
From S2P Require Import Prelude CText Types Rows Sql Wire Server BrainDb Brain Htttp Codec.
Import Rows Sql Wire Server BrainDb Brain Htttp Codec.

Module Daemon.

Section Daemon.
Context `{R : Runner}.

(** ** Calls that write an out-parameter before they may still fail *)

(** [bb_join] up to [*out = election]. *)
Definition join_gates (election_id cert : cstr) : prog world bb_election_t :=
  let! election := load_election election_id in
  let! status := bb_verify_cert cert in
  match status with
  | BB_CERT_INVALID => throw BB_ERR_CERT_INVALID
  | BB_CERT_EXPIRED => throw BB_ERR_CERT_EXPIRED
  | BB_CERT_NOT_ELIGIBLE => throw BB_ERR_NOT_ELIGIBLE
  | BB_CERT_VALID =>
    if negb (bb_check_eligibility election cert) then
      log_not_eligible ($"join") election_id cert election ;! throw BB_ERR_NOT_ELIGIBLE
    else if negb (bool_decide (el_state election = BB_STATE_OPEN)) then
      log ($"[join] " ++ q election_id ++ $" is " ++ bb_state_str (el_state election) ++ $", not OPEN") ;!
      throw BB_ERR_NOT_OPEN
    else ret election
  end.

(** The status, [*out], [*out_has_ballot] and [*out_ballot_version]. *)
Definition join_out (election_id cert : cstr) (w : world) : bb_result_t * bb_election_t * Z * Z * world :=
  match join_gates election_id cert w with
  | (Err e, w1) => (e, zero_election, 0%Z, 0%Z, w1)
  | (Ok election, w1) =>
    match db_exec (cmd_with_cert cert (new_cmd BB_DB_GET_PRIOR_BALLOT election_id)) true w1 with
    | (Err e, w2) => (e, election, 0%Z, 0%Z, w2)
    | (Ok prior, w2) =>
      (BB_OK, election, (if res_found prior then 1 else 0)%Z, (if res_found prior then bh_version (res_row prior) else 0)%Z, w2)
    end
  end.

(** [record_ballot_locked] up to the read of the prior ballot: every gate. *)
Definition ballot_gates (election_id : cstr) (b : bb_ballot_t) : prog world (Z * bb_db_result_t) :=
  let! election := load_election election_id in
  match el_state election with
  | BB_STATE_CLOSED | BB_STATE_PUBLISHED => throw BB_ERR_CLOSED
  | BB_STATE_DRAFT => throw BB_ERR_NOT_OPEN
  | BB_STATE_OPEN =>
    if negb (bb_check_eligibility election (bl_cert_name b)) then
      log_not_eligible ($"cast") election_id (bl_cert_name b) election ;! throw BB_ERR_NOT_ELIGIBLE
    else
      log ($"[crypto] decrypt ballot (placeholder, nonce=" ++ bl_nonce b ++ $")") ;!
      let option_index := bb_decrypt_ballot b in
      if ((option_index <? 0)%Z || (el_option_count election <=? option_index)%Z) then
        throw BB_ERR_BAD_OPTION
      else
        let! seen := db_exec (cmd_with_nonce (bl_nonce b) (new_cmd BB_DB_NONCE_SEEN election_id)) true in
        if res_found seen then throw BB_ERR_REPLAY
        else
          let! prior := db_exec (cmd_with_cert (bl_cert_name b)
                                   (new_cmd BB_DB_GET_PRIOR_BALLOT election_id)) true in
          ret (option_index, prior)
  end.

(** The rest of it: the receipt goes to [out] first, then come the writes. *)
Definition ballot_writes (election_id : cstr) (b : bb_ballot_t) (option_index : Z) (prior : bb_db_result_t) (receipt : bb_receipt_t)
    (version : Z) : prog world bb_receipt_t :=
  log ($"[crypto] issue receipt v" ++ print_int version ++ $" -> " ++ rc_hash receipt ++ $" (placeholder)") ;!
  let row := mkHashRow (trunc BB_HASH_LEN (rc_hash receipt)) option_index version 0 in
  db_exec (cmd_with_row row (new_cmd BB_DB_APPEND_BALLOT election_id)) false ;!
  (if res_found prior then
     db_exec (cmd_with_hash (bh_hash (res_row prior)) (new_cmd BB_DB_MARK_SUPERSEDED election_id)) false ;! ret tt
   else ret tt) ;!
  db_exec (cmd_with_version version (cmd_with_hash (rc_hash receipt)
            (cmd_with_cert (bl_cert_name b) (new_cmd BB_DB_SET_OWNER election_id)))) false ;!
  db_exec (cmd_with_nonce (bl_nonce b) (new_cmd BB_DB_NONCE_MARK election_id)) false ;!
  ret receipt.

Definition next_ballot_version (prior : bb_db_result_t) : Z :=
  if res_found prior then i32 (bh_version (res_row prior) + 1) else 1%Z.

Definition ballot_out (election_id : cstr) (b : bb_ballot_t) (out : bb_receipt_t) (w : world) : res bb_receipt_t * bb_receipt_t * world :=
  match ballot_gates election_id b w with
  | (Err e, w1) => (Err e, out, w1)
  | (Ok (option_index, prior), w1) =>
    let version := next_ballot_version prior in
    let receipt := bb_issue_receipt b version in
    let '(r, w2) := ballot_writes election_id b option_index prior receipt version w1 in
    (r, receipt, w2)
  end.

(** [bb_record_ballot]'s attempt loop with [*out]. *)
Fixpoint record_loop_out (n : nat) (r : res bb_receipt_t) (election_id : cstr) (b : bb_ballot_t) (out : bb_receipt_t) (w : world)
    : res bb_receipt_t * bb_receipt_t * world :=
  match n with
  | O => (r, out, w)
  | S n' =>
    match bb_db_begin w with
    | (Err e, w1) => (Err e, out, w1)
    | (Ok _, w1) =>
      match ballot_out election_id b out w1 with
      | (Err BB_ERR_RETRY, out1, w2) => record_loop_out n' (Err BB_ERR_RETRY) election_id b out1 (bb_db_rollback w2)
      | (Err e, out1, w2) => (Err e, out1, bb_db_rollback w2)
      | (Ok receipt, out1, w2) =>
        match bb_db_commit w2 with
        | (Err BB_ERR_RETRY, w3) => record_loop_out n' (Err BB_ERR_RETRY) election_id b out1 w3
        | (Err e, w3) => (Err e, out1, w3)
        | (Ok _, w3) => (Ok receipt, out1, w3)
        end
      end
    end
  end.

Definition record_out (election_id : cstr) (b : bb_ballot_t) (w : world) : bb_result_t * bb_receipt_t * world :=
  let '(r, out, w1) := record_loop_out BB_TXN_ATTEMPTS (Err BB_ERR_DB) election_id b zero_receipt (bb_write_lock w) in
  (code_of r, out, bb_write_unlock w1).

(** ** dispatch.c *)

Definition answer_status (st : bb_result_t) : bcl_response_t := set_status st zero_resp.

Definition results_response (election_id : cstr) (r : res bb_results_t) : bcl_response_t :=
  match r with
  | Err e => answer_status e
  | Ok results =>
    set_election (set_el_id (trunc BB_ID_LEN election_id) (set_el_title (trunc BB_TITLE_LEN (rs_title results)) zero_election))
      (set_option_count (rs_option_count results) (set_tally (rs_tally results) (set_options (rs_options results)
      (set_hash_count (rs_hash_count results) (set_hashes (rs_hashes results) (answer_status BB_OK))))))
  end.

Definition id_response (id : cstr) : bcl_response_t :=
  set_election (set_el_id (trunc BB_ID_LEN id) zero_election) (answer_status BB_OK).

Definition ballotd_dispatch (req : bcl_request_t) (w : world) : bcl_response_t * world :=
  let id := cr_election_id req in
  match cr_op req with
  | BCL_CREATE =>
    match bb_create_election (cr_config req) id w with
    | (Ok new_id, w1) => (id_response new_id, w1)
    | (Err e, w1) => (answer_status e, w1)
    end
  | BCL_ADMIN_NEXT_ID => let '(new_id, w1) := bb_alloc_id w in (id_response new_id, w1)
  | BCL_OPEN => let '(r, w1) := bb_transition_state id BB_STATE_OPEN w in (answer_status (code_of r), w1)
  | BCL_CLOSE => let '(r, w1) := bb_transition_state id BB_STATE_CLOSED w in (answer_status (code_of r), w1)
  | BCL_PUBLISH => let '(r, w1) := bb_publish_results id w in (answer_status (code_of r), w1)
  | BCL_JOIN =>
    let '(st, election, has, version, w1) := join_out id (cr_cert_name req) w in
    (set_election election (set_has_prior has (set_prior_version version (answer_status st))), w1)
  | BCL_CAST | BCL_UPDATE =>
    let '(st, receipt, w1) := record_out id (cr_ballot req) w in
    (set_receipt receipt (answer_status st), w1)
  | BCL_RESULTS => let '(r, w1) := bb_get_results id (cr_cert_name req) w in (results_response id r, w1)
  | BCL_ADMIN_RESULTS => let '(r, w1) := bb_get_results_admin id w in (results_response id r, w1)
  | BCL_CHECK | BCL_ADMIN_CHECK =>
    match bb_lookup_hash id (cr_hash req) w with
    | (Ok (row, name), w1) =>
      (set_found 1%Z (set_found_option (bh_option_index row) (set_found_name name (answer_status BB_OK))), w1)
    | (Err e, w1) => (answer_status e, w1)
    end
  end.

(** ** session.c: the voter channel *)

Definition is_voter_op (op : bcl_op_t) : bool :=
  match op with BCL_JOIN | BCL_CAST | BCL_UPDATE | BCL_RESULTS | BCL_CHECK => true | _ => false end.

(** [session_reply_raw], [ctl_reply_raw]: a bare status, or nothing. *)
Definition reply_raw (date : option cstr) (status : Z) : option (list ascii) :=
  match htttp_serialize_response date (mkResponse status [] None 0) 512 with HOk out => Some out | HErr _ => None end.

Definition SESSION_MAX_FRAME : nat := Z.to_nat 65536.
Definition CTL_MAX_FRAME : nat := Z.to_nat 65536.

(** The socketpair to [admin_thread]. *)
Inductive admin_link := Alive | GoneBefore | GoneAfter.

(** The two [snprintf]s that overwrite the request's names. *)
Definition set_identity (cert_name : cstr) (req : bcl_request_t) : bcl_request_t :=
  let b := cr_ballot req in
  mkReq (cr_op req) (trunc BB_CERT_LEN cert_name) (cr_election_id req)
    (mkBallot (trunc BB_CERT_LEN cert_name) (bl_nonce b) (bl_payload b) (bl_payload_len b)) (cr_hash req) (cr_config req).

(** One frame of a session authenticated as [cert_name]: what is sent back, if
    anything, and the store behind it. *)
Definition handle_request (date : option cstr) (link : admin_link) (cert_name : cstr) (buf : list ascii) (w : world)
    : option (list ascii) * world :=
  match htttp_parse_request buf with
  | HErr _ => (reply_raw date 400, w)
  | HOk http =>
    match bcl_decode_request http with
    | None => (reply_raw date 400, w)
    | Some req =>
      if negb (is_voter_op (cr_op req)) then (reply_raw date 400, w)
      else
        match link with
        | GoneBefore => (None, w)
        | _ =>
          let '(resp, w1) := ballotd_dispatch (set_identity cert_name req) w in
          match link with
          | Alive => (bcl_encode_response date (cr_op req) resp SESSION_MAX_FRAME, w1)
          | _ => (None, w1)
          end
        end
    end
  end.

(** ** control_plane.c and main.c: the admin channel *)

Definition is_ctl_op (op : bcl_op_t) : bool :=
  match op with
  | BCL_CREATE | BCL_OPEN | BCL_CLOSE | BCL_PUBLISH | BCL_ADMIN_RESULTS | BCL_ADMIN_CHECK | BCL_ADMIN_NEXT_ID => true
  | _ => false
  end.

(** [handle_ctl_req] (main.c). *)
Definition handle_ctl_req (date : option cstr) (req : bcl_request_t) (w : world) : option (list ascii) * world :=
  let '(resp, w1) := ballotd_dispatch req w in
  (bcl_encode_response date (cr_op req) resp CTL_MAX_FRAME, w1).

(** [handle_conn] on a received frame; [notified] is the write to
    [admin_thread]'s pipe succeeding. *)
Definition handle_conn (date : option cstr) (notified : bool) (frame : list ascii) (w : world) : option (list ascii) * world :=
  match htttp_parse_request frame with
  | HErr _ => (reply_raw date 400, w)
  | HOk http =>
    match bcl_decode_request http with
    | None => (reply_raw date 400, w)
    | Some req =>
      if negb (is_ctl_op (cr_op req)) then (reply_raw date 400, w)
      else if notified then handle_ctl_req date req w
      else (reply_raw date 500, w)
    end
  end.

End Daemon.
End Daemon.
