(* ===== verification/Frame.v ===== *)
(** * What each channel can change

    A program keeps a part of the store when no statement it may issue touches
    that part, whatever the runner answers, loses or executes late.  The voter
    channel keeps the elections; the admin channel keeps the votes. *)
From S2P Require Import Prelude CText Types Rows Sql Wire Server BrainDb Brain Htttp Codec Daemon.
Import Rows Sql Wire Server BrainDb Brain Htttp Codec Daemon.

Module Frame.

(** ** Invariants of programs *)

Definition keeps {S A} (I : S -> Prop) (m : prog S A) : Prop := forall s, I s -> I (snd (m s)).

Lemma keeps_ret {S A} (I : S -> Prop) (a : A) : keeps I (ret a).
Proof. by intros s. Qed.
Lemma keeps_throw {S A} (I : S -> Prop) e : keeps I (throw (A := A) e).
Proof. by intros s. Qed.
Lemma keeps_bind {S A B} (I : S -> Prop) (m : prog S A) (k : A -> prog S B) :
  keeps I m -> (forall a, keeps I (k a)) -> keeps I (bind m k).
Proof.
  intros Hm Hk s Hs. unfold bind. specialize (Hm s Hs). destruct (m s) as [[a|e] s']; simpl in *; [by apply Hk|done].
Qed.

Section Frame.
Context `{R : Runner} {V : Type} (view : tables -> V) (v : V).

(** A statement that does not touch the view. *)
Definition frame (s : stmt) : Prop := forall t t', run_stmt s t = Some t' -> view t' = view t.

(** On a connection; [k] is the context's own connection, left alone. *)
Definition conn_inv (k : option conn) (s : conn * world) : Prop :=
  (view (w_tables (snd s)) = v /\ forall t, c_txn (fst s) = Some t -> view t = v) /\ w_conn (snd s) = k.

Definition world_inv (w : world) : Prop :=
  view (w_tables w) = v /\ forall c t, w_conn w = Some c -> c_txn c = Some t -> view t = v.

Lemma session_exec_keeps db txn s : frame s -> view db = v -> (forall t, txn = Some t -> view t = v) ->
  let '(_, db', txn', _) := session_exec db txn s in view db' = v /\ forall t, txn' = Some t -> view t = v.
Proof.
  intros Hf Hd Ht.
  assert (Hgen : let '(_, db', txn', _) :=
     match run_stmt s (default db txn) with
     | None => (false, db, None, [])
     | Some t' => match txn with Some _ => (true, db, Some t', reply s (default db txn)) | None => (true, t', None, reply s (default db txn)) end
     end : bool * tables * option tables * list cstr in view db' = v /\ forall t, txn' = Some t -> view t = v).
  { destruct (run_stmt s (default db txn)) as [t'|] eqn:E; [|done]. apply Hf in E.
    assert (view t' = v) by (rewrite E; destruct txn; simpl; auto). destruct txn; (split; [done|]); intros ? [= <-]; done. }
  destruct s; try exact Hgen; simpl; destruct txn as [t0|]; (split; [auto|]); intros ? ?; simplify_eq; auto.
Qed.

Lemma exec_keeps k s cap : frame s -> keeps (conn_inv k) (exec_stmt s cap).
Proof.
  intros Hf [c w] [[Hd Ht] Hk]. unfold exec_stmt. cbn [fst snd] in *.
  destruct (db_socket_exec s cap c w) as [[[st body] c'] w'] eqn:E. cbn [snd]. revert E. unfold db_socket_exec.
  destruct (c_failed c); [by intros [= <- <- <- <-]|]. destruct (has_line_break (sql_text s)); [by intros [= <- <- <- <-]|].
  pose proof (session_exec_keeps (w_tables w) (c_txn c) s Hf Hd Ht) as Hs.
  change (w_tables (with_faults (tail (w_faults w)) w)) with (w_tables w).
  destruct (match w_faults w with f :: _ => f | [] => F_ok end) as [| | |late applied].
  - destruct (session_exec (w_tables w) (c_txn c) s) as [[[ok db] txn] lines]. destruct (take_reply _ _) as [[? ?] ?]. by intros [= <- <- <- <-].
  - destruct (take_reply _ _) as [[? ?] ?]. by intros [= <- <- <- <-].
  - destruct (take_reply _ _) as [[? ?] ?]. by intros [= <- <- <- <-].
  - destruct applied; [|by intros [= <- <- <- <-]].
    destruct (session_exec (w_tables w) (c_txn c) s) as [[[ok db] txn] lines]. by intros [= <- <- <- <-].
Qed.

Lemma run_keeps k s : frame s -> keeps (conn_inv k) (run s).
Proof. intros Hf. unfold run. apply keeps_bind; [by apply exec_keeps|]. intros. apply keeps_ret. Qed.
Lemma query_keeps k s : frame s -> keeps (conn_inv k) (query s).
Proof. apply exec_keeps. Qed.

(** Statements that change no table. *)
Definition is_select (s : stmt) : bool :=
  match s with
  | SetTransaction | Commit | Rollback | SelElection _ | SelElectionCarry _ | SelMaxSeq | SelOption _ | SelEligible _
  | SelBallot _ _ | SelTally _ | SelLive _ | SelLiveHash _ _ | SelNonce _ _ | SelOwner _ _ => true
  | _ => false
  end.

Lemma select_frame s : is_select s = true -> frame s.
Proof. intros H t t'. destruct s; try discriminate H; simpl; by intros [= ->]. Qed.

(** The statements each command may issue beyond selects. *)
Definition op_stmt (op : bb_db_op_t) (s : stmt) : Prop :=
  match op, s with
  | BB_DB_INSERT_ELECTION, (InsElection _ _ _ _ _ | InsOption _ _ _ | InsEligible _ _) => True
  | BB_DB_UPDATE_STATE, (DelElection _ | InsElectionState _ _ _ _ _ _) => True
  | BB_DB_APPEND_BALLOT, InsBallot _ _ _ _ _ => True
  | BB_DB_MARK_SUPERSEDED, (DelBallot _ _ | InsBallotSuperseded _ _ _ _) => True
  | BB_DB_NONCE_MARK, InsNonce _ _ => True
  | BB_DB_SET_OWNER, (DelOwner _ _ | InsOwner _ _ _ _) => True
  | _, _ => False
  end.

Definition op_frame (op : bb_db_op_t) : Prop := forall s, op_stmt op s -> frame s.

Lemma insert_options_keeps k id i opts : op_frame BB_DB_INSERT_ELECTION -> keeps (conn_inv k) (insert_options id i opts).
Proof.
  intros Hf. revert i. induction opts as [|o opts IH]; intros i; cbn [insert_options]; [apply keeps_ret|].
  case_match; [apply keeps_throw|]. apply keeps_bind; [apply run_keeps, Hf; exact I|]. intros _. apply IH.
Qed.

Lemma insert_eligible_keeps k id certs : op_frame BB_DB_INSERT_ELECTION -> keeps (conn_inv k) (insert_eligible id certs).
Proof.
  intros Hf. induction certs as [|o certs IH]; cbn [insert_eligible]; [apply keeps_ret|].
  case_match; [apply keeps_throw|]. apply keeps_bind; [apply run_keeps, Hf; exact I|]. intros _. apply IH.
Qed.

Lemma run_op_keeps k cmd has_out : op_frame (cmd_op cmd) -> keeps (conn_inv k) (run_op cmd has_out).
Proof.
  intros Hf. assert (Hq : forall s, is_select s = true -> keeps (conn_inv k) (query s)) by (intros; by apply query_keeps, select_frame).
  assert (Hr : forall s, op_stmt (cmd_op cmd) s -> keeps (conn_inv k) (run s)) by (intros; by apply run_keeps, Hf).
  unfold run_op. destruct (cmd_op cmd) eqn:Eop; unfold wrote, run_insert_election, run_update_state, run_append_ballot, run_mark_superseded,
    run_nonce_mark, run_set_owner, run_get_election, run_get_tally, run_get_hashes, run_find_hash, run_nonce_seen, run_get_prior_ballot;
    repeat first [ apply keeps_ret | apply keeps_throw | by apply Hq | by apply Hr | apply insert_options_keeps; exact Hf
                 | apply insert_eligible_keeps; exact Hf | apply keeps_bind; [|intros] | case_match ].
Qed.

(** ** Worlds *)

Lemma world_conn_None w : world_inv w -> w_conn w = None -> view (w_tables w) = v.
Proof. by intros [H _] _. Qed.

Lemma conn_inv_world c w : conn_inv None (c, w) -> world_inv w.
Proof. intros [[H1 _] H2]. cbn [snd] in *. split; [done|]. intros ? ?. by rewrite H2. Qed.

Lemma open_inv w : world_inv w -> w_conn w = None ->
  match db_socket_open w with (Some c, w1) => conn_inv None (c, w1) | (None, w1) => world_inv w1 end.
Proof.
  unfold db_socket_open. intros [H1 H2] Hn. destruct (w_opens w) as [|[] ?]; cbn [fst snd].
  1, 2: split; [by split|done]. split; [done|]. intros ? ?. cbn. by rewrite Hn.
Qed.

Lemma one_shot_keeps cmd has_out wr w : op_frame (cmd_op cmd) -> world_inv w -> w_conn w = None ->
  world_inv (snd (one_shot_attempt cmd has_out wr w)) /\ w_conn (snd (one_shot_attempt cmd has_out wr w)) = None.
Proof.
  intros Hf Hw Hn. unfold one_shot_attempt. pose proof (open_inv w Hw Hn) as Ho.
  assert (Hopen : w_conn (snd (db_socket_open w)) = None) by done.
  destruct (db_socket_open w) as [[c|] w1]; [|done]. cbn [snd] in Hopen.
  assert (Hrun : forall s, is_select s = true -> keeps (conn_inv None) (run s)) by (intros; by apply run_keeps, select_frame).
  assert (Hend : forall x : conn * world, conn_inv None x -> world_inv (snd x) /\ w_conn (snd x) = None).
  { intros [c' w'] H. split; [by eapply conn_inv_world|]. by destruct H as [_ ?]. }
  destruct wr.
  - assert (H1 : keeps (conn_inv None) (run SetTransaction ;! run_op cmd has_out)).
    { apply keeps_bind; [by apply Hrun|]. intros _. by apply run_op_keeps. }
    specialize (H1 (c, w1) Ho). destruct ((run SetTransaction ;! run_op cmd has_out) (c, w1)) as [[a|e] x] eqn:Ex. cbn [snd] in H1.
    + assert (H2 : keeps (conn_inv None) (run Commit ;! ret a)) by (apply keeps_bind; [by apply Hrun|]; intros; apply keeps_ret).
      specialize (H2 x H1). destruct ((run Commit ;! ret a) x) as [r [c2 w2]]. exact (Hend _ H2).
    + cbn [snd] in H1. assert (H2 := Hrun Rollback eq_refl x H1). destruct (run Rollback x) as [r [c2 w2]].
      destruct x as [c3 w3]. destruct e; try exact (Hend _ H2). exact (Hend _ H1).
  - pose proof (run_op_keeps None cmd has_out Hf (c, w1) Ho) as H1. destruct (run_op cmd has_out (c, w1)) as [r [c2 w2]]. exact (Hend _ H1).
Qed.

Lemma attempts_keeps n cmd has_out wr w : op_frame (cmd_op cmd) -> world_inv w -> w_conn w = None ->
  world_inv (snd (attempts n cmd has_out wr w)) /\ w_conn (snd (attempts n cmd has_out wr w)) = None.
Proof.
  intros Hf. revert w. induction n as [|n IH]; intros w Hw Hn; cbn [attempts]; [done|].
  destruct (one_shot_keeps cmd has_out wr w Hf Hw Hn) as [H1 H2].
  destruct (one_shot_attempt cmd has_out wr w) as [[a|e] w1]; [done|]. destruct e; try done. by apply IH.
Qed.

Lemma log_inv l w : world_inv w -> world_inv (bb_log l w).
Proof. done. Qed.

Lemma log_keeps l : keeps world_inv (log l).
Proof. by intros w. Qed.

Lemma db_exec_keeps cmd has_out : op_frame (cmd_op cmd) -> keeps world_inv (db_exec cmd has_out).
Proof.
  intros Hf w Hw. unfold db_exec. change (w_conn (bb_log (log_line cmd) w)) with (w_conn w).
  destruct (w_conn w) as [c|] eqn:E.
  - assert (Hc : conn_inv (Some c) (c, bb_log (log_line cmd) w)).
    { destruct Hw as [H1 H2]. split; [split; [done|]|done]. intros t Ht. by eapply H2. }
    pose proof (run_op_keeps _ cmd has_out Hf _ Hc) as H1. destruct (run_op cmd has_out _) as [r [c' w']].
    destruct H1 as [[H1 H2] _]. split; [done|]. intros c0 t [= <-] Ht. by apply H2.
  - by apply attempts_keeps.
Qed.

Lemma begin_keeps : keeps world_inv bb_db_begin.
Proof.
  intros w Hw. unfold bb_db_begin. destruct (w_conn w) as [c|] eqn:E; [done|]. pose proof (open_inv w Hw E) as Ho.
  destruct (db_socket_open w) as [[c|] w1]; [|done].
  assert (H1 := run_keeps None SetTransaction (select_frame SetTransaction eq_refl) (c, w1) Ho).
  destruct (run SetTransaction (c, w1)) as [[a|e] [c' w2]]; [|by eapply conn_inv_world].
  destruct H1 as [[H1 H2] _]. split; [done|]. intros c0 t [= <-] Ht. by apply H2.
Qed.

Lemma close_keeps s w c : is_select s = true -> w_conn w = Some c -> world_inv w ->
  world_inv (with_conn None (snd (snd (run s (c, w))))).
Proof.
  intros Hs E [H1 H2]. assert (Hc : conn_inv (Some c) (c, w)).
  { split; [split; [done|]|done]. intros t Ht. by eapply H2. }
  destruct (run_keeps _ s (select_frame s Hs) _ Hc) as [[H3 _] _]. split; [done|]. by intros ? ? ?.
Qed.

Lemma commit_keeps : keeps world_inv bb_db_commit.
Proof.
  intros w Hw. unfold bb_db_commit. destruct (w_conn w) as [c|] eqn:E; [|done].
  pose proof (close_keeps Commit w c eq_refl E Hw) as H. by destruct (run Commit (c, w)) as [r [c' w']].
Qed.

Lemma rollback_inv w : world_inv w -> world_inv (bb_db_rollback w).
Proof.
  intros Hw. unfold bb_db_rollback. destruct (w_conn w) as [c|] eqn:E; [|done].
  pose proof (close_keeps Rollback w c eq_refl E Hw) as H. by destruct (run Rollback (c, w)) as [r [c' w']].
Qed.

(** Between requests: no transaction is open. *)
Definition idle_inv (w : world) : Prop := world_inv w /\ w_conn w = None.

Lemma db_exec_idle cmd has_out : op_frame (cmd_op cmd) -> keeps idle_inv (db_exec cmd has_out).
Proof.
  intros Hf w [Hw Hn]. unfold db_exec. change (w_conn (bb_log (log_line cmd) w)) with (w_conn w). rewrite Hn. by apply attempts_keeps.
Qed.

Lemma read_frame op : op_is_write op = false -> op_frame op.
Proof. intros H s Hs. destruct op; done. Qed.

(** *** The handlers, inside a transaction or outside *)
Section Handlers.
Context (I : world -> Prop).
Hypothesis Hdb : forall cmd has_out, op_frame (cmd_op cmd) -> keeps I (db_exec cmd has_out).
Hypothesis Hlog : forall l, keeps I (log l).

Lemma read_keeps cmd has_out : op_is_write (cmd_op cmd) = false -> keeps I (db_exec cmd has_out).
Proof. intros H. by apply Hdb, read_frame. Qed.

Lemma load_keeps id : keeps I (load_election id).
Proof. unfold load_election. apply keeps_bind; [by apply read_keeps|]. intros r. case_match; [apply keeps_ret|apply keeps_throw]. Qed.

Lemma log_list_keeps tag i es : keeps I (log_list tag i es).
Proof. revert i. induction es as [|e es IH]; intros i; cbn [log_list]; [apply keeps_ret|]. apply keeps_bind; [apply Hlog|]. intros _. apply IH. Qed.

Lemma log_not_eligible_keeps tag id cert e : keeps I (log_not_eligible tag id cert e).
Proof. unfold log_not_eligible. apply keeps_bind; [apply Hlog|]. intros _. apply log_list_keeps. Qed.

Ltac walk := repeat first
  [ apply keeps_ret | apply keeps_throw | apply Hlog | apply load_keeps | apply log_not_eligible_keeps
  | apply read_keeps; reflexivity | apply keeps_bind; [|intros] | case_match ].

Lemma join_gates_keeps id cert : keeps I (join_gates id cert).
Proof. unfold join_gates, bb_verify_cert. walk. Qed.

Lemma ballot_gates_keeps id b : keeps I (ballot_gates id b).
Proof. unfold ballot_gates. walk. Qed.

Lemma ballot_writes_keeps id b i prior receipt version :
  op_frame BB_DB_APPEND_BALLOT -> op_frame BB_DB_MARK_SUPERSEDED -> op_frame BB_DB_SET_OWNER -> op_frame BB_DB_NONCE_MARK ->
  keeps I (ballot_writes id b i prior receipt version).
Proof. intros H1 H2 H3 H4. unfold ballot_writes. repeat first [ by apply Hdb | progress walk ]. Qed.

Lemma fetch_keeps id e : keeps I (fetch_results id e).
Proof. unfold fetch_results. walk. Qed.

Lemma results_keeps id cert : keeps I (bb_get_results id cert) /\ keeps I (bb_get_results_admin id).
Proof. split; unfold bb_get_results, bb_get_results_admin; repeat first [ apply fetch_keeps | progress walk ]. Qed.

Lemma lookup_keeps id hash : keeps I (bb_lookup_hash id hash).
Proof. unfold bb_lookup_hash. walk. Qed.

Lemma transition_keeps id to : op_frame BB_DB_UPDATE_STATE -> keeps I (bb_transition_state id to).
Proof. intros H. unfold bb_transition_state. repeat first [ by apply Hdb | progress walk ]. Qed.

Lemma insert_keeps cfg id : op_frame BB_DB_INSERT_ELECTION -> keeps I (insert_election cfg id).
Proof. intros H. unfold insert_election. repeat first [ by apply Hdb | progress walk ]. Qed.

Lemma join_out_keeps id cert w : I w -> I (snd (join_out id cert w)).
Proof.
  intros Hw. unfold join_out. pose proof (join_gates_keeps id cert w Hw) as H1.
  destruct (join_gates id cert w) as [[e|e] w1]; [|done].
  pose proof (read_keeps (cmd_with_cert cert (new_cmd BB_DB_GET_PRIOR_BALLOT id)) true eq_refl w1 H1) as H2.
  by destruct (db_exec _ true w1) as [[r|r] w2].
Qed.

Lemma ballot_out_keeps id b out w :
  op_frame BB_DB_APPEND_BALLOT -> op_frame BB_DB_MARK_SUPERSEDED -> op_frame BB_DB_SET_OWNER -> op_frame BB_DB_NONCE_MARK ->
  I w -> I (snd (ballot_out id b out w)).
Proof.
  intros F1 F2 F3 F4 Hw. unfold ballot_out. pose proof (ballot_gates_keeps id b w Hw) as H1.
  destruct (ballot_gates id b w) as [[[i prior]|e] w1]; [|done].
  pose proof (ballot_writes_keeps id b i prior (bb_issue_receipt b (next_ballot_version prior)) (next_ballot_version prior) F1 F2 F3 F4 w1 H1) as H2.
  by destruct (ballot_writes _ _ _ _ _ _ w1) as [r w2].
Qed.

End Handlers.

(** *** The store calls outside a transaction *)

Lemma idle_log l : keeps idle_inv (log l).
Proof. by intros w. Qed.

Lemma alloc_keeps w : idle_inv w -> idle_inv (snd (bb_alloc_id w)).
Proof.
  intros [Hw Hn]. unfold bb_alloc_id. pose proof (open_inv w Hw Hn) as Ho.
  assert (Hopen : w_conn (snd (db_socket_open w)) = None) by done.
  destruct (db_socket_open w) as [[c|] w1]; [|done].
  pose proof (exec_keeps None SelMaxSeq (Some ALLOC_BODY) (select_frame SelMaxSeq eq_refl) (c, w1) Ho) as H1. unfold exec_stmt in H1.
  destruct (db_socket_exec SelMaxSeq (Some ALLOC_BODY) c w1) as [[[st body] c'] w2]. cbn [snd] in *.
  split; [by eapply conn_inv_world|by destruct H1].
Qed.

Lemma create_keeps cfg id w : op_frame BB_DB_INSERT_ELECTION -> idle_inv w -> idle_inv (snd (bb_create_election cfg id w)).
Proof.
  intros Hf Hw. unfold bb_create_election.
  assert (Hins : forall id w, idle_inv w -> idle_inv (snd (insert_election cfg id w))).
  { intros id' w' Hw'. by apply (insert_keeps idle_inv db_exec_idle). }
  destruct (bb_validate_config cfg); try (apply (keeps_bind idle_inv (log _) _ (idle_log _)); [intros; apply keeps_throw|done]).
  destruct id as [|c id]; [pose proof (alloc_keeps w Hw) as H1; destruct (bb_alloc_id w) as [id' w1]; by apply Hins|].
  pose proof (load_keeps idle_inv db_exec_idle (c :: id) w Hw) as H1.
  destruct (load_election (c :: id) w) as [[e|e] w1]; [done|]. destruct e; try done. by apply Hins.
Qed.

Lemma commit_closes w : w_conn (snd (bb_db_commit w)) = None.
Proof. unfold bb_db_commit. destruct (w_conn w) eqn:E; [|done]. by destruct (run Commit _) as [r [c' w']]. Qed.

Lemma rollback_closes w : w_conn (bb_db_rollback w) = None.
Proof. unfold bb_db_rollback. destruct (w_conn w) eqn:E; [|done]. by destruct (run Rollback _) as [r [c' w']]. Qed.

Lemma begin_fails_idle w e w1 : idle_inv w -> bb_db_begin w = (Err e, w1) -> idle_inv w1.
Proof.
  intros [Hw Hn] E. split; [pose proof (begin_keeps w Hw) as H; by rewrite E in H|]. revert E. unfold bb_db_begin. rewrite Hn.
  pose proof (open_inv w Hw Hn) as Ho. assert (Hopen : w_conn (snd (db_socket_open w)) = None) by done.
  destruct (db_socket_open w) as [[c|] w2]; [|by intros [= <- <-]].
  assert (H1 := run_keeps None SetTransaction (select_frame SetTransaction eq_refl) (c, w2) Ho).
  destruct (run SetTransaction (c, w2)) as [[a|e'] [c' w3]]; intros [= <- <-]. by destruct H1.
Qed.

Lemma record_loop_keeps n r id b out w :
  op_frame BB_DB_APPEND_BALLOT -> op_frame BB_DB_MARK_SUPERSEDED -> op_frame BB_DB_SET_OWNER -> op_frame BB_DB_NONCE_MARK ->
  idle_inv w -> idle_inv (snd (record_loop_out n r id b out w)).
Proof.
  intros F1 F2 F3 F4. revert r out w. induction n as [|n IH]; intros r out w Hw; cbn [record_loop_out]; [done|].
  pose proof (begin_fails_idle w) as Hbf. pose proof (begin_keeps w (proj1 Hw)) as Hb.
  destruct (bb_db_begin w) as [[[]|e] w1]; [|by eapply Hbf].
  pose proof (ballot_out_keeps world_inv db_exec_keeps log_keeps id b out w1 F1 F2 F3 F4 Hb) as H1.
  destruct (ballot_out id b out w1) as [[[receipt|e] out1] w2]; cbn [snd] in H1.
  - pose proof (commit_keeps w2 H1) as H2. pose proof (commit_closes w2) as H3. destruct (bb_db_commit w2) as [[[]|e] w3]; [done|].
    destruct e; try done. by apply IH.
  - assert (H2 : idle_inv (bb_db_rollback w2)) by (split; [by apply rollback_inv|apply rollback_closes]).
    destruct e; try done. by apply IH.
Qed.

End Frame.
End Frame.
