(* ===== verification/Channels.v ===== *)
(** * The two channels of the daemon

    What the voter channel and the admin channel can and cannot do, for every
    byte sequence a peer may send and every behaviour of the store. *)
From S2P Require Import Prelude CText Types Rows Sql Wire Server BrainDb Brain Fixture Htttp Codec Daemon Frame.
Import Rows Sql Wire Server BrainDb Brain Htttp Codec Daemon Frame.

Module Channels.

Section Channels.
Context `{R : Runner}.

(** ** The out-parameter model refines the handlers *)

Lemma bind_assoc {S A B C} (m : prog S A) (f : A -> prog S B) (g : B -> prog S C) s :
  bind (bind m f) g s = bind m (fun a => bind (f a) g) s.
Proof. unfold bind. by destruct (m s) as [[a|e] s']. Qed.

Lemma bind_ext {S A B} (m : prog S A) (f g : A -> prog S B) s : (forall a s', f a s' = g a s') -> bind m f s = bind m g s.
Proof. intros H. unfold bind. destruct (m s) as [[a|e] s']; [apply H|done]. Qed.

Lemma bind_ret {S A B} (a : A) (f : A -> prog S B) s : bind (ret a) f s = f a s.
Proof. done. Qed.

Lemma record_ballot_split id b w :
  record_ballot_locked id b w =
  bind (ballot_gates id b) (fun '(i, prior) => ballot_writes id b i prior (bb_issue_receipt b (next_ballot_version prior)) (next_ballot_version prior)) w.
Proof.
  unfold record_ballot_locked, ballot_gates. rewrite bind_assoc. apply bind_ext. intros e s. destruct (el_state e); try done.
  destruct (negb (bb_check_eligibility e (bl_cert_name b))); [by rewrite bind_assoc|]. rewrite bind_assoc. apply bind_ext. intros _ s1.
  destruct (_ || _); [done|]. rewrite bind_assoc. apply bind_ext. intros seen s2. destruct (res_found seen); [done|].
  rewrite bind_assoc. apply bind_ext. intros prior s3. done.
Qed.

Lemma ballot_out_refines id b out w :
  let '(r, out', w') := ballot_out id b out w in
  record_ballot_locked id b w = (r, w') /\ (forall receipt, r = Ok receipt -> out' = receipt).
Proof.
  rewrite record_ballot_split. unfold ballot_out, bind at 1. destruct (ballot_gates id b w) as [[[i prior]|e] w1]; [|done].
  assert (Hr : forall rc v s rc', fst (ballot_writes id b i prior rc v s) = Ok rc' -> rc = rc').
  { intros rc ver s rc'. unfold ballot_writes, bind, ret. repeat case_match; simpl; congruence. }
  specialize (Hr (bb_issue_receipt b (next_ballot_version prior)) (next_ballot_version prior) w1).
  destruct (ballot_writes _ _ _ _ _ _ w1) as [r w2]. split; [done|]. intros rc E. by apply Hr.
Qed.

Lemma record_loop_refines n r id b out w :
  (forall receipt, r = Ok receipt -> out = receipt) ->
  let '(r', out', w') := record_loop_out n r id b out w in
  record_loop n r id b w = (r', w') /\ (forall receipt, r' = Ok receipt -> out' = receipt).
Proof.
  revert r out w. induction n as [|n IH]; intros r out w Hr; cbn [record_loop_out record_loop]; [done|].
  destruct (bb_db_begin w) as [[[]|e] w1]; [|done].
  pose proof (ballot_out_refines id b out w1) as H. destruct (ballot_out id b out w1) as [[r1 out1] w2]. destruct H as [-> Ho].
  destruct r1 as [receipt|e].
  - destruct (bb_db_commit w2) as [[[]|e] w3]; [split; [done|]; intros rc [= <-]; by apply Ho|]. destruct e; try done. by apply IH.
  - destruct e; try done. by apply IH.
Qed.

Lemma record_out_refines id b w :
  let '(st, out, w') := record_out id b w in
  exists r, bb_record_ballot id b w = (r, w') /\ st = code_of r /\ (forall receipt, r = Ok receipt -> out = receipt).
Proof.
  unfold record_out, bb_record_ballot.
  pose proof (record_loop_refines BB_TXN_ATTEMPTS (Err BB_ERR_DB) id b zero_receipt (bb_write_lock w)) as H.
  destruct (record_loop_out _ _ id b _ _) as [[r out] w1]. destruct H as [-> Ho]; [done|]. by exists r.
Qed.

Lemma join_out_refines id cert w :
  let '(st, e, has, version, w') := join_out id cert w in
  exists r, bb_join id cert w = (r, w') /\ st = code_of r /\
    (forall e' f ver, r = Ok (e', f, ver) -> e = e' /\ has = (if f then 1 else 0)%Z /\ version = ver).
Proof.
  assert (E : bb_join id cert w = bind (join_gates id cert) (fun election =>
     let! prior := db_exec (cmd_with_cert cert (new_cmd BB_DB_GET_PRIOR_BALLOT id)) true in
     ret (election, res_found prior, if res_found prior then bh_version (res_row prior) else 0%Z)) w).
  { unfold bb_join, join_gates. rewrite bind_assoc. apply bind_ext. intros e s. rewrite bind_assoc. apply bind_ext. intros st s1.
    destruct st; try done. destruct (negb _); [by rewrite bind_assoc|]. destruct (negb _); [by rewrite bind_assoc|]. done. }
  rewrite E. unfold join_out, bind at 1. destruct (join_gates id cert w) as [[e|e] w1]; [|by exists (Err e)].
  unfold bind. destruct (db_exec _ true w1) as [[prior|er] w2].
  - eexists. split; [done|]. split; [done|]. intros e' f ver [= <- <- <-]. done.
  - exists (Err er). done.
Qed.

(** ** Which tables a channel can touch *)

(** What makes an election: its row, its options, its voters. *)
Definition elections_of (t : tables) := (t_election t, t_option t, t_eligible t).
(** What makes its votes. *)
Definition votes_of (t : tables) := (t_ballot t, t_owner t, t_nonce t).

Lemma vote_ops_frame op :
  match op with BB_DB_INSERT_ELECTION | BB_DB_UPDATE_STATE => True | _ => op_frame elections_of op end.
Proof.
  destruct op; try exact I; intros s Hs t t'; destruct s; try destruct Hs; cbn [run_stmt];
    repeat match goal with |- context [mbind _ ?m] => destruct m; cbn [mbind option_bind] end; by intros [= <-].
Qed.

Lemma election_ops_frame : op_frame votes_of BB_DB_INSERT_ELECTION /\ op_frame votes_of BB_DB_UPDATE_STATE.
Proof.
  split; intros s Hs t t'; destruct s; try destruct Hs; cbn [run_stmt];
    repeat match goal with |- context [mbind _ ?m] => destruct m; cbn [mbind option_bind] end; by intros [= <-].
Qed.

Lemma reads_keep {V} (view : tables -> V) v req w : idle_inv view v w ->
  match cr_op req with BCL_CAST | BCL_UPDATE | BCL_CREATE | BCL_OPEN | BCL_CLOSE | BCL_PUBLISH => False | _ => True end ->
  idle_inv view v (snd (ballotd_dispatch req w)).
Proof.
  intros Hw Hop. unfold ballotd_dispatch.
  destruct (results_keeps view (idle_inv view v) (db_exec_idle view v) (cr_election_id req) (cr_cert_name req)) as [Hr1 Hr2].
  pose proof (lookup_keeps view (idle_inv view v) (db_exec_idle view v) (cr_election_id req) (cr_hash req) w Hw) as Hl.
  destruct (cr_op req); try destruct Hop.
  - pose proof (join_out_keeps view (idle_inv view v) (db_exec_idle view v) (idle_log view v) (cr_election_id req) (cr_cert_name req) w Hw) as H.
    by destruct (join_out _ _ w) as [[[[? ?] ?] ?] ?].
  - specialize (Hr1 w Hw). by destruct (bb_get_results _ _ w).
  - by destruct (bb_lookup_hash _ _ w) as [[[? ?]|?] ?].
  - specialize (Hr2 w Hw). by destruct (bb_get_results_admin _ w).
  - by destruct (bb_lookup_hash _ _ w) as [[[? ?]|?] ?].
  - pose proof (alloc_keeps view v w Hw) as H. by destruct (bb_alloc_id w).
Qed.

Lemma voter_dispatch_keeps v req w : is_voter_op (cr_op req) = true -> idle_inv elections_of v w ->
  idle_inv elections_of v (snd (ballotd_dispatch req w)).
Proof.
  intros Hop Hw. destruct (decide (cr_op req = BCL_CAST \/ cr_op req = BCL_UPDATE)) as [Hc|Hc].
  2: { apply reads_keep; [done|]. destruct (cr_op req); try done; tauto. }
  assert (E : ballotd_dispatch req w = let '(st, receipt, w1) := record_out (cr_election_id req) (cr_ballot req) w in (set_receipt receipt (answer_status st), w1))
    by (unfold ballotd_dispatch; by destruct Hc as [-> | ->]).
  rewrite E. unfold record_out.
  pose proof (record_loop_keeps elections_of v BB_TXN_ATTEMPTS (Err BB_ERR_DB) (cr_election_id req) (cr_ballot req) zero_receipt (bb_write_lock w)
    (vote_ops_frame BB_DB_APPEND_BALLOT) (vote_ops_frame BB_DB_MARK_SUPERSEDED) (vote_ops_frame BB_DB_SET_OWNER) (vote_ops_frame BB_DB_NONCE_MARK) Hw) as H.
  by destruct (record_loop_out _ _ _ _ _ _) as [[r out] w1].
Qed.

Lemma admin_dispatch_keeps v req w : is_ctl_op (cr_op req) = true -> idle_inv votes_of v w ->
  idle_inv votes_of v (snd (ballotd_dispatch req w)).
Proof.
  intros Hop Hw. destruct election_ops_frame as [Hi Hu].
  assert (Htr : forall to, idle_inv votes_of v (snd (bb_transition_state (cr_election_id req) to w))).
  { intros to. by apply (transition_keeps votes_of (idle_inv votes_of v) (db_exec_idle votes_of v) (idle_log votes_of v)). }
  destruct (cr_op req) eqn:Eop; try discriminate Hop; try (apply reads_keep; [done|by rewrite Eop]); unfold ballotd_dispatch; rewrite Eop.
  - pose proof (create_keeps votes_of v (cr_config req) (cr_election_id req) w Hi Hw) as H. by destruct (bb_create_election _ _ w) as [[?|?] ?].
  - specialize (Htr BB_STATE_OPEN). by destruct (bb_transition_state _ _ w).
  - specialize (Htr BB_STATE_CLOSED). by destruct (bb_transition_state _ _ w).
  - specialize (Htr BB_STATE_PUBLISHED). unfold bb_publish_results. by destruct (bb_transition_state _ _ w).
Qed.

Lemma voter_request_keeps v date link name buf w : idle_inv elections_of v w ->
  idle_inv elections_of v (snd (handle_request date link name buf w)).
Proof.
  intros Hw. unfold handle_request. destruct (htttp_parse_request buf) as [http|]; [|done].
  destruct (bcl_decode_request http) as [req|]; [|done]. destruct (is_voter_op (cr_op req)) eqn:Eop; [|done]. cbn [negb].
  pose proof (voter_dispatch_keeps v (set_identity name req) w Eop Hw) as H.
  destruct link; [|done|]; by destruct (ballotd_dispatch _ w).
Qed.

Lemma admin_request_keeps v date notified frame w : idle_inv votes_of v w -> idle_inv votes_of v (snd (handle_conn date notified frame w)).
Proof.
  intros Hw. unfold handle_conn. destruct (htttp_parse_request frame) as [http|]; [|done].
  destruct (bcl_decode_request http) as [req|]; [|done]. destruct (is_ctl_op (cr_op req)) eqn:Eop; [|done]. cbn [negb].
  destruct notified; [|done]. unfold handle_ctl_req. pose proof (admin_dispatch_keeps v req w Eop Hw) as H. by destruct (ballotd_dispatch _ w).
Qed.

(** Every frame of a session, in order. *)
Definition voter_session (date : option cstr) (name : cstr) (frames : list (admin_link * list ascii)) (w : world) : world :=
  foldl (fun w '(link, buf) => snd (handle_request date link name buf w)) w frames.

Definition admin_session (date : option cstr) (frames : list (bool * list ascii)) (w : world) : world :=
  foldl (fun w '(notified, frame) => snd (handle_conn date notified frame w)) w frames.

(** C35: a voter can only vote.  Whatever frames a client sends on the voter
    channel, well-formed or not, and whatever the store does (faults, retries,
    lost or late statements, rows that read like markers), no election is
    created, edited, opened, closed or published, no option or voter list
    changes, and no transaction is left open. *)
Theorem voter_channel_keeps_elections date name frames w : w_conn w = None ->
  elections_of (w_tables (voter_session date name frames w)) = elections_of (w_tables w) /\
  w_conn (voter_session date name frames w) = None.
Proof.
  intros Hn. assert (Hw : idle_inv elections_of (elections_of (w_tables w)) w) by (split; [split; [done|by rewrite Hn]|done]).
  revert Hw. generalize (elections_of (w_tables w)) as v. intros v. unfold voter_session. clear Hn. revert w.
  induction frames as [|[link buf] frames IH]; intros w Hw; cbn [foldl]; [by destruct Hw as [[? _] ?]|].
  apply IH. by apply voter_request_keeps.
Qed.

(** C36: an administrator cannot vote.  Whatever frames arrive on the admin
    socket and whatever the store does, no ballot, no ownership record and no
    spent nonce is added, changed or removed. *)
Theorem admin_channel_keeps_votes date frames w : w_conn w = None ->
  votes_of (w_tables (admin_session date frames w)) = votes_of (w_tables w) /\
  w_conn (admin_session date frames w) = None.
Proof.
  intros Hn. assert (Hw : idle_inv votes_of (votes_of (w_tables w)) w) by (split; [split; [done|by rewrite Hn]|done]).
  revert Hw. generalize (votes_of (w_tables w)) as v. intros v. unfold admin_session. clear Hn. revert w.
  induction frames as [|[notified frame] frames IH]; intros w Hw; cbn [foldl]; [by destruct Hw as [[? _] ?]|].
  apply IH. by apply admin_request_keeps.
Qed.

(** ** Identity *)

Definition decoded (buf : list ascii) : option bcl_request_t :=
  match htttp_parse_request buf with HOk http => bcl_decode_request http | HErr _ => None end.

(** A request without the names the client put into it. *)
Definition anon (req : bcl_request_t) : bcl_request_t := set_identity [] req.

Lemma set_identity_anon name req : set_identity name req = set_identity name (anon req).
Proof. done. Qed.

(** A voter cannot speak for another.  On a session authenticated as
    [name], the answer and the effect of a frame are the same whatever name
    the frame itself claims: two frames that decode to the same request up to
    their names are served alike, under [name]. *)
Theorem claimed_name_is_ignored date link name buf buf' w :
  option_map anon (decoded buf) = option_map anon (decoded buf') ->
  handle_request date link name buf w = handle_request date link name buf' w.
Proof.
  unfold decoded, handle_request.
  intros H. destruct (htttp_parse_request buf) as [h|e], (htttp_parse_request buf') as [h'|e']; try done;
    try destruct (bcl_decode_request h) as [r|]; try destruct (bcl_decode_request h') as [r'|]; try discriminate H; try done.
  assert (Ea : anon r = anon r') by (apply (inj Some); exact H). rewrite (set_identity_anon name r), (set_identity_anon name r'), Ea.
  assert (Eop : cr_op r = cr_op r') by exact (f_equal cr_op Ea). by rewrite Eop.
Qed.

(** ** The dispatcher *)

(** The handler's result is what the response reports. *)
Definition reports (req : bcl_request_t) (w : world) (resp : bcl_response_t) (w' : world) : Prop :=
  let id := cr_election_id req in
  match cr_op req with
  | BCL_CREATE => exists r, bb_create_election (cr_config req) id w = (r, w') /\ cp_status resp = code_of r /\
      forall x, r = Ok x -> el_id (cp_election resp) = trunc BB_ID_LEN x
  | BCL_ADMIN_NEXT_ID => exists x, bb_alloc_id w = (x, w') /\ cp_status resp = BB_OK /\ el_id (cp_election resp) = trunc BB_ID_LEN x
  | BCL_OPEN => exists r, bb_transition_state id BB_STATE_OPEN w = (r, w') /\ cp_status resp = code_of r
  | BCL_CLOSE => exists r, bb_transition_state id BB_STATE_CLOSED w = (r, w') /\ cp_status resp = code_of r
  | BCL_PUBLISH => exists r, bb_transition_state id BB_STATE_PUBLISHED w = (r, w') /\ cp_status resp = code_of r
  | BCL_JOIN => exists r, bb_join id (cr_cert_name req) w = (r, w') /\ cp_status resp = code_of r /\
      forall e f ver, r = Ok (e, f, ver) ->
        cp_election resp = e /\ cp_has_prior_ballot resp = (if f then 1 else 0)%Z /\ cp_prior_ballot_version resp = ver
  | BCL_CAST | BCL_UPDATE => exists r, bb_record_ballot id (cr_ballot req) w = (r, w') /\ cp_status resp = code_of r /\
      forall receipt, r = Ok receipt -> cp_receipt resp = receipt
  | BCL_RESULTS => exists r, bb_get_results id (cr_cert_name req) w = (r, w') /\ cp_status resp = code_of r /\
      forall x, r = Ok x -> cp_tally resp = rs_tally x /\ cp_option_count resp = rs_option_count x /\ cp_options resp = rs_options x /\
        cp_hashes resp = rs_hashes x /\ cp_hash_count resp = rs_hash_count x
  | BCL_ADMIN_RESULTS => exists r, bb_get_results_admin id w = (r, w') /\ cp_status resp = code_of r /\
      forall x, r = Ok x -> cp_tally resp = rs_tally x /\ cp_option_count resp = rs_option_count x /\ cp_options resp = rs_options x /\
        cp_hashes resp = rs_hashes x /\ cp_hash_count resp = rs_hash_count x
  | BCL_CHECK | BCL_ADMIN_CHECK => exists r, bb_lookup_hash id (cr_hash req) w = (r, w') /\ cp_status resp = code_of r /\
      cp_found resp = (match r with Ok _ => 1 | Err _ => 0 end)%Z /\
      forall row name, r = Ok (row, name) -> cp_found_option resp = bh_option_index row /\ cp_found_option_name resp = name
  end.

(** The dispatcher refines the handlers.  Every operation is exactly one
    handler call with the request's own arguments; the response's status is
    that call's code and, on success, its fields are the call's results. *)
Theorem dispatch_reports_handler req w : reports req w (fst (ballotd_dispatch req w)) (snd (ballotd_dispatch req w)).
Proof.
  unfold reports, ballotd_dispatch. pose proof (record_out_refines (cr_election_id req) (cr_ballot req) w) as Hrec.
  pose proof (join_out_refines (cr_election_id req) (cr_cert_name req) w) as Hjoin.
  destruct (cr_op req).
  - destruct (join_out _ _ w) as [[[[st e] has] ver] w1]. destruct Hjoin as (r & -> & -> & Ho). exists r. split; [done|]. split; [done|].
    intros e' f v' Er. by destruct (Ho _ _ _ Er) as (-> & -> & ->).
  - destruct (record_out _ _ w) as [[st out] w1]. destruct Hrec as (r & -> & -> & Ho). exists r. split; [done|]. split; [done|]. exact Ho.
  - destruct (record_out _ _ w) as [[st out] w1]. destruct Hrec as (r & -> & -> & Ho). exists r. split; [done|]. split; [done|]. exact Ho.
  - destruct (bb_get_results _ _ w) as [r w1]. exists r. by destruct r; (split; [done|split; [done|]]); [intros ? [= <-]|].
  - destruct (bb_lookup_hash _ _ w) as [[[row name]|e] w1]; eexists; (split; [done|]); (split; [done|]); (split; [done|]); [intros ? ? [= <- <-]; done|done].
  - destruct (bb_create_election _ _ w) as [[x|e] w1]; eexists; (split; [done|]); (split; [done|]); [intros ? [= <-]; done|done].
  - destruct (bb_transition_state _ _ w) as [r w1]. by exists r.
  - destruct (bb_transition_state _ _ w) as [r w1]. by exists r.
  - unfold bb_publish_results. destruct (bb_transition_state _ _ w) as [r w1]. by exists r.
  - destruct (bb_get_results_admin _ w) as [r w1]. exists r. by destruct r; (split; [done|split; [done|]]); [intros ? [= <-]|].
  - destruct (bb_lookup_hash _ _ w) as [[[row name]|e] w1]; eexists; (split; [done|]); (split; [done|]); (split; [done|]); [intros ? ? [= <- <-]; done|done].
  - destruct (bb_alloc_id w) as [x w1]. by exists x.
Qed.

End Channels.

(** ** On a concrete store *)
Import Fixture.

Definition sent (req : bcl_request_t) : list ascii := default [] (bcl_encode_request req SESSION_MAX_FRAME).

Definition cast_as (cert : cstr) : bcl_request_t :=
  mkReq BCL_CAST cert ($"E-100") (ballot cert ($"n1") "001") [] zero_config.

Definition now : option cstr := Some ($"Thu, 01 Jan 2026 00:00:00 GMT").
Definition polls : world := opened [$"ann"; $"bob"].

Lemma voter_channel_keeps_elections_witness :
  elections_of (w_tables (voter_session now ($"ann") [(Alive, $"junk"); (Alive, sent (cast_as ($"bob")))] polls)) = elections_of (w_tables polls).
Proof. refine (proj1 (voter_channel_keeps_elections now ($"ann") _ polls _)). vm_compute. reflexivity. Defined.

Lemma admin_channel_keeps_votes_witness :
  votes_of (w_tables (admin_session now [(true, sent (mkReq BCL_CLOSE [] ($"E-100") zero_ballot [] zero_config))] polls)) = votes_of (w_tables polls).
Proof. refine (proj1 (admin_channel_keeps_votes now _ polls _)). vm_compute. reflexivity. Defined.

Lemma claimed_name_is_ignored_witness :
  handle_request now Alive ($"ann") (sent (cast_as ($"ann"))) polls = handle_request now Alive ($"ann") (sent (cast_as ($"bob"))) polls.
Proof. apply claimed_name_is_ignored. vm_compute. reflexivity. Defined.

(** A refused vote can come with a receipt.  When the store fails the
    commit, nothing is recorded and the status is [BB_ERR_DB], but the
    receipt of the ballot is already in the response and is sent with it;
    codec.c says a failed request's response is just the status line. *)
Theorem failed_cast_carries_receipt :
  let '(resp, w') := ballotd_dispatch (cast_as ($"ann")) (with_faults (replicate 10 F_ok ++ [F_error]) polls) in
  cp_status resp = BB_ERR_DB /\ w_tables w' = w_tables polls /\ length (rc_hash (cp_receipt resp)) = 64 /\
  Forall (fun t => t <> []) (response_texts BCL_CAST resp) /\ length (response_texts BCL_CAST resp) = 2.
Proof.
  destruct (ballotd_dispatch _ _) as [resp w'] eqn:E. vm_compute in E. injection E as <- <-.
  split; [reflexivity|]. split; [vm_compute; reflexivity|]. split; [reflexivity|]. split; [|reflexivity].
  repeat (apply Forall_cons_2; [discriminate|]). apply Forall_nil_2.
Qed.

(** A vote the store aborts once, at the opening statement, gets no
    answer at all: [bb_record_ballot] returns [BB_ERR_RETRY], which has no
    name in the codec, so the encoder refuses and the session sends nothing;
    the client waits on a frame that never comes. *)
Theorem aborted_vote_gets_no_answer :
  fst (handle_request now Alive ($"ann") (sent (cast_as ($"ann"))) polls) <> None /\
  fst (handle_request now Alive ($"ann") (sent (cast_as ($"ann"))) (with_faults [F_retry] polls)) = None.
Proof. split; [vm_compute; discriminate|vm_compute; reflexivity]. Qed.

End Channels.
