(* ===== verification/Client.v ===== *)
(** * The clients: libballotclient/voter.c, voter_crypto.c, admin.c, transport.c
    and libtetrisutil/name.c

    The voter's decision rules and session flows, the administrator's request
    builders, the player-name rule, and the send path over an open session.
    What the network does with a frame is a parameter. *)
From S2P Require Import Prelude CText Types Rows Sql Wire Server BrainDb Brain Htttp Codec Daemon.
Import Htttp Codec.

Module Client.

(** ** voter.h *)

Record bu_session_t := mkSession {
  us_cert_name : cstr;
  us_joined : Z;
  us_election_id : cstr;
  us_has_ballot : Z;
  us_ballot_version : Z;
  us_my_hash : cstr;
  us_title : cstr;
  us_options : list cstr;
  us_option_count : Z }.

Inductive bu_vote_action_t := BU_MUST_JOIN | BU_CAST | BU_UPDATE.
Inductive bu_join_outcome_t := BU_JOIN_TIMEOUT | BU_JOIN_NOT_FOUND | BU_JOIN_NOT_ELIGIBLE | BU_JOIN_NOT_OPEN | BU_JOIN_ADMITTED.
Inductive bu_check_outcome_t := BU_CHECK_COUNTED | BU_CHECK_DROPPED | BU_CHECK_UNAVAILABLE.

(** ** Decisions (voter.c) *)

Definition bu_route_vote (s : bu_session_t) : bu_vote_action_t :=
  if (us_joined s =? 0)%Z then BU_MUST_JOIN
  else if (us_has_ballot s =? 0)%Z then BU_CAST
  else BU_UPDATE.

Definition bu_classify_join (status : bb_result_t) (election : bb_election_t) : bu_join_outcome_t :=
  match status with
  | BB_ERR_NOT_FOUND => BU_JOIN_NOT_FOUND
  | BB_ERR_NOT_ELIGIBLE | BB_ERR_CERT_INVALID | BB_ERR_CERT_EXPIRED => BU_JOIN_NOT_ELIGIBLE
  | BB_ERR_NOT_OPEN => BU_JOIN_NOT_OPEN
  | BB_OK => if bool_decide (el_state election = BB_STATE_OPEN) then BU_JOIN_ADMITTED else BU_JOIN_NOT_OPEN
  | _ => BU_JOIN_TIMEOUT
  end.

Definition bu_classify_check (status : bb_result_t) (found : Z) : bu_check_outcome_t :=
  match status with
  | BB_OK => if (found =? 0)%Z then BU_CHECK_DROPPED else BU_CHECK_COUNTED
  | BB_ERR_NOT_FOUND => BU_CHECK_DROPPED
  | _ => BU_CHECK_UNAVAILABLE
  end.

(** ** The placeholder crypto (voter_crypto.c) *)

Definition bu_encrypt_ballot (option_index : Z) (nonce : cstr) : res bb_ballot_t :=
  if ((option_index <? 0)%Z || (255 <? option_index)%Z) then Err BB_ERR_BAD_OPTION
  else Ok (mkBallot [] (trunc BB_NONCE_LEN nonce)
             (<[0%nat := ascii_of_N (Z.to_N (u8 option_index))]> (bl_payload zero_ballot)) 1).

Definition bu_derive_receipt (secret_key : cstr) : cstr := Brain.hash_from_seed (Brain.fold secret_key).

(** ** The send path (transport.c) *)

(** What a frame meets: [session_send] fails, [session_recv] fails ([fatal]:
    the stream is gone), or an answer arrives. *)
Inductive exchange := SendFails | RecvFails (fatal : bool) | Answered (bytes : list ascii).

Definition is_admin_op (op : bcl_op_t) : bool :=
  match op with
  | BCL_CREATE | BCL_OPEN | BCL_CLOSE | BCL_PUBLISH | BCL_ADMIN_RESULTS | BCL_ADMIN_CHECK | BCL_ADMIN_NEXT_ID => true
  | _ => false
  end.

(** The return code, [*resp] (zeroed by [bcl_send]) and [connected] behind
    it. *)
Definition send_via_session (net : list ascii -> exchange) (connected : bool) (req : bcl_request_t)
    : bb_result_t * bcl_response_t * bool :=
  if negb connected then (BB_ERR_DB, zero_resp, connected)
  else match bcl_encode_request req Daemon.SESSION_MAX_FRAME with
  | None => (BB_ERR_DB, zero_resp, connected)
  | Some wire =>
    match net wire with
    | SendFails => (BB_ERR_DB, zero_resp, false)
    | RecvFails fatal => (BB_ERR_DB, zero_resp, negb fatal)
    | Answered rbuf =>
      match htttp_parse_response rbuf with
      | HErr _ => (BB_ERR_DB, zero_resp, connected)
      | HOk http =>
        let '(resp, ok) := bcl_decode_response http in
        if ok then (cp_status resp, resp, connected) else (BB_ERR_DB, resp, connected)
      end
    end
  end.

(** ** Session flows (voter.c) *)

Definition join_request (election_id cert_name : cstr) : bcl_request_t :=
  mkReq BCL_JOIN (trunc BB_CERT_LEN cert_name) (trunc BB_ID_LEN election_id) zero_ballot [] zero_config.

(** [send] is [bcl_send]. *)
Definition bu_join (send : bcl_request_t -> bb_result_t * bcl_response_t) (s : bu_session_t) (election_id cert_name : cstr)
    : bu_join_outcome_t * bu_session_t :=
  let '(rc, resp) := send (join_request election_id cert_name) in
  let status := match rc with BB_OK => cp_status resp | _ => rc end in
  let e := cp_election resp in
  let outcome := bu_classify_join status e in
  (outcome,
   match outcome with
   | BU_JOIN_ADMITTED =>
     mkSession (trunc BB_CERT_LEN (trunc BB_CERT_LEN cert_name)) 1 (trunc BB_ID_LEN (trunc BB_ID_LEN election_id))
       (cp_has_prior_ballot resp) (cp_prior_ballot_version resp) [] (trunc BB_TITLE_LEN (el_title e)) (el_options e) (el_option_count e)
   | BU_JOIN_NOT_OPEN =>
     mkSession (us_cert_name s) 0 (trunc BB_ID_LEN (trunc BB_ID_LEN election_id)) (us_has_ballot s) (us_ballot_version s)
       (us_my_hash s) (us_title s) (us_options s) (us_option_count s)
   | _ => s
   end).

Definition vote_request (s : bu_session_t) (b : bb_ballot_t) : bcl_request_t :=
  mkReq (match bu_route_vote s with BU_UPDATE => BCL_UPDATE | _ => BCL_CAST end)
    (trunc BB_CERT_LEN (us_cert_name s)) (trunc BB_ID_LEN (us_election_id s))
    (mkBallot (trunc BB_CERT_LEN (us_cert_name s)) (bl_nonce b) (bl_payload b) (bl_payload_len b)) [] zero_config.

(** The code, the session behind it and [*out] where it is written. *)
Definition bu_submit_vote (send : bcl_request_t -> bb_result_t * bcl_response_t) (s : bu_session_t) (option_index : Z) (nonce : cstr)
    : bb_result_t * bu_session_t * option bb_receipt_t :=
  match bu_route_vote s with
  | BU_MUST_JOIN => (BB_ERR_NOT_JOINED, s, None)
  | _ =>
    match bu_encrypt_ballot option_index nonce with
    | Err e => (e, s, None)
    | Ok b =>
      let '(rc, resp) := send (vote_request s b) in
      match (match rc with BB_OK => cp_status resp | _ => rc end) with
      | BB_OK =>
        (BB_OK, mkSession (us_cert_name s) (us_joined s) (us_election_id s) 1 (i32 (us_ballot_version s + 1))
                  (trunc BB_HASH_LEN (rc_hash (cp_receipt resp))) (us_title s) (us_options s) (us_option_count s),
         Some (cp_receipt resp))
      | status => (status, s, None)
      end
    end
  end.

(** [bu_submit_vote] over a state of the world [W]: the hook of
    [bu_set_before_submit] runs when the ballot is sealed and before it is sent. *)
Section Hook.
Context {W : Type} (before_submit : option (W -> W)) (send : bcl_request_t -> W -> bb_result_t * bcl_response_t * W).

Definition bu_submit_vote_hooked (s : bu_session_t) (option_index : Z) (nonce : cstr) (w : W) : bb_result_t * bu_session_t * option bb_receipt_t * W :=
  match bu_route_vote s with
  | BU_MUST_JOIN => (BB_ERR_NOT_JOINED, s, None, w)
  | _ =>
    match bu_encrypt_ballot option_index nonce with
    | Err e => (e, s, None, w)
    | Ok b =>
      let w := match before_submit with Some hook => hook w | None => w end in
      let '(rc, resp, w) := send (vote_request s b) w in
      match (match rc with BB_OK => cp_status resp | _ => rc end) with
      | BB_OK =>
        (BB_OK, mkSession (us_cert_name s) (us_joined s) (us_election_id s) 1 (i32 (us_ballot_version s + 1))
                  (trunc BB_HASH_LEN (rc_hash (cp_receipt resp))) (us_title s) (us_options s) (us_option_count s),
         Some (cp_receipt resp), w)
      | status => (status, s, None, w)
      end
    end
  end.

(** With a hook a submission is one in the world the hook left: whatever
    happens between the sealing and the sending, what the voter is told is the
    answer to the request as it meets that world. *)
Lemma hooked_submit s option_index nonce w :
  let w1 := match before_submit with Some hook => hook w | None => w end in
  fst (bu_submit_vote_hooked s option_index nonce w) = bu_submit_vote (fun req => fst (send req w1)) s option_index nonce
  /\ (snd (bu_submit_vote_hooked s option_index nonce w) = w \/ exists req, snd (bu_submit_vote_hooked s option_index nonce w) = snd (send req w1)).
Proof.
  cbn zeta. unfold bu_submit_vote_hooked, bu_submit_vote. destruct (bu_route_vote s); [by split; [|left]|..];
    (destruct (bu_encrypt_ballot option_index nonce) as [b|x]; [|by split; [|left]]);
    destruct (send (vote_request s b) _) as [[rc resp] w'] eqn:E; cbn [fst];
    (split; [destruct rc; try done; by destruct (cp_status resp)|right; exists (vote_request s b); rewrite E; destruct rc; try done; by destruct (cp_status resp)]).
Qed.

End Hook.

(** ** name.c *)

Definition USER_NAME_MAX : nat := 15.

Definition user_name_char_ok (c : ascii) : bool :=
  (((97 <=? code c) && (code c <=? 122)) || ((65 <=? code c) && (code c <=? 90)) ||
   ((48 <=? code c) && (code c <=? 57)) || ceqb c "_" || ceqb c "-")%Z.

Definition user_name_ok (s : cstr) : bool :=
  (1 <=? length s)%nat && (length s <=? USER_NAME_MAX)%nat && forallb user_name_char_ok s.

Definition fold_char (c : ascii) : ascii :=
  if ((65 <=? code c)%Z && (code c <=? 90)%Z) then ascii_of_N (Z.to_N (code c - 65 + 97)) else c.

Definition user_name_fold (cap : nat) (s : cstr) : option cstr :=
  if (cap <? S USER_NAME_MAX)%nat || negb (user_name_ok s) then None else Some (map fold_char s).

(** ** admin.c *)

Definition bc_prevalidate_config (config : bb_config_t) : bb_result_t := Brain.bb_validate_config config.

Definition bc_build_create (config : bb_config_t) : res bcl_request_t :=
  match bc_prevalidate_config config with
  | BB_OK => Ok (mkReq BCL_CREATE [] [] zero_ballot [] config)
  | vr => Err vr
  end.

(** The folding loop: the list as rewritten, or the entries folded so far and
    the offending one. *)
Fixpoint fold_names (out : list cstr) : list cstr * option cstr :=
  match out with
  | [] => ([], None)
  | n :: out' =>
    match (if user_name_ok n then user_name_fold BB_CERT_LEN n else None) with
    | None => (out, Some n)
    | Some folded =>
      let '(rest, bad) := fold_names out' in (trunc BB_CERT_LEN folded :: rest, bad)
    end
  end.

(** The compaction loop: [kept] are the entries in front. *)
Fixpoint drop_dups (kept out : list cstr) : list cstr :=
  match out with
  | [] => kept
  | n :: out' => if existsb (fun k => streq k n) kept then drop_dups kept out' else drop_dups (kept ++ [trunc BB_CERT_LEN n]) out'
  end.

(** The entries in use on return (inr: -1 and the entry reported). *)
Definition bc_fold_eligible (out : list cstr) : list cstr + cstr :=
  match fold_names out with
  | (_, Some bad) => inr bad
  | (folded, None) => inl (drop_dups [] folded)
  end.

Definition bc_build_transition (op : bcl_op_t) (election_id : cstr) : res bcl_request_t :=
  match op with
  | BCL_OPEN | BCL_CLOSE | BCL_PUBLISH => Ok (mkReq op [] (trunc BB_ID_LEN election_id) zero_ballot [] zero_config)
  | _ => Err BB_ERR_ILLEGAL_TRANSITION
  end.

End Client.
