(* ===== verification/EndToEnd.v ===== *)
(** * From the voter's key press to the ballot box

    The client's flow, the codec in both directions, the session process, the
    dispatcher and the handler composed: what a voter submits is what the
    store records under the authenticated name, and what the store answers is
    what the voter is told. *)
From S2P Require Import Prelude CText Types Rows Sql Wire Server BrainDb Brain Fixture Store Record Htttp Codec CodecLogic Delivery Answers Daemon Frame Channels Client.
Import Server BrainDb Brain Htttp Codec CodecLogic Delivery Answers Daemon Client.

Module EndToEnd.

(** ** Receipts as text *)

Lemma hex_not_special c : Store.hex_char c = true -> c <> NUL /\ c <> CR /\ c <> LF.
Proof. intros H. repeat split; intros ->; discriminate H. Qed.

(** What [*out] can hold: nothing, or a receipt of this ballot. *)
Definition issued_or_zero (b : bb_ballot_t) (rc : bb_receipt_t) : Prop :=
  rc = zero_receipt \/ exists v, rc = bb_issue_receipt b v.

Lemma receipt_fits b rc : issued_or_zero b rc ->
  held BB_HASH_LEN (rc_hash rc) /\ held BB_TIME_LEN (rc_issued_at rc) /\ oneline (rc_hash rc) /\ oneline (rc_issued_at rc).
Proof.
  intros [->|[v ->]].
  - repeat split; try apply Forall_nil_2; vm_compute; lia.
  - destruct (Record.receipt_hash_ok (bl_nonce b) v) as [Hl HF]. cbn [bb_issue_receipt rc_hash rc_issued_at].
    split; [split; [unfold BB_HASH_LEN; lia|]; eapply Forall_impl; [exact HF|]; by intros c [? _]%hex_not_special|].
    split; [split; [vm_compute; lia|closed_chars]|].
    split; [eapply Forall_impl; [exact HF|]; by intros c [_ ?]%hex_not_special|].
    repeat (apply Forall_cons_2; [split; discriminate|]). apply Forall_nil_2.
Qed.

Definition cast_response (st : bb_result_t) (rc : bb_receipt_t) : bcl_response_t := set_receipt rc (answer_status st).

Lemma cast_response_shaped st b rc : issued_or_zero b rc -> resp_shaped (cast_response st rc).
Proof.
  intros (Hh & Ht & _)%receipt_fits. split.
  - closed_held.
  - closed_held.
  - split; closed_held.
  - split; [reflexivity|]. split; [closed_int|]. repeat (apply Forall_cons_2; [closed_held|]); apply Forall_nil_2.
  - split; closed_int.
  - exact (conj Hh Ht).
  - split; [reflexivity|]. repeat (apply Forall_cons_2; [closed_int|]); apply Forall_nil_2.
  - split; [reflexivity|]. split; [closed_int|]. repeat (apply Forall_cons_2; [closed_held|]); apply Forall_nil_2.
  - split; [reflexivity|]. split; [closed_int|apply Forall_nil_2].
  - split; [closed_int|split; [closed_int|closed_held]].
Qed.

Lemma cast_response_clean op st b rc : op = BCL_CAST \/ op = BCL_UPDATE -> issued_or_zero b rc -> answer_clean op (cast_response st rc).
Proof.
  intros Hop (_ & _ & Oh & Ot)%receipt_fits. unfold answer_clean, response_kvs.
  destruct Hop as [-> | ->]; cbn [cast_response set_receipt cp_receipt]; (destruct (rc_hash rc) eqn:E; [apply Forall_nil_2|]);
    repeat (apply Forall_cons_2; [done|]); apply Forall_nil_2.
Qed.

Section EndToEnd.
Context `{R : Runner}.

(** [*out] after a call, and that a success has written it. *)
Definition out_ok (b : bb_ballot_t) (x : res bb_receipt_t * bb_receipt_t * world) : Prop :=
  issued_or_zero b (snd (fst x)) /\ (forall rc, fst (fst x) = Ok rc -> exists v, snd (fst x) = bb_issue_receipt b v).

Lemma ballot_out_issued id b out w : issued_or_zero b out -> out_ok b (ballot_out id b out w).
Proof.
  intros Ho. unfold ballot_out. destruct (ballot_gates id b w) as [[[i prior]|e] w1]; [|done].
  destruct (ballot_writes _ _ _ _ _ _ w1) as [r w2]. split; [right|]; by eexists.
Qed.

Lemma record_loop_issued n e id b out w : issued_or_zero b out -> out_ok b (record_loop_out n (Err e) id b out w).
Proof.
  revert e out w. induction n as [|n IH]; intros e0 out w Ho; cbn [record_loop_out]; [done|].
  destruct (bb_db_begin w) as [[[]|e] w1]; [|done]. pose proof (ballot_out_issued id b out w1 Ho) as [H1 H2].
  destruct (ballot_out id b out w1) as [[[rc|e] out1] w2]; cbn [fst snd] in H1, H2.
  - destruct (bb_db_commit w2) as [[[]|e] w3]; [by split; [|intros; eapply H2]|]. destruct e; try done. by apply IH.
  - destruct e; try done. by apply IH.
Qed.

(** ** The voter's side *)

(** A session's network: the frame reaches the daemon process that serves
    [name], whose answer comes back. *)
Definition over (date : cstr) (name : cstr) (w : world) (bytes : list ascii) : exchange :=
  match fst (handle_request (Some date) Alive name bytes w) with Some r => Answered r | None => RecvFails true end.

Definition send_over (date name : cstr) (w : world) (req : bcl_request_t) : bb_result_t * bcl_response_t :=
  let '(rc, resp, _) := send_via_session (over date name w) true req in (rc, resp).

(** The store behind the daemon once the client's frame was served. *)
Definition served (date name : cstr) (w : world) (req : bcl_request_t) : world :=
  match bcl_encode_request req SESSION_MAX_FRAME with
  | Some bytes => snd (handle_request (Some date) Alive name bytes w)
  | None => w
  end.

(** A joined session with names a client can have. *)
Record session_fits (s : bu_session_t) : Prop := {
  sf_joined : us_joined s <> 0%Z;
  sf_cert : held BB_CERT_LEN (us_cert_name s) /\ valid_field (us_cert_name s) true = true;
  sf_id : held BB_ID_LEN (us_election_id s) /\ us_election_id s <> [] /\ Rows.no_char "/" (us_election_id s) /\
          valid_field (us_election_id s) false = true }.

(** The ballot the store is asked to record: the session's name is the
    daemon's, not the client's. *)
Definition voted (name nonce : cstr) (option_index : Z) : bb_ballot_t :=
  mkBallot (trunc BB_CERT_LEN name) nonce (pad BB_CIPHERTEXT_MAX NUL [ascii_of_N (Z.to_N option_index)]) 1.

Definition session_after (s : bu_session_t) (rc : bb_receipt_t) : bu_session_t :=
  mkSession (us_cert_name s) (us_joined s) (us_election_id s) 1 (i32 (us_ballot_version s + 1)) (trunc BB_HASH_LEN (rc_hash rc))
    (us_title s) (us_options s) (us_option_count s).

Lemma encrypted option_index nonce : (0 <= option_index <= 255)%Z -> held BB_NONCE_LEN nonce ->
  bu_encrypt_ballot option_index nonce = Ok (mkBallot [] nonce (pad BB_CIPHERTEXT_MAX NUL [ascii_of_N (Z.to_N option_index)]) 1).
Proof.
  intros Ho [Hn _]. unfold bu_encrypt_ballot. rewrite (proj2 (Z.ltb_ge option_index 0)), (proj2 (Z.ltb_ge 255 option_index)) by lia.
  cbn [orb]. unfold u8. rewrite Z.mod_small by lia. by rewrite trunc_id.
Qed.

(** The request of a vote, shaped and clean. *)
Section Vote.
Context (s : bu_session_t) (option_index : Z) (nonce : cstr).
Hypothesis Hs : session_fits s.
Hypothesis Hn : held BB_NONCE_LEN nonce /\ oneline nonce.

Definition vote_ballot : bb_ballot_t := mkBallot [] nonce (pad BB_CIPHERTEXT_MAX NUL [ascii_of_N (Z.to_N option_index)]) 1.
Definition vote_req : bcl_request_t := vote_request s vote_ballot.

Lemma vote_req_op : cr_op vote_req = BCL_CAST \/ cr_op vote_req = BCL_UPDATE.
Proof. unfold vote_req, vote_request. cbn [cr_op]. destruct (bu_route_vote s); auto. Qed.

Lemma vote_req_shaped : shaped vote_req.
Proof.
  destruct Hs as [_ [Hc Hcv] (Hi & Hne & Hsl & Hiv)], Hn as [Hh _], Hc as [Hcl Hcn], Hi as [Hil Hin].
  split; cbn [vote_req vote_request cr_cert_name cr_election_id cr_ballot cr_hash cr_config] in *; rewrite ?trunc_id by done.
  - done.
  - done.
  - done.
  - intros E. exfalso. change (cr_op vote_req = BCL_CREATE) in E. destruct vote_req_op as [Hop'|Hop']; by rewrite Hop' in E.
  - intros _. split; [done|]. split; [reflexivity|]. cbn. lia.
  - intros E. exfalso. change (cr_op vote_req = BCL_CHECK \/ cr_op vote_req = BCL_ADMIN_CHECK) in E.
    destruct vote_req_op as [Hop'|Hop']; rewrite Hop' in E; by destruct E.
Qed.

Lemma vote_req_clean : clean vote_req.
Proof.
  destruct Hs as [_ [Hc Hcv] (Hi & Hne & Hsl & Hiv)], Hn as [_ Ho1]. pose proof vote_req_op as Hop.
  assert (Hk : request_kvs vote_req = [($"nonce", nonce); ($"payload", hex_text (payload_bytes (cr_ballot vote_req)))])
    by (unfold request_kvs; by destruct Hop as [-> | ->]).
  assert (Hp : request_path vote_req = $"/election/" ++ us_election_id s ++ $"/ballot").
  { unfold request_path. destruct Hop as [-> | ->]; cbn [vote_req vote_request cr_election_id]; by rewrite trunc_id by apply Hi. }
  split; [rewrite Hk; apply Forall_cons_2; [done|]; apply Forall_singleton, hex_text_plain|]. rewrite Hp. split.
  - unfold valid_field in *. rewrite !forallb_app, Hiv. reflexivity.
  - cbn [vote_req vote_request cr_cert_name]. rewrite trunc_id by apply Hc. done.
Qed.

Lemma wire_view_op req : cr_op (wire_view req) = cr_op req.
Proof. destruct req as [op ? ? ? ? ?]. by destruct op. Qed.

(** The request the dispatcher sees. *)
Lemma vote_req_identity name : set_identity name (wire_view vote_req) =
  mkReq (cr_op vote_req) (trunc BB_CERT_LEN name) (us_election_id s) (voted name nonce option_index) [] zero_config.
Proof.
  destruct Hs as [_ _ ([Hi _] & _)]. unfold vote_req, vote_request, wire_view, set_identity, voted.
  destruct (bu_route_vote s); cbn [cr_op cr_election_id cr_ballot cr_hash cr_config bl_nonce bl_payload bl_payload_len];
    rewrite (trunc_id BB_ID_LEN (us_election_id s)) by done; reflexivity.
Qed.

(** The client's bytes reach the dispatcher, and its answer is encoded. *)
Lemma vote_handled date name w :
  exists bytes, bcl_encode_request vote_req SESSION_MAX_FRAME = Some bytes /\
  handle_request (Some date) Alive name bytes w =
    let '(st, rc, w') := record_out (us_election_id s) (voted name nonce option_index) w in
    (bcl_encode_response (Some date) (cr_op vote_req) (cast_response st rc) SESSION_MAX_FRAME, w').
Proof.
  destruct (encode_shaped vote_req SESSION_MAX_FRAME vote_req_shaped) as [He _].
  { unfold MESSAGE_MAX, SESSION_MAX_FRAME. lia. }
  specialize (He vote_req_clean). destruct (request_arrives vote_req vote_req_shaped vote_req_clean) as (http & Hp & Hdec).
  pose proof vote_req_op as Hop.
  assert (Hdis : ballotd_dispatch (set_identity name (wire_view vote_req)) w =
    let '(st, rc, w') := record_out (us_election_id s) (voted name nonce option_index) w in (cast_response st rc, w')).
  { rewrite vote_req_identity. unfold ballotd_dispatch. cbn [cr_op cr_election_id cr_ballot]. by destruct Hop as [-> | ->]. }
  exists (request_text (request_http vote_req)). split; [done|].
  unfold handle_request. rewrite Hp, Hdec, Hdis, wire_view_op. destruct (record_out _ _ w) as [[st rc] w']. by destruct Hop as [-> | ->].
Qed.

(** [record_out] is [bb_record_ballot] with the receipt it leaves in [*out]. *)
Lemma record_out_code id b w : let '(st, rc, w1) := record_out id b w in let '(r, w2) := bb_record_ballot id b w in
  st = code_of r /\ w1 = w2.
Proof.
  pose proof (Channels.record_loop_refines BB_TXN_ATTEMPTS (Err BB_ERR_DB) id b zero_receipt (bb_write_lock w)) as Hrf.
  unfold record_out, bb_record_ballot. destruct (record_loop_out _ _ _ _ _ _) as [[r rc] w1]. by destruct Hrf as [-> _].
Qed.

(** An aborted call has no answer the codec can name. *)
Lemma retry_unanswered date op rc : bcl_encode_response (Some date) op (cast_response BB_ERR_RETRY rc) SESSION_MAX_FRAME = None.
Proof. reflexivity. Qed.

(** What the daemon does with the client's bytes, whatever comes back. *)
Lemma vote_frame date name w :
  let '(r, w') := bb_record_ballot (us_election_id s) (voted name nonce option_index) w in
  exists bytes, bcl_encode_request vote_req SESSION_MAX_FRAME = Some bytes /\
    snd (handle_request (Some date) Alive name bytes w) = w' /\
    (r = Err BB_ERR_RETRY -> fst (handle_request (Some date) Alive name bytes w) = None).
Proof.
  destruct (vote_handled date name w) as (bytes & He & Hreq).
  pose proof (record_out_code (us_election_id s) (voted name nonce option_index) w) as Hc.
  destruct (record_out _ _ w) as [[st rc] w1]. destruct (bb_record_ballot _ _ w) as [r w']. destruct Hc as [-> ->].
  exists bytes. rewrite Hreq. split; [done|]. split; [done|]. intros ->. apply retry_unanswered.
Qed.

(** What comes back when there is an answer. *)
Lemma vote_served date name w : date_ok date ->
  let '(r, w') := bb_record_ballot (us_election_id s) (voted name nonce option_index) w in
  r <> Err BB_ERR_RETRY -> served date name w vote_req = w' /\
  exists resp, send_over date name w vote_req = (code_of r, resp) /\ cp_status resp = code_of r /\ (forall rc, r = Ok rc -> cp_receipt resp = rc).
Proof.
  intros Hd. destruct (vote_handled date name w) as (bytes & He & Hreq).
  pose proof (record_loop_issued BB_TXN_ATTEMPTS BB_ERR_DB (us_election_id s) (voted name nonce option_index) zero_receipt (bb_write_lock w)
    (or_introl eq_refl)) as [Hiss Hok].
  pose proof (Channels.record_loop_refines BB_TXN_ATTEMPTS (Err BB_ERR_DB) (us_election_id s) (voted name nonce option_index) zero_receipt (bb_write_lock w)) as Hrf.
  pose proof vote_req_op as Hop.
  unfold served, send_over, send_via_session, over, bb_record_ballot. cbn [negb]. rewrite He, Hreq. unfold record_out.
  destruct (record_loop_out _ _ _ _ _ _) as [[r rc] w1]. destruct Hrf as [-> Hrc]; [done|]. cbn [fst snd] in Hiss, Hok |- *.
  intros Hr. assert (Hst : code_of r <> BB_ERR_RETRY) by (destruct r as [|e]; [done|]; cbn; congruence). split; [done|].
  pose proof (cast_response_shaped (code_of r) _ rc Hiss) as Hsh. pose proof (cast_response_clean _ (code_of r) _ rc Hop Hiss) as Hcl.
  rewrite encode_answer; [|done|done|done|unfold MESSAGE_MAX, SESSION_MAX_FRAME; lia]. rewrite decide_True by done.
  destruct (answer_arrives date (cr_op vote_req) (cast_response (code_of r) rc)) as (h & -> & ->); [done..|].
  exists (answer_view (cr_op vote_req) (cast_response (code_of r) rc)).
  assert (Hst2 : cp_status (answer_view (cr_op vote_req) (cast_response (code_of r) rc)) = code_of r)
    by (destruct Hop as [-> | ->]; cbn; by destruct (rc_hash rc)).
  rewrite Hst2. split; [done|]. split; [done|]. intros x Ex. destruct (Hok x Ex) as [v Hv]. pose proof (Hrc x Ex) as Hx.
  destruct Hop as [-> | ->]; cbn; rewrite Hv in *; by rewrite <-Hx.
Qed.

End Vote.

(** C31: what the voter does is what is recorded, and what is recorded is what
    the voter is told.  For every joined session, option and one-line nonce,
    and every behaviour of the store, the frame [bu_submit_vote] sends over the
    daemon's voter channel leaves the store exactly where [bb_record_ballot]
    leaves it for a ballot of that option and nonce under the authenticated
    name.  The voter gets that call's code, and on success its receipt, with
    the session moved on, while a refusal leaves the session as it was; only
    when the call ends with [BB_ERR_RETRY], which has no name on the wire, does
    the daemon send no answer at all. *)
Theorem vote_reaches_the_box s option_index nonce date name w :
  session_fits s -> (0 <= option_index <= 255)%Z -> held BB_NONCE_LEN nonce /\ oneline nonce -> date_ok date ->
  let '(r, w') := bb_record_ballot (us_election_id s) (voted name nonce option_index) w in
  (exists bytes, bcl_encode_request (vote_req s option_index nonce) SESSION_MAX_FRAME = Some bytes /\
     snd (handle_request (Some date) Alive name bytes w) = w' /\
     (r = Err BB_ERR_RETRY -> fst (handle_request (Some date) Alive name bytes w) = None)) /\
  (forall rc, r = Ok rc -> bu_submit_vote (send_over date name w) s option_index nonce = (BB_OK, session_after s rc, Some rc)) /\
  (r <> Err BB_ERR_RETRY -> code_of r <> BB_OK -> bu_submit_vote (send_over date name w) s option_index nonce = (code_of r, s, None)).
Proof.
  intros Hs Ho Hn Hd. pose proof (vote_served s option_index nonce Hs Hn date name w Hd) as H.
  pose proof (vote_frame s option_index nonce Hs Hn date name w) as Hframe.
  destruct (bb_record_ballot _ _ w) as [r w']. split; [done|].
  assert (Hsub : r <> Err BB_ERR_RETRY -> exists resp, (forall rc, r = Ok rc -> cp_receipt resp = rc) /\ bu_submit_vote (send_over date name w) s option_index nonce =
    match code_of r with
    | BB_OK => (BB_OK, session_after s (cp_receipt resp), Some (cp_receipt resp))
    | e => (e, s, None)
    end).
  { intros Hretry. destruct (H Hretry) as (_ & resp & Hsend & Hst & Hcp). exists resp. split; [done|].
    unfold bu_submit_vote. rewrite encrypted by (done || apply Hn). fold (vote_ballot option_index nonce). fold (vote_req s option_index nonce).
    rewrite Hsend, Hst. assert (Hroute : bu_route_vote s <> BU_MUST_JOIN).
    { unfold bu_route_vote. rewrite (proj2 (Z.eqb_neq _ _) (sf_joined _ Hs)). by case_match. }
    destruct (bu_route_vote s); [done| |]; by destruct (code_of r). }
  split.
  - intros x Ex. destruct Hsub as (resp & Hcp & ->); [by rewrite Ex|]. rewrite <-(Hcp x Ex). by rewrite Ex.
  - intros Hretry Hcode. destruct (Hsub Hretry) as (resp & _ & ->). by destruct (code_of r).
Qed.

End EndToEnd.
Import Fixture.

(** Ann, joined to E-100, votes for option 1 on a store that works. *)
Definition ann : bu_session_t := mkSession ($"ann") 1 ($"E-100") 0 0 [] ($"Mascot") no_options 2.

Lemma vote_reaches_the_box_witness :
  let r := fst (bb_record_ballot ($"E-100") (voted ($"ann") ($"n1") 1) Channels.polls) in
  exists rc, r = Ok rc /\ bu_submit_vote (send_over sample_date ($"ann") Channels.polls) ann 1 ($"n1") = (BB_OK, session_after ann rc, Some rc).
Proof.
  intros r. assert (Hr : r = Ok (bb_issue_receipt (voted ($"ann") ($"n1") 1) 1)) by (vm_compute; reflexivity).
  exists (bb_issue_receipt (voted ($"ann") ($"n1") 1) 1). split; [exact Hr|]. revert Hr. subst r.
  assert (H := vote_reaches_the_box ann 1 ($"n1") sample_date ($"ann") Channels.polls).
  change (us_election_id ann) with ($"E-100") in H. destruct (bb_record_ballot _ _ Channels.polls) as [r w']. cbn [fst]. intros Hr.
  refine (proj1 (proj2 (H _ _ _ _)) _ Hr).
  - split; [discriminate|split; [closed_held|reflexivity]|split; [closed_held|split; [discriminate|split; [closed_chars|reflexivity]]]].
  - lia.
  - split; [closed_held|repeat (apply Forall_cons_2; [split; discriminate|]); apply Forall_nil_2].
  - split; [reflexivity|vm_compute; lia].
Defined.

End EndToEnd.
