(* ===== verification/Token.v ===== *)
(** * Session tokens: libtetrisauth/lib/token.c and hex.c

    A token is four claim lines and the hex of their HMAC.  OpenSSL's [HMAC]
    is a parameter, so the theorems hold for whatever function it computes;
    [None] is its NULL return. *)
From S2P Require Import Prelude CText Rows Htttp Codec CodecLogic.
Import Htttp.
Local Open Scope Z_scope.

Module Token.

(** ** hex.c *)

Definition HEX (n : Z) : ascii := default NUL (($"0123456789abcdef") !! Z.to_nat n).

Definition hex_encode (bytes : list ascii) : cstr :=
  concat (map (fun c => [HEX (Z.shiftr (code c) 4); HEX (Z.land (code c) 15)]) bytes).

(** Lower case only. *)
Definition hex_nibble (c : ascii) : option Z :=
  if (48 <=? code c) && (code c <=? 57) then Some (code c - 48)
  else if (97 <=? code c) && (code c <=? 102) then Some (code c - 97 + 10)
  else None.

Fixpoint hex_pairs (s : cstr) : option (list ascii) :=
  match s with
  | h :: l :: s' =>
    hi ← hex_nibble h; lo ← hex_nibble l; bytes ← hex_pairs s';
    Some (ascii_of_N (Z.to_N (u8 (Z.lor (Z.shiftl hi 4) lo))) :: bytes)
  | _ => Some []
  end.

(** [None] is -1; otherwise the bytes, whose number the C function returns. *)
Definition hex_decode (s : cstr) (cap : nat) : option (list ascii) :=
  if negb (length s mod 2 =? 0)%nat || (cap <? length s / 2)%nat then None else hex_pairs s.

(** ** lib/auth.h *)

Definition TOKEN_SECRET_MIN_LEN : nat := 32.
Definition TOKEN_NAME_MAX : nat := 15.
Definition TOKEN_SIG_LEN : nat := 32.
Definition TOKEN_SIG_HEX_LEN : nat := 64.
Definition TOKEN_MAX_LEN : nat := 256.
Definition TOKEN_FIELD_SEP : ascii := LF.
Definition TOKEN_FIELD_COUNT : nat := 5.

Record token_claims_t := mkClaims { tc_sub : Z; tc_name : cstr; tc_iat : Z; tc_exp : Z }.
Definition zero_claims : token_claims_t := mkClaims 0 [] 0 0.

Inductive token_result_t :=
  TOKEN_OK | TOKEN_E_MALFORMED | TOKEN_E_SIGNATURE | TOKEN_E_CLAIMS | TOKEN_E_EXPIRED.

(** The slices of a received token; [signing] is what the MAC covers. *)
Record token_parts_t := mkParts {
  tp_sub : cstr; tp_name : cstr; tp_iat : cstr; tp_exp : cstr; tp_sig : cstr; tp_signing : cstr }.

Section Token.
Variable HMAC : cstr -> cstr -> option (list ascii).

(** ** token.c *)

Definition hmac_sha256 (secret msg : cstr) : option (list ascii) :=
  match HMAC secret msg with
  | None => None
  | Some mac => if (length mac =? TOKEN_SIG_LEN)%nat then Some mac else None
  end.

Definition name_char (c : ascii) : bool :=
  ((65 <=? code c) && (code c <=? 90)) || ((97 <=? code c) && (code c <=? 122)) ||
  ((48 <=? code c) && (code c <=? 57)) || ceqb c "_" || ceqb c "-".

Definition is_name_ok (s : cstr) : bool :=
  negb ((length s =? 0)%nat || (TOKEN_NAME_MAX <? length s)%nat) && forallb name_char s.

Definition secret_ok (secret : cstr) : bool :=
  (TOKEN_SECRET_MIN_LEN <=? length secret)%nat && (Z.of_nat (length secret) <=? INT_MAX).

(** [ "%lld\n%s\n%lld\n%lld\n" ] *)
Definition claims_text (c : token_claims_t) : cstr :=
  print_int (tc_sub c) ++ LF :: tc_name c ++ LF :: print_int (tc_iat c) ++ LF :: print_int (tc_exp c) ++ [LF].

Definition write_claims (cap : nat) (c : token_claims_t) : option cstr :=
  if (TOKEN_NAME_MAX + 1 <=? length (tc_name c))%nat then None
  else if negb (is_name_ok (tc_name c)) then None
  else if (cap <=? length (claims_text c))%nat then None
  else Some (claims_text c).

Definition write_token (cap : nat) (c : token_claims_t) (secret : cstr) : option cstr :=
  match write_claims cap c with
  | None => None
  | Some tok =>
    if (cap <? length tok + TOKEN_SIG_HEX_LEN + 1)%nat then None
    else match hmac_sha256 secret tok with
         | None => None
         | Some mac => Some (tok ++ hex_encode mac)
         end
  end.

Definition token_mint (out_len : nat) (c : token_claims_t) (secret : cstr) : option cstr :=
  if (out_len <=? 0)%nat || negb (secret_ok secret) then None
  else match write_token TOKEN_MAX_LEN c secret with
       | None => None
       | Some tok => if (out_len <? length tok + 1)%nat then None else Some tok
       end.

(** The fields of [p] when [k] separators are still to come. *)
Fixpoint split_fields (k : nat) (p : cstr) : option (list cstr) :=
  match split_at TOKEN_FIELD_SEP p with
  | None => match k with O => Some [p] | S _ => None end
  | Some (f, rest) =>
    match k with
    | O => None
    | S k' => fs ← split_fields k' rest; Some (f :: fs)
    end
  end.

Definition split_token (token : cstr) : option token_parts_t :=
  match split_fields (TOKEN_FIELD_COUNT - 1) token with
  | Some [sub; name; iat; exp; sig] =>
    if negb (length sig =? TOKEN_SIG_HEX_LEN)%nat then None
    else Some (mkParts sub name iat exp sig (take (length token - length sig) token))
  | _ => None
  end.

Definition check_signature (signing sig secret : cstr) : bool :=
  match hmac_sha256 secret signing with
  | None => false
  | Some mac => streq (hex_encode mac) (take TOKEN_SIG_HEX_LEN sig)
  end.

(** [acc] is an [unsigned long long]. *)
Fixpoint pos_ll_loop (acc : Z) (s : cstr) : option Z :=
  match s with
  | [] => Some acc
  | c :: s' =>
    if negb (is_digit c) then None
    else
      let d := digit_val c in
      if (LONG_MAX - d) / 10 <? acc then None else pos_ll_loop ((acc * 10 + d) mod 2 ^ 64) s'
  end.

Definition parse_pos_ll (s : cstr) : option Z :=
  match s with
  | [] => None
  | c :: s' => if ceqb c "0" && negb (length s' =? 0)%nat then None else pos_ll_loop 0 s
  end.

Definition read_claims (p : token_parts_t) : option token_claims_t :=
  sub ← parse_pos_ll (tp_sub p); iat ← parse_pos_ll (tp_iat p); exp ← parse_pos_ll (tp_exp p);
  if is_name_ok (tp_name p) then Some (mkClaims sub (tp_name p) iat exp) else None.

(** The result and [*out]. *)
Definition token_verify (token secret : cstr) (now : Z) (out : token_claims_t) : token_result_t * token_claims_t :=
  if negb (secret_ok secret) then (TOKEN_E_MALFORMED, out)
  else if (TOKEN_MAX_LEN <=? length token)%nat then (TOKEN_E_MALFORMED, out)
  else match split_token token with
  | None => (TOKEN_E_MALFORMED, zero_claims)
  | Some p =>
    if negb (check_signature (tp_signing p) (tp_sig p) secret) then (TOKEN_E_SIGNATURE, zero_claims)
    else match read_claims p with
    | None => (TOKEN_E_CLAIMS, zero_claims)
    | Some c => if tc_exp c <=? now then (TOKEN_E_EXPIRED, zero_claims) else (TOKEN_OK, c)
    end
  end.

End Token.

(** ** Numbers are canonical *)

Lemma digits_value_snoc s c acc : digits_value acc (s ++ [c]) = digits_value acc s * 10 + digit_val c.
Proof. revert acc; induction s as [|x s IH]; intros acc; [done|]. cbn [app digits_value]. apply IH. Qed.

Lemma pos_ll_loop_ok acc s v : 0 <= acc <= LONG_MAX ->
  pos_ll_loop acc s = Some v <-> Forall (fun c => is_digit c = true) s /\ v = digits_value acc s /\ v <= LONG_MAX.
Proof.
  revert acc; induction s as [|c s IH]; intros acc Ha; cbn [pos_ll_loop digits_value].
  { split; [intros [= <-]; repeat split; [constructor|lia]|by intros (_ & -> & _)]. }
  rewrite Forall_cons. destruct (is_digit c) eqn:Hc; cbn [negb]; [|split; [done|by intros [[? _] _]]].
  pose proof (digit_val_range c Hc) as Hd. set (d := digit_val c) in *.
  pose proof (Z.mul_succ_div_gt (LONG_MAX - d) 10 ltac:(lia)). pose proof (Z.mul_div_le (LONG_MAX - d) 10 ltac:(lia)).
  destruct (Z.ltb_spec ((LONG_MAX - d) / 10) acc).
  - split; [done|]. intros ([_ HF] & -> & Hv). pose proof (digits_value_ge (acc * 10 + d) s ltac:(lia) HF). lia.
  - rewrite Z.mod_small by (unfold LONG_MAX in *; lia). rewrite IH by lia.
    split; [intros (? & ? & ?); auto|intros ((_ & ?) & ? & ?); auto].
Qed.

(** A digit string without a leading zero is the one [%lld] prints. *)
Definition canonical (s : cstr) : Prop := match s with [] => False | [_] => True | c :: _ => c <> "0"%char end.

Lemma head_positive c s : c <> "0"%char -> Forall (fun c => is_digit c = true) (c :: s) -> 0 < digits_value 0 (c :: s).
Proof.
  intros Hc [H1 H2]%Forall_cons. cbn [digits_value]. pose proof (digit_val_range c H1). assert (digit_val c <> 0).
  { intros E. apply Hc. unfold digit_val, code in E. rewrite <-(ascii_N_embedding c).
    by replace (N_of_ascii c) with 48%N by lia. }
  pose proof (digits_value_ge (0 * 10 + digit_val c) s ltac:(lia) H2). lia.
Qed.

Lemma digit_char_val c : digit_char (digit_val c) = c.
Proof.
  unfold digit_char, digit_val. replace (48 + (code c - 48)) with (code c) by lia. unfold code.
  by rewrite N2Z.id, ascii_N_embedding.
Qed.

Lemma dec_digits_canonical f s tl : canonical s -> Forall (fun c => is_digit c = true) s ->
  digits_value 0 s < 10 ^ Z.of_nat f -> (0 < f)%nat -> dec_digits f (digits_value 0 s) tl = s ++ tl.
Proof.
  revert f tl; induction s as [|c s IH] using rev_ind; intros f tl Hs HF Hv Hf; [done|].
  apply Forall_app in HF as [HF [Hc _]%Forall_cons]. pose proof (digit_val_range c Hc) as Hd.
  rewrite digits_value_snoc in *. destruct f as [|f]; [lia|]. cbn [dec_digits]. destruct s as [|x s].
  { cbn [digits_value app]. rewrite (proj2 (Z.ltb_lt _ _)) by lia.
    by replace (0 * 10 + digit_val c) with (digit_val c) by lia; rewrite digit_char_val. }
  assert (0 < digits_value 0 (x :: s)) by (apply head_positive; [by destruct s|done]).
  set (v := digits_value 0 (x :: s)) in *. rewrite (proj2 (Z.ltb_ge _ _)) by lia.
  rewrite Z.add_comm, Z.div_add, Z.mod_add, (Z.mod_small (digit_val c)), (Z.div_small (digit_val c)), Z.add_0_l,
    digit_char_val by lia.
  rewrite Nat2Z.inj_succ, Z.pow_succ_r in Hv by lia. unfold v.
  rewrite IH, <-app_assoc; try done; fold v; [by destruct s|lia|]. destruct f; [rewrite Z.pow_0_r in Hv; lia|lia].
Qed.

Lemma print_canonical f z : 0 < z < 10 ^ Z.of_nat f ->
  exists c l, dec_digits f z [] = c :: l /\ c <> "0"%char.
Proof.
  revert z; induction f as [|f IH]; intros z Hz; [simpl in Hz; lia|]. cbn [dec_digits].
  destruct (Z.ltb_spec z 10).
  - exists (digit_char z), []. split; [done|]. intros E. pose proof (digit_char_spec z ltac:(lia)) as [_ Hd].
    rewrite E in Hd. change (digit_val "0") with 0 in Hd. lia.
  - destruct (IH (z / 10)) as (c & l & E & Hc).
    { split; [apply Z.div_str_pos; lia|]. apply Z.div_lt_upper_bound; [lia|].
      rewrite <-Z.pow_succ_r, <-Nat2Z.inj_succ by lia. lia. }
    rewrite dec_digits_app, E. by exists c, (l ++ [digit_char (z mod 10)]).
Qed.

Lemma print_uint_value z : 0 <= z < 10 ^ 20 -> digits_value 0 (print_uint z) = z.
Proof.
  intros Hz. rewrite <-(digits_value_scan 0 _ 0) by (apply print_uint_digits; lia).
  destruct (scan_print_uint z [] Hz I) as (k & _ & Hs). rewrite app_nil_r in Hs. by rewrite Hs.
Qed.

Lemma long_max_digits v : v <= LONG_MAX -> v < 10 ^ 20.
Proof. unfold LONG_MAX. lia. Qed.

(** [parse_pos_ll] reads exactly what [%lld] prints of a number from 0 to
    [LLONG_MAX]: no sign, no leading zero, no overflow. *)
Lemma parse_pos_ll_exact s v : parse_pos_ll s = Some v <-> 0 <= v <= LONG_MAX /\ s = print_int v.
Proof.
  split.
  - unfold parse_pos_ll. destruct s as [|c s]; [done|]. destruct (ceqb c "0" && _) eqn:Hz; [done|].
    intros (HF & -> & Hv)%pos_ll_loop_ok; [|unfold LONG_MAX; lia].
    pose proof (digits_value_ge 0 _ ltac:(lia) HF). split; [lia|].
    unfold print_int. rewrite (proj2 (Z.ltb_ge _ _)) by lia. unfold print_uint.
    rewrite dec_digits_canonical, app_nil_r; try done; [|by apply long_max_digits|lia].
    destruct s; [done|]. intros ->. done.
  - intros [Hv ->]. unfold print_int. rewrite (proj2 (Z.ltb_ge _ _)) by lia.
    destruct (decide (v = 0)) as [->|Hne]; [done|].
    destruct (print_canonical 20 v) as (c & l & E & Hc); [split; [lia|apply long_max_digits; lia]|].
    fold (print_uint v) in E. pose proof (print_uint_digits v ltac:(lia)) as HF.
    pose proof (print_uint_value v ltac:(split; [lia|apply long_max_digits; lia])) as HV.
    rewrite E in *. unfold parse_pos_ll, ceqb. rewrite bool_decide_eq_false_2 by done. cbn [andb].
    apply pos_ll_loop_ok; [unfold LONG_MAX; lia|]. auto with lia.
Qed.

(** ** Hex *)

Lemma hex_encode_text bytes : hex_encode bytes = CodecLogic.hex_text bytes.
Proof. done. Qed.

Lemma hex_encode_length bytes : length (hex_encode bytes) = (2 * length bytes)%nat.
Proof. apply CodecLogic.hex_text_length. Qed.

Lemma hex_nibble_lower n : 0 <= n < 16 -> hex_nibble (HEX n) = Some n.
Proof.
  intros Hn. assert (Hin : n ∈ map Z.of_nat (seq 0 16)).
  { apply list_elem_of_fmap. exists (Z.to_nat n). split; [lia|]. apply elem_of_seq. lia. }
  clear Hn. revert n Hin. apply Forall_forall. repeat constructor.
Qed.

(** The stored form of a salt or a digest reads back as the bytes. *)
Lemma hex_decode_encode bytes cap : (length bytes <= cap)%nat -> hex_decode (hex_encode bytes) cap = Some bytes.
Proof.
  intros Hl. unfold hex_decode. rewrite hex_encode_length, Nat.mul_comm, Nat.Div0.mod_mul, Nat.div_mul by lia.
  rewrite (proj2 (Nat.ltb_ge _ _)) by done. cbn [Nat.eqb negb orb]. clear Hl.
  induction bytes as [|c bytes IH]; [done|]. unfold hex_encode in *. cbn [map concat app hex_pairs].
  destruct (CodecLogic.hex_nibbles c) as (H1 & H2 & Hc). rewrite !hex_nibble_lower by done. cbn [mbind option_bind].
  rewrite IH. cbn [mbind option_bind]. rewrite Hc. pose proof (code_range c). unfold u8. rewrite Z.mod_small by lia.
  unfold code. by rewrite N2Z.id, ascii_N_embedding.
Qed.

(** ** Fields *)

Lemma split_at_inv c p : match split_at c p with
  | Some (l, r) => Rows.no_char c l /\ p = l ++ c :: r
  | None => Rows.no_char c p end.
Proof.
  induction p as [|x p IH]; cbn [split_at]; [constructor|]. unfold ceqb. case_bool_decide; [subst; split; [constructor|done]|].
  destruct (split_at c p) as [[l r]|]; [|by constructor]. destruct IH as [? ->]. split; [by constructor|done].
Qed.

Fixpoint join_fields (fs : list cstr) : cstr :=
  match fs with [] => [] | [f] => f | f :: fs' => f ++ LF :: join_fields fs' end.

Lemma split_fields_exact k p fs : split_fields k p = Some fs <->
  length fs = S k /\ Forall (Rows.no_char LF) fs /\ p = join_fields fs.
Proof.
  revert p fs; induction k as [|k IH]; intros p fs; cbn [split_fields];
    pose proof (split_at_inv TOKEN_FIELD_SEP p) as Hp.
  - split.
    + destruct (split_at _ p) as [[l r]|]; [done|]. intros [= <-]. repeat constructor; done.
    + intros (Hl & HF & ->). destruct fs as [|f [|? ?]]; try done. apply Forall_cons in HF as [Hf _].
      cbn [join_fields] in *. destruct (split_at _ f) as [[l r]|]; [|done]. destruct Hp as [_ ->].
      apply Rows.no_char_app in Hf as [_ Hf]. by inversion Hf.
  - split.
    + destruct (split_at _ p) as [[l r]|]; [|done]. destruct (split_fields k r) as [gs|] eqn:E; cbn; [|done].
      intros [= <-]. apply IH in E as (Hl & HF & ->). destruct Hp as [Hl' ->].
      split; [by simpl; rewrite Hl|]. split; [by constructor|]. by destruct gs.
    + intros (Hl & HF & ->). destruct fs as [|f [|g fs]]; try done. apply Forall_cons in HF as [Hf HF].
      cbn [join_fields]. rewrite split_at_app by done.
      rewrite (proj2 (IH _ (g :: fs))); [done|]. split; [by simpl in *; lia|done].
Qed.

(** ** Tokens *)

(** The user id and the times as [token_mint]'s callers have them. *)
Definition claims_ok (c : token_claims_t) : Prop :=
  0 <= tc_sub c <= LONG_MAX /\ 0 <= tc_iat c <= LONG_MAX /\ 0 <= tc_exp c <= LONG_MAX.

Section Theorems.
Variable HMAC : cstr -> cstr -> option (list ascii).

Definition fields_of (c : token_claims_t) (sig : cstr) : list cstr :=
  [print_int (tc_sub c); tc_name c; print_int (tc_iat c); print_int (tc_exp c); sig].

Lemma join_fields_of c sig : join_fields (fields_of c sig) = claims_text c ++ sig.
Proof. unfold claims_text. cbn [fields_of join_fields]. by repeat (rewrite <-!app_assoc; cbn [app]). Qed.

Lemma hmac_length secret msg mac : hmac_sha256 HMAC secret msg = Some mac -> length (hex_encode mac) = TOKEN_SIG_HEX_LEN.
Proof.
  unfold hmac_sha256. destruct (HMAC secret msg) as [m|]; [|done]. destruct (Nat.eqb_spec (length m) TOKEN_SIG_LEN); [|done].
  intros [= <-]. by rewrite hex_encode_length, e.
Qed.

Lemma name_ok_length s : is_name_ok s = true -> (0 < length s <= 15)%nat.
Proof.
  unfold is_name_ok, TOKEN_NAME_MAX. rewrite andb_true_iff, negb_true_iff, orb_false_iff, Nat.eqb_neq, Nat.ltb_ge. lia.
Qed.

Lemma claims_text_length c : claims_ok c -> is_name_ok (tc_name c) = true -> (length (claims_text c) <= 79)%nat.
Proof.
  intros (H1 & H2 & H3) Hn%name_ok_length. unfold claims_text, print_int.
  rewrite !(proj2 (Z.ltb_ge _ _)) by lia. pose proof (print_uint_length (tc_sub c)).
  pose proof (print_uint_length (tc_iat c)). pose proof (print_uint_length (tc_exp c)).
  repeat (rewrite !length_app; cbn [length]). lia.
Qed.

(** Minting never runs out of room. *)
Lemma mint_exact c secret tok : claims_ok c ->
  token_mint HMAC TOKEN_MAX_LEN c secret = Some tok <->
  secret_ok secret = true /\ is_name_ok (tc_name c) = true /\
  exists mac, hmac_sha256 HMAC secret (claims_text c) = Some mac /\ tok = claims_text c ++ hex_encode mac.
Proof.
  intros Hc. unfold token_mint, write_token, write_claims. change (TOKEN_MAX_LEN <=? 0)%nat with false. cbn [orb].
  destruct (secret_ok secret); cbn [negb]; [|split; [done|by intros [? _]]].
  destruct (is_name_ok (tc_name c)) eqn:Hn; cbn [negb]; [|split; [by destruct (_ <=? _)%nat|by intros (_ & ? & _)]].
  pose proof (name_ok_length _ Hn). pose proof (claims_text_length c Hc Hn).
  unfold TOKEN_NAME_MAX, TOKEN_MAX_LEN, TOKEN_SIG_HEX_LEN.
  rewrite !(proj2 (Nat.leb_gt _ _)) by lia. rewrite (proj2 (Nat.ltb_ge 256 _)) by lia.
  destruct (hmac_sha256 HMAC secret (claims_text c)) as [mac|] eqn:Hm; [|split; [done|by intros (_ & _ & ? & ? & _)]].
  pose proof (hmac_length _ _ _ Hm) as Hl. unfold TOKEN_SIG_HEX_LEN in Hl.
  rewrite (proj2 (Nat.ltb_ge 256 _)) by (rewrite length_app; lia).
  split; [intros [= <-]; eauto|intros (_ & _ & m & [= <-] & ->)]; done.
Qed.

Lemma name_no_sep s : is_name_ok s = true -> Rows.no_char LF s.
Proof.
  unfold is_name_ok. rewrite andb_true_iff, forallb_forall. intros [_ Hn]. apply Forall_forall. intros x Hx ->.
  specialize (Hn LF). rewrite <-list_elem_of_In in Hn. by specialize (Hn Hx).
Qed.

Lemma print_no_sep z : 0 <= z -> Rows.no_char LF (print_int z).
Proof.
  intros Hz. unfold print_int. rewrite (proj2 (Z.ltb_ge _ _)) by lia.
  eapply Forall_impl; [by apply print_uint_digits|]. by intros x Hx ->.
Qed.

Lemma fields_of_no_sep c mac : claims_ok c -> is_name_ok (tc_name c) = true ->
  Forall (Rows.no_char LF) (fields_of c (hex_encode mac)).
Proof.
  intros (H1 & H2 & H3) Hn. repeat (apply Forall_cons_2; [first [apply print_no_sep; lia|by apply name_no_sep]|]).
  apply Forall_cons_2; [|constructor]. destruct (CodecLogic.hex_text_plain mac) as [Hp _].
  eapply Forall_impl; [exact Hp|]. by intros x [_ ?].
Qed.

(** What the accepting path of [token_verify] has checked. *)
Lemma verify_accepts tok secret now out c : token_verify HMAC tok secret now out = (TOKEN_OK, c) <->
  secret_ok secret = true /\ (length tok < TOKEN_MAX_LEN)%nat /\ now < tc_exp c /\
  exists p, split_token tok = Some p /\ check_signature HMAC (tp_signing p) (tp_sig p) secret = true /\ read_claims p = Some c.
Proof.
  unfold token_verify. destruct (secret_ok secret); cbn [negb]; [|split; [done|by intros [? _]]].
  destruct (Nat.leb_spec TOKEN_MAX_LEN (length tok)); [split; [done|intros (_ & ? & _); lia]|].
  destruct (split_token tok) as [p|]; [|split; [done|by intros (_ & _ & _ & ? & ? & _)]].
  destruct (check_signature _ _ _ _) eqn:Hs; cbn [negb];
    [|split; [done|intros (_ & _ & _ & p' & [= <-] & ? & _); congruence]].
  destruct (read_claims p) as [c'|] eqn:Hr; [|split; [done|intros (_ & _ & _ & p' & [= <-] & _ & ?); congruence]].
  destruct (Z.leb_spec (tc_exp c') now).
  - split; [done|]. intros (_ & _ & ? & p' & [= <-] & _ & E). rewrite Hr in E. injection E as <-. lia.
  - split; [intros [= <-]; eauto 10|]. intros (_ & _ & ? & p' & [= <-] & _ & E). congruence.
Qed.

Lemma read_claims_exact p c : read_claims p = Some c <->
  claims_ok c /\ is_name_ok (tc_name c) = true /\
  tp_sub p = print_int (tc_sub c) /\ tp_name p = tc_name c /\ tp_iat p = print_int (tc_iat c) /\
  tp_exp p = print_int (tc_exp c).
Proof.
  unfold read_claims, claims_ok. split.
  - destruct (parse_pos_ll (tp_sub p)) as [sub|] eqn:E1; cbn; [|done].
    destruct (parse_pos_ll (tp_iat p)) as [iat|] eqn:E2; cbn; [|done].
    destruct (parse_pos_ll (tp_exp p)) as [exp|] eqn:E3; cbn; [|done].
    destruct (is_name_ok (tp_name p)) eqn:En; [|done]. intros [= <-].
    apply parse_pos_ll_exact in E1 as [? ?], E2 as [? ?], E3 as [? ?]. cbn. tauto.
  - intros ((H1 & H2 & H3) & Hn & E1 & -> & E2 & E3).
    rewrite (proj2 (parse_pos_ll_exact _ _) (conj H1 E1)), (proj2 (parse_pos_ll_exact _ _) (conj H2 E2)),
      (proj2 (parse_pos_ll_exact _ _) (conj H3 E3)). cbn. rewrite Hn. by destruct c.
Qed.

Lemma split_token_exact tok p : split_token tok = Some p <->
  let fs := [tp_sub p; tp_name p; tp_iat p; tp_exp p; tp_sig p] in
  Forall (Rows.no_char LF) fs /\ tok = join_fields fs /\ length (tp_sig p) = TOKEN_SIG_HEX_LEN /\
  tp_signing p = take (length tok - length (tp_sig p)) tok.
Proof.
  unfold split_token. cbn zeta. split.
  - destruct (split_fields _ tok) as [fs|] eqn:E; [|done]. apply split_fields_exact in E as (Hl & HF & ->).
    destruct fs as [|a [|b [|c [|d [|e [|? ?]]]]]]; try done. destruct (Nat.eqb_spec (length e) TOKEN_SIG_HEX_LEN); [|done].
    by intros [= <-].
  - intros (HF & Ht & Hl & Hs). 
    rewrite (proj2 (split_fields_exact (TOKEN_FIELD_COUNT - 1) tok
      [tp_sub p; tp_name p; tp_iat p; tp_exp p; tp_sig p])) by done.
    rewrite Hl, Nat.eqb_refl. cbn [negb]. rewrite <-Hl, <-Hs. by destruct p.
Qed.

(** What was minted is accepted until it expires. *)
Lemma minted_verifies tok secret now out c : token_mint HMAC TOKEN_MAX_LEN c secret = Some tok -> claims_ok c -> now < tc_exp c ->
  token_verify HMAC tok secret now out = (TOKEN_OK, c).
Proof.
  rewrite verify_accepts. intros Hm Hok Hnow. apply mint_exact in Hm as (Hs & Hn & mac & Hh & ->); [|done].
  pose proof (claims_text_length c Hok Hn). pose proof (hmac_length _ _ _ Hh) as Hl.
  split; [done|]. split; [rewrite length_app, Hl; unfold TOKEN_MAX_LEN, TOKEN_SIG_HEX_LEN; lia|]. split; [done|].
  exists (mkParts (print_int (tc_sub c)) (tc_name c) (print_int (tc_iat c)) (print_int (tc_exp c)) (hex_encode mac) (claims_text c)).
  split; [|split].
  - apply split_token_exact. cbn. split; [by apply fields_of_no_sep|]. split; [symmetry; apply join_fields_of|].
    split; [done|]. by rewrite length_app, Nat.add_sub, take_app_length.
  - unfold check_signature. cbn [tp_signing tp_sig]. rewrite Hh, take_ge by lia. apply streq_refl.
  - by apply read_claims_exact.
Qed.

(** C19: a token is accepted exactly when it was minted.  For every HMAC
    function, every secret and every received text, [token_verify] returns
    claims if and only if [token_mint] produces exactly that text from exactly
    those claims (with an id and times that are 64-bit and not negative) and
    the expiry lies ahead: no second spelling of the same claims is accepted,
    and what was minted is never refused before it expires. *)
Theorem token_accepted_iff_minted tok secret now out c :
  token_verify HMAC tok secret now out = (TOKEN_OK, c) <->
  token_mint HMAC TOKEN_MAX_LEN c secret = Some tok /\ claims_ok c /\ now < tc_exp c.
Proof.
  rewrite verify_accepts. split.
  - intros (Hs & Hl & Hnow & p & (HF & Ht & Hsig & Hsg)%split_token_exact & Hck & (Hok & Hn & E1 & E2 & E3 & E4)%read_claims_exact).
    split; [|done]. rewrite E1, E2, E3, E4 in Ht. fold (fields_of c (tp_sig p)) in Ht. rewrite join_fields_of in Ht.
    rewrite Ht, length_app, Nat.add_sub, take_app_length in Hsg. apply mint_exact; [done|]. split; [done|]. split; [done|].
    unfold check_signature in Hck. rewrite Hsg in Hck.
    destruct (hmac_sha256 HMAC secret (claims_text c)) as [mac|]; [|done]. exists mac. split; [done|].
    apply streq_true in Hck. by rewrite Ht, Hck, take_ge by lia.
  - intros (Hm & Hok & Hnow). apply (verify_accepts tok secret now out c). by apply minted_verifies.
Qed.

End Theorems.

(** A stand-in for HMAC-SHA256: thirty-two copies of a byte sum. *)
Definition sample_hmac (secret msg : cstr) : option (list ascii) :=
  Some (replicate 32 (ascii_of_N (Z.to_N (foldl (fun h c => h * 31 + code c) 7 (secret ++ msg) mod 256)))).

Definition sample_secret : cstr := replicate 32 "k"%char.
Definition sample_claims : token_claims_t := mkClaims 7 ($"alice") 1000 1060.

(** Minting, then verifying before, at and after the expiry, and with one
    digit of the id changed. *)
Example token_life : exists tok,
  token_mint sample_hmac TOKEN_MAX_LEN sample_claims sample_secret = Some tok /\
  token_verify sample_hmac tok sample_secret 1059 zero_claims = (TOKEN_OK, sample_claims) /\
  token_verify sample_hmac tok sample_secret 1060 zero_claims = (TOKEN_E_EXPIRED, zero_claims) /\
  token_verify sample_hmac (<[0%nat := "8"%char]> tok) sample_secret 1059 zero_claims = (TOKEN_E_SIGNATURE, zero_claims) /\
  token_verify sample_hmac ("0"%char :: tok) sample_secret 1059 zero_claims = (TOKEN_E_SIGNATURE, zero_claims).
Proof. eexists. split; [vm_compute; reflexivity|]. by vm_compute. Qed.

End Token.
