(* ===== verification/Queue.v ===== *)
(** * The statement queue: libtetrisdb/pipe/queue.c

    Producers hand SQL statements to a bounded ring; one worker thread takes
    them out and runs them on a child process, which it restarts when it dies.
    Every function runs its shared accesses under the mutex, so the threads
    interleave at the granularity of the steps below; what the child does
    (proc.c) and whether allocations succeed is decided by the step. *)
From S2P Require Import Prelude.

Module Queue.

Definition DB_RESPAWN_MAX : nat := 3.

(** [unsigned long]. *)
Definition ulong (z : Z) : Z := z mod 2 ^ 64.

(** [struct db]: the ring and its flags.  A slot is NULL until first used. *)
Record db_t := mkDb {
  q_items : list (option cstr);
  q_cap : nat; q_head : nat; q_tail : nat; q_count : nat;
  q_stopping : bool; q_dead : bool;
  q_dropped : Z; q_errors : Z }.

Definition count_dropped (db : db_t) : db_t :=
  mkDb (q_items db) (q_cap db) (q_head db) (q_tail db) (q_count db) (q_stopping db) (q_dead db)
       (ulong (q_dropped db + 1)) (q_errors db).
Definition count_error (db : db_t) : db_t :=
  mkDb (q_items db) (q_cap db) (q_head db) (q_tail db) (q_count db) (q_stopping db) (q_dead db)
       (q_dropped db) (ulong (q_errors db + 1)).
Definition set_dead (db : db_t) : db_t :=
  mkDb (q_items db) (q_cap db) (q_head db) (q_tail db) (q_count db) (q_stopping db) true (q_dropped db) (q_errors db).
Definition set_stopping (db : db_t) : db_t :=
  mkDb (q_items db) (q_cap db) (q_head db) (q_tail db) (q_count db) true (q_dead db) (q_dropped db) (q_errors db).
(** [head = (head + 1) % cap; count--]. *)
Definition pop (db : db_t) : db_t :=
  mkDb (q_items db) (q_cap db) ((q_head db + 1) mod q_cap db) (q_tail db) (q_count db - 1) (q_stopping db) (q_dead db)
       (q_dropped db) (q_errors db).
(** [items[tail] = copy; tail = (tail + 1) % cap; count++]. *)
Definition push (copy : cstr) (db : db_t) : db_t :=
  mkDb (<[q_tail db := Some copy]> (q_items db)) (q_cap db) (q_head db) ((q_tail db + 1) mod q_cap db)
       (q_count db + 1) (q_stopping db) (q_dead db) (q_dropped db) (q_errors db).

(** ** The operations *)

(** [None]: the worker waits on [not_empty].  Otherwise the statement, NULL
    when the queue is empty and stopping. *)
Definition dequeue (db : db_t) : option (option cstr * db_t) :=
  if (q_count db =? 0)%nat && negb (q_stopping db) then None
  else if (0 <? q_count db)%nat then Some (mjoin (q_items db !! q_head db), pop db)
  else Some (None, db).

(** What [db_proc_exec] returned: above 0, 0, below 0. *)
Inductive exec_result := Ran | Rejected | Gone.

(** How a statement that left the queue ended. *)
Inductive fate := FRan | FRejected | FDropped.

(** One turn of [execute]'s loop: the statement's end, or one more attempt on
    a child that was brought up again ([spawned]). *)
Definition execute_turn (attempt : nat) (r : exec_result) (spawned : bool) (db : db_t) : option fate * db_t :=
  if q_dead db then (Some FDropped, count_dropped db)
  else match r with
  | Ran => (Some FRan, db)
  | Rejected => (Some FRejected, count_error db)
  | Gone =>
    if (attempt =? DB_RESPAWN_MAX)%nat || negb spawned then (Some FDropped, count_dropped (set_dead db))
    else (None, db)
  end.

(** [db_start], with the outcome of each allocation, of the child, of the
    probe (when there is one) and of the thread. *)
Definition db_start (queue_cap : nat) (calloc_db calloc_items spawned : bool) (probe : option exec_result) (thread : bool)
    : option db_t :=
  if negb calloc_db then None
  else
    let cap := if (0 <? queue_cap)%nat then queue_cap else 256 in
    if negb calloc_items || negb spawned then None
    else match probe with
    | Some Gone => None
    | _ => if negb thread then None else Some (mkDb (replicate cap None) cap 0 0 0 false false 0 0)
    end.

(** [db_submit]'s return code and the queue; [copied]: [strdup] succeeded. *)
Definition db_submit (sql : cstr) (copied : bool) (db : db_t) : Z * db_t :=
  if negb copied then ((-1)%Z, count_dropped db)
  else if (q_count db =? q_cap db)%nat || q_stopping db || q_dead db then ((-1)%Z, count_dropped db)
  else (0%Z, push sql db).

(** [db_stop] behind [pthread_join]: what is left is thrown away, and the two
    counters are reported. *)
Fixpoint drain (n : nat) (db : db_t) : db_t :=
  match n with
  | O => db
  | S n' => if (0 <? q_count db)%nat then drain n' (count_dropped (pop db)) else db
  end.

Definition db_stop_report (db : db_t) : Z * Z :=
  let db' := drain (q_count db) db in (q_dropped db', q_errors db').

(** ** The threads

    The worker's place in [worker_main], and the history: which submissions
    were taken in, in order, which were refused, and how each statement that
    left the queue ended. *)

Inductive worker := Waiting | Running (sql : cstr) (attempt : nat) | Exited.

Record sys := mkSys {
  s_db : db_t; s_worker : worker;
  s_accepted : list cstr; s_refused : list cstr; s_finished : list (cstr * fate) }.

Inductive action :=
  | Submit (sql : cstr) (copied : bool)
  | Stop
  | Work (r : exec_result) (spawned : bool).

Definition worker_step (r : exec_result) (spawned : bool) (s : sys) : sys :=
  match s_worker s with
  | Exited => s
  | Waiting =>
    match dequeue (s_db s) with
    | None => s
    | Some (None, db) => mkSys db Exited (s_accepted s) (s_refused s) (s_finished s)
    | Some (Some sql, db) => mkSys db (Running sql 0) (s_accepted s) (s_refused s) (s_finished s)
    end
  | Running sql a =>
    match execute_turn a r spawned (s_db s) with
    | (None, db) => mkSys db (Running sql (S a)) (s_accepted s) (s_refused s) (s_finished s)
    | (Some f, db) => mkSys db Waiting (s_accepted s) (s_refused s) (s_finished s ++ [(sql, f)])
    end
  end.

Definition apply (a : action) (s : sys) : sys :=
  match a with
  | Submit sql copied =>
    let '(rc, db) := db_submit sql copied (s_db s) in
    if (rc =? 0)%Z then mkSys db (s_worker s) (s_accepted s ++ [sql]) (s_refused s) (s_finished s)
    else mkSys db (s_worker s) (s_accepted s) (s_refused s ++ [sql]) (s_finished s)
  | Stop => mkSys (set_stopping (s_db s)) (s_worker s) (s_accepted s) (s_refused s) (s_finished s)
  | Work r spawned => worker_step r spawned s
  end.

Inductive reachable : sys -> Prop :=
  | reach_start queue_cap a b c probe thread db :
      db_start queue_cap a b c probe thread = Some db -> reachable (mkSys db Waiting [] [] [])
  | reach_step a s : reachable s -> reachable (apply a s).

(** ** The ring is a queue *)

(** The statements in the ring, oldest first. *)
Definition contents (db : db_t) : list (option cstr) :=
  map (fun i => mjoin (q_items db !! ((q_head db + i) mod q_cap db))) (seq 0 (q_count db)).

Record ring_ok (db : db_t) : Prop := mkRingOk {
  ring_items : length (q_items db) = q_cap db;
  ring_head : (q_head db < q_cap db)%nat;
  ring_tail : q_tail db = (q_head db + q_count db) mod q_cap db;
  ring_count : (q_count db <= q_cap db)%nat }.

Lemma wrap_around h i c : (h < c)%nat -> (i <= c)%nat ->
  ((h + i) mod c = if h + i <? c then h + i else h + i - c)%nat.
Proof.
  intros Hh Hi. destruct (Nat.ltb_spec (h + i) c); [by apply Nat.mod_small|].
  replace (h + i)%nat with (h + i - c + 1 * c)%nat at 1 by lia. rewrite Nat.Div0.mod_add. apply Nat.mod_small. lia.
Qed.

Lemma contents_length db : length (contents db) = q_count db.
Proof. unfold contents. by rewrite length_map, length_seq. Qed.

Lemma push_ok c db : ring_ok db -> (q_count db < q_cap db)%nat ->
  ring_ok (push c db) /\ contents (push c db) = contents db ++ [Some c].
Proof.
  intros [Hi Hh Ht Hc] Hlt. split.
  - split; cbn; [by rewrite length_insert|done| |lia].
    by rewrite Ht, Nat.Div0.add_mod_idemp_l, Nat.add_assoc.
  - unfold contents. cbn [q_count q_items q_head q_cap push]. rewrite seq_app, map_app. f_equal.
    + apply map_ext_in. intros i [_ Hin]%in_seq. rewrite list_lookup_insert_ne; [done|].
      rewrite Ht, !wrap_around by lia.
      destruct (Nat.ltb_spec (q_head db + q_count db) (q_cap db)), (Nat.ltb_spec (q_head db + i) (q_cap db)); lia.
    + cbn [map seq]. rewrite Ht, list_lookup_insert_eq; [done|]. rewrite Hi. apply Nat.mod_upper_bound. lia.
Qed.

Lemma pop_ok db : ring_ok db -> (0 < q_count db)%nat ->
  ring_ok (pop db) /\ contents db = mjoin (q_items db !! q_head db) :: contents (pop db).
Proof.
  intros [Hi Hh Ht Hc] Hlt. split.
  - split; cbn; [done|apply Nat.mod_upper_bound; lia| |lia].
    rewrite Ht, Nat.Div0.add_mod_idemp_l. by replace (q_head db + 1 + (q_count db - 1))%nat with (q_head db + q_count db)%nat by lia.
  - unfold contents. cbn [q_count q_items q_head q_cap pop]. destruct (q_count db) as [|n]; [lia|].
    cbn [seq map]. rewrite Nat.add_0_r, (Nat.mod_small (q_head db)) by done. f_equal.
    rewrite Nat.sub_1_r. cbn [pred]. rewrite <-seq_shift, map_map. apply map_ext. intros i.
    rewrite Nat.Div0.add_mod_idemp_l. by replace (q_head db + 1 + i)%nat with (q_head db + S i)%nat by lia.
Qed.

(** ** Every interleaving *)

Definition in_flight (w : worker) : list cstr := match w with Running sql _ => [sql] | _ => [] end.

Definition ended (f : fate) (l : list (cstr * fate)) : nat :=
  length (List.filter (fun x => match snd x, f with FRan, FRan | FRejected, FRejected | FDropped, FDropped => true | _, _ => false end) l).

#[local] Arguments ended : simpl never.
#[local] Arguments contents : simpl never.
#[local] Arguments ulong : simpl never.

Record accounted (s : sys) (pending : list cstr) : Prop := mkAccounted {
  acc_ring : ring_ok (s_db s);
  acc_contents : contents (s_db s) = map Some pending;
  acc_order : s_accepted s = map fst (s_finished s) ++ in_flight (s_worker s) ++ pending;
  acc_dropped : q_dropped (s_db s) = ulong (Z.of_nat (length (s_refused s) + ended FDropped (s_finished s)));
  acc_errors : q_errors (s_db s) = ulong (Z.of_nat (ended FRejected (s_finished s)));
  acc_exit : s_worker s = Exited -> q_stopping (s_db s) = true /\ pending = [];
  acc_attempt : forall sql a, s_worker s = Running sql a -> (a <= DB_RESPAWN_MAX)%nat }.

Lemma ended_snoc f l sql g : ended f (l ++ [(sql, g)]) =
  (ended f l + match g, f with FRan, FRan | FRejected, FRejected | FDropped, FDropped => 1 | _, _ => 0 end)%nat.
Proof. unfold ended. rewrite List.filter_app, length_app. by destruct g, f. Qed.

Lemma ulong_succ n : ulong (ulong (Z.of_nat n) + 1) = ulong (Z.of_nat (n + 1)).
Proof. unfold ulong. rewrite Z.add_mod_idemp_l by lia. f_equal. lia. Qed.

(** The ring of a queue whose counters or flags alone changed. *)
Lemma ring_ok_same db db' : q_items db' = q_items db -> q_cap db' = q_cap db -> q_head db' = q_head db ->
  q_tail db' = q_tail db -> q_count db' = q_count db -> ring_ok db -> ring_ok db' /\ contents db' = contents db.
Proof.
  intros E1 E2 E3 E4 E5 [? ? ? ?]. split; [split; congruence|]. unfold contents. by rewrite E1, E2, E3, E5.
Qed.

Lemma start_accounted queue_cap a b c probe thread db : db_start queue_cap a b c probe thread = Some db ->
  accounted (mkSys db Waiting [] [] []) [].
Proof.
  unfold db_start. intros H. assert (exists cap, (0 < cap)%nat /\ db = mkDb (replicate cap None) cap 0 0 0 false false 0 0) as (cap & Hc & ->).
  { exists (if (0 <? queue_cap)%nat then queue_cap else 256)%nat. split; [destruct (Nat.ltb_spec 0 queue_cap); lia|].
    destruct a, b, c, thread; cbn in H; try destruct probe as [[]|]; by simplify_eq. }
  split; try done. split; cbn; [by rewrite length_replicate|done|by rewrite Nat.Div0.mod_0_l|lia].
Qed.

Lemma refused_accounted s pending sql : accounted s pending ->
  accounted (mkSys (count_dropped (s_db s)) (s_worker s) (s_accepted s) (s_refused s ++ [sql]) (s_finished s)) pending.
Proof.
  intros [Hr Hc Ho Hd He Hx Ha]. destruct (ring_ok_same (s_db s) (count_dropped (s_db s))) as [Hr' Hc']; try done.
  split; cbn; try done. rewrite Hd, ulong_succ, length_app. cbn [length]. do 2 f_equal. lia.
Qed.

Lemma submit_accounted s pending sql copied : accounted s pending -> exists p', accounted (apply (Submit sql copied) s) p'.
Proof.
  intros H. pose proof H as [Hr Hc Ho Hd He Hx Ha]. cbn [apply]. unfold db_submit.
  destruct copied; cbn [negb]; [|exists pending; by apply refused_accounted].
  destruct ((q_count (s_db s) =? q_cap (s_db s))%nat || q_stopping (s_db s) || q_dead (s_db s)) eqn:Hg;
    [exists pending; by apply refused_accounted|].
  apply orb_false_iff in Hg as [[Hne%Nat.eqb_neq Hs]%orb_false_iff _]. pose proof (ring_count _ Hr).
  destruct (push_ok sql _ Hr) as [Hr' Hc']; [lia|]. exists (pending ++ [sql]). split; cbn; try done.
  - by rewrite Hc', Hc, map_app.
  - by rewrite Ho, !app_assoc.
  - intros E. destruct (Hx E). congruence.
Qed.

Lemma stop_accounted s pending : accounted s pending -> accounted (apply Stop s) pending.
Proof.
  intros [Hr Hc Ho Hd He Hx Ha]. destruct (ring_ok_same (s_db s) (set_stopping (s_db s))) as [Hr' Hc']; try done.
  split; cbn; try done. intros E. by destruct (Hx E).
Qed.

Lemma turn_accounted s pending sql a r spawned : accounted s pending -> s_worker s = Running sql a ->
  accounted (worker_step r spawned s) pending.
Proof.
  intros [Hr Hc Ho Hd He Hx Ha] Hw. unfold worker_step. rewrite Hw in *. specialize (Ha _ _ eq_refl).
  destruct (execute_turn a r spawned (s_db s)) as [[f|] db] eqn:E.
  - assert (q_dropped db = ulong (q_dropped (s_db s) + match f with FDropped => 1 | _ => 0 end) /\
      q_errors db = ulong (q_errors (s_db s) + match f with FRejected => 1 | _ => 0 end) /\
      ring_ok db /\ contents db = contents (s_db s)) as (E1 & E2 & E3 & E4).
    { unfold execute_turn in E. repeat case_match; simplify_eq/=; rewrite ?Z.add_0_r, ?Hd, ?He; unfold ulong;
        rewrite ?Z.mod_mod by lia; (split; [done|split; [done|]]); by apply ring_ok_same. }
    split; cbn; try done; [congruence|by rewrite Ho, map_app, <-app_assoc| |].
    + rewrite E1, Hd, ended_snoc. destruct f; rewrite ?Z.add_0_r, ?Nat.add_0_r, ?ulong_succ;
        [unfold ulong; by rewrite Z.mod_mod|unfold ulong; by rewrite Z.mod_mod|]. by rewrite Nat.add_assoc.
    + rewrite E2, He, ended_snoc. destruct f; rewrite ?Z.add_0_r, ?Nat.add_0_r, ?ulong_succ;
        [unfold ulong; by rewrite Z.mod_mod|done|unfold ulong; by rewrite Z.mod_mod].
  - unfold execute_turn in E. repeat case_match; simplify_eq/=. split; cbn; try done.
    intros ? ? [= _ <-]. destruct (Nat.eqb_spec a DB_RESPAWN_MAX); [done|lia].
Qed.

Lemma work_accounted s pending r spawned : accounted s pending -> exists p', accounted (apply (Work r spawned) s) p'.
Proof.
  intros H. cbn [apply]. destruct (s_worker s) as [|sql a|] eqn:Hw; [|by eexists; eapply turn_accounted|].
  2: { exists pending. unfold worker_step. by rewrite Hw. }
  pose proof H as [Hr Hc Ho Hd He Hx Ha]. unfold worker_step, dequeue. rewrite Hw in *.
  destruct (Nat.eqb_spec (q_count (s_db s)) 0) as [H0|H0]; cbn [andb].
  - assert (pending = []) as -> by (apply (f_equal length) in Hc; rewrite contents_length, H0, length_map in Hc; by destruct pending).
    rewrite H0. cbn [Nat.ltb Nat.leb]. destruct (q_stopping (s_db s)) eqn:Hs; cbn [negb]; exists []; [|done].
    by split.
  - rewrite (proj2 (Nat.ltb_lt _ _)) by lia. destruct (pop_ok _ Hr ltac:(lia)) as [Hr' Hc']. rewrite Hc' in Hc.
    destruct pending as [|sql pending]; [done|]. cbn [map] in Hc. injection Hc as -> Hc. exists pending.
    split; cbn; try done. intros ? ? [= _ <-]. lia.
Qed.

Lemma reachable_accounted s : reachable s -> exists pending, accounted s pending.
Proof.
  induction 1 as [|a s _ [pending IH]]; [by eexists; eapply start_accounted|].
  destruct a; [by eapply submit_accounted|exists pending; by apply stop_accounted|by eapply work_accounted].
Qed.

(** ** Shutting down *)

(** The worker's steps still to come once [stopping] is set. *)
Definition work_left (s : sys) : nat :=
  match s_worker s with
  | Exited => 0
  | Waiting => 1 + 6 * q_count (s_db s)
  | Running _ a => 5 - a + 6 * q_count (s_db s)
  end.

Definition works (l : list action) : nat := length (List.filter (fun a => match a with Work _ _ => true | _ => false end) l).

Definition run (l : list action) (s : sys) : sys := foldl (fun s a => apply a s) s l.

Lemma reachable_run l s : reachable s -> reachable (run l s).
Proof. revert s; induction l as [|a l IH]; intros s H; [done|]. apply IH. by constructor. Qed.

Lemma work_left_bound s : reachable s -> (work_left s <= 6 * q_cap (s_db s) + 5)%nat.
Proof.
  intros (p & [Hr _ _ _ _ _ _])%reachable_accounted. pose proof (ring_count _ Hr). unfold work_left.
  destruct (s_worker s); lia.
Qed.

Lemma stopping_kept a s : q_stopping (s_db s) = true -> q_stopping (s_db (apply a s)) = true.
Proof.
  intros Hs. destruct a as [sql copied| |r spawned]; cbn [apply]; [|done|].
  - unfold db_submit. rewrite Hs, orb_true_r. by destruct copied.
  - unfold worker_step, dequeue, execute_turn. rewrite Hs. repeat case_match; simplify_eq/=; done.
Qed.

(** Each step of the worker brings it closer to the exit, and nobody else can
    push it back. *)
Lemma work_left_step a s : reachable s -> q_stopping (s_db s) = true ->
  (work_left (apply a s) <= work_left s - match a with Work _ _ => 1 | _ => 0 end)%nat.
Proof.
  intros (p & [Hr Hc _ _ _ _ Ha])%reachable_accounted Hs. destruct a as [sql copied| |r spawned]; cbn [apply].
  - unfold db_submit. rewrite Hs, orb_true_r. destruct copied; cbn; unfold work_left; cbn; lia.
  - unfold work_left. cbn. lia.
  - unfold worker_step, work_left. destruct (s_worker s) as [|sql a|] eqn:Hw; [| |rewrite Hw; lia].
    + unfold dequeue. rewrite Hs. cbn [negb]. rewrite andb_false_r.
      destruct (Nat.ltb_spec 0 (q_count (s_db s))); [|cbn; lia].
      destruct (mjoin (q_items (s_db s) !! q_head (s_db s))); cbn; lia.
    + specialize (Ha _ _ eq_refl). unfold DB_RESPAWN_MAX in Ha. unfold execute_turn, DB_RESPAWN_MAX.
      destruct (q_dead (s_db s)); [cbn; lia|]. destruct r; [cbn; lia..|].
      destruct (Nat.eqb_spec a 3), spawned; cbn; lia.
Qed.

Lemma run_exits l s : reachable s -> q_stopping (s_db s) = true -> (work_left s <= works l)%nat ->
  s_worker (run l s) = Exited.
Proof.
  revert s; induction l as [|a l IH]; intros s Hr Hs Hl.
  - unfold work_left in Hl. cbn in *. destruct (reachable_accounted s Hr) as (p & [_ _ _ _ _ _ Ha]).
    destruct (s_worker s) as [|sql k|] eqn:Hw; [lia| |done]. specialize (Ha _ _ eq_refl). unfold DB_RESPAWN_MAX in Ha. lia.
  - cbn. apply IH; [by constructor|by apply stopping_kept|]. pose proof (work_left_step a s Hr Hs).
    unfold works in *. destruct a; cbn in *; lia.
Qed.

(** ** What the queue promises *)

(** C20: no statement is lost, repeated in the queue, or reordered.  At every
    point of every interleaving of submitters, worker and shutdown, whatever
    the child does, the accepted statements are, in submission order, those
    that ended, then the one the worker holds, then those in the ring; the
    ring holds no more than its capacity; and the two counters are exactly the
    refused and dropped statements and the rejected ones (modulo the width of
    an unsigned long). *)
Theorem queue_accounts_for_everything s : reachable s -> exists pending,
  contents (s_db s) = map Some pending /\ (length pending <= q_cap (s_db s))%nat /\
  s_accepted s = map fst (s_finished s) ++ in_flight (s_worker s) ++ pending /\
  q_dropped (s_db s) = ulong (Z.of_nat (length (s_refused s) + ended FDropped (s_finished s))) /\
  q_errors (s_db s) = ulong (Z.of_nat (ended FRejected (s_finished s))).
Proof.
  intros (pending & [Hr Hc Ho Hd He _ _])%reachable_accounted. exists pending. split; [done|]. split; [|done].
  rewrite <-(length_map Some pending), <-Hc, contents_length. apply Hr.
Qed.

(** C22: shutdown terminates and loses nothing silently.  Once [stopping] is
    set, the worker exits after at most [6 * cap + 5] of its own steps,
    whatever the child does and whatever is still submitted; then every
    accepted statement has ended, the ring is empty, and [db_stop] reports the
    refused and dropped statements and the rejected ones. *)
Theorem stop_drains_the_queue s l : reachable s -> q_stopping (s_db s) = true ->
  (6 * q_cap (s_db s) + 5 <= works l)%nat ->
  let s' := run l s in
  s_worker s' = Exited /\ q_count (s_db s') = 0%nat /\ s_accepted s' = map fst (s_finished s') /\
  db_stop_report (s_db s') =
    (ulong (Z.of_nat (length (s_refused s') + ended FDropped (s_finished s'))), ulong (Z.of_nat (ended FRejected (s_finished s')))).
Proof.
  intros Hr Hs Hl s'. assert (Hw : s_worker s' = Exited).
  { apply run_exits; [done..|]. pose proof (work_left_bound s Hr). lia. }
  destruct (reachable_accounted s' (reachable_run l s Hr)) as (p & [_ Hc Ho Hd He Hx _]). destruct (Hx Hw) as [_ ->].
  assert (H0 : q_count (s_db s') = 0%nat) by (by rewrite <-contents_length, Hc). rewrite Hw in Ho. cbn in Ho.
  rewrite app_nil_r in Ho. split; [done|]. split; [done|]. split; [done|].
  unfold db_stop_report. rewrite H0. cbn. by rewrite Hd, He.
Qed.

(** ** A run: a ring of two, a full ring, a child that dies and comes back *)

Definition sample_start : sys := mkSys (mkDb (replicate 2 None) 2 0 0 0 false false 0 0) Waiting [] [] [].

Lemma sample_reachable : reachable sample_start.
Proof. by apply (reach_start 2 true true true None true). Qed.

Definition sample_actions : list action :=
  [Submit ($"a") true; Submit ($"b") true; Submit ($"c") true; Work Ran true; Work Gone true; Submit ($"d") true;
   Work Rejected true; Work Ran true; Stop; Submit ($"e") true].

Lemma queue_accounts_for_everything_witness :
  let s := run sample_actions sample_start in
  s_accepted s = [$"a"; $"b"; $"d"] /\ s_refused s = [$"c"; $"e"] /\ s_finished s = [($"a", FRejected)] /\
  exists pending, contents (s_db s) = map Some pending /\ (length pending <= q_cap (s_db s))%nat /\
    s_accepted s = map fst (s_finished s) ++ in_flight (s_worker s) ++ pending /\
    q_dropped (s_db s) = ulong (Z.of_nat (length (s_refused s) + ended FDropped (s_finished s))) /\
    q_errors (s_db s) = ulong (Z.of_nat (ended FRejected (s_finished s))).
Proof.
  intros s. split; [reflexivity|]. split; [reflexivity|]. split; [reflexivity|].
  apply (queue_accounts_for_everything s), reachable_run, sample_reachable.
Defined.

Lemma stop_drains_the_queue_witness :
  let s := run sample_actions sample_start in let s' := run (replicate 17 (Work Gone false)) s in
  s_worker s' = Exited /\ q_count (s_db s') = 0%nat /\ s_accepted s' = map fst (s_finished s') /\
  db_stop_report (s_db s') =
    (ulong (Z.of_nat (length (s_refused s') + ended FDropped (s_finished s'))), ulong (Z.of_nat (ended FRejected (s_finished s')))).
Proof.
  intros s. apply (stop_drains_the_queue s (replicate 17 (Work Gone false))).
  - apply reachable_run, sample_reachable.
  - reflexivity.
  - vm_compute. lia.
Defined.

(** Its report: four dropped (two refused, two the dead child left) and one
    rejected. *)
Example sample_report :
  db_stop_report (s_db (run (replicate 17 (Work Gone false)) (run sample_actions sample_start))) = (4, 1)%Z.
Proof. reflexivity. Qed.

End Queue.
