(* ===== verification/Tetrissh.v ===== *)
(** * The encrypted session: libtetrissh/tetrissh.c and common.c

    A socket is what the peer's bytes arrive as, cut into segments by the
    network, and what the kernel takes of each write.  OpenSSL is the class
    [OpenSSL]: each of its operations with the options the sources pass, [None]
    for the failure of any call on the way.  Random bytes are arguments,
    [None] when [RAND_bytes] fails.  Allocation failures are left out: the
    sources report them as the error of the call they occur in. *)
From S2P Require Import Prelude CText.
Local Open Scope Z_scope.

Module Tetrissh.

Abbreviation bytes := (list ascii).

Definition byte_of (z : Z) : ascii := ascii_of_N (Z.to_N (u8 z)).
Definition u64 (z : Z) : Z := z mod 2 ^ 64.

(** ** common.c: integers *)

Definition INT_BYTES : nat := 8.

(** The low [n] bytes of [x], the most significant first: the loop writes
    them from the last. *)
Fixpoint be_bytes (n : nat) (x : Z) : bytes :=
  match n with
  | O => []
  | S n' => be_bytes n' (Z.shiftr x 8) ++ [byte_of (Z.land x 255)]
  end.

Definition int_to_bytes (x : Z) : bytes := be_bytes INT_BYTES x.

Definition bytes_to_int (buf : bytes) : Z :=
  foldl (fun result b => u64 (Z.lor (Z.shiftl result 8) (code b))) 0 buf.

(** ** common.c: the socket *)

(** [so_in]: the segments the peer's bytes arrive in; an empty one, or none
    left, is a [recv] that returns 0 or fails.  [so_takes]: how many bytes
    each of the next [send]s takes, 0 for a failure; when none are left the
    kernel takes everything.  [so_out]: the bytes taken. *)
Record sock := mkSock { so_in : list bytes; so_takes : list nat; so_out : bytes }.

Definition recv (n : nat) (k : sock) : option (bytes * sock) :=
  match so_in k with
  | [] | [] :: _ => None
  | seg :: rest =>
    Some (take n seg,
          mkSock (match drop n seg with [] => rest | more => more :: rest end) (so_takes k) (so_out k))
  end.

Definition CHUNK : nat := Z.to_nat 1024.

(** [remaining] bytes are missing; a turn reads at least one of them. *)
Fixpoint read_loop (fuel remaining : nat) (buffer : bytes) (k : sock) : option bytes * sock :=
  match remaining, fuel with
  | O, _ => (Some buffer, k)
  | _, O => (None, k)
  | S _, S f =>
    match recv (if (remaining <? CHUNK)%nat then remaining else CHUNK) k with
    | None => (None, k)
    | Some (got, k') => read_loop f (remaining - length got) (buffer ++ got) k'
    end
  end.

Definition read_bytes (length : nat) (k : sock) : option bytes * sock := read_loop length length [] k.

Definition send (buf : bytes) (k : sock) : option nat * sock :=
  match so_takes k with
  | [] => (Some (length buf), mkSock (so_in k) [] (so_out k ++ buf))
  | O :: rest => (None, mkSock (so_in k) rest (so_out k))
  | n :: rest => (Some (Nat.min n (length buf)), mkSock (so_in k) rest (so_out k ++ take n buf))
  end.

Fixpoint send_loop (fuel : nat) (buf : bytes) (k : sock) : bool * sock :=
  match buf, fuel with
  | [], _ => (true, k)
  | _, O => (false, k)
  | _, S f =>
    match send buf k with
    | (None, k') => (false, k')
    | (Some n, k') => send_loop f (drop n buf) k'
    end
  end.

(** [true] is 0, [false] is -1. *)
Definition send_all (buf : bytes) (k : sock) : bool * sock := send_loop (length buf) buf k.

Definition send_int (value : Z) (k : sock) : bool * sock := send_all (int_to_bytes value) k.

(** ** OpenSSL, as the sources call it *)

Inductive rsa_padding := RSA_PKCS1_PSS_PADDING | RSA_PKCS1_OAEP_PADDING | RSA_PKCS1_PADDING.
Inductive digest := EVP_sha256.
Inductive saltlen := RSA_PSS_SALTLEN_MAX.

Class OpenSSL := {
  EVP_PKEY : Type;   (** a private key *)
  X509 : Type;       (** a certificate *)
  PUBKEY : Type;     (** its public key *)
  PEM_read_X509 : bytes -> option X509;
  X509_verify_cert : X509 -> X509 -> bool;               (** trusted certificate, certificate *)
  X509_get_pubkey : X509 -> option PUBKEY;
  EVP_DigestSign : digest -> rsa_padding -> saltlen -> bytes -> EVP_PKEY -> bytes -> option bytes;
                                                         (** the salt, the key, the message *)
  EVP_DigestVerify : digest -> rsa_padding -> saltlen -> PUBKEY -> bytes -> bytes -> bool;
                                                         (** the key, the signature, the message *)
  EVP_PKEY_encrypt : rsa_padding -> option digest -> bytes -> PUBKEY -> bytes -> option bytes;
  EVP_PKEY_decrypt : rsa_padding -> option digest -> EVP_PKEY -> bytes -> option bytes;
  EVP_aes_128_cbc_encrypt : bytes -> bytes -> bytes -> option bytes;   (** key, IV, plaintext *)
  EVP_aes_128_cbc_decrypt : bytes -> bytes -> bytes -> option bytes;
  HMAC : digest -> bytes -> bytes -> option bytes }.

Section Session.
Context {SSL : OpenSSL}.

(** ** common.c: certificates, RSA, the session cipher *)

Definition AES_KEY_LEN : nat := 16.
Definition AES_IV_LEN : nat := 16.
Definition AES_BLOCK : nat := 16.
Definition HMAC_KEY_LEN : nat := 16.
Definition HMAC_LEN : nat := 32.
Definition SESSION_KEY_LEN : nat := HMAC_KEY_LEN + AES_KEY_LEN.
Definition RSA_KEY_BYTES : Z := 1024 / 8.

(** [ca_file]: what the file at [ca_cert_path] holds, if it opens. *)
Definition load_cert_file (ca_file : option bytes) : option X509 := data ← ca_file; PEM_read_X509 data.
Definition load_cert_bytes (data : bytes) : option X509 := PEM_read_X509 data.

Definition verify_server_cert (server_cert : X509) (ca_file : option bytes) : bool :=
  match load_cert_file ca_file with
  | None => false
  | Some ca_cert => X509_verify_cert ca_cert server_cert
  end.

Definition sign_message_pss (salt : bytes) (priv_key : EVP_PKEY) (msg : bytes) : option bytes :=
  EVP_DigestSign EVP_sha256 RSA_PKCS1_PSS_PADDING RSA_PSS_SALTLEN_MAX salt priv_key msg.

Definition verify_message_pss (cert : X509) (sig msg : bytes) : bool :=
  match X509_get_pubkey cert with
  | None => false
  | Some pub_key => EVP_DigestVerify EVP_sha256 RSA_PKCS1_PSS_PADDING RSA_PSS_SALTLEN_MAX pub_key sig msg
  end.

Definition rsa_encrypt_block (seed : bytes) (pub_key : PUBKEY) (plain : bytes) (use_oaep : bool) : option bytes :=
  if use_oaep then EVP_PKEY_encrypt RSA_PKCS1_OAEP_PADDING (Some EVP_sha256) seed pub_key plain
  else EVP_PKEY_encrypt RSA_PKCS1_PADDING None seed pub_key plain.

Definition rsa_decrypt_block (priv_key : EVP_PKEY) (cipher : bytes) (use_oaep : bool) : option bytes :=
  if use_oaep then EVP_PKEY_decrypt RSA_PKCS1_OAEP_PADDING (Some EVP_sha256) priv_key cipher
  else EVP_PKEY_decrypt RSA_PKCS1_PADDING None priv_key cipher.

(** IV, ciphertext, HMAC over both. *)
Definition session_encrypt (key : bytes) (iv : option bytes) (plain : bytes) : option bytes :=
  let hmac_key := take HMAC_KEY_LEN key in
  let aes_key := take AES_KEY_LEN (drop HMAC_KEY_LEN key) in
  iv ← iv;
  ct ← EVP_aes_128_cbc_encrypt aes_key iv plain;
  mac ← HMAC EVP_sha256 hmac_key (iv ++ ct);
  Some (iv ++ ct ++ mac).

Definition session_decrypt (key token : bytes) : option bytes :=
  let hmac_key := take HMAC_KEY_LEN key in
  let aes_key := take AES_KEY_LEN (drop HMAC_KEY_LEN key) in
  if (length token <? AES_IV_LEN + AES_BLOCK + HMAC_LEN)%nat then None
  else
    let ct_len := (length token - AES_IV_LEN - HMAC_LEN)%nat in
    let iv := take AES_IV_LEN token in
    let ct := take ct_len (drop AES_IV_LEN token) in
    let hmac_received := drop (AES_IV_LEN + ct_len) token in
    mac ← HMAC EVP_sha256 hmac_key (take (AES_IV_LEN + ct_len) token);
    if negb (bool_decide (mac = hmac_received)) then None
    else EVP_aes_128_cbc_decrypt aes_key iv ct.

(** ** tetrissh.h *)

Definition SESSION_MAX_FRAME : Z := 64 * 1024.

Inductive session_err_t :=
  SESSION_OK | SESSION_ERR_IO | SESSION_ERR_AUTH | SESSION_ERR_CRYPTO | SESSION_ERR_TOOBIG
| SESSION_ERR_PROTO | SESSION_ERR_NOSPACE.

Record session_t := mkSession { ss_key : bytes; ss_established : bool; ss_recv_dead : bool }.
Definition zero_session : session_t := mkSession (replicate SESSION_KEY_LEN "000"%char) false false.

(** ** tetrissh.c *)

Definition TSSH_NONCE_LEN : nat := 32.
Definition TSSH_MAX_NONCE_LEN : Z := 64.
Definition TSSH_MAX_SIG_LEN : Z := 512.
Definition TSSH_MAX_CERT_LEN : Z := 8192.
Definition FRAME_PREFIX_BYTES : nat := 4.

Definition send_u32 (value : Z) (k : sock) : bool * sock :=
  send_all [byte_of (Z.shiftr value 24); byte_of (Z.shiftr value 16); byte_of (Z.shiftr value 8); byte_of value] k.

Definition read_u32 (k : sock) : option Z * sock :=
  match read_bytes FRAME_PREFIX_BYTES k with
  | (Some [b0; b1; b2; b3], k') =>
    (Some (Z.lor (Z.lor (Z.lor (Z.shiftl (code b0) 24) (Z.shiftl (code b1) 16)) (Z.shiftl (code b2) 8)) (code b3)), k')
  | (_, k') => (None, k')
  end.

(** A length-prefixed handshake field of 1 to [cap] bytes. *)
Definition read_field (cap : Z) (k : sock) : (session_err_t + bytes) * sock :=
  match read_bytes INT_BYTES k with
  | (None, k1) => (inl SESSION_ERR_IO, k1)
  | (Some lenbuf, k1) =>
    let len := bytes_to_int lenbuf in
    if (len =? 0) || (cap <? len) then (inl SESSION_ERR_PROTO, k1)
    else match read_bytes (Z.to_nat len) k1 with
         | (None, k2) => (inl SESSION_ERR_IO, k2)
         | (Some data, k2) => (inr data, k2)
         end
  end.

(** [send_int(fd, len) < 0 || send_all(fd, data, len) < 0] *)
Definition send_field (data : bytes) (k : sock) : bool * sock :=
  match send_int (Z.of_nat (length data)) k with
  | (false, k1) => (false, k1)
  | (true, k1) => send_all data k1
  end.

(** The code and the session, zeroed unless the handshake succeeded. *)
Definition session_connect (ca_file : option bytes) (nonce : option bytes) (new_key : option bytes) (seed : bytes) (k : sock)
    : session_err_t * session_t * sock :=
  match nonce with
  | None => (SESSION_ERR_CRYPTO, zero_session, k)
  | Some nonce =>
    match send_field nonce k with
    | (false, k1) => (SESSION_ERR_IO, zero_session, k1)
    | (true, k1) =>
      match read_field TSSH_MAX_SIG_LEN k1 with
      | (inl e, k2) => (e, zero_session, k2)
      | (inr signed_nonce, k2) =>
        match read_field TSSH_MAX_CERT_LEN k2 with
        | (inl e, k3) => (e, zero_session, k3)
        | (inr server_cert_buf, k3) =>
          match load_cert_bytes server_cert_buf with
          | None => (SESSION_ERR_AUTH, zero_session, k3)
          | Some server_cert =>
            if negb (verify_server_cert server_cert ca_file) then (SESSION_ERR_AUTH, zero_session, k3)
            else if negb (verify_message_pss server_cert signed_nonce nonce) then (SESSION_ERR_AUTH, zero_session, k3)
            else match X509_get_pubkey server_cert, new_key with
            | Some server_pub, Some session_key =>
              match rsa_encrypt_block seed server_pub session_key true with
              | None => (SESSION_ERR_CRYPTO, zero_session, k3)
              | Some sym_key =>
                match send_field sym_key k3 with
                | (false, k4) => (SESSION_ERR_IO, zero_session, k4)
                | (true, k4) => (SESSION_OK, mkSession session_key true false, k4)
                end
              end
            | _, _ => (SESSION_ERR_CRYPTO, zero_session, k3)
            end
          end
        end
      end
    end
  end.

(** [cert_file]: what the file at [cert_path] holds; [None] when it cannot be
    opened, measured or read. *)
Definition session_accept (priv : EVP_PKEY) (cert_file : option bytes) (salt : bytes) (k : sock)
    : session_err_t * session_t * sock :=
  match read_field TSSH_MAX_NONCE_LEN k with
  | (inl e, k1) => (e, zero_session, k1)
  | (inr nonce, k1) =>
    match sign_message_pss salt priv nonce with
    | None => (SESSION_ERR_CRYPTO, zero_session, k1)
    | Some signed_nonce =>
      match send_field signed_nonce k1 with
      | (false, k2) => (SESSION_ERR_IO, zero_session, k2)
      | (true, k2) =>
        match cert_file with
        | None | Some [] => (SESSION_ERR_IO, zero_session, k2)
        | Some cert_data =>
          match send_field cert_data k2 with
          | (false, k3) => (SESSION_ERR_IO, zero_session, k3)
          | (true, k3) =>
            match read_bytes INT_BYTES k3 with
            | (None, k4) => (SESSION_ERR_IO, zero_session, k4)
            | (Some lenbuf, k4) =>
              if negb (bytes_to_int lenbuf =? RSA_KEY_BYTES) then (SESSION_ERR_PROTO, zero_session, k4)
              else match read_bytes (Z.to_nat RSA_KEY_BYTES) k4 with
              | (None, k5) => (SESSION_ERR_IO, zero_session, k5)
              | (Some symkey_buf, k5) =>
                match rsa_decrypt_block priv symkey_buf true with
                | None => (SESSION_ERR_CRYPTO, zero_session, k5)
                | Some key_buf =>
                  if negb (length key_buf =? SESSION_KEY_LEN)%nat then (SESSION_ERR_CRYPTO, zero_session, k5)
                  else (SESSION_OK, mkSession key_buf true false, k5)
                end
              end
            end
          end
        end
      end
    end
  end.

Definition session_send (s : session_t) (iv : option bytes) (buf : bytes) (k : sock) : session_err_t * sock :=
  if negb (ss_established s) then (SESSION_ERR_PROTO, k)
  else if SESSION_MAX_FRAME <? Z.of_nat (length buf) then (SESSION_ERR_TOOBIG, k)
  else match session_encrypt (ss_key s) iv buf with
  | None => (SESSION_ERR_CRYPTO, k)
  | Some message =>
    if SESSION_MAX_FRAME <? Z.of_nat (length message) then (SESSION_ERR_TOOBIG, k)
    else match send_u32 (Z.of_nat (length message)) k with
         | (false, k1) => (SESSION_ERR_IO, k1)
         | (true, k1) =>
           match send_all message k1 with
           | (false, k2) => (SESSION_ERR_IO, k2)
           | (true, k2) => (SESSION_OK, k2)
           end
         end
  end.

(** The code, the received plaintext on [SESSION_OK] ([cap] is [*len] on
    entry), and the session. *)
Definition session_recv (s : session_t) (cap : nat) (k : sock) : session_err_t * bytes * session_t * sock :=
  if negb (ss_established s) || ss_recv_dead s then (SESSION_ERR_PROTO, [], s, k)
  else match read_u32 k with
  | (None, k1) => (SESSION_ERR_IO, [], s, k1)
  | (Some token_len, k1) =>
    if SESSION_MAX_FRAME <? token_len then
      (SESSION_ERR_TOOBIG, [], mkSession (ss_key s) (ss_established s) true, k1)
    else match read_bytes (Z.to_nat token_len) k1 with
    | (None, k2) => (SESSION_ERR_IO, [], s, k2)
    | (Some token, k2) =>
      match session_decrypt (ss_key s) token with
      | None => (SESSION_ERR_CRYPTO, [], s, k2)
      | Some plain =>
        if (cap <? length plain)%nat then (SESSION_ERR_NOSPACE, [], s, k2)
        else (SESSION_OK, plain, s, k2)
      end
    end
  end.

Definition session_close (s : session_t) : session_t :=
  mkSession (replicate SESSION_KEY_LEN "000"%char) false (ss_recv_dead s).

End Session.

End Tetrissh.
