(* ===== verification/Tunnel.v ===== *)
(** * What the encrypted session guarantees

    The laws of OpenSSL the session relies on, and what follows from the code:
    two honest peers agree on a key, what one sends the other receives in
    order however the network cuts it, and nothing reaches the application
    that the key did not authenticate. *)
From S2P Require Import Prelude CText Tetrissh.
Import Tetrissh.
Local Open Scope Z_scope.

Module Tunnel.

(** ** Big-endian integers *)

Lemma code_byte_of z : code (byte_of z) = u8 z.
Proof. unfold byte_of. apply code_ascii_of_Z. unfold u8. apply Z.mod_pos_bound. lia. Qed.

Lemma be_bytes_length n x : length (be_bytes n x) = n.
Proof. revert x; induction n as [|n IH]; intros x; [done|]. cbn [be_bytes]. rewrite length_app, IH. simpl. lia. Qed.

Lemma shift_or x b : 0 <= b < 256 -> Z.lor (Z.shiftl x 8) b = x * 256 + b.
Proof.
  intros Hb. rewrite <-Z.add_nocarry_lor; [by rewrite Z.shiftl_mul_pow2|]. apply Z.bits_inj'. intros i Hi.
  rewrite Z.land_spec, Z.bits_0. destruct (Z.ltb_spec i 8); [by rewrite Z.shiftl_spec_low|].
  rewrite <-(Z.mod_small b (2 ^ 8)), Z.mod_pow2_bits_high by lia. apply andb_false_r.
Qed.

(** The value of a byte string, the most significant byte first. *)
Definition be_value (buf : bytes) : Z := foldl (fun r b => r * 256 + code b) 0 buf.

Lemma be_value_snoc buf b : be_value (buf ++ [b]) = be_value buf * 256 + code b.
Proof. unfold be_value. by rewrite foldl_app. Qed.

Lemma be_value_range buf : 0 <= be_value buf < 256 ^ Z.of_nat (length buf).
Proof.
  induction buf as [|b buf IH] using rev_ind; [done|]. rewrite be_value_snoc, length_app. cbn [length].
  rewrite Nat2Z.inj_add, Z.pow_add_r, Z.pow_1_r by lia. pose proof (code_range b). nia.
Qed.

Lemma byte_of_mask x : byte_of (Z.land x 255) = byte_of x.
Proof. unfold byte_of, u8. change 255 with (Z.ones 8). rewrite Z.land_ones by lia. by rewrite Z.mod_mod. Qed.

Lemma be_value_bytes n x : 0 <= x < 256 ^ Z.of_nat n -> be_value (be_bytes n x) = x.
Proof.
  revert x; induction n as [|n IH]; intros x Hx; [change (256 ^ Z.of_nat 0) with 1 in Hx; change (0 = x); lia|]. cbn [be_bytes].
  rewrite be_value_snoc, byte_of_mask, code_byte_of, Z.shiftr_div_pow2 by lia.
  rewrite Nat2Z.inj_succ, Z.pow_succ_r in Hx by lia. unfold u8. change (2 ^ 8) with 256.
  rewrite IH by (split; [apply Z.div_pos; lia|apply Z.div_lt_upper_bound; lia]).
  pose proof (Z.div_mod x 256 ltac:(lia)). lia.
Qed.

Lemma bytes_to_int_value buf : (length buf <= 8)%nat -> bytes_to_int buf = be_value buf.
Proof.
  induction buf as [|b buf IH] using rev_ind; [done|]. rewrite length_app. cbn [length]. intros Hl.
  rewrite be_value_snoc. unfold bytes_to_int in *. rewrite foldl_app. cbn [foldl]. rewrite IH by lia.
  rewrite shift_or by apply code_range. unfold u64. apply Z.mod_small.
  pose proof (be_value_range (buf ++ [b])) as Hr. rewrite be_value_snoc, length_app in Hr. cbn [length] in Hr.
  split; [lia|]. eapply Z.lt_le_trans; [apply Hr|]. change (2 ^ 64) with (256 ^ 8). apply Z.pow_le_mono_r; lia.
Qed.

(** [int_to_bytes] and [bytes_to_int] are inverse on 64-bit numbers. *)
Lemma int_roundtrip x : 0 <= x < 2 ^ 64 -> bytes_to_int (int_to_bytes x) = x.
Proof.
  intros Hx. rewrite bytes_to_int_value by (unfold int_to_bytes; by rewrite be_bytes_length).
  by apply be_value_bytes.
Qed.

Lemma u32_bytes v : [byte_of (Z.shiftr v 24); byte_of (Z.shiftr v 16); byte_of (Z.shiftr v 8); byte_of v] = be_bytes 4 v.
Proof. cbn [be_bytes app]. by rewrite !byte_of_mask, !Z.shiftr_shiftr by lia. Qed.

Lemma u32_value b0 b1 b2 b3 :
  Z.lor (Z.lor (Z.lor (Z.shiftl (code b0) 24) (Z.shiftl (code b1) 16)) (Z.shiftl (code b2) 8)) (code b3) = be_value [b0; b1; b2; b3].
Proof.
  unfold be_value. cbn [foldl]. pose proof (code_range b0). pose proof (code_range b1). pose proof (code_range b2).
  pose proof (code_range b3). rewrite <-(shift_or (0 * 256 + code b0)), <-!shift_or by lia.
  rewrite !Z.shiftl_lor, !Z.shiftl_shiftl by lia. by rewrite Z.shiftl_0_l, Z.lor_0_l.
Qed.

(** ** The socket *)

(** The bytes that arrive before the connection breaks. *)
Fixpoint flow (segs : list bytes) : bytes :=
  match segs with
  | [] | [] :: _ => []
  | seg :: rest => seg ++ flow rest
  end.

(** A socket with [inb] to be read, [outb] written, whose writes all succeed. *)
Record at_ (k : sock) (inb outb : bytes) : Prop := mkAt {
  at_in : flow (so_in k) = inb; at_out : so_out k = outb; at_takes : Forall (fun n => n <> 0%nat) (so_takes k) }.

Lemma recv_spec n k : (0 < n)%nat ->
  match recv n k with
  | None => flow (so_in k) = []
  | Some (got, k') => exists j, (0 < j <= n)%nat /\ (j <= length (flow (so_in k)))%nat /\ got = take j (flow (so_in k)) /\
      flow (so_in k') = drop j (flow (so_in k)) /\ so_takes k' = so_takes k /\ so_out k' = so_out k
  end.
Proof.
  intros Hn. unfold recv. destruct (so_in k) as [|[|c seg] rest] eqn:E; [done..|]. rewrite <-E. cbn [so_in so_takes so_out].
  exists (Nat.min n (length (c :: seg))). rewrite E. cbn [flow]. rewrite length_app.
  split; [simpl; lia|]. split; [lia|]. split; [|split; [|done]].
  - rewrite take_app_le by lia. destruct (Nat.le_gt_cases n (length (c :: seg))); [by rewrite Nat.min_l|].
    rewrite Nat.min_r by lia. by rewrite !take_ge by lia.
  - rewrite drop_app_le by lia. destruct (Nat.le_gt_cases n (length (c :: seg))) as [Hle|Hgt].
    + rewrite Nat.min_l by done. destruct (drop n (c :: seg)) eqn:Ed; [done|]. by cbn [flow].
    + rewrite Nat.min_r by lia. rewrite !drop_ge by lia. done.
Qed.

Lemma read_loop_ok fuel n buffer k : (n <= fuel)%nat -> (n <= length (flow (so_in k)))%nat ->
  exists k', read_loop fuel n buffer k = (Some (buffer ++ take n (flow (so_in k))), k') /\
    flow (so_in k') = drop n (flow (so_in k)) /\ so_takes k' = so_takes k /\ so_out k' = so_out k.
Proof.
  revert n buffer k; induction fuel as [|fuel IH]; intros n buffer k Hf Hl; (destruct n as [|n]; [exists k; cbn; by rewrite app_nil_r|]);
    [lia|]. cbn [read_loop]. set (m := if (S n <? CHUNK)%nat then S n else CHUNK).
  assert (Hm : (0 < m <= S n)%nat) by (unfold m, CHUNK; destruct (Nat.ltb_spec (S n) (Z.to_nat 1024)); lia).
  pose proof (recv_spec m k ltac:(lia)) as Hr. destruct (recv m k) as [[got k1]|].
  2: { rewrite Hr in Hl. simpl in Hl. lia. }
  destruct Hr as (j & Hj & Hjl & -> & Hf1 & Ht & Ho). rewrite length_take, Nat.min_l by done.
  destruct (IH (S n - j)%nat (buffer ++ take j (flow (so_in k))) k1) as (k' & E & H1 & H2 & H3);
    [lia|rewrite Hf1, length_drop; lia|].
  exists k'. rewrite E, Hf1. split; [|rewrite H1, Hf1, drop_drop; split; [by replace (j + (S n - j))%nat with (S n) by lia|split; congruence]].
  do 2 f_equal. rewrite <-app_assoc. f_equal. rewrite <-(take_drop j (take (S n) (flow (so_in k)))).
  rewrite take_take, skipn_firstn_comm, Nat.min_l by lia. done.
Qed.

Lemma read_loop_short fuel n buffer k : (length (flow (so_in k)) < n)%nat ->
  exists k', read_loop fuel n buffer k = (None, k') /\ so_takes k' = so_takes k /\ so_out k' = so_out k.
Proof.
  revert n buffer k; induction fuel as [|fuel IH]; intros n buffer k Hl; (destruct n as [|n]; [lia|]); [by exists k|].
  cbn [read_loop]. set (m := if (S n <? CHUNK)%nat then S n else CHUNK).
  assert (Hm : (0 < m)%nat) by (unfold m, CHUNK; destruct (Nat.ltb_spec (S n) (Z.to_nat 1024)); lia).
  pose proof (recv_spec m k Hm) as Hr. destruct (recv m k) as [[got k1]|]; [|by exists k].
  destruct Hr as (j & Hj & Hjl & -> & Hf1 & Ht & Ho). rewrite length_take, Nat.min_l by done.
  destruct (IH (S n - j)%nat (buffer ++ take j (flow (so_in k))) k1) as (k' & E & H2 & H3); [rewrite Hf1, length_drop; lia|].
  exists k'. rewrite E. split; [done|]. split; congruence.
Qed.

(** [read_bytes] returns exactly the next bytes, however they were cut. *)
Lemma read_bytes_ok n d k rest out : at_ k (d ++ rest) out -> n = length d ->
  exists k', read_bytes n k = (Some d, k') /\ at_ k' rest out.
Proof.
  intros [Hi Ho Ht] ->. destruct (read_loop_ok (length d) (length d) [] k) as (k' & E & H1 & H2 & H3);
    [lia|rewrite Hi, length_app; lia|]. rewrite Hi, take_app_length in E. exists k'. split; [done|].
  split; [by rewrite H1, Hi, drop_app_length|congruence|congruence].
Qed.

Lemma send_loop_ok fuel buf k inb out : at_ k inb out -> (length buf <= fuel)%nat ->
  exists k', send_loop fuel buf k = (true, k') /\ at_ k' inb (out ++ buf).
Proof.
  revert buf k out; induction fuel as [|fuel IH]; intros buf k out Hk Hl.
  { destruct buf; [|simpl in Hl; lia]. exists k. by rewrite app_nil_r. }
  destruct buf as [|c buf]; [exists k; by rewrite app_nil_r|]. cbn [send_loop]. destruct Hk as [Hi Ho Ht].
  unfold send. destruct (so_takes k) as [|[|n] takes] eqn:E.
  - rewrite drop_all. exists (mkSock (so_in k) [] (so_out k ++ c :: buf)). split; [by destruct fuel|]. split; cbn; [done|congruence|constructor].
  - apply Forall_cons in Ht as [? _]. done.
  - apply Forall_cons in Ht as [_ Ht].
    destruct (IH (drop (Nat.min (S n) (length (c :: buf))) (c :: buf)) (mkSock (so_in k) takes (so_out k ++ take (S n) (c :: buf)))
      (out ++ take (S n) (c :: buf))) as (k' & E' & Hk'); [by split; cbn; [|congruence|]|rewrite length_drop; simpl in *; lia|].
    exists k'. split; [done|]. rewrite <-app_assoc in Hk'.
    replace (take (S n) (c :: buf) ++ drop (Nat.min (S n) (length (c :: buf))) (c :: buf)) with (c :: buf) in Hk'; [done|].
    destruct (Nat.le_gt_cases (S n) (length (c :: buf))); [rewrite Nat.min_l by done; by rewrite take_drop|].
    rewrite Nat.min_r, drop_all, take_ge, app_nil_r by lia. done.
Qed.

Lemma send_all_ok buf k inb out : at_ k inb out -> exists k', send_all buf k = (true, k') /\ at_ k' inb (out ++ buf).
Proof. intros Hk. by apply send_loop_ok. Qed.

(** What a successful read or write says of the stream, in any condition. *)
Lemma read_bytes_some n k d k' : read_bytes n k = (Some d, k') ->
  flow (so_in k) = d ++ flow (so_in k') /\ length d = n /\ so_takes k' = so_takes k /\ so_out k' = so_out k.
Proof.
  intros H. unfold read_bytes in H. destruct (Nat.le_gt_cases n (length (flow (so_in k)))) as [Hle|Hgt].
  - destruct (read_loop_ok n n [] k) as (k1 & E & H1 & H2 & H3); [done..|]. rewrite E in H. injection H as <- <-.
    rewrite H1. cbn [app]. rewrite take_drop, length_take. split; [done|]. split; [lia|done].
  - destruct (read_loop_short n n [] k Hgt) as (k1 & E & _). congruence.
Qed.

Lemma read_bytes_none n k k' : read_bytes n k = (None, k') ->
  (length (flow (so_in k)) < n)%nat /\ so_takes k' = so_takes k /\ so_out k' = so_out k.
Proof.
  intros H. unfold read_bytes in H. destruct (Nat.le_gt_cases n (length (flow (so_in k)))) as [Hle|Hgt].
  - destruct (read_loop_ok n n [] k) as (k1 & E & _); [done..|]. congruence.
  - destruct (read_loop_short n n [] k Hgt) as (k1 & E & H2). rewrite E in H. injection H as <-. done.
Qed.

Lemma send_loop_true fuel buf k k' : send_loop fuel buf k = (true, k') ->
  so_out k' = so_out k ++ buf /\ so_in k' = so_in k.
Proof.
  revert buf k; induction fuel as [|fuel IH]; intros buf k; (destruct buf as [|c buf]; [intros [= <-]; by rewrite app_nil_r|]); [done|].
  cbn [send_loop]. unfold send. destruct (so_takes k) as [|[|n] takes]; [|done|].
  - rewrite drop_all. intros H. apply IH in H as [-> ->]. cbn. by rewrite app_nil_r.
  - intros H. apply IH in H as [-> ->]. cbn [so_out so_in]. split; [|done]. rewrite <-app_assoc. f_equal.
    destruct (Nat.le_gt_cases (S n) (length (c :: buf))); [rewrite Nat.min_l by done; by rewrite take_drop|].
    rewrite Nat.min_r, drop_all, take_ge, app_nil_r by lia. done.
Qed.

(** A length-prefixed field of the handshake. *)
Definition field (d : bytes) : bytes := int_to_bytes (Z.of_nat (length d)) ++ d.

Lemma send_field_ok d k inb out : at_ k inb out -> exists k', send_field d k = (true, k') /\ at_ k' inb (out ++ field d).
Proof.
  intros Hk. unfold send_field, send_int. destruct (send_all_ok (int_to_bytes (Z.of_nat (length d))) _ _ _ Hk) as (k1 & -> & Hk1).
  destruct (send_all_ok d _ _ _ Hk1) as (k2 & -> & Hk2). exists k2. split; [done|]. unfold field. by rewrite app_assoc.
Qed.

Lemma send_field_true d k k' : send_field d k = (true, k') -> so_out k' = so_out k ++ field d /\ so_in k' = so_in k.
Proof.
  unfold send_field, send_int, field. destruct (send_all (int_to_bytes _) k) as [[] k1] eqn:E; [|done].
  apply send_loop_true in E as [E1 E2]. intros [E3 E4]%send_loop_true. by rewrite E3, E4, E1, E2, <-app_assoc.
Qed.

Lemma read_field_ok cap d k rest out : at_ k (field d ++ rest) out -> (0 < length d)%nat -> Z.of_nat (length d) <= cap -> cap < 2 ^ 64 ->
  exists k', read_field cap k = (inr d, k') /\ at_ k' rest out.
Proof.
  intros Hk Hd Hc H64. unfold field in Hk. rewrite <-app_assoc in Hk. unfold read_field.
  destruct (read_bytes_ok INT_BYTES _ _ _ _ Hk) as (k1 & -> & Hk1); [by unfold int_to_bytes; rewrite be_bytes_length|].
  rewrite int_roundtrip by lia. rewrite (proj2 (Z.eqb_neq _ _)), (proj2 (Z.ltb_ge _ _)) by lia. cbn [orb]. rewrite Nat2Z.id.
  destruct (read_bytes_ok (length d) d k1 rest out Hk1 eq_refl) as (k2 & -> & Hk2). by exists k2.
Qed.

Lemma read_field_some cap k d k' : read_field cap k = (inr d, k') ->
  so_out k' = so_out k /\ so_takes k' = so_takes k /\ (0 < length d)%nat /\ Z.of_nat (length d) <= cap.
Proof.
  unfold read_field. destruct (read_bytes INT_BYTES k) as [[lb|] k1] eqn:E1; [|done].
  apply read_bytes_some in E1 as (_ & Hl & Ht1 & Ho1). destruct (_ || _) eqn:Eg; [done|].
  apply orb_false_iff in Eg as [?%Z.eqb_neq ?%Z.ltb_ge].
  assert (0 <= bytes_to_int lb) by (rewrite bytes_to_int_value by (by rewrite Hl; unfold INT_BYTES); apply be_value_range).
  destruct (read_bytes _ k1) as [[d'|] k2] eqn:E2; [|done]. apply read_bytes_some in E2 as (_ & Hl2 & Ht2 & Ho2).
  intros [= -> ->]. rewrite Hl2, Ho2, Ht2. split; [done|]. split; [done|]. lia.
Qed.

(** ** What OpenSSL promises *)

Class OpenSSLLaws `{SSL : OpenSSL} := {
  key_pair : EVP_PKEY -> PUBKEY -> Prop;   (** a 1024-bit RSA pair *)
  HMAC_length key msg mac : HMAC EVP_sha256 key msg = Some mac -> length mac = HMAC_LEN;
  aes_length key iv m ct : EVP_aes_128_cbc_encrypt key iv m = Some ct -> length ct = ((length m / 16 + 1) * 16)%nat;
  aes_inverse key iv m ct : EVP_aes_128_cbc_encrypt key iv m = Some ct -> EVP_aes_128_cbc_decrypt key iv ct = Some m;
  pss_length priv pub salt m sig : key_pair priv pub ->
    EVP_DigestSign EVP_sha256 RSA_PKCS1_PSS_PADDING RSA_PSS_SALTLEN_MAX salt priv m = Some sig -> length sig = 128%nat;
  pss_correct priv pub salt m sig : key_pair priv pub ->
    EVP_DigestSign EVP_sha256 RSA_PKCS1_PSS_PADDING RSA_PSS_SALTLEN_MAX salt priv m = Some sig ->
    EVP_DigestVerify EVP_sha256 RSA_PKCS1_PSS_PADDING RSA_PSS_SALTLEN_MAX pub sig m = true;
  oaep_length priv pub seed m c : key_pair priv pub ->
    EVP_PKEY_encrypt RSA_PKCS1_OAEP_PADDING (Some EVP_sha256) seed pub m = Some c -> length c = 128%nat;
  oaep_correct priv pub seed m c : key_pair priv pub ->
    EVP_PKEY_encrypt RSA_PKCS1_OAEP_PADDING (Some EVP_sha256) seed pub m = Some c ->
    EVP_PKEY_decrypt RSA_PKCS1_OAEP_PADDING (Some EVP_sha256) priv c = Some m }.

(** ** Frames *)

Section Frames.
Context {SSL : OpenSSL}.

(** [token] is the plaintext [p] sealed under [key]: IV, ciphertext and the
    HMAC of both under the first half of the key. *)
Definition sealed (key token p : bytes) : Prop :=
  exists iv ct mac, token = iv ++ ct ++ mac /\ length iv = AES_IV_LEN /\ (AES_BLOCK <= length ct)%nat /\ length mac = HMAC_LEN /\
    HMAC EVP_sha256 (take HMAC_KEY_LEN key) (iv ++ ct) = Some mac /\
    EVP_aes_128_cbc_decrypt (take AES_KEY_LEN (drop HMAC_KEY_LEN key)) iv ct = Some p.

Lemma session_decrypt_sealed key token p : session_decrypt key token = Some p <-> sealed key token p.
Proof.
  unfold session_decrypt, sealed, AES_IV_LEN, AES_BLOCK, HMAC_LEN. split.
  - destruct (Nat.ltb_spec (length token) (16 + 16 + 32)); [done|]. set (n := (length token - 16 - 32)%nat).
    destruct (HMAC _ _ _) as [mac|] eqn:Em; cbn [mbind option_bind]; [|done]. case_bool_decide as Hm; cbn [negb]; [|done].
    intros Hd. exists (take 16 token), (take n (drop 16 token)), mac.
    assert (Hs : take 16 token ++ take n (drop 16 token) = take (16 + n) token) by (rewrite <-take_take_drop; f_equal; lia).
    rewrite app_assoc, Hs, Hm, take_drop, !length_take, !length_drop, <-Hm. repeat split; try done; lia.
  - intros (iv & ct & mac & -> & Hi & Hc & Hm & Hh & Hd). rewrite !length_app. destruct (Nat.ltb_spec (length iv + (length ct + length mac)) (16 + 16 + 32)); [lia|].
    replace (length iv + (length ct + length mac) - 16 - 32)%nat with (length ct) by lia.
    rewrite app_assoc, <-Hi, <-length_app, take_app_length, Hh. cbn [mbind option_bind].
    rewrite drop_app_length, bool_decide_eq_true_2 by done. cbn [negb].
    by rewrite <-app_assoc, take_app_length, drop_app_length, take_app_length.
Qed.

(** The next frame of a byte stream. *)
Inductive frame_view := Broken | Oversize | Frame (token rest : bytes).

Definition next_frame (inb : bytes) : frame_view :=
  if (length inb <? FRAME_PREFIX_BYTES)%nat then Broken
  else
    let n := be_value (take FRAME_PREFIX_BYTES inb) in
    let body := drop FRAME_PREFIX_BYTES inb in
    if SESSION_MAX_FRAME <? n then Oversize
    else if (length body <? Z.to_nat n)%nat then Broken
    else Frame (take (Z.to_nat n) body) (drop (Z.to_nat n) body).

Lemma read_u32_spec k : match read_u32 k with
  | (None, _) => (length (flow (so_in k)) < FRAME_PREFIX_BYTES)%nat
  | (Some v, k') => (FRAME_PREFIX_BYTES <= length (flow (so_in k)))%nat /\ v = be_value (take FRAME_PREFIX_BYTES (flow (so_in k))) /\
      flow (so_in k') = drop FRAME_PREFIX_BYTES (flow (so_in k)) end.
Proof.
  unfold read_u32. destruct (read_bytes FRAME_PREFIX_BYTES k) as [[d|] k1] eqn:E.
  - apply read_bytes_some in E as (E & Hl & _). unfold FRAME_PREFIX_BYTES in *.
    destruct d as [|b0 [|b1 [|b2 [|b3 [|? ?]]]]]; try done. rewrite E, u32_value. cbn [app take drop length]. split; [lia|done].
  - by apply read_bytes_none in E as (E & _).
Qed.

(** C18: nothing but authenticated frames reaches the application.  Whatever
    bytes arrive, cut in whatever way, one [session_recv] takes exactly the
    next frame of the stream: it returns its plaintext if and only if the
    frame is sealed under the session key and fits the caller's buffer; a
    forged or oversized plaintext is consumed whole, so the stream stays in
    step; an oversized length stops the receiving side alone; and a stream that
    ends inside a frame is an I/O error. *)
Theorem frame_reception s cap k : ss_established s = true -> ss_recv_dead s = false ->
  let '(code, plain, s', k') := session_recv s cap k in
  match next_frame (flow (so_in k)) with
  | Broken => code = SESSION_ERR_IO /\ plain = [] /\ s' = s
  | Oversize => code = SESSION_ERR_TOOBIG /\ plain = [] /\ s' = mkSession (ss_key s) true true
  | Frame token rest => flow (so_in k') = rest /\ s' = s /\
      match code with
      | SESSION_OK => sealed (ss_key s) token plain /\ (length plain <= cap)%nat
      | SESSION_ERR_NOSPACE => plain = [] /\ exists p, sealed (ss_key s) token p /\ (cap < length p)%nat
      | SESSION_ERR_CRYPTO => plain = [] /\ forall p, ~ sealed (ss_key s) token p
      | _ => False
      end
  end.
Proof.
  intros He Hd. unfold session_recv. rewrite He, Hd. cbn [negb orb]. unfold next_frame.
  pose proof (read_u32_spec k) as Hr. destruct (read_u32 k) as [[v|] k1].
  2: { by rewrite (proj2 (Nat.ltb_lt _ _)). }
  destruct Hr as (Hl & -> & Hf). rewrite (proj2 (Nat.ltb_ge _ _)) by done. destruct (SESSION_MAX_FRAME <? _); [done|].
  rewrite <-Hf. destruct (read_bytes _ k1) as [[token|] k2] eqn:E.
  2: { apply read_bytes_none in E as (E & _). by rewrite (proj2 (Nat.ltb_lt _ _)). }
  apply read_bytes_some in E as (E & Hlen & _). rewrite E, length_app, Hlen, (proj2 (Nat.ltb_ge _ _)) by lia.
  rewrite <-Hlen, take_app_length, drop_app_length.
  destruct (session_decrypt (ss_key s) token) as [p|] eqn:Ed.
  - apply session_decrypt_sealed in Ed. destruct (Nat.ltb_spec cap (length p)); eauto 10.
  - repeat split; try done. intros p Hp%session_decrypt_sealed. congruence.
Qed.

End Frames.

(** ** Traffic *)

Section Traffic.
Context {SSL : OpenSSL} {L : OpenSSLLaws}.

(** The longest plaintext a frame can carry. *)
Definition MAX_PLAIN : nat := Z.to_nat 65487.

Lemma session_encrypt_length key iv m token : session_encrypt key (Some iv) m = Some token -> length iv = AES_IV_LEN ->
  length token = (16 + (length m / 16 + 1) * 16 + 32)%nat.
Proof.
  unfold session_encrypt. cbn [mbind option_bind]. destruct (EVP_aes_128_cbc_encrypt _ iv m) as [ct|] eqn:E; cbn [mbind option_bind]; [|done].
  destruct (HMAC _ _ _) as [mac|] eqn:Em; cbn [mbind option_bind]; [|done]. intros [= <-] Hi. apply aes_length in E. apply HMAC_length in Em.
  rewrite !length_app, Hi, E, Em. unfold AES_IV_LEN, HMAC_LEN. lia.
Qed.

Lemma session_encrypt_sealed key iv m token : session_encrypt key (Some iv) m = Some token -> length iv = AES_IV_LEN ->
  sealed key token m.
Proof.
  unfold session_encrypt, sealed. cbn [mbind option_bind]. destruct (EVP_aes_128_cbc_encrypt _ iv m) as [ct|] eqn:E; cbn [mbind option_bind]; [|done].
  destruct (HMAC _ _ _) as [mac|] eqn:Em; cbn [mbind option_bind]; [|done]. intros [= <-] Hi. exists iv, ct, mac. pose proof (aes_length _ _ _ _ E).
  pose proof (HMAC_length _ _ _ Em). repeat split; try done; [unfold AES_BLOCK; lia|]. by apply aes_inverse.
Qed.

Lemma fits_frame n : (16 + (n / 16 + 1) * 16 + 32 <= Z.to_nat SESSION_MAX_FRAME)%nat <-> (n <= MAX_PLAIN)%nat.
Proof.
  unfold MAX_PLAIN, SESSION_MAX_FRAME. pose proof (Nat.div_mod n 16 ltac:(lia)). pose proof (Nat.mod_upper_bound n 16 ltac:(lia)).
  change (Z.to_nat (64 * 1024)) with (Z.to_nat 65536). lia.
Qed.

(** The bytes one frame puts on the wire. *)
Definition frame_bytes (token : bytes) : bytes := be_bytes 4 (Z.of_nat (length token)) ++ token.

Lemma next_frame_bytes token rest : Z.of_nat (length token) <= SESSION_MAX_FRAME ->
  next_frame (frame_bytes token ++ rest) = Frame token rest.
Proof.
  intros Hl. unfold next_frame, frame_bytes, FRAME_PREFIX_BYTES. rewrite !length_app, be_bytes_length.
  rewrite (proj2 (Nat.ltb_ge _ _)) by lia. rewrite <-app_assoc.
  rewrite take_app_length', drop_app_length' by (by rewrite be_bytes_length).
  rewrite be_value_bytes by (unfold SESSION_MAX_FRAME in Hl; change (256 ^ Z.of_nat 4) with (2 ^ 32); lia).
  rewrite (proj2 (Z.ltb_ge _ _)) by done. rewrite Nat2Z.id, length_app, (proj2 (Nat.ltb_ge _ _)) by lia.
  by rewrite take_app_length, drop_app_length.
Qed.

Lemma session_send_ok s iv m token k inb out : ss_established s = true -> length iv = AES_IV_LEN -> (length m <= MAX_PLAIN)%nat ->
  session_encrypt (ss_key s) (Some iv) m = Some token -> at_ k inb out ->
  exists k', session_send s (Some iv) m k = (SESSION_OK, k') /\ at_ k' inb (out ++ frame_bytes token).
Proof.
  intros He Hi Hm Et Hk. pose proof (session_encrypt_length _ _ _ _ Et Hi) as Hl. apply fits_frame in Hm as Hf.
  unfold session_send. rewrite He, Et. cbn [negb].
  rewrite !(proj2 (Z.ltb_ge _ _)) by (unfold MAX_PLAIN, SESSION_MAX_FRAME in *; lia).
  unfold send_u32. rewrite u32_bytes. destruct (send_all_ok (be_bytes 4 (Z.of_nat (length token))) _ _ _ Hk) as (k1 & -> & Hk1).
  destruct (send_all_ok token _ _ _ Hk1) as (k2 & -> & Hk2). exists k2. split; [done|]. unfold frame_bytes. by rewrite app_assoc.
Qed.

Lemma session_send_toobig s iv m token k : ss_established s = true -> length iv = AES_IV_LEN -> (MAX_PLAIN < length m)%nat ->
  session_encrypt (ss_key s) (Some iv) m = Some token -> session_send s (Some iv) m k = (SESSION_ERR_TOOBIG, k).
Proof.
  intros He Hi Hm Et. pose proof (session_encrypt_length _ _ _ _ Et Hi) as Hl.
  assert (~ (16 + (length m / 16 + 1) * 16 + 32 <= Z.to_nat SESSION_MAX_FRAME)%nat) by (rewrite fits_frame; lia).
  unfold session_send. rewrite He, Et. cbn [negb]. destruct (SESSION_MAX_FRAME <? Z.of_nat (length m)); [done|].
  rewrite (proj2 (Z.ltb_lt _ _)); [done|]. unfold SESSION_MAX_FRAME in *. lia.
Qed.

(** A run of sends, each with its own IV: [true] when all return [SESSION_OK]. *)
Fixpoint send_many (s : session_t) (ms : list (bytes * bytes)) (k : sock) : bool * sock :=
  match ms with
  | [] => (true, k)
  | (iv, m) :: ms' =>
    match session_send s (Some iv) m k with
    | (SESSION_OK, k') => send_many s ms' k'
    | (_, k') => (false, k')
    end
  end.

(** [n] receives: the codes and the plaintexts. *)
Fixpoint recv_many (n : nat) (s : session_t) (cap : nat) (k : sock) : list (session_err_t * bytes) * sock :=
  match n with
  | O => ([], k)
  | S n' =>
    let '(code, plain, s', k') := session_recv s cap k in
    let '(rs, k2) := recv_many n' s' cap k' in ((code, plain) :: rs, k2)
  end.

(** A message the cipher can seal. *)
Definition sendable (key : bytes) (x : bytes * bytes) : Prop :=
  length (fst x) = AES_IV_LEN /\ (length (snd x) <= MAX_PLAIN)%nat /\ session_encrypt key (Some (fst x)) (snd x) <> None.

Lemma recv_frame s cap k token m rest : ss_established s = true -> ss_recv_dead s = false ->
  sealed (ss_key s) token m -> (length m <= cap)%nat -> Z.of_nat (length token) <= SESSION_MAX_FRAME ->
  flow (so_in k) = frame_bytes token ++ rest ->
  exists k', session_recv s cap k = (SESSION_OK, m, s, k') /\ flow (so_in k') = rest.
Proof.
  intros He Hd Hs Hc Hl Hf. unfold session_recv. rewrite He, Hd. cbn [negb orb].
  assert (Hn : next_frame (flow (so_in k)) = Frame token rest) by (by rewrite Hf, next_frame_bytes).
  unfold next_frame in Hn. pose proof (read_u32_spec k) as Hr. destruct (read_u32 k) as [[v|] k1].
  2: { by rewrite (proj2 (Nat.ltb_lt _ _)) in Hn. }
  destruct Hr as (Hle & -> & Hk1). rewrite (proj2 (Nat.ltb_ge _ _)) in Hn by done. destruct (SESSION_MAX_FRAME <? _); [done|].
  rewrite <-Hk1 in Hn. destruct (read_bytes _ k1) as [[t|] k2] eqn:E.
  2: { apply read_bytes_none in E as (E & _). by rewrite (proj2 (Nat.ltb_lt _ _)) in Hn. }
  apply read_bytes_some in E as (E & Hlen & _). rewrite E, length_app, Hlen, (proj2 (Nat.ltb_ge _ _)) in Hn by lia.
  rewrite <-Hlen, take_app_length, drop_app_length in Hn. injection Hn as -> Hrest.
  rewrite (proj2 (session_decrypt_sealed _ _ _) Hs), (proj2 (Nat.ltb_ge _ _)) by done. by exists k2.
Qed.

(** C21: what is sent is what is received.  Any sequence of messages of up to
    65487 bytes goes out, whatever the kernel takes per write, and the peer
    that holds the same key receives exactly that sequence, in order, however
    the network cuts the stream and whatever follows it. *)
Theorem channel_delivers s s' ms k inb out cap rest :
  ss_established s = true -> ss_established s' = true -> ss_recv_dead s' = false -> ss_key s' = ss_key s ->
  Forall (sendable (ss_key s)) ms -> (MAX_PLAIN <= cap)%nat -> at_ k inb out ->
  exists wire k', send_many s ms k = (true, k') /\ so_out k' = out ++ wire /\
    forall kr, flow (so_in kr) = wire ++ rest ->
      exists kr', recv_many (length ms) s' cap kr = (map (fun x => (SESSION_OK, snd x)) ms, kr') /\ flow (so_in kr') = rest.
Proof.
  intros He He' Hd Hkey HF Hcap. revert k out. induction HF as [|[iv m] ms (Hi & Hm & Hs) _ IH]; intros k out Hk.
  { exists [], k. split; [done|]. split; [rewrite app_nil_r; apply Hk|]. intros kr Hf. by exists kr. }
  cbn [fst snd] in *. destruct (session_encrypt (ss_key s) (Some iv) m) as [token|] eqn:Et; [|done].
  destruct (session_send_ok s iv m token k inb out He Hi Hm Et Hk) as (k1 & E1 & Hk1).
  destruct (IH k1 _ Hk1) as (wire & k' & E2 & Ho & Hrecv). exists (frame_bytes token ++ wire), k'. cbn [send_many]. rewrite E1.
  split; [done|]. split; [by rewrite app_assoc|]. intros kr Hf. rewrite <-app_assoc in Hf.
  destruct (recv_frame s' cap kr token m (wire ++ rest) He' Hd) as (k2 & E & Hf2); [|lia| |done|].
  - rewrite Hkey. by eapply session_encrypt_sealed.
  - pose proof (session_encrypt_length _ _ _ _ Et Hi). apply fits_frame in Hm. unfold SESSION_MAX_FRAME in *. lia.
  - destruct (Hrecv k2 Hf2) as (kr' & Er & Hf3). exists kr'. cbn [length recv_many map snd]. by rewrite E, Er.
Qed.

(** ** The handshake *)

(** What each side puts on the wire. *)
Definition client_bytes (nonce wrapped : bytes) : bytes := field nonce ++ field wrapped.
Definition server_bytes (signature cert_data : bytes) : bytes := field signature ++ field cert_data.

(** C16: two honest peers agree on the key.  When the server's certificate is
    vouched for by the client's CA and carries the key that signs, the client
    reading exactly what the server writes and the server reading exactly what
    the client writes, cut in any way, both report success, hold the session
    key the client chose, and leave the rest of the stream unread. *)
Theorem handshake_agrees priv pub cert cert_data ca_file nonce key seed salt signature wrapped kc ks rc rs :
  key_pair priv pub -> PEM_read_X509 cert_data = Some cert -> X509_get_pubkey cert = Some pub ->
  verify_server_cert cert ca_file = true -> (0 < length cert_data)%nat -> Z.of_nat (length cert_data) <= TSSH_MAX_CERT_LEN -> length nonce = TSSH_NONCE_LEN ->
  length key = SESSION_KEY_LEN ->
  sign_message_pss salt priv nonce = Some signature -> rsa_encrypt_block seed pub key true = Some wrapped ->
  at_ kc (server_bytes signature cert_data ++ rc) [] -> at_ ks (client_bytes nonce wrapped ++ rs) [] ->
  exists kc' ks',
    session_connect ca_file (Some nonce) (Some key) seed kc = (SESSION_OK, mkSession key true false, kc') /\
    session_accept priv (Some cert_data) salt ks = (SESSION_OK, mkSession key true false, ks') /\
    at_ kc' rc (client_bytes nonce wrapped) /\ at_ ks' rs (server_bytes signature cert_data).
Proof.
  intros Hpair Hpem Hpub Hca Hcl Hcm Hnl Hkl Hsig Hwrap Hc Hs. unfold server_bytes, client_bytes in *. rewrite <-!app_assoc in Hc, Hs.
  pose proof (pss_length _ _ _ _ _ Hpair Hsig) as Hsl. pose proof (oaep_length _ _ _ _ _ Hpair Hwrap) as Hwl.
  unfold session_connect, session_accept, TSSH_MAX_SIG_LEN, TSSH_MAX_CERT_LEN, TSSH_MAX_NONCE_LEN, TSSH_NONCE_LEN in *.
  destruct (send_field_ok nonce _ _ _ Hc) as (kc1 & -> & Hc1).
  destruct (read_field_ok 512 signature _ _ _ Hc1) as (kc2 & -> & Hc2); [lia..|].
  destruct (read_field_ok 8192 cert_data _ _ _ Hc2) as (kc3 & -> & Hc3); [lia..|].
  unfold load_cert_bytes. rewrite Hpem, Hca. cbn [negb]. unfold verify_message_pss. rewrite Hpub, (pss_correct _ _ _ _ _ Hpair Hsig).
  cbn [negb]. rewrite Hwrap. destruct (send_field_ok wrapped _ _ _ Hc3) as (kc4 & -> & Hc4).
  destruct (read_field_ok 64 nonce _ _ _ Hs) as (ks1 & -> & Hs1); [lia..|]. rewrite Hsig.
  destruct (send_field_ok signature _ _ _ Hs1) as (ks2 & -> & Hs2). destruct cert_data as [|c0 cd]; [simpl in Hcl; lia|].
  destruct (send_field_ok (c0 :: cd) _ _ _ Hs2) as (ks3 & -> & Hs3). unfold field at 1 in Hs3. rewrite <-app_assoc in Hs3.
  destruct (read_bytes_ok INT_BYTES _ _ _ _ Hs3) as (ks4 & -> & Hs4); [by unfold int_to_bytes; rewrite be_bytes_length|].
  rewrite int_roundtrip, Hwl by lia. cbn [Z.eqb negb RSA_KEY_BYTES]. change (Z.of_nat 128 =? RSA_KEY_BYTES) with true. cbn [negb].
  destruct (read_bytes_ok (Z.to_nat RSA_KEY_BYTES) wrapped _ _ _ Hs4) as (ks5 & -> & Hs5); [by rewrite Hwl|].
  unfold rsa_decrypt_block. unfold rsa_encrypt_block in Hwrap. rewrite (oaep_correct _ _ _ _ _ Hpair Hwrap), Hkl. cbn [Nat.eqb negb].
  exists kc4, ks5. cbn [app] in *. by rewrite Nat.eqb_refl.
Qed.

End Traffic.

(** C17: a client that reports success talked to the holder of a certified
    key.  Whatever bytes arrive, [session_connect] succeeds only if the
    certificate it received is vouched for by the CA, carries a key under
    which the received signature covers this connection's nonce, and the fresh
    session key left encrypted to that key and to no other; whatever else
    happens, the session is left zeroed and not established. *)
Theorem connect_authenticates `{SSL : OpenSSL} ca_file nonce key seed k code s k' :
  session_connect ca_file nonce key seed k = (code, s, k') ->
  match code with
  | SESSION_OK => exists n key0 sig cert pub wrapped, nonce = Some n /\ key = Some key0 /\ s = mkSession key0 true false /\
      verify_server_cert cert ca_file = true /\ verify_message_pss cert sig n = true /\ X509_get_pubkey cert = Some pub /\
      rsa_encrypt_block seed pub key0 true = Some wrapped /\ so_out k' = so_out k ++ field n ++ field wrapped
  | _ => s = zero_session
  end.
Proof.
  unfold session_connect. destruct nonce as [n|]; [|by intros [= <- <- _]].
  destruct (send_field n k) as [[] k1] eqn:E1; [|by intros [= <- <- _]]. apply send_field_true in E1 as [O1 _].
  destruct (read_field TSSH_MAX_SIG_LEN k1) as [[e|sig] k2] eqn:E2.
  { intros [= <- <- _]. unfold read_field in E2. repeat case_match; simplify_eq; done. }
  apply read_field_some in E2 as (O2 & _). destruct (read_field TSSH_MAX_CERT_LEN k2) as [[e|cb] k3] eqn:E3.
  { intros [= <- <- _]. unfold read_field in E3. repeat case_match; simplify_eq; done. }
  apply read_field_some in E3 as (O3 & _). destruct (load_cert_bytes cb) as [cert|]; [|by intros [= <- <- _]].
  destruct (verify_server_cert cert ca_file) eqn:Ev; cbn [negb]; [|by intros [= <- <- _]].
  destruct (verify_message_pss cert sig n) eqn:Es; cbn [negb]; [|by intros [= <- <- _]].
  destruct (X509_get_pubkey cert) as [pub|] eqn:Ep; [|by intros [= <- <- _]]. destruct key as [key0|]; [|by intros [= <- <- _]].
  destruct (rsa_encrypt_block seed pub key0 true) as [wrapped|] eqn:Ew; [|by intros [= <- <- _]].
  destruct (send_field wrapped k3) as [[] k4] eqn:E4; [|by intros [= <- <- _]]. apply send_field_true in E4 as [O4 _].
  intros [= <- <- <-]. exists n, key0, sig, cert, pub, wrapped. rewrite O4, O3, O2, O1, <-app_assoc. done.
Qed.

(** ** A stand-in for OpenSSL

    Transparent and without secrecy, but it obeys every law above, so the
    theorems can be run on it. *)

Definition toy_zeros : bytes := replicate 128 "000"%char.
Definition toy_sign (key m : bytes) : bytes := take 128 (key ++ m ++ toy_zeros).
Definition toy_pad (m : bytes) : bytes := replicate (16 - length m mod 16) (byte_of (Z.of_nat (16 - length m mod 16))).
Definition toy_sum (key m : bytes) : Z := foldl (fun h c => (h * 31 + code c) mod 256) 7 (key ++ m).

#[export] Instance toy_openssl : OpenSSL := {|
  EVP_PKEY := bytes; X509 := bytes; PUBKEY := bytes;
  PEM_read_X509 d := match d with [] => None | _ => Some d end;
  X509_verify_cert ca c := bool_decide (take 2 c = take 2 ca);
  X509_get_pubkey c := Some (drop 2 c);
  EVP_DigestSign _ _ _ _ key m := Some (toy_sign key m);
  EVP_DigestVerify _ _ _ key sig m := bool_decide (sig = toy_sign key m);
  EVP_PKEY_encrypt _ _ _ _ m :=
    if (length m <=? 62)%nat then Some (byte_of (Z.of_nat (length m)) :: m ++ replicate (127 - length m) "000"%char) else None;
  EVP_PKEY_decrypt _ _ _ c := match c with [] => None | h :: t => Some (take (Z.to_nat (code h)) t) end;
  EVP_aes_128_cbc_encrypt _ _ m := Some (m ++ toy_pad m);
  EVP_aes_128_cbc_decrypt _ _ ct :=
    match last ct with None => None | Some c => Some (take (length ct - Z.to_nat (code c)) ct) end;
  HMAC _ key m := Some (replicate 32 (byte_of (toy_sum key m))) |}.

Lemma toy_pad_length m : (length (toy_pad m) = 16 - length m mod 16 /\ 0 < 16 - length m mod 16)%nat.
Proof. unfold toy_pad. rewrite length_replicate. pose proof (Nat.mod_upper_bound (length m) 16 ltac:(lia)). lia. Qed.

Lemma toy_last m : last (m ++ toy_pad m) = Some (byte_of (Z.of_nat (16 - length m mod 16))).
Proof.
  destruct (toy_pad_length m) as [_ Hp]. unfold toy_pad. set (c := byte_of _). destruct (16 - length m mod 16)%nat as [|p]; [lia|].
  by rewrite replicate_S_end, app_assoc, last_snoc.
Qed.

Lemma code_small n : (n < 256)%nat -> Z.to_nat (code (byte_of (Z.of_nat n))) = n.
Proof. intros Hn. rewrite code_byte_of. unfold u8. rewrite Z.mod_small by lia. lia. Qed.

#[export] Instance toy_laws : OpenSSLLaws (SSL := toy_openssl).
Proof.
  refine {| key_pair := fun priv pub => priv = pub |}; cbn [HMAC EVP_aes_128_cbc_encrypt EVP_aes_128_cbc_decrypt EVP_DigestSign
    EVP_DigestVerify EVP_PKEY_encrypt EVP_PKEY_decrypt toy_openssl].
  - by intros key msg mac [= <-].
  - intros key iv m ct [= <-]. rewrite length_app. destruct (toy_pad_length m) as [-> _].
    pose proof (Nat.div_mod (length m) 16 ltac:(lia)). pose proof (Nat.mod_upper_bound (length m) 16 ltac:(lia)). lia.
  - intros key iv m ct [= <-]. destruct (toy_pad_length m) as [Hl Hp]. rewrite toy_last, length_app, Hl, code_small by lia.
    f_equal. apply take_app_length'. lia.
  - intros priv pub salt m sig _ [= <-]. unfold toy_sign. rewrite length_take, !length_app. unfold toy_zeros. rewrite length_replicate. lia.
  - intros priv pub salt m sig -> [= <-]. by rewrite bool_decide_eq_true_2.
  - intros priv pub seed m c _. destruct (Nat.leb_spec (length m) 62); [|done]. intros [= <-]. cbn [length].
    rewrite length_app, length_replicate. lia.
  - intros priv pub seed m c _. destruct (Nat.leb_spec (length m) 62); [|done]. intros [= <-].
    by rewrite code_small, take_app_length by lia.
Defined.

Definition sample_key : bytes := replicate 32 "k"%char.
Definition sample_cert : bytes := $"CAserver".
Definition sample_nonce : bytes := replicate 32 "n"%char.
Definition sample_iv : bytes := replicate 16 "i"%char.
Definition sample_session : session_t := mkSession sample_key true false.
Definition quiet (segs : list bytes) : sock := mkSock segs [3; 1]%nat [].

Definition sample_signature : bytes := toy_sign ($"server") sample_nonce.
Definition sample_wrapped : bytes := byte_of 32 :: sample_key ++ replicate 95 "000"%char.

Lemma at_quiet segs b : flow segs = b -> at_ (quiet segs) b [].
Proof. intros H. split; [done|done|]. by repeat constructor. Qed.

(** The handshake, the server's answer arriving one byte first. *)
Lemma handshake_agrees_witness :
  exists kc' ks',
    session_connect (Some ($"CAroot")) (Some sample_nonce) (Some sample_key) []
      (quiet [take 1 (server_bytes sample_signature sample_cert); drop 1 (server_bytes sample_signature sample_cert)])
      = (SESSION_OK, sample_session, kc') /\
    session_accept ($"server") (Some sample_cert) [] (quiet [client_bytes sample_nonce sample_wrapped]) = (SESSION_OK, sample_session, ks') /\
    at_ kc' [] (client_bytes sample_nonce sample_wrapped) /\ at_ ks' [] (server_bytes sample_signature sample_cert).
Proof.
  apply (handshake_agrees (SSL := toy_openssl) (L := toy_laws) ($"server") ($"server") sample_cert sample_cert (Some ($"CAroot")) sample_nonce
    sample_key [] [] sample_signature sample_wrapped _ _ [] []); try reflexivity.
  - vm_compute; lia.
  - vm_compute. congruence.
  - apply at_quiet. vm_compute. reflexivity.
  - apply at_quiet. vm_compute. reflexivity.
Defined.

Lemma connect_authenticates_witness :
  exists n key0 sig cert pub wrapped, Some sample_nonce = Some n /\ Some sample_key = Some key0 /\ sample_session = mkSession key0 true false /\
    verify_server_cert cert (Some ($"CAroot")) = true /\ verify_message_pss cert sig n = true /\ X509_get_pubkey cert = Some pub /\
    rsa_encrypt_block [] pub key0 true = Some wrapped /\
    so_out (snd (session_connect (Some ($"CAroot")) (Some sample_nonce) (Some sample_key) [] (quiet [server_bytes sample_signature sample_cert])))
      = so_out (quiet [server_bytes sample_signature sample_cert]) ++ field n ++ field wrapped.
Proof.
  apply (connect_authenticates (SSL := toy_openssl) (Some ($"CAroot")) (Some sample_nonce) (Some sample_key) []
    (quiet [server_bytes sample_signature sample_cert]) SESSION_OK). vm_compute. reflexivity.
Defined.

(** Two messages, received from a stream cut inside the first frame. *)
Lemma channel_delivers_witness :
  exists wire k', send_many sample_session [(sample_iv, $"hello"); (sample_iv, $"world")] (quiet []) = (true, k') /\
    so_out k' = [] ++ wire /\
    forall kr, flow (so_in kr) = wire ++ [] ->
      exists kr', recv_many 2 sample_session MAX_PLAIN kr = ([(SESSION_OK, $"hello"); (SESSION_OK, $"world")], kr') /\ flow (so_in kr') = [].
Proof.
  apply (channel_delivers (SSL := toy_openssl) (L := toy_laws) sample_session sample_session [(sample_iv, $"hello"); (sample_iv, $"world")] (quiet [])
    [] [] MAX_PLAIN []); try reflexivity.
  - repeat (apply Forall_cons_2; [split; [reflexivity|split; [unfold MAX_PLAIN; cbn [snd length String.list_ascii_of_string]; lia|vm_compute; congruence]]|]).
    apply Forall_nil_2.
  - by apply at_quiet.
Defined.

(** A frame with one byte of its ciphertext changed is refused, and the frame
    behind it is received. *)
Definition forged_stream : list bytes :=
  match send_many sample_session [(sample_iv, $"hello"); (sample_iv, $"world")] (quiet []) with
  | (_, k) => [<[20%nat := "X"%char]> (so_out k)]
  end.

Lemma frame_reception_witness :
  let '(code, plain, s', k') := session_recv sample_session 100 (quiet forged_stream) in
  match next_frame (flow (so_in (quiet forged_stream))) with
  | Broken => code = SESSION_ERR_IO /\ plain = [] /\ s' = sample_session
  | Oversize => code = SESSION_ERR_TOOBIG /\ plain = [] /\ s' = mkSession (ss_key sample_session) true true
  | Frame token rest => flow (so_in k') = rest /\ s' = sample_session /\
      match code with
      | SESSION_OK => sealed (ss_key sample_session) token plain /\ (length plain <= 100)%nat
      | SESSION_ERR_NOSPACE => plain = [] /\ exists p, sealed (ss_key sample_session) token p /\ (100 < length p)%nat
      | SESSION_ERR_CRYPTO => plain = [] /\ forall p, ~ sealed (ss_key sample_session) token p
      | _ => False
      end
  end.
Proof. apply (frame_reception (SSL := toy_openssl) sample_session 100 (quiet forged_stream)); reflexivity. Defined.

Example forged_frame_is_skipped :
  map fst (fst (recv_many 2 sample_session 100 (quiet forged_stream))) = [SESSION_ERR_CRYPTO; SESSION_OK].
Proof. vm_compute. reflexivity. Qed.

End Tunnel.
