(* ===== verification/Rc.v ===== *)
(** * The run-control file: libtetrisutil/rc.c

    One directive read out of .tetrishrc, as text, as a number in a range or
    as a switch, from a snapshot of the file taken at the first read and kept
    until [rc_reload].  The theorems: a read answers from the last line that
    assigns the key, and from no other; numbers stay in their range whatever
    the file holds; written directives read back; and reads between two
    reloads see one file. *)
From S2P Require Import Prelude CText.
Local Open Scope Z_scope.

Module Rc.

(** ** rc.h and the state of rc.c *)

Inductive rc_get_status_t := RC_VALUE_FOUND | RC_VALUE_ABSENT | RC_VALUE_INVALID | RC_NO_FILE | RC_OUT_NULL_POINTER.
#[export] Instance rc_get_status_dec : EqDecision rc_get_status_t. Proof. solve_decision. Defined.

Definition RC_PATH : cstr := $".tetrishrc".
Definition PATH_MAX : nat := Z.to_nat 4096.
Definition LINE_MAX : nat := PATH_MAX + 64.

(** [content_ptr] and [file_not_found]. *)
Record rc_state := mkRc { content_ptr : option cstr; file_not_found : bool }.
Definition rc_initial : rc_state := mkRc None false.

(** What the process sees outside: the variable TETRISH_ROOT and the files. *)
Record host := mkHost { getenv_root : option cstr; fopen : cstr -> option cstr }.

(** ** Text helpers *)

Definition lstrip (s : cstr) : cstr := skip_space s.
Definition rstrip (s : cstr) : cstr := reverse (skip_space (reverse s)).

(** [strchr]: what stands before the first [c], and what stands behind it. *)
Fixpoint cut (c : ascii) (s : cstr) : cstr * option cstr :=
  match s with
  | [] => ([], None)
  | x :: s' => if ceqb x c then ([], Some s') else let '(a, b) := cut c s' in (x :: a, b)
  end.

(** ** snapshot and rc_reload *)

Definition root (h : host) : cstr :=
  match getenv_root h with Some (c :: env) => c :: env | _ => $"." end.

(** A file's bytes as the C string the reads walk: up to the first NUL. *)
Definition as_text (bytes : cstr) : cstr := fst (cut "000"%char bytes).

Definition snapshot (h : host) (st : rc_state) : rc_state :=
  match content_ptr st, file_not_found st with
  | None, false =>
    match fopen h (trunc PATH_MAX (root h ++ "/"%char :: RC_PATH)) with
    | None => mkRc None true
    | Some content => mkRc (Some (as_text content)) false
    end
  | _, _ => st
  end.

Definition rc_reload (st : rc_state) : rc_state := mkRc None false.

(** ** lookup *)

(** One line of the file: the value it assigns to [key], if it does. *)
Definition line_value (key line : cstr) : option cstr :=
  let line := fst (cut CR line) in
  let name := lstrip line in
  match name, cut "="%char name with
  | c :: _, (before, Some value) =>
    if ceqb c "#" then None
    else if streq (rstrip before) key then Some (rstrip (lstrip value)) else None
  | _, _ => None
  end.

(** The loop of [lookup]: [at_], [found] and the buffer [out]. *)
Fixpoint lookup_loop (fuel : nat) (key : cstr) (cap : nat) (at_ : cstr) (found : rc_get_status_t) (out : cstr)
    : rc_get_status_t * cstr :=
  match fuel, at_ with
  | O, _ | _, [] => (found, out)
  | S f, _ =>
    let '(line, nl) := cut LF at_ in
    let '(found, out) :=
      if (length line <? LINE_MAX)%nat then
        match line_value key line with
        | None => (found, out)
        | Some value =>
          if match value with [] => true | _ => false end || (cap <=? length value)%nat then (RC_VALUE_INVALID, out)
          else (RC_VALUE_FOUND, value)
        end
      else (found, out) in
    match nl with None => (found, out) | Some next => lookup_loop f key cap next found out end
  end.

(** [out] on entry is what the caller's buffer holds. *)
Definition lookup (h : host) (key : cstr) (cap : nat) (out : cstr) (st : rc_state) : rc_get_status_t * cstr * rc_state :=
  let st := snapshot h st in
  match content_ptr st with
  | None => (RC_NO_FILE, out, st)
  | Some content => let '(found, out) := lookup_loop (length content) key cap content RC_VALUE_ABSENT out in (found, out, st)
  end.

(** ** The three readers; [None] is a null [out] or a null [fallback]. *)

Definition rc_get (h : host) (key : cstr) (fallback : option cstr) (out : option cstr) (cap : nat) (st : rc_state)
    : rc_get_status_t * option cstr * rc_state :=
  match out with
  | None => (RC_OUT_NULL_POINTER, None, st)
  | Some out =>
    let '(found, out, st) := lookup h key cap out st in
    if bool_decide (found <> RC_VALUE_FOUND) then
      match fallback with
      | Some fallback => (found, Some (trunc cap fallback), st)
      | None => (found, Some out, st)
      end
    else (found, Some out, st)
  end.

Definition INT_VALUE : nat := Z.to_nat 64.

(** [value] is a local buffer: its garbage never reaches the result. *)
Definition rc_get_int (h : host) (key : cstr) (fallback lo hi : Z) (out : option Z) (garbage : cstr) (st : rc_state)
    : rc_get_status_t * option Z * rc_state :=
  match out with
  | None => (RC_OUT_NULL_POINTER, None, st)
  | Some _ =>
    let '(found, value, st) := lookup h key INT_VALUE garbage st in
    if bool_decide (found <> RC_VALUE_FOUND) then (found, Some fallback, st)
    else
      let '(n, end_) := strtol value in
      if bool_decide (end_ = value) || match end_ with [] => false | _ => true end || (n <? lo) || (hi <? n)
      then (RC_VALUE_INVALID, Some fallback, st)
      else (RC_VALUE_FOUND, Some (i32 n), st)
  end.

Definition BOOL_VALUE : nat := 16.

Definition yes : list cstr := [$"on"; $"yes"; $"true"; $"1"].
Definition no : list cstr := [$"off"; $"no"; $"false"; $"0"].

Definition tolower (c : ascii) : ascii :=
  if (65 <=? code c) && (code c <=? 90) then ascii_of_N (Z.to_N (code c + 32)) else c.
Definition strcaseeq (a b : cstr) : bool := streq (map tolower a) (map tolower b).

Fixpoint bool_loop (pairs : list (cstr * cstr)) (value : cstr) : option Z :=
  match pairs with
  | [] => None
  | (y, n) :: pairs' => if strcaseeq value y then Some 1 else if strcaseeq value n then Some 0 else bool_loop pairs' value
  end.

Definition rc_get_bool (h : host) (key : cstr) (fallback : Z) (out : option Z) (garbage : cstr) (st : rc_state)
    : rc_get_status_t * option Z * rc_state :=
  match out with
  | None => (RC_OUT_NULL_POINTER, None, st)
  | Some _ =>
    let '(found, value, st) := lookup h key BOOL_VALUE garbage st in
    if bool_decide (found <> RC_VALUE_FOUND) then (found, Some fallback, st)
    else match bool_loop (zip yes no) value with
         | Some b => (RC_VALUE_FOUND, Some b, st)
         | None => (RC_VALUE_INVALID, Some fallback, st)
         end
  end.

(** ** The reference reading: the last assignment of the file *)

(** The lines of a text, the last one without its line break. *)
Definition lines_of (s : cstr) : list cstr :=
  foldr (fun c acc => if ceqb c LF then [] :: acc else match acc with l :: ls => (c :: l) :: ls | [] => [[c]] end) [[]] s.

(** The values the file assigns to [key], from top to bottom. *)
Definition assigned (key s : cstr) : list cstr :=
  omap (line_value key) (filter (fun l => (length l < LINE_MAX)%nat) (lines_of s)).

(** A value a buffer of [cap] bytes can hold. *)
Definition usable (cap : nat) (v : cstr) : Prop := v <> [] /\ (length v < cap)%nat.
#[export] Instance usable_dec cap v : Decision (usable cap v). Proof. unfold usable. apply _. Defined.

Definition verdict (cap : nat) (vs : list cstr) (before : rc_get_status_t) : rc_get_status_t :=
  match last vs with
  | None => before
  | Some v => if decide (usable cap v) then RC_VALUE_FOUND else RC_VALUE_INVALID
  end.

(** What [lookup] leaves in the buffer: the last value that fitted. *)
Definition left_in (cap : nat) (vs : list cstr) (out : cstr) : cstr := default out (last (filter (usable cap) vs)).

Lemma cut_lines s : lines_of s = match cut LF s with (line, None) => [line] | (line, Some next) => line :: lines_of next end.
Proof.
  induction s as [|c s IH]; [done|]. cbn [lines_of foldr cut]. fold (lines_of s).
  destruct (ceqb c LF) eqn:E; [done|]. rewrite IH. by destruct (cut LF s) as [line [next|]].
Qed.

Lemma cut_length c s line next : cut c s = (line, Some next) -> (length next < length s)%nat.
Proof.
  revert line. induction s as [|x s IH]; intros line; [done|]. cbn [cut length]. destruct (ceqb x c); [intros [= <- <-]; lia|].
  destruct (cut c s) as [a [b|]]; [|done]. intros [= <- <-]. specialize (IH _ eq_refl). lia.
Qed.

Lemma last_cons_default {A} (l : list A) x : last (x :: l) = Some (default x (last l)).
Proof. destruct l; [done|]. cbn [last]. by destruct (last (a :: l)) eqn:E; [|apply last_None in E]. Qed.

Lemma assigned_cut key s : assigned key s =
  match cut LF s with (line, nl) =>
    (if decide (length line < LINE_MAX)%nat then option_list (line_value key line) else []) ++
    match nl with None => [] | Some next => assigned key next end
  end.
Proof.
  unfold assigned. rewrite (cut_lines s). destruct (cut LF s) as [line [next|]]; cbn [omap list_omap filter list_filter];
    case_decide as D; cbn [omap list_omap]; try done; destruct (line_value key line); done.
Qed.

Lemma verdict_cons cap v vs found :
  verdict cap (v :: vs) found = verdict cap vs (if decide (usable cap v) then RC_VALUE_FOUND else RC_VALUE_INVALID).
Proof. unfold verdict. rewrite last_cons_default. by destruct (last vs). Qed.

Lemma left_in_cons cap v vs out : left_in cap (v :: vs) out = left_in cap vs (if decide (usable cap v) then v else out).
Proof.
  unfold left_in. rewrite filter_cons. case_decide; [|done]. rewrite last_cons_default. by destruct (last (filter _ vs)).
Qed.

Lemma usable_test cap v :
  match v with [] => true | _ => false end || (cap <=? length v)%nat = negb (bool_decide (usable cap v)).
Proof.
  unfold usable. destruct v as [|c v]; [rewrite bool_decide_eq_false_2; [done|]; by intros [? _]|].
  destruct (Nat.leb_spec cap (length (c :: v))); [rewrite bool_decide_eq_false_2|rewrite bool_decide_eq_true_2]; simpl in *; try done; lia.
Qed.

(** The loop computes the reference reading; its fuel is enough. *)
Lemma lookup_loop_spec fuel key cap s found out : (length s <= fuel)%nat ->
  lookup_loop fuel key cap s found out = (verdict cap (assigned key s) found, left_in cap (assigned key s) out).
Proof.
  revert s found out. induction fuel as [|fuel IH]; intros s found out Hf.
  { destruct s; [done|simpl in Hf; lia]. }
  destruct s as [|c s]; [done|]. cbn [lookup_loop]. rewrite assigned_cut. destruct (cut LF (c :: s)) as [line nl] eqn:E.
  assert (Hnext : forall next, nl = Some next -> (length next <= fuel)%nat)
    by (intros next ->; apply cut_length in E; cbn [length] in *; lia).
  destruct (Nat.ltb_spec (length line) LINE_MAX) as [Hl|Hl]; [rewrite decide_True by done|rewrite decide_False by lia].
  2: { destruct nl as [next|]; [|done]. by apply IH, Hnext. }
  destruct (line_value key line) as [v|]; cbn [option_list option_rect app].
  2: { destruct nl as [next|]; [|done]. by apply IH, Hnext. }
  rewrite usable_test, verdict_cons, left_in_cons. destruct (decide (usable cap v)).
  - rewrite bool_decide_eq_true_2 by done. cbn [negb]. destruct nl as [next|]; [|done]. by apply IH, Hnext.
  - rewrite bool_decide_eq_false_2 by done. cbn [negb]. destruct nl as [next|]; [|done]. by apply IH, Hnext.
Qed.

Lemma lookup_spec h key cap out st :
  lookup h key cap out st =
    match content_ptr (snapshot h st) with
    | None => (RC_NO_FILE, out, snapshot h st)
    | Some s => (verdict cap (assigned key s) RC_VALUE_ABSENT, left_in cap (assigned key s) out, snapshot h st)
    end.
Proof. unfold lookup. destruct (content_ptr (snapshot h st)); [|done]. by rewrite lookup_loop_spec. Qed.

Lemma left_in_found cap vs out v : last vs = Some v -> usable cap v -> left_in cap vs out = v.
Proof.
  intros Hl Hu. destruct (last_Some vs v) as [H _]. destruct (H Hl) as [l ->]. unfold left_in.
  by rewrite filter_app, filter_cons_True, filter_nil, last_snoc by done.
Qed.

(** C27: with a fallback, a read answers from the last line of the file that
    assigns the key, and from no other line: with that line's value when it is
    not empty and fits the caller's buffer; with the fallback, and the status
    that says why, when it does not, when no line assigns the key and when
    there is no file. *)
Theorem rc_answers_from_last_line h key fallback out cap st :
  rc_get h key (Some fallback) (Some out) cap st =
    match content_ptr (snapshot h st) with
    | None => (RC_NO_FILE, Some (trunc cap fallback), snapshot h st)
    | Some s =>
      match last (assigned key s) with
      | None => (RC_VALUE_ABSENT, Some (trunc cap fallback), snapshot h st)
      | Some v => if decide (usable cap v) then (RC_VALUE_FOUND, Some v, snapshot h st)
                  else (RC_VALUE_INVALID, Some (trunc cap fallback), snapshot h st)
      end
    end.
Proof.
  unfold rc_get. rewrite lookup_spec. destruct (content_ptr (snapshot h st)) as [s|]; [|done].
  unfold verdict. destruct (last (assigned key s)) as [v|] eqn:El; [|done].
  destruct (decide (usable cap v)); [|done]. cbn. by rewrite (left_in_found _ _ _ v).
Qed.

(** Without a fallback the buffer is left with the last value that fitted,
    which need not be the last line's: rc.h says it is left untouched. *)
Lemma rc_null_fallback h key out cap st :
  rc_get h key None (Some out) cap st =
    match content_ptr (snapshot h st) with
    | None => (RC_NO_FILE, Some out, snapshot h st)
    | Some s => (verdict cap (assigned key s) RC_VALUE_ABSENT, Some (left_in cap (assigned key s) out), snapshot h st)
    end.
Proof.
  unfold rc_get. rewrite lookup_spec. destruct (content_ptr (snapshot h st)) as [s|]; [|done]. by case_bool_decide.
Qed.

(** ** Numbers *)

(** What the file says about the number [key]. *)
Definition number_of (key s : cstr) : option Z :=
  v ← last (assigned key s);
  if decide (usable INT_VALUE v) then match strtol v with (n, []) => Some n | _ => None end else None.

Lemma rc_get_int_spec h key fallback lo hi out garbage st :
  - 2 ^ 31 <= lo -> hi <= INT_MAX ->
  let '(status, value, st') := rc_get_int h key fallback lo hi (Some out) garbage st in
  st' = snapshot h st /\
  match content_ptr (snapshot h st) with
  | None => status = RC_NO_FILE /\ value = Some fallback
  | Some s =>
    match number_of key s with
    | Some n => if decide (lo <= n <= hi) then status = RC_VALUE_FOUND /\ value = Some n
                else status = RC_VALUE_INVALID /\ value = Some fallback
    | None => value = Some fallback /\ status = match assigned key s with [] => RC_VALUE_ABSENT | _ => RC_VALUE_INVALID end
    end
  end.
Proof.
  intros Hlo Hhi. unfold rc_get_int. rewrite lookup_spec. destruct (content_ptr (snapshot h st)) as [s|]; [|done].
  unfold number_of, verdict. destruct (last (assigned key s)) as [v|] eqn:El; cbn [mbind option_bind].
  2: { apply last_None in El. by rewrite El. }
  assert (Hne : assigned key s <> []) by (intros E; by rewrite E in El).
  destruct (decide (usable INT_VALUE v)) as [Hu|]; [|by destruct (assigned key s)]. rewrite bool_decide_eq_false_2 by tauto.
  rewrite (left_in_found _ _ _ v) by done. destruct (strtol v) as [n [|c rest]];
    [|rewrite orb_true_r; by destruct (assigned key s)].
  rewrite bool_decide_eq_false_2 by (intros <-; by destruct Hu). cbn [orb].
  destruct (Z.ltb_spec n lo), (Z.ltb_spec hi n); cbn [orb]; try (by rewrite decide_False by lia).
  rewrite decide_True, i32_id by lia. done.
Qed.

(** C33: a number is reported as found exactly when the last assignment of
    the file is a whole decimal number between [lo] and [hi], and what is stored
    then is that number, unchanged by the narrowing to [int].  Otherwise the
    status tells a missing file, a key no line assigns and a value that is no
    such number apart. *)
Theorem rc_number_is_in_range h key fallback lo hi out garbage st :
  - 2 ^ 31 <= lo -> hi <= INT_MAX ->
  let '(status, value, _) := rc_get_int h key fallback lo hi (Some out) garbage st in
  (status = RC_VALUE_FOUND <->
     exists s n, content_ptr (snapshot h st) = Some s /\ number_of key s = Some n /\ lo <= n <= hi) /\
  (status = RC_VALUE_FOUND ->
     exists s n, content_ptr (snapshot h st) = Some s /\ number_of key s = Some n /\ lo <= n <= hi /\ value = Some n) /\
  (status = RC_NO_FILE <-> content_ptr (snapshot h st) = None) /\
  (status = RC_VALUE_ABSENT <-> exists s, content_ptr (snapshot h st) = Some s /\ assigned key s = []).
Proof.
  intros Hlo Hhi. pose proof (rc_get_int_spec h key fallback lo hi out garbage st Hlo Hhi) as H.
  destruct (rc_get_int _ _ _ _ _ _ _ _) as [[status value] st']. destruct H as [_ H].
  destruct (content_ptr (snapshot h st)) as [s|]; [|naive_solver].
  assert (Hnone : assigned key s = [] -> number_of key s = None) by (unfold number_of; by intros ->).
  destruct (number_of key s) as [n|] eqn:En; [destruct (decide (lo <= n <= hi)) as [Hr|Hr]; destruct H as [-> ->]|].
  - split; [|split; [|split]]; [split; [eauto 10|done]|eauto 10|done|split; [done|]]. intros (? & [= <-] & E). by apply Hnone in E.
  - split; [|split; [|split]]; [split; [done|]|done|done|split; [done|]].
    + intros (? & ? & [= <-] & E & ?). naive_solver.
    + intros (? & [= <-] & E). by apply Hnone in E.
  - destruct H as [-> ->]. split; [|split; [|split]]; [split; [by destruct (assigned key s)|]|by destruct (assigned key s)|by destruct (assigned key s)|].
    + intros (? & ? & [= <-] & E & ?). naive_solver.
    + split; [destruct (assigned key s) eqn:Ea; [by exists s|done]|]. intros (? & [= <-] & ->). done.
Qed.

(** On every other status the fallback is stored, as rc.h says of [fallback]
    and denies of [out]. *)
Lemma rc_number_else_fallback h key fallback lo hi out garbage st :
  - 2 ^ 31 <= lo -> hi <= INT_MAX ->
  let '(status, value, _) := rc_get_int h key fallback lo hi (Some out) garbage st in
  status <> RC_VALUE_FOUND -> value = Some fallback.
Proof.
  intros Hlo Hhi. pose proof (rc_get_int_spec h key fallback lo hi out garbage st Hlo Hhi) as H.
  destruct (rc_get_int _ _ _ _ _ _ _ _) as [[status value] st']. destruct H as [_ H].
  destruct (content_ptr (snapshot h st)) as [s|]; [|naive_solver].
  destruct (number_of key s) as [n|]; [destruct (decide (lo <= n <= hi))|]; [naive_solver..|].
  destruct (assigned key s); naive_solver.
Qed.

(** The range alone. *)
Lemma rc_int_range h key fallback lo hi out garbage st : - 2 ^ 31 <= lo -> hi <= INT_MAX -> lo <= fallback <= hi ->
  exists status v, fst (rc_get_int h key fallback lo hi (Some out) garbage st) = (status, Some v) /\ lo <= v <= hi.
Proof.
  intros Hlo Hhi Hf. unfold rc_get_int. destruct (lookup h key INT_VALUE garbage st) as [[found value] st'].
  destruct (bool_decide _); [by do 2 eexists|]. destruct (strtol value) as [n rest].
  destruct (_ || _ || _ || _) eqn:E; [by do 2 eexists|].
  apply orb_false_iff in E as [[_ H1]%orb_false_iff H2]. apply Z.ltb_ge in H1, H2.
  do 2 eexists. split; [done|]. rewrite i32_id by lia. lia.
Qed.

(** ** Written directives read back *)

Definition bare (s : cstr) : Prop :=
  Forall (fun c => c <> LF /\ c <> CR /\ c <> "000"%char) s /\
  (forall c, head s = Some c -> is_space c = false) /\ (forall c, last s = Some c -> is_space c = false).

Definition good_directive (d : cstr * cstr) : Prop :=
  bare (fst d) /\ bare (snd d) /\ fst d <> [] /\ head (fst d) <> Some "#"%char /\ ("="%char ∉ fst d) /\
  (length (fst d) + length (snd d) + 1 < LINE_MAX)%nat.

Definition directive_line (d : cstr * cstr) : cstr := fst d ++ "="%char :: snd d.
Definition render (ds : list (cstr * cstr)) : cstr := concat (map (fun d => directive_line d ++ [LF]) ds).

Lemma cut_found c a b : c ∉ a -> cut c (a ++ c :: b) = (a, Some b).
Proof.
  induction a as [|x a IH]; intros Hn; cbn [cut app].
  - unfold ceqb. by rewrite bool_decide_eq_true_2.
  - apply not_elem_of_cons in Hn as [Hx Ha]. unfold ceqb at 1. rewrite bool_decide_eq_false_2 by congruence. by rewrite IH.
Qed.

Lemma cut_missing c a : c ∉ a -> cut c a = (a, None).
Proof.
  induction a as [|x a IH]; intros Hn; [done|]. cbn [cut]. apply not_elem_of_cons in Hn as [Hx Ha].
  unfold ceqb at 1. rewrite bool_decide_eq_false_2 by congruence. by rewrite IH.
Qed.

Lemma lstrip_id s : (forall c, head s = Some c -> is_space c = false) -> lstrip s = s.
Proof. destruct s as [|c s]; [done|]. intros H. unfold lstrip. cbn [skip_space]. by rewrite H. Qed.

Lemma rstrip_id s : (forall c, last s = Some c -> is_space c = false) -> rstrip s = s.
Proof.
  intros H. unfold rstrip. change (skip_space (reverse s)) with (lstrip (reverse s)).
  rewrite lstrip_id, reverse_involutive; [done|]. intros c Hc. apply H. by rewrite head_reverse in Hc.
Qed.

Lemma bare_without s c : bare s -> c = LF \/ c = CR \/ c = "000"%char -> c ∉ s.
Proof. intros (HF & _) Hc Hin. rewrite Forall_forall in HF. specialize (HF _ Hin). intuition congruence. Qed.

Lemma line_without d c : good_directive d -> c = LF \/ c = CR \/ c = "000"%char -> c ∉ directive_line d.
Proof.
  intros (Hk & Hv & _) Hc. unfold directive_line. rewrite elem_of_app, elem_of_cons.
  intros [Hin|[->|Hin]]; [by eapply bare_without in Hin|by destruct Hc as [|[|]]|by eapply (bare_without (snd d)) in Hin].
Qed.

Lemma line_value_directive key d : good_directive d ->
  line_value key (directive_line d) = if decide (fst d = key) then Some (snd d) else None.
Proof.
  intros Hg. pose proof Hg as (Hk & Hv & Hne & Hh & Heq & _). unfold line_value. rewrite cut_missing by (eapply line_without; eauto).
  cbn [fst]. destruct (fst d) as [|c k] eqn:Ek; [done|]. rewrite lstrip_id.
  2: { intros x. unfold directive_line. rewrite Ek. cbn [app head]. intros [= <-]. destruct Hk as (_ & Hk & _). by apply Hk. }
  unfold directive_line. rewrite Ek. cbn [app]. rewrite (cut_found "=" (c :: k) (snd d) Heq : cut _ (c :: k ++ _) = _).
  unfold ceqb at 1. rewrite bool_decide_eq_false_2 by (intros ->; by apply Hh). rewrite !rstrip_id by first [apply Hk|rewrite lstrip_id; apply Hv].
  rewrite lstrip_id by apply Hv. case_decide as Hd; [by rewrite Hd, streq_refl|by rewrite (proj2 (streq_false _ _) Hd)].
Qed.

Lemma lines_of_render ds : Forall good_directive ds -> lines_of (render ds) = map directive_line ds ++ [[]].
Proof.
  induction 1 as [|d ds Hd _ IH]; [done|]. unfold render in *. cbn [map concat]. rewrite <-app_assoc. cbn [app].
  rewrite cut_lines, cut_found by (eapply line_without; eauto). by rewrite IH.
Qed.

Lemma assigned_render key ds : Forall good_directive ds ->
  assigned key (render ds) = map snd (filter (fun d => fst d = key) ds).
Proof.
  intros HF. unfold assigned. rewrite lines_of_render by done. induction HF as [|d ds Hd _ IH]; [done|].
  cbn [map app]. rewrite filter_cons_True.
  2: { unfold directive_line. rewrite length_app. cbn [length]. destruct Hd as (_ & _ & _ & _ & _ & Hl). lia. }
  cbn [omap list_omap]. rewrite line_value_directive by done. rewrite filter_cons. case_decide; cbn [map]; by rewrite <-IH.
Qed.

Lemma as_text_render ds : Forall good_directive ds -> as_text (render ds) = render ds.
Proof.
  intros HF. unfold as_text. rewrite cut_missing; [done|]. unfold render. rewrite list_elem_of_In, in_concat.
  intros (l & Hl & Hin). apply in_map_iff in Hl as (d & <- & Hd). rewrite <-list_elem_of_In in Hin. rewrite <-list_elem_of_In in Hd.
  rewrite Forall_forall in HF. apply elem_of_app in Hin as [Hin|Hin].
  - eapply line_without in Hin; eauto.
  - by apply list_elem_of_singleton in Hin.
Qed.

Lemma last_assigned_map key (ds : list (cstr * cstr)) :
  last (map snd (filter (fun d => fst d = key) ds)) = (list_to_map (reverse ds) : gmap cstr cstr) !! key.
Proof.
  induction ds as [|[k v] ds IH] using rev_ind; [done|]. rewrite filter_app, map_app, reverse_snoc. cbn [list_to_map foldr fst snd].
  rewrite filter_cons, filter_nil. cbn [fst]. case_decide as Hk.
  - subst. cbn [map snd]. by rewrite last_snoc, lookup_insert_eq.
  - cbn [map]. by rewrite app_nil_r, IH, lookup_insert_ne.
Qed.

(** A file written as directives is the map of them, the last one of a key
    standing: every key with a value that fits reads back as that value, and
    every other key as the fallback. *)
Theorem directives_read_back h ds key fallback out cap :
  Forall good_directive ds -> fopen h (trunc PATH_MAX (root h ++ "/"%char :: RC_PATH)) = Some (render ds) ->
  fst (rc_get h key (Some fallback) (Some out) cap rc_initial) =
    match (list_to_map (reverse ds) : gmap cstr cstr) !! key with
    | Some v => if decide (usable cap v) then (RC_VALUE_FOUND, Some v) else (RC_VALUE_INVALID, Some (trunc cap fallback))
    | None => (RC_VALUE_ABSENT, Some (trunc cap fallback))
    end.
Proof.
  intros HF Hopen. assert (Hs : content_ptr (snapshot h rc_initial) = Some (render ds)).
  { unfold snapshot. cbn [content_ptr file_not_found rc_initial]. by rewrite Hopen, as_text_render. }
  unfold rc_get. rewrite lookup_spec, Hs, assigned_render by done. unfold verdict.
  rewrite <-last_assigned_map. destruct (last (map snd _)) as [v|] eqn:El; [|done].
  destruct (decide (usable cap v)); [|done]. cbn. by rewrite (left_in_found _ _ _ v).
Qed.

(** ** One snapshot *)

Lemma snapshot_idempotent h h' st : snapshot h' (snapshot h st) = snapshot h st.
Proof. unfold snapshot. destruct st as [[s|] []]; cbn; try done. by destruct (fopen h _). Qed.

(** Reads between two reloads see one file: once a read has taken the
    snapshot, what becomes of the file or of TETRISH_ROOT changes no answer
    and no later read touches the state. *)
Theorem reads_share_a_snapshot h h1 h2 st key cap out :
  lookup h1 key cap out (snapshot h st) = lookup h2 key cap out (snapshot h st) /\
  snd (lookup h1 key cap out (snapshot h st)) = snapshot h st /\
  snapshot h1 (rc_reload (snapshot h st)) = snapshot h1 rc_initial.
Proof.
  split; [|split; [|done]]; rewrite !lookup_spec, !snapshot_idempotent; [done|]. by destruct (content_ptr (snapshot h st)).
Qed.

(** ** Switches *)

(** The two vocabularies of [rc_get_bool] do not overlap, so the answer does
    not depend on which list is tried first. *)
Lemma switch_exact value :
  bool_loop (zip yes no) value =
    if decide (map tolower value ∈ yes) then Some 1 else if decide (map tolower value ∈ no) then Some 0 else None.
Proof.
  set (v := map tolower value).
  destruct (decide (v ∈ yes ++ no)) as [Hin|Hout].
  - assert (Hv : forall w, v = map tolower w -> bool_loop (zip yes no) value = bool_loop (zip yes no) w).
    { intros w Hw. unfold yes, no. cbn [zip zip_with bool_loop]. unfold strcaseeq. fold v. by rewrite <-Hw. }
    unfold yes, no in Hin. cbn [app] in Hin. rewrite !elem_of_cons, elem_of_nil in Hin.
    repeat (destruct Hin as [Hw|Hin]; [match type of Hw with _ = ?w => rewrite (Hv w Hw), Hw end; vm_compute; reflexivity|]). done.
  - rewrite elem_of_app in Hout. rewrite !decide_False by tauto. unfold yes, no in *. cbn [zip zip_with bool_loop]. unfold strcaseeq. fold v.
    rewrite !elem_of_cons in Hout. rewrite !(fun w => proj2 (streq_false v w)) by (intros ->; apply Hout; clear; vm_compute; tauto). done.
Qed.

(** ** Samples *)

Definition sample_file : cstr :=
  $"# limits" ++ LF :: $"db_timeout = 250 " ++ LF :: $"echo hello" ++ LF :: $"db_timeout=30s" ++ CR :: LF :: $"log = On".
Definition sample_host : host := mkHost None (fun p => if bool_decide (p = $"./.tetrishrc") then Some sample_file else None).

Lemma rc_answers_from_last_line_witness :
  rc_get sample_host ($"db_timeout") (Some ($"5")) (Some []) 16 rc_initial =
    (RC_VALUE_FOUND, Some ($"30s"), mkRc (Some sample_file) false).
Proof. rewrite (rc_answers_from_last_line sample_host ($"db_timeout") ($"5") [] 16 rc_initial); vm_compute; reflexivity. Defined.

(** The last line is a typo, so the number is not found, although the line
    above holds one; with the typo gone it is that line's. *)
Definition fixed_host : host := mkHost None (fun _ => Some ($"db_timeout = 250 " ++ LF :: $"echo hello")).

Lemma rc_number_is_in_range_witness :
  fst (fst (rc_get_int sample_host ($"db_timeout") 500 0 1000 (Some 0) [] rc_initial)) <> RC_VALUE_FOUND /\
  fst (rc_get_int fixed_host ($"db_timeout") 500 0 1000 (Some 0) [] rc_initial) = (RC_VALUE_FOUND, Some 250).
Proof.
  split; [|vm_compute; reflexivity].
  generalize (rc_number_is_in_range sample_host ($"db_timeout") 500 0 1000 0 [] rc_initial ltac:(lia) ltac:(unfold INT_MAX; lia)).
  destruct (rc_get_int _ _ _ _ _ _ _ _) as [[status value] st']. intros (H & _) Hs. cbn [fst] in Hs.
  apply H in Hs as (s & n & E1 & E2 & _). vm_compute in E1. injection E1 as <-. vm_compute in E2. discriminate E2.
Defined.

Example switch_is_read : fst (rc_get_bool sample_host ($"log") 0 (Some 0) [] rc_initial) = (RC_VALUE_FOUND, Some 1).
Proof. vm_compute. reflexivity. Qed.

(** Without a fallback a refused last line does not leave the buffer alone:
    the value of an earlier line is already in it. *)
Example earlier_value_stays :
  let h := mkHost None (fun _ => Some ($"db_ipc=a.sock" ++ LF :: $"db_ipc=")) in
  fst (rc_get h ($"db_ipc") None (Some ($"seed")) 16 rc_initial) = (RC_VALUE_INVALID, Some ($"a.sock")).
Proof. vm_compute. reflexivity. Qed.

End Rc.
