(* ===== verification/Accounts.v ===== *)
(** * Accounts: libtetrisauth/lib/account.c

    The user table behind the runner's socket, registration in a transaction
    under a system-wide semaphore, and login.  Statements, connections and
    faults work as in Server.v; PBKDF2 and RAND_bytes are parameters. *)
From S2P Require Import Prelude CText Types Rows Sql Wire Server BrainDb Printed DbLogic Htttp Codec CodecLogic Token Client.
Import Rows Sql Wire Server Printed Token.
Local Open Scope Z_scope.

Module Accounts.

(** ** The user table: TETRISAUTH_DB_SCHEMA *)

Record user_row := mkUser {
  ur_id : Z; ur_name : cstr; ur_salt : cstr; ur_digest : cstr; ur_iters : Z; ur_created : Z }.
#[export] Instance user_row_eq_dec : EqDecision user_row. Proof. solve_decision. Defined.

Definition BODY_MAX : nat := Z.to_nat 4096.
Definition CRED_PASS_MIN : nat := 8.
Definition CRED_PASS_MAX : nat := 128.
Definition REG_WAIT_MS : Z := 5000.
Definition REG_POLL_MIN_US : Z := 1000.
Definition REG_POLL_SPAN_US : Z := 4000.
Definition TXN_ATTEMPTS : nat := 3.
Definition SALT_HEX_LEN : nat := 32.
Definition DIGEST_HEX_LEN : nat := 64.
Definition HASH_SALT_BYTES : nat := 16.
Definition HASH_DIGEST_BYTES : nat := 32.
Definition MAX_USER_NAME : nat := 16.
Definition QUOTED_MAX : nat := MAX_USER_NAME * 2 + 4.
Definition LOGIN_SQL : nat := Z.to_nat 256.
Definition REGISTER_SQL : nat := Z.to_nat 512.

(** ** The statements account.c sends *)

Inductive ustmt :=
  | USetTransaction | UCommit | URollback
  | USelMax
  | USelId (name : cstr)
  | USelLogin (name : cstr)
  | UInsert (id : Z) (name salt digest : cstr) (iters created : Z).

Definition usql_text (s : ustmt) : cstr :=
  match s with
  | USetTransaction => $"set transaction read write;"
  | UCommit => $"commit;"
  | URollback => $"rollback;"
  | USelMax => $"select max(id) from user;"
  | USelId name => trunc REGISTER_SQL ($"select id from user where name = " ++ db_quote QUOTED_MAX name ++ $";")
  | USelLogin name =>
    trunc LOGIN_SQL ($"select id, salt, digest, iters from user where name = " ++ db_quote QUOTED_MAX name ++ $";")
  | UInsert id name salt digest iters created =>
    trunc REGISTER_SQL ($"insert into user values (" ++ print_int id ++ $", " ++ db_quote QUOTED_MAX name ++ $", '" ++ salt ++ $"', '" ++
      digest ++ $"', " ++ print_int iters ++ $", " ++ print_int created ++ $");")
  end.

(** What the runner prints around the answers to these statements. *)
Class UserRunner := {
  u_preamble : ustmt -> list cstr; u_columns : ustmt -> list cstr; u_postamble : ustmt -> list cstr;
  u_printing : forall s, printing_ok (u_preamble s) (u_columns s) (u_postamble s) }.

(** One session's connection, and the world of a session process: the
    committed table, the outcomes of the next statements, connects,
    [sem_open]s and [sem_trywait]s, and whether this process holds the
    registration semaphore. *)
Record uconn := mkUconn { uc_txn : option (list user_row); uc_failed : option db_status_t; uc_unread : list cstr }.
Record uworld := mkUworld {
  uw_users : list user_row; uw_faults : list fault; uw_opens : list bool; uw_sems : list bool; uw_turns : list bool; uw_held : bool }.

Definition set_users x w := mkUworld x (uw_faults w) (uw_opens w) (uw_sems w) (uw_turns w) (uw_held w).
Definition set_faults x w := mkUworld (uw_users w) x (uw_opens w) (uw_sems w) (uw_turns w) (uw_held w).
Definition set_opens x w := mkUworld (uw_users w) (uw_faults w) x (uw_sems w) (uw_turns w) (uw_held w).
Definition set_sems x w := mkUworld (uw_users w) (uw_faults w) (uw_opens w) x (uw_turns w) (uw_held w).
Definition set_turns x w := mkUworld (uw_users w) (uw_faults w) (uw_opens w) (uw_sems w) x (uw_held w).
Definition set_held x w := mkUworld (uw_users w) (uw_faults w) (uw_opens w) (uw_sems w) (uw_turns w) x.

Section Accounts.
Context `{R : Runner} `{U : UserRunner}.

(** [PKCS5_PBKDF2_HMAC] with SHA-256 and a 32-byte output: password, salt, iterations. *)
Variable PBKDF2 : cstr -> cstr -> Z -> option cstr.

(** The value of a name's literal in a string column, and of hex text between quotes. *)
Definition uval (name : cstr) : cstr := take STRING_LEN (zql_string (quote_loop QUOTED_MAX 1 name)).
Definition hval (hex : cstr) : cstr := take STRING_LEN (zql_string hex).

Definition max_id (l : list user_row) : Z := foldr Z.max (-2147483648) (map ur_id l).

Definition user_select (s : ustmt) (t : list user_row) : list (list cstr) :=
  match s with
  | USelMax => match t with [] => [] | _ => [[print_int (max_id t)]] end
  | USelId name => map (fun r => [print_int (ur_id r)]) (filter (fun r => ur_name r = uval name) t)
  | USelLogin name =>
    map (fun r => [print_int (ur_id r); ur_salt r; ur_digest r; print_int (ur_iters r)]) (filter (fun r => ur_name r = uval name) t)
  | _ => []
  end.

Definition user_run (s : ustmt) (t : list user_row) : option (list user_row) :=
  match s with
  | UInsert id name salt digest iters created =>
    i ← nval id; n ← nval iters; c ← nval created; Some (place (mkUser i (uval name) (hval salt) (hval digest) n c) t)
  | _ => Some t
  end.

Definition user_lines (s : ustmt) (t : list user_row) : list cstr :=
  table_lines (u_preamble s) (u_columns s) (u_postamble s) (user_select s t).

(** The runner's statement processing, as [session_exec] of Server.v. *)
Definition user_exec (db : list user_row) (txn : option (list user_row)) (s : ustmt)
    : bool * list user_row * option (list user_row) * list cstr :=
  match s with
  | USetTransaction => match txn with None => (true, db, Some db, []) | Some _ => (false, db, txn, []) end
  | UCommit => match txn with Some t => (true, t, None, []) | None => (false, db, None, []) end
  | URollback => match txn with Some _ => (true, db, None, []) | None => (false, db, None, []) end
  | _ =>
    let t := default db txn in
    match user_run s t with
    | None => (false, db, None, [])
    | Some t' => match txn with Some _ => (true, db, Some t', user_lines s t) | None => (true, t', None, user_lines s t) end
    end
  end.

(** [db_socket_exec]. *)
Definition uexec (s : ustmt) (cap : option nat) (c : uconn) (w : uworld) : db_status_t * cstr * uconn * uworld :=
  match uc_failed c with
  | Some f => (f, [], c, w)
  | None =>
    if has_line_break (usql_text s) then (DB_ERROR, [], c, w)
    else
      let f := match uw_faults w with f :: _ => f | [] => F_ok end in
      let w1 := set_faults (tail (uw_faults w)) w in
      let answer (db : list user_row) (txn : option (list user_row)) (lines : list cstr) (mark : cstr) :=
        let '(st, body, rest) := take_reply [] (uc_unread c ++ lines ++ [mark]) in
        (st, wire_body cap body, mkUconn txn None rest, set_users db w1) in
      match f with
      | F_ok =>
        let '(ok, db, txn, lines) := user_exec (uw_users w1) (uc_txn c) s in
        answer db txn lines (if ok then DB_MARK_OK else DB_MARK_ERROR)
      | F_retry => answer (uw_users w1) None [] DB_MARK_RETRY
      | F_error => answer (uw_users w1) None [] DB_MARK_ERROR
      | F_lost late applied =>
        let st := if late then DB_TIMEOUT else DB_IO in
        if applied then
          let '(_, db, txn, _) := user_exec (uw_users w1) (uc_txn c) s in (st, [], mkUconn txn (Some st) [], set_users db w1)
        else (st, [], mkUconn (uc_txn c) (Some st) [], w1)
      end
  end.

(** ** account.c *)

(** The hex digest, or [None] for -1. *)
Definition password_hash (pass salt_hex : cstr) (iters : Z) (cap : nat) : option cstr :=
  if (cap <? HASH_DIGEST_BYTES * 2 + 1)%nat || (iters <? 1) then None
  else match hex_decode salt_hex HASH_SALT_BYTES with
       | None | Some [] => None
       | Some salt => digest ← PBKDF2 pass salt iters; Some (hex_encode digest)
       end.

Definition poll_delay_us (pid : Z) : Z := REG_POLL_MIN_US + u32 pid mod REG_POLL_SPAN_US.

Definition conn_open (w : uworld) : option uconn * uworld :=
  (if match uw_opens w with b :: _ => b | [] => true end then Some (mkUconn None None []) else None, set_opens (tail (uw_opens w)) w).

Definition copy_text (src : cstr) (cap : nat) : option cstr :=
  if (length src =? 0)%nat || (cap <=? length src)%nat then None else Some src.

(** The status, or on 200 the salt, the digest, the iteration count and the id. *)
Definition parse_login_db_result (st : db_status_t) (body : cstr) : Z + (cstr * cstr * Z * Z) :=
  if negb (bool_decide (st = DB_OK)) then inl 500
  else
    let rows := db_row_count body in
    if rows <? 0 then inl 500
    else if rows =? 0 then inl 404
    else match db_row_fields body 0 4 with
    | Some (4%nat, [id; salt; digest; iters]) =>
      if negb (length salt =? SALT_HEX_LEN)%nat || negb (length digest =? DIGEST_HEX_LEN)%nat then inl 500
      else match copy_text id 32, copy_text iters 32 with
      | Some id_text, Some iters_text =>
        let n := i32 (fst (strtol iters_text)) in
        if n <? 1 then inl 500 else inr (salt, digest, n, fst (strtol id_text))
      | _, _ => inl 500
      end
    | _ => inl 500
    end.

(** The select, sent again when it was a deadlock's victim. *)
Definition login_query (name : cstr) (conn : uconn) (w : uworld) : db_status_t * cstr * uworld :=
  let '(st, body, conn, w) := uexec (USelLogin name) (Some BODY_MAX) conn w in
  if bool_decide (st = DB_RETRY) then
    let '(st, body, _, w) := uexec (USelLogin name) (Some BODY_MAX) conn w in (st, body, w)
  else (st, body, w).

(** The status and, on 200, [*id]. *)
Definition account_login (name pass : cstr) (w : uworld) : Z * option Z * uworld :=
  match conn_open w with
  | (None, w1) => (500, None, w1)
  | (Some conn, w1) =>
    let '(st, body, w2) := login_query name conn w1 in
    match parse_login_db_result st body with
    | inl status => (status, None, w2)
    | inr (salt, digest, iters, uid) =>
      match password_hash pass salt iters (DIGEST_HEX_LEN + 1) with
      | None => (500, None, w2)
      | Some want => if streq (take DIGEST_HEX_LEN want) (take DIGEST_HEX_LEN digest) then (200, Some uid, w2) else (401, None, w2)
      end
    end
  end.

(** The end of the transaction: the row goes in and the commit is sent. *)
Definition insert_and_commit (next : Z) (name salt_hex digest_hex : cstr) (iters now : Z) (c : uconn) (w : uworld)
    : db_status_t * bool * option Z * uconn * uworld :=
  let '(st, _, c, w) := uexec (UInsert next name salt_hex digest_hex iters now) None c w in
  if negb (bool_decide (st = DB_OK)) then (st, false, None, c, w)
  else
    let '(st, _, c, w) := uexec UCommit None c w in
    if negb (bool_decide (st = DB_OK)) then (st, false, None, c, w) else (DB_OK, false, Some next, c, w).

(** The status, [*taken], and [*id] when it was written. *)
Definition register_txn (name salt_hex digest_hex : cstr) (iters now : Z) (c : uconn) (w : uworld)
    : db_status_t * bool * option Z * uconn * uworld :=
  let '(st, _, c, w) := uexec USetTransaction None c w in
  if negb (bool_decide (st = DB_OK)) then (st, false, None, c, w)
  else
    let '(st, body, c, w) := uexec USelMax (Some BODY_MAX) c w in
    if negb (bool_decide (st = DB_OK)) then (st, false, None, c, w)
    else
      let next := db_next_id body in
      if next <? 0 then (DB_ERROR, false, None, c, w)
      else
        let '(st, body, c, w) := uexec (USelId name) (Some BODY_MAX) c w in
        if negb (bool_decide (st = DB_OK)) then (st, false, None, c, w)
        else
          let rows := db_row_count body in
          if rows <? 0 then (DB_ERROR, false, None, c, w)
          else if 0 <? rows then
            let '(_, _, c, w) := uexec URollback None c w in (DB_OK, true, None, c, w)
          else insert_and_commit next name salt_hex digest_hex iters now c w.

(** The polling loop of [reg_acquire]; every nap is at least a millisecond,
    so [REG_WAIT_MS] polls are enough. *)
Fixpoint reg_wait (fuel : nat) (nap waited_us : Z) (w : uworld) : bool * uworld :=
  match fuel with
  | O => (false, w)
  | S f =>
    if waited_us <? REG_WAIT_MS * 1000 then
      let got := match uw_turns w with b :: _ => b | [] => true end in
      let w1 := set_turns (tail (uw_turns w)) w in
      if got then (true, set_held true w1) else reg_wait f nap (waited_us + nap) w1
    else (false, w)
  end.

Definition reg_acquire (pid : Z) (w : uworld) : bool * uworld :=
  let opened := match uw_sems w with b :: _ => b | [] => true end in
  let w1 := set_sems (tail (uw_sems w)) w in
  if opened then reg_wait (S (Z.to_nat REG_WAIT_MS)) (poll_delay_us pid) 0 w1 else (false, w1).

Definition reg_release (sem : bool) (w : uworld) : uworld := if sem then set_held false w else w.

(** [rand]: what [RAND_bytes] wrote. *)
Definition gen_new_salt (rand : option cstr) (cap : nat) : option cstr :=
  if (cap <? HASH_SALT_BYTES * 2 + 1)%nat then None else salt ← rand; Some (hex_encode salt).

(** The attempt loop; [clock n] is what [time] reads with [n] attempts left
    behind this one. *)
Fixpoint register_loop (attempts : nat) (name salt_hex digest_hex : cstr) (iters : Z) (clock : nat -> Z) (c : uconn) (w : uworld)
    : Z * option Z * uworld :=
  match attempts with
  | O => (500, None, w)
  | S n =>
    let '(st, taken, id, c, w) := register_txn name salt_hex digest_hex iters (clock n) c w in
    match st with
    | DB_RETRY => register_loop n name salt_hex digest_hex iters clock c w
    | DB_OK => (if taken then 409 else 200, id, w)
    | _ => (500, None, w)
    end
  end.

Definition account_register (name pass : cstr) (rand : option cstr) (iters : Z) (clock : nat -> Z) (pid : Z) (w : uworld) : Z * option Z * uworld :=
  if (length pass <? CRED_PASS_MIN)%nat || (CRED_PASS_MAX <? length pass)%nat then (400, None, w)
  else match gen_new_salt rand (SALT_HEX_LEN + 1) with
  | None => (500, None, w)
  | Some salt_hex =>
    match password_hash pass salt_hex iters (DIGEST_HEX_LEN + 1) with
    | None => (500, None, w)
    | Some digest_hex =>
      match reg_acquire pid w with
      | (false, w1) => (500, None, w1)
      | (true, w1) =>
        match conn_open w1 with
        | (None, w2) => (500, None, reg_release true w2)
        | (Some conn, w2) =>
          let '(status, id, w3) := register_loop TXN_ATTEMPTS name salt_hex digest_hex iters clock conn w2 in
          (status, id, reg_release true w3)
        end
      end
    end
  end.

End Accounts.
End Accounts.
