(* ===== verification/Registry.v ===== *)
(** * What the account operations guarantee

    Under every schedule of faults: the user table keeps one row per name and
    per id whatever sequence of registrations and logins runs, a login
    succeeds only with the stored digest's password, and an account that was
    registered can log in. *)
From S2P Require Import Prelude CText Types Rows Sql Wire Server BrainDb Fixture Printed DbLogic Htttp Codec CodecLogic Token Client Accounts.
Import Rows Sql Wire Server Fixture Printed Client Token Accounts.
Local Open Scope Z_scope.

Module Registry.

(** ** Well-formed tables *)

Definition good_name (n : cstr) : Prop := user_name_ok n = true.
Definition plain_of (k : nat) (s : cstr) : Prop := plain s /\ length s = k.
Definition in_int (z : Z) : Prop := 1 <= z <= INT_MAX.

Record user_ok (r : user_row) : Prop := {
  uo_name : good_name (ur_name r);
  uo_id : in_int (ur_id r);
  uo_salt : plain_of SALT_HEX_LEN (ur_salt r);
  uo_digest : plain_of DIGEST_HEX_LEN (ur_digest r);
  uo_iters : in_int (ur_iters r) }.

Record users_ok (l : list user_row) : Prop := {
  us_rows : Forall user_ok l;
  us_ids : NoDup (map ur_id l);
  us_names : NoDup (map ur_name l);
  us_dense : Forall (fun r => ur_id r <= Z.of_nat (length l)) l }.

Lemma name_char_plain c : user_name_char_ok c = true -> plain_char c = true /\ c <> "<"%char.
Proof.
  unfold user_name_char_ok, plain_char, ceqb. intros H. split; [|by intros ->].
  rewrite bool_decide_eq_false_2 by (intros ->; done). rewrite andb_true_r.
  repeat apply orb_true_iff in H as [H|H]; try (apply andb_true_iff in H; lia);
    apply bool_decide_eq_true_1 in H as ->; done.
Qed.

Lemma good_name_plain n : good_name n -> plain n /\ (0 < length n <= 15)%nat.
Proof.
  unfold good_name, user_name_ok, USER_NAME_MAX. intros [[H1 H2]%andb_true_iff H3]%andb_true_iff.
  apply Nat.leb_le in H1, H2. split; [|lia]. apply Forall_forall. intros c Hc. rewrite forallb_forall in H3.
  by apply name_char_plain, H3, list_elem_of_In.
Qed.

Lemma max_id_spec l r : (forall x, x ∈ r :: l -> -2147483648 <= ur_id x) ->
  (exists x, x ∈ r :: l /\ ur_id x = max_id (r :: l)) /\ forall x, x ∈ r :: l -> ur_id x <= max_id (r :: l).
Proof.
  revert r. induction l as [|y l IH]; intros r Hr.
  - unfold max_id. cbn [map foldr]. specialize (Hr r ltac:(set_solver)). split.
    + exists r. split; [set_solver|lia].
    + intros x Hx%list_elem_of_singleton. subst. lia.
  - destruct (IH y) as [(x & Hx & Ex) Hm]; [set_solver|].
    assert (E : max_id (r :: y :: l) = Z.max (ur_id r) (max_id (y :: l))) by done. rewrite E. split.
    + destruct (Z.max_spec (ur_id r) (max_id (y :: l))) as [[_ ->]|[_ ->]]; [exists x|exists r]; set_solver.
    + intros z [->|Hz]%elem_of_cons; [lia|]. specialize (Hm z Hz). lia.
Qed.

(** The id a registration allocates. *)
Definition next_id (l : list user_row) : Z := match l with [] => 1 | _ => max_id l + 1 end.

Lemma user_id_fresh l : users_ok l -> 1 <= next_id l <= Z.of_nat (length l) + 1 /\ (next_id l ∉ map ur_id l).
Proof.
  intros [Hr _ _ Hd]. unfold next_id. destruct l as [|r l]; [split; [simpl; lia|set_solver]|].
  rewrite Forall_forall in Hr. rewrite Forall_forall in Hd.
  destruct (max_id_spec l r) as [(x & Hx & Ex) Hm]; [intros x Hx; destruct (uo_id x (Hr _ Hx)); lia|].
  rewrite <-Ex in *. pose proof (uo_id x (Hr _ Hx)) as [? _]. pose proof (Hd _ Hx). split; [lia|].
  rewrite list_elem_of_fmap. intros (y & Hy & Hin). specialize (Hm y Hin). lia.
Qed.

Section Logic.
Context `{R : Runner} `{U : UserRunner}.

Lemma uval_good n : good_name n -> uval n = n.
Proof.
  intros [Hp Hl]%good_name_plain. unfold uval. rewrite quote_loop_plain.
  - rewrite zql_string_plain by done. apply take_ge. unfold STRING_LEN. lia.
  - by apply plain_no_quote.
  - unfold QUOTED_MAX, MAX_USER_NAME. lia.
Qed.

Lemma hval_plain k s : plain_of k s -> (k <= 64)%nat -> hval s = s.
Proof. intros [Hp Hl] Hk. unfold hval. rewrite zql_string_plain by done. apply take_ge. unfold STRING_LEN. lia. Qed.

(** The rows that carry a name: at most one. *)
Lemma name_rows l n : users_ok l -> good_name n ->
  filter (fun r => ur_name r = uval n) l =
    match head (filter (fun r => ur_name r = n) l) with Some r => [r] | None => [] end.
Proof. intros Hok Hn. rewrite uval_good by done. apply filter_key, Hok. Qed.

(** ** Answers that are read back *)

Definition good_stmt (s : ustmt) : Prop :=
  match s with
  | USelId n | USelLogin n => good_name n
  | UInsert id n salt digest iters created =>
    good_name n /\ plain_of SALT_HEX_LEN salt /\ plain_of DIGEST_HEX_LEN digest /\ in_int id /\ in_int iters /\ in_int created
  | _ => True
  end.

Lemma no_break_quoted n : plain n -> no_break (db_quote QUOTED_MAX n).
Proof.
  intros Hn. unfold db_quote. case_match; [done|]. apply (no_break_app [_]); [done|]. apply no_break_app; [|done].
  pose proof (plain_quote_loop QUOTED_MAX 1 n Hn) as HF. unfold no_break, has_line_break.
  induction HF as [|c l Hc _ IH]; [done|]; destruct Hc as [Hc| ->]; cbn [existsb]; rewrite IH, orb_false_r; [|done].
  unfold ceqb. rewrite !bool_decide_eq_false_2; [done|..]; by eapply plain_char_ne.
Qed.

Lemma usql_no_break s : good_stmt s -> has_line_break (usql_text s) = false.
Proof.
  destruct s as [| | | |n|n|id n salt digest iters created]; cbn [good_stmt usql_text]; try done.
  - intros [Hn _]%good_name_plain. apply no_break_take. repeat (apply no_break_app; [done|]). by apply no_break_app; [apply no_break_quoted|].
  - intros [Hn _]%good_name_plain. apply no_break_take. repeat (apply no_break_app; [done|]). by apply no_break_app; [apply no_break_quoted|].
  - intros ([Hn _]%good_name_plain & [Hs _] & [Hd _] & _). apply no_break_take.
    repeat first [done | apply no_break_quoted; done | apply no_break_plain; done | apply no_break_plain, plain_print_int | apply no_break_app].
Qed.

Lemma id_row z : row_ok [print_int z].
Proof.
  destruct (print_int_cons z) as (c & l & E & Hc). pose proof (print_int_length z) as Hl. pose proof (plain_print_int z) as Hp.
  rewrite E in *. apply row_ok_intro; [by apply Forall_singleton|done|]. cbn [map sum_list_with id]. unfold MAX_ROW. simpl length in *. lia.
Qed.

Lemma login_row r : user_ok r -> row_ok [print_int (ur_id r); ur_salt r; ur_digest r; print_int (ur_iters r)].
Proof.
  intros [_ _ [Hs Hsl] [Hd Hdl] _]. destruct (print_int_cons (ur_id r)) as (c & l & E & Hc).
  pose proof (print_int_length (ur_id r)) as Hl. pose proof (plain_print_int (ur_id r)) as Hp.
  pose proof (print_int_length (ur_iters r)) as Hl2. rewrite E in *. apply row_ok_intro; [|done|].
  - rewrite !Forall_cons. repeat split; try done. apply plain_print_int.
  - cbn [map sum_list_with id]. unfold MAX_ROW, SALT_HEX_LEN, DIGEST_HEX_LEN in *. simpl length in *. lia.
Qed.

Lemma select_ok s t : users_ok t -> good_stmt s -> Forall row_ok (user_select s t) /\ (length (user_select s t) <= 1)%nat.
Proof.
  intros Hok Hs. destruct s as [| | | |n|n|]; cbn [user_select good_stmt] in *; try (split; [constructor|simpl; lia]).
  - destruct t; [split; [constructor|simpl; lia]|]. split; [|simpl; lia]. apply Forall_singleton, id_row.
  - rewrite name_rows by done. destruct (head _) as [r|]; cbn [map]; (split; [|simpl; lia]); [|constructor]. apply Forall_cons. split; [apply id_row|constructor].
  - rewrite name_rows by done. destruct (head (filter _ t)) as [r|] eqn:E; cbn [map]; (split; [|simpl; lia]); [|constructor].
    apply Forall_cons. split; [|constructor]. apply head_filter_Some in E as [_ Hr]. apply login_row.
    pose proof (us_rows _ Hok) as HF. rewrite Forall_forall in HF. by apply HF.
Qed.

(** The body [uexec] leaves in a buffer of [BODY_MAX] bytes. *)
Definition answer (s : ustmt) (t : list user_row) : cstr := table_body (u_preamble s) (u_columns s) (u_postamble s) (user_select s t).

Lemma user_answer_body s t : users_ok t -> good_stmt s -> wire_body (Some BODY_MAX) (user_lines s t) = answer s t.
Proof.
  intros Hok Hs. destruct (select_ok s t Hok Hs) as [HF Hl]. apply table_wire; [apply u_printing|done|]. unfold BODY_MAX. lia.
Qed.

Lemma answer_readable s t : users_ok t -> good_stmt s ->
  reply_ok (u_preamble s) (table_header (u_columns s)) (table_rule (u_columns s)) (user_select s t).
Proof.
  intros Hok Hs. destruct (select_ok s t Hok Hs) as [HF Hl]. apply (table_readable _ _ (u_postamble s)); [apply u_printing|done|]. unfold INT_MAX. lia.
Qed.

Lemma answer_count s t : users_ok t -> good_stmt s -> db_row_count (answer s t) = Z.of_nat (length (user_select s t)).
Proof. intros Hok Hs. apply db_row_count_reply. by apply answer_readable. Qed.

Lemma answer_fields s t r max : users_ok t -> good_stmt s -> user_select s t = [r] ->
  db_row_fields (answer s t) 0 max = Some (length r, take max r).
Proof. intros Hok Hs E. apply (db_row_fields_reply _ _ _ _ _ (answer_readable s t Hok Hs) 0%nat). by rewrite E. Qed.

Lemma answer_next_id t : users_ok t -> (Z.of_nat (length t) < INT_MAX)%Z -> db_next_id (answer USelMax t) = next_id t.
Proof.
  intros Hok Hlt. unfold db_next_id. rewrite answer_count by done. destruct t as [|r t]; [done|].
  rewrite (answer_fields _ _ [print_int (max_id (r :: t))]) by done. cbn [user_select length Z.of_nat Z.ltb Z.compare Z.eqb take].
  pose proof (print_int_length (max_id (r :: t))). pose proof (user_id_fresh _ Hok) as [[Hlo Hhi] _]. unfold next_id in *.
  destruct (Nat.eqb_spec (length (print_int (max_id (r :: t)))) 0) as [E0|_]; [by apply nil_length_inv, print_int_nonempty in E0|].
  rewrite (proj2 (Nat.leb_gt _ _)) by lia. cbn [orb]. rewrite strtol_print_int_end by (unfold LONG_MIN, LONG_MAX, INT_MAX in *; lia).
  change (Z.of_nat 1 <? 0) with false. change (Z.of_nat 1 =? 0) with false. rewrite (proj2 (Z.ltb_ge _ _)) by lia. apply i64_id. unfold LONG_MAX, INT_MAX in *. lia.
Qed.

(** ** One statement on a connection *)

Definition uclean (txn : option (list user_row)) : uconn := mkUconn txn None [].

(** [w'] differs from [w] in the committed table and the consumed schedule at most. *)
Record uframe (w w' : uworld) : Prop := mkUframe {
  uf_opens : uw_opens w' = uw_opens w; uf_sems : uw_sems w' = uw_sems w; uf_turns : uw_turns w' = uw_turns w;
  uf_held : uw_held w' = uw_held w; uf_faults : uw_faults w = [] -> uw_faults w' = [] }.

#[global] Instance uframe_preorder : PreOrder uframe.
Proof. split; [by intros w; split|]. intros x y z [] []; split; [congruence..|auto]. Qed.

(** A statement failed because the schedule said so: it was aborted, or the
    connection is dead. *)
Definition stopped (w : uworld) (st : db_status_t) (c : uconn) : Prop :=
  uw_faults w <> [] /\ st <> DB_OK /\ (st = DB_RETRY -> c = uclean None).

Lemma mark_reply lines m : m = DB_MARK_OK \/ m = DB_MARK_RETRY \/ m = DB_MARK_ERROR -> Forall (fun l => is_mark l = false) lines ->
  take_reply [] (lines ++ [m]) = (classify m, lines, []).
Proof. intros Hm Hl. rewrite take_reply_lines; [|done|by destruct Hm as [->|[->| ->]]]. by destruct Hm as [->|[->| ->]]. Qed.

(** What [uexec] can do with a statement the runner accepts: either it is
    answered and takes its effect, or a fault stopped it, and then the
    committed table moved at most to where the statement would have put it. *)
Lemma uexec_spec s cap txn w db' txn' lines :
  good_stmt s -> user_exec (uw_users w) txn s = (true, db', txn', lines) -> Forall (fun l => is_mark l = false) lines ->
  match uexec s cap (uclean txn) w with
  | (st, body, c', w') => uframe w w' /\
      ((st = DB_OK /\ body = wire_body cap lines /\ c' = uclean txn' /\ uw_users w' = db') \/
       (stopped w st c' /\ (uw_users w' = uw_users w \/ uw_users w' = db' /\ st <> DB_RETRY)))
  end.
Proof.
  intros Hs He Hl. unfold uexec. cbn [uclean uc_failed uc_unread uc_txn app]. rewrite usql_no_break by done.
  assert (Hfr : forall x, uframe w (set_users x (set_faults (tail (uw_faults w)) w))) by (intros x; split; try done; simpl; by intros ->).
  assert (Hfr' : uframe w (set_faults (tail (uw_faults w)) w)) by (split; try done; simpl; by intros ->).
  destruct (uw_faults w) as [|[| | |late []] fs] eqn:Ef; cbn [set_faults uw_users tail] in *;
    rewrite ?He; rewrite ?mark_reply by (auto; constructor); (split; [done|]).
  - left. done.
  - left. done.
  - right. unfold stopped. rewrite Ef. split; [done|by left].
  - right. unfold stopped. rewrite Ef. split; [|by left]. done.
  - right. unfold stopped. rewrite Ef. split; [by destruct late|right]. by destruct late.
  - right. unfold stopped. rewrite Ef. split; [by destruct late|by left].
Qed.

(** Queries, inside a transaction on [t] or outside of one. *)
Lemma uexec_query s txn w : let t := default (uw_users w) txn in
  match s with USelMax | USelId _ | USelLogin _ => True | _ => False end -> good_stmt s -> users_ok t ->
  match uexec s (Some BODY_MAX) (uclean txn) w with
  | (st, body, c', w') => uframe w w' /\ uw_users w' = uw_users w /\
      ((st = DB_OK /\ body = answer s t /\ c' = uclean txn) \/ stopped w st c')
  end.
Proof.
  intros t Hq Hs Hok. destruct (select_ok s t Hok Hs) as [HF Hn].
  pose proof (uexec_spec s (Some BODY_MAX) txn w (uw_users w) txn (user_lines s t) Hs) as H.
  destruct (uexec s (Some BODY_MAX) (uclean txn) w) as [[[st body] c'] w']. destruct H as [Hfr H].
  - unfold t. destruct s, txn; done.
  - apply table_no_mark; [apply u_printing|done].
  - rewrite user_answer_body in H by done. split; [done|]. destruct H as [(-> & -> & -> & ->)|(Hst & [->|(-> & _)])]; auto.
Qed.

(** ** The registration transaction *)

Definition new_user (l : list user_row) (name salt digest : cstr) (iters now : Z) : user_row :=
  mkUser (next_id l) name salt digest iters now.

Definition taken_in (l : list user_row) (name : cstr) : Prop := name ∈ map ur_name l.
#[local] Instance taken_in_dec l name : Decision (taken_in l name). Proof. unfold taken_in. apply _. Defined.

Lemma select_id_count l n : users_ok l -> good_name n -> length (user_select (USelId n) l) = if decide (taken_in l n) then 1%nat else 0%nat.
Proof.
  intros Hok Hn. cbn [user_select]. rewrite name_rows by done. destruct (head _) as [r|] eqn:E; cbn [map length].
  - apply head_filter_Some in E as [<- Hr]. rewrite decide_True; [done|]. by apply list_elem_of_fmap_2.
  - rewrite decide_False; [done|]. intros (r & -> & Hr)%list_elem_of_fmap. by eapply head_filter_None in E.
Qed.

(** What one run of the transaction amounts to. *)
Inductive txn_outcome (l : list user_row) (name : cstr) (u : user_row) (w : uworld)
    : db_status_t * bool * option Z * uconn * uworld -> Prop :=
  | Taken c' w' : taken_in l name -> uw_users w' = l -> txn_outcome l name u w (DB_OK, true, None, c', w')
  | Inserted c' w' : ~ taken_in l name -> uw_users w' = place u l -> txn_outcome l name u w (DB_OK, false, Some (next_id l), c', w')
  | Stopped st c' w' : stopped w st c' -> uw_users w' = l \/ (~ taken_in l name /\ uw_users w' = place u l /\ st <> DB_RETRY) ->
      txn_outcome l name u w (st, false, None, c', w').

Lemma stopped_frame w w' st c : uframe w w' -> stopped w' st c -> stopped w st c.
Proof. intros Hf (Hs & H). split; [|done]. intros E. by apply Hs, (uf_faults _ _ Hf). Qed.

Lemma insert_and_commit_spec l name salt digest iters now w :
  users_ok l -> uw_users w = l -> Z.of_nat (length l) < INT_MAX -> ~ taken_in l name ->
  good_name name -> plain_of SALT_HEX_LEN salt -> plain_of DIGEST_HEX_LEN digest -> in_int iters -> in_int now ->
  let out := insert_and_commit (next_id l) name salt digest iters now (uclean (Some l)) w in
  uframe w (snd out) /\ txn_outcome l name (new_user l name salt digest iters now) w out.
Proof.
  intros Hok Hw Hlt Ht Hn Hsa Hdi Hit Hno. unfold insert_and_commit. set (u := new_user l name salt digest iters now).
  set (s := UInsert (next_id l) name salt digest iters now).
  destruct (user_id_fresh l Hok) as [Hid _].
  assert (Hgood : good_stmt s) by (refine (conj Hn (conj Hsa (conj Hdi (conj _ (conj Hit Hno))))); unfold in_int; lia).
  pose proof (uexec_spec s None (Some l) w l (Some (place u l)) (user_lines s l) Hgood) as H1.
  destruct (uexec s None (uclean (Some l)) w) as [[[st1 b1] c1] w1]. destruct H1 as [F1 H1].
  { unfold in_int in *. cbn [user_exec user_run default s]. rewrite !nval_int by lia. cbn [mbind option_bind].
    rewrite uval_good, (hval_plain _ _ Hsa), (hval_plain _ _ Hdi) by (done || unfold SALT_HEX_LEN, DIGEST_HEX_LEN; lia). by rewrite Hw. }
  { destruct (select_ok _ l Hok Hgood) as [HF _]. apply table_no_mark; [apply u_printing|done]. }
  destruct H1 as [(-> & _ & -> & U1)|[S1 U1]].
  2: { rewrite bool_decide_eq_false_2 by apply S1. split; [done|]. apply Stopped; [done|]. left. destruct U1 as [->|[-> _]]; done. }
  rewrite bool_decide_eq_true_2 by done. cbn [negb].
  pose proof (uexec_spec UCommit None (Some (place u l)) w1 (place u l) None [] I eq_refl ltac:(constructor)) as H2.
  destruct (uexec UCommit _ _ w1) as [[[st2 b2] c2] w2]. destruct H2 as [F2 [(-> & _ & -> & U2)|[S2 U2]]].
  - rewrite bool_decide_eq_true_2 by done. split; [by etrans|]. by apply Inserted.
  - rewrite bool_decide_eq_false_2 by apply S2. split; [by etrans|]. apply Stopped; [by eapply stopped_frame|].
    destruct U2 as [->|[-> Hr]]; [left; congruence|right; auto].
Qed.

Lemma outcome_frame l name u w w' out : uframe w w' -> txn_outcome l name u w' out -> txn_outcome l name u w out.
Proof. intros Hf []; [by apply Taken|by apply Inserted|]. apply Stopped; [by eapply stopped_frame|done]. Qed.

Lemma register_txn_spec l name salt digest iters now w :
  users_ok l -> uw_users w = l -> Z.of_nat (length l) < INT_MAX ->
  good_name name -> plain_of SALT_HEX_LEN salt -> plain_of DIGEST_HEX_LEN digest -> in_int iters -> in_int now ->
  let out := register_txn name salt digest iters now (uclean None) w in
  uframe w (snd out) /\ txn_outcome l name (new_user l name salt digest iters now) w out.
Proof.
  intros Hok Hw Hlt Hn Hsa Hdi Hit Hno. unfold register_txn.
  pose proof (uexec_spec USetTransaction None None w l (Some l) [] I) as H1.
  destruct (uexec USetTransaction None (uclean None) w) as [[[st1 b1] c1] w1]. destruct H1 as [F1 H1]; [by rewrite <-Hw|constructor|].
  destruct H1 as [(-> & _ & -> & U1)|[S1 U1]].
  2: { rewrite bool_decide_eq_false_2 by apply S1. split; [done|]. apply Stopped; [done|]. left. destruct U1 as [->|[-> _]]; done. }
  rewrite bool_decide_eq_true_2 by done. cbn [negb].
  pose proof (uexec_query USelMax (Some l) w1 I I Hok) as H2. destruct (uexec USelMax _ _ w1) as [[[st2 b2] c2] w2].
  destruct H2 as (F2 & U2 & [(-> & -> & ->)|S2]).
  2: { rewrite bool_decide_eq_false_2 by apply S2. split; [by etrans|]. apply Stopped; [by eapply stopped_frame|]. left. congruence. }
  rewrite bool_decide_eq_true_2 by done. cbn [negb default]. unfold id. cbv zeta. rewrite answer_next_id by done.
  destruct (user_id_fresh l Hok) as [Hid _]. rewrite (proj2 (Z.ltb_ge (next_id l) 0)) by lia.
  pose proof (uexec_query (USelId name) (Some l) w2 I Hn Hok) as H3. destruct (uexec (USelId name) _ _ w2) as [[[st3 b3] c3] w3].
  assert (F02 : uframe w w2) by by etrans. destruct H3 as (F3 & U3 & [(-> & -> & ->)|S3]).
  2: { rewrite bool_decide_eq_false_2 by apply S3. split; [by etrans|]. apply Stopped; [by eapply stopped_frame|]. left. congruence. }
  rewrite bool_decide_eq_true_2 by done. cbn [negb default]. unfold id. cbv zeta. rewrite answer_count, select_id_count by done.
  assert (F03 : uframe w w3) by (by etrans). assert (U3' : uw_users w3 = l) by congruence.
  destruct (decide (taken_in l name)) as [Ht|Ht].
  - change (Z.of_nat 1 <? 0) with false. change (0 <? Z.of_nat 1) with true. cbv match.
    pose proof (uexec_spec URollback None (Some l) w3 (uw_users w3) None [] I eq_refl ltac:(constructor)) as H4.
    destruct (uexec URollback _ _ w3) as [[[st4 b4] c4] w4]. destruct H4 as [F4 H4]. split; [by etrans|]. apply Taken; [done|].
    destruct H4 as [(_ & _ & _ & ->)|(_ & [->|[-> _]])]; done.
  - change (Z.of_nat 0 <? 0) with false. change (0 <? Z.of_nat 0) with false. cbv match.
    destruct (insert_and_commit_spec l name salt digest iters now w3) as [F4 H4]; [done..|]. split; [by etrans|].
    by eapply outcome_frame.
Qed.

(** ** The table stays well-formed *)

#[global] Instance users_ok_perm : Proper ((≡ₚ) ==> iff) users_ok.
Proof.
  assert (H : forall l k, l ≡ₚ k -> users_ok l -> users_ok k).
  { intros l k Hp [H1 H2 H3 H4]. split; [by rewrite <-Hp|by rewrite <-Hp..|]. rewrite <-(Permutation_length Hp). by rewrite <-Hp. }
  intros l k Hp. split; [by apply H|]. by apply H.
Qed.

Lemma users_ok_insert l name salt digest iters now :
  users_ok l -> Z.of_nat (length l) < INT_MAX -> ~ taken_in l name ->
  good_name name -> plain_of SALT_HEX_LEN salt -> plain_of DIGEST_HEX_LEN digest -> in_int iters ->
  users_ok (place (new_user l name salt digest iters now) l).
Proof.
  intros Hok Hlt Ht Hn Hs Hd Hi. rewrite place_perm. pose proof (user_id_fresh l Hok) as [Hid Hfr]. destruct Hok as [H1 H2 H3 H4]. split.
  - apply Forall_cons. split; [|done]. split; try done. unfold in_int. cbn [ur_id new_user]. lia.
  - cbn [map]. by apply NoDup_cons.
  - cbn [map]. by apply NoDup_cons.
  - apply Forall_cons. cbn [length ur_id new_user]. split; [lia|]. eapply Forall_impl; [exact H4|]. intros r Hr. simpl in *. lia.
Qed.

(** ** account_register *)

Lemma uframe_users w x : uframe w (set_users x w).
Proof. by split. Qed.

Section Register.
Context (l : list user_row) (name salt digest : cstr) (iters : Z) (clock : nat -> Z).
Context (Hok : users_ok l) (Hlt : Z.of_nat (length l) < INT_MAX) (Hn : good_name name).
Context (Hsa : plain_of SALT_HEX_LEN salt) (Hdi : plain_of DIGEST_HEX_LEN digest) (Hit : in_int iters) (Hno : forall n, in_int (clock n)).

(** The account was added, with the reading of the clock at some attempt. *)
Definition added (l' : list user_row) : Prop :=
  ~ taken_in l name /\ exists n, l' = place (new_user l name salt digest iters (clock n)) l.

Lemma added_ok l' : added l' -> users_ok l'.
Proof. intros (Ht & n & ->). by apply users_ok_insert. Qed.

Inductive register_outcome (w : uworld) : Z * option Z * uworld -> Prop :=
  | Conflict w' : taken_in l name -> uw_users w' = l -> register_outcome w (409, None, w')
  | Created w' : added (uw_users w') -> register_outcome w (200, Some (next_id l), w')
  | Gave_up w' : uw_faults w <> [] -> uw_users w' = l \/ added (uw_users w') -> register_outcome w (500, None, w').

Lemma faulty_outcome w w' out : uw_faults w <> [] -> register_outcome w' out -> register_outcome w out.
Proof. intros Hf []; by constructor. Qed.

Lemma register_loop_spec attempts w : (0 < attempts)%nat -> uw_users w = l ->
  let out := register_loop attempts name salt digest iters clock (uclean None) w in
  uframe w (snd out) /\ register_outcome w out.
Proof.
  intros Ha. revert w. induction attempts as [|n IH]; [lia|]. intros w Hw. cbn [register_loop].
  destruct (register_txn_spec l name salt digest iters (clock n) w) as [Hf Ho]; [done..|].
  destruct (register_txn name salt digest iters (clock n) (uclean None) w) as [[[[st taken] id] c'] w'].
  inversion Ho as [c2 w2 Ht Hu|c2 w2 Ht Hu|st2 c2 w2 Hst Hu]; subst; cbn [snd] in Hf.
  - split; [done|]. by apply Conflict.
  - split; [done|]. apply Created. split; [done|]. by exists n.
  - pose proof Hst as (Hfa & Hne & Hre). assert (Hadd : uw_users w' = l \/ added (uw_users w')).
    { destruct Hu as [->|(Ht & -> & _)]; [by left|]. right. split; [done|]. by exists n. }
    destruct st; try done; try (split; [done|]; by apply Gave_up).
    rewrite (Hre eq_refl). destruct Hu as [Hu|(_ & _ & Hu)]; [|done].
    destruct n as [|n]; [split; [done|]; cbn [register_loop]; by apply Gave_up|].
    destruct (IH ltac:(lia) w' Hu) as [Hf' Ho']. split; [by etrans|]. by eapply faulty_outcome.
Qed.

End Register.

(** What the semaphore leaves alone. *)
Lemma reg_wait_spec fuel nap waited w : let '(got, w') := reg_wait fuel nap waited w in
  uw_users w' = uw_users w /\ uw_faults w' = uw_faults w /\ uw_opens w' = uw_opens w /\ uw_held w' = got || uw_held w.
Proof.
  revert waited w. induction fuel as [|f IH]; intros waited w; [done|]. cbn [reg_wait]. destruct (_ <? _); [|done].
  destruct (match uw_turns w with b :: _ => b | [] => true end); [done|]. apply (IH (waited + nap) (set_turns (tail (uw_turns w)) w)).
Qed.

Lemma reg_acquire_spec pid w : let '(got, w') := reg_acquire pid w in
  uw_users w' = uw_users w /\ uw_faults w' = uw_faults w /\ uw_opens w' = uw_opens w /\ uw_held w' = got || uw_held w.
Proof.
  unfold reg_acquire. destruct (match uw_sems w with b :: _ => b | [] => true end); [|done].
  apply (reg_wait_spec _ _ _ (set_sems (tail (uw_sems w)) w)).
Qed.

(** The polling ends by its clock, never for lack of fuel: more fuel changes
    nothing, since every nap lasts a millisecond at least. *)
Lemma reg_wait_ends fuel k nap waited w : 1000 <= nap -> REG_WAIT_MS * 1000 <= waited + 1000 * Z.of_nat fuel ->
  reg_wait (S fuel + k) nap waited w = reg_wait (S fuel) nap waited w.
Proof.
  intros Hnap. revert waited w. induction fuel as [|f IH]; intros waited w Hb; cbn [Nat.add reg_wait].
  - by rewrite (proj2 (Z.ltb_ge _ _)) by lia.
  - destruct (_ <? _); [|done]. destruct (match uw_turns w with b :: _ => b | [] => true end); [done|].
    apply (IH (waited + nap)). lia.
Qed.

Lemma poll_delay_min pid : 1000 <= poll_delay_us pid.
Proof. unfold poll_delay_us, REG_POLL_MIN_US, REG_POLL_SPAN_US. pose proof (Z.mod_pos_bound (u32 pid) 4000). lia. Qed.

Lemma reg_acquire_ends pid k w : match uw_sems w with b :: _ => b | [] => true end = true ->
  reg_acquire pid w = reg_wait (S (Z.to_nat REG_WAIT_MS) + k) (poll_delay_us pid) 0 (set_sems (tail (uw_sems w)) w).
Proof.
  intros Hs. unfold reg_acquire. rewrite Hs. symmetry. apply reg_wait_ends; [apply poll_delay_min|].
  unfold REG_WAIT_MS. rewrite Z2Nat.id; lia.
Qed.

Lemma hex_pair_plain c : plain_char (HEX (Z.shiftr (code c) 4)) = true /\ plain_char (HEX (Z.land (code c) 15)) = true.
Proof. destruct c as [[] [] [] [] [] [] [] []]; vm_compute; done. Qed.

Lemma hex_plain_of bytes : plain_of (2 * length bytes) (hex_encode bytes).
Proof.
  split; [|apply hex_encode_length]. unfold hex_encode. apply Forall_concat, Forall_map, Forall_true. intros c.
  destruct (hex_pair_plain c). by repeat constructor.
Qed.

Section Passwords.
Variable PBKDF2 : cstr -> cstr -> Z -> option cstr.
(** OpenSSL writes as many bytes as it was asked for. *)
Hypothesis PBKDF2_length : forall pass salt iters d, PBKDF2 pass salt iters = Some d -> length d = HASH_DIGEST_BYTES.

Lemma password_hash_salt pass salt iters : in_int iters -> length salt = HASH_SALT_BYTES ->
  password_hash PBKDF2 pass (hex_encode salt) iters (DIGEST_HEX_LEN + 1) = fmap hex_encode (PBKDF2 pass salt iters).
Proof.
  intros Hi Hs. unfold password_hash, in_int, HASH_SALT_BYTES in *. cbn [DIGEST_HEX_LEN HASH_DIGEST_BYTES Nat.mul Nat.add Nat.ltb Nat.leb orb].
  rewrite (proj2 (Z.ltb_ge _ _)), hex_decode_encode by lia. destruct salt; [done|]. by destruct (PBKDF2 pass _ iters).
Qed.

(** Nothing is scheduled to fail. *)
Definition healthy (w : uworld) : Prop := uw_faults w = [] /\ uw_opens w = [] /\ uw_sems w = [] /\ uw_turns w = [].

Lemma healthy_frame w w' : uframe w w' -> healthy w -> healthy w'.
Proof. intros [H1 H2 H3 _ H4] (E1 & E2 & E3 & E4). repeat split; [auto|congruence..]. Qed.

Lemma healthy_acquire pid w : healthy w -> healthy (snd (reg_acquire pid w)).
Proof. intros (E1 & E2 & E3 & E4). unfold reg_acquire. rewrite E3. cbn [reg_wait set_sems uw_turns tail]. rewrite E4. done. Qed.

Lemma healthy_open w : healthy w -> healthy (snd (conn_open w)).
Proof. intros (E1 & E2 & E3 & E4). unfold conn_open. by rewrite E2. Qed.

(** What a registration request amounts to. *)
Inductive account_outcome (l : list user_row) (name pass : cstr) (rand : option cstr) (iters : Z) (clock : nat -> Z) (w : uworld)
    : Z * option Z * uworld -> Prop :=
  | Refused : (length pass < CRED_PASS_MIN \/ CRED_PASS_MAX < length pass)%nat -> account_outcome l name pass rand iters clock w (400, None, w)
  | Unavailable w' : uw_users w' = l -> uw_held w' = uw_held w ->
      rand = None \/ (exists salt, rand = Some salt /\ PBKDF2 pass salt iters = None) \/
      uw_sems w <> [] \/ uw_turns w <> [] \/ uw_opens w <> [] ->
      account_outcome l name pass rand iters clock w (500, None, w')
  | Attempted salt d w1 out w' : rand = Some salt -> PBKDF2 pass salt iters = Some d -> uw_faults w1 = uw_faults w ->
      (CRED_PASS_MIN <= length pass <= CRED_PASS_MAX)%nat ->
      register_outcome l name (hex_encode salt) (hex_encode d) iters clock w1 out -> uframe w1 (snd out) ->
      w' = set_held false (snd out) -> (healthy w -> healthy w1) ->
      account_outcome l name pass rand iters clock w (fst out, w').

Lemma conn_open_spec w : let '(c, w') := conn_open w in
  uw_users w' = uw_users w /\ uw_faults w' = uw_faults w /\ uw_held w' = uw_held w /\
  (c = Some (uclean None) \/ c = None /\ uw_opens w <> []).
Proof. unfold conn_open. destruct (uw_opens w) as [|[] o]; cbn; auto 10. Qed.

Lemma account_register_spec l name pass rand iters clock pid w :
  users_ok l -> uw_users w = l -> Z.of_nat (length l) < INT_MAX -> good_name name ->
  (forall salt, rand = Some salt -> length salt = HASH_SALT_BYTES) -> in_int iters -> (forall n, in_int (clock n)) -> uw_held w = false ->
  account_outcome l name pass rand iters clock w (account_register PBKDF2 name pass rand iters clock pid w).
Proof.
  intros Hok Hw Hlt Hn Hrand Hit Hno Hheld. unfold account_register.
  destruct (Nat.ltb_spec (length pass) CRED_PASS_MIN); [apply Refused; lia|].
  destruct (Nat.ltb_spec CRED_PASS_MAX (length pass)); [apply Refused; lia|]. cbn [orb].
  unfold gen_new_salt. cbn [SALT_HEX_LEN HASH_SALT_BYTES Nat.mul Nat.add Nat.ltb Nat.leb].
  destruct rand as [salt|]; cbn [mbind option_bind]; [|apply Unavailable; auto].
  rewrite password_hash_salt by auto. destruct (PBKDF2 pass salt iters) as [d|] eqn:Ed; cbn [fmap option_fmap option_map]; [|apply Unavailable; eauto].
  pose proof (reg_acquire_spec pid w) as Ha. assert (Hturn : fst (reg_acquire pid w) = false -> uw_sems w <> [] \/ uw_turns w <> []).
  { unfold reg_acquire. destruct (uw_sems w) as [|b sems] eqn:Es; [|left; done]. cbn [tail]. intros H1. right. intros H2.
    cbn [reg_wait set_sems uw_turns] in H1. rewrite H2 in H1. done. }
  pose proof (healthy_acquire pid w) as Hh1. destruct (reg_acquire pid w) as [[] w1]; destruct Ha as (U1 & F1 & O1 & H1).
  2: { apply Unavailable; [congruence|done|]. destruct (Hturn eq_refl); auto. }
  pose proof (conn_open_spec w1) as Hc. pose proof (healthy_open w1) as Hh2. destruct (conn_open w1) as [c w2]. destruct Hc as (U2 & F2 & H2 & [->|[-> Ho]]).
  2: { apply Unavailable; [cbn; congruence|by rewrite Hheld|]. rewrite O1 in Ho. auto. }
  destruct (register_loop_spec l name (hex_encode salt) (hex_encode d) iters clock Hok Hlt Hn) with (attempts := TXN_ATTEMPTS) (w := w2)
    as [Hf Hout]; try done.
  - pose proof (hex_plain_of salt) as Hp. by rewrite (Hrand _ eq_refl) in Hp.
  - pose proof (hex_plain_of d) as Hp. by rewrite (PBKDF2_length _ _ _ _ Ed) in Hp.
  - unfold TXN_ATTEMPTS. lia.
  - congruence.
  - destruct (register_loop _ _ _ _ _ _ _ _) as [[status id] w3] eqn:E.
    eapply (Attempted _ _ _ _ _ _ _ salt d w2 (status, id, w3)); [done|done|congruence|lia|done|done|done|auto].
Qed.

(** ** account_login *)

(** What the table says about a name and a password. *)
Definition login_verdict (l : list user_row) (name pass : cstr) : Z * option Z :=
  match head (filter (fun r => ur_name r = name) l) with
  | None => (404, None)
  | Some r =>
    match password_hash PBKDF2 pass (ur_salt r) (ur_iters r) (DIGEST_HEX_LEN + 1) with
    | None => (500, None)
    | Some want => if streq (take DIGEST_HEX_LEN want) (ur_digest r) then (200, Some (ur_id r)) else (401, None)
    end
  end.

Lemma parse_answer l name : users_ok l -> good_name name ->
  parse_login_db_result DB_OK (answer (USelLogin name) l) =
    match head (filter (fun r => ur_name r = name) l) with
    | None => inl 404
    | Some r => inr (ur_salt r, ur_digest r, ur_iters r, ur_id r)
    end.
Proof.
  intros Hok Hn. unfold parse_login_db_result. rewrite bool_decide_eq_true_2 by done. cbn [negb].
  rewrite answer_count by done. assert (Esel : user_select (USelLogin name) l =
    map (fun r => [print_int (ur_id r); ur_salt r; ur_digest r; print_int (ur_iters r)]) (match head (filter (fun r => ur_name r = name) l) with Some r => [r] | None => [] end))
    by (cbn [user_select]; by rewrite name_rows).
  destruct (head (filter _ l)) as [r|] eqn:Eh; [|by rewrite Esel]. cbn [map] in Esel.
  rewrite (answer_fields (USelLogin name) _ _ 4 Hok Hn Esel), Esel. cbn [length take].
  change (Z.of_nat 1 <? 0) with false. change (Z.of_nat 1 =? 0) with false. cbv match.
  apply head_filter_Some in Eh as [_ Hr]. pose proof (us_rows _ Hok) as HF. rewrite Forall_forall in HF.
  destruct (HF r Hr) as [_ Hid [_ Hs] [_ Hd] Hit]. rewrite Hs, Hd, !Nat.eqb_refl. cbn [negb orb].
  assert (Hc : forall z, copy_text (print_int z) 32 = Some (print_int z)).
  { intros z. unfold copy_text. pose proof (print_int_length z). destruct (Nat.eqb_spec (length (print_int z)) 0) as [E|_];
      [by apply nil_length_inv, print_int_nonempty in E|]. by rewrite (proj2 (Nat.leb_gt _ _)) by lia. }
  unfold in_int in *. rewrite !Hc, !strtol_print_int_end by (unfold LONG_MIN, LONG_MAX, INT_MAX in *; lia). cbn [fst].
  rewrite i32_id by (unfold INT_MAX in *; lia). by rewrite (proj2 (Z.ltb_ge _ _)) by lia.
Qed.

Lemma login_query_spec l name w : users_ok l -> uw_users w = l -> good_name name ->
  let '(st, body, w') := login_query name (uclean None) w in
  uframe w w' /\ uw_users w' = l /\ (st = DB_OK /\ body = answer (USelLogin name) l \/ st <> DB_OK /\ uw_faults w <> []).
Proof.
  intros Hok Hw Hn. unfold login_query.
  pose proof (uexec_query (USelLogin name) None w I Hn) as Hq. cbn [default] in Hq. unfold id in Hq. rewrite Hw in Hq. specialize (Hq Hok).
  destruct (uexec _ _ (uclean None) w) as [[[st body] c'] w2]. destruct Hq as (Fr & U2 & [(-> & -> & _)|(Hfa & Hne & Hcl)]).
  { rewrite bool_decide_eq_false_2 by done. auto. }
  destruct (bool_decide_reflect (st = DB_RETRY)) as [->|_]; [|auto]. rewrite (Hcl eq_refl).
  pose proof (uexec_query (USelLogin name) None w2 I Hn) as Hq. cbn [default] in Hq. unfold id in Hq. rewrite U2 in Hq. specialize (Hq Hok).
  destruct (uexec _ _ (uclean None) w2) as [[[st body'] c2] w3]. destruct Hq as (Fr2 & U3 & [(-> & -> & _)|(_ & Hne2 & _)]);
    (split; [by etrans|]); auto.
Qed.

Lemma account_login_spec l name pass w : users_ok l -> uw_users w = l -> good_name name ->
  let '(status, id, w') := account_login PBKDF2 name pass w in
  uw_users w' = l /\ uw_held w' = uw_held w /\
  ((status, id) = login_verdict l name pass \/ (status, id) = (500, None) /\ (uw_faults w <> [] \/ uw_opens w <> [])).
Proof.
  intros Hok Hw Hn. unfold account_login. pose proof (conn_open_spec w) as Hc. destruct (conn_open w) as [c w1].
  destruct Hc as (U1 & F1 & H1 & [->|[-> Ho]]); [|split; [congruence|]; split; [done|]; right; auto].
  rewrite Hw in U1. pose proof (login_query_spec l name w1 Hok U1 Hn) as Hq. destruct (login_query _ _ w1) as [[st body] w2].
  destruct Hq as (Fr & U2 & Hcase). pose proof (uf_held _ _ Fr) as H2. rewrite H1 in H2. destruct Hcase as [(-> & ->)|[Hne Hfa]].
  - rewrite parse_answer by done. unfold login_verdict. destruct (head _) as [r|] eqn:Eh; [|auto].
    assert (Hd : take DIGEST_HEX_LEN (ur_digest r) = ur_digest r).
    { apply head_filter_Some in Eh as [_ Hr]. pose proof (us_rows _ Hok) as HF. rewrite Forall_forall in HF.
      destruct (HF r Hr) as [_ _ _ [_ Hd] _]. apply take_ge. lia. }
    destruct (password_hash _ _ _ _ _) as [want|]; [|auto]. rewrite Hd. destruct (streq _ _); auto.
  - unfold parse_login_db_result. rewrite bool_decide_eq_false_2 by done. cbn [negb]. rewrite F1 in Hfa. auto 10.
Qed.

(** ** Over sequences of requests *)

Inductive request :=
  | Register (name pass : cstr) (rand : option cstr) (iters : Z) (clock : nat -> Z) (pid : Z)
  | Login (name pass : cstr).

(** The name went through [user_name_fold], RAND_bytes filled its buffer, the
    iteration count and the clock fit an [int]. *)
Definition request_ok (r : request) : Prop :=
  match r with
  | Register name _ rand iters clock _ =>
    good_name name /\ (forall salt, rand = Some salt -> length salt = HASH_SALT_BYTES) /\ in_int iters /\ forall n, in_int (clock n)
  | Login name _ => good_name name
  end.

Definition serve (w : uworld) (r : request) : uworld :=
  match r with
  | Register name pass rand iters clock pid => snd (account_register PBKDF2 name pass rand iters clock pid w)
  | Login name pass => snd (account_login PBKDF2 name pass w)
  end.

Lemma added_grows l name salt digest iters clock l' : added l name salt digest iters clock l' ->
  l ⊆+ l' /\ (length l' <= S (length l))%nat.
Proof. intros (_ & n & ->). rewrite (place_perm _ l). split; [by apply submseteq_cons|done]. Qed.

Lemma serve_step w r : request_ok r -> users_ok (uw_users w) -> uw_held w = false -> Z.of_nat (length (uw_users w)) < INT_MAX ->
  users_ok (uw_users (serve w r)) /\ uw_held (serve w r) = false /\ uw_users w ⊆+ uw_users (serve w r) /\
  (length (uw_users (serve w r)) <= S (length (uw_users w)))%nat.
Proof.
  intros Hr Hok Hh Hlt. destruct r as [name pass rand iters clock pid|name pass]; cbn [serve request_ok] in *.
  - destruct Hr as (Hn & Hrand & Hit & Hno).
    destruct (account_register_spec (uw_users w) name pass rand iters clock pid w Hok eq_refl Hlt Hn Hrand Hit Hno Hh)
      as [_|w' U' H' _|salt d w1 out w' Er Ed _ _ Hout Hf -> _]; cbn [snd]; [auto|rewrite U', H'; auto|]. cbn [set_held uw_users uw_held].
    assert (Hs : plain_of SALT_HEX_LEN (hex_encode salt)) by (pose proof (hex_plain_of salt) as Hp; by rewrite (Hrand _ Er) in Hp).
    assert (Hd : plain_of DIGEST_HEX_LEN (hex_encode d)) by (pose proof (hex_plain_of d) as Hp; by rewrite (PBKDF2_length _ _ _ _ Ed) in Hp).
    assert (Hadd : forall l', added (uw_users w) name (hex_encode salt) (hex_encode d) iters clock l' ->
      users_ok l' /\ false = false /\ uw_users w ⊆+ l' /\ (length l' <= S (length (uw_users w)))%nat).
    { intros l' Hl'. pose proof (added_grows _ _ _ _ _ _ _ Hl') as [? ?]. split; [|done]. by eapply added_ok. }
    destruct Hout as [w2 _ U2|w2 Ha|w2 _ [U2|Ha]]; cbn [snd]; rewrite ?U2; auto.
  - pose proof (account_login_spec _ name pass w Hok eq_refl Hr) as Hl. destruct (account_login _ _ _ w) as [[status id] w'].
    destruct Hl as (U' & H' & _). cbn [snd]. rewrite U', H'. auto.
Qed.

(** C15: one account per name and per id, for ever.  From any well-formed
    table, after any sequence of registrations and logins under any schedule
    of aborted, failed and unanswered statements, refused connections and
    waits at the semaphore: ids and names are still unique, no account was
    changed or lost, and the semaphore is free. *)
Theorem accounts_stay_unique rs w :
  Forall request_ok rs -> users_ok (uw_users w) -> uw_held w = false -> Z.of_nat (length (uw_users w) + length rs) <= INT_MAX ->
  let w' := foldl serve w rs in
  users_ok (uw_users w') /\ uw_held w' = false /\ uw_users w ⊆+ uw_users w'.
Proof.
  intros HF. revert w. induction HF as [|r rs Hr _ IH]; intros w Hok Hh Hlt; [done|]. cbn [foldl length] in *.
  destruct (serve_step w r) as (H1 & H2 & H3 & H4); [done..|lia|].
  destruct (IH (serve w r) H1 H2 ltac:(lia)) as (H5 & H6 & H7). split; [done|]. split; [done|]. by etrans.
Qed.

(** ** Registering, then logging in *)

Lemma hex_encode_inj a b : length a = length b -> hex_encode a = hex_encode b -> a = b.
Proof.
  intros Hl E. pose proof (hex_decode_encode a (length a) ltac:(lia)) as H1. pose proof (hex_decode_encode b (length a) ltac:(lia)) as H2.
  rewrite E in H1. congruence.
Qed.

Lemma verdict_new l name salt d iters now pass : length salt = HASH_SALT_BYTES -> length d = HASH_DIGEST_BYTES -> in_int iters -> ~ taken_in l name ->
  login_verdict (place (new_user l name (hex_encode salt) (hex_encode d) iters now) l) name pass =
    match PBKDF2 pass salt iters with
    | None => (500, None)
    | Some d' => if decide (d' = d) then (200, Some (next_id l)) else (401, None)
    end.
Proof.
  intros Hs Hd Hi Ht. set (u := new_user l name (hex_encode salt) (hex_encode d) iters now). unfold login_verdict.
  assert (E : filter (fun r => ur_name r = name) (place u l) = [u]).
  { apply Permutation_singleton_r. rewrite (place_perm u l), filter_cons_True by done. apply Permutation_skip.
    rewrite filter_none; [done|]. apply Forall_forall. intros r Hr <-. apply Ht. by apply list_elem_of_fmap_2. }
  rewrite E. cbn [head u new_user ur_salt ur_iters ur_digest ur_id]. rewrite password_hash_salt by done.
  destruct (PBKDF2 pass salt iters) as [d'|] eqn:Ed; [|done]. cbn [fmap option_fmap option_map].
  assert (Hd' : length d' = length d) by (rewrite Hd; by eapply PBKDF2_length).
  rewrite take_ge by (rewrite hex_encode_length, Hd', Hd; done).
  destruct (decide (d' = d)) as [->|Hne]; [by rewrite streq_refl|]. rewrite (proj2 (streq_false _ _)); [done|].
  intros E'. by apply Hne, hex_encode_inj.
Qed.

Lemma register_healthy name pass salt d iters clock pid w :
  users_ok (uw_users w) -> healthy w -> uw_held w = false -> Z.of_nat (length (uw_users w)) < INT_MAX ->
  good_name name -> (CRED_PASS_MIN <= length pass <= CRED_PASS_MAX)%nat ->
  length salt = HASH_SALT_BYTES -> PBKDF2 pass salt iters = Some d -> in_int iters -> (forall n, in_int (clock n)) ->
  exists w', healthy w' /\ uw_held w' = false /\
    if decide (taken_in (uw_users w) name) then account_register PBKDF2 name pass (Some salt) iters clock pid w = (409, None, w') /\ uw_users w' = uw_users w
    else account_register PBKDF2 name pass (Some salt) iters clock pid w = (200, Some (next_id (uw_users w)), w') /\
         added (uw_users w) name (hex_encode salt) (hex_encode d) iters clock (uw_users w').
Proof.
  intros Hok Hhe Hh Hlt Hn Hp Hs Ed Hi Hno. pose proof Hhe as (E1 & E2 & E3 & E4).
  destruct (account_register_spec (uw_users w) name pass (Some salt) iters clock pid w Hok eq_refl Hlt Hn ltac:(intros ? [= <-]; done) Hi Hno Hh)
    as [Hbad|w' _ _ Hbad|salt1 d1 w1 out w' Er Ed1 F1 _ Ho Hf -> Hh1]; [lia|naive_solver|].
  exists (set_held false (snd out)). split; [exact (healthy_frame _ _ Hf (Hh1 Hhe))|]. split; [done|].
  injection Er as ->. rewrite Ed in Ed1. injection Ed1 as ->.
  destruct Ho as [w2 Ht U2|w2 Ha|w2 Hfa _]; cbn [fst snd] in *; [by rewrite decide_True|rewrite decide_False by apply Ha; done|congruence].
Qed.

(** C38: an account that was registered can log in, and nobody else can.
    When nothing fails, registering a free name succeeds with a fresh id; from
    then on a login under that name answers 200 with that id exactly for the
    passwords whose PBKDF2 under the stored salt is the stored one, and 401
    for the others; and registering the name again answers 409. *)
Theorem register_then_login name pass salt d iters clock pid w :
  users_ok (uw_users w) -> healthy w -> uw_held w = false -> Z.of_nat (length (uw_users w)) < INT_MAX - 1 ->
  good_name name -> ~ taken_in (uw_users w) name -> (CRED_PASS_MIN <= length pass <= CRED_PASS_MAX)%nat ->
  length salt = HASH_SALT_BYTES -> PBKDF2 pass salt iters = Some d -> in_int iters -> (forall n, in_int (clock n)) ->
  exists id w', account_register PBKDF2 name pass (Some salt) iters clock pid w = (200, Some id, w') /\ (id ∉ map ur_id (uw_users w)) /\
    (forall pass', fst (account_login PBKDF2 name pass' w') =
       match PBKDF2 pass' salt iters with
       | None => (500, None)
       | Some d' => if decide (d' = d) then (200, Some id) else (401, None)
       end) /\
    (forall pass2 salt2 pid2, (CRED_PASS_MIN <= length pass2 <= CRED_PASS_MAX)%nat -> length salt2 = HASH_SALT_BYTES ->
       PBKDF2 pass2 salt2 iters <> None -> fst (account_register PBKDF2 name pass2 (Some salt2) iters clock pid2 w') = (409, None)).
Proof.
  intros Hok Hhe Hh Hlt Hn Ht Hp Hs Ed Hi Hno.
  destruct (register_healthy name pass salt d iters clock pid w) as (w' & Hhe' & Hh' & Hr); [done..|lia|done|done|done|done|done|done|].
  rewrite decide_False in Hr by done. destruct Hr as [Er Ha]. exists (next_id (uw_users w)), w'. split; [done|]. split; [by apply user_id_fresh|].
  assert (Hsl : plain_of SALT_HEX_LEN (hex_encode salt)) by (pose proof (hex_plain_of salt) as H; by rewrite Hs in H).
  assert (Hdl : length d = HASH_DIGEST_BYTES) by by eapply PBKDF2_length.
  assert (Hdp : plain_of DIGEST_HEX_LEN (hex_encode d)) by (pose proof (hex_plain_of d) as H; by rewrite Hdl in H).
  pose proof (added_ok _ _ _ _ _ _ Hok ltac:(lia) Hn Hsl Hdp Hi _ Ha) as Hok'. pose proof (added_grows _ _ _ _ _ _ _ Ha) as [_ Hlen].
  destruct Ha as (_ & n & Eu). split.
  - intros pass'. pose proof (account_login_spec _ name pass' w' Hok' eq_refl Hn) as Hl. destruct Hhe' as (E1 & E2 & _).
    destruct (account_login _ _ _ w') as [[status id] w2]. destruct Hl as (_ & _ & [Hl|(_ & [?|?])]); [|done..]. cbn [fst]. rewrite Hl, Eu.
    by apply verdict_new.
  - intros pass2 salt2 pid2 Hp2 Hs2 Hne. destruct (PBKDF2 pass2 salt2 iters) as [d2|] eqn:E2; [|done].
    destruct (register_healthy name pass2 salt2 d2 iters clock pid2 w') as (w2 & _ & _ & Hr2); [done..|lia|done|done|done|done|done|done|].
    rewrite decide_True in Hr2; [by destruct Hr2 as [-> _]|]. unfold taken_in. rewrite Eu, (place_perm _ (uw_users w)). by left.
Qed.

End Passwords.
End Logic.

(** ** Samples *)

#[export] Instance sample_user_runner : UserRunner.
Proof.
  refine {| u_preamble _ := [$"Started a new transaction"]; u_columns _ := [$"user.a"]; u_postamble _ := [] |}.
  intros _. split; [repeat constructor; done|split; [done|repeat constructor; done]|constructor|vm_compute; lia].
Defined.

(** A stand-in for PBKDF2: the password itself, padded. *)
Definition sample_pbkdf2 (pass salt : cstr) (iters : Z) : option cstr := Some (take 32 (pass ++ replicate 32 "0"%char)).
Lemma sample_pbkdf2_length pass salt iters d : sample_pbkdf2 pass salt iters = Some d -> length d = HASH_DIGEST_BYTES.
Proof. unfold sample_pbkdf2. intros <-%(inj Some). rewrite length_take, length_app, length_replicate. unfold HASH_DIGEST_BYTES. lia. Qed.

Definition sample_salt : cstr := replicate 16 "s"%char.
Definition sample_clock (_ : nat) : Z := 1000.
Definition sample_world (faults : list fault) : uworld := mkUworld [] faults [] [] [] false.

(** The second registration is aborted at its first commit and runs again;
    the third finds the name taken. *)
Definition sample_requests : list request :=
  [Register ($"alice") ($"correct horse") (Some sample_salt) 600000 sample_clock 17;
   Register ($"bob") ($"battery staple") (Some sample_salt) 600000 sample_clock 18;
   Register ($"alice") ($"another password") (Some sample_salt) 600000 sample_clock 19;
   Login ($"alice") ($"correct horse")].
Definition sample_schedule : list fault := replicate 9 F_ok ++ [F_retry].

Lemma in_int_small z : (1 <=? z) && (z <=? INT_MAX) = true -> in_int z.
Proof. intros [H1 H2]%andb_true_iff. split; lia. Qed.

Lemma sample_register_ok name pass pid : good_name name -> request_ok (Register name pass (Some sample_salt) 600000 sample_clock pid).
Proof. intros Hn. split; [done|]. split; [intros salt E; apply (inj Some) in E; by subst salt|]. split; [|intros ?]; by apply in_int_small. Qed.

Lemma sample_requests_ok : Forall request_ok sample_requests.
Proof. unfold sample_requests. rewrite !Forall_cons. repeat (split; [by apply sample_register_ok|]). by split. Qed.

Lemma users_ok_nil : users_ok [].
Proof. split; constructor. Qed.

Example sample_run : map (fun r => (ur_id r, ur_name r)) (uw_users (foldl (serve sample_pbkdf2) (sample_world sample_schedule) sample_requests)) =
  [(1, $"alice"); (2, $"bob")].
Proof. vm_compute. reflexivity. Qed.

Lemma accounts_stay_unique_witness :
  let w' := foldl (serve sample_pbkdf2) (sample_world sample_schedule) sample_requests in
  users_ok (uw_users w') /\ uw_held w' = false /\ [] ⊆+ uw_users w'.
Proof.
  apply (accounts_stay_unique sample_pbkdf2 sample_pbkdf2_length sample_requests (sample_world sample_schedule)
    sample_requests_ok users_ok_nil); [reflexivity|vm_compute; congruence].
Defined.

Lemma register_then_login_witness :
  exists id w', account_register sample_pbkdf2 ($"alice") ($"correct horse") (Some sample_salt) 600000 sample_clock 17 (sample_world []) = (200, Some id, w') /\
    (id ∉ map ur_id []) /\
    (forall pass', fst (account_login sample_pbkdf2 ($"alice") pass' w') =
       match sample_pbkdf2 pass' sample_salt 600000 with
       | None => (500, None)
       | Some d' => if decide (d' = take 32 ($"correct horse" ++ replicate 32 "0"%char)) then (200, Some id) else (401, None)
       end) /\
    (forall pass2 salt2 pid2, (CRED_PASS_MIN <= length pass2 <= CRED_PASS_MAX)%nat -> length salt2 = HASH_SALT_BYTES ->
       sample_pbkdf2 pass2 salt2 600000 <> None ->
       fst (account_register sample_pbkdf2 ($"alice") pass2 (Some salt2) 600000 sample_clock pid2 w') = (409, None)).
Proof.
  apply (register_then_login sample_pbkdf2 sample_pbkdf2_length ($"alice") ($"correct horse") sample_salt
    (take 32 ($"correct horse" ++ replicate 32 "0"%char)) 600000 sample_clock 17 (sample_world [])).
  - exact users_ok_nil.
  - repeat split.
  - reflexivity.
  - vm_compute. reflexivity.
  - reflexivity.
  - apply not_elem_of_nil.
  - vm_compute. lia.
  - reflexivity.
  - reflexivity.
  - by apply in_int_small.
  - intros ?. by apply in_int_small.
Defined.

End Registry.
