(* ===== verification/Auth.v ===== *)
(** * The pre-authentication exchange: libtetrisauth/auth.c and lib/conf.c

    One session process answers GUEST, LOGIN and REGISTER requests over its
    encrypted session until one is accepted, the attempts are spent or the
    connection dies.  The state is the module's globals, the session with its
    socket, and the world of Accounts.v.  What is read from outside at each
    round (clock, key file, random bytes, date) is a [readings] record. *)
From S2P Require Import Prelude CText Types Rows Sql Wire Server BrainDb Printed DbLogic Htttp Codec CodecLogic Token Client Tetrissh Rc Accounts.
Import Server Htttp Token Client Tetrissh Rc Accounts.
Local Open Scope Z_scope.

Module Auth.

(** ** conf.c and lib/auth.h *)

Record auth_conf_t := mkConf {
  max_attempts : Z; token_ttl : Z; pbkdf2_iters : Z; db_timeout_ms : Z; db_sock : cstr }.

Definition AUTH_DEFAULT_MAX_ATTEMPTS : Z := 5.
Definition AUTH_DEFAULT_TOKEN_TTL : Z := 604800.
Definition AUTH_DEFAULT_PBKDF2_ITERS : Z := 600000.
Definition DB_DEFAULT_TIMEOUT_MS : Z := 2000.
Definition DB_TIMEOUT_MIN_MS : Z := 100.
Definition DB_TIMEOUT_MAX_MS : Z := 60000.
Definition DB_DEFAULT_IPC : cstr := $"var/run/tetrisdb.sock".
(** [sizeof sun_path] *)
Definition MAX_IPC_PATH : nat := 108.

Definition default_conf : auth_conf_t :=
  mkConf AUTH_DEFAULT_MAX_ATTEMPTS AUTH_DEFAULT_TOKEN_TTL AUTH_DEFAULT_PBKDF2_ITERS DB_DEFAULT_TIMEOUT_MS DB_DEFAULT_IPC.

(** One [rc_get_int] into a field of the scratch copy. *)
Definition conf_int (h : host) (key : cstr) (fallback lo hi field : Z) (rc : rc_state) : Z * rc_state :=
  let '(_, v, rc) := rc_get_int h key fallback lo hi (Some field) [] rc in (default field v, rc).

Definition auth_conf_load (h : host) (conf : auth_conf_t) (frozen : bool) (rc : rc_state) : auth_conf_t * bool * rc_state :=
  if frozen then (conf, frozen, rc)
  else
    let '(attempts, rc) := conf_int h ($"auth_max_attempts") AUTH_DEFAULT_MAX_ATTEMPTS 1 100 (max_attempts conf) rc in
    let '(ttl, rc) := conf_int h ($"auth_token_ttl") AUTH_DEFAULT_TOKEN_TTL 60 31536000 (token_ttl conf) rc in
    let '(iters, rc) := conf_int h ($"auth_pbkdf2_iters") AUTH_DEFAULT_PBKDF2_ITERS 1 10000000 (pbkdf2_iters conf) rc in
    let '(timeout, rc) := conf_int h ($"db_timeout") DB_DEFAULT_TIMEOUT_MS DB_TIMEOUT_MIN_MS DB_TIMEOUT_MAX_MS (db_timeout_ms conf) rc in
    let '(_, sock, rc) := rc_get h ($"db_ipc") (Some DB_DEFAULT_IPC) (Some (db_sock conf)) MAX_IPC_PATH rc in
    (mkConf attempts ttl iters timeout (default (db_sock conf) sock), true, rc).

(** ** auth.c: requests *)

Inductive auth_method_t := AUTH_NONE | AUTH_GUEST | AUTH_LOGIN | AUTH_REGISTER.

Definition auth_method_of (req : htttp_request_t) : auth_method_t :=
  if streq (rq_method req) ($"GUEST") then AUTH_GUEST
  else if streq (rq_method req) ($"LOGIN") then AUTH_LOGIN
  else if streq (rq_method req) ($"REGISTER") then AUTH_REGISTER
  else AUTH_NONE.

(** [acc_t]: the two slices of the body. *)
Record acc_t := mkAcc { acc_user : cstr; acc_pass : cstr }.

Definition req_body_split (body : option (list ascii)) (body_len : nat) : option acc_t :=
  match body with
  | None => None
  | Some body =>
    if (body_len =? 0)%nat then None
    else match split_at LF (take body_len body) with
         | None => None
         | Some (user, pass) => if (length user =? 0)%nat || (length pass =? 0)%nat then None else Some (mkAcc user pass)
         end
  end.

(** ** The process *)

(** What one round reads from outside. *)
Record readings := mkReadings {
  rd_host : host; rd_secret : option cstr; rd_rand : option cstr; rd_clock : nat -> Z; rd_now : Z; rd_pid : Z;
  rd_date : option cstr; rd_iv : option bytes }.

Record auth_state := mkAuth {
  glb_name : cstr; glb_conf : auth_conf_t; glb_frozen : bool; au_rc : rc_state;
  au_session : session_t; au_sock : sock; au_world : uworld }.

Definition with_name n a := mkAuth n (glb_conf a) (glb_frozen a) (au_rc a) (au_session a) (au_sock a) (au_world a).
Definition with_conf c f r a := mkAuth (glb_name a) c f r (au_session a) (au_sock a) (au_world a).
Definition with_session s k a := mkAuth (glb_name a) (glb_conf a) (glb_frozen a) (au_rc a) s k (au_world a).
Definition with_world w a := mkAuth (glb_name a) (glb_conf a) (glb_frozen a) (au_rc a) (au_session a) (au_sock a) w.

Definition REPLY_MAX : nat := Z.to_nat 1024.
Definition SECRET_MAX : nat := 64.

Section Auth.
Context `{R : Runner} `{U : UserRunner} `{SSL : OpenSSL}.
Variable PBKDF2 : cstr -> cstr -> Z -> option cstr.
Variable TOKEN_HMAC : cstr -> cstr -> option (list ascii).

Definition reply (rd : readings) (status : Z) (body : cstr) (a : auth_state) : auth_state :=
  let res := match body with
             | [] => mkResponse status [] None 0
             | _ => mkResponse status [] (Some body) (length body)
             end in
  match htttp_serialize_response (rd_date rd) res REPLY_MAX with
  | HOk out => with_session (au_session a) (snd (session_send (au_session a) (rd_iv rd) out (au_sock a))) a
  | HErr _ => a
  end.

Definition accept_guest (a : auth_state) : auth_state := with_name [] a.

(** A status that ends the request, or what is to be checked. *)
Definition auth_session_parser (rd : readings) (a : auth_state) : (Z + auth_method_t * acc_t) * auth_state :=
  let '(rc, buf, s, k) := session_recv (au_session a) (Z.to_nat SESSION_MAX_FRAME) (au_sock a) in
  let a := with_session s k a in
  match rc with
  | SESSION_ERR_IO | SESSION_ERR_TOOBIG => (inl (-1), a)
  | SESSION_OK =>
    match htttp_parse_request buf with
    | HErr _ => (inl 400, a)
    | HOk req =>
      match auth_method_of req with
      | AUTH_GUEST => (inl 200, accept_guest a)
      | AUTH_NONE => (inl 401, a)
      | method =>
        let '(conf, frozen, rc) := auth_conf_load (rd_host rd) (glb_conf a) (glb_frozen a) (au_rc a) in
        let a := with_conf conf frozen rc a in
        match req_body_split (rq_body req) (rq_body_len req) with
        | None => (inl 400, a)
        | Some c => (inr (method, c), a)
        end
      end
    end
  | _ => (inl 400, a)
  end.

(** 200 with the token, which also sets [glb_name]. *)
Definition token_handler (rd : readings) (name : cstr) (id : Z) (a : auth_state) : Z * cstr * auth_state :=
  match rd_secret rd with
  | None => (500, [], a)
  | Some secret =>
    let claims := mkClaims id (trunc (TOKEN_NAME_MAX + 1) name) (rd_now rd) (rd_now rd + token_ttl (glb_conf a)) in
    match token_mint TOKEN_HMAC TOKEN_MAX_LEN claims secret with
    | None => (500, [], a)
    | Some token => (200, token, with_name (trunc MAX_USER_NAME name) a)
    end
  end.

(** The checks of one LOGIN or REGISTER: the status and the token. *)
Definition auth_check (rd : readings) (method : auth_method_t) (c : acc_t) (a : auth_state) : Z * cstr * auth_state :=
  match user_name_fold MAX_USER_NAME (acc_user c) with
  | None => (400, [], a)
  | Some name =>
    let '(status, id, w) :=
      match method with
      | AUTH_LOGIN => account_login PBKDF2 name (acc_pass c) (au_world a)
      | AUTH_REGISTER =>
        account_register PBKDF2 name (acc_pass c) (rd_rand rd) (pbkdf2_iters (glb_conf a)) (rd_clock rd) (rd_pid rd) (au_world a)
      | _ => (500, None, au_world a)
      end in
    let a := with_world w a in
    if negb (status =? 200) then (status, [], a) else token_handler rd name (default 0 id) a
  end.

Definition auth_handler (rd : readings) (a : auth_state) : Z * auth_state :=
  let '(status, token, a) :=
    match auth_session_parser rd a with
    | (inl status, a) => (status, [], a)
    | (inr (method, c), a) => auth_check rd method c a
    end in
  (status, if 0 <? status then reply rd status (if status =? 200 then token else []) a else a).

Inductive auth_result := AUTH_OK | AUTH_DROP.

(** The loop of [auth_retry_handler]: [i] attempts are spent and [n] rounds
    were run; [None] is a loop still going when [fuel] rounds are over. *)
Fixpoint auth_loop (fuel : nat) (rds : nat -> readings) (n : nat) (i : Z) (a : auth_state) : option auth_result * auth_state :=
  if i <? max_attempts (glb_conf a) then
    match fuel with
    | O => (None, a)
    | S f =>
      let '(status, a) := auth_handler (rds n) a in
      if status =? 200 then (Some AUTH_OK, a)
      else if status <? 0 then (Some AUTH_DROP, a)
      else auth_loop f rds (S n) (if status =? 400 then i else i + 1) a
    end
  else (Some AUTH_DROP, a).

(** The peer's input is a finite stream, at whose end it has hung up.  Every
    round takes a frame's length prefix off it, so its bytes bound the rounds.
    A peer that keeps the connection open and falls silent, or sends frames
    answered with 400 for ever, is the limit of such streams: the code sets no
    bound there either, and [auth_loop] with any fuel is what it has done by
    then. *)
Definition auth_retry_handler (rds : nat -> readings) (a : auth_state) : option auth_result * auth_state :=
  auth_loop (S (length (concat (so_in (au_sock a))))) rds 0 0 a.

(** A pre-auth request that arrives later; [opened]: [glb_sh] is set. *)
Definition auth_offer (rd : readings) (opened : bool) (req : htttp_request_t) (a : auth_state) : bool * auth_state :=
  match auth_method_of req with
  | AUTH_NONE => (false, a)
  | _ => if opened then (true, reply rd 409 [] a) else (false, a)
  end.

Definition auth_get_name (cap : nat) (a : auth_state) : option cstr :=
  if (cap =? 0)%nat then None else Some (trunc cap (glb_name a)).

End Auth.
End Auth.
