(* ===== verification/Gate.v ===== *)
(** * What the pre-authentication exchange guarantees

    Whatever the peer sends, the exchange ends and spends at most a hundred
    checks; a session gets a name only from a request that arrived in a frame
    sealed under its key and proved the password of that account. *)
From S2P Require Import Prelude CText Types Rows Sql Wire Server BrainDb Fixture Printed DbLogic Htttp Codec CodecLogic Token Client Tetrissh Tunnel Rc Accounts Registry Auth.
Import Server Fixture Htttp Token Client Tetrissh Tunnel Rc Accounts Registry Auth.
Local Open Scope Z_scope.

Module Gate.

(** ** The configuration stays in range *)

Record conf_ok (c : auth_conf_t) : Prop := {
  co_attempts : 1 <= max_attempts c <= 100;
  co_ttl : 60 <= token_ttl c <= 31536000;
  co_iters : 1 <= pbkdf2_iters c <= 10000000 }.

Lemma default_conf_ok : conf_ok default_conf.
Proof. by split. Qed.

Lemma conf_int_range h key fallback lo hi field rc : - 2 ^ 31 <= lo -> hi <= INT_MAX -> lo <= fallback <= hi ->
  lo <= fst (conf_int h key fallback lo hi field rc) <= hi.
Proof.
  intros Hlo Hhi Hf. unfold conf_int. destruct (rc_int_range h key fallback lo hi field [] rc Hlo Hhi Hf) as (st & v & E & Hv).
  destruct (rc_get_int _ _ _ _ _ _ _ _) as [[status value] rc']. by injection E as -> ->.
Qed.

#[local] Ltac conf_lia := unfold AUTH_DEFAULT_MAX_ATTEMPTS, AUTH_DEFAULT_TOKEN_TTL, AUTH_DEFAULT_PBKDF2_ITERS, DB_DEFAULT_TIMEOUT_MS, DB_TIMEOUT_MIN_MS, DB_TIMEOUT_MAX_MS, INT_MAX; lia.

Lemma conf_load_ok h c frozen rc : conf_ok c -> conf_ok (fst (fst (auth_conf_load h c frozen rc))).
Proof.
  intros Hc. unfold auth_conf_load. destruct frozen; [done|].
  repeat match goal with |- context [conf_int ?h ?k ?f ?lo ?hi ?o ?rc] =>
    pose proof (conf_int_range h k f lo hi o rc ltac:(conf_lia) ltac:(conf_lia) ltac:(conf_lia)); destruct (conf_int h k f lo hi o rc) as [? ?] end.
  destruct (rc_get _ _ _ _ _ _) as [[? ?] ?]. by split.
Qed.

Section Gate.
Context `{R : Runner} `{U : UserRunner} `{SSL : OpenSSL}.
Variable PBKDF2 : cstr -> cstr -> Z -> option cstr.
Variable TOKEN_HMAC : cstr -> cstr -> option (list ascii).
Hypothesis PBKDF2_length : forall pass salt iters d, PBKDF2 pass salt iters = Some d -> length d = HASH_DIGEST_BYTES.

(** ** Progress on the stream *)

Lemma send_loop_in fuel buf k : so_in (snd (send_loop fuel buf k)) = so_in k.
Proof.
  revert buf k. induction fuel as [|f IH]; intros [|c buf] k; try done. cbn [send_loop]. unfold send.
  destruct (so_takes k) as [|[|n] takes]; [|done|]; by rewrite IH.
Qed.

Lemma session_send_in s iv m k : so_in (snd (session_send s iv m k)) = so_in k.
Proof.
  unfold session_send. destruct (negb _); [done|]. destruct (_ <? _); [done|]. destruct (session_encrypt _ _ _) as [t|]; [|done].
  destruct (_ <? _); [done|]. unfold send_u32, send_all.
  pose proof (send_loop_in 4 [byte_of (Z.shiftr (Z.of_nat (length t)) 24); byte_of (Z.shiftr (Z.of_nat (length t)) 16);
    byte_of (Z.shiftr (Z.of_nat (length t)) 8); byte_of (Z.of_nat (length t))] k) as H.
  destruct (send_loop _ _ k) as [[] k1]; [|done]. cbn [snd] in H. pose proof (send_loop_in (length t) t k1) as H2.
  destruct (send_loop (length t) t k1) as [[] k2]; cbn [snd] in *; congruence.
Qed.

(** A live session that did not break received a frame: the session is as it
    was and the stream is at least its prefix shorter; a plaintext came out
    of a frame sealed under the session's key. *)
Lemma recv_progress s cap k : ss_established s = true -> ss_recv_dead s = false ->
  let '(code, plain, s', k') := session_recv s cap k in
  code = SESSION_ERR_IO \/ code = SESSION_ERR_TOOBIG \/
  (s' = s /\ (length (flow (so_in k')) + 4 <= length (flow (so_in k)))%nat /\
   (code = SESSION_OK -> exists token, sealed (ss_key s) token plain)).
Proof.
  intros He Hd. unfold session_recv. rewrite He, Hd. cbn [negb orb]. unfold read_u32.
  destruct (read_bytes FRAME_PREFIX_BYTES k) as [[p|] k1] eqn:E1; [|auto].
  apply read_bytes_some in E1 as (E1 & L1 & _). destruct p as [|b0 [|b1 [|b2 [|b3 [|? ?]]]]]; auto.
  destruct (_ <? _); [auto|]. destruct (read_bytes _ k1) as [[token|] k2] eqn:E2; [|auto].
  apply read_bytes_some in E2 as (E2 & _). assert (Hlen : (length (flow (so_in k2)) + 4 <= length (flow (so_in k)))%nat)
    by (rewrite E1, E2; cbn [app length]; rewrite length_app; lia).
  destruct (session_decrypt (ss_key s) token) as [plain|] eqn:Ed; [|right; right; done].
  destruct (_ <? _)%nat; right; right; [done|]. split; [done|]. split; [done|]. intros _. exists token. by apply session_decrypt_sealed.
Qed.

Lemma reply_keeps rd status body a :
  let a' := Auth.reply rd status body a in
  glb_name a' = glb_name a /\ glb_conf a' = glb_conf a /\ au_session a' = au_session a /\ au_world a' = au_world a /\
  so_in (au_sock a') = so_in (au_sock a).
Proof.
  unfold Auth.reply. destruct (htttp_serialize_response _ _ _) as [out|e]; [|done]. cbn [with_session glb_name glb_conf au_session au_world au_sock].
  by rewrite session_send_in.
Qed.

(** ** One round *)

(** The request that reached the account checks. *)
Record asked (a : auth_state) (method : auth_method_t) (c : acc_t) : Prop := {
  as_frame : exists token plain req, sealed (ss_key (au_session a)) token plain /\ htttp_parse_request plain = HOk req /\
    auth_method_of req = method /\ req_body_split (rq_body req) (rq_body_len req) = Some c;
  as_method : method = AUTH_LOGIN \/ method = AUTH_REGISTER }.

(** The parser leaves the accounts alone, and the name but for a guest's. *)
Lemma parser_spec rd a : ss_established (au_session a) = true -> ss_recv_dead (au_session a) = false -> conf_ok (glb_conf a) ->
  let '(out, a') := auth_session_parser rd a in
  au_world a' = au_world a /\ conf_ok (glb_conf a') /\
  (out = inl (-1) \/
   au_session a' = au_session a /\ (length (flow (so_in (au_sock a'))) + 4 <= length (flow (so_in (au_sock a))))%nat) /\
  match out with
  | inl status => glb_name a' = (if status =? 200 then [] else glb_name a)
  | inr (method, c) => glb_name a' = glb_name a /\ asked a method c
  end.
Proof.
  intros He Hd Hc. unfold auth_session_parser. pose proof (recv_progress (au_session a) (Z.to_nat SESSION_MAX_FRAME) (au_sock a) He Hd) as Hp.
  destruct (session_recv _ _ _) as [[[code buf] s'] k'].
  assert (Hfin : code <> SESSION_ERR_IO -> code <> SESSION_ERR_TOOBIG ->
    s' = au_session a /\ (length (flow (so_in k')) + 4 <= length (flow (so_in (au_sock a))))%nat) by naive_solver.
  destruct code; cbn [with_session au_world glb_conf au_session au_sock glb_name]; auto; try (destruct (Hfin ltac:(done) ltac:(done)); by auto 10).
  destruct (Hfin ltac:(done) ltac:(done)) as [-> Hl]. destruct Hp as [?|[?|(_ & _ & Hs)]]; [done..|]. destruct (Hs eq_refl) as [token Hseal].
  destruct (htttp_parse_request buf) as [req|e] eqn:Ereq; [|by auto 10]. destruct (auth_method_of req) eqn:Em; [by auto 10|by auto 10|..];
    cbn [with_session glb_conf glb_frozen au_rc].
  all: pose proof (conf_load_ok (rd_host rd) (glb_conf a) (glb_frozen a) (au_rc a) Hc) as Hc';
    destruct (auth_conf_load _ _ _ _) as [[conf frozen] rc]; cbn [fst] in Hc';
    destruct (req_body_split _ _) as [c|] eqn:Eb; cbn [with_conf with_session au_world glb_conf au_session au_sock glb_name]; [|by auto 10].
  all: split; [done|]; split; [done|]; split; [by auto|]; split; [done|]; split; [by eauto 10|by auto].
Qed.

(** The table holds an account of this name whose digest the password gives. *)
Definition proved (l : list user_row) (name pass : cstr) : Prop :=
  exists r, r ∈ l /\ ur_name r = name /\ password_hash PBKDF2 pass (ur_salt r) (ur_iters r) (DIGEST_HEX_LEN + 1) = Some (ur_digest r).

Lemma verdict_proved l name pass id : users_ok l -> login_verdict PBKDF2 l name pass = (200, Some id) -> proved l name pass.
Proof.
  intros Hok. unfold login_verdict. destruct (head (filter _ l)) as [r|] eqn:Eh; [|done]. apply head_filter_Some in Eh as [Hn Hr].
  destruct (password_hash _ _ _ _ _) as [want|] eqn:Ep; [|done]. destruct (streq _ _) eqn:Es; [|done]. intros _. exists r.
  split; [done|]. split; [done|]. rewrite Ep. f_equal. apply streq_true in Es. rewrite <-Es. symmetry. apply take_ge.
  unfold password_hash in Ep. destruct (_ || _); [done|]. destruct (hex_decode _ _) as [[|c0 salt]|]; [done| |done].
  destruct (PBKDF2 pass (c0 :: salt) (ur_iters r)) as [d|] eqn:Ed; [|done]. injection Ep as <-.
  rewrite hex_encode_length, (PBKDF2_length _ _ _ _ Ed). done.
Qed.

Lemma fold_name_good u name : user_name_fold MAX_USER_NAME u = Some name -> good_name name.
Proof.
  unfold user_name_fold, good_name, user_name_ok. destruct (_ || _) eqn:E; [done|]. apply orb_false_iff in E as [_ E].
  apply negb_false_iff in E. apply andb_true_iff in E as [El Ec]. intros [= <-]. rewrite length_map, El. cbn [andb].
  rewrite forallb_forall in *. intros c (x & <- & Hx)%in_map_iff. specialize (Ec x Hx). revert Ec.
  destruct x as [[] [] [] [] [] [] [] []]; vm_compute; done.
Qed.

Definition readings_ok (rd : readings) : Prop :=
  (forall salt, rd_rand rd = Some salt -> length salt = HASH_SALT_BYTES) /\ forall n, in_int (rd_clock rd n).

(** The accounts behind the gate, with room for [room] more. *)
Record store_ok (room : nat) (w : uworld) : Prop := {
  so_users : users_ok (uw_users w); so_free : uw_held w = false;
  so_room : Z.of_nat (length (uw_users w) + room) <= INT_MAX }.

Lemma serve_store_ok room w r : request_ok r -> store_ok (S room) w ->
  store_ok room (serve PBKDF2 w r) /\ uw_users w ⊆+ uw_users (serve PBKDF2 w r).
Proof.
  intros Hr [H1 H2 H3]. destruct (serve_step PBKDF2 PBKDF2_length w r Hr H1 H2) as (H4 & H5 & H6 & H7); [lia|].
  split; [|done]. split; [done|done|lia].
Qed.

Lemma token_handler_spec rd name id a : good_name name ->
  let '(status, token, a') := token_handler TOKEN_HMAC rd name id a in
  glb_conf a' = glb_conf a /\ au_session a' = au_session a /\ au_sock a' = au_sock a /\ au_world a' = au_world a /\
  glb_name a' = (if status =? 200 then name else glb_name a).
Proof.
  intros Hn. unfold token_handler. destruct (rd_secret rd) as [secret|]; [|done]. destruct (token_mint _ _ _ _); [|done].
  cbn [with_name glb_conf au_session au_sock au_world glb_name]. split; [done|]. split; [done|]. split; [done|]. split; [done|].
  change (200 =? 200) with true. apply trunc_id. apply good_name_plain in Hn as [_ Hl]. unfold MAX_USER_NAME. lia.
Qed.

(** Registration at 200 stored the digest of the password it was given. *)
Lemma register_proves name pass rand iters clock pid w status id w' :
  users_ok (uw_users w) -> Z.of_nat (length (uw_users w)) < INT_MAX -> good_name name ->
  (forall salt, rand = Some salt -> length salt = HASH_SALT_BYTES) -> in_int iters -> (forall n, in_int (clock n)) -> uw_held w = false ->
  account_register PBKDF2 name pass rand iters clock pid w = (status, id, w') -> status = 200 -> proved (uw_users w') name pass.
Proof.
  intros Hok Hlt Hn Hrand Hi Hno Hh E ->.
  pose proof (account_register_spec PBKDF2 PBKDF2_length (uw_users w) name pass rand iters clock pid w Hok eq_refl Hlt Hn Hrand Hi Hno Hh) as Ho.
  rewrite E in Ho. inversion Ho as [| |salt d w1 out w2 Er Ed _ _ Hout _ Ew _ Eo]; subst.
  inversion Hout as [|w3 Ha|]; subst; try done. destruct Ha as (_ & n & Eu). unfold proved. cbn [set_held uw_users snd]. rewrite Eu.
  exists (new_user (uw_users w) name (hex_encode salt) (hex_encode d) iters (clock n)).
  split; [rewrite (place_perm _ (uw_users w)); by left|]. split; [done|]. cbn [new_user ur_salt ur_iters ur_digest].
  rewrite password_hash_salt by auto. by rewrite Ed.
Qed.

Lemma auth_check_spec room rd method c a : readings_ok rd -> conf_ok (glb_conf a) -> store_ok (S room) (au_world a) ->
  method = AUTH_LOGIN \/ method = AUTH_REGISTER ->
  let '(status, token, a') := auth_check PBKDF2 TOKEN_HMAC rd method c a in
  glb_conf a' = glb_conf a /\ au_session a' = au_session a /\ au_sock a' = au_sock a /\
  store_ok room (au_world a') /\ uw_users (au_world a) ⊆+ uw_users (au_world a') /\
  if status =? 200 then user_name_fold MAX_USER_NAME (acc_user c) = Some (glb_name a') /\ proved (uw_users (au_world a')) (glb_name a') (acc_pass c)
  else glb_name a' = glb_name a.
Proof.
  intros [Hrand Hclock] Hc Hst Hm. unfold auth_check. destruct (user_name_fold _ _) as [name|] eqn:En.
  2: { split; [done|]. split; [done|]. split; [done|]. split; [|done]. destruct Hst as [? ? ?]. split; [done|done|lia]. }
  pose proof (fold_name_good _ _ En) as Hn. pose proof Hst as [Hok Hh Hroom].
  assert (Hit : in_int (pbkdf2_iters (glb_conf a))) by (destruct (co_iters _ Hc); unfold in_int, INT_MAX; lia).
  set (run := match method with AUTH_LOGIN => account_login PBKDF2 name (acc_pass c) (au_world a) | AUTH_REGISTER => _ | _ => _ end).
  assert (Hrun : store_ok room (snd run) /\ uw_users (au_world a) ⊆+ uw_users (snd run) /\
    (fst (fst run) = 200 -> proved (uw_users (snd run)) name (acc_pass c))).
  { unfold run. destruct Hm as [-> | ->].
    - destruct (serve_store_ok room (au_world a) (Login name (acc_pass c)) Hn Hst) as [H1 H2]. split; [done|]. split; [done|].
      pose proof (account_login_spec PBKDF2 _ name (acc_pass c) (au_world a) Hok eq_refl Hn) as Hl.
      destruct (account_login _ _ _ _) as [[status id] w']. destruct Hl as (E & _ & [Hl|[[= -> ->] _]]); [|done]. cbn [fst snd]. intros ->.
      rewrite E. symmetry in Hl. unfold login_verdict in Hl. eapply (verdict_proved _ _ _ (default 0 id)); [done|]. unfold login_verdict.
      destruct (head _) as [r|]; [|done]. destruct (password_hash _ _ _ _ _); [|done]. destruct (streq _ _); [|done]. by injection Hl as <-.
    - set (req := Register name (acc_pass c) (rd_rand rd) (pbkdf2_iters (glb_conf a)) (rd_clock rd) (rd_pid rd)).
      assert (Hreq : request_ok req) by (split; [done|split; [done|split; done]]). destruct (serve_store_ok room (au_world a) req Hreq Hst) as [H1 H2].
      split; [done|]. split; [done|]. destruct (account_register _ _ _ _ _ _ _ _) as [[status id] w'] eqn:E. cbn [fst snd]. intros ->.
      by eapply register_proves; [| |exact Hn| | | | |exact E|]; try done; lia. }
  destruct run as [[status id] w']. cbn [fst snd] in Hrun. destruct Hrun as (Hst' & Hsub & Hpr).
  destruct (Z.eqb_spec status 200) as [->|Hne]; cbn [negb].
  - pose proof (token_handler_spec rd name (default 0 id) (with_world w' a) Hn) as Ht.
    destruct (token_handler _ _ _ _ _) as [[status token] a']. destruct Ht as (-> & -> & -> & -> & Hg). cbn [with_world glb_conf au_session au_sock au_world] in *.
    repeat (split; [done|]). rewrite Hg. destruct (status =? 200); [|done]. split; [done|]. by apply Hpr.
  - repeat (split; [done|]). by rewrite (proj2 (Z.eqb_neq _ _)) by done.
Qed.

(** ** The exchange ends *)

Definition live (a : auth_state) : Prop := ss_established (au_session a) = true /\ ss_recv_dead (au_session a) = false.
Definition ahead (a : auth_state) : nat := length (flow (so_in (au_sock a))).

Lemma check_keeps rd method c a : let '(_, _, a') := auth_check PBKDF2 TOKEN_HMAC rd method c a in
  glb_conf a' = glb_conf a /\ au_session a' = au_session a /\ au_sock a' = au_sock a.
Proof.
  unfold auth_check. destruct (user_name_fold _ _) as [name|]; [|done].
  destruct (match method with AUTH_LOGIN => _ | AUTH_REGISTER => _ | _ => _ end) as [[status id] w]. destruct (negb _); [done|].
  unfold token_handler. destruct (rd_secret rd); [|done]. by destruct (token_mint _ _ _ _).
Qed.

(** A round that did not end the connection took a frame off the stream. *)
Lemma handler_progress rd a : live a -> conf_ok (glb_conf a) ->
  let '(status, a') := auth_handler PBKDF2 TOKEN_HMAC rd a in
  conf_ok (glb_conf a') /\ (status = -1 \/ au_session a' = au_session a /\ (ahead a' + 4 <= ahead a)%nat).
Proof.
  intros [He Hd] Hc. unfold auth_handler, ahead. pose proof (parser_spec rd a He Hd Hc) as Hp.
  destruct (auth_session_parser rd a) as [out a1]. destruct Hp as (_ & Hc1 & Hrest & _).
  assert (Hrun : let '(status, _, a2) := match out with inl status => (status, [], a1) | inr (method, c) => auth_check PBKDF2 TOKEN_HMAC rd method c a1 end in
    glb_conf a2 = glb_conf a1 /\ au_session a2 = au_session a1 /\ au_sock a2 = au_sock a1 /\ (out = inl (-1) -> status = -1)).
  { destruct out as [status|[method c]]; [repeat split; by intros [= ->]|]. pose proof (check_keeps rd method c a1) as Hk.
    destruct (auth_check _ _ _ _ _ _) as [[? ?] ?]. naive_solver. }
  destruct (match out with inl status => (status, [], a1) | inr (method, c) => _ end) as [[status token] a2].
  destruct Hrun as (E1 & E2 & E3 & E4). destruct (reply_keeps rd status (if status =? 200 then token else []) a2) as (_ & R1 & R2 & _ & R3).
  destruct (0 <? status); [rewrite R1, R2, R3|]; rewrite E1, E2, E3; (split; [done|]); destruct Hrest as [->|Hrest]; auto.
Qed.

(** The statuses the rounds of [auth_loop] end with. *)
Fixpoint auth_statuses (fuel : nat) (rds : nat -> readings) (n : nat) (i : Z) (a : auth_state) : list Z :=
  if i <? max_attempts (glb_conf a) then
    match fuel with
    | O => []
    | S f =>
      let '(status, a) := auth_handler PBKDF2 TOKEN_HMAC (rds n) a in
      status :: (if (status =? 200) || (status <? 0) then [] else auth_statuses f rds (S n) (if status =? 400 then i else i + 1) a)
    end
  else [].

(** Rounds that reached a check, or ended the exchange. *)
Definition spent (statuses : list Z) : Z := Z.of_nat (length (filter (fun st => st <> 400) statuses)).

Lemma spent_cons st statuses : spent (st :: statuses) = (if decide (st <> 400) then 1 else 0) + spent statuses.
Proof. unfold spent. rewrite filter_cons. case_decide; cbn [length]; lia. Qed.

Lemma auth_loop_ends fuel rds n i a : live a -> conf_ok (glb_conf a) -> (ahead a < fuel)%nat ->
  is_Some (fst (auth_loop PBKDF2 TOKEN_HMAC fuel rds n i a)).
Proof.
  revert n i a. induction fuel as [|f IH]; intros n i a Hlive Hc Hf; [lia|]. cbn [auth_loop]. destruct (_ <? _); [|done].
  pose proof (handler_progress (rds n) a Hlive Hc) as Hp. destruct (auth_handler _ _ _ a) as [status a']. destruct Hp as [Hc' Hp].
  destruct (_ =? 200); [done|]. destruct (Z.ltb_spec status 0) as [Hneg|Hpos]; [done|].
  destruct Hp as [->|[Hs Hah]]; [lia|]. apply IH; [unfold live; by rewrite Hs|done|lia].
Qed.

Lemma flow_length segs : (length (flow segs) <= length (concat segs))%nat.
Proof. induction segs as [|[|c seg] segs IH]; cbn [flow concat length app]; [lia|lia|]. rewrite !length_app. lia. Qed.

(** A round that does not end the exchange takes a frame's four-byte prefix
    off the stream. *)
Lemma auth_rounds fuel rds n i a : live a -> conf_ok (glb_conf a) ->
  (4 * length (auth_statuses fuel rds n i a) <= ahead a + 4)%nat.
Proof.
  revert n i a. induction fuel as [|f IH]; intros n i a Hlive Hc; cbn [auth_statuses]; (case_match; [|cbn; lia]); [cbn; lia|].
  pose proof (handler_progress (rds n) a Hlive Hc) as Hp. destruct (auth_handler _ _ _ a) as [status a']. destruct Hp as [Hc' Hp].
  cbn [length]. destruct (_ || _) eqn:E; [cbn; lia|]. apply orb_false_iff in E as [_ E%Z.ltb_ge].
  destruct Hp as [->|[Hs Hah]]; [lia|].
  pose proof (IH (S n) (if status =? 400 then i else i + 1) a' ltac:(unfold live; by rewrite Hs) Hc'). lia.
Qed.

Lemma auth_budget fuel rds n i a : live a -> conf_ok (glb_conf a) -> 0 <= i <= 100 -> i + spent (auth_statuses fuel rds n i a) <= 100.
Proof.
  revert n i a. induction fuel as [|f IH]; intros n i a Hlive Hc Hi; cbn [auth_statuses];
    (destruct (Z.ltb_spec i (max_attempts (glb_conf a))) as [Hlt|Hge]; [|change (spent []) with 0; lia]); [change (spent []) with 0; lia|].
  pose proof (co_attempts _ Hc) as Ha.
  pose proof (handler_progress (rds n) a Hlive Hc) as Hp. destruct (auth_handler _ _ _ a) as [status a']. destruct Hp as [Hc' Hp].
  rewrite spent_cons. destruct (_ || _) eqn:E; [change (spent []) with 0; case_decide; lia|]. apply orb_false_iff in E as [_ E%Z.ltb_ge].
  destruct Hp as [->|[Hs Hah]]; [lia|].
  pose proof (IH (S n) (if status =? 400 then i else i + 1) a' ltac:(unfold live; by rewrite Hs) Hc') as H.
  destruct (Z.eqb_spec status 400) as [->|Hne]; [rewrite decide_False by tauto|rewrite decide_True by done]; lia.
Qed.

(** C39: the exchange ends when the peer does.  On a live session and with the
    configuration in its ranges, for every finite stream the peer sends, every
    account store and every reading of the outside, [auth_retry_handler]
    returns, within a round per four bytes of the stream and one more.  And
    however long the peer goes on, at most a hundred rounds (the most
    auth_max_attempts may say) end in anything but a 400: every other status,
    a 401, 409 or 500 included, spends an attempt, as auth.c:231 says and
    tests/test_auth.c denies. *)
Theorem exchange_ends rds a : live a -> conf_ok (glb_conf a) ->
  (exists r a', auth_retry_handler PBKDF2 TOKEN_HMAC rds a = (Some r, a')) /\
  (forall fuel, spent (auth_statuses fuel rds 0 0 a) <= 100 /\
     (4 * length (auth_statuses fuel rds 0 0 a) <= length (concat (so_in (au_sock a))) + 4)%nat).
Proof.
  intros Hlive Hc. pose proof (flow_length (so_in (au_sock a))) as Hfl. split.
  - unfold auth_retry_handler. destruct (auth_loop_ends (S (length (concat (so_in (au_sock a))))) rds 0 0 a Hlive Hc) as [r E];
      [unfold ahead; lia|]. destruct (auth_loop _ _ _ rds 0 0 a) as [r' a'] eqn:El. cbn [fst] in E. subst. by exists r, a'.
  - intros fuel. split; [pose proof (auth_budget fuel rds 0 0 a Hlive Hc); lia|].
    pose proof (auth_rounds fuel rds 0 0 a Hlive Hc). unfold ahead in *. lia.
Qed.

(** ** A name is earned *)

(** What stands behind the name of an accepted session: a guest has none; a
    player sent, in a frame sealed under the session's key, a request with
    that name and the password of that account. *)
Definition earned (key : bytes) (l : list user_row) (name : cstr) : Prop :=
  name = [] \/
  exists token plain req method c, sealed key token plain /\ htttp_parse_request plain = HOk req /\ auth_method_of req = method /\
    (method = AUTH_LOGIN \/ method = AUTH_REGISTER) /\ req_body_split (rq_body req) (rq_body_len req) = Some c /\
    user_name_fold MAX_USER_NAME (acc_user c) = Some name /\ proved l name (acc_pass c).

Lemma handler_earns room rd a : live a -> conf_ok (glb_conf a) -> readings_ok rd -> store_ok (S room) (au_world a) ->
  let '(status, a') := auth_handler PBKDF2 TOKEN_HMAC rd a in
  store_ok room (au_world a') /\ uw_users (au_world a) ⊆+ uw_users (au_world a') /\
  if status =? 200 then earned (ss_key (au_session a)) (uw_users (au_world a')) (glb_name a') else glb_name a' = glb_name a.
Proof.
  intros [He Hd] Hc Hrd Hst. unfold auth_handler. pose proof (parser_spec rd a He Hd Hc) as Hp.
  destruct (auth_session_parser rd a) as [out a1]. destruct Hp as (Ew & Hc1 & _ & Hout). rewrite <-Ew in Hst.
  set (run := match out with inl status => (status, [], a1) | inr (method, c) => _ end).
  assert (Hrun : let '(status, _, a2) := run in store_ok room (au_world a2) /\ uw_users (au_world a) ⊆+ uw_users (au_world a2) /\
    if status =? 200 then earned (ss_key (au_session a)) (uw_users (au_world a2)) (glb_name a2) else glb_name a2 = glb_name a).
  { unfold run. destruct out as [status|[method c]].
    - split; [destruct Hst; split; [done|done|lia]|]. rewrite Ew. split; [done|]. rewrite Hout. destruct (status =? 200); [by left|done].
    - destruct Hout as [Hg [(token & plain & req & Hseal & Hreq & Hm & Hb) Hmeth]].
      pose proof (auth_check_spec room rd method c a1 Hrd Hc1 Hst Hmeth) as Hk.
      destruct (auth_check _ _ _ _ _ _) as [[status tok] a2]. destruct Hk as (_ & _ & _ & Hst2 & Hsub & Hn). rewrite Ew in Hsub.
      split; [done|]. split; [done|]. destruct (status =? 200); [|congruence]. destruct Hn as [Hfold Hpr]. right.
      exists token, plain, req, method, c. done. }
  destruct run as [[status token] a2]. destruct (reply_keeps rd status (if status =? 200 then token else []) a2) as (R1 & _ & _ & R2 & _).
  destruct (0 <? status); [by rewrite R1, R2|done].
Qed.

Lemma auth_loop_earns fuel rds n i a a' : live a -> conf_ok (glb_conf a) -> (forall n, readings_ok (rds n)) -> store_ok fuel (au_world a) ->
  auth_loop PBKDF2 TOKEN_HMAC fuel rds n i a = (Some AUTH_OK, a') ->
  users_ok (uw_users (au_world a')) /\ uw_users (au_world a) ⊆+ uw_users (au_world a') /\
  earned (ss_key (au_session a)) (uw_users (au_world a')) (glb_name a').
Proof.
  revert n i a. induction fuel as [|f IH]; intros n i a Hlive Hc Hrd Hst; cbn [auth_loop]; (destruct (_ <? _); [|done]); [done|].
  pose proof (handler_progress (rds n) a Hlive Hc) as Hp. pose proof (handler_earns f (rds n) a Hlive Hc (Hrd n) Hst) as He.
  destruct (auth_handler _ _ _ a) as [status a1]. destruct Hp as [Hc1 Hp]. destruct He as (Hst1 & Hsub & Hn).
  destruct (Z.eqb_spec status 200) as [->|Hne].
  { intros E. injection E as <-. split; [apply Hst1|]. done. }
  destruct (Z.ltb_spec status 0) as [Hneg|Hpos]; [done|]. destruct Hp as [->|[Hs _]]; [lia|].
  intros E. destruct (IH _ _ a1 ltac:(unfold live; by rewrite Hs) Hc1 Hrd Hst1 E) as (H1 & H2 & H3). rewrite Hs in H3.
  split; [done|]. split; [by etrans|done].
Qed.

(** A session's name was proved.  When [auth_retry_handler] accepts a
    session, its name is empty, a guest's, or belongs to an account of the
    user table, and the peer proved that account's password in a request that
    arrived in a frame sealed under the session key; whatever was refused
    before, whatever failed in the store, and no account was lost on the way. *)
Theorem accepted_name_is_earned rds a a' :
  live a -> conf_ok (glb_conf a) -> (forall n, readings_ok (rds n)) -> store_ok (S (length (concat (so_in (au_sock a))))) (au_world a) ->
  auth_retry_handler PBKDF2 TOKEN_HMAC rds a = (Some AUTH_OK, a') ->
  users_ok (uw_users (au_world a')) /\ uw_users (au_world a) ⊆+ uw_users (au_world a') /\
  earned (ss_key (au_session a)) (uw_users (au_world a')) (glb_name a').
Proof. apply auth_loop_earns. Qed.

(** The token a player is handed is accepted until it expires, and names the
    player's id and name. *)
Theorem issued_token_is_accepted rd name id a token a' now out :
  good_name name -> 0 <= id <= LONG_MAX -> 0 <= rd_now rd <= INT_MAX -> conf_ok (glb_conf a) ->
  token_handler TOKEN_HMAC rd name id a = (200, token, a') -> now < rd_now rd + token_ttl (glb_conf a) ->
  exists secret, rd_secret rd = Some secret /\
    token_verify TOKEN_HMAC token secret now out = (TOKEN_OK, mkClaims id name (rd_now rd) (rd_now rd + token_ttl (glb_conf a))).
Proof.
  intros Hn Hid Hnow Hc. unfold token_handler. destruct (rd_secret rd) as [secret|]; [|done].
  apply good_name_plain in Hn as [_ Hl]. rewrite trunc_id by (unfold TOKEN_NAME_MAX; lia). pose proof (co_ttl _ Hc) as Httl.
  set (c := mkClaims id name (rd_now rd) _). assert (Hcl : claims_ok c) by (unfold claims_ok, LONG_MAX, INT_MAX in *; cbn; lia).
  destruct (token_mint _ _ c secret) as [tok|] eqn:Em; [|done]. intros E Hlt. injection E as -> _. exists secret. split; [done|].
  by apply (minted_verifies TOKEN_HMAC).
Qed.

End Gate.

(** ** Samples *)

Definition sample_request (method user pass : cstr) : bytes :=
  match htttp_serialize_request (mkRequest method ($"/auth") [] (Some (user ++ LF :: pass)) (length user + 1 + length pass)) 1024 with
  | HOk out => out
  | HErr _ => []
  end.

(** A login before the account exists, an unreadable request, a registration. *)
Definition sample_stream : list bytes :=
  [so_out (snd (send_many sample_session
    [(sample_iv, sample_request ($"LOGIN") ($"Alice") ($"correct horse")); (sample_iv, $"hello");
     (sample_iv, sample_request ($"REGISTER") ($"Alice") ($"correct horse"))] (quiet [])))].

Definition sample_readings (_ : nat) : readings :=
  mkReadings (mkHost None (fun _ => None)) (Some sample_secret) (Some sample_salt) sample_clock 1000 17 (Some ($"Thu, 01 Jan 1970 00:16:40 GMT")) (Some sample_iv).
Definition sample_auth (stream : list bytes) : auth_state :=
  mkAuth [] default_conf false rc_initial sample_session (quiet stream) (sample_world []).

Example sample_exchange :
  let '(r, a) := auth_retry_handler sample_pbkdf2 sample_hmac sample_readings (sample_auth sample_stream) in
  r = Some AUTH_OK /\ glb_name a = $"alice" /\ map ur_name (uw_users (au_world a)) = [$"alice"] /\
  auth_statuses sample_pbkdf2 sample_hmac 10 sample_readings 0 0 (sample_auth sample_stream) = [404; 400; 200].
Proof. vm_compute. done. Qed.

(** A GUEST request is accepted like an account, with no name at all. *)
Example guest_is_accepted :
  let stream := [so_out (snd (send_many sample_session [(sample_iv, sample_request ($"GUEST") ($"x") ($"y"))] (quiet [])))] in
  let '(r, a) := auth_retry_handler sample_pbkdf2 sample_hmac sample_readings (sample_auth stream) in
  r = Some AUTH_OK /\ auth_get_name 16 a = Some [].
Proof. vm_compute. done. Qed.

(** Refusals that checked no password spend attempts too: with the default
    budget of five, five requests of another method cost the connection,
    where any number of 400s and a GUEST are accepted.  (A configured budget is
    read only once a LOGIN or REGISTER arrives.) *)
Definition frames (payloads : list bytes) : list bytes :=
  [so_out (snd (send_many sample_session (map (fun p => (sample_iv, p)) payloads) (quiet [])))].
Definition joins_then_guest (first : bytes) : list bytes := frames (replicate 5 first ++ [sample_request ($"GUEST") ($"x") ($"y")]).

Example refusals_spend_attempts :
  let run first := fst (auth_retry_handler sample_pbkdf2 sample_hmac sample_readings (sample_auth (joins_then_guest first))) in
  run (sample_request ($"JOIN") ($"x") ($"y")) = Some AUTH_DROP /\ run ($"hello") = Some AUTH_OK /\
  auth_statuses sample_pbkdf2 sample_hmac 10 sample_readings 0 0 (sample_auth (joins_then_guest (sample_request ($"JOIN") ($"x") ($"y")))) = [401; 401; 401; 401; 401].
Proof. vm_compute. done. Qed.

Lemma exchange_ends_witness :
  (exists r a', auth_retry_handler sample_pbkdf2 sample_hmac sample_readings (sample_auth sample_stream) = (Some r, a')) /\
  spent (auth_statuses sample_pbkdf2 sample_hmac 10 sample_readings 0 0 (sample_auth sample_stream)) <= 100.
Proof.
  destruct (exchange_ends sample_pbkdf2 sample_hmac sample_readings (sample_auth sample_stream)) as [H1 H2];
    [split; reflexivity|exact default_conf_ok|]. split; [exact H1|exact (proj1 (H2 10%nat))].
Defined.

Lemma sample_store_ok room : Z.of_nat room <= INT_MAX -> store_ok room (sample_world []).
Proof. intros H. split; [exact users_ok_nil|done|done]. Qed.

Lemma sample_readings_ok n : readings_ok (sample_readings n).
Proof. split; [intros salt E; apply (inj Some) in E; by subst salt|intros ?; by apply in_int_small]. Qed.

Lemma accepted_name_is_earned_witness :
  let a' := snd (auth_retry_handler sample_pbkdf2 sample_hmac sample_readings (sample_auth sample_stream)) in
  users_ok (uw_users (au_world a')) /\ [] ⊆+ uw_users (au_world a') /\ earned sample_pbkdf2 sample_key (uw_users (au_world a')) (glb_name a').
Proof.
  apply (accepted_name_is_earned sample_pbkdf2 sample_hmac sample_pbkdf2_length sample_readings (sample_auth sample_stream)).
  - split; reflexivity.
  - exact default_conf_ok.
  - exact sample_readings_ok.
  - apply sample_store_ok. vm_compute. congruence.
  - vm_compute. reflexivity.
Defined.

End Gate.
