(* ===== verification/Logmsg.v ===== *)
(** * The log sender: libtetrisutil/logmsg.c

    Fixed-size records to a datagram socket, without ever waiting: what cannot
    be sent is counted, and the count travels with the next record that gets
    through.  [log_vsend] runs in any number of threads; the counters are
    atomics and the socket is behind a lock that is only ever tried.  The
    sequential functions come first, then the threads step by step. *)
From S2P Require Import Prelude CText Rc.
Import Rc.
Local Open Scope Z_scope.

Module Logmsg.

Definition LOG_MSG_MAX : nat := Z.to_nat 256.
Definition ULONG_MAX : Z := 2 ^ 64 - 1.
Definition ulong (z : Z) : Z := z mod 2 ^ 64.

(** [log_level_t] is an [int] on the wire, so any value can arrive. *)
Definition LOG_INFO : Z := 0.
Definition LOG_WARN : Z := 1.
Definition LOG_ERROR : Z := 2.
Definition LOG_DEBUG : Z := 3.

Record log_msg_t := mkLog { lm_pid : Z; lm_level : Z; lm_dropped : Z; lm_msg : cstr }.

Definition log_level_rank (level : Z) : Z :=
  if level =? LOG_DEBUG then 0 else if level =? LOG_INFO then 1 else if level =? LOG_WARN then 2
  else if level =? LOG_ERROR then 3 else 4.

Definition level_names : list (cstr * Z) :=
  [($"info", LOG_INFO); ($"warn", LOG_WARN); ($"error", LOG_ERROR); ($"debug", LOG_DEBUG)].

Fixpoint level_loop (names : list (cstr * Z)) (name : cstr) : option Z :=
  match names with
  | [] => None
  | (n, level) :: names' => if strcaseeq name n then Some level else level_loop names' name
  end.

(** [None] is -1. *)
Definition log_level_parse (name : option cstr) : option Z := name ← name; level_loop level_names name.

(** ** The sender's state *)

Record sender := mkSender {
  glb_fd : bool;                (** a socket is open *)
  glb_path : cstr;
  glb_dropped : Z; glb_unreported : Z;
  glb_max_attempts : Z }.
Definition sender_initial : sender := mkSender false [] 0 0 0.

Definition set_fd x s := mkSender x (glb_path s) (glb_dropped s) (glb_unreported s) (glb_max_attempts s).
Definition set_unreported x s := mkSender (glb_fd s) (glb_path s) (glb_dropped s) x (glb_max_attempts s).

(** [connects]: [socket] and [connect] succeed. *)
Definition sender_connect_socket (connects : bool) (s : sender) : bool * sender :=
  match glb_path s with
  | [] => (false, s)
  | _ => if connects then (true, set_fd true s) else (false, s)
  end.
Definition sender_disconnect_socket (s : sender) : sender := set_fd false s.

(** The two atomic steps of [drop_one]. *)
Definition count_drop (s : sender) : sender :=
  mkSender (glb_fd s) (glb_path s) (ulong (glb_dropped s + 1)) (glb_unreported s) (glb_max_attempts s).
Definition note_unreported (s : sender) : sender :=
  if glb_unreported s <? ULONG_MAX then set_unreported (glb_unreported s + 1) s else s.
Definition drop_one (s : sender) : sender := note_unreported (count_drop s).

(** What [send] gives: the whole record, one of the errors of a peer that
    went away, another error. *)
Inductive sent := Sent | Peer_gone | Not_sent.

(** The attempt loop of [log_vsend]; each outcome comes with whether the
    reconnect behind it succeeds. *)
Fixpoint send_attempts (n : nat) (outs : list (sent * bool)) (s : sender) : bool * sender :=
  match n with
  | O => (false, s)
  | S n' =>
    match outs with
    | [] | (Sent, _) :: _ => (true, s)
    | (Not_sent, _) :: _ => (false, s)
    | (Peer_gone, again) :: outs' =>
      match sender_connect_socket again (sender_disconnect_socket s) with
      | (false, s) => (false, s)
      | (true, s) => send_attempts n' outs' s
      end
    end
  end.

(** [text]: what the format gives, [None] for a NULL format; [free]: the
    trylock succeeds.  The record that reached the daemon, and the state; the
    return code is 0 when there is one and -1 otherwise. *)
Definition log_vsend (pid level : Z) (text : option cstr) (free connects : bool) (outs : list (sent * bool)) (s : sender)
    : option log_msg_t * sender :=
  match text with
  | None => (None, drop_one s)
  | Some text =>
    if negb free then (None, drop_one s)
    else
      let m := mkLog pid level (glb_unreported s) (trunc LOG_MSG_MAX text) in
      let '(ready, s) := if glb_fd s then (true, s) else sender_connect_socket connects s in
      if negb ready then (None, drop_one s)
      else match send_attempts (Z.to_nat (glb_max_attempts s)) outs s with
           | (true, s) => (Some m, set_unreported (ulong (glb_unreported s - lm_dropped m)) s)
           | (false, s) => (None, drop_one s)
           end
  end.

Definition log_close (pid : Z) (free connects : bool) (outs : list (sent * bool)) (s : sender) : option log_msg_t * sender :=
  let '(m, s) :=
    if 0 <? glb_unreported s
    then log_vsend pid LOG_WARN (Some ($"sender exiting with " ++ print_uint (glb_unreported s) ++ $" dropped records")) free connects outs s
    else (None, s) in
  (m, sender_disconnect_socket s).

(** [sizeof glb_path] *)
Definition PATH_CAP : nat := 108.

(** The return code, what the closing of the old connection sent, the rc
    snapshot and the state. *)
Definition log_open (h : host) (rc : rc_state) (pid : Z) (socket_path : option cstr) (free connects_old : bool) (outs : list (sent * bool))
    (connects : bool) (s : sender) : Z * option log_msg_t * rc_state * sender :=
  match socket_path with
  | None | Some [] => (-1, None, rc, s)
  | Some path =>
    if (PATH_CAP <=? length path)%nat then (-1, None, rc, s)
    else
      let '(m, s) := log_close pid free connects_old outs s in
      let '(_, attempts, rc) := rc_get_int h ($"log_send_attempts") 2 1 1000 (Some (glb_max_attempts s)) [] rc in
      let s := mkSender (glb_fd s) path (glb_dropped s) (glb_unreported s) (default (glb_max_attempts s) attempts) in
      let '(ok, s) := sender_connect_socket connects s in
      (if ok then 0 else -1, m, rc, s)
  end.

Definition get_log_dropped (s : sender) : Z := glb_dropped s.

(** ** Threads *)

(** Where a thread is in [log_vsend]: outside; about to try the lock; holding
    it with the unreported count it loaded, [more] attempts to go; unlocked
    after a failure; between the two steps of [drop_one]. *)
Inductive place := Away | Trying | Holding (claim : Z) (more : nat) | Failing | Counting.

Record threads := mkThreads {
  th_sender : sender; th_locked : bool; th_at : list place;
  th_reported : list Z }.   (** the drop counts of the records that arrived, newest first *)

Definition initial_threads (n : nat) (s : sender) : threads := mkThreads s false (replicate n Away) [].

(** One step of one thread: a call, or what happens next where it stands;
    [out] and [connects] decide the outcome of a send and of a connect.  A send
    that succeeds is one step with the [atomic_fetch_sub] and the unlock behind
    it: all three happen under [glb_sender_lock], so in between the other
    threads can only fail to take the lock and add to the two counters, which
    commutes with the subtraction.  What they see of the lock differs by a
    moment, as it does when they come a moment earlier. *)
Definition move (p : place) (null_fmt : bool) (out : sent) (connects : bool) (s : sender) (locked : bool)
    : place * sender * bool * option Z :=
  match p with
  | Away => (if null_fmt then Failing else Trying, s, locked, None)
  | Trying =>
    if locked then (Failing, s, locked, None)
    else
      let claim := glb_unreported s in
      if glb_fd s then (Holding claim (Z.to_nat (glb_max_attempts s)), s, true, None)
      else match sender_connect_socket connects s with
           | (true, s) => (Holding claim (Z.to_nat (glb_max_attempts s)), s, true, None)
           | (false, s) => (Failing, s, false, None)
           end
  | Holding claim O => (Failing, s, false, None)
  | Holding claim (S more) =>
    match out with
    | Sent => (Away, set_unreported (ulong (glb_unreported s - claim)) s, false, Some claim)
    | Not_sent => (Failing, s, false, None)
    | Peer_gone =>
      match sender_connect_socket connects (sender_disconnect_socket s) with
      | (true, s) => (Holding claim more, s, locked, None)
      | (false, s) => (Failing, s, false, None)
      end
    end
  | Failing => (Counting, count_drop s, locked, None)
  | Counting => (Away, note_unreported s, locked, None)
  end.

Record turn := mkTurn { tn_who : nat; tn_null : bool; tn_out : sent; tn_connects : bool }.

Definition step (t : threads) (a : turn) : threads :=
  match th_at t !! tn_who a with
  | None => t
  | Some p =>
    let '(p', s, locked, sent_claim) := move p (tn_null a) (tn_out a) (tn_connects a) (th_sender t) (th_locked t) in
    mkThreads s locked (<[tn_who a := p']> (th_at t)) (match sent_claim with Some c => c :: th_reported t | None => th_reported t end)
  end.

(** ** No drop is lost, none is reported twice *)

(** The sum of [f] over the threads. *)
Definition total (f : place -> Z) (l : list place) : Z := foldr (fun p n => f p + n) 0 l.
Definition counting (p : place) : Z := match p with Counting => 1 | _ => 0 end.
Definition holding (p : place) : Z := match p with Holding _ _ => 1 | _ => 0 end.
Definition sum (l : list Z) : Z := foldr Z.add 0 l.

Lemma total_insert f l i x y : l !! i = Some x -> total f (<[i := y]> l) = total f l - f x + f y.
Proof. revert i. induction l as [|z l IH]; intros [|i] Hi; simplify_eq/=; [lia|]. rewrite IH by done. lia. Qed.

Lemma total_nonneg f l : (forall p, 0 <= f p) -> 0 <= total f l.
Proof. intros Hf. induction l as [|p l IH]; [done|]. cbn [total foldr]. specialize (Hf p). unfold total in IH. lia. Qed.

Lemma total_elem f l i x : (forall p, 0 <= f p) -> l !! i = Some x -> f x <= total f l.
Proof.
  intros Hf. revert i. induction l as [|z l IH]; intros [|i] Hi; simplify_eq/=.
  - pose proof (total_nonneg f l Hf). lia.
  - specialize (IH i Hi). specialize (Hf z). lia.
Qed.

Lemma counting_nonneg p : 0 <= counting p.
Proof. by destruct p. Qed.
Lemma holding_nonneg p : 0 <= holding p.
Proof. by destruct p. Qed.
#[local] Hint Resolve counting_nonneg holding_nonneg : core.

(** Every counted drop is unreported, about to be, or in a record that
    arrived; the lock has one holder, and what it claims is still unreported. *)
Record balanced (n : Z) (t : threads) : Prop := {
  ba_sum : glb_dropped (th_sender t) = glb_unreported (th_sender t) + total counting (th_at t) + sum (th_reported t);
  ba_pos : 0 <= glb_unreported (th_sender t) /\ 0 <= sum (th_reported t);
  ba_bound : glb_dropped (th_sender t) <= n;
  ba_lock : total holding (th_at t) = if th_locked t then 1 else 0;
  ba_claim : Forall (fun p => match p with Holding d _ => 0 <= d <= glb_unreported (th_sender t) | _ => True end) (th_at t) }.

Lemma connect_counters connects s : let s' := snd (sender_connect_socket connects s) in
  glb_dropped s' = glb_dropped s /\ glb_unreported s' = glb_unreported s.
Proof. unfold sender_connect_socket. destruct (glb_path s), connects; done. Qed.

Lemma claims_mono (l : list place) a b : a <= b ->
  Forall (fun p => match p with Holding d _ => 0 <= d <= a | _ => True end) l -> Forall (fun p => match p with Holding d _ => 0 <= d <= b | _ => True end) l.
Proof. intros Hab HF. eapply Forall_impl; [exact HF|]. intros [] Hp; try done. lia. Qed.

(** When nobody holds the lock, no claim is outstanding. *)
Lemma no_claims l a : total holding l = 0 -> Forall (fun p => match p with Holding d _ => 0 <= d <= a | _ => True end) l.
Proof.
  intros Ht. apply Forall_forall. intros p (i & Hi)%list_elem_of_lookup. destruct p; try done.
  pose proof (total_elem holding l i _ holding_nonneg Hi). cbn [holding] in *. lia.
Qed.

(** A thread that moves on without touching the counters. *)
Lemma balanced_move n t i p p' s' : balanced n t -> th_at t !! i = Some p ->
  glb_dropped s' = glb_dropped (th_sender t) -> glb_unreported s' = glb_unreported (th_sender t) ->
  counting p = 0 -> counting p' = 0 ->
  match p' with Holding d _ => 0 <= d <= glb_unreported s' | _ => True end ->
  forall locked' : bool, (if locked' then 1 else 0) = (if th_locked t then 1 else 0) - holding p + holding p' ->
  balanced n (mkThreads s' locked' (<[i := p']> (th_at t)) (th_reported t)).
Proof.
  intros [H1 H2 H3 H4 H5] Hi Ed Eu Hc Hc' Hp' locked' Hl. split; cbn [th_sender th_locked th_at th_reported].
  - rewrite Ed, Eu, (total_insert _ _ _ _ _ Hi), Hc, Hc'. lia.
  - by rewrite Eu.
  - by rewrite Ed.
  - rewrite (total_insert _ _ _ _ _ Hi). lia.
  - rewrite Eu in *. by apply Forall_insert.
Qed.

Lemma balanced_step n t a : 0 <= n < ULONG_MAX -> balanced n t -> balanced (n + 1) (step t a).
Proof.
  intros Hn Hb. assert (Hb' : balanced (n + 1) t) by (destruct Hb; split; try done; lia). unfold step.
  destruct (th_at t !! tn_who a) as [p|] eqn:Hi; [|done]. pose proof Hb as [H1 H2 H3 H4 H5].
  pose proof (total_nonneg counting (th_at t) counting_nonneg) as Hct. pose proof (total_elem holding _ _ _ holding_nonneg Hi) as Hho.
  destruct p as [| |d [|more]| |]; cbn [move holding] in *.
  - destruct (tn_null a); eapply balanced_move; eauto; cbn; lia.
  - destruct (th_locked t) eqn:El; [eapply balanced_move; eauto; cbn; rewrite ?El; lia|].
    pose proof (connect_counters (tn_connects a) (th_sender t)) as [Ed Eu].
    destruct (glb_fd (th_sender t)); [eapply balanced_move; eauto; cbn; rewrite ?El; lia|].
    destruct (sender_connect_socket (tn_connects a) (th_sender t)) as [[] s']; cbn [snd] in *; eapply balanced_move; eauto; cbn; rewrite ?El; lia.
  - assert (El : th_locked t = true) by (destruct (th_locked t); [done|lia]). eapply balanced_move; eauto; cbn; rewrite ?El; lia.
  - assert (El : th_locked t = true) by (destruct (th_locked t); [done|lia]).
    rewrite Forall_forall in H5. pose proof (H5 _ (list_elem_of_lookup_2 _ _ _ Hi)) as Hd. cbn in Hd.
    destruct (tn_out a).
    + unfold ulong. rewrite Z.mod_small by (unfold ULONG_MAX in *; lia). split; cbn [th_sender th_locked th_at th_reported set_unreported glb_dropped glb_unreported sum foldr].
      * rewrite (total_insert _ _ _ _ _ Hi). cbn. fold (sum (th_reported t)). lia.
      * fold (sum (th_reported t)). lia.
      * lia.
      * rewrite (total_insert _ _ _ _ _ Hi). cbn. rewrite H4, El. lia.
      * apply no_claims. rewrite (total_insert _ _ _ _ _ Hi). cbn. rewrite H4, El. lia.
    + pose proof (connect_counters (tn_connects a) (sender_disconnect_socket (th_sender t))) as [Ed Eu].
      destruct (sender_connect_socket _ _) as [[] s']; cbn [snd] in *; eapply balanced_move; eauto; cbn; rewrite ?El; try lia. rewrite Eu. exact Hd.
    + eapply balanced_move; eauto; cbn; rewrite ?El; lia.
  - unfold count_drop, ulong. rewrite Z.mod_small by (unfold ULONG_MAX in *; lia). split; cbn [th_sender th_locked th_at th_reported glb_dropped glb_unreported].
    + rewrite (total_insert _ _ _ _ _ Hi). cbn. lia.
    + done.
    + lia.
    + rewrite (total_insert _ _ _ _ _ Hi). cbn. lia.
    + by apply Forall_insert.
  - pose proof (total_elem counting _ _ _ counting_nonneg Hi) as Hc1. cbn [counting] in Hc1.
    unfold note_unreported. rewrite (proj2 (Z.ltb_lt _ _)) by lia.
    split; cbn [th_sender th_locked th_at th_reported set_unreported glb_dropped glb_unreported].
    + rewrite (total_insert _ _ _ _ _ Hi). cbn. lia.
    + lia.
    + lia.
    + rewrite (total_insert _ _ _ _ _ Hi). cbn. lia.
    + apply Forall_insert; [|done]. eapply claims_mono; [|done]. lia.
Qed.

Lemma balanced_run n t turns : 0 <= n -> n + Z.of_nat (length turns) <= ULONG_MAX -> balanced n t ->
  balanced (n + Z.of_nat (length turns)) (foldl step t turns).
Proof.
  revert n t. induction turns as [|a turns IH]; intros n t Hn Hl Hb; cbn [foldl length] in *; [by rewrite Z.add_0_r|].
  replace (n + Z.of_nat (S (length turns))) with (n + 1 + Z.of_nat (length turns)) by lia. apply IH; [lia..|]. apply balanced_step; [lia|done].
Qed.

Lemma balanced_initial k s : glb_dropped s = 0 -> glb_unreported s = 0 -> balanced 0 (initial_threads k s).
Proof.
  intros Hd Hu. assert (Ht : forall f, f Away = 0 -> total f (replicate k Away) = 0) by (intros f Hf; induction k as [|k IHk]; [done|]; cbn [replicate total foldr]; unfold total in IHk; lia).
  split; cbn [initial_threads th_sender th_locked th_at th_reported sum foldr]; rewrite ?Hd, ?Hu, ?Ht; try done. by apply Forall_replicate.
Qed.

(** C13: no dropped record goes uncounted and none is counted twice.  For any
    number of threads, in every interleaving of their calls, whatever becomes
    of their sends and reconnects: the drops counted are the ones still to be
    reported, those whose thread is on its way to note them, and the counts
    carried by the records that arrived; with every thread outside, the
    lifetime count is exactly what was reported and what is left to report. *)
Theorem drops_are_conserved k s turns :
  glb_dropped s = 0 -> glb_unreported s = 0 -> Z.of_nat (length turns) <= ULONG_MAX ->
  let t := foldl step (initial_threads k s) turns in
  get_log_dropped (th_sender t) = glb_unreported (th_sender t) + total counting (th_at t) + sum (th_reported t) /\
  0 <= glb_unreported (th_sender t) /\
  (Forall (fun p => p = Away) (th_at t) -> get_log_dropped (th_sender t) = glb_unreported (th_sender t) + sum (th_reported t)).
Proof.
  intros Hd Hu Hl. pose proof (balanced_run 0 _ turns ltac:(lia) ltac:(lia) (balanced_initial k s Hd Hu)) as Hb.
  cbv zeta. set (t := foldl step _ turns) in *. destruct Hb as [H1 H2 _ _ _]. unfold get_log_dropped. split; [done|]. split; [lia|].
  intros HF. assert (total counting (th_at t) = 0); [|lia]. clear -HF. induction HF as [|p l -> _ IH]; [done|]. cbn [total foldr counting]. exact IH.
Qed.

(** ** The function is what its thread does when nobody interferes *)

Definition alone (i : nat) (out : sent) (connects : bool) : turn := mkTurn i false out connects.

Lemma run_cons t a turns : foldl step t (a :: turns) = foldl step (step t a) turns.
Proof. done. Qed.

Lemma step_at t a p : th_at t !! tn_who a = Some p ->
  step t a = let '(p', s, locked, c) := move p (tn_null a) (tn_out a) (tn_connects a) (th_sender t) (th_locked t) in
             mkThreads s locked (<[tn_who a := p']> (th_at t)) (match c with Some c => c :: th_reported t | None => th_reported t end).
Proof. intros Hi. unfold step. by rewrite Hi. Qed.

Lemma lookup_set (l : list place) i p q : l !! i = Some p -> <[i := q]> l !! i = Some q.
Proof. intros Hi. apply list_lookup_insert_eq. by eapply lookup_lt_Some. Qed.

Lemma failing_run t i : th_at t !! i = Some Failing ->
  foldl step t [alone i Sent false; alone i Sent false] = mkThreads (drop_one (th_sender t)) (th_locked t) (<[i := Away]> (th_at t)) (th_reported t).
Proof.
  intros Hi. cbn [foldl]. rewrite (step_at t _ Failing) by done. cbn [move alone tn_who].
  rewrite (step_at _ _ Counting) by (cbn [th_at alone tn_who]; by eapply lookup_set). cbn [move alone tn_who th_at th_sender th_locked th_reported].
  by rewrite list_insert_insert_eq.
Qed.

Lemma attempts_run n outs t i d : th_at t !! i = Some (Holding d n) -> th_locked t = true ->
  exists turns, foldl step t turns =
    match send_attempts n outs (th_sender t) with
    | (true, s) => mkThreads (set_unreported (ulong (glb_unreported s - d)) s) false (<[i := Away]> (th_at t)) (d :: th_reported t)
    | (false, s) => mkThreads (drop_one s) false (<[i := Away]> (th_at t)) (th_reported t)
    end.
Proof.
  assert (Hfail : forall t s p out connects, th_at t !! i = Some p -> move p false out connects (th_sender t) (th_locked t) = (Failing, s, false, None) ->
    exists turns, foldl step t turns = mkThreads (drop_one s) false (<[i := Away]> (th_at t)) (th_reported t)).
  { intros t0 s p out connects Hi E. exists (alone i out connects :: [alone i Sent false; alone i Sent false]). rewrite run_cons.
    rewrite (step_at t0 (alone i out connects) p Hi). cbn [alone tn_null tn_out tn_connects tn_who]. rewrite E.
    rewrite (failing_run (mkThreads s false (<[i := Failing]> (th_at t0)) (th_reported t0)) i) by (cbn [th_at]; by eapply lookup_set).
    cbn [th_sender th_locked th_at th_reported]. by rewrite list_insert_insert_eq. }
  revert outs t. induction n as [|n IH]; intros outs t Hi Hl; cbn [send_attempts].
  { by apply (Hfail _ _ (Holding d 0) Sent false). }
  assert (Hsent : exists turns, foldl step t turns =
    mkThreads (set_unreported (ulong (glb_unreported (th_sender t) - d)) (th_sender t)) false (<[i := Away]> (th_at t)) (d :: th_reported t)).
  { exists [alone i Sent false]. cbn [foldl]. by rewrite (step_at t (alone i Sent false) _ Hi). }
  destruct outs as [|[[] again] outs]; [done|done| |by apply (Hfail _ _ (Holding d (S n)) Not_sent false)].
  destruct (sender_connect_socket again (sender_disconnect_socket (th_sender t))) as [[] s] eqn:E.
  - destruct (IH outs (mkThreads s true (<[i := Holding d n]> (th_at t)) (th_reported t))) as [turns Ht]; [cbn [th_at]; by eapply lookup_set|done|].
    cbn [th_sender th_at th_reported] in Ht. exists (alone i Peer_gone again :: turns). rewrite run_cons. rewrite (step_at t (alone i Peer_gone again) _ Hi).
    cbn [alone tn_null tn_out tn_connects tn_who move]. rewrite E, Hl, Ht. rewrite !list_insert_insert_eq. by destruct (send_attempts n outs s) as [[] s'].
  - apply (Hfail _ _ (Holding d (S n)) Peer_gone again); [done|]. cbn [move]. by rewrite E.
Qed.

(** A call of [log_vsend] that finds the lock free is a run of the steps of
    its thread alone. *)
Theorem vsend_is_a_run pid level text connects outs t i : th_at t !! i = Some Away -> th_locked t = false ->
  exists turns, foldl step t turns =
    let '(m, s) := log_vsend pid level text true connects outs (th_sender t) in
    mkThreads s false (th_at t) (match m with Some m => lm_dropped m :: th_reported t | None => th_reported t end).
Proof.
  intros Hi Hl. assert (Hback : forall p, <[i := Away]> (<[i := p]> (th_at t)) = th_at t)
    by (intros p; rewrite list_insert_insert_eq; by apply list_insert_id).
  unfold log_vsend. destruct text as [text|]; cbn [negb].
  2: { exists (mkTurn i true Sent false :: [alone i Sent false; alone i Sent false]). rewrite run_cons. rewrite (step_at t (mkTurn i true Sent false) _ Hi).
       cbn [tn_null tn_out tn_connects tn_who move]. rewrite Hl.
       rewrite (failing_run (mkThreads (th_sender t) false (<[i := Failing]> (th_at t)) (th_reported t)) i) by (cbn [th_at]; by eapply lookup_set).
       cbn [th_sender th_locked th_at th_reported]. by rewrite Hback. }
  set (ready := if glb_fd (th_sender t) then (true, th_sender t) else sender_connect_socket connects (th_sender t)).
  assert (Hu : glb_unreported (snd ready) = glb_unreported (th_sender t)) by (unfold ready; destruct (glb_fd _); [done|]; apply connect_counters).
  assert (Hm : exists turns, foldl step t turns =
    if fst ready then mkThreads (snd ready) true (<[i := Holding (glb_unreported (th_sender t)) (Z.to_nat (glb_max_attempts (snd ready)))]> (th_at t)) (th_reported t)
    else mkThreads (snd ready) false (<[i := Failing]> (th_at t)) (th_reported t)).
  { exists [alone i Sent false; alone i Sent connects]. cbn [foldl]. rewrite (step_at t (alone i Sent false) _ Hi). cbn [alone tn_null tn_out tn_connects tn_who move].
    rewrite (step_at _ _ Trying) by (cbn [th_at tn_who]; by eapply lookup_set). cbn [alone tn_null tn_out tn_connects tn_who move th_locked th_sender th_at th_reported].
    rewrite Hl. unfold ready. destruct (glb_fd (th_sender t)); [by rewrite list_insert_insert_eq|].
    destruct (sender_connect_socket connects (th_sender t)) as [[] s]; cbn [fst snd]; by rewrite list_insert_insert_eq. }
  destruct Hm as [turns0 E0]. destruct ready as [[] s]; cbn [fst snd negb] in *.
  - destruct (attempts_run (Z.to_nat (glb_max_attempts s)) outs (foldl step t turns0) i (glb_unreported (th_sender t))) as [turns E];
      [rewrite E0; cbn [th_at]; by eapply lookup_set|by rewrite E0|]. rewrite E0 in E.
    exists (turns0 ++ turns). rewrite foldl_app, E0, E. cbn [th_sender th_at th_reported]. rewrite Hback.
    destruct (send_attempts _ outs s) as [[] s']; done.
  - exists (turns0 ++ [alone i Sent false; alone i Sent false]). rewrite foldl_app, E0. rewrite failing_run by (cbn [th_at]; by eapply lookup_set).
    cbn [th_sender th_locked th_at th_reported]. by rewrite Hback.
Qed.

(** Two threads, one of them giving up while the other is sending. *)
Definition sample_sender : sender := mkSender true ($"log.sock") 0 0 2.
Definition sample_turns : list turn :=
  [alone 0 Sent true; alone 1 Sent true; alone 0 Sent true; alone 1 Sent true; alone 1 Sent true; alone 1 Sent true;
   alone 0 Sent true; alone 1 Sent true; alone 1 Sent true; alone 1 Sent true].

Lemma drops_are_conserved_witness :
  let t := foldl step (initial_threads 2 sample_sender) sample_turns in
  get_log_dropped (th_sender t) = glb_unreported (th_sender t) + total counting (th_at t) + sum (th_reported t) /\
  0 <= glb_unreported (th_sender t) /\
  (Forall (fun p => p = Away) (th_at t) -> get_log_dropped (th_sender t) = glb_unreported (th_sender t) + sum (th_reported t)).
Proof. apply (drops_are_conserved 2 sample_sender sample_turns); [reflexivity|reflexivity|vm_compute; congruence]. Defined.

Example sample_drops : let t := foldl step (initial_threads 2 sample_sender) sample_turns in
  glb_dropped (th_sender t) = 1 /\ th_reported t = [1; 0] /\ th_at t = [Away; Away].
Proof. vm_compute. done. Qed.

End Logmsg.
