(* ===== verification/Logd.v ===== *)
(** * The log daemon: tetrislogd/logger.c and config.c

    Datagrams in, lines out: each record is checked, cleaned, filtered by
    level, written as one line and mirrored as one INSERT, and every fate is
    counted.  The file the lines go to is the bytes written so far; what the
    kernel and the clock give is the argument of each step. *)
From S2P Require Import Prelude CText Types Rows Sql Wire Server Printed Rc Logmsg.
Import Rc Logmsg.
Local Open Scope Z_scope.

Module Logd.

(** ** logger.h *)

Definition LOGD_DROP_CLAIM_MAX : Z := Z.shiftl 1 24.
Definition LOGD_DRAIN_MAX : nat := Z.to_nat 100000.
Definition LOGD_DB_STRING_MAX : nat := 128.

Record logd_stats_t := mkStats {
  received : Z; filtered : Z; malformed : Z; truncated : Z; dropped : Z; db_dropped : Z; db_errors : Z }.
Definition no_stats : logd_stats_t := mkStats 0 0 0 0 0 0 0.

Record logd_summary_window_t := mkWindow { opened : Z; at_open : logd_stats_t }.

(** The options the loop reads. *)
Record logd_opts_t := mkOpts {
  socket_path : cstr; log_path : cstr; min_level : Z; echo : bool; summary_secs : Z; db_enable : Z;
  db_dir : cstr; db_jar : cstr; db_java : cstr; queue_cap : Z }.

(** ** config.c *)

Definition DEFAULT_DB_DIR : cstr := $"var/db_log".
Definition DEFAULT_DB_JAR : cstr := $"db/dist/simpledb.jar".
Definition DEFAULT_DB_JAVA : cstr := $"java".
Definition DEFAULT_DB_QUEUE_CAP : Z := 256.
Definition DEFAULT_SUMMARY_SECS : Z := 30.
Definition MAX_SUMMARY_SECS : Z := 3600.
Definition SUN_PATH : nat := 108.

Definition set_paths (path sock : cstr) (o : logd_opts_t) : logd_opts_t :=
  mkOpts sock path (min_level o) (echo o) (summary_secs o) (db_enable o) (db_dir o) (db_jar o) (db_java o) (queue_cap o).

(** The code and the options: on -1 only the paths were touched. *)
Definition config (h : host) (o : logd_opts_t) (rc : rc_state) : Z * logd_opts_t * rc_state :=
  let '(st1, path, rc) := rc_get h ($"log_path") None (Some (log_path o)) PATH_MAX rc in
  let o := set_paths (default [] path) (socket_path o) o in
  if bool_decide (st1 <> RC_VALUE_FOUND) then (-1, o, rc)
  else
    let '(st2, sock, rc) := rc_get h ($"log_ipc") None (Some (socket_path o)) SUN_PATH rc in
    let o := set_paths (log_path o) (default [] sock) o in
    if bool_decide (st2 <> RC_VALUE_FOUND) then (-1, o, rc)
    else
      let '(_, dir, rc) := rc_get h ($"log_db_dir") (Some DEFAULT_DB_DIR) (Some (db_dir o)) PATH_MAX rc in
      let '(_, jar, rc) := rc_get h ($"log_db_jar") (Some DEFAULT_DB_JAR) (Some (db_jar o)) PATH_MAX rc in
      let '(_, java, rc) := rc_get h ($"log_db_java") (Some DEFAULT_DB_JAVA) (Some (db_java o)) PATH_MAX rc in
      let '(_, secs, rc) := rc_get_int h ($"log_summary_secs") DEFAULT_SUMMARY_SECS 0 MAX_SUMMARY_SECS (Some (summary_secs o)) [] rc in
      let '(_, enable, rc) := rc_get_bool h ($"db") 0 (Some (db_enable o)) [] rc in
      let '(_, cap, rc) := rc_get_int h ($"log_db_queue") DEFAULT_DB_QUEUE_CAP 1 INT_MAX (Some 0) [] rc in
      let '(_, level, rc) := rc_get h ($"log_level") (Some ($"info")) (Some []) 16 rc in
      (0, mkOpts (socket_path o) (log_path o) (default LOG_INFO (log_level_parse level)) (echo o) (default 0 secs) (default 0 enable)
        (default [] dir) (default [] jar) (default [] java) (default 0 cap), rc).

(** ** Lines *)

Definition log_level_to_str (level : Z) : cstr :=
  if level =? LOG_INFO then $"INFO " else if level =? LOG_WARN then $"WARN "
  else if level =? LOG_ERROR then $"ERROR" else if level =? LOG_DEBUG then $"DEBUG" else $"?????".

(** Trailing blanks off. *)
Definition remove_level_word_padding (level : Z) (cap : nat) : cstr :=
  let word := trunc cap (log_level_to_str level) in
  reverse ((fix strip (s : cstr) : cstr := match s with " "%char :: s' => strip s' | _ => s end) (reverse word)).

Definition sanitise (s : cstr) : cstr := map (fun c => if (code c <? 32) || (code c =? 127) then "."%char else c) s.

Section Logd.
(** [localtime_r] and [strftime] with "%Y-%m-%d %H:%M:%S". *)
Variable local_time : Z -> option cstr.

Definition stamp (now : Z) : cstr := trunc 32 (default ($"0000-00-00 00:00:00") (local_time now)).

(** The line [emit] prints. *)
Definition log_line (now : Z) (m : log_msg_t) : cstr :=
  $"[" ++ stamp now ++ $"] [" ++ log_level_to_str (lm_level m) ++ $"] pid=" ++ print_int (lm_pid m) ++ $": " ++ lm_msg m ++ [LF].

Definition mirror_sql (id : Z) (m : log_msg_t) (now : Z) : cstr :=
  let status := remove_level_word_padding (lm_level m) 16 in
  let text := trunc (LOGD_DB_STRING_MAX + 1) (lm_msg m) in
  let q_status := Sql.db_quote (16 * 2 + 3) status in
  let q_text := Sql.db_quote ((LOGD_DB_STRING_MAX + 1) * 2 + 3) text in
  trunc (LOGD_DB_STRING_MAX * 2 + 256)
    ($"insert into log values (" ++ print_int id ++ $", " ++ print_int (lm_pid m) ++ $", " ++ print_int now ++ $", " ++ q_status ++ $", " ++ q_text ++ $");").

(** The daemon: what it wrote, what it submitted to the mirror ([None]: the
    mirror is off), the next id, the counters and the summary window. *)
Record logd := mkLogd {
  ld_out : cstr; ld_sql : option (list cstr); ld_next_id : Z; ld_stats : logd_stats_t; ld_window : logd_summary_window_t }.

Definition set_stats x d := mkLogd (ld_out d) (ld_sql d) (ld_next_id d) x (ld_window d).
Definition set_window x d := mkLogd (ld_out d) (ld_sql d) (ld_next_id d) (ld_stats d) x.

Definition mirror_log_to_db (m : log_msg_t) (now : Z) (d : logd) : logd :=
  match ld_sql d with
  | None => d
  | Some sqls => mkLogd (ld_out d) (Some (sqls ++ [mirror_sql (ld_next_id d) m now])) (ld_next_id d + 1) (ld_stats d) (ld_window d)
  end.

(** [writes]: [fprintf] and [fflush] succeed.  [false] is -1. *)
Definition emit (writes : bool) (now : Z) (m : log_msg_t) (d : logd) : bool * logd :=
  if negb writes then (false, d)
  else (true, mirror_log_to_db m now (mkLogd (ld_out d ++ log_line now m) (ld_sql d) (ld_next_id d) (ld_stats d) (ld_window d))).

Definition emit_self (writes : bool) (now pid level : Z) (text : cstr) (d : logd) : bool * logd :=
  emit writes now (mkLog pid level 0 (trunc LOG_MSG_MAX text)) d.

(** ** serve_one *)

(** [sizeof(log_msg_t)] and its fields on a little-endian LP64 machine. *)
Definition RECORD_SIZE : nat := Z.to_nat 272.
Definition le_value (b : list ascii) : Z := foldr (fun c n => code c + 256 * n) 0 b.
Definition raw_pid (raw : list ascii) : Z := i32 (le_value (take 4 raw)).
Definition raw_level (raw : list ascii) : Z := le_value (take 4 (drop 4 raw)).
Definition raw_dropped (raw : list ascii) : Z := le_value (take 8 (drop 8 raw)).
Definition raw_msg (raw : list ascii) : list ascii := take LOG_MSG_MAX (drop 16 raw).

(** The message behind [memchr]: the C string, and whether a NUL had to be
    forced on the last byte. *)
Definition terminate (msg : list ascii) : cstr * bool :=
  match cut "000"%char msg with
  | (s, Some _) => (s, false)
  | (s, None) => (take (LOG_MSG_MAX - 1) s, true)
  end.

Inductive recv_t := Nothing | Recv_failed | Datagram (raw : list ascii).

Definition add_stats (r f m t d : Z) (s : logd_stats_t) : logd_stats_t :=
  mkStats (ulong (received s + r)) (ulong (filtered s + f)) (ulong (malformed s + m)) (ulong (truncated s + t)) (ulong (dropped s + d))
    (db_dropped s) (db_errors s).

(** -1, 0 or 1. *)
Definition serve_one (o : logd_opts_t) (writes : bool) (now : Z) (r : recv_t) (d : logd) : Z * logd :=
  match r with
  | Nothing => (0, d)
  | Recv_failed => (-1, d)
  | Datagram raw =>
    if negb (length raw =? RECORD_SIZE)%nat then (1, set_stats (add_stats 0 0 1 0 0 (ld_stats d)) d)
    else
      let claim := raw_dropped raw in
      let d := set_stats (if LOGD_DROP_CLAIM_MAX <? claim then add_stats 0 0 1 0 0 (ld_stats d) else add_stats 0 0 0 0 claim (ld_stats d)) d in
      let '(msg, forced) := terminate (raw_msg raw) in
      let d := if forced then set_stats (add_stats 0 0 0 1 0 (ld_stats d)) d else d in
      let level := raw_level raw in
      let m := mkLog (raw_pid raw) level claim (sanitise msg) in
      if log_level_rank LOG_ERROR <? log_level_rank level then
        let d := set_stats (add_stats 0 0 1 0 0 (ld_stats d)) d in
        match emit writes now m d with
        | (false, d) => (-1, d)
        | (true, d) => (1, set_stats (add_stats 1 0 0 0 0 (ld_stats d)) d)
        end
      else if log_level_rank level <? log_level_rank (min_level o) then (1, set_stats (add_stats 0 1 0 0 0 (ld_stats d)) d)
      else match emit writes now m d with
           | (false, d) => (-1, d)
           | (true, d) => (1, set_stats (add_stats 1 0 0 0 0 (ld_stats d)) d)
           end
  end.

(** ** The summary *)

(** [db]: the two counters of the mirror's queue. *)
Definition db_snapshot (db : Z * Z) (s : logd_stats_t) : logd_stats_t :=
  mkStats (received s) (filtered s) (malformed s) (truncated s) (dropped s) (fst db) (snd db).

Definition stats_diff (a b : logd_stats_t) : logd_stats_t :=
  mkStats (ulong (received a - received b)) (ulong (filtered a - filtered b)) (ulong (malformed a - malformed b)) (ulong (truncated a - truncated b))
    (ulong (dropped a - dropped b)) (ulong (db_dropped a - db_dropped b)) (ulong (db_errors a - db_errors b)).

Definition summary_text (s : logd_stats_t) : cstr :=
  $"received=" ++ print_uint (received s) ++ $" filtered=" ++ print_uint (filtered s) ++ $" malformed=" ++ print_uint (malformed s) ++
  $" truncated=" ++ print_uint (truncated s) ++ $" dropped=" ++ print_uint (dropped s) ++ $" db_dropped=" ++ print_uint (db_dropped s) ++
  $" db_errors=" ++ print_uint (db_errors s).

Definition nothing_happened (s : logd_stats_t) : bool :=
  (received s =? 0) && (filtered s =? 0) && (malformed s =? 0) && (truncated s =? 0) && (dropped s =? 0) && (db_dropped s =? 0) && (db_errors s =? 0).

(** What a step meets: whether [emit] can write, the clock it reads, and the
    options, which the SIGHUP handler of main.c reads anew at any time. *)
Record io := mkIo { io_writes : bool; io_now : Z; io_opts : logd_opts_t }.

Definition summarise (w : io) (pid now : Z) (db : Z * Z) (d : logd) : bool * logd :=
  let o := io_opts w in
  let win := ld_window d in
  if summary_secs o <=? 0 then (true, d)
  else if now - opened win <? summary_secs o then
    (true, if now <? opened win then set_window (mkWindow now (at_open win)) d else d)
  else
    let cur := db_snapshot db (ld_stats d) in
    let delta := stats_diff cur (at_open win) in
    let elapsed := i32 (now - opened win) in
    let d := set_window (mkWindow now cur) d in
    if nothing_happened delta then (true, d)
    else
      let level := if negb (malformed delta =? 0) || negb (truncated delta =? 0) || negb (dropped delta =? 0) || negb (db_dropped delta =? 0) ||
                      negb (db_errors delta =? 0) then LOG_WARN else LOG_INFO in
      emit_self (io_writes w) (io_now w) pid level (trunc LOG_MSG_MAX (summary_text delta ++ $" in last " ++ print_int elapsed ++ $"s")) d.

(** ** logd_run *)

(** One turn of the loop: a pending SIGHUP (and, when the file opens again,
    the line about it), the datagram and its line, the clock the summary reads,
    the queue's counters and the summary's line. *)
Record tick := mkTick {
  tk_reopen : option (option io); tk_recv : recv_t; tk_emit : io; tk_now : Z; tk_db : Z * Z; tk_summary : io }.

Definition logd_tick (pid : Z) (k : tick) (d : logd) : bool * logd :=
  let d := match tk_reopen k with
           | Some (Some w) => snd (emit_self (io_writes w) (io_now w) pid LOG_INFO ($"log file reopened (SIGHUP)") d)
           | _ => d
           end in
  let '(r, d) := serve_one (io_opts (tk_emit k)) (io_writes (tk_emit k)) (io_now (tk_emit k)) (tk_recv k) d in
  if r <? 0 then (false, d) else summarise (tk_summary k) pid (tk_now k) (tk_db k) d.

(** The loop until SIGTERM (the ticks are over) or a failure. *)
Fixpoint logd_loop (pid : Z) (ticks : list tick) (d : logd) : bool * logd :=
  match ticks with
  | [] => (true, d)
  | k :: ticks' => match logd_tick pid k d with (false, d) => (false, d) | (true, d) => logd_loop pid ticks' d end
  end.

(** The shutdown drain: at most [LOGD_DRAIN_MAX] queued records. *)
Fixpoint logd_drain (fuel : nat) (queued : list (recv_t * io)) (d : logd) : bool * logd :=
  match fuel, queued with
  | O, _ | _, [] => (true, d)
  | S f, (r, w) :: queued' =>
    let '(code, d) := serve_one (io_opts w) (io_writes w) (io_now w) r d in
    if code =? 1 then logd_drain f queued' d else (negb (code <? 0), d)
  end.

Definition start_banner (o : logd_opts_t) (mirror_on : bool) : cstr :=
  trunc LOG_MSG_MAX ($"tetrislogd started: socket=" ++ socket_path o ++ $" level>=" ++ remove_level_word_padding (min_level o) 16 ++
    $" summary=" ++ print_int (summary_secs o) ++ $"s db=" ++ (if mirror_on then db_dir o else $"off")).

Definition stop_banner (s : logd_stats_t) : cstr := trunc LOG_MSG_MAX ($"tetrislogd stopping: " ++ summary_text s).

(** What [logd_run] meets from the outside: the two banners' lines, the
    window's clock and counters, the turns, what is queued at the end, and the
    queue's counters before the last banner and from [db_stop]. *)
Record logd_world := mkLogdWorld {
  lw_first : io; lw_opened : Z; lw_db : Z * Z; lw_ticks : list tick; lw_queued : list (recv_t * io);
  lw_last : io; lw_db_end : Z * Z; lw_db_final : Z * Z }.

(** [logd_run] once socket and file are open.  [next_id]: the mirror is on,
    with this id first. *)
Definition logd_run (pid : Z) (next_id : option Z) (w : logd_world) : bool * logd :=
  let d := mkLogd [] (match next_id with Some _ => Some [] | None => None end) (default 1 next_id) no_stats (mkWindow 0 no_stats) in
  let d := snd (emit_self (io_writes (lw_first w)) (io_now (lw_first w)) pid LOG_INFO (start_banner (io_opts (lw_first w)) (bool_decide (is_Some next_id))) d) in
  let d := set_window (mkWindow (lw_opened w) (db_snapshot (lw_db w) (ld_stats d))) d in
  let '(ok, d) :=
    match logd_loop pid (lw_ticks w) d with
    | (false, d) => (false, d)
    | (true, d) => logd_drain LOGD_DRAIN_MAX (lw_queued w) d
    end in
  let d := set_stats (db_snapshot (lw_db_end w) (ld_stats d)) d in
  let d := snd (emit_self (io_writes (lw_last w)) (io_now (lw_last w)) pid LOG_INFO (stop_banner (ld_stats d)) d) in
  (ok, set_stats (db_snapshot (lw_db_final w) (ld_stats d)) d).

End Logd.

(** ** db_seed_id *)

Fixpoint seed_loop (fuel : nat) (p : cstr) (after_rule : bool) : Z :=
  match fuel, p with
  | O, _ | _, [] => 1
  | S f, _ =>
    let '(line, eol) := cut LF p in
    let next := match eol with None => 1 | Some p' => seed_loop f p' (after_rule || Rows.starts_with ($"---") line) end in
    if after_rule then
      let '(v, end_) := strtol p in
      if negb (bool_decide (end_ = p)) && (0 <=? v) then v + 1 else next
    else next
  end.
Definition db_seed_id (body : cstr) : Z := seed_loop (length body) body false.

(** ** The log is the accepted records, one line each *)

(** The reference reading of a datagram: its record, if it is to be written. *)
Inductive fate := Wrong_size | Filtered | Written (m : log_msg_t).

Definition record_of (raw : list ascii) : log_msg_t :=
  mkLog (raw_pid raw) (raw_level raw) (raw_dropped raw) (sanitise (fst (terminate (raw_msg raw)))).

Definition fate_of (o : logd_opts_t) (raw : list ascii) : fate :=
  if negb (length raw =? RECORD_SIZE)%nat then Wrong_size
  else if (log_level_rank (raw_level raw) <=? log_level_rank LOG_ERROR) && (log_level_rank (raw_level raw) <? log_level_rank (min_level o)) then Filtered
  else Written (record_of raw).

Definition is_wrong_size (f : fate) : Z := match f with Wrong_size => 1 | _ => 0 end.
Definition is_filtered (f : fate) : Z := match f with Filtered => 1 | _ => 0 end.
Definition is_written (f : fate) : Z := match f with Written _ => 1 | _ => 0 end.

(** The drops a record reports, as far as they are believed. *)
Definition believed (raw : list ascii) : Z :=
  if negb (length raw =? RECORD_SIZE)%nat || (LOGD_DROP_CLAIM_MAX <? raw_dropped raw) then 0 else raw_dropped raw.

(** The complaints it causes, and whether it was cut. *)
Definition complaints (raw : list ascii) : Z :=
  if negb (length raw =? RECORD_SIZE)%nat then 1
  else (if LOGD_DROP_CLAIM_MAX <? raw_dropped raw then 1 else 0) + (if log_level_rank LOG_ERROR <? log_level_rank (raw_level raw) then 1 else 0).
Definition was_cut (raw : list ascii) : Z :=
  if negb (length raw =? RECORD_SIZE)%nat then 0 else if snd (terminate (raw_msg raw)) then 1 else 0.

Definition tally (f : list ascii -> Z) (raws : list (Z * list ascii)) : Z := foldr (fun r n => f (snd r) + n) 0 raws.

Definition newlines (s : cstr) : nat := length (filter (fun c => c = LF) s).

Lemma newlines_app a b : newlines (a ++ b) = (newlines a + newlines b)%nat.
Proof. unfold newlines. by rewrite filter_app, length_app. Qed.

Lemma newlines_none s : Rows.no_char LF s -> newlines s = 0%nat.
Proof. intros Hs. unfold newlines. rewrite filter_none; [done|]. eapply Forall_impl; [exact Hs|]. done. Qed.

(** Text without control characters. *)
Definition clean (s : cstr) : Prop := Forall (fun c => 32 <= code c /\ code c <> 127) s.

Lemma sanitise_clean s : clean (sanitise s).
Proof.
  apply Forall_map, Forall_true. intros c. destruct ((code c <? 32) || (code c =? 127)) eqn:E; [by vm_compute|].
  apply orb_false_iff in E as [H1 H2]. apply Z.ltb_ge in H1. apply Z.eqb_neq in H2. done.
Qed.

Lemma clean_no_LF s : clean s -> Rows.no_char LF s.
Proof. intros Hs. eapply Forall_impl; [exact Hs|]. intros c [Hc _] ->. by vm_compute in Hc. Qed.

Lemma ulong_add a b : ulong (ulong a + b) = ulong (a + b).
Proof. unfold ulong. by rewrite Z.add_mod_idemp_l. Qed.

Lemma add_stats_add r f m t d r' f' m' t' d' s :
  add_stats r f m t d (add_stats r' f' m' t' d' s) = add_stats (r' + r) (f' + f) (m' + m) (t' + t) (d' + d) s.
Proof. unfold add_stats. cbn [received filtered malformed truncated dropped db_dropped db_errors]. by rewrite !ulong_add, !Z.add_assoc. Qed.

Definition in_range (s : logd_stats_t) : Prop :=
  ulong (received s) = received s /\ ulong (filtered s) = filtered s /\ ulong (malformed s) = malformed s /\
  ulong (truncated s) = truncated s /\ ulong (dropped s) = dropped s.

Lemma add_stats_nothing s : in_range s -> add_stats 0 0 0 0 0 s = s.
Proof. intros (H1 & H2 & H3 & H4 & H5). unfold add_stats. rewrite !Z.add_0_r, H1, H2, H3, H4, H5. by destruct s. Qed.

Lemma add_stats_in_range r f m t d s : in_range (add_stats r f m t d s).
Proof. unfold in_range, add_stats, ulong. cbn. by rewrite !Z.mod_mod by lia. Qed.

Section Lines.
Variable local_time : Z -> option cstr.
(** A formatted time is on one line. *)
Hypothesis local_time_line : forall now s, local_time now = Some s -> Rows.no_char LF s.

Lemma level_no_LF level : Rows.no_char LF (log_level_to_str level).
Proof. unfold log_level_to_str. repeat (destruct (level =? _); [by repeat constructor|]). by repeat constructor. Qed.

Lemma stamp_no_LF now : Rows.no_char LF (stamp local_time now).
Proof.
  unfold stamp. apply Forall_take. destruct (local_time now) as [s|] eqn:E; [by apply (local_time_line now)|]. by repeat constructor.
Qed.

Lemma log_line_newlines now m : clean (lm_msg m) -> newlines (log_line local_time now m) = 1%nat.
Proof.
  intros Hm. unfold log_line. rewrite !newlines_app, (newlines_none (stamp local_time now)), (newlines_none (log_level_to_str _)), (newlines_none (lm_msg m)).
  - rewrite (newlines_none (print_int _)); [done|]. eapply Forall_impl; [apply print_int_chars|]. by intros c Hc ->.
  - by apply clean_no_LF.
  - apply level_no_LF.
  - apply stamp_no_LF.
Qed.

(** The daemon over a list of datagrams with their arrival times. *)
Definition serve_all (o : logd_opts_t) (raws : list (Z * list ascii)) (d : logd) : logd :=
  foldl (fun d r => snd (serve_one local_time o true (fst r) (Datagram (snd r)) d)) d raws.

Definition fate_line (o : logd_opts_t) (r : Z * list ascii) : cstr :=
  match fate_of o (snd r) with Written m => log_line local_time (fst r) m | _ => [] end.

(** What one datagram does to the file and the counters. *)
Definition counted (o : logd_opts_t) (raw : list ascii) (s : logd_stats_t) : logd_stats_t :=
  add_stats (is_written (fate_of o raw)) (is_filtered (fate_of o raw)) (complaints raw) (was_cut raw) (believed raw) s.

Lemma serve_one_effect o now raw d :
  let d' := snd (serve_one local_time o true now (Datagram raw) d) in
  ld_out d' = ld_out d ++ fate_line o (now, raw) /\ ld_stats d' = counted o raw (ld_stats d).
Proof.
  unfold fate_line, counted, fate_of, believed, complaints, was_cut, serve_one, record_of. cbn [fst snd].
  destruct (length raw =? RECORD_SIZE)%nat; cbn [negb orb]; [|by rewrite app_nil_r].
  destruct (terminate (raw_msg raw)) as [msg forced]. cbn [fst snd].
  set (d1 := set_stats (if LOGD_DROP_CLAIM_MAX <? raw_dropped raw then _ else _) d).
  set (d2 := if forced then set_stats (add_stats 0 0 0 1 0 (ld_stats d1)) d1 else d1).
  set (c1 := if LOGD_DROP_CLAIM_MAX <? raw_dropped raw then 1 else 0). set (bel := if LOGD_DROP_CLAIM_MAX <? raw_dropped raw then 0 else raw_dropped raw).
  assert (H2 : ld_out d2 = ld_out d /\ ld_stats d2 = add_stats 0 0 c1 (if forced then 1 else 0) bel (ld_stats d)).
  { unfold d2, d1, c1, bel. destruct (LOGD_DROP_CLAIM_MAX <? raw_dropped raw), forced; cbn [set_stats ld_out ld_stats]; rewrite ?add_stats_add; split; try done; f_equal; lia. }
  clearbody d2. clear d1. destruct H2 as [O2 S2]. set (m := mkLog _ _ _ _).
  assert (Hemit : forall d0 k, ld_out d0 = ld_out d2 -> ld_stats d0 = add_stats 0 0 k 0 0 (ld_stats d2) ->
    let d' := snd (match emit local_time true now m d0 with
                   | (false, d) => (-1, d) | (true, d) => (1, set_stats (add_stats 1 0 0 0 0 (ld_stats d)) d) end) in
    ld_out d' = ld_out d ++ log_line local_time now m /\ ld_stats d' = add_stats 1 0 (c1 + k) (if forced then 1 else 0) bel (ld_stats d)).
  { intros d0 k HO HS. unfold emit, mirror_log_to_db. cbn [negb ld_sql]. destruct (ld_sql d0); cbn [snd set_stats ld_out ld_stats];
      rewrite HO, O2, HS, S2, !add_stats_add; (split; [done|]); f_equal; lia. }
  destruct (Z.ltb_spec (log_level_rank LOG_ERROR) (log_level_rank (raw_level raw))).
  - rewrite (proj2 (Z.leb_gt _ _)) by lia. cbn [andb is_written is_filtered].
    by apply (Hemit (set_stats (add_stats 0 0 1 0 0 (ld_stats d2)) d2) 1).
  - rewrite (proj2 (Z.leb_le _ _)) by lia. cbn [andb]. destruct (_ <? log_level_rank (min_level o)); cbn [is_written is_filtered].
    + cbn [snd set_stats ld_out ld_stats]. rewrite O2, S2, add_stats_add, app_nil_r. split; [done|]. f_equal; lia.
    + apply (Hemit d2 0); [done|]. symmetry. apply add_stats_nothing. rewrite S2. apply add_stats_in_range.
Qed.

Lemma serve_all_effect o raws d : in_range (ld_stats d) ->
  ld_out (serve_all o raws d) = ld_out d ++ concat (map (fate_line o) raws) /\
  ld_stats (serve_all o raws d) =
    add_stats (tally (fun r => is_written (fate_of o r)) raws) (tally (fun r => is_filtered (fate_of o r)) raws) (tally complaints raws)
      (tally was_cut raws) (tally believed raws) (ld_stats d).
Proof.
  unfold serve_all. revert d. induction raws as [|[now raw] raws IH]; intros d Hr; cbn [foldl map concat].
  - rewrite app_nil_r, add_stats_nothing; done.
  - destruct (serve_one_effect o now raw d) as [E1 E2]. cbn [fst snd].
    destruct (IH (snd (serve_one local_time o true now (Datagram raw) d))) as [-> ->]; [rewrite E2; apply add_stats_in_range|].
    rewrite E1, E2, <-app_assoc. unfold counted. by rewrite add_stats_add.
Qed.

(** C29: the log is the accepted records, one line each, and nothing else.
    Whatever datagrams arrive, the daemon appends exactly the lines of the
    records that are to be written, in order of arrival; no record can forge
    or split a line, so the file grows by as many line breaks as records were
    counted; every datagram is counted as written, filtered or of the wrong
    size, and the drop counter grows by the claims that are believed. *)
Theorem log_is_the_accepted_records o raws d : in_range (ld_stats d) ->
  let d' := serve_all o raws d in
  ld_out d' = ld_out d ++ concat (map (fate_line o) raws) /\
  Z.of_nat (newlines (ld_out d')) = Z.of_nat (newlines (ld_out d)) + tally (fun r => is_written (fate_of o r)) raws /\
  tally (fun r => is_written (fate_of o r)) raws + tally (fun r => is_filtered (fate_of o r)) raws + tally (fun r => is_wrong_size (fate_of o r)) raws
    = Z.of_nat (length raws) /\
  ld_stats d' =
    add_stats (tally (fun r => is_written (fate_of o r)) raws) (tally (fun r => is_filtered (fate_of o r)) raws) (tally complaints raws)
      (tally was_cut raws) (tally believed raws) (ld_stats d).
Proof.
  intros Hr. destruct (serve_all_effect o raws d Hr) as [E1 E2]. cbv zeta. rewrite E1, E2. split; [done|]. split; [|split; [|done]].
  - rewrite newlines_app, Nat2Z.inj_add. f_equal. clear d Hr E1 E2. induction raws as [|[now raw] raws IH]; [done|].
    cbn [map concat tally foldr]. rewrite newlines_app, Nat2Z.inj_add, IH. f_equal. unfold fate_line. cbn [fst snd].
    destruct (fate_of o raw) as [| |m] eqn:E; [done|done|]. rewrite log_line_newlines; [done|].
    unfold fate_of in E. destruct (negb _); [done|]. destruct (_ && _); [done|]. injection E as <-. apply sanitise_clean.
  - clear. induction raws as [|[now raw] raws IH]; [done|]. cbn [tally foldr length snd] in *. unfold tally in IH.
    destruct (fate_of o raw); cbn [is_written is_filtered is_wrong_size]; lia.
Qed.

End Lines.

(** Four datagrams: a record with a line break in its message, a debug record
    below the level, one of the wrong size and one of an unknown level with an
    incredible drop count and no terminator. *)
Definition le_bytes (n : nat) (z : Z) : list ascii := (fix go (n : nat) (z : Z) := match n with O => [] | S n' => ascii_of_N (Z.to_N (z mod 256)) :: go n' (z / 256) end) n z.
Definition datagram (pid level claim : Z) (msg : cstr) : list ascii :=
  le_bytes 4 pid ++ le_bytes 4 level ++ le_bytes 8 claim ++ take LOG_MSG_MAX (msg ++ replicate LOG_MSG_MAX "000"%char).
Definition sample_raws : list (Z * list ascii) :=
  [(10, datagram 7 LOG_INFO 3 ($"one" ++ LF :: $"[fake]")); (11, datagram 7 LOG_DEBUG 0 ($"quiet")); (12, $"short");
   (13, datagram 8 99 LONG_MAX (replicate LOG_MSG_MAX "x"%char))].
Definition sample_opts : logd_opts_t := mkOpts ($"s") ($"-") LOG_INFO false 30 0 [] [] [] 256.
Definition sample_logd : logd := mkLogd [] (Some []) 1 no_stats (mkWindow 0 no_stats).

Lemma log_is_the_accepted_records_witness :
  let d' := serve_all (fun _ => None) sample_opts sample_raws sample_logd in
  ld_stats d' = mkStats 2 1 3 1 3 0 0 /\ newlines (ld_out d') = 2%nat.
Proof.
  cbv zeta. destruct (log_is_the_accepted_records (fun _ => None) (fun _ _ (E : None = Some _) => ltac:(discriminate E))
    sample_opts sample_raws sample_logd) as (_ & Hn & _ & Hs).
  - repeat split.
  - rewrite Hs. split; [vm_compute; reflexivity|]. apply Nat2Z.inj. rewrite Hn. vm_compute. reflexivity.
Defined.

(** ** The mirror *)

(** A literal that fits does not depend on the size of its buffer. *)
Lemma db_quote_cap cap cap' s : (2 * length s + 3 <= cap)%nat -> (2 * length s + 3 <= cap')%nat -> Sql.db_quote cap s = Sql.db_quote cap' s.
Proof.
  intros H1 H2. unfold Sql.db_quote. rewrite !(proj2 (Nat.ltb_ge _ _)) by lia. do 2 f_equal.
  assert (H : forall w, (w + 2 * length s + 2 <= cap)%nat -> (w + 2 * length s + 2 <= cap')%nat -> Sql.quote_loop cap w s = Sql.quote_loop cap' w s).
  { clear. induction s as [|c s IH]; intros w H1 H2; [done|]. cbn [Sql.quote_loop length] in *.
    destruct (ceqb c QUOTE); rewrite !(proj2 (Nat.leb_le _ _)) by lia; f_equal; apply IH; lia. }
  apply H; lia.
Qed.

Definition status_word (level : Z) : cstr := remove_level_word_padding level 16.

(** The INSERT as the pieces of its format. *)
Definition mirror_pieces (id : Z) (m : log_msg_t) (now : Z) : list Sql.piece :=
  [Sql.Raw ($"insert into log values ("); Sql.Num id; Sql.Raw ($", "); Sql.Num (lm_pid m); Sql.Raw ($", "); Sql.Num now; Sql.Raw ($", ");
   Sql.Lit (status_word (lm_level m)); Sql.Raw ($", "); Sql.Lit (take LOGD_DB_STRING_MAX (lm_msg m)); Sql.Raw ($");")].

Lemma status_word_length level : (length (status_word level) <= 5)%nat.
Proof.
  unfold status_word, remove_level_word_padding, log_level_to_str.
  repeat (destruct (level =? _); [apply Nat.leb_le; vm_compute; reflexivity|]). apply Nat.leb_le; vm_compute; reflexivity.
Qed.

(** No record changes the statement it is mirrored with: read with SQL's
    quoting rule, it carries the level's word and the first 128 bytes of the
    message, byte for byte, and the buffer never cuts it. *)
Theorem mirror_is_injection_free id m now :
  Sql.lex_sql (mirror_sql id m now) = Some (Sql.toks [] (mirror_pieces id m now)).
Proof.
  pose proof (status_word_length (lm_level m)) as Hw.
  assert (Ht : (length (take LOGD_DB_STRING_MAX (lm_msg m)) <= 128)%nat) by (rewrite length_take; unfold LOGD_DB_STRING_MAX; lia).
  assert (E : mirror_sql id m now = Sql.render_all (mirror_pieces id m now)).
  { unfold mirror_sql. change (trunc (LOGD_DB_STRING_MAX + 1) (lm_msg m)) with (take LOGD_DB_STRING_MAX (lm_msg m)).
    change (remove_level_word_padding (lm_level m) 16) with (status_word (lm_level m)).
    rewrite (db_quote_cap _ Sql.QUOTE_MAX (status_word _)) by (unfold Sql.QUOTE_MAX; lia).
    rewrite (db_quote_cap _ Sql.QUOTE_MAX (take _ _)) by (unfold Sql.QUOTE_MAX, LOGD_DB_STRING_MAX in *; lia).
    unfold Sql.render_all, mirror_pieces. cbn [map concat Sql.render]. rewrite app_nil_r. apply trunc_id.
    rewrite (db_quote_cap Sql.QUOTE_MAX 35 (status_word _)) by (unfold Sql.QUOTE_MAX; lia).
    rewrite (db_quote_cap Sql.QUOTE_MAX 261 (take _ _)) by (unfold Sql.QUOTE_MAX, LOGD_DB_STRING_MAX in *; lia).
    pose proof (Sql.db_quote_length 35 (status_word (lm_level m)) ltac:(lia)). pose proof (Sql.db_quote_length 261 (take LOGD_DB_STRING_MAX (lm_msg m)) ltac:(lia)).
    pose proof (print_int_length id). pose proof (print_int_length (lm_pid m)). pose proof (print_int_length now).
    unfold LOGD_DB_STRING_MAX in *. rewrite !length_app. cbn -[Nat.add Sql.db_quote take]. lia. }
  rewrite E. apply Sql.lex_pieces; [|lia]. cbn [Sql.pieces_ok mirror_pieces Sql.render].
  repeat split; try apply Sql.print_int_no_quote; try (by repeat constructor); lia.
Qed.

(** ** Continuing the ids *)

Definition is_rule (l : cstr) : bool := Rows.starts_with ($"---") l.

Lemma seed_skip f l y ys : Rows.no_char LF l -> seed_loop (S f) (Rows.join_lines (l :: y :: ys)) false = seed_loop f (Rows.join_lines (y :: ys)) (is_rule l).
Proof.
  intros Hl. change (Rows.join_lines (l :: y :: ys)) with (l ++ LF :: Rows.join_lines (y :: ys)).
  cbn [seed_loop]. rewrite cut_found by (by intros Hin; eapply Forall_forall in Hl; [|exact Hin]). by destruct l.
Qed.

Lemma seed_value f p v rest : strtol p = (v, rest) -> rest <> p -> 0 <= v -> p <> [] -> seed_loop (S f) p true = v + 1.
Proof.
  intros E Hne Hv Hp. cbn [seed_loop]. destruct p; [done|]. destruct (cut LF _) as [line eol]. rewrite E, bool_decide_eq_false_2 by done.
  by rewrite (proj2 (Z.leb_le _ _)).
Qed.

Lemma is_rule_length l : is_rule l = true -> (3 <= length l)%nat.
Proof.
  unfold is_rule. destruct l as [|a [|b [|c l]]]; cbn -[ceqb]; [done| | |lia]; by destruct (ceqb _ _); try destruct (ceqb _ _).
Qed.

(** The lines above the table's rule are passed over. *)
Lemma seed_table pre header rule y ys : Forall (fun l => Rows.no_char LF l /\ is_rule l = false) (pre ++ [header]) -> Rows.no_char LF rule -> is_rule rule = true ->
  forall f, (length pre + 2 < f)%nat -> exists g, seed_loop f (Rows.join_lines (pre ++ header :: rule :: y :: ys)) false = seed_loop (S g) (Rows.join_lines (y :: ys)) true.
Proof.
  intros Hpre Hrule Hr. induction pre as [|p pre IH]; intros f Hf; cbn [app length] in *.
  - inversion Hpre as [|? ? [Hh Hn] _]; subst. destruct f as [|[|[|f]]]; try lia. exists f.
    rewrite seed_skip, Hn, seed_skip, Hr; done.
  - inversion Hpre as [|? ? [Hh Hn] Hpre']; subst. destruct f as [|f]; [lia|].
    destruct (IH Hpre' f ltac:(lia)) as [g E]. exists g. rewrite <-E.
    assert (exists z zs, pre ++ header :: rule :: y :: ys = z :: zs) as (z & zs & ->) by (destruct pre; by do 2 eexists).
    rewrite seed_skip, Hn; done.
Qed.

(** The mirror goes on where the table ends: on the printed answer to
    [select max(id)] the next id is the largest id plus one, and 1 for an
    empty table. *)
Theorem seed_continues pre header rule post (largest : option Z) :
  Forall (fun l => Rows.no_char LF l /\ is_rule l = false) (pre ++ [header]) -> Rows.no_char LF rule -> is_rule rule = true ->
  (forall v, largest = Some v -> 0 <= v <= LONG_MAX) ->
  db_seed_id (Rows.reply_body pre header rule (match largest with Some v => [[print_int v]] | None => [] end) post) =
    match largest with Some v => v + 1 | None => 1 end.
Proof.
  intros Hpre Hrule Hr Hv. unfold db_seed_id, Rows.reply_body, Rows.reply_lines. set (rows := match largest with Some v => _ | None => _ end).
  set (below := [] :: _ :: post).
  assert (exists y ys, map Rows.join_tab rows ++ below = y :: ys) as (y & ys & E) by (destruct (map Rows.join_tab rows); by do 2 eexists).
  rewrite E. edestruct seed_table as [g ->]; [exact Hpre|exact Hrule|exact Hr| |].
  { assert (Hlast : (length pre + 2 < length (pre ++ header :: rule :: y :: ys))%nat) by (rewrite length_app; cbn [length]; lia).
    pose proof (Printed.lines_sum_le (pre ++ header :: rule :: y :: ys)) as Hs.
    assert (Hge : (length (pre ++ header :: rule :: y :: ys) + 3 <= sum_list (map (fun l => S (length l)) (pre ++ header :: rule :: y :: ys)))%nat).
    { assert (Hall : forall ls : list cstr, (length ls <= sum_list (map (fun l => S (length l)) ls))%nat) by (induction ls; simpl in *; lia).
      rewrite map_app, sum_list_with_app. cbn [map sum_list_with length]. rewrite length_app. cbn [length].
      pose proof (Hall pre). pose proof (Hall ys). pose proof (is_rule_length rule Hr). simpl in *. lia. }
    lia. }
  rewrite <-E. subst rows below. destruct largest as [v|].
  - destruct (Hv v eq_refl) as [H0 H1]. cbn [map app]. change (Rows.join_tab [print_int v]) with (print_int v).
    match goal with |- seed_loop _ (Rows.join_lines (?a :: ?b :: ?c)) _ = _ =>
      change (Rows.join_lines (a :: b :: c)) with (a ++ LF :: Rows.join_lines (b :: c)); set (rest := Rows.join_lines (b :: c)) end.
    apply (seed_value _ _ v (LF :: rest)); [| |done|by destruct (print_int v) eqn:Ev].
    + apply strtol_print_int; [unfold LONG_MIN in *; lia|done].
    + intros E'%(f_equal length). rewrite length_app in E'. pose proof (print_int_nonempty v). destruct (print_int v); [done|]. simpl in E'. lia.
  - apply (seed_value _ _ 0 ($" rows." ++ match post with [] => [] | _ => LF :: Rows.join_lines post end)); [|by destruct post|lia|done].
    by destruct post.
Qed.

End Logd.
