(* ===== verification/Ballotd.v ===== *)
(** * The daemon's threads and processes: ballotd/main.c, control_plane.c

    One session process per voter connection, the listener, the control
    thread and [admin_thread], which owns the store, run side by side; the
    pipes and socketpairs between them are queues.  A step is one action of one
    of them, at the granularity of one message; a run is any sequence of steps.
    A descriptor is named by the connection it belongs to, since the kernel
    recycles the numbers. *)
From S2P Require Import Prelude CText Types Rows Sql Wire Server BrainDb Brain Htttp Codec Daemon.
Import Rows Sql Wire Server BrainDb Brain Htttp Codec Daemon.

Module Ballotd.

Definition MAX_WORKERS : nat := 254.
Definition REAP_TIMEOUT_MS : Z := 500.

(** ** The state *)

(** [ballot_session] between two frames, waiting for [admin_thread]'s answer
    to the frame [buf], or gone. *)
Inductive doing := Idle | Waiting (buf : list ascii) (op : bcl_op_t) | Exited.

(** What became of a frame: answered by the session itself, never handed to
    the store, or served as the [k]-th call of the history. *)
Inductive outcome := Refused | Unserved | Served (k : nat).

Record entry := mkEntry { en_buf : list ascii; en_out : outcome; en_answer : option (list ascii) }.

(** A session process and its socketpair.  [pr_up] and [pr_down] are the
    messages under way; [pr_open]: [admin_thread]'s end is open.  Kept for the
    theorems: [pr_closes] and [pr_reaps] count how often that end was closed and
    the process reaped, [pr_serial] is the history index of the answer under
    way, [pr_log] the frames dealt with. *)
Record proc := mkProc {
  pr_name : cstr; pr_doing : doing; pr_up : list bcl_request_t; pr_down : list bcl_response_t; pr_open : bool;
  pr_closes : nat; pr_reaps : nat; pr_serial : option nat; pr_log : list entry }.

(** A control connection: its frame, and what was answered. *)
Record conn := mkCtl { cn_frame : list ascii; cn_closes : nat; cn_out : option outcome; cn_answer : option (list ascii) }.

(** One entry of [g_fds] and [g_pids].  [sl_turns] counts how often the loop
    attended to it since the last [poll]. *)
Record slot := mkSlot { sl_worker : nat; sl_revents : bool; sl_turns : nat }.

(** Where [admin_thread] is: in [poll], in one of the three parts of the loop's
    body, in [admin_teardown], returned.  [ctl_ready]: [poll] reported the
    control pipe too. *)
Inductive place := Polling | Registering (ctl_ready : bool) | Serving_ctl | Scanning (i : nat) | Tearing_down | Stopped.

Inductive origin := Voter (i : nat) | Admin (j : nat).
Record call := mkCall { c_from : origin; c_req : bcl_request_t; c_resp : bcl_response_t }.

(** [d_notify], [d_ctl]: the pipes [g_notify] and [g_ctl_notify].
    [d_accepting]: the listener and the control thread still run.  [d_hist]
    records the calls made on the store. *)
Record daemon := mkDaemon {
  d_procs : list proc; d_conns : list conn; d_notify : list nat; d_ctl : list (nat * bcl_request_t);
  d_accepting : bool; d_quit : bool; d_at : place; d_table : list slot; d_store : world; d_hist : list call }.

Definition initial (w : world) : daemon := mkDaemon [] [] [] [] true false Polling [] w [].

Definition set_procs x d := mkDaemon x (d_conns d) (d_notify d) (d_ctl d) (d_accepting d) (d_quit d) (d_at d) (d_table d) (d_store d) (d_hist d).
Definition set_at x d := mkDaemon (d_procs d) (d_conns d) (d_notify d) (d_ctl d) (d_accepting d) (d_quit d) x (d_table d) (d_store d) (d_hist d).
Definition set_table x d := mkDaemon (d_procs d) (d_conns d) (d_notify d) (d_ctl d) (d_accepting d) (d_quit d) (d_at d) x (d_store d) (d_hist d).
Definition set_notify x d := mkDaemon (d_procs d) (d_conns d) x (d_ctl d) (d_accepting d) (d_quit d) (d_at d) (d_table d) (d_store d) (d_hist d).
Definition set_ctl x d := mkDaemon (d_procs d) (d_conns d) (d_notify d) x (d_accepting d) (d_quit d) (d_at d) (d_table d) (d_store d) (d_hist d).
Definition set_conns x d := mkDaemon (d_procs d) x (d_notify d) (d_ctl d) (d_accepting d) (d_quit d) (d_at d) (d_table d) (d_store d) (d_hist d).
Definition set_flags a q d := mkDaemon (d_procs d) (d_conns d) (d_notify d) (d_ctl d) a q (d_at d) (d_table d) (d_store d) (d_hist d).
Definition set_store w h d := mkDaemon (d_procs d) (d_conns d) (d_notify d) (d_ctl d) (d_accepting d) (d_quit d) (d_at d) (d_table d) w h.

Section Ballotd.
Context `{R : Runner}.

(** The clock where a date header is written: the [n]-th answer of session
    [i], the answer to control connection [j]. *)
Variable dates : nat -> nat -> option cstr.
Variable ctl_dates : nat -> option cstr.

(** ** A session process *)

(** The request a frame becomes under the session's name, or [None]. *)
Definition admitted (name : cstr) (buf : list ascii) : option bcl_request_t :=
  match htttp_parse_request buf with
  | HErr _ => None
  | HOk http =>
    match bcl_decode_request http with
    | None => None
    | Some req => if is_voter_op (cr_op req) then Some (set_identity name req) else None
    end
  end.

(** [handle_request] up to the wait for [admin_thread].  Once that end is
    closed the request goes nowhere: the write fails, or it fills a buffer
    nobody reads, since sessions forked later inherit a copy of the end.  The
    session then waits: until [take_answer] finds the end closed (at once where
    the write failed), or for ever while such a copy is open, which is a run
    without that step. *)
Definition take_frame (i : nat) (buf : list ascii) (p : proc) : proc :=
  let date := dates i (length (pr_log p)) in
  match pr_doing p with
  | Idle =>
    match admitted (pr_name p) buf with
    | None => mkProc (pr_name p) Idle (pr_up p) (pr_down p) (pr_open p) (pr_closes p) (pr_reaps p) (pr_serial p)
                (pr_log p ++ [mkEntry buf Refused (reply_raw date 400)])
    | Some req =>
      mkProc (pr_name p) (Waiting buf (cr_op req)) (pr_up p ++ if pr_open p then [req] else []) (pr_down p) (pr_open p) (pr_closes p) (pr_reaps p)
        (pr_serial p) (pr_log p)
    end
  | _ => p
  end.

(** The rest of it, once an answer is there or the other end is seen closed. *)
Definition take_answer (i : nat) (p : proc) : proc :=
  let date := dates i (length (pr_log p)) in
  let note down serial buf out answer := mkProc (pr_name p) Idle (pr_up p) down (pr_open p) (pr_closes p) (pr_reaps p) serial
                                           (pr_log p ++ [mkEntry buf out answer]) in
  match pr_doing p, pr_down p, pr_serial p with
  | Waiting buf op, resp :: down, Some k => note down None buf (Served k) (bcl_encode_response date op resp SESSION_MAX_FRAME)
  | Waiting buf op, [], _ => if pr_open p then p else note [] (pr_serial p) buf Unserved None
  | _, _, _ => p
  end.

Definition die (p : proc) : proc := mkProc (pr_name p) Exited (pr_up p) (pr_down p) (pr_open p) (pr_closes p) (pr_reaps p) (pr_serial p) (pr_log p).

(** ** The listener and the control thread *)

(** [listener_thread] after [fork]: the session, once its voter is
    authenticated as [name], and its [NewWorker] in the pipe. *)
Definition listener_accept (name : cstr) (d : daemon) : daemon :=
  set_notify (d_notify d ++ [length (d_procs d)]) (set_procs (d_procs d ++ [mkProc name Idle [] [] true 0 0 None []]) d).

(** [handle_conn] on a frame; [notified]: the write to the pipe succeeds. *)
Definition ctl_accept (frame : list ascii) (notified : bool) (d : daemon) : daemon :=
  let j := length (d_conns d) in
  let direct status := set_conns (d_conns d ++ [mkCtl frame 1 (Some Refused) (reply_raw (ctl_dates j) status)]) d in
  match htttp_parse_request frame with
  | HErr _ => direct 400%Z
  | HOk http =>
    match bcl_decode_request http with
    | None => direct 400%Z
    | Some req =>
      if negb (is_ctl_op (cr_op req)) then direct 400%Z
      else if notified then set_ctl (d_ctl d ++ [(j, req)]) (set_conns (d_conns d ++ [mkCtl frame 0 None None]) d)
      else direct 500%Z
    end
  end.

(** ** admin_thread *)

(** [reap_bounded]: [waits n] tells whether the [n]-th [waitpid] finds the
    process gone; the result, whether [SIGKILL] was sent.  In both cases the
    process is reaped on return. *)
Fixpoint reap_poll (fuel : nat) (waits : nat -> bool) (waited timeout_ms : Z) (n : nat) : bool :=
  match fuel with
  | O => true
  | S f => if (waited <? timeout_ms)%Z then if waits n then false else reap_poll f waits (waited + 10) timeout_ms (S n) else true
  end.
Definition reap_bounded (waits : nat -> bool) (timeout_ms : Z) : bool := reap_poll (Z.to_nat timeout_ms) waits 0 timeout_ms 0.

Definition close_worker (p : proc) : proc :=
  mkProc (pr_name p) (pr_doing p) [] (pr_down p) false (S (pr_closes p)) (pr_reaps p) (pr_serial p) (pr_log p).
Definition reap_worker (p : proc) : proc :=
  mkProc (pr_name p) Exited (pr_up p) (pr_down p) (pr_open p) (pr_closes p) (S (pr_reaps p)) (pr_serial p) (pr_log p).

(** Closed and reaped, as [drop_worker] and [admin_teardown] do. *)
Definition discard (i : nat) (d : daemon) : daemon := set_procs (alter (fun p => reap_worker (close_worker p)) i (d_procs d)) d.

Definition drop_worker (i : nat) (d : daemon) : daemon :=
  match d_table d !! i, last (d_table d) with
  | Some s, Some moved => set_table (removelast (<[i := moved]> (d_table d))) (discard (sl_worker s) d)
  | _, _ => d
  end.

Definition worker_ready (procs : list proc) (i : nat) : bool :=
  match procs !! i with
  | Some p => match pr_up p, pr_doing p with _ :: _, _ | [], Exited => true | [], _ => false end
  | None => false
  end.

(** [poll]: what is ready is flagged, teardown comes first, and with nothing
    ready the thread stays where it is. *)
Definition admin_poll (d : daemon) : daemon :=
  if d_quit d then set_at Tearing_down d
  else
    let table := map (fun s => mkSlot (sl_worker s) (worker_ready (d_procs d) (sl_worker s)) 0) (d_table d) in
    let new := match d_notify d with [] => false | _ => true end in
    let ctl := match d_ctl d with [] => false | _ => true end in
    if negb (new || ctl || existsb sl_revents table) then d
    else set_at (if new then Registering ctl else if ctl then Serving_ctl else Scanning 0) (set_table table d).

(** One turn of the loop over [g_notify]. *)
Definition admin_register (ctl_ready : bool) (d : daemon) : daemon :=
  match d_notify d with
  | [] => set_at (if ctl_ready then Serving_ctl else Scanning 0) d
  | i :: rest =>
    let d := set_notify rest d in
    if (length (d_table d) <=? MAX_WORKERS - 1)%nat then set_table (d_table d ++ [mkSlot i false 0]) d
    else set_procs (alter close_worker i (d_procs d)) d
  end.

Definition finish (k : nat) (answer : option (list ascii)) (c : conn) : conn := mkCtl (cn_frame c) (S (cn_closes c)) (Some (Served k)) answer.

(** One turn of the loop over [g_ctl_notify]: [handle_ctl_req]. *)
Definition admin_ctl (d : daemon) : daemon :=
  match d_ctl d with
  | [] => set_at (Scanning 0) d
  | (j, req) :: rest =>
    let '(resp, w) := ballotd_dispatch req (d_store d) in
    let k := length (d_hist d) in
    set_conns (alter (finish k (bcl_encode_response (ctl_dates j) (cr_op req) resp CTL_MAX_FRAME)) j (d_conns d))
      (set_store w (d_hist d ++ [mkCall (Admin j) req resp]) (set_ctl rest d))
  end.

(** The request read and the answer written; the write fails when the process
    is gone. *)
Definition served_by (k : nat) (resp : bcl_response_t) (p : proc) : proc :=
  mkProc (pr_name p) (pr_doing p) (tail (pr_up p)) (match pr_doing p with Exited => pr_down p | _ => pr_down p ++ [resp] end) (pr_open p)
    (pr_closes p) (pr_reaps p) (Some k) (pr_log p).

Definition attend (s : slot) : slot := mkSlot (sl_worker s) (sl_revents s) (S (sl_turns s)).

(** One turn of the loop over the workers. *)
Definition admin_scan (i : nat) (d : daemon) : daemon :=
  match d_table d !! i with
  | None => set_at Polling d
  | Some s =>
    if negb (sl_revents s) then set_at (Scanning (S i)) d
    else
      match d_procs d !! sl_worker s with
      | None => d
      | Some p =>
        match pr_up p with
        | req :: _ =>
          let '(resp, w) := ballotd_dispatch req (d_store d) in
          let k := length (d_hist d) in
          set_at (Scanning (S i)) (set_table (alter attend i (d_table d))
            (set_procs (alter (served_by k resp) (sl_worker s) (d_procs d)) (set_store w (d_hist d ++ [mkCall (Voter (sl_worker s)) req resp]) d)))
        | [] => match pr_doing p with Exited => drop_worker i d | _ => d end
        end
      end
  end.

Definition closed_unanswered (c : conn) : conn := mkCtl (cn_frame c) (S (cn_closes c)) (Some Unserved) None.

(** One turn of one of the three loops of [admin_teardown]. *)
Definition admin_teardown (d : daemon) : daemon :=
  match d_notify d, d_ctl d, last (d_table d) with
  | i :: rest, _, _ => discard i (set_notify rest d)
  | [], (j, _) :: rest, _ => set_conns (alter closed_unanswered j (d_conns d)) (set_ctl rest d)
  | [], [], Some s => set_table (removelast (d_table d)) (discard (sl_worker s) d)
  | [], [], None => set_at Stopped d
  end.

Definition admin_step (d : daemon) : daemon :=
  match d_at d with
  | Polling => admin_poll d
  | Registering ctl_ready => admin_register ctl_ready d
  | Serving_ctl => admin_ctl d
  | Scanning i => admin_scan i d
  | Tearing_down => admin_teardown d
  | Stopped => d
  end.

(** ** Runs *)

(** [Poll_fails]: [poll] returns an error other than EINTR, and the thread
    leaves its loop.  [Threads_joined]: both accepting threads have returned;
    [Main_quits]: [main] then writes to [g_admin_quit]. *)
Inductive action :=
  | Accept (name : cstr) | Control (frame : list ascii) (notified : bool)
  | Frame (i : nat) (buf : list ascii) | Answer (i : nat) | Die (i : nat)
  | Admin_moves | Poll_fails | Threads_joined | Main_quits.

Definition step (d : daemon) (a : action) : daemon :=
  match a with
  | Accept name => if d_accepting d then listener_accept name d else d
  | Control frame notified => if d_accepting d then ctl_accept frame notified d else d
  | Frame i buf => set_procs (alter (take_frame i buf) i (d_procs d)) d
  | Answer i => set_procs (alter (take_answer i) i (d_procs d)) d
  | Die i => set_procs (alter die i (d_procs d)) d
  | Admin_moves => admin_step d
  | Poll_fails => match d_at d with Polling => set_at Tearing_down d | _ => d end
  | Threads_joined => set_flags false (d_quit d) d
  | Main_quits => if d_accepting d then d else set_flags false true d
  end.

Definition run (acts : list action) (w : world) : daemon := foldl step (initial w) acts.

End Ballotd.
End Ballotd.
