(* ===== verification/Threads.v ===== *)
(** * One store behind many processes

    Whatever the interleaving of sessions, threads and their deaths, the store
    changes as if the calls had been made one at a time, and every answer is
    that of its call ([Serial]); every descriptor is closed once, the loop never
    waits for a worker that has nothing to say, and every worker [poll] reports
    is attended to once ([Ledger]). *)
From S2P Require Import Prelude CText Types Rows Sql Wire Server BrainDb Brain Fixture Htttp Codec Daemon Frame Channels Ballotd.
Import Rows Sql Wire Server BrainDb Brain Htttp Codec Daemon Ballotd.

Module Threads.

#[global] Instance origin_eq_dec : EqDecision origin.
Proof. solve_decision. Defined.

Section Serial.
Context `{R : Runner} (dates : nat -> nat -> option cstr) (ctl_dates : nat -> option cstr) (w0 : world).

(** The store after the first [k] calls of a history. *)
Definition world_at (h : list call) (k : nat) : world := foldl (fun w c => snd (ballotd_dispatch (c_req c) w)) w0 (take k h).

(** The positions of one origin's calls. *)
Definition calls_of (o : origin) (h : list call) : list nat :=
  omap (fun '(k, c) => if decide (c_from c = o) then Some k else None) (zip (seq 0 (length h)) h).

(** The positions a session's log names. *)
Definition served (log : list entry) : list nat := omap (fun e => match en_out e with Served k => Some k | _ => None end) log.

Lemma world_at_app h c k : (k <= length h)%nat -> world_at (h ++ [c]) k = world_at h k.
Proof. intros Hk. unfold world_at. by rewrite take_app_le. Qed.

Lemma world_at_snoc h c : world_at (h ++ [c]) (S (length h)) = snd (ballotd_dispatch (c_req c) (world_at h (length h))).
Proof. unfold world_at. rewrite !take_ge by (rewrite ?length_app; simpl; lia). by rewrite foldl_app. Qed.

Lemma calls_of_snoc o h c : calls_of o (h ++ [c]) = calls_of o h ++ (if decide (c_from c = o) then [length h] else []).
Proof.
  unfold calls_of. rewrite length_app, seq_app, zip_with_app by (by rewrite length_seq). rewrite omap_app. f_equal.
  cbn. by destruct (decide _).
Qed.

Lemma served_snoc log e : served (log ++ [e]) = served log ++ match en_out e with Served k => [k] | _ => [] end.
Proof. unfold served. rewrite omap_app. f_equal. cbn. by destruct (en_out e). Qed.

(** The control channel's counterpart of [admitted]. *)
Definition ctl_admitted (frame : list ascii) : option bcl_request_t :=
  match htttp_parse_request frame with
  | HErr _ => None
  | HOk http => match bcl_decode_request http with Some req => if is_ctl_op (cr_op req) then Some req else None | None => None end
  end.

(** ** The invariant *)

Definition hist_ok (h : list call) (w : world) : Prop :=
  (forall k c, h !! k = Some c -> c_resp c = fst (ballotd_dispatch (c_req c) (world_at h k))) /\ w = world_at h (length h).

Definition entry_ok (h : list call) (i : nat) (name : cstr) (n : nat) (e : entry) : Prop :=
  match en_out e with
  | Refused => admitted name (en_buf e) = None /\ en_answer e = reply_raw (dates i n) 400
  | Unserved => is_Some (admitted name (en_buf e)) /\ en_answer e = None
  | Served k => exists req resp, admitted name (en_buf e) = Some req /\ h !! k = Some (mkCall (Voter i) req resp) /\
      en_answer e = bcl_encode_response (dates i n) (cr_op req) resp SESSION_MAX_FRAME
  end.

(** A request under way, an answer under way, or nothing any more. *)
Definition under_way (h : list call) (i : nat) (p : proc) (req : bcl_request_t) : Prop :=
  (pr_up p = [req] /\ pr_down p = [] /\ pr_serial p = None /\ pr_open p = true) \/
  (exists k resp, pr_up p = [] /\ pr_down p = [resp] /\ pr_serial p = Some k /\ h !! k = Some (mkCall (Voter i) req resp)) \/
  (pr_up p = [] /\ pr_down p = [] /\ pr_serial p = None /\ pr_open p = false).

Record proc_ok (h : list call) (i : nat) (p : proc) : Prop := {
  po_log : forall n e, pr_log p !! n = Some e -> entry_ok h i (pr_name p) n e;
  po_calls : calls_of (Voter i) h = served (pr_log p) ++ option_list (pr_serial p);
  po_doing : match pr_doing p with
             | Idle => pr_up p = [] /\ pr_down p = [] /\ pr_serial p = None
             | Waiting buf op => exists req, admitted (pr_name p) buf = Some req /\ op = cr_op req /\ under_way h i p req
             | Exited => pr_up p = [] \/ exists req, pr_up p = [req] /\ pr_serial p = None
             end }.

Definition conn_ok (h : list call) (pending : list (nat * bcl_request_t)) (j : nat) (c : conn) : Prop :=
  match cn_out c with
  | None => cn_closes c = 0%nat /\ cn_answer c = None /\ calls_of (Admin j) h = [] /\ exists req, ctl_admitted (cn_frame c) = Some req /\ (j, req) ∈ pending
  | Some Refused => cn_closes c = 1%nat /\ calls_of (Admin j) h = [] /\ forall w, handle_conn (ctl_dates j) false (cn_frame c) w = (cn_answer c, w)
  | Some Unserved => cn_closes c = 1%nat /\ cn_answer c = None /\ calls_of (Admin j) h = []
  | Some (Served k) => cn_closes c = 1%nat /\ calls_of (Admin j) h = [k] /\ exists req resp, ctl_admitted (cn_frame c) = Some req /\
      h !! k = Some (mkCall (Admin j) req resp) /\ cn_answer c = bcl_encode_response (ctl_dates j) (cr_op req) resp CTL_MAX_FRAME
  end.

Record serial_ok (d : daemon) : Prop := {
  so_hist : hist_ok (d_hist d) (d_store d);
  so_from : forall c, c ∈ d_hist d -> match c_from c with Voter i => (i < length (d_procs d))%nat | Admin j => (j < length (d_conns d))%nat end;
  so_procs : forall i p, d_procs d !! i = Some p -> proc_ok (d_hist d) i p;
  so_conns : forall j c, d_conns d !! j = Some c -> conn_ok (d_hist d) (d_ctl d) j c;
  so_pending : NoDup (map fst (d_ctl d)) /\ forall j req, (j, req) ∈ d_ctl d ->
    exists c, d_conns d !! j = Some c /\ cn_out c = None /\ ctl_admitted (cn_frame c) = Some req }.

(** ** One process at a time *)

Lemma entry_ok_app h c i name n e : entry_ok h i name n e -> entry_ok (h ++ [c]) i name n e.
Proof.
  unfold entry_ok. destruct (en_out e); [done..|]. intros (req & resp & H1 & H2 & H3). exists req, resp. split; [done|]. split; [|done].
  by apply lookup_app_l_Some.
Qed.

Lemma proc_ok_app h c i p : c_from c <> Voter i -> proc_ok h i p -> proc_ok (h ++ [c]) i p.
Proof.
  intros Hc [H1 H2 H3]. split.
  - intros n e He. by apply entry_ok_app, H1.
  - rewrite calls_of_snoc, decide_False, app_nil_r by done. done.
  - destruct (pr_doing p); [done| |done]. destruct H3 as (req & Ha & Ho & [?|[(k & resp & ? & ? & ? & ?)|?]]); exists req; unfold under_way; [tauto| |tauto].
    do 2 (split; [done|]). right. left. exists k, resp. repeat split; try done. by apply lookup_app_l_Some.
Qed.

(** A log with one more entry. *)
Lemma log_snoc h i name log e : (forall n e, log !! n = Some e -> entry_ok h i name n e) -> entry_ok h i name (length log) e ->
  forall n e', (log ++ [e]) !! n = Some e' -> entry_ok h i name n e'.
Proof.
  intros H1 H2 n e'. rewrite lookup_app_Some. intros [?|[Hn He]]; [by apply H1|].
  destruct (n - length log)%nat eqn:E; [|done]. cbn in He. injection He as <-. replace n with (length log) by lia. done.
Qed.

Lemma take_frame_ok h i buf p : proc_ok h i p -> proc_ok h i (take_frame dates i buf p).
Proof.
  intros [H1 H2 H3]. unfold take_frame. destruct (pr_doing p) eqn:Ed; [|by split; rewrite ?Ed..]. destruct H3 as (Hu & Hd & Hs).
  destruct (admitted (pr_name p) buf) as [req|] eqn:Ea; split; cbn [pr_log pr_name pr_doing pr_serial pr_up pr_down pr_open]; try done.
  - exists req. do 2 (split; [done|]). unfold under_way. cbn [pr_up pr_down pr_serial pr_open]. rewrite Hu.
    destruct (pr_open p); [by left|by right; right].
  - by apply log_snoc.
  - by rewrite served_snoc, app_nil_r.
Qed.

Lemma take_answer_ok h i p : proc_ok h i p -> proc_ok h i (take_answer dates i p).
Proof.
  intros Hp. pose proof Hp as [H1 H2 H3]. unfold take_answer. destruct (pr_doing p) as [|buf op|] eqn:Ed; [done| |done].
  destruct H3 as (req & Ha & -> & [(Hu & Hd & Hs & Ho)|[(k & resp & Hu & Hd & Hs & Hk)|(Hu & Hd & Hs & Ho)]]); rewrite Hd, Hs.
  - by rewrite Ho.
  - split; cbn [pr_log pr_name pr_doing pr_serial pr_up pr_down pr_open]; [| |done].
    + apply log_snoc; [done|]. by exists req, resp.
    + rewrite served_snoc. cbn. by rewrite app_nil_r, H2, Hs.
  - rewrite Ho. split; cbn [pr_log pr_name pr_doing pr_serial pr_up pr_down pr_open]; [| |done].
    + apply log_snoc; [done|]. split; [by eexists|done].
    + by rewrite served_snoc, app_nil_r, H2, Hs.
Qed.

Lemma die_ok h i p : proc_ok h i p -> proc_ok h i (die p).
Proof.
  intros [H1 H2 H3]. split; [done..|]. cbn [die pr_doing pr_up pr_serial].
  destruct (pr_doing p); [left; tauto|destruct H3 as (req & _ & _ & [(? & _ & ? & _)|[(k & resp & ? & _)|(? & _)]]); eauto|done].
Qed.

Lemma close_ok h i p : proc_ok h i p -> proc_ok h i (close_worker p).
Proof.
  intros [H1 H2 H3]. split; [done..|]. cbn [close_worker pr_doing pr_name pr_up pr_down pr_serial].
  destruct (pr_doing p); [tauto| |by left]. destruct H3 as (req & Ha & Ho & Hw). exists req. do 2 (split; [done|]).
  unfold under_way in *. cbn [close_worker pr_up pr_down pr_serial pr_open].
  destruct Hw as [(_ & ? & ? & _)|[(k & resp & _ & ? & ? & ?)|(_ & ? & ? & _)]]; eauto 10.
Qed.

Lemma reap_ok h i p : proc_ok h i p -> proc_ok h i (reap_worker p).
Proof. intros Hp. destruct (die_ok h i p Hp) as [H1 H2 H3]. by split. Qed.

(** The call made for a worker. *)
Lemma served_ok h i p req up resp : proc_ok h i p -> pr_up p = req :: up ->
  proc_ok (h ++ [mkCall (Voter i) req resp]) i (served_by (length h) resp p).
Proof.
  intros [H1 H2 H3] Hup.
  assert (Hs : pr_serial p = None /\ up = []).
  { destruct (pr_doing p); [destruct H3; congruence| |].
    - destruct H3 as (r & _ & _ & [(Hu & _ & ? & _)|[(k & rr & ? & _)|(? & _)]]); split; congruence.
    - destruct H3 as [?|(r & ? & ?)]; split; congruence. }
  destruct Hs as [Hs ->]. split; cbn [served_by pr_log pr_name pr_doing pr_serial pr_up pr_down pr_open].
  - intros n e He. by apply entry_ok_app, H1.
  - rewrite calls_of_snoc, decide_True, H2, Hs by done. cbn. by rewrite app_nil_r.
  - rewrite Hup. cbn [tail]. destruct (pr_doing p) as [|buf op|] eqn:Ed; [destruct H3; congruence| |by left].
    destruct H3 as (r & Ha & Ho & [(Hu & Hd & _)|[(k & rr & Hu & _)|(Hu & _)]]); [|congruence..].
    rewrite Hup in Hu. injection Hu as ->. exists r. do 2 (split; [done|]). right. left. exists (length h), resp. cbn. rewrite Hup, Hd, Ed.
    do 3 (split; [done|]). by rewrite lookup_app_r, Nat.sub_diag by done.
Qed.

Lemma alter_ok h (f : proc -> proc) i (procs : list proc) : (forall j p, proc_ok h j p -> proc_ok h j (f p)) ->
  (forall j p, procs !! j = Some p -> proc_ok h j p) -> forall j p, alter f i procs !! j = Some p -> proc_ok h j p.
Proof.
  intros Hf Hp j p. destruct (decide (i = j)) as [->|Hij]; [|rewrite list_lookup_alter_ne by done; apply Hp].
  rewrite list_lookup_alter_eq. destruct (procs !! j) as [q|] eqn:E; cbn; [|done]. intros [= <-]. by apply Hf, Hp.
Qed.

(** ** Every step *)

Lemma serial_procs d procs : serial_ok d -> length procs = length (d_procs d) -> (forall i p, procs !! i = Some p -> proc_ok (d_hist d) i p) ->
  serial_ok (set_procs procs d).
Proof. intros [H1 H2 H3 H4 H5] Hl Hp. split; cbn; [done| |done..]. intros c Hc. specialize (H2 c Hc). by rewrite Hl. Qed.

Lemma serial_alter d f i : (forall j p, proc_ok (d_hist d) j p -> proc_ok (d_hist d) j (f p)) -> serial_ok d ->
  serial_ok (set_procs (alter f i (d_procs d)) d).
Proof. intros Hf Hd. apply serial_procs; [done|apply length_alter|]. apply alter_ok; [done|]. apply (so_procs _ Hd). Qed.

(** Steps that touch none of this. *)
Lemma serial_frame d d' : serial_ok d -> d_procs d' = d_procs d -> d_conns d' = d_conns d -> d_ctl d' = d_ctl d -> d_hist d' = d_hist d -> d_store d' = d_store d ->
  serial_ok d'.
Proof. intros [H1 H2 H3 H4 H5] E1 E2 E3 E4 E5. split; rewrite ?E1, ?E2, ?E3, ?E4, ?E5; done. Qed.

Lemma calls_of_none o h : (forall c, c ∈ h -> c_from c <> o) -> calls_of o h = [].
Proof.
  induction h as [|c h IH] using rev_ind; [done|]. intros Hc. rewrite calls_of_snoc, decide_False; [rewrite IH; [done|]|]; intros; apply Hc; set_solver.
Qed.

Lemma accept_ok name d : serial_ok d -> serial_ok (listener_accept name d).
Proof.
  intros [H1 H2 H3 H4 H5]. split; cbn; [done| | |done..].
  - intros c Hc. specialize (H2 c Hc). rewrite length_app. destruct (c_from c); [lia|done].
  - intros i p. rewrite lookup_app_Some. intros [?|[Hl Hp]]; [by apply H3|].
    destruct (i - length (d_procs d))%nat eqn:E; [|done]. injection Hp as <-. split; [done| |done].
    apply calls_of_none. intros c Hc Hf. specialize (H2 c Hc). rewrite Hf in H2. lia.
Qed.

Lemma conn_ok_pending h q q' j c : (forall req, (j, req) ∈ q -> (j, req) ∈ q') -> conn_ok h q j c -> conn_ok h q' j c.
Proof. intros Hq. unfold conn_ok. destruct (cn_out c) as [[]|]; [done..|]. intros (? & ? & ? & req & ? & ?). eauto 10. Qed.

Lemma conns_snoc d c q : serial_ok d -> (forall j req, (j, req) ∈ d_ctl d -> (j, req) ∈ q) -> conn_ok (d_hist d) q (length (d_conns d)) c ->
  forall j c', (d_conns d ++ [c]) !! j = Some c' -> conn_ok (d_hist d) q j c'.
Proof.
  intros Hd Hq Hc j c'. rewrite lookup_app_Some. intros [?|[Hl Hp]]; [eapply conn_ok_pending; [apply Hq|]; by apply (so_conns _ Hd)|].
  destruct (j - length (d_conns d))%nat eqn:E; [|done]. injection Hp as <-. replace j with (length (d_conns d)) by lia. done.
Qed.

Lemma from_conns d c : serial_ok d -> forall k, k ∈ d_hist d ->
  match c_from k with Voter i => (i < length (d_procs d))%nat | Admin j => (j < length (d_conns d ++ [c : conn]))%nat end.
Proof. intros Hd k Hk. pose proof (so_from _ Hd k Hk). rewrite length_app. destruct (c_from k); [done|lia]. Qed.

Lemma control_ok frame notified d : serial_ok d -> serial_ok (ctl_accept ctl_dates frame notified d).
Proof.
  intros Hd. assert (Hnew : calls_of (Admin (length (d_conns d))) (d_hist d) = []).
  { apply calls_of_none. intros c Hc Hf. pose proof (so_from _ Hd c Hc) as Hl. rewrite Hf in Hl. lia. }
  assert (Hdirect : forall status, (forall w, handle_conn (ctl_dates (length (d_conns d))) false frame w = (reply_raw (ctl_dates (length (d_conns d))) status, w)) ->
    serial_ok (set_conns (d_conns d ++ [mkCtl frame 1 (Some Refused) (reply_raw (ctl_dates (length (d_conns d))) status)]) d)).
  { intros status Hs. split; cbn; [apply Hd|by apply from_conns|apply Hd|by apply conns_snoc|].
    destruct (so_pending _ Hd) as [Hn Hp]. split; [done|]. intros j req Hj. destruct (Hp j req Hj) as (c & Hc & ?). exists c.
    split; [by apply lookup_app_l_Some|done]. }
  unfold ctl_accept. unfold handle_conn in Hdirect. destruct (htttp_parse_request frame) as [http|e] eqn:Eh; [|by apply Hdirect].
  destruct (bcl_decode_request http) as [req|] eqn:Er; [|by apply Hdirect]. destruct (is_ctl_op (cr_op req)) eqn:Eo; cbn [negb] in *; [|by apply Hdirect].
  destruct notified; [|by apply Hdirect]. clear Hdirect.
  assert (Ha : ctl_admitted frame = Some req) by (unfold ctl_admitted; by rewrite Eh, Er, Eo).
  destruct (so_pending _ Hd) as [Hn Hp]. split; cbn; [apply Hd|by apply from_conns|apply Hd| |].
  - apply conns_snoc; [done|set_solver|]. do 3 (split; [done|]). exists req. split; [done|set_solver].
  - split.
    + rewrite map_app. apply NoDup_app. split; [done|]. split; [|apply NoDup_singleton]. intros j Hj. apply list_elem_of_fmap in Hj as ([j' r] & -> & Hj).
      destruct (Hp _ _ Hj) as (c & Hc & _). apply lookup_lt_Some in Hc. cbn. intros Heq%list_elem_of_singleton. lia.
    + intros j r [Hj|Hj%list_elem_of_singleton]%elem_of_app; [|injection Hj as -> ->].
      * destruct (Hp _ _ Hj) as (c & Hc & ?). exists c. split; [by apply lookup_app_l_Some|done].
      * exists (mkCtl frame 0 None None). split; [|done]. by rewrite lookup_app_r, Nat.sub_diag.
Qed.

Lemma hist_snoc h w c : hist_ok h w -> c_resp c = fst (ballotd_dispatch (c_req c) w) -> hist_ok (h ++ [c]) (snd (ballotd_dispatch (c_req c) w)).
Proof.
  intros [H1 ->] Hc. split.
  - intros k c'. rewrite lookup_app_Some. intros [Hk|[Hk Hx]].
    + pose proof (lookup_lt_Some _ _ _ Hk). rewrite world_at_app by lia. by apply H1.
    + destruct (k - length h)%nat eqn:E; [|done]. injection Hx as <-. rewrite world_at_app by lia. by replace k with (length h) by lia.
  - rewrite length_app, Nat.add_1_r. by rewrite world_at_snoc.
Qed.

Lemma conn_ok_app h q j c k : c_from k <> Admin j -> conn_ok h q j c -> conn_ok (h ++ [k]) q j c.
Proof.
  intros Hk. unfold conn_ok. rewrite calls_of_snoc, decide_False, app_nil_r by done.
  destruct (cn_out c) as [[]|]; try done. intros (? & ? & req & resp & ? & ? & ?). do 2 (split; [done|]). exists req, resp.
  split; [done|]. split; [by apply lookup_app_l_Some|done].
Qed.

Lemma serve_ctl_ok d : serial_ok d -> serial_ok (admin_ctl ctl_dates d).
Proof.
  intros Hd. pose proof Hd as [H1 H2 H3 H4 [Hn Hp]]. unfold admin_ctl. destruct (d_ctl d) as [|[j req] rest] eqn:Eq; [by apply (serial_frame d)|].
  destruct (ballotd_dispatch req (d_store d)) as [resp w] eqn:Ed. destruct (Hp j req) as (c0 & Hc0 & Ho & Ha); [set_solver|].
  pose proof (H4 j c0 Hc0) as Hco. unfold conn_ok in Hco. rewrite Ho in Hco. destruct Hco as (Hz & _ & Hno & _).
  cbn [map] in Hn. apply NoDup_cons in Hn as [Hj Hn].
  assert (Hne : forall j' r, (j', r) ∈ rest -> j' <> j) by (intros j' r Hin ->; apply Hj, list_elem_of_fmap; by exists (j, r)).
  set (answer := bcl_encode_response _ _ _ _). split; cbn.
  - replace w with (snd (ballotd_dispatch (c_req (mkCall (Admin j) req resp)) (d_store d))) by (cbn; by rewrite Ed).
    apply hist_snoc; [done|]. cbn. by rewrite Ed.
  - intros c [Hc|Hc%list_elem_of_singleton]%elem_of_app; rewrite length_alter; [by apply H2|]. subst c. cbn. by eapply lookup_lt_Some.
  - intros i p Hi. by apply proc_ok_app, H3.
  - intros j' c'. destruct (decide (j' = j)) as [->|Hjj].
    + rewrite list_lookup_alter_eq, Hc0. intros [= <-]. unfold conn_ok. cbn. rewrite Hz, calls_of_snoc, decide_True, Hno by done.
      do 2 (split; [done|]). exists req, resp. split; [done|]. split; [|done]. by rewrite lookup_app_r, Nat.sub_diag.
    + rewrite list_lookup_alter_ne by done. intros Hc'. apply conn_ok_app; [cbn; congruence|].
      eapply conn_ok_pending; [|by apply H4]. intros r [[= ? ?]|?]%elem_of_cons; [congruence|done].
  - split; [done|]. intros j' r Hin. destruct (Hp j' r) as (c & Hc & ?); [set_solver|]. exists c. split; [|done].
    rewrite list_lookup_alter_ne; [done|]. symmetry. by eapply Hne.
Qed.

Lemma discard_ok i d : serial_ok d -> serial_ok (discard i d).
Proof. apply serial_alter. intros j p Hp. by apply reap_ok, close_ok. Qed.

Lemma scan_ok i d : serial_ok d -> serial_ok (admin_scan i d).
Proof.
  intros Hd. unfold admin_scan. destruct (d_table d !! i) as [s|] eqn:Es; [|by apply (serial_frame d)].
  destruct (sl_revents s); [|by apply (serial_frame d)]. cbn [negb]. destruct (d_procs d !! sl_worker s) as [p|] eqn:Ep; [|done].
  pose proof Hd as [H1 H2 H3 H4 [Hn Hp]]. destruct (pr_up p) as [|req up] eqn:Eu.
  - destruct (pr_doing p); try done. unfold drop_worker. rewrite Es. destruct (last (d_table d)); [|done].
    apply (serial_frame (discard (sl_worker s) d)); try done. by apply discard_ok.
  - destruct (ballotd_dispatch req (d_store d)) as [resp w] eqn:Ed. split; cbn.
    + replace w with (snd (ballotd_dispatch (c_req (mkCall (Voter (sl_worker s)) req resp)) (d_store d))) by (cbn; by rewrite Ed).
      apply hist_snoc; [done|]. cbn. by rewrite Ed.
    + intros c [Hc|Hc%list_elem_of_singleton]%elem_of_app; rewrite length_alter; [by apply H2|]. subst c. cbn. by eapply lookup_lt_Some.
    + intros i' p'. destruct (decide (i' = sl_worker s)) as [->|Hne].
      * rewrite list_lookup_alter_eq, Ep. intros [= <-]. eapply served_ok; [by apply H3|done].
      * rewrite list_lookup_alter_ne by done. intros Hp'. apply proc_ok_app; [cbn; congruence|by apply H3].
    + intros j c Hc. apply conn_ok_app; [done|by apply H4].
    + done.
Qed.

Lemma register_ok r d : serial_ok d -> serial_ok (admin_register r d).
Proof.
  intros Hd. unfold admin_register. destruct (d_notify d) as [|i rest]; [by apply (serial_frame d)|].
  assert (Hd' : serial_ok (set_notify rest d)) by (by apply (serial_frame d)).
  destruct (_ <=? _)%nat; [by apply (serial_frame d)|]. apply serial_alter; [|done]. intros j p. apply close_ok.
Qed.

Lemma teardown_ok d : serial_ok d -> serial_ok (admin_teardown d).
Proof.
  intros Hd. unfold admin_teardown. destruct (d_notify d) as [|i rest]; [|apply discard_ok; by apply (serial_frame d)].
  destruct (d_ctl d) as [|[j req] rest] eqn:Eq.
  - destruct (last (d_table d)); [|by apply (serial_frame d)]. apply (serial_frame (discard (sl_worker s) d)); try done. by apply discard_ok.
  - pose proof Hd as [H1 H2 H3 H4 [Hn Hp]]. rewrite Eq in *. cbn [map] in Hn. apply NoDup_cons in Hn as [Hj Hn].
    destruct (Hp j req) as (c0 & Hc0 & Ho & Ha); [set_solver|]. pose proof (H4 j c0 Hc0) as Hco. unfold conn_ok in Hco. rewrite Ho in Hco.
    split; cbn; [done| |done| |].
    + intros c Hc. specialize (H2 c Hc). by rewrite length_alter.
    + intros j' c'. destruct (decide (j' = j)) as [->|Hjj].
      * rewrite list_lookup_alter_eq, Hc0. intros [= <-]. unfold conn_ok. cbn. destruct Hco as (-> & _ & ? & _). done.
      * rewrite list_lookup_alter_ne by done. intros Hc'. eapply conn_ok_pending; [|by apply H4]. intros r [[= ? ?]|?]%elem_of_cons; [congruence|done].
    + split; [done|]. intros j' r Hin. destruct (Hp j' r) as (c & Hc & ?); [set_solver|]. exists c. split; [|done].
      rewrite list_lookup_alter_ne; [done|]. intros <-. apply Hj, list_elem_of_fmap. by exists (j, r).
Qed.

Lemma step_ok d a : serial_ok d -> serial_ok (step dates ctl_dates d a).
Proof.
  intros Hd. destruct a as [name|frame notified|i buf|i|i| | | |]; cbn [step].
  - destruct (d_accepting d); [by apply accept_ok|done].
  - destruct (d_accepting d); [by apply control_ok|done].
  - apply serial_procs; [done|apply length_alter|]. intros j p. destruct (decide (i = j)) as [->|?]; [|rewrite list_lookup_alter_ne by done; apply Hd].
    rewrite list_lookup_alter_eq. destruct (d_procs d !! j) eqn:E; cbn; [|done]. intros [= <-]. by apply take_frame_ok, Hd.
  - apply serial_procs; [done|apply length_alter|]. intros j p. destruct (decide (i = j)) as [->|?]; [|rewrite list_lookup_alter_ne by done; apply Hd].
    rewrite list_lookup_alter_eq. destruct (d_procs d !! j) eqn:E; cbn; [|done]. intros [= <-]. by apply take_answer_ok, Hd.
  - apply serial_alter; [|done]. intros j p. apply die_ok.
  - unfold admin_step. destruct (d_at d) eqn:E; [|by apply register_ok|by apply serve_ctl_ok|by apply scan_ok|by apply teardown_ok|done].
    unfold admin_poll. destruct (d_quit d); [by apply (serial_frame d)|]. destruct (negb _); [done|]. by apply (serial_frame d).
  - destruct (d_at d); try done. by apply (serial_frame d).
  - by apply (serial_frame d).
  - destruct (d_accepting d); [done|]. by apply (serial_frame d).
Qed.

Lemma initial_ok : serial_ok (initial w0).
Proof. split; cbn; [by split| |done..|]; [set_solver|]. split; [constructor|set_solver]. Qed.

Lemma run_ok acts : serial_ok (run dates ctl_dates acts w0).
Proof. unfold run. generalize initial_ok. generalize (initial w0). induction acts as [|a acts IH]; intros d Hd; [done|]. by apply IH, step_ok. Qed.

(** ** What a log entry means *)

Lemma admitted_handle name buf req date link w : admitted name buf = Some req ->
  handle_request date link name buf w =
    match link with
    | GoneBefore => (None, w)
    | Alive => (bcl_encode_response date (cr_op req) (fst (ballotd_dispatch req w)) SESSION_MAX_FRAME, snd (ballotd_dispatch req w))
    | GoneAfter => (None, snd (ballotd_dispatch req w))
    end.
Proof.
  unfold admitted, handle_request. destruct (htttp_parse_request buf) as [http|]; [|done]. destruct (bcl_decode_request http) as [r|]; [|done].
  destruct (is_voter_op (cr_op r)); [|done]. intros [= <-]. cbn [negb]. change (cr_op (set_identity name r)) with (cr_op r).
  by destruct link, (ballotd_dispatch (set_identity name r) w).
Qed.

Lemma refused_handle name buf date link w : admitted name buf = None -> handle_request date link name buf w = (reply_raw date 400, w).
Proof.
  unfold admitted, handle_request. destruct (htttp_parse_request buf) as [http|]; [|done]. destruct (bcl_decode_request http) as [r|]; [|done].
  by destruct (is_voter_op (cr_op r)).
Qed.

Lemma ctl_admitted_handle frame req date w : ctl_admitted frame = Some req ->
  handle_conn date true frame w = (bcl_encode_response date (cr_op req) (fst (ballotd_dispatch req w)) CTL_MAX_FRAME, snd (ballotd_dispatch req w)).
Proof.
  unfold ctl_admitted, handle_conn. destruct (htttp_parse_request frame) as [http|]; [|done]. destruct (bcl_decode_request http) as [r|]; [|done].
  destruct (is_ctl_op (cr_op r)); [|done]. intros [= <-]. unfold handle_ctl_req. by destruct (ballotd_dispatch r w).
Qed.

Lemma hist_at d k c : serial_ok d -> d_hist d !! k = Some c ->
  ballotd_dispatch (c_req c) (world_at (d_hist d) k) = (c_resp c, world_at (d_hist d) (S k)).
Proof.
  intros Hd Hk. destruct (so_hist _ Hd) as [H _]. rewrite (H k c Hk). unfold world_at. rewrite (take_S_r _ _ _ Hk), foldl_app. cbn.
  by destruct (ballotd_dispatch _ _).
Qed.

(** C28: the daemon serves its processes as if one at a time.  Whatever the
    interleaving of any number of sessions, the control thread, the listener,
    [admin_thread] and their deaths, the store is the one a sequence of calls
    made one after the other leaves; a frame that was served got exactly the
    answer [handle_request] or [handle_conn] gives at its place in that
    sequence; every other frame was answered without touching the store; and
    each session's calls are in the sequence once each, in the order its frames
    came, an unanswered one last. *)
Theorem interleavings_are_serial acts : let d := run dates ctl_dates acts w0 in let at_ := world_at (d_hist d) in
  d_store d = at_ (length (d_hist d)) /\
  (forall i p, d_procs d !! i = Some p ->
    calls_of (Voter i) (d_hist d) = served (pr_log p) ++ option_list (pr_serial p) /\
    forall n e, pr_log p !! n = Some e ->
      match en_out e with
      | Served k => handle_request (dates i n) Alive (pr_name p) (en_buf e) (at_ k) = (en_answer e, at_ (S k))
      | _ => forall w, handle_request (dates i n) GoneBefore (pr_name p) (en_buf e) w = (en_answer e, w)
      end) /\
  (forall j c, d_conns d !! j = Some c ->
      match cn_out c with
      | Some (Served k) => calls_of (Admin j) (d_hist d) = [k] /\ handle_conn (ctl_dates j) true (cn_frame c) (at_ k) = (cn_answer c, at_ (S k))
      | Some Refused => calls_of (Admin j) (d_hist d) = [] /\ forall w, handle_conn (ctl_dates j) false (cn_frame c) w = (cn_answer c, w)
      | _ => calls_of (Admin j) (d_hist d) = [] /\ cn_answer c = None
      end).
Proof.
  pose proof (run_ok acts) as Hd. cbv zeta. set (d := run dates ctl_dates acts w0) in *. split; [apply Hd|]. split.
  - intros i p Hp. destruct (so_procs _ Hd i p Hp) as [Hlog Hc _]. split; [done|]. intros n e He. specialize (Hlog n e He). unfold entry_ok in Hlog.
    destruct (en_out e) as [| |k].
    + destruct Hlog as [Ha ->]. intros w. by apply refused_handle.
    + destruct Hlog as [[req Ha] ->]. intros w. by rewrite (admitted_handle _ _ _ _ _ _ Ha).
    + destruct Hlog as (req & resp & Ha & Hk & ->). rewrite (admitted_handle _ _ _ _ _ _ Ha). pose proof (hist_at d k _ Hd Hk) as E. cbn in E. by rewrite E.
  - intros j c Hc. pose proof (so_conns _ Hd j c Hc) as H. unfold conn_ok in H. destruct (cn_out c) as [[| |k]|]; [tauto|tauto| |tauto].
    destruct H as (_ & ? & req & resp & Ha & Hk & ->). split; [done|]. rewrite (ctl_admitted_handle _ _ _ _ Ha). pose proof (hist_at d k _ Hd Hk) as E. cbn in E. by rewrite E.
Qed.

End Serial.

(** ** Descriptors, slots and turns *)

Section Ledger.
Context `{R : Runner} (dates : nat -> nat -> option cstr) (ctl_dates : nat -> option cstr).

Abbreviation workers d := (map sl_worker (d_table d)).

(** How many slots of the table the current round has passed. *)
Definition passed (d : daemon) : option nat :=
  match d_at d with
  | Polling => Some (length (d_table d))
  | Registering _ | Serving_ctl => Some 0%nat
  | Scanning i => Some i
  | Tearing_down | Stopped => None
  end.

(** What is left of the round, or of the teardown. *)
Definition work (d : daemon) : nat :=
  match d_at d with
  | Registering _ => 2 * length (d_notify d) + length (d_ctl d) + length (d_table d) + 3
  | Serving_ctl => length (d_ctl d) + length (d_table d) + 2
  | Scanning i => length (d_table d) - i + 1
  | Tearing_down => length (d_notify d) + length (d_ctl d) + length (d_table d) + 1
  | Polling | Stopped => 0
  end.

Definition slot_ok (procs : list proc) (m n : nat) (s : slot) : Prop :=
  sl_turns s = (if (n <? m)%nat && sl_revents s then 1%nat else 0%nat) /\
  ((m <= n)%nat -> sl_revents s = true -> worker_ready procs (sl_worker s) = true).

Definition books_ok (p : proc) : Prop := pr_closes p = (if pr_open p then 0 else 1)%nat /\ (pr_reaps p <= pr_closes p)%nat.

Record ledger (d : daemon) : Prop := {
  lg_ids : NoDup (d_notify d ++ workers d);
  lg_range : forall i, i ∈ d_notify d ++ workers d -> exists p, d_procs d !! i = Some p /\ pr_open p = true;
  lg_open : forall i p, d_procs d !! i = Some p -> books_ok p /\ (pr_open p = true -> i ∈ d_notify d ++ workers d);
  lg_room : (length (d_table d) <= MAX_WORKERS)%nat;
  lg_scan : forall m, passed d = Some m -> forall n s, d_table d !! n = Some s -> slot_ok (d_procs d) m n s;
  lg_at : match d_at d with Scanning i => (i <= length (d_table d))%nat | Stopped => d_table d = [] | _ => True end }.

(** A session's own steps leave the books alone and never take back what
    [poll] saw. *)
Definition quiet (f : proc -> proc) : Prop := forall p,
  pr_open (f p) = pr_open p /\ pr_closes (f p) = pr_closes p /\ pr_reaps (f p) = pr_reaps p /\
  (pr_up p = [] -> pr_doing p = Exited -> pr_doing (f p) = Exited) /\ (pr_up p <> [] -> pr_up (f p) <> []).

Lemma quiet_frame i buf : quiet (take_frame dates i buf).
Proof.
  intros p. unfold take_frame. destruct (pr_doing p) eqn:E; try (by rewrite E). destruct (admitted _ _); cbn; try done.
  repeat split; try done. by destruct (pr_up p).
Qed.

Lemma quiet_answer i : quiet (take_answer dates i).
Proof.
  intros p. unfold take_answer. destruct (pr_doing p) eqn:E; try (by rewrite E).
  destruct (pr_down p); [destruct (pr_open p) eqn:Eo|destruct (pr_serial p)]; cbn; try done; by rewrite ?E.
Qed.

Lemma quiet_die : quiet die.
Proof. by intros p. Qed.

Lemma ready_quiet f i procs j : quiet f -> worker_ready procs j = true -> worker_ready (alter f i procs) j = true.
Proof.
  intros Hf. unfold worker_ready. destruct (decide (i = j)) as [->|?]; [|by rewrite list_lookup_alter_ne]. rewrite list_lookup_alter_eq.
  destruct (procs !! j) as [p|]; cbn; [|done]. destruct (Hf p) as (_ & _ & _ & He & Hu).
  destruct (pr_up p) as [|r up] eqn:Eu.
  - destruct (pr_doing p); try done. intros _. rewrite (He eq_refl eq_refl). by destruct (pr_up (f p)).
  - intros _. destruct (pr_up (f p)); [|done]. by destruct Hu.
Qed.

Lemma ready_ne (f : proc -> proc) i procs j : i <> j -> worker_ready (alter f i procs) j = worker_ready procs j.
Proof. intros. unfold worker_ready. by rewrite list_lookup_alter_ne. Qed.

Lemma ledger_quiet d f i : quiet f -> ledger d -> ledger (set_procs (alter f i (d_procs d)) d).
Proof.
  intros Hf [H1 H2 H3 H4 H5 H6]. split; cbn; try done.
  - intros j Hj. destruct (H2 j Hj) as (p & Hp & Ho). destruct (decide (i = j)) as [->|?]; [|rewrite list_lookup_alter_ne by done; eauto].
    exists (f p). rewrite list_lookup_alter_eq, Hp. split; [done|]. destruct (Hf p) as (-> & _). done.
  - intros j p. destruct (decide (i = j)) as [->|?]; [|rewrite list_lookup_alter_ne by done; apply H3]. rewrite list_lookup_alter_eq.
    destruct (d_procs d !! j) as [q|] eqn:E; cbn; [|done]. intros [= <-]. destruct (H3 j q E) as [[Hb1 Hb2] Hi]. destruct (Hf q) as (Ho & Hc & Hr & _).
    unfold books_ok. by rewrite Ho, Hc, Hr.
  - intros m Hm n s Hs. destruct (H5 m Hm n s Hs) as [? Hr]. split; [done|]. intros ? ?. by apply ready_quiet, Hr.
Qed.

(** Steps that only move [admin_thread] on. *)
Lemma ledger_at d x : ledger d -> (forall m, passed (set_at x d) = Some m -> forall n s, d_table d !! n = Some s -> slot_ok (d_procs d) m n s) ->
  match x with Scanning i => (i <= length (d_table d))%nat | Stopped => d_table d = [] | _ => True end -> ledger (set_at x d).
Proof. intros [H1 H2 H3 H4 H5 H6] Hs Hx. by split. Qed.

Lemma ledger_accept name d : ledger d -> ledger (listener_accept name d).
Proof.
  intros [H1 H2 H3 H4 H5 H6]. set (new := mkProc name Idle [] [] true 0 0 None []).
  assert (Hnew : forall i, i ∈ d_notify d ++ workers d -> (i < length (d_procs d))%nat) by (intros i Hi; destruct (H2 i Hi) as (p & Hp & _); by eapply lookup_lt_Some).
  assert (Hperm : (d_notify d ++ [length (d_procs d)]) ++ workers d ≡ₚ length (d_procs d) :: (d_notify d ++ workers d))
    by (rewrite <-app_assoc; symmetry; apply Permutation_middle).
  split; cbn; try done.
  - rewrite Hperm. constructor; [|done]. intros Hi%Hnew. lia.
  - intros i. rewrite Hperm, elem_of_cons. intros [->|Hi].
    + exists new. by rewrite lookup_app_r, Nat.sub_diag.
    + destruct (H2 i Hi) as (p & Hp & Ho). exists p. split; [by apply lookup_app_l_Some|done].
  - intros i p. rewrite lookup_app_Some. intros [Hp|[Hl Hp]].
    + destruct (H3 i p Hp) as [? Hi]. split; [done|]. rewrite Hperm. intros ?. right. auto.
    + destruct (i - length (d_procs d))%nat eqn:E; [|done]. injection Hp as <-. split; [by split|]. intros _. rewrite Hperm.
      replace i with (length (d_procs d)) by lia. left.
  - intros m Hm n s Hs. destruct (H5 m Hm n s Hs) as [? Hr]. split; [done|]. intros Hle Hv. specialize (Hr Hle Hv). unfold worker_ready in *.
    destruct (d_procs d !! sl_worker s) as [p|] eqn:E; [|done]. by rewrite (lookup_app_l_Some _ _ _ _ E).
Qed.

(** Closing the descriptor of one worker of the books. *)
Definition closing (f : proc -> proc) : Prop := forall p,
  pr_open (f p) = false /\ pr_closes (f p) = S (pr_closes p) /\ (pr_reaps (f p) <= S (pr_reaps p))%nat.

Lemma closing_close : closing close_worker.
Proof. intros p. cbn. auto. Qed.

Lemma closing_discard : closing (fun p => reap_worker (close_worker p)).
Proof. intros p. cbn. auto. Qed.

Lemma books_close f i (procs : list proc) ids ids' : closing f -> NoDup ids -> ids ≡ₚ i :: ids' ->
  (forall j, j ∈ ids -> exists p, procs !! j = Some p /\ pr_open p = true) ->
  (forall j p, procs !! j = Some p -> books_ok p /\ (pr_open p = true -> j ∈ ids)) ->
  NoDup ids' /\ (forall j, j ∈ ids' -> i <> j) /\
  (forall j, j ∈ ids' -> exists p, alter f i procs !! j = Some p /\ pr_open p = true) /\
  (forall j p, alter f i procs !! j = Some p -> books_ok p /\ (pr_open p = true -> j ∈ ids')).
Proof.
  intros Hf Hn Hp Hr Ho. rewrite Hp in Hn. apply NoDup_cons in Hn as [Hi Hn]. assert (Hne : forall j, j ∈ ids' -> i <> j) by (by intros j ? <-).
  split; [done|]. split; [done|]. split.
  - intros j Hj. destruct (Hr j) as (p & Hq & ?); [rewrite Hp; by right|]. exists p. rewrite list_lookup_alter_ne; auto.
  - intros j p. destruct (decide (i = j)) as [->|Hij].
    + rewrite list_lookup_alter_eq. destruct (procs !! j) as [q|] eqn:E; cbn; [|done]. intros [= <-]. destruct (Ho j q E) as [[Hb1 Hb2] _].
      destruct (Hr j) as (q' & E' & Hq); [rewrite Hp; left|]. assert (q' = q) as -> by congruence.
      destruct (Hf q) as (H1 & H2 & H3). unfold books_ok. rewrite H1, H2, Hb1, Hq in *. split; [split; [done|]|done]. lia.
    + rewrite list_lookup_alter_ne by done. intros Hq. destruct (Ho j p Hq) as [? Hin]. split; [done|]. intros Hop. specialize (Hin Hop).
      rewrite Hp in Hin. apply elem_of_cons in Hin as [->|?]; done.
Qed.

Lemma last_split {A} (l : list A) x : last l = Some x -> exists init, l = init ++ [x] /\ removelast l = init.
Proof. intros H. apply last_Some in H as [init ->]. exists init. split; [done|]. apply removelast_last. Qed.

(** [drop_worker]'s table: the last entry moved into the slot. *)
Lemma moved_table i (t : list slot) s moved : t !! i = Some s -> last t = Some moved ->
  t ≡ₚ s :: removelast (<[i := moved]> t) /\ S (length (removelast (<[i := moved]> t))) = length t /\
  forall n x, removelast (<[i := moved]> t) !! n = Some x -> (n <> i /\ t !! n = Some x) \/ (n = i /\ exists n', (i < n')%nat /\ t !! n' = Some x).
Proof.
  intros Hi (init & -> & _)%last_split. destruct (decide (i = length init)) as [->|Hne].
  - rewrite lookup_app_r, Nat.sub_diag in Hi by done. injection Hi as ->. rewrite list_insert_id by (by rewrite lookup_app_r, Nat.sub_diag).
    rewrite removelast_last. split; [by rewrite Permutation_app_comm|]. split; [rewrite length_app; simpl; lia|]. intros n x Hx. left.
    pose proof (lookup_lt_Some _ _ _ Hx). split; [lia|]. by apply lookup_app_l_Some.
  - pose proof (lookup_lt_Some _ _ _ Hi) as Hlt. rewrite length_app in Hlt. simpl in Hlt. rewrite insert_app_l by lia. rewrite removelast_last.
    rewrite lookup_app_l in Hi by lia. split; [|split; [rewrite length_insert, length_app; simpl; lia|]].
    + rewrite insert_take_drop by lia. rewrite <-(take_drop_middle _ _ _ Hi) at 1. rewrite <-app_assoc. cbn.
      rewrite <-(Permutation_middle (take i init) (drop (S i) init ++ [moved]) s). apply perm_skip, Permutation_app_head. apply Permutation_app_comm.
    + intros n x. destruct (decide (n = i)) as [->|Hn].
      * rewrite list_lookup_insert_eq by lia. intros [= <-]. right. split; [done|]. exists (length init). split; [lia|]. by rewrite lookup_app_r, Nat.sub_diag.
      * rewrite list_lookup_insert_ne by done. intros Hx. left. split; [done|]. by apply lookup_app_l_Some.
Qed.

Lemma ledger_drop i d s : ledger d -> d_at d = Scanning i -> d_table d !! i = Some s -> ledger (drop_worker i d) /\ S (work (drop_worker i d)) = work d.
Proof.
  intros Hd Ha Hs. destruct (last (d_table d)) as [moved|] eqn:El; [|apply last_None in El; by rewrite El in Hs].
  destruct (moved_table _ _ _ _ Hs El) as (Hperm & Hlen & Hlk). pose proof (lookup_lt_Some _ _ _ Hs) as Hlt.
  destruct Hd as [H1 H2 H3 H4 H5 H6]. rewrite Ha in H6. unfold drop_worker, work. rewrite Hs, El. cbn. rewrite Ha. split; [|lia].
  assert (Hids : d_notify d ++ workers d ≡ₚ sl_worker s :: (d_notify d ++ map sl_worker (removelast (<[i:=moved]> (d_table d))))).
  { rewrite Hperm at 1. cbn. by rewrite <-Permutation_middle. }
  destruct (books_close _ _ _ _ _ closing_discard H1 Hids H2 H3) as (Hn & Hne & Hr & Ho).
  split; cbn; try done; [lia| |rewrite Ha; lia]. intros m Hm n x Hx. unfold passed in *. cbn in Hm. rewrite Ha in Hm. injection Hm as <-.
  assert (Hok : slot_ok (d_procs d) i n x).
  { destruct (Hlk n x Hx) as [[_ Hx']|[-> (n' & Hn' & Hx')]]; pose proof (H5 i ltac:(by rewrite Ha) _ _ Hx') as [Ht Hv]; [done|].
    split; [|intros _; apply Hv; lia]. rewrite Ht. by rewrite (proj2 (Nat.ltb_ge _ _)), Nat.ltb_irrefl by lia. }
  destruct Hok as [Ht Hv]. split; [done|]. intros Hle Hrev. rewrite ready_ne; [auto|]. apply Hne, elem_of_app. right. apply list_elem_of_fmap.
  exists x. split; [done|]. by eapply list_elem_of_lookup_2.
Qed.

Lemma map_attend i t : map sl_worker (alter attend i t) = map sl_worker t.
Proof. apply list_eq. intros n. rewrite !list_lookup_fmap, list_lookup_alter. destruct (decide _) as [->|]; [|done]. by destruct (t !! n). Qed.

Lemma ledger_scan i d : ledger d -> d_at d = Scanning i -> ledger (admin_scan i d) /\ (work (admin_scan i d) < work d)%nat.
Proof.
  intros Hd Ha. pose proof Hd as [H1 H2 H3 H4 H5 H6]. rewrite Ha in H6. pose proof (H5 i ltac:(unfold passed; by rewrite Ha)) as Hsl.
  unfold admin_scan. destruct (d_table d !! i) as [s|] eqn:Es.
  2: { apply lookup_ge_None in Es. split; [|unfold work; cbn; rewrite Ha; lia]. apply ledger_at; [done| |done].
       intros m [= <-] n s Hs. destruct (Hsl n s Hs) as [Ht _]. apply lookup_lt_Some in Hs. split; [|lia].
       rewrite Ht. by rewrite !(proj2 (Nat.ltb_lt _ _)) by lia. }
  pose proof (lookup_lt_Some _ _ _ Es) as Hlt. destruct (Hsl i s Es) as [Hti Hri]. rewrite Nat.ltb_irrefl in Hti. destruct (sl_revents s) eqn:Er; cbn [negb].
  2: { split; [|unfold work; cbn; rewrite Ha; lia]. apply ledger_at; [done| |done]. intros m [= <-] n x Hx. destruct (Hsl n x Hx) as [Ht Hv].
       split; [|intros; apply Hv; [lia|done]]. rewrite Ht. destruct (decide (n = i)) as [->|Hni].
       - assert (x = s) as -> by congruence. by rewrite Er, !andb_false_r.
       - destruct (Nat.ltb_spec n i), (Nat.ltb_spec n (S i)); try done; lia. }
  specialize (Hri ltac:(lia) eq_refl). unfold worker_ready in Hri. destruct (d_procs d !! sl_worker s) as [p|] eqn:Ep; [|done].
  destruct (pr_up p) as [|req up] eqn:Eu.
  { destruct (pr_doing p) eqn:Ed; try done. destruct (ledger_drop i d s Hd Ha Es) as [? ?]. split; [done|lia]. }
  destruct (ballotd_dispatch req (d_store d)) as [resp w]. split; [|unfold work; cbn; rewrite Ha, length_alter; lia].
  split; cbn; rewrite ?map_attend, ?length_alter; try done.
  - intros j Hj. destruct (H2 j Hj) as (q & Hq & ?). destruct (decide (sl_worker s = j)) as [<-|?]; [|rewrite list_lookup_alter_ne by done; eauto].
    rewrite list_lookup_alter_eq, Hq. eexists. split; [done|]. done.
  - intros j q. destruct (decide (sl_worker s = j)) as [<-|?]; [|rewrite list_lookup_alter_ne by done; apply H3].
    rewrite list_lookup_alter_eq, Ep. intros [= <-]. apply (H3 _ _ Ep).
  - intros m [= <-] n x. rewrite list_lookup_alter. destruct (decide (i = n)) as [<-|Hni].
    + rewrite Es. intros [= <-]. split; [|lia]. cbn [attend sl_turns sl_revents]. rewrite Hti, Er. by rewrite (proj2 (Nat.ltb_lt _ _)) by lia.
    + intros Hx. destruct (Hsl n x Hx) as [Ht Hv]. split.
      * rewrite Ht. destruct (Nat.ltb_spec n i), (Nat.ltb_spec n (S i)); try done; lia.
      * intros Hle Hrev. rewrite ready_ne; [apply Hv; [lia|done]|]. intros Heq. apply Hni.
        apply NoDup_app in H1 as (_ & _ & H1). eapply (NoDup_lookup _ _ _ _ H1); rewrite list_lookup_fmap; [by rewrite Es|]. rewrite Hx. cbn. by rewrite Heq.
Qed.

Lemma ledger_register r d : ledger d -> d_at d = Registering r -> ledger (admin_register r d) /\ (work (admin_register r d) < work d)%nat.
Proof.
  intros Hd Ha. pose proof Hd as [H1 H2 H3 H4 H5 H6]. pose proof (H5 0%nat ltac:(unfold passed; by rewrite Ha)) as Hsl.
  unfold admin_register. destruct (d_notify d) as [|i rest] eqn:En.
  { split; [|unfold work; cbn; rewrite Ha; destruct r; cbn; lia]. apply ledger_at; [done| |destruct r; [done|lia]].
    intros m Hm n s Hs. assert (m = 0%nat) as -> by (destruct r; by injection Hm). by apply Hsl. }
  cbn [d_table set_notify]. destruct (Nat.leb_spec (length (d_table d)) (MAX_WORKERS - 1)) as [Hle|Hgt].
  - split; [|unfold work; cbn; rewrite Ha, En, length_app; simpl; lia].
    assert (Hperm : rest ++ map sl_worker (d_table d ++ [mkSlot i false 0]) ≡ₚ (i :: rest) ++ workers d).
    { rewrite map_app, app_assoc. cbn. apply Permutation_app_comm. }
    split; cbn; rewrite ?Ha; try done.
    + by rewrite Hperm.
    + intros j. rewrite Hperm. apply H2.
    + intros j p Hp. rewrite Hperm. by apply H3.
    + rewrite length_app. simpl. unfold MAX_WORKERS in *. lia.
    + intros m Hm n s. unfold passed in Hm. cbn in Hm. rewrite Ha in Hm. injection Hm as <-. rewrite lookup_app_Some. intros [?|[_ Hs]]; [by apply Hsl|].
      destruct (n - length (d_table d))%nat; [|done]. injection Hs as <-. by split.
  - split; [|unfold work; cbn; rewrite Ha, En; simpl; lia].
    destruct (books_close close_worker i _ _ _ closing_close H1 (reflexivity _) H2 H3) as (Hn & Hne & Hr & Ho).
    split; cbn; rewrite ?Ha; try done. intros m Hm n s Hs. unfold passed in Hm. cbn in Hm. rewrite Ha in Hm. injection Hm as <-.
    destruct (Hsl n s Hs) as [Ht Hv]. split; [done|]. intros Hl Hrev. rewrite ready_ne; [auto|]. apply Hne, elem_of_app. right. apply list_elem_of_fmap.
    exists s. split; [done|]. by eapply list_elem_of_lookup_2.
Qed.

Lemma ledger_serve_ctl d : ledger d -> d_at d = Serving_ctl -> ledger (admin_ctl ctl_dates d) /\ (work (admin_ctl ctl_dates d) < work d)%nat.
Proof.
  intros Hd Ha. pose proof Hd as [H1 H2 H3 H4 H5 H6]. pose proof (H5 0%nat ltac:(unfold passed; by rewrite Ha)) as Hsl.
  unfold admin_ctl. destruct (d_ctl d) as [|[j req] rest] eqn:Eq.
  - split; [|unfold work; cbn; rewrite Ha, Eq; simpl; lia]. apply ledger_at; [done| |lia]. by intros m [= <-].
  - destruct (ballotd_dispatch req (d_store d)) as [resp w]. split; [|unfold work; cbn; rewrite Ha, Eq; simpl; lia]. by split.
Qed.

Lemma ledger_poll d : ledger d -> d_at d = Polling -> ledger (admin_poll d).
Proof.
  intros Hd Ha. pose proof Hd as [H1 H2 H3 H4 H5 H6]. unfold admin_poll. destruct (d_quit d); [by apply ledger_at|].
  set (t := map (fun s => mkSlot (sl_worker s) (worker_ready (d_procs d) (sl_worker s)) 0) (d_table d)).
  assert (Hw : map sl_worker t = workers d) by (unfold t; rewrite map_map; done). destruct (negb _); [done|].
  set (x := if match d_notify d with [] => false | _ => true end then _ else _).
  assert (Hx : passed (set_at x (set_table t d)) = Some 0%nat /\ match x with Scanning i => (i <= length t)%nat | Stopped => t = [] | _ => True end).
  { unfold x. destruct (d_notify d), (d_ctl d); (split; [done|]); cbn; try done; lia. }
  destruct Hx as [Hp Hx]. split; cbn; rewrite ?Hw; try done; [unfold t; by rewrite length_map|].
  intros m Hm n s. assert (m = 0%nat) as -> by congruence. unfold t. rewrite list_lookup_fmap. destruct (d_table d !! n); [|done]. intros [= <-]. by split.
Qed.

Lemma ledger_teardown d : ledger d -> d_at d = Tearing_down -> ledger (admin_teardown d) /\ (work (admin_teardown d) < work d)%nat.
Proof.
  intros Hd Ha. pose proof Hd as [H1 H2 H3 H4 H5 H6]. unfold admin_teardown. destruct (d_notify d) as [|i rest] eqn:En.
  - destruct (d_ctl d) as [|[j req] rest] eqn:Eq; [|split; [|unfold work; cbn; rewrite Ha, En, Eq; simpl; lia]; split; cbn; rewrite ?En, ?Ha; done].
    destruct (last (d_table d)) as [s|] eqn:El.
    + destruct (last_split _ _ El) as (init & Et & Er). rewrite Er.
      assert (Hids : [] ++ workers d ≡ₚ sl_worker s :: ([] ++ map sl_worker init)).
      { rewrite Et, map_app. cbn. apply Permutation_app_comm. }
      destruct (books_close _ _ _ _ _ closing_discard H1 Hids H2 H3) as (Hn & Hne & Hr & Ho).
      split; [|unfold work; cbn; rewrite Ha, En, Eq, Et, length_app; simpl; lia]. split; cbn; rewrite ?En, ?Ha; try done.
      * rewrite Et, length_app in H4. lia.
      * intros m Hm. unfold passed in Hm. cbn in Hm. by rewrite Ha in Hm.
    + split; [|unfold work; cbn; rewrite Ha; lia]. apply ledger_at; [done|done|]. by apply last_None.
  - destruct (books_close _ i _ _ _ closing_discard H1 (reflexivity _) H2 H3) as (Hn & Hne & Hr & Ho).
    split; [|unfold work; cbn; rewrite Ha, En; simpl; lia]. split; cbn; rewrite ?Ha; try done. intros m Hm. unfold passed in Hm. cbn in Hm. by rewrite Ha in Hm.
Qed.

Lemma ledger_admin d : ledger d -> ledger (admin_step ctl_dates d) /\
  match d_at d with Polling | Stopped => True | _ => (work (admin_step ctl_dates d) < work d)%nat end.
Proof.
  intros Hd. unfold admin_step. destruct (d_at d) eqn:E.
  - split; [by apply ledger_poll|done].
  - by apply ledger_register.
  - by apply ledger_serve_ctl.
  - by apply ledger_scan.
  - by apply ledger_teardown.
  - done.
Qed.

Lemma ledger_control frame notified d : ledger d -> ledger (ctl_accept ctl_dates frame notified d).
Proof. intros Hd. unfold ctl_accept. repeat case_match; by destruct Hd. Qed.

Lemma ledger_step d a : ledger d -> ledger (step dates ctl_dates d a).
Proof.
  intros Hd. destruct a as [name|frame notified|i buf|i|i| | | |]; cbn [step].
  - destruct (d_accepting d); [by apply ledger_accept|done].
  - destruct (d_accepting d); [by apply ledger_control|done].
  - apply ledger_quiet; [apply quiet_frame|done].
  - apply ledger_quiet; [apply quiet_answer|done].
  - apply ledger_quiet; [apply quiet_die|done].
  - by apply ledger_admin.
  - destruct (d_at d) eqn:E; try done. by apply ledger_at.
  - by destruct Hd.
  - destruct (d_accepting d); [done|]. by destruct Hd.
Qed.

Lemma ledger_run acts w : ledger (run dates ctl_dates acts w).
Proof.
  unfold run. assert (H : ledger (initial w)).
  { split; cbn; try done; [constructor|set_solver|unfold MAX_WORKERS; lia]. }
  revert H. generalize (initial w). induction acts as [|a acts IH]; intros d Hd; [done|]. by apply IH, ledger_step.
Qed.

(** C26: [admin_thread] keeps its books and its turns.  In every interleaving:
    the table never outgrows its array; a session's descriptor is open while it
    is in the pipe or in the table, is closed exactly once when it leaves them,
    and its process is reaped at most once; a control connection is closed
    exactly once; each step between two polls, and each step of the teardown,
    brings its end nearer, so that the thread never waits for a worker with
    nothing to say; and when a round ends, every worker that [poll] had reported
    was attended to exactly once and no other was. *)
Theorem admin_keeps_its_books acts w : let d := run dates ctl_dates acts w in
  (length (d_table d) <= MAX_WORKERS)%nat /\
  (forall i p, d_procs d !! i = Some p ->
    (pr_open p = true <-> i ∈ d_notify d ++ workers d) /\ pr_closes p = (if pr_open p then 0 else 1)%nat /\ (pr_reaps p <= pr_closes p)%nat) /\
  (forall j c, d_conns d !! j = Some c -> cn_closes c = match cn_out c with None => 0 | Some _ => 1 end%nat) /\
  (d_at d <> Polling -> d_at d <> Stopped -> (work (admin_step ctl_dates d) < work d)%nat) /\
  (d_at d = Polling -> forall s, s ∈ d_table d -> sl_turns s = if sl_revents s then 1%nat else 0%nat) /\
  (d_at d = Stopped -> d_table d = []).
Proof.
  cbv zeta. pose proof (ledger_run acts w) as Hd. pose proof (run_ok dates ctl_dates w acts) as Hs. set (d := run dates ctl_dates acts w) in *.
  split; [apply Hd|]. split; [|split; [|split; [|split]]].
  - intros i p Hp. destruct (lg_open _ Hd i p Hp) as [[Hc Hr] Ho]. split; [|done]. split; [done|]. intros Hi.
    destruct (lg_range _ Hd i Hi) as (q & Hq & ?). congruence.
  - intros j c Hc. pose proof (so_conns _ _ _ _ Hs j c Hc) as H. unfold conn_ok in H. destruct (cn_out c) as [[]|]; tauto.
  - intros H1 H2. destruct (ledger_admin d Hd) as [_ H]. by destruct (d_at d).
  - intros Ha s Hin. apply list_elem_of_lookup_1 in Hin as [n Hn]. destruct (lg_scan _ Hd (length (d_table d)) ltac:(unfold passed; by rewrite Ha) n s Hn) as [Ht _].
    rewrite Ht. by rewrite (proj2 (Nat.ltb_lt _ _)) by (by eapply lookup_lt_Some).
  - intros Ha. pose proof (lg_at _ Hd) as H. by rewrite Ha in H.
Qed.

End Ledger.

(** ** Reaping is bounded *)

Lemma reap_poll_spec waits f n : (50 <= n + f)%nat -> (n <= 50)%nat ->
  reap_poll f waits (10 * Z.of_nat n) REAP_TIMEOUT_MS n = true <-> forall k, (n <= k < 50)%nat -> waits k = false.
Proof.
  revert n; induction f as [|f IH]; intros n Hf Hn; cbn [reap_poll]; [split; [lia|done]|]. unfold REAP_TIMEOUT_MS in *.
  destruct (Z.ltb_spec (10 * Z.of_nat n) 500); [|split; [lia|done]]. destruct (waits n) eqn:E.
  - split; [done|]. intros H'. rewrite H' in E; [done|lia].
  - replace (10 * Z.of_nat n + 10)%Z with (10 * Z.of_nat (S n))%Z by lia. rewrite IH by lia. split; intros H' k Hk; [|apply H'; lia].
    destruct (decide (k = n)) as [->|?]; [done|]. apply H'; lia.
Qed.

(** A worker is killed exactly when fifty polls, ten milliseconds apart, found
    it alive; either way [reap_bounded] returns. *)
Theorem reap_kills_the_stubborn waits : reap_bounded waits REAP_TIMEOUT_MS = true <-> forall k, (k < 50)%nat -> waits k = false.
Proof.
  unfold reap_bounded. change 0%Z with (10 * Z.of_nat 0)%Z at 1. rewrite reap_poll_spec; [|unfold REAP_TIMEOUT_MS; lia|lia].
  split; intros H k Hk; apply H; lia.
Qed.

(** ** On a concrete store *)
Import Fixture Channels.

(** Two voters whose frames cross, a third who leaves, and an administrator
    who closes the election between their answers. *)
Definition sample_acts : list action :=
  [Accept ($"ann"); Accept ($"bob"); Accept ($"cy"); Frame 1 (sent (cast_as ($"ann"))); Admin_moves; Admin_moves; Admin_moves; Admin_moves;
   Admin_moves; Frame 0 (sent (cast_as ($"ann"))); Die 2; Frame 1 ($"junk")] ++ replicate 6 Admin_moves ++
  [Control (sent (mkReq BCL_CLOSE [] ($"E-100") zero_ballot [] zero_config)) true; Answer 1; Admin_moves; Admin_moves; Answer 0; Admin_moves; Answer 1;
   Frame 1 ($"junk"); Control ($"junk") true] ++ replicate 8 Admin_moves ++ [Threads_joined; Main_quits] ++ replicate 10 Admin_moves.
Definition sample_dates (i n : nat) : option cstr := now.

Lemma interleavings_are_serial_witness :
  let d := run sample_dates (fun _ => now) sample_acts polls in
  d_store d = world_at polls (d_hist d) 3 /\ map c_from (d_hist d) = [Voter 0; Voter 1; Admin 0] /\
  map (fun p => map en_out (pr_log p)) (d_procs d) = [[Served 0]; [Served 1; Refused]; []] /\
  exists p, d_procs d !! 1%nat = Some p /\ calls_of (Voter 1) (d_hist d) = served (pr_log p) ++ option_list (pr_serial p).
Proof.
  destruct (interleavings_are_serial sample_dates (fun _ => now) polls sample_acts) as (Hs & Hp & _). cbv zeta in *.
  split; [rewrite Hs; f_equal; vm_compute; reflexivity|]. split; [vm_compute; reflexivity|]. split; [vm_compute; reflexivity|].
  destruct (d_procs (run sample_dates (fun _ => now) sample_acts polls) !! 1%nat) as [p|] eqn:E; [|vm_compute in E; discriminate].
  exists p. split; [reflexivity|]. exact (proj1 (Hp _ _ E)).
Defined.

Lemma admin_keeps_its_books_witness :
  let d := run sample_dates (fun _ => now) sample_acts polls in
  d_at d = Stopped /\ d_table d = [] /\ map pr_closes (d_procs d) = [1; 1; 1]%nat /\ (forall i p, d_procs d !! i = Some p -> pr_open p = false).
Proof.
  destruct (admin_keeps_its_books sample_dates (fun _ => now) sample_acts polls) as (_ & Hp & _ & _ & _ & Hstop). cbv zeta in *.
  assert (E : d_at (run sample_dates (fun _ => now) sample_acts polls) = Stopped) by (vm_compute; reflexivity).
  split; [exact E|]. split; [exact (Hstop E)|]. split; [vm_compute; reflexivity|]. intros i p Hi. destruct (Hp i p Hi) as [[Ho _] _].
  destruct (pr_open p); [exfalso|reflexivity]. specialize (Ho eq_refl). rewrite (Hstop E) in Ho.
  replace (d_notify (run sample_dates (fun _ => now) sample_acts polls)) with (@nil nat) in Ho by (vm_compute; reflexivity). exact (not_elem_of_nil i Ho).
Defined.

(** The 255th voter at a time is authenticated and then never answered: its
    descriptor is closed when the table is full, its session keeps reading
    frames and drops each of them without a word (or hangs on the first, while
    a session forked in between holds a copy of that descriptor), and its
    process is not reaped. *)
Example full_table_is_mute :
  let d := run sample_dates (fun _ => now) (replicate 255 (Accept ($"ann")) ++ replicate 260 Admin_moves ++
                 [Frame 254 (sent (cast_as ($"ann"))); Answer 254; Frame 254 (sent (cast_as ($"ann"))); Answer 254]) polls in
  match d_procs d !! 254%nat with
  | Some p => map en_out (pr_log p) = [Unserved; Unserved] /\ map en_answer (pr_log p) = [None; None] /\ pr_closes p = 1%nat /\ pr_reaps p = 0%nat
  | None => False
  end.
Proof. vm_compute. repeat split. Qed.

End Threads.
