(* ===== verification/Transport.v ===== *)
(** * The transport: libballotclient/transport.c, ctl_frame.h, ballotd/session.c

    The client's two ways to the daemon over real streams: the encrypted
    session, opened once, and the one-shot control connection with its
    plaintext frames; and [session_main], the other end of the first.  A
    descriptor is the [sock] of Tetrissh.v; here a stream with no segment left
    is at its end, and an empty segment is a failing read. *)
From S2P Require Import Prelude CText Types Rows Sql Wire Server BrainDb Brain Htttp Codec CodecLogic Daemon Client Tetrissh Token Rc Accounts Auth.
Import Server Htttp Codec Daemon Client Tetrissh Accounts Auth.
Local Open Scope Z_scope.

Module Transport.

(** ** ctl_frame.h *)

Definition CTL_PREFIX_LEN : nat := 4.

Definition ctl_write_all (buf : bytes) (k : sock) : bool * sock := send_loop (length buf) buf k.

(** [len] of [want] bytes are missing.  [inl] is the error code. *)
Fixpoint ctl_read_loop (fuel want len : nat) (buf : bytes) (k : sock) : (Z + bytes) * sock :=
  match len, fuel with
  | O, _ => (inr buf, k)
  | _, O => (inl (-1), k)
  | S _, S f =>
    match so_in k with
    | [] => (inl (if (len =? want)%nat then -2 else -1), k)
    | _ =>
      match recv len k with
      | None => (inl (-1), k)
      | Some (got, k') => ctl_read_loop f want (len - length got) (buf ++ got) k'
      end
    end
  end.
Definition ctl_read_all (len : nat) (k : sock) : (Z + bytes) * sock := ctl_read_loop len len len [] k.

(** [len >> 24], [len >> 16], [len >> 8], [len], each cut to a byte. *)
Definition ctl_prefix (len : Z) : bytes := [byte_of (Z.shiftr len 24); byte_of (Z.shiftr len 16); byte_of (Z.shiftr len 8); byte_of len].

Definition ctl_frame_write (buf : bytes) (k : sock) : bool * sock :=
  match ctl_write_all (ctl_prefix (Z.of_nat (length buf))) k with
  | (false, k1) => (false, k1)
  | (true, k1) => ctl_write_all buf k1
  end.

Definition ctl_frame_read (cap : nat) (k : sock) : (Z + bytes) * sock :=
  match ctl_read_all CTL_PREFIX_LEN k with
  | (inl rc, k1) => (inl rc, k1)
  | (inr [b0; b1; b2; b3], k1) =>
    let n := Z.lor (Z.lor (Z.lor (Z.shiftl (code b0) 24) (Z.shiftl (code b1) 16)) (Z.shiftl (code b2) 8)) (code b3) in
    if (n =? 0) || (Z.of_nat cap <? n) then (inl (-1), k1)
    else match ctl_read_all (Z.to_nat n) k1 with
         | (inl _, k2) => (inl (-1), k2)
         | (inr data, k2) => (inr data, k2)
         end
  | (inr _, k1) => (inl (-1), k1)
  end.

(** ** transport.c *)

Inductive bcl_conn_t :=
  BCL_CONN_OK | BCL_CONN_ERR_ADDRESS | BCL_CONN_ERR_SOCKET | BCL_CONN_ERR_REFUSED | BCL_CONN_ERR_CERT | BCL_CONN_ERR_IO | BCL_CONN_ERR_PROTO.

Record bcl_transport_t := mkTransport { tp_session : session_t; tp_sock : sock; tp_connected : bool }.
(** internal.h; the log holds the lines written so far, [cx_open] counts the
    session sockets of this client the kernel has open. *)
Record bcl_ctx := mkCtx { cx_transport : option bcl_transport_t; cx_ctl_path : cstr; cx_log : list cstr; cx_open : nat }.

Definition set_transport t c := mkCtx t (cx_ctl_path c) (cx_log c) (cx_open c).
Definition set_open n c := mkCtx (cx_transport c) (cx_ctl_path c) (cx_log c) n.
Definition bcl_log (line : cstr) (c : bcl_ctx) : bcl_ctx := mkCtx (cx_transport c) (cx_ctl_path c) (cx_log c ++ [line]) (cx_open c).

(** client.c: a new context, if [calloc] gave one; freeing it closes nothing,
    so the sockets still open stay open. *)
Definition bcl_create (calloc_ok : bool) : option bcl_ctx := if calloc_ok then Some (mkCtx None [] [] 0) else None.
Definition bcl_destroy (c : bcl_ctx) : nat := cx_open c.

Definition CTL_PATH_MAX : nat := Z.to_nat 256.
Definition SUN_PATH : nat := 108.

Definition bcl_set_ctl_path (path : option cstr) (c : bcl_ctx) : bcl_ctx :=
  match path with None => c | Some path => mkCtx (cx_transport c) (trunc CTL_PATH_MAX path) (cx_log c) (cx_open c) end.

Definition bcl_connected (c : bcl_ctx) : bool := match cx_transport c with Some t => tp_connected t | None => false end.

(** The session is scrubbed and its socket closed while it is connected; the
    struct is freed either way. *)
Definition bcl_disconnect (c : bcl_ctx) : bcl_ctx :=
  match cx_transport c with
  | Some t => set_transport None (if tp_connected t then set_open (cx_open c - 1) c else c)
  | None => c
  end.

Section Transport.
Context `{R : Runner} `{U : UserRunner} `{SSL : OpenSSL}.

(** What dialling meets: [socket], [inet_pton] on the host, [connect], and
    what the handshake draws. *)
Record dial := mkDial {
  dl_socket : bool; dl_address : bool; dl_connect : option sock;
  dl_ca_file : option bytes; dl_nonce : option bytes; dl_key : option bytes; dl_seed : bytes }.

Definition why_of (src : session_err_t) : bcl_conn_t :=
  match src with SESSION_ERR_AUTH => BCL_CONN_ERR_CERT | SESSION_ERR_IO => BCL_CONN_ERR_IO | _ => BCL_CONN_ERR_PROTO end.

(** [host], [ca_path]: [None] is NULL. *)
Definition bcl_connect_why (host ca_path : option cstr) (dl : dial) (c : bcl_ctx) : bb_result_t * bcl_conn_t * bcl_ctx :=
  match host, ca_path with
  | Some _, Some _ =>
    if negb (dl_socket dl) then (BB_ERR_DB, BCL_CONN_ERR_SOCKET, c)
    else if negb (dl_address dl) then (BB_ERR_DB, BCL_CONN_ERR_ADDRESS, c)
    else match dl_connect dl with
    | None => (BB_ERR_DB, BCL_CONN_ERR_REFUSED, c)
    | Some fd =>
      match session_connect (dl_ca_file dl) (dl_nonce dl) (dl_key dl) (dl_seed dl) fd with
      | (SESSION_OK, session, fd) =>
        let c := bcl_disconnect (set_open (S (cx_open c)) c) in
        (BB_OK, BCL_CONN_OK, bcl_log ($"[transport] connected") (set_transport (Some (mkTransport session fd true)) c))
      | (src, _, _) => (BB_ERR_DB, why_of src, c)
      end
    end
  | _, _ => (BB_ERR_DB, BCL_CONN_ERR_SOCKET, c)
  end.

(** One request and its answer on the session: [inl connected] when it
    failed. *)
Definition exchange_frames (iv : option bytes) (wire : bytes) (t : bcl_transport_t) : (bool + bytes) * bcl_transport_t :=
  match session_send (tp_session t) iv wire (tp_sock t) with
  | (SESSION_OK, k1) =>
    match session_recv (tp_session t) (Z.to_nat Tetrissh.SESSION_MAX_FRAME) k1 with
    | (SESSION_OK, rbuf, s, k2) => (inr rbuf, mkTransport s k2 (tp_connected t))
    | (SESSION_ERR_IO, _, s, k2) | (SESSION_ERR_TOOBIG, _, s, k2) => (inl false, mkTransport s k2 false)
    | (_, _, s, k2) => (inl true, mkTransport s k2 (tp_connected t))
    end
  | (_, k1) => (inl false, mkTransport (tp_session t) k1 false)
  end.

Definition AUTH_BODY_MAX : nat := Z.to_nat 256.

(** [None] is -1: [*out_status] is not written. *)
Definition bcl_auth (iv : option bytes) (method username password : cstr) (c : bcl_ctx) : option Z * bcl_ctx :=
  match cx_transport c with
  | None => (None, c)
  | Some t =>
    if negb (tp_connected t) then (None, c)
    else
      let body := username ++ LF :: password in
      if (AUTH_BODY_MAX <=? length body)%nat then (None, c)
      else if (HTTTP_MAX_METHOD <=? length method)%nat then (None, c)
      else match htttp_serialize_request (mkRequest method ($"/") [] (Some body) (length body)) Daemon.SESSION_MAX_FRAME with
      | HErr _ => (None, c)
      | HOk wire =>
        let '(r, t) := exchange_frames iv wire t in
        let c := set_transport (Some t) c in
        match r with
        | inl _ => (None, c)
        | inr rbuf => match htttp_parse_response rbuf with HErr _ => (None, c) | HOk resp => (Some (rp_status resp), c) end
        end
      end
  end.

Definition op_number (op : bcl_op_t) : Z :=
  match op with
  | BCL_JOIN => 0 | BCL_CAST => 1 | BCL_UPDATE => 2 | BCL_RESULTS => 3 | BCL_CHECK => 4 | BCL_CREATE => 5 | BCL_OPEN => 6 | BCL_CLOSE => 7
  | BCL_PUBLISH => 8 | BCL_ADMIN_RESULTS => 9 | BCL_ADMIN_CHECK => 10 | BCL_ADMIN_NEXT_ID => 11
  end.
Definition encode_failed (req : bcl_request_t) (c : bcl_ctx) : bcl_ctx :=
  bcl_log ($"[transport] encode failed for op=" ++ print_int (op_number (cr_op req))) c.

(** The answer's text becomes the response and its status the result. *)
Definition read_answer (rbuf : bytes) : bb_result_t * bcl_response_t :=
  match htttp_parse_response rbuf with
  | HErr _ => (BB_ERR_DB, zero_resp)
  | HOk http => let '(resp, ok) := bcl_decode_response http in if ok then (cp_status resp, resp) else (BB_ERR_DB, resp)
  end.

Definition send_via_session (iv : option bytes) (req : bcl_request_t) (c : bcl_ctx) : bb_result_t * bcl_response_t * bcl_ctx :=
  match cx_transport c with
  | None => (BB_ERR_DB, zero_resp, c)
  | Some t =>
    if negb (tp_connected t) then (BB_ERR_DB, zero_resp, c)
    else match bcl_encode_request req Daemon.SESSION_MAX_FRAME with
    | None => (BB_ERR_DB, zero_resp, encode_failed req c)
    | Some wire =>
      let '(r, t) := exchange_frames iv wire t in
      let c := set_transport (Some t) c in
      match r with
      | inl _ => (BB_ERR_DB, zero_resp, c)
      | inr rbuf => let '(st, resp) := read_answer rbuf in (st, resp, c)
      end
    end
  end.

(** [fd]: the control connection once [socket] and [connect] succeeded; the
    descriptor is given back closed, for what was written on it. *)
Definition send_via_ctl (fd : option sock) (req : bcl_request_t) (c : bcl_ctx) : bb_result_t * bcl_response_t * option sock * bcl_ctx :=
  match cx_ctl_path c with
  | [] => (BB_ERR_DB, zero_resp, None, c)
  | path =>
    if (SUN_PATH <=? length path)%nat then (BB_ERR_DB, zero_resp, None, c)
    else match fd with
    | None => (BB_ERR_DB, zero_resp, None, c)
    | Some k =>
      match bcl_encode_request req CTL_MAX_FRAME with
      | None => (BB_ERR_DB, zero_resp, Some k, encode_failed req c)
      | Some wire =>
        match ctl_frame_write wire k with
        | (false, k1) => (BB_ERR_DB, zero_resp, Some k1, c)
        | (true, k1) =>
          match ctl_frame_read CTL_MAX_FRAME k1 with
          | (inl _, k2) => (BB_ERR_DB, zero_resp, Some k2, c)
          | (inr rbuf, k2) => let '(st, resp) := read_answer rbuf in (st, resp, Some k2, c)
          end
        end
      end
    end
  end.

Definition bcl_send (iv : option bytes) (fd : option sock) (req : bcl_request_t) (c : bcl_ctx) : bb_result_t * bcl_response_t * bcl_ctx :=
  if is_admin_op (cr_op req) then let '(st, resp, _, c) := send_via_ctl fd req c in (st, resp, c) else send_via_session iv req c.

(** ** control_plane.c: the other end of a control connection *)

(** [handle_conn] with its frame read from and its answer written to the
    connection. *)
Definition serve_ctl (date : option cstr) (notified : bool) (k : sock) (w : world) : sock * world :=
  match ctl_frame_read CTL_MAX_FRAME k with
  | (inl _, k1) => (k1, w)
  | (inr frame, k1) =>
    match handle_conn date notified frame w with
    | (Some out, w1) => (snd (ctl_frame_write out k1), w1)
    | (None, w1) => (k1, w1)
    end
  end.

(** ** session.c: the other end of a session *)

Variable PBKDF2 : cstr -> cstr -> Z -> option cstr.
Variable TOKEN_HMAC : cstr -> cstr -> option (list ascii).

(** The loop over the frames: [answer n buf] is what [handle_request] sends
    for the [n]-th frame, [ivs n] what the answer is sealed with.  The frames
    handled, oldest first, and the stream; [None]: still going. *)
Fixpoint session_loop (fuel : nat) (answer : nat -> bytes -> option bytes) (ivs : nat -> option bytes) (n : nat) (s : session_t) (k : sock)
    : option (list bytes * session_t * sock) :=
  match fuel with
  | O => None
  | S f =>
    match session_recv s (Z.to_nat Tetrissh.SESSION_MAX_FRAME) k with
    | (SESSION_OK, buf, s, k) =>
      let k := match answer n buf with Some out => snd (session_send s (ivs n) out k) | None => k end in
      '(frames, s, k) ← session_loop f answer ivs (S n) s k; Some (buf :: frames, s, k)
    | (SESSION_ERR_IO, _, s, k) | (SESSION_ERR_TOOBIG, _, s, k) => Some ([], s, k)
    | (_, _, s, k) => session_loop f answer ivs n s k
    end
  end.

(** How a session process ends: it never authenticated a peer, or it handled
    [frames] under [name]. *)
Inductive session_end := No_key | Handshake_failed | Dropped | Ended (name : cstr) (frames : list bytes).

(** [priv]: the key, if its file can be read; [a]: the authentication
    library's globals and the accounts. *)
Definition session_main (priv : option EVP_PKEY) (cert_file : option bytes) (salt : bytes) (rds : nat -> readings)
    (answer : cstr -> nat -> bytes -> option bytes) (ivs : nat -> option bytes) (a : auth_state) : option (session_end * auth_state) :=
  match priv with
  | None => Some (No_key, a)
  | Some priv =>
    match session_accept priv cert_file salt (au_sock a) with
    | (SESSION_OK, sh, k) =>
      match auth_retry_handler PBKDF2 TOKEN_HMAC rds (with_session sh k a) with
      | (None, _) => None
      | (Some AUTH_DROP, a) => Some (Dropped, with_session (session_close (au_session a)) (au_sock a) a)
      | (Some AUTH_OK, a) =>
        let cert_name := trunc MAX_USER_NAME (glb_name a) in
        '(frames, s, k) ← session_loop (S (length (concat (so_in (au_sock a))))) (answer cert_name) ivs 0 (au_session a) (au_sock a);
        Some (Ended cert_name frames, with_session (session_close s) k a)
      end
    | (_, s, k) => Some (Handshake_failed, with_session s k a)
    end
  end.

End Transport.
End Transport.
