(* ===== verification/Hops.v ===== *)
(** * What the transport guarantees

    Control frames arrive however the stream is cut; an administrator's
    request acts on the store as the dispatcher does and its answer is what the
    administrator is told; the client's session path is the abstract exchange of
    Client.v; credentials reach the account checks as they were typed; and a
    session process handles only frames sealed under its key, under a name that
    was earned. *)
From S2P Require Import Prelude CText Types Rows Sql Wire Server BrainDb Brain Fixture Printed DbLogic Htttp Codec CodecLogic Delivery Answers Daemon Frame Channels Client EndToEnd Tetrissh Tunnel Token Rc Accounts Registry Auth Gate Transport.
Import Server Htttp Codec CodecLogic Delivery Answers Daemon Client Tetrissh Tunnel Rc Accounts Registry Auth Gate Transport.
Local Open Scope Z_scope.

Module Hops.

(** ** Control frames *)

Lemma ctl_read_ok fuel want n buf k : (n <= fuel)%nat -> (n <= length (flow (so_in k)))%nat ->
  exists k', ctl_read_loop fuel want n buf k = (inr (buf ++ take n (flow (so_in k))), k') /\
    flow (so_in k') = drop n (flow (so_in k)) /\ so_takes k' = so_takes k /\ so_out k' = so_out k.
Proof.
  revert n buf k; induction fuel as [|fuel IH]; intros n buf k Hf Hl; (destruct n as [|n]; [exists k; cbn; by rewrite app_nil_r|]); [lia|].
  cbn [ctl_read_loop]. pose proof (recv_spec (S n) k ltac:(lia)) as Hr.
  destruct (so_in k) as [|seg segs] eqn:Es; [cbn in Hl; lia|]. rewrite <-Es in *.
  destruct (recv (S n) k) as [[got k1]|]; [|rewrite Hr in Hl; cbn in Hl; lia].
  destruct Hr as (j & Hj & Hjl & -> & Hf1 & Ht1 & Ho1).
  rewrite length_take, (Nat.min_l j) by lia. destruct (IH (S n - j)%nat (buf ++ take j (flow (so_in k))) k1) as (k' & E & H1 & H2 & H3);
    [lia|rewrite Hf1, length_drop; lia|]. exists k'. rewrite E, Hf1 in *. split; [|split; [|split; congruence]].
  - f_equal. f_equal. rewrite <-app_assoc. f_equal. rewrite take_take_drop. f_equal. lia.
  - rewrite H1, drop_drop. f_equal. lia.
Qed.

(** A control frame on the wire. *)
Definition ctl_bytes (buf : bytes) : bytes := ctl_prefix (Z.of_nat (length buf)) ++ buf.

Lemma ctl_frame_write_ok buf k inb out : at_ k inb out -> exists k', ctl_frame_write buf k = (true, k') /\ at_ k' inb (out ++ ctl_bytes buf).
Proof.
  intros Hk. unfold ctl_frame_write, ctl_write_all, ctl_bytes.
  destruct (send_loop_ok (length (ctl_prefix (Z.of_nat (length buf)))) _ k inb out Hk (le_n _)) as (k1 & -> & Hk1).
  destruct (send_loop_ok (length buf) buf k1 inb _ Hk1 (le_n _)) as (k2 & -> & Hk2). exists k2. split; [done|]. by rewrite app_assoc.
Qed.

Lemma ctl_frame_read_ok buf cap k rest : flow (so_in k) = ctl_bytes buf ++ rest -> (0 < length buf <= cap)%nat -> Z.of_nat cap < 2 ^ 32 ->
  exists k', ctl_frame_read cap k = (inr buf, k') /\ flow (so_in k') = rest /\ so_takes k' = so_takes k /\ so_out k' = so_out k.
Proof.
  intros Hf Hb Hc. unfold ctl_bytes, ctl_prefix in Hf. rewrite u32_bytes, <-app_assoc in Hf.
  pose proof (be_bytes_length 4 (Z.of_nat (length buf))) as Hl. unfold ctl_frame_read, ctl_read_all, CTL_PREFIX_LEN.
  destruct (ctl_read_ok 4 4 4 [] k) as (k1 & -> & Hf1 & Ht1 & Ho1); [lia|rewrite Hf, length_app, Hl; lia|].
  rewrite Hf in *. rewrite take_app_le, take_ge, drop_app_le, (drop_ge (be_bytes 4 _)) in * by lia. cbn [app] in *.
  pose proof (be_value_bytes 4 (Z.of_nat (length buf)) ltac:(change (256 ^ Z.of_nat 4) with (2 ^ 32); lia)) as Hv.
  destruct (be_bytes 4 (Z.of_nat (length buf))) as [|b0 [|b1 [|b2 [|b3 [|? ?]]]]]; try done. rewrite u32_value, Hv.
  rewrite (proj2 (Z.eqb_neq _ _)), (proj2 (Z.ltb_ge _ _)) by lia. cbn [orb]. rewrite Nat2Z.id.
  destruct (ctl_read_ok (length buf) (length buf) (length buf) [] k1) as (k2 & -> & Hf2 & Ht2 & Ho2); [lia|rewrite Hf1, length_app; lia|].
  rewrite Hf1, take_app_length, drop_app_length in *. exists k2. split; [done|]. split; [done|]. split; congruence.
Qed.

Lemma ctl_room n : (n <= MESSAGE_MAX)%nat -> (n <= CTL_MAX_FRAME)%nat.
Proof. unfold MESSAGE_MAX, CTL_MAX_FRAME. lia. Qed.

Lemma ctl_max_u32 : Z.of_nat CTL_MAX_FRAME < 2 ^ 32.
Proof. unfold CTL_MAX_FRAME. rewrite Z2Nat.id; lia. Qed.

(** ** The session path is the exchange of Client.v *)

Section Hops.
Context `{R : Runner} `{U : UserRunner} `{SSL : OpenSSL}.

(** What the stream of a transport makes of a frame. *)
Definition stream_exchange (iv : option bytes) (t : bcl_transport_t) (wire : list ascii) : exchange :=
  match session_send (tp_session t) iv wire (tp_sock t) with
  | (SESSION_OK, k1) =>
    match session_recv (tp_session t) (Z.to_nat Tetrissh.SESSION_MAX_FRAME) k1 with
    | (SESSION_OK, rbuf, _, _) => Answered rbuf
    | (SESSION_ERR_IO, _, _, _) | (SESSION_ERR_TOOBIG, _, _, _) => RecvFails true
    | _ => RecvFails false
    end
  | _ => SendFails
  end.

(** [send_via_session] over a real stream is the one of Client.v over what
    that stream does, so that every theorem about the clients' flows holds of
    it; a dead stream stays dead. *)
Theorem session_path_refines iv req c t : cx_transport c = Some t ->
  let '(st, resp, connected) := Client.send_via_session (stream_exchange iv t) (tp_connected t) req in
  let '(st', resp', c') := Transport.send_via_session iv req c in
  st' = st /\ resp' = resp /\ bcl_connected c' = connected.
Proof.
  intros Ht. unfold Client.send_via_session, Transport.send_via_session, bcl_connected, stream_exchange. rewrite Ht.
  destruct (tp_connected t) eqn:Ec; cbn [negb]; [|by rewrite Ht]. destruct (bcl_encode_request req _) as [wire|]; [|unfold encode_failed, bcl_log; cbn [cx_transport]; by rewrite Ht].
  unfold exchange_frames, read_answer. destruct (session_send _ _ _ _) as [[] k1]; try done.
  destruct (session_recv _ _ k1) as [[[[] rbuf] s] k2]; cbn [set_transport cx_transport tp_connected negb]; rewrite ?Ec; try done.
  destruct (htttp_parse_response rbuf) as [http|]; [|cbn [set_transport cx_transport tp_connected]; by rewrite ?Ec].
  destruct (bcl_decode_response http) as [resp []]; cbn [set_transport cx_transport tp_connected]; by rewrite ?Ec.
Qed.

(** ** An administrator's request *)

(** What the two ends of a control connection do to each other: the daemon
    reads what the client wrote, the client reads what the daemon wrote. *)
Record ctl_pair (wire : bytes) (kc ks ks' : sock) : Prop := {
  cp_up : flow (so_in ks) = ctl_bytes wire;
  cp_down : flow (so_in kc) = so_out ks';
  cp_fresh : so_out ks = [];
  cp_takes : Forall (fun n => n <> 0%nat) (so_takes ks) /\ Forall (fun n => n <> 0%nat) (so_takes kc) }.

Definition path_ok (c : bcl_ctx) : Prop := cx_ctl_path c <> [] /\ (length (cx_ctl_path c) < SUN_PATH)%nat.

(** What an administrator asks is what is done, and the answer is what the
    administrator is told.  For every admin operation whose request fits its
    fields, over a control connection cut in any way, the store ends where the
    dispatcher leaves it, and [bcl_send] returns the dispatcher's response as
    its fields go over the wire. *)
Theorem admin_request_reaches_the_box date req w c iv kc ks ks' w' :
  is_admin_op (cr_op req) = true -> shaped req -> clean req -> date_ok date -> path_ok c ->
  serve_ctl (Some date) true ks w = (ks', w') -> ctl_pair (request_text (request_http req)) kc ks ks' ->
  let '(resp, w1) := ballotd_dispatch (wire_view req) w in
  resp_shaped resp -> answer_clean (cr_op req) resp -> cp_status resp <> BB_ERR_RETRY ->
  w' = w1 /\ exists c', bcl_send iv (Some kc) req c = (cp_status (answer_view (cr_op req) resp), answer_view (cr_op req) resp, c').
Proof.
  intros Hop Hsh Hcl Hd [Hp Hpl] Hserve [Hup Hdown Hfresh [Hts Htc]]. set (wire := request_text (request_http req)) in *.
  destruct (encode_shaped req CTL_MAX_FRAME Hsh) as [He _]; [unfold MESSAGE_MAX, CTL_MAX_FRAME; lia|]. specialize (He Hcl).
  destruct (request_arrives req Hsh Hcl) as (http & Hparse & Hdec). fold wire in He, Hparse.
  pose proof (request_text_length req Hsh) as Hwl. fold wire in Hwl.
  assert (Hw0 : (0 < length wire)%nat) by (destruct wire; [done|simpl; lia]).
  rewrite <-(app_nil_r (ctl_bytes wire)) in Hup.
  destruct (ctl_frame_read_ok wire CTL_MAX_FRAME ks [] Hup) as (k1 & E1 & _ & Ht1 & Ho1); [split; [done|by apply ctl_room]|apply ctl_max_u32|].
  assert (Hctl : is_ctl_op (cr_op (wire_view req)) = true) by (rewrite EndToEnd.wire_view_op; by destruct (cr_op req)).
  unfold serve_ctl, handle_conn, handle_ctl_req in Hserve. rewrite E1, Hparse, Hdec, Hctl in Hserve. cbn [negb] in Hserve.
  destruct (ballotd_dispatch (wire_view req) w) as [resp w1]. intros Hrs Hac Hst. rewrite EndToEnd.wire_view_op in Hserve.
  rewrite encode_answer, decide_True in Hserve; [|done..|unfold MESSAGE_MAX, CTL_MAX_FRAME; lia].
  set (out := response_text date (status_reason (cp_status resp)) (answer_http (cr_op req) resp)) in *.
  destruct (ctl_frame_write_ok out k1 (flow (so_in k1)) []) as (k2 & E2 & Hk2); [split; [done|congruence|by rewrite Ht1]|].
  rewrite E2 in Hserve. injection Hserve as <- <-. split; [done|].
  destruct (answer_arrives date (cr_op req) resp Hst Hd Hrs Hac) as (h & Hph & Hdh). fold out in Hph.
  destruct (answer_body (cr_op req) resp Hst Hrs) as [_ Hbl]. pose proof (answer_text_length date (cr_op req) resp Hd Hbl) as Hol. fold out in Hol.
  assert (Ho0 : (0 < length out)%nat) by (destruct out; [done|simpl; lia]).
  rewrite (at_out _ _ _ Hk2) in Hdown. cbn [app] in Hdown.
  destruct (ctl_frame_write_ok wire kc (ctl_bytes out) (so_out kc)) as (k3 & E3 & Hk3); [by split|].
  destruct (ctl_frame_read_ok out CTL_MAX_FRAME k3 []) as (k4 & E4 & _);
    [rewrite (at_in _ _ _ Hk3); symmetry; apply app_nil_r|split; [done|by apply ctl_room]|apply ctl_max_u32|].
  exists c. unfold bcl_send, send_via_ctl. rewrite Hop. destruct (cx_ctl_path c) as [|p0 path] eqn:Ep; [done|].
  rewrite (proj2 (Nat.leb_gt _ _)) by done. rewrite He, E3, E4. unfold read_answer. by rewrite Hph, Hdh.
Qed.

(** ** A session process *)

Variable PBKDF2 : cstr -> cstr -> Z -> option cstr.
Variable TOKEN_HMAC : cstr -> cstr -> option (list ascii).
Hypothesis PBKDF2_length : forall pass salt iters d, PBKDF2 pass salt iters = Some d -> length d = HASH_DIGEST_BYTES.

Lemma read_field_err cap k e k' : read_field cap k = (inl e, k') -> e <> SESSION_OK.
Proof. unfold read_field. repeat (case_match; try done); by intros [= <- _]. Qed.

Lemma accept_live priv cert_file salt k sh k' : session_accept priv cert_file salt k = (SESSION_OK, sh, k') ->
  ss_established sh = true /\ ss_recv_dead sh = false.
Proof.
  unfold session_accept. destruct (read_field TSSH_MAX_NONCE_LEN k) as [[e|nonce] k1] eqn:E; [apply read_field_err in E; intros H; congruence|].
  intros H. repeat (case_match; simplify_eq/=; try done).
Qed.

Lemma auth_loop_session fuel rds n i a a' : live a -> conf_ok (glb_conf a) ->
  auth_loop PBKDF2 TOKEN_HMAC fuel rds n i a = (Some AUTH_OK, a') -> au_session a' = au_session a.
Proof.
  revert n i a. induction fuel as [|f IH]; intros n i a Hl Hc; cbn [auth_loop]; (destruct (_ <? _); [|done]); [done|].
  pose proof (handler_progress PBKDF2 TOKEN_HMAC (rds n) a Hl Hc) as Hp. destruct (auth_handler _ _ _ a) as [status a1]. destruct Hp as [Hc1 Hp].
  destruct (Z.eqb_spec status 200) as [->|Hne]; [intros [= <-]; by destruct Hp as [?|[? _]]|].
  destruct (Z.ltb_spec status 0); [done|]. destruct Hp as [->|[Hs _]]; [lia|]. intros E. rewrite <-Hs. eapply IH; [|done|exact E]. unfold live. by rewrite Hs.
Qed.

(** The frames of a session, each opened with its key, until the stream ends. *)
Lemma session_loop_ends fuel answer ivs n s k : ss_established s = true -> ss_recv_dead s = false -> (length (flow (so_in k)) < fuel)%nat ->
  exists frames s' k', session_loop fuel answer ivs n s k = Some (frames, s', k') /\ Forall (fun f => exists token, sealed (ss_key s) token f) frames.
Proof.
  revert n k. induction fuel as [|f IH]; intros n k He Hd Hf; [lia|]. cbn [session_loop].
  pose proof (recv_progress s (Z.to_nat Tetrissh.SESSION_MAX_FRAME) k He Hd) as Hp. destruct (session_recv s _ k) as [[[code plain] s1] k1].
  destruct Hp as [->|[->|(-> & Hl & Hok)]]; [by exists [], s1, k1..|].
  assert (Hnext : forall m k2, so_in k2 = so_in k1 -> exists frames s' k', session_loop f answer ivs m s k2 = Some (frames, s', k') /\
    Forall (fun f => exists token, sealed (ss_key s) token f) frames) by (intros m k2 Hk2; apply IH; [done..|rewrite Hk2; lia]).
  destruct code; try (by apply Hnext); [|by exists [], s, k1..]. set (k2 := match answer n plain with Some out => _ | None => _ end).
  destruct (Hnext (S n) k2) as (frames & s' & k' & -> & HF); [unfold k2; destruct (answer n plain); [apply session_send_in|done]|].
  exists (plain :: frames), s', k'. split; [done|]. constructor; [auto|done].
Qed.

Lemma earned_short key l name : earned PBKDF2 key l name -> (length name < MAX_USER_NAME)%nat.
Proof.
  intros [->|(token & plain & req & method & c & _ & _ & _ & _ & _ & Hf & _)]; [simpl; unfold MAX_USER_NAME; lia|].
  apply fold_name_good, good_name_plain in Hf as [_ Hl]. unfold MAX_USER_NAME. lia.
Qed.

(** C40: a session handles nothing before its peer is known, and nothing its
    peer did not seal.  Once the handshake is done, the process ends with the
    peer's stream; either it drops the peer without handling a frame, or the
    name it handles every frame under is that of an account whose password the
    peer proved under the session key, or the empty one of a guest (a path
    session.c:149 says is not there, see [guest_is_accepted] in Gate.v), every
    frame it handles was sealed under that key and no account was lost; and at
    the end the session is closed and the bytes of its key are zero. *)
Theorem session_serves_the_proven priv cert_file salt rds answer ivs a sh k :
  session_accept priv cert_file salt (au_sock a) = (SESSION_OK, sh, k) ->
  conf_ok (glb_conf a) -> (forall n, readings_ok (rds n)) -> store_ok (S (length (concat (so_in k)))) (au_world a) ->
  exists e a', session_main PBKDF2 TOKEN_HMAC (Some priv) cert_file salt rds answer ivs a = Some (e, a') /\
    (e = Dropped \/ exists name frames, e = Ended name frames /\
      users_ok (uw_users (au_world a')) /\ uw_users (au_world a) ⊆+ uw_users (au_world a') /\
      earned PBKDF2 (ss_key sh) (uw_users (au_world a')) name /\ Forall (fun f => exists token, sealed (ss_key sh) token f) frames) /\
    ss_established (au_session a') = false /\ ss_key (au_session a') = replicate SESSION_KEY_LEN "000"%char.
Proof.
  intros Hacc Hc Hrd Hst. destruct (accept_live _ _ _ _ _ _ Hacc) as [He Hd]. unfold session_main. rewrite Hacc.
  set (a0 := with_session sh k a). assert (Hl : live a0) by done.
  unfold auth_retry_handler. destruct (auth_loop_ends PBKDF2 TOKEN_HMAC (S (length (concat (so_in (au_sock a0))))) rds 0 0 a0 Hl Hc) as [r Er];
    [unfold ahead; pose proof (flow_length (so_in (au_sock a0))); lia|].
  destruct (auth_loop _ _ _ rds 0 0 a0) as [r' a1] eqn:El. cbn [fst] in Er. subst r'. destruct r.
  - pose proof (auth_loop_session _ _ _ _ _ _ Hl Hc El) as Hs. change (au_session a0) with sh in Hs.
    destruct (auth_loop_earns PBKDF2 TOKEN_HMAC PBKDF2_length _ _ _ _ _ _ Hl Hc Hrd Hst El) as (Hu & Hsub & Hearn).
    destruct (session_loop_ends (S (length (concat (so_in (au_sock a1))))) (answer (trunc MAX_USER_NAME (glb_name a1))) ivs 0 (au_session a1) (au_sock a1))
      as (frames & s' & k' & -> & HF); [by rewrite Hs..|pose proof (flow_length (so_in (au_sock a1))); lia|].
    do 2 eexists. split; [reflexivity|]. split; [|done]. right. exists (trunc MAX_USER_NAME (glb_name a1)), frames. split; [done|].
    rewrite trunc_id by (by eapply earned_short). rewrite Hs in HF. done.
  - do 2 eexists. split; [reflexivity|]. split; [by left|done].
Qed.

(** ** Credentials *)

Definition method_word (m : auth_method_t) : cstr :=
  match m with AUTH_GUEST => $"GUEST" | AUTH_LOGIN => $"LOGIN" | AUTH_REGISTER => $"REGISTER" | AUTH_NONE => [] end.

(** What can be typed: both parts, the user name on one line, and together
    within the client's buffer. *)
Record typed (user pass : cstr) : Prop := {
  ty_user : user <> [] /\ Rows.no_char LF user; ty_pass : pass <> []; ty_room : (length user + 1 + length pass < AUTH_BODY_MAX)%nat }.

Definition auth_request (method user pass : cstr) : htttp_request_t :=
  mkRequest method ($"/") [] (Some (user ++ LF :: pass)) (length (user ++ LF :: pass)).

Lemma auth_wire m user pass : typed user pass -> m = AUTH_LOGIN \/ m = AUTH_REGISTER ->
  exists wire req, htttp_serialize_request (auth_request (method_word m) user pass) Daemon.SESSION_MAX_FRAME = HOk wire /\ (length wire <= 1000)%nat /\
    htttp_parse_request wire = HOk req /\ auth_method_of req = m /\ req_body_split (rq_body req) (rq_body_len req) = Some (mkAcc user pass).
Proof.
  intros [[Hu Hl] Hp Hr] Hm. set (body := user ++ LF :: pass). assert (Hb : length body = (length user + 1 + length pass)%nat) by (unfold body; rewrite length_app; simpl; lia).
  unfold AUTH_BODY_MAX in Hr. set (req := auth_request (method_word m) user pass).
  assert (Hw : valid_field (method_word m) false = true /\ method_word m <> [] /\ (length (method_word m) <= 8)%nat) by (destruct Hm as [-> | ->]; repeat split; vm_compute; (done || lia)).
  destruct Hw as (Hwv & Hwn & Hwl).
  assert (Hlen : (length (request_text req) <= 1000)%nat).
  { unfold request_text, req, auth_request. cbn [rq_method rq_path rq_headers rq_body rq_body_len]. fold body. clearbody body. change (keep false []) with (@nil htttp_header_t). cbn [app].
    assert (Hh : (length (headers_text (length_header (length body))) <= 100)%nat).
    { unfold length_header. destruct (0 <? length body)%nat; [|simpl; lia]. unfold headers_text. cbn [map concat]. rewrite app_nil_r. unfold header_text. cbn [h_key h_value].
      pose proof (print_uint_length (Z.of_nat (length body))). repeat (rewrite length_app || cbn [length]). simpl. lia. }
    assert (Hbb : length (body_bytes (Some body) (length body)) = length body) by (unfold body_bytes; cbn [default]; by rewrite take_ge).
    repeat (rewrite length_app || cbn [length]). rewrite Hbb. change (length HTTTP_VERSION) with 9%nat. change (length ($"/")) with 1%nat. change (length CRLF) with 2%nat. lia. }
  assert (Es : htttp_serialize_request req Daemon.SESSION_MAX_FRAME = HOk (request_text req)).
  { apply serialize_request_fits; try done; [apply Nat.le_0_l|]. unfold Daemon.SESSION_MAX_FRAME. lia. }
  exists (request_text req). eexists. split; [exact Es|]. split; [done|]. split.
  { refine (proj2 (request_roundtrip req _ _ _ Es)). split; unfold req, auth_request; cbn [rq_method rq_path rq_headers rq_body rq_body_len].
    - unfold HTTTP_MAX_METHOD. lia.
    - vm_compute. lia.
    - apply Forall_nil_2.
    - change (keep false []) with (@nil htttp_header_t). cbn [app]. unfold length_header. case_match; simpl; unfold HTTTP_MAX_HEADERS; lia.
    - split; [apply le_n|]. fold body. unfold UINT32_MAX. lia. }
  unfold req, auth_request. cbn [rq_method rq_path rq_headers rq_body rq_body_len]. fold body. split; [by destruct Hm as [-> | ->]|].
  unfold body_view. rewrite (proj2 (Nat.ltb_lt _ _)) by lia. unfold req_body_split, body_bytes. cbn [default].
  rewrite (proj2 (Nat.eqb_neq _ _)) by lia. change (default [] (Some body)) with body. rewrite take_take, Nat.min_id, take_ge by done. unfold body, id. rewrite split_at_app by done.
  destruct user; [done|]. by destruct pass.
Qed.

(** ** A context's sockets

    As long as no session broke, a context has one socket open while it is
    connected and none otherwise, however often it connects; disconnected before
    it is freed, as client.c asks of its callers, it leaves none. *)
Definition tidy (c : bcl_ctx) : Prop := cx_open c = if bcl_connected c then 1%nat else 0%nat.

Lemma create_tidy ok c : bcl_create ok = Some c -> tidy c.
Proof. destruct ok; [|done]. by intros [= <-]. Qed.

Lemma disconnect_tidy c : tidy c -> tidy (bcl_disconnect c) /\ bcl_destroy (bcl_disconnect c) = 0%nat.
Proof.
  unfold tidy, bcl_disconnect, bcl_destroy, bcl_connected. intros H. destruct (cx_transport c) as [t|] eqn:E; [|by rewrite E, H].
  destruct (tp_connected t); cbn; rewrite ?H; done.
Qed.

Lemma connect_tidy host ca dl c : tidy c -> tidy (snd (bcl_connect_why host ca dl c)).
Proof.
  intros H. unfold bcl_connect_why. destruct host, ca; try done. destruct (dl_socket dl); [|done]. destruct (dl_address dl); [|done]. cbn [negb].
  destruct (dl_connect dl) as [fd|]; [|done]. destruct (session_connect _ _ _ _ fd) as [[[] sh] k]; try done.
  unfold tidy, bcl_disconnect, bcl_connected in *. cbn. destruct (cx_transport c) as [t|]; cbn; [|by rewrite H]. destruct (tp_connected t); cbn; by rewrite H.
Qed.

Lemma read_bytes_out n k : so_out (snd (read_bytes n k)) = so_out k.
Proof.
  destruct (read_bytes n k) as [[d|] k'] eqn:E; [by apply read_bytes_some in E as (_ & _ & _ & ?)|by apply read_bytes_none in E as (_ & _ & ?)].
Qed.

Lemma session_recv_out s cap k : so_out (snd (session_recv s cap k)) = so_out k.
Proof.
  unfold session_recv, read_u32. destruct (negb _ || _); [done|]. pose proof (read_bytes_out FRAME_PREFIX_BYTES k) as H1.
  destruct (read_bytes FRAME_PREFIX_BYTES k) as [[[|b0 [|b1 [|b2 [|b3 [|? ?]]]]]|] k1]; try done. cbn [snd] in H1. destruct (_ <? _); [done|].
  set (n := Z.to_nat _). pose proof (read_bytes_out n k1) as H2. destruct (read_bytes n k1) as [[token|] k2]; cbn [snd] in *; [|congruence].
  destruct (session_decrypt _ _); [|cbn; congruence]. destruct (_ <? _)%nat; cbn; congruence.
Qed.

Lemma exchange_out iv wire t : so_out (tp_sock (snd (exchange_frames iv wire t))) = so_out (snd (session_send (tp_session t) iv wire (tp_sock t))).
Proof.
  unfold exchange_frames. destruct (session_send _ _ _ _) as [[] k1]; try done. cbn [snd].
  pose proof (session_recv_out (tp_session t) (Z.to_nat Tetrissh.SESSION_MAX_FRAME) k1) as H.
  by destruct (session_recv _ _ k1) as [[[[] rbuf] s] k2].
Qed.

Context {L : OpenSSLLaws}.

(** What is typed is what is checked.  A LOGIN or REGISTER that [bcl_auth]
    sends over a connected session reaches the account checks of the daemon's
    session, however the stream is cut, with exactly the user name and password
    given. *)
Theorem credentials_arrive iv m user pass c t inb :
  cx_transport c = Some t -> tp_connected t = true -> ss_established (tp_session t) = true -> at_ (tp_sock t) inb [] ->
  length iv = AES_IV_LEN -> (forall p, session_encrypt (ss_key (tp_session t)) (Some iv) p <> None) ->
  typed user pass -> m = AUTH_LOGIN \/ m = AUTH_REGISTER ->
  exists t', cx_transport (snd (bcl_auth (Some iv) (method_word m) user pass c)) = Some t' /\
    forall rd a rest, live a -> ss_key (au_session a) = ss_key (tp_session t) -> flow (so_in (au_sock a)) = so_out (tp_sock t') ++ rest ->
      exists a', auth_session_parser rd a = (inr (m, mkAcc user pass), a').
Proof.
  intros Ht Hc He Hat Hiv Henc Hty Hm. destruct (auth_wire m user pass Hty Hm) as (wire & req & Hs & Hwl & Hparse & Hmeth & Hsplit).
  unfold bcl_auth. rewrite Ht, Hc. cbn [negb]. rewrite (proj2 (Nat.leb_gt _ _)) by (rewrite length_app; cbn [length]; pose proof (ty_room _ _ Hty); lia).
  rewrite (proj2 (Nat.leb_gt _ _)) by (destruct Hm as [-> | ->]; vm_compute; lia). unfold auth_request in Hs. rewrite Hs.
  destruct (session_encrypt (ss_key (tp_session t)) (Some iv) wire) as [token|] eqn:Et; [|by apply Henc in Et].
  assert (Hmax : (length wire <= MAX_PLAIN)%nat) by (unfold MAX_PLAIN; lia).
  destruct (session_send_ok _ iv wire token _ _ _ He Hiv Hmax Et Hat) as (k1 & Esend & Hk1).
  pose proof (exchange_out (Some iv) wire t) as Ho. rewrite Esend in Ho. cbn [snd] in Ho. rewrite (at_out _ _ _ Hk1) in Ho. cbn [app] in Ho.
  destruct (exchange_frames (Some iv) wire t) as [r t']. cbn [snd] in Ho. exists t'. split; [by destruct r as [|rbuf]; [|destruct (htttp_parse_response rbuf)]|].
  intros rd a rest [Hea Hda] Hkey Hflow. rewrite Ho in Hflow.
  destruct (recv_frame (au_session a) (Z.to_nat Tetrissh.SESSION_MAX_FRAME) (au_sock a) token wire rest Hea Hda) as (k2 & Er & _).
  - rewrite Hkey. by eapply session_encrypt_sealed.
  - unfold Tetrissh.SESSION_MAX_FRAME. lia.
  - pose proof (session_encrypt_length _ _ _ _ Et Hiv). apply fits_frame in Hmax. unfold Tetrissh.SESSION_MAX_FRAME in *. lia.
  - done.
  - unfold auth_session_parser. rewrite Er, Hparse, Hmeth. destruct Hm as [-> | ->];
      (destruct (auth_conf_load _ _ _ _) as [[conf frozen] rc]; rewrite Hsplit; by eexists).
Qed.

End Hops.

(** ** On concrete streams *)
Import Fixture Token.

(** The client's side of a handshake, a login that fails, an unreadable
    request, a registration, and two frames for the ballot box. *)
Definition sample_visit : list bytes :=
  [client_bytes sample_nonce sample_wrapped] ++ sample_stream ++
  [so_out (snd (send_many sample_session [(sample_iv, $"junk"); (sample_iv, $"more")] (quiet [])))].
Definition sample_process : auth_state :=
  mkAuth [] default_conf false rc_initial zero_session (quiet sample_visit) (sample_world []).
Definition sample_answer (_ : cstr) (_ : nat) (_ : bytes) : option bytes := Some ($"HTTTP/1.0 400").

Definition sample_accepted : sock := snd (session_accept (SSL := toy_openssl) ($"server") (Some sample_cert) [] (au_sock sample_process)).

Lemma session_serves_the_proven_witness :
  exists e a', session_main (SSL := toy_openssl) sample_pbkdf2 sample_hmac (Some ($"server")) (Some sample_cert) [] sample_readings sample_answer (fun _ => Some sample_iv)
      sample_process = Some (e, a') /\
    (e = Dropped \/ exists name frames, e = Ended name frames /\ users_ok (uw_users (au_world a')) /\ [] ⊆+ uw_users (au_world a') /\
      earned sample_pbkdf2 (ss_key sample_session) (uw_users (au_world a')) name /\
      Forall (fun f => exists token, sealed (ss_key sample_session) token f) frames) /\
    ss_established (au_session a') = false /\ ss_key (au_session a') = replicate SESSION_KEY_LEN "000"%char.
Proof.
  apply (session_serves_the_proven (SSL := toy_openssl) sample_pbkdf2 sample_hmac sample_pbkdf2_length ($"server") (Some sample_cert) [] sample_readings sample_answer
    (fun _ => Some sample_iv) sample_process sample_session sample_accepted).
  - vm_compute. reflexivity.
  - exact default_conf_ok.
  - exact sample_readings_ok.
  - apply sample_store_ok. vm_compute. congruence.
Defined.

Example sample_visit_ends :
  match session_main (SSL := toy_openssl) sample_pbkdf2 sample_hmac (Some ($"server")) (Some sample_cert) [] sample_readings sample_answer (fun _ => Some sample_iv) sample_process with
  | Some (e, a') => e = Ended ($"alice") [$"junk"; $"more"] /\ map ur_name (uw_users (au_world a')) = [$"alice"]
  | None => False
  end.
Proof. vm_compute. done. Qed.

(** An administrator closes E-100 over a connection cut after its first
    byte. *)
Definition close_request : bcl_request_t := mkReq BCL_CLOSE [] ($"E-100") zero_ballot [] zero_config.
Definition close_wire : bytes := request_text (request_http close_request).
Definition daemon_end : sock := mkSock [take 1 (ctl_bytes close_wire); drop 1 (ctl_bytes close_wire)] [1; 7]%nat [].
Definition sample_ctx : bcl_ctx := mkCtx None ($"var/run/ballotd.ctl") [] 0.
Definition client_end : sock := mkSock [so_out (fst (serve_ctl (Some sample_date) true daemon_end Channels.polls))] [] [].

Lemma close_request_ok : shaped close_request /\ clean close_request.
Proof.
  split.
  - split; try done.
    + closed_held.
    + closed_held.
    + intros _. split; [done|closed_chars].
    + by intros [?|?].
    + by intros [?|?].
  - split; [apply Forall_nil_2|]. by split.
Qed.

Lemma admin_request_reaches_the_box_witness :
  snd (serve_ctl (Some sample_date) true daemon_end Channels.polls) = snd (ballotd_dispatch (wire_view close_request) Channels.polls) /\
  exists c', bcl_send None (Some client_end) close_request sample_ctx = (BB_OK, answer_view BCL_CLOSE (answer_status BB_OK), c').
Proof.
  destruct close_request_ok as [Hs Hc].
  pose proof (admin_request_reaches_the_box sample_date close_request Channels.polls sample_ctx None client_end daemon_end
    (fst (serve_ctl (Some sample_date) true daemon_end Channels.polls)) (snd (serve_ctl (Some sample_date) true daemon_end Channels.polls))
    eq_refl Hs Hc) as H.
  assert (Hd : fst (ballotd_dispatch (wire_view close_request) Channels.polls) = answer_status BB_OK) by (vm_compute; reflexivity).
  destruct (ballotd_dispatch (wire_view close_request) Channels.polls) as [resp w1]. cbn [fst snd] in *. subst resp. apply H.
  - split; [reflexivity|vm_compute; lia].
  - split; [discriminate|vm_compute; lia].
  - by destruct (serve_ctl _ _ _ _).
  - split; [vm_compute; reflexivity|unfold client_end; cbn [so_in flow]; vm_compute; reflexivity|reflexivity|split; repeat constructor; done].
  - exact (EndToEnd.cast_response_shaped BB_OK zero_ballot zero_receipt (or_introl eq_refl)).
  - apply Forall_nil_2.
  - discriminate.
Defined.

(** A session marked dead is given up without closing its socket: each
    reconnection after a failed request leaves one more descriptor open. *)
Definition dead_ctx : bcl_ctx := mkCtx (Some (mkTransport sample_session (quiet []) true)) [] [] 1.
Definition redial : dial := mkDial true true (Some (quiet [server_bytes sample_signature sample_cert])) (Some ($"CAroot")) (Some sample_nonce) (Some sample_key) [].

Example dead_session_leaks_its_socket :
  let '(st, _, c1) := Transport.send_via_session (Some sample_iv) (mkReq BCL_RESULTS ($"ann") ($"E-100") zero_ballot [] zero_config) dead_ctx in
  let '(st2, _, c2) := bcl_connect_why (Some ($"127.0.0.1")) (Some ($"ca")) redial c1 in
  st = BB_ERR_DB /\ bcl_connected c1 = false /\ cx_open c1 = 1%nat /\ st2 = BB_OK /\ cx_open c2 = 2%nat /\ cx_open (bcl_disconnect c2) = 1%nat.
Proof. vm_compute. repeat split. Qed.

End Hops.
