(* ===== verification/Provision.v ===== *)
(** * What is put on disk: libtetrisdb/schema.c and libtetrisauth/lib/secret.c

    Before the runner starts, ballotd declares its tables in a catalog and
    gives each an empty heap file; the secret that signs tokens is created once
    and read back under strict conditions.  The disk is a map from paths to
    nodes; a system call does what POSIX says or fails, as its argument
    decides.  A path is its components; [.] and [..] are not resolved. *)
From S2P Require Import Prelude CText Types Rows.
Local Open Scope Z_scope.

Module Provision.

(** ** The disk *)

Inductive node := Dir | File (content : list ascii) (mode uid : Z).
Definition path_key : Type := bool * list cstr.
Abbreviation disk := (gmap path_key node).

(** The pieces between slashes, empty ones left out. *)
Fixpoint pieces (p cur : cstr) : list cstr :=
  match p with
  | [] => match cur with [] => [] | _ => [cur] end
  | c :: p' => if ceqb c "/" then match cur with [] => pieces p' [] | _ => cur :: pieces p' [] end else pieces p' (cur ++ [c])
  end.
Definition key (p : cstr) : path_key := (match p with c :: _ => ceqb c "/" | [] => false end, pieces p []).

(** The root and the working directory are there. *)
Definition is_dir (fs : disk) (k : path_key) : bool :=
  match snd k with [] => true | _ => match fs !! k with Some Dir => true | _ => false end end.
Definition parent (k : path_key) : path_key := (fst k, removelast (snd k)).

(** [mkdir(p, 0755) == 0 || errno == EEXIST]. *)
Definition mkdir (refused : bool) (p : cstr) (fs : disk) : bool * disk :=
  match snd (key p), fs !! key p with
  | [], _ | _, Some _ => (true, fs)
  | _, None => if refused || negb (is_dir fs (parent (key p))) then (false, fs) else (true, <[key p := Dir]> fs)
  end.

(** A loop of [write]s: [takes] is how many bytes each takes, 0 for an error;
    the rest when none are left.  Whether all was written, and what was. *)
Fixpoint write_loop (fuel : nat) (buf : list ascii) (takes : list nat) : bool * list ascii :=
  match buf, fuel with
  | [], _ => (true, [])
  | _, O => (false, [])
  | _, S f =>
    match takes with
    | [] => (true, buf)
    | O :: _ => (false, [])
    | n :: takes' => let '(ok, w) := write_loop f (drop n buf) takes' in (ok, take n buf ++ w)
    end
  end.
Definition write_all (buf : list ascii) (takes : list nat) : bool * list ascii := write_loop (length buf) buf takes.

(** ** schema.c *)

Definition DB_PAGE_SIZE : nat := Z.to_nat 4096.
Definition PATH_MAX : nat := Z.to_nat 4096.
Definition PATH_BUF : nat := (PATH_MAX + 16)%nat.
Definition LINE_CAP : nat := Z.to_nat 1024.

Definition db_catalog_path (cap : nat) (dir : option cstr) : cstr := trunc cap (default [] dir ++ $"/catalog.txt").

(** [fgets]: up to [LINE_CAP - 1] bytes, to the line break at most. *)
Fixpoint fgets (room : nat) (s : cstr) : cstr * cstr :=
  match room, s with
  | O, _ | _, [] => ([], s)
  | S r, c :: s' => if ceqb c LF then ([c], s') else let '(l, rest) := fgets r s' in (c :: l, rest)
  end.

Definition is_blank (c : ascii) : bool := ceqb c " " || ceqb c TAB.
Fixpoint skip_blanks (s : cstr) : cstr := match s with c :: s' => if is_blank c then skip_blanks s' else s | [] => [] end.
Fixpoint before_paren (s : cstr) : option cstr :=
  match s with [] => None | c :: s' => if ceqb c "(" then Some [] else match before_paren s' with Some l => Some (c :: l) | None => None end end.

(** Does this line declare [name]? *)
Definition declares (name line : cstr) : bool :=
  match before_paren line with
  | None => false
  | Some head => bool_decide (reverse (skip_blanks (reverse (skip_blanks head))) = name)
  end.

Fixpoint catalog_loop (fuel : nat) (name content : cstr) : bool :=
  match fuel, content with
  | O, _ | _, [] => false
  | S f, _ => let '(line, rest) := fgets (LINE_CAP - 1) content in declares name line || catalog_loop f name rest
  end.
(** [readable]: [fopen] succeeds on the file that is there. *)
Definition catalog_has (readable : bool) (fs : disk) (catalog name : cstr) : bool :=
  match fs !! key catalog with
  | Some (File content _ _) => readable && catalog_loop (length content) name content
  | _ => false
  end.

(** The prefixes of [buf] that end before a slash, the first byte aside:
    what the loop cuts the path to. *)
Fixpoint cuts (done rest : cstr) : list cstr :=
  match rest with
  | [] => []
  | c :: rest' => if ceqb c "/" then done :: cuts (done ++ [c]) rest' else cuts (done ++ [c]) rest'
  end.

Fixpoint mkdir_all (refused : cstr -> bool) (ps : list cstr) (fs : disk) : bool * disk :=
  match ps with
  | [] => (true, fs)
  | p :: ps' => match mkdir (refused p) p fs with (false, fs) => (false, fs) | (true, fs) => mkdir_all refused ps' fs end
  end.

Definition db_mkdir_p (refused : cstr -> bool) (path : cstr) (fs : disk) : bool * disk :=
  if (PATH_MAX <=? length path)%nat then (false, fs)
  else match mkdir_all refused (cuts (take 1 path) (drop 1 path) ++ [path]) fs with
       | (false, fs) => (false, fs)
       | (true, fs) => (is_dir fs (key path), fs)
       end.

(** What the calls of [db_ensure_table] meet. *)
Record weather := mkWeather {
  we_mkdir : cstr -> bool;      (** [mkdir] refused *)
  we_create : bool;             (** [open(O_CREAT | O_EXCL)] refused *)
  we_takes : list nat;          (** what each [write] of the page takes *)
  we_readable : bool;           (** the catalog opens for reading *)
  we_append : bool;             (** and for appending *)
  we_printed : option nat;      (** [Some n]: [fprintf] or [fclose] fails after [n] bytes *)
  we_uid : Z }.                 (** the process's user *)

Definition write_empty_page (takes : list nat) : bool * list ascii := write_all (replicate DB_PAGE_SIZE "000"%char) takes.

Definition declaration (name schema : cstr) : cstr := name ++ $" (" ++ schema ++ $")" ++ [LF].

(** The catalog with [text] appended, created if need be. *)
Definition append (we : weather) (catalog text : cstr) (fs : disk) : disk :=
  match fs !! key catalog with
  | Some (File content mode uid) => <[key catalog := File (content ++ text) mode uid]> fs
  | _ => <[key catalog := File text 420 (we_uid we)]> fs
  end.

Definition can_append (we : weather) (catalog : cstr) (fs : disk) : bool :=
  we_append we && is_dir fs (parent (key catalog)) && match fs !! key catalog with Some Dir => false | _ => true end.

(** The heap file: created with one empty page unless it is there. *)
Definition heap_step (we : weather) (dat : cstr) (fs : disk) : bool * disk :=
  match fs !! key dat with
  | Some _ => (true, fs)
  | None =>
    if we_create we || negb (is_dir fs (parent (key dat))) then (false, fs)
    else match write_empty_page (we_takes we) with
         | (true, page) => (true, <[key dat := File page 416 (we_uid we)]> fs)
         | (false, _) => (false, fs)
         end
  end.

Definition db_ensure_table (we : weather) (dir : option cstr) (name schema : cstr) (fs : disk) : bool * disk :=
  match dir with
  | None | Some [] => (false, fs)
  | Some d =>
    match db_mkdir_p (we_mkdir we) d fs with
    | (false, fs) => (false, fs)
    | (true, fs) =>
      let catalog := db_catalog_path PATH_BUF (Some d) in
      let dat := trunc PATH_BUF (d ++ $"/" ++ name ++ $".dat") in
      let '(made, fs) := heap_step we dat fs in
      if negb made then (false, fs)
      else if catalog_has (we_readable we) fs catalog name then (true, fs)
      else if negb (can_append we catalog fs) then (false, fs)
      else match we_printed we with
           | Some n => (false, append we catalog (take n (declaration name schema)) fs)
           | None => (true, append we catalog (declaration name schema) fs)
           end
    end
  end.

(** What ballotd declares, db.h. *)
Definition ballotd_tables : list (cstr * cstr) :=
  [($"election", $"seq int, id string, title string, state string, open_time string, close_time string");
   ($"election_option", $"election_id string, idx int, name string");
   ($"election_eligible", $"election_id string, cert_name string");
   ($"ballot", $"election_id string, hash string, option_index int, version int, superseded int");
   ($"ballot_owner", $"election_id string, cert_name string, hash string, version int");
   ($"nonce", $"election_id string, nonce string")].

(** One after the other, up to the first failure, as ballotd/main.c does. *)
Fixpoint ensure_tables (dir : option cstr) (tables : list (cstr * cstr)) (wes : list weather) (fs : disk) : bool * disk :=
  match tables, wes with
  | (name, schema) :: tables', we :: wes' =>
    match db_ensure_table we dir name schema fs with (false, fs) => (false, fs) | (true, fs) => ensure_tables dir tables' wes' fs end
  | [], _ => (true, fs)
  | _, [] => (false, fs)
  end.

(** ** secret.c *)

Definition AUTH_SECRET_REL : cstr := $"auth/jwt_secret".
Definition AUTH_SECRET_MIN : nat := 32.
Definition AUTH_SECRET_MAX : nat := 64.

Definition secret_path (root : cstr) : option cstr :=
  let path := root ++ $"/" ++ AUTH_SECRET_REL in if (PATH_MAX <=? length path)%nat then None else Some path.

(** The content of a file that passes the checks.  [refused]: [open] or
    [fstat] fails; 63 is 077. *)
Definition secret_open (refused : bool) (euid : Z) (path : cstr) (fs : disk) : option (list ascii) :=
  match fs !! key path with
  | Some (File content mode uid) =>
    if refused then None
    else if negb (Z.land mode 63 =? 0) then None
    else if negb (uid =? euid) then None
    else if (length content <? AUTH_SECRET_MIN)%nat || (AUTH_SECRET_MAX <? length content)%nat then None
    else Some content
  | _ => None
  end.

(** [reads]: what each [read] brings; 0 is an error or the end. *)
Fixpoint secret_read_loop (fuel : nat) (reads : list nat) (left_ : list ascii) : option (list ascii) :=
  match left_, fuel with
  | [], _ => Some []
  | _, O => None
  | _, S f =>
    match reads with
    | [] => Some left_
    | O :: _ => None
    | n :: reads' => match secret_read_loop f reads' (drop n left_) with Some r => Some (take n left_ ++ r) | None => None end
    end
  end.
Definition secret_read (reads : list nat) (content : list ascii) (outlen : nat) : option (list ascii) :=
  if (outlen <? length content)%nat then None else secret_read_loop (length content) reads content.

Definition auth_secret_load (refused : bool) (reads : list nat) (euid : Z) (root : cstr) (outlen : nat) (fs : disk) : option (list ascii) :=
  match secret_path root with
  | None => None
  | Some path => match secret_open refused euid path fs with None => None | Some content => secret_read reads content outlen end
  end.

(** What [auth_secret_provision] meets: [mkdir] or the creating [open]
    refused, what [RAND_bytes] draws, what each [write] takes. *)
Record minting := mkMinting { mi_mkdir : bool; mi_rand : option (list ascii); mi_create : bool; mi_takes : list nat; mi_refused : bool }.

Definition auth_secret_provision (mi : minting) (euid : Z) (root : cstr) (fs : disk) : bool * disk :=
  match secret_path root with
  | None => (false, fs)
  | Some path =>
    let validate fs := (bool_decide (is_Some (secret_open (mi_refused mi) euid path fs)), fs) in
    match fs !! key path with
    | Some _ => validate fs
    | None =>
      let dir := root ++ $"/auth" in
      if (PATH_MAX <=? length dir)%nat then (false, fs)
      else match mkdir (mi_mkdir mi) dir fs with
      | (false, fs) => (false, fs)
      | (true, fs) =>
        match mi_rand mi with
        | None => (false, fs)
        | Some secret =>
          if mi_create mi || negb (is_dir fs (parent (key path))) then (false, fs)
          else
            let '(ok, written) := write_all secret (mi_takes mi) in
            let fs := <[key path := File written 384 euid]> fs in
            if ok then validate fs else (false, fs)
        end
      end
    end
  end.

(** ** Paths *)

Lemma pieces_name x cur : Forall (fun c => c <> "/"%char) x -> cur ++ x <> [] -> pieces x cur = [cur ++ x].
Proof.
  intros Hx. revert cur. induction Hx as [|c x Hc _ IH]; intros cur Hne; cbn [pieces].
  - rewrite app_nil_r in *. by destruct cur.
  - unfold ceqb. rewrite bool_decide_eq_false_2 by done. rewrite IH, <-app_assoc; [done|]. rewrite <-app_assoc. by destruct cur.
Qed.

Lemma pieces_child d x cur : Forall (fun c => c <> "/"%char) x -> x <> [] -> pieces (d ++ $"/" ++ x) cur = pieces d cur ++ [x].
Proof.
  intros Hx Hne. revert cur. induction d as [|c d IH]; intros cur; cbn [pieces app].
  - change (pieces ($"/" ++ x) cur) with (match cur with [] => pieces x [] | _ => cur :: pieces x [] end).
    rewrite (pieces_name x []) by done. by destruct cur.
  - destruct (ceqb c "/"); [destruct cur|]; rewrite IH; done.
Qed.

(** A file in a directory. *)
Lemma key_child d x : d <> [] -> Forall (fun c => c <> "/"%char) x -> x <> [] ->
  key (d ++ $"/" ++ x) = (fst (key d), snd (key d) ++ [x]) /\ parent (key (d ++ $"/" ++ x)) = key d.
Proof.
  intros Hd Hx Hne. assert (E : key (d ++ $"/" ++ x) = (fst (key d), snd (key d) ++ [x])).
  { unfold key. cbn [fst snd]. rewrite pieces_child by done. by destruct d. }
  split; [done|]. rewrite E. unfold parent. cbn [fst snd]. rewrite removelast_last. by destruct (key d).
Qed.

(** ** Directories *)

(** Only directories were added, none deeper than [n]. *)
Definition grown (n : nat) (fs fs' : disk) : Prop :=
  forall k : path_key, fs' !! k = fs !! k \/ (fs !! k = None /\ fs' !! k = Some Dir /\ (length (snd k) <= n)%nat).

Lemma grown_refl n fs : grown n fs fs.
Proof. by left. Qed.

Lemma grown_trans n a b c : grown n a b -> grown n b c -> grown n a c.
Proof. intros H1 H2 k. destruct (H1 k) as [E1|(E1 & E1' & ?)], (H2 k) as [E2|(E2 & E2' & ?)]; rewrite ?E1, ?E1' in *; [left|right|right|]; repeat split; congruence. Qed.

Definition there (fs : disk) (p : cstr) : Prop := snd (key p) = [] \/ is_Some (fs !! key p).

Lemma mkdir_spec n refused p fs ok fs' : mkdir refused p fs = (ok, fs') -> (length (snd (key p)) <= n)%nat -> grown n fs fs' /\ (ok = true -> there fs' p).
Proof.
  unfold mkdir, there. intros H Hn. destruct (snd (key p)) eqn:Ek; [injection H as <- <-; split; [apply grown_refl|by left]|].
  destruct (fs !! key p) eqn:E; [injection H as <- <-; split; [apply grown_refl|right; by rewrite E]|].
  destruct (_ || _); injection H as <- <-; [split; [apply grown_refl|done]|]. split; [|right; by rewrite lookup_insert_eq].
  intros k. destruct (decide (k = key p)) as [->|?]; [right; rewrite lookup_insert_eq, Ek; done|left; by rewrite lookup_insert_ne].
Qed.

Lemma there_grown n fs fs' p : grown n fs fs' -> there fs p -> there fs' p.
Proof. intros Hg [?|[x Hx]]; [by left|]. right. destruct (Hg (key p)) as [E|[E _]]; [rewrite E; by exists x|congruence]. Qed.

Lemma mkdir_all_spec n refused ps fs ok fs' : mkdir_all refused ps fs = (ok, fs') -> Forall (fun p => length (snd (key p)) <= n)%nat ps ->
  grown n fs fs' /\ (ok = true -> Forall (there fs') ps).
Proof.
  intros H HF. revert fs H. induction HF as [|p ps Hp _ IH]; intros fs; cbn [mkdir_all]; [intros [= <- <-]; split; [apply grown_refl|constructor]|].
  destruct (mkdir (refused p) p fs) as [b fs1] eqn:E. destruct (mkdir_spec _ _ _ _ _ _ E Hp) as [Hg1 Ht]. destruct b.
  - intros H. destruct (IH _ H) as [Hg Hts]. split; [by eapply grown_trans|]. intros Hok. constructor; [eapply there_grown; eauto|auto].
  - intros [= <- <-]. done.
Qed.

(** The directories on the way to [d] are no deeper than it. *)
Lemma pieces_prefix p q cur : (length (pieces p cur) <= length (pieces (p ++ q) cur))%nat.
Proof.
  revert cur. induction p as [|c p IH]; intros cur; cbn [app pieces].
  - destruct cur as [|x cur]; [cbn; lia|]. cbn [length]. cut (forall r y z, (1 <= length (pieces r (y :: z)))%nat); [auto|].
    clear. induction r as [|c r IH]; intros y z; cbn [pieces]; [done|]. destruct (ceqb c "/"); [cbn; lia|]. apply IH.
  - destruct (ceqb c "/"); [destruct cur; cbn [length]; specialize (IH []); lia|apply IH].
Qed.

Lemma cuts_prefix done_ rest : Forall (fun p => exists q, done_ ++ rest = p ++ q) (cuts done_ rest).
Proof.
  revert done_. induction rest as [|c rest IH]; intros done_; cbn [cuts]; [constructor|].
  specialize (IH (done_ ++ [c])). rewrite <-app_assoc in IH. destruct (ceqb c "/"); [constructor; [by eexists|]|]; exact IH.
Qed.

Lemma steps_shallow d : Forall (fun p => length (snd (key p)) <= length (snd (key d)))%nat (cuts (take 1 d) (drop 1 d) ++ [d]).
Proof.
  apply Forall_app. split; [|by repeat constructor]. eapply Forall_impl; [apply cuts_prefix|]. intros p [q E]. rewrite take_drop in E. subst d. apply pieces_prefix.
Qed.

Lemma mkdir_p_grows refused d fs ok fs' : db_mkdir_p refused d fs = (ok, fs') -> grown (length (snd (key d))) fs fs'.
Proof.
  unfold db_mkdir_p. destruct (_ <=? _)%nat; [intros [= _ <-]; apply grown_refl|]. destruct (mkdir_all _ _ fs) as [b fs1] eqn:E.
  destruct (mkdir_all_spec _ _ _ _ _ _ E (steps_shallow d)) as [Hg _]. destruct b; intros [= _ <-]; done.
Qed.

Lemma mkdir_p_spec refused d fs fs' : db_mkdir_p refused d fs = (true, fs') -> is_dir fs' (key d) = true /\
  (length d < PATH_MAX)%nat /\ Forall (there fs') (cuts (take 1 d) (drop 1 d) ++ [d]).
Proof.
  unfold db_mkdir_p. destruct (Nat.leb_spec PATH_MAX (length d)); [done|]. destruct (mkdir_all _ _ fs) as [[] fs1] eqn:E; [|done].
  intros [= Hd <-]. destruct (mkdir_all_spec _ _ _ _ _ _ E (steps_shallow d)) as [_ HF]. auto.
Qed.

(** Once made, a path is made again without a change. *)
Lemma mkdir_again refused ps fs : Forall (there fs) ps -> mkdir_all refused ps fs = (true, fs).
Proof.
  induction 1 as [|p ps Hp _ IH]; [done|]. cbn [mkdir_all]. unfold mkdir. destruct Hp as [->|[n Hn]]; [done|]. rewrite Hn. by destruct (snd (key p)).
Qed.

(** ** The catalog *)

Definition lines_text (ls : list cstr) : cstr := concat (map (fun l => l ++ [LF]) ls).
Definition short_line (l : cstr) : Prop := Rows.no_char LF l /\ (length l + 1 < LINE_CAP)%nat.

(** A catalog of whole lines that fit the reader's buffer. *)
Definition tidy (content : cstr) : Prop := exists ls, content = lines_text ls /\ Forall short_line ls.

Lemma fgets_line room l rest : Rows.no_char LF l -> (length l < room)%nat -> fgets room (l ++ LF :: rest) = (l ++ [LF], rest).
Proof.
  revert room. induction l as [|c l IH]; intros [|room] Hl Hr; cbn [app fgets length] in *; try lia.
  - done.
  - inversion Hl; subst. unfold ceqb. rewrite bool_decide_eq_false_2 by done. by rewrite IH by (done || lia).
Qed.

Lemma lines_text_length ls : (length ls <= length (lines_text ls))%nat.
Proof. unfold lines_text. induction ls as [|l ls IH]; [done|]. cbn [map concat length]. rewrite !length_app. cbn [length]. lia. Qed.

Lemma catalog_lines fuel name ls : Forall short_line ls -> (length ls <= fuel)%nat ->
  catalog_loop fuel name (lines_text ls) = existsb (fun l => declares name (l ++ [LF])) ls.
Proof.
  intros HF. revert fuel. induction HF as [|l ls [Hl Hs] _ IH]; intros fuel Hf; [by destruct fuel|].
  destruct fuel as [|fuel]; [simpl in Hf; lia|]. unfold lines_text. cbn [map concat existsb]. fold (lines_text ls). rewrite <-app_assoc. cbn [app].
  cbn [catalog_loop]. rewrite fgets_line by (done || (unfold LINE_CAP in *; lia)). rewrite IH by (simpl in Hf; lia). by destruct l.
Qed.

Lemma lines_text_app a b : lines_text (a ++ b) = lines_text a ++ lines_text b.
Proof. unfold lines_text. by rewrite map_app, concat_app. Qed.

(** A byte of a table's name. *)
Definition name_char (c : ascii) : Prop := c <> "/"%char /\ c <> "("%char /\ is_blank c = false /\ c <> LF.
Definition table_name (name : cstr) : Prop := name <> [] /\ Forall name_char name.
#[export] Instance name_char_dec c : Decision (name_char c).
Proof. unfold name_char. apply _. Defined.
#[export] Instance table_name_dec name : Decision (table_name name).
Proof. unfold table_name. apply _. Defined.

Lemma before_paren_app a r : Forall (fun c => c <> "("%char) a -> before_paren (a ++ "("%char :: r) = Some a.
Proof. induction 1 as [|c a Hc _ IH]; [done|]. cbn [app before_paren]. unfold ceqb. rewrite bool_decide_eq_false_2 by done. by rewrite IH. Qed.

Lemma skip_blanks_name name r : table_name name -> skip_blanks (name ++ r) = name ++ r.
Proof. intros [Hne Hn]. destruct Hn as [|c l (_ & _ & Hb & _) _]; [done|]. cbn [app skip_blanks]. by rewrite Hb. Qed.

Lemma table_name_reverse name : table_name name -> table_name (reverse name).
Proof. intros [Hne Hn]. split; [intros H; apply Hne; by rewrite <-(reverse_involutive name), H|by apply Forall_reverse]. Qed.

Lemma declares_declaration name schema : table_name name -> declares name (declaration name schema) = true.
Proof.
  intros Hn. unfold declares, declaration. replace (name ++ _) with ((name ++ $" ") ++ "("%char :: schema ++ $")" ++ [LF]) by (by rewrite <-app_assoc).
  rewrite before_paren_app.
  - rewrite skip_blanks_name by done. rewrite reverse_app. change (reverse ($" ") ++ reverse name) with (" "%char :: reverse name).
    cbn [skip_blanks]. change (is_blank " ") with true. cbv iota.
    rewrite <-(app_nil_r (reverse name)), skip_blanks_name by (by apply table_name_reverse). rewrite app_nil_r, reverse_involutive. by apply bool_decide_eq_true_2.
  - apply Forall_app. split; [eapply Forall_impl; [apply Hn|]; by intros c (_ & ? & _)|by repeat constructor].
Qed.

Definition declaration_line (name schema : cstr) : cstr := name ++ $" (" ++ schema ++ $")".

Lemma declaration_is_line name schema : declaration name schema = declaration_line name schema ++ [LF].
Proof. unfold declaration, declaration_line. by rewrite <-!app_assoc. Qed.

Lemma declaration_short name schema : table_name name -> Rows.no_char LF schema -> (length name + length schema + 4 < LINE_CAP)%nat ->
  short_line (declaration_line name schema).
Proof.
  intros [_ Hn] Hs Hl. unfold short_line, declaration_line. split.
  - apply Rows.no_char_app. split; [eapply Forall_impl; [apply Hn|]; by intros c (_ & _ & _ & ?)|].
    apply Rows.no_char_app. split; [by repeat constructor|]. apply Rows.no_char_app. split; [done|by repeat constructor].
  - rewrite !length_app. cbn. lia.
Qed.

(** What a catalog of whole lines declares. *)
Definition declared (ls : list cstr) (name : cstr) : bool := existsb (fun l => declares name (l ++ [LF])) ls.

Lemma catalog_has_lines fs catalog name ls mode uid : fs !! key catalog = Some (File (lines_text ls) mode uid) -> Forall short_line ls ->
  catalog_has true fs catalog name = declared ls name.
Proof. intros E HF. unfold catalog_has. rewrite E. cbn [andb]. apply catalog_lines; [done|apply lines_text_length]. Qed.

(** ** A database directory

    [ls]: the lines of its catalog. *)

Definition catalog_of (d : cstr) : cstr := d ++ $"/catalog.txt".
Definition heap_of (d name : cstr) : cstr := d ++ $"/" ++ (name ++ $".dat").

Definition catalog_lines_are (d : cstr) (fs : disk) (ls : list cstr) : Prop :=
  Forall short_line ls /\
  match fs !! key (catalog_of d) with
  | None => ls = []
  | Some (File content _ _) => content = lines_text ls
  | Some Dir => False
  end.

Lemma heap_key d name : d <> [] -> table_name name ->
  key (heap_of d name) = (fst (key d), snd (key d) ++ [name ++ $".dat"]) /\ parent (key (heap_of d name)) = key d.
Proof.
  intros Hd [Hne Hn]. apply key_child; [done| |by destruct name].
  apply Forall_app. split; [eapply Forall_impl; [apply Hn|]; by intros c (? & _)|by repeat constructor].
Qed.

Lemma catalog_key d : d <> [] -> key (catalog_of d) = (fst (key d), snd (key d) ++ [$"catalog.txt"]) /\ parent (key (catalog_of d)) = key d.
Proof. intros Hd. apply (key_child d ($"catalog.txt")); [done|by repeat constructor|done]. Qed.

(** No table's heap file is the catalog. *)
Lemma heap_is_not_catalog d name : d <> [] -> table_name name -> key (heap_of d name) <> key (catalog_of d).
Proof.
  intros Hd Hn. rewrite (proj1 (heap_key d name Hd Hn)), (proj1 (catalog_key d Hd)). intros [= H%app_inj_tail]. destruct H as [_ H].
  apply (f_equal reverse) in H. rewrite reverse_app in H. done.
Qed.

Lemma heap_inj d x y : d <> [] -> table_name x -> table_name y -> key (heap_of d x) = key (heap_of d y) -> x = y.
Proof.
  intros Hd Hx Hy. rewrite (proj1 (heap_key d x Hd Hx)), (proj1 (heap_key d y Hd Hy)). intros [= H%app_inj_tail]. destruct H as [_ H]. by apply app_inv_tail in H.
Qed.

(** Making the directory touches neither. *)
Lemma mkdir_p_inside refused d fs ok fs' k : db_mkdir_p refused d fs = (ok, fs') -> (length (snd (key d)) < length (snd k))%nat -> fs' !! k = fs !! k.
Proof. intros H Hk. destruct (mkdir_p_grows _ _ _ _ _ H k) as [?|(_ & _ & ?)]; [done|lia]. Qed.

(** ** Ensuring a table *)

Lemma catalog_lines_frame d fs fs' ls : fs' !! key (catalog_of d) = fs !! key (catalog_of d) -> catalog_lines_are d fs ls -> catalog_lines_are d fs' ls.
Proof. unfold catalog_lines_are. by intros ->. Qed.

Lemma catalog_append we d text line fs ls : catalog_lines_are d fs ls -> text = line ++ [LF] -> short_line line ->
  catalog_lines_are d (append we (catalog_of d) text fs) (ls ++ [line]).
Proof.
  intros [HF H] -> Hl. split; [by apply Forall_app; split; [|constructor]|]. unfold append. rewrite lines_text_app.
  destruct (fs !! key (catalog_of d)) as [[|content mode uid]|]; [done| |]; rewrite lookup_insert_eq; unfold lines_text at 2; cbn [map concat]; rewrite ?app_nil_r; by subst.
Qed.

Lemma append_elsewhere we catalog text fs k : k <> key catalog -> append we catalog text fs !! k = fs !! k.
Proof. intros Hk. unfold append. destruct (fs !! key catalog) as [[]|]; by rewrite lookup_insert_ne. Qed.

Lemma write_loop_shape fuel buf takes : (length buf <= fuel)%nat -> let '(ok, w) := write_loop fuel buf takes in prefix w buf /\ (ok = true -> w = buf).
Proof.
  revert buf takes. induction fuel as [|fuel IH]; intros buf takes Hf; [destruct buf; [done|simpl in Hf; lia]|].
  destruct buf as [|b buf]; [done|]. cbn [write_loop]. destruct takes as [|[|n] takes]; [done|split; [apply prefix_nil|done]|].
  specialize (IH (drop (S n) (b :: buf)) takes). destruct (write_loop fuel _ takes) as [ok w].
  destruct IH as [Hp Hw]; [rewrite length_drop; simpl in *; lia|]. rewrite <-(take_drop (S n) (b :: buf)) at 2 4. split; [by apply prefix_app|]. by intros ->%Hw.
Qed.

Lemma write_all_shape buf takes : let '(ok, w) := write_all buf takes in prefix w buf /\ (ok = true -> w = buf).
Proof. by apply write_loop_shape. Qed.

Definition empty_page : list ascii := replicate DB_PAGE_SIZE "000"%char.

(** The path of the table's heap file fits the buffer. *)
Definition fits (d name : cstr) : Prop := (length d + length name + 5 < PATH_BUF)%nat.
Definition schema_ok (name schema : cstr) : Prop := Rows.no_char LF schema /\ (length name + length schema + 4 < LINE_CAP)%nat.
#[export] Instance schema_ok_dec name schema : Decision (schema_ok name schema).
Proof. unfold schema_ok, Rows.no_char. apply _. Defined.

Lemma heap_step_spec we dat fs ok fs' : heap_step we dat fs = (ok, fs') ->
  (fs' = fs \/ (fs !! key dat = None /\ fs' = <[key dat := File empty_page 416 (we_uid we)]> fs)) /\ (ok = true -> is_Some (fs' !! key dat)).
Proof.
  unfold heap_step. destruct (fs !! key dat) eqn:E; [intros [= <- <-]; split; [by left|by rewrite E]|].
  destruct (_ || _); [intros [= <- <-]; split; [by left|done]|]. pose proof (write_all_shape empty_page (we_takes we)) as Hw. fold empty_page in Hw.
  unfold write_empty_page. fold empty_page. destruct (write_all empty_page (we_takes we)) as [[] page]; intros [= <- <-]; [|by split; [left|]].
  destruct Hw as [_ ->]; [|done]. split; [by right|]. intros _. rewrite lookup_insert_eq. by eexists.
Qed.

Lemma ensure_unfold we d name schema fs : d <> [] -> fits d name -> db_ensure_table we (Some d) name schema fs =
  match db_mkdir_p (we_mkdir we) d fs with
  | (false, fs) => (false, fs)
  | (true, fs) =>
    match heap_step we (heap_of d name) fs with
    | (false, fs) => (false, fs)
    | (true, fs) =>
      if catalog_has (we_readable we) fs (catalog_of d) name then (true, fs)
      else if negb (can_append we (catalog_of d) fs) then (false, fs)
      else match we_printed we with
           | Some n => (false, append we (catalog_of d) (take n (declaration name schema)) fs)
           | None => (true, append we (catalog_of d) (declaration name schema) fs)
           end
    end
  end.
Proof.
  intros Hd Hf. unfold fits in Hf. unfold db_ensure_table. destruct d as [|c d]; [done|]. set (dd := c :: d) in *.
  destruct (db_mkdir_p _ dd fs) as [[] fs1] eqn:Em; [|done]. apply mkdir_p_spec in Em as (_ & Hs & _). unfold db_catalog_path, heap_of, catalog_of. change (default [] (Some dd)) with dd.
  rewrite !trunc_id by (unfold dd, PATH_BUF, PATH_MAX in *; rewrite !length_app; cbn [length] in *; simpl; lia).
  by destruct (heap_step we _ fs1) as [[] fs2].
Qed.

Section Ensuring.
Context (d : cstr) (Hd : d <> []).

(** Whatever happens, no file but the catalog changes, and the catalog is
    only appended to. *)
Definition kept (fs fs' : disk) : Prop :=
  (forall k n, k <> key (catalog_of d) -> fs !! k = Some n -> fs' !! k = Some n) /\
  (forall content mode uid, fs !! key (catalog_of d) = Some (File content mode uid) ->
    exists more, fs' !! key (catalog_of d) = Some (File (content ++ more) mode uid)).

Lemma kept_refl fs : kept fs fs.
Proof. split; [done|]. intros content mode uid ->. exists []. by rewrite app_nil_r. Qed.

Lemma kept_trans a b c : kept a b -> kept b c -> kept a c.
Proof.
  intros [H1 H1'] [H2 H2']. split; [eauto|]. intros content mode uid E. destruct (H1' _ _ _ E) as [m1 E1]. destruct (H2' _ _ _ E1) as [m2 E2].
  exists (m1 ++ m2). by rewrite app_assoc.
Qed.

Lemma kept_grown n fs fs' : grown n fs fs' -> kept fs fs'.
Proof.
  intros Hg. assert (Hk : forall k x, fs !! k = Some x -> fs' !! k = Some x) by (intros k x E; destruct (Hg k) as [->|[E' _]]; [done|congruence]).
  split; [eauto|]. intros content mode uid E%Hk. exists []. by rewrite app_nil_r.
Qed.

Lemma kept_fresh fs k n : fs !! k = None -> kept fs (<[k := n]> fs).
Proof.
  intros E. assert (Hk : forall j x, fs !! j = Some x -> <[k := n]> fs !! j = Some x) by (intros j x Ej; rewrite lookup_insert_ne; [done|congruence]).
  split; [eauto|]. intros content mode uid Ec%Hk. exists []. by rewrite app_nil_r.
Qed.

Lemma kept_append we text fs : kept fs (append we (catalog_of d) text fs).
Proof.
  split; [intros k n Hk; by rewrite append_elsewhere|]. intros content mode uid E. unfold append. rewrite E. exists text. by rewrite lookup_insert_eq.
Qed.

Lemma heap_step_kept we dat fs ok fs' : heap_step we dat fs = (ok, fs') -> kept fs fs'.
Proof. intros [[->|[E ->]] _]%heap_step_spec; [apply kept_refl|by apply kept_fresh]. Qed.

Lemma ensure_kept we name schema fs ok fs' : fits d name -> db_ensure_table we (Some d) name schema fs = (ok, fs') -> kept fs fs'.
Proof.
  intros Hf. rewrite ensure_unfold by done. destruct (db_mkdir_p _ d fs) as [b fs1] eqn:E1. pose proof (kept_grown _ _ _ (mkdir_p_grows _ _ _ _ _ E1)) as K1.
  destruct b; [|by intros [= _ <-]]. destruct (heap_step _ _ fs1) as [b fs2] eqn:E2. pose proof (kept_trans _ _ _ K1 (heap_step_kept _ _ _ _ _ E2)) as K2.
  destruct b; [|by intros [= _ <-]]. destruct (catalog_has _ _ _ _); [by intros [= _ <-]|]. destruct (negb _); [by intros [= _ <-]|].
  destruct (we_printed we); intros [= _ <-]; (eapply kept_trans; [exact K2|apply kept_append]).
Qed.

(** The table [name] is in place. *)
Record placed (ls : list cstr) (fs : disk) (name : cstr) : Prop := {
  pl_declared : declared ls name = true;
  pl_heap : is_Some (fs !! key (heap_of d name)) }.

(** The database directory is made, and its catalog reads [ls]. *)
Record housed (ls : list cstr) (fs : disk) : Prop := {
  ho_lines : catalog_lines_are d fs ls;
  ho_dir : is_dir fs (key d) = true;
  ho_short : (length d < PATH_MAX)%nat;
  ho_made : Forall (there fs) (cuts (take 1 d) (drop 1 d) ++ [d]) }.

Lemma declared_more ls more name : declared ls name = true -> declared (ls ++ more) name = true.
Proof. unfold declared. rewrite existsb_app. by intros ->. Qed.

Lemma kept_there fs fs' p : kept fs fs' -> key p <> key (catalog_of d) -> there fs p -> there fs' p.
Proof. intros [Hk _] Hp [?|[n Hn]]; [by left|right]. exists n. by apply Hk. Qed.

Lemma steps_not_catalog p : (length (snd (key p)) <= length (snd (key d)))%nat -> key p <> key (catalog_of d).
Proof. intros Hp E. rewrite E, (proj1 (catalog_key d Hd)) in Hp. cbn [snd] in Hp. rewrite length_app in Hp. cbn in Hp. lia. Qed.

Lemma kept_housed ls ls' fs fs' : kept fs fs' -> catalog_lines_are d fs' ls' -> housed ls fs -> housed ls' fs'.
Proof.
  intros K HL [_ H2 H3 H4]. split; [done| |done|].
  - unfold is_dir in *. destruct (snd (key d)) eqn:Es; [done|]. destruct (fs !! key d) as [[]|] eqn:E; try done. destruct K as [Hk _]. rewrite (Hk _ Dir); [done| |done].
    apply steps_not_catalog. by rewrite Es.
  - pose proof (conj H4 (steps_shallow d)) as H%Forall_and. eapply Forall_impl; [exact H|]. intros p [Hp Hl]. eapply kept_there; eauto. by apply steps_not_catalog.
Qed.

(** The tables have names and schemas that fit. *)
Definition good_table (t : cstr * cstr) : Prop := table_name (fst t) /\ fits d (fst t) /\ schema_ok (fst t) (snd t).

Lemma ensure_places we name schema fs fs' ls : good_table (name, schema) -> catalog_lines_are d fs ls ->
  db_ensure_table we (Some d) name schema fs = (true, fs') -> exists more, housed (ls ++ more) fs' /\ placed (ls ++ more) fs' name.
Proof.
  intros (Hn & Hf & Hs & Hlen) HL. cbn [fst snd] in *. rewrite ensure_unfold by done. destruct (db_mkdir_p _ d fs) as [[] fs1] eqn:E1; [|done].
  assert (HL1 : catalog_lines_are d fs1 ls).
  { eapply catalog_lines_frame; [|done]. eapply mkdir_p_inside; [done|]. rewrite (proj1 (catalog_key d Hd)). cbn [snd]. rewrite length_app. cbn. lia. }
  assert (H1 : housed ls fs1) by (apply mkdir_p_spec in E1 as (? & ? & ?); done).
  destruct (heap_step _ _ fs1) as [[] fs2] eqn:E2; [|done]. pose proof (heap_step_kept _ _ _ _ _ E2) as K2.
  apply heap_step_spec in E2 as [Hc Hheap]. specialize (Hheap eq_refl).
  assert (HL2 : catalog_lines_are d fs2 ls).
  { eapply catalog_lines_frame; [|done]. destruct Hc as [->|[_ ->]]; [done|]. apply lookup_insert_ne. by apply heap_is_not_catalog. }
  pose proof (kept_housed _ _ _ _ K2 HL2 H1) as H2. destruct (catalog_has _ _ _ _) eqn:Ec.
  - intros [= <-]. exists []. rewrite app_nil_r. split; [done|]. split; [|done]. unfold catalog_has in Ec. destruct HL2 as [HF HL2].
    destruct (fs2 !! key (catalog_of d)) as [[|content mode uid]|]; try done. subst content. apply andb_true_iff in Ec as [_ Ec].
    by rewrite catalog_lines in Ec by (done || apply lines_text_length).
  - destruct (negb _); [done|]. destruct (we_printed we); [done|]. intros [= <-]. exists [declaration_line name schema].
    assert (HL3 : catalog_lines_are d (append we (catalog_of d) (declaration name schema) fs2) (ls ++ [declaration_line name schema])).
    { apply catalog_append; [done|apply declaration_is_line|by apply declaration_short]. }
    split; [by eapply kept_housed; [apply kept_append|..]|]. split.
    + unfold declared. rewrite existsb_app. cbn [existsb]. by rewrite <-declaration_is_line, declares_declaration, orb_true_r.
    + rewrite append_elsewhere; [done|by apply heap_is_not_catalog].
Qed.

(** A table in place is left as it is. *)
Lemma ensure_again we name schema fs ls : good_table (name, schema) -> housed ls fs -> placed ls fs name -> we_readable we = true ->
  db_ensure_table we (Some d) name schema fs = (true, fs).
Proof.
  intros (Hn & Hf & _) [[HF HL] H2 H3 H4] [Hp [n Hh]] Hr. cbn [fst] in *. rewrite ensure_unfold by done.
  assert (db_mkdir_p (we_mkdir we) d fs = (true, fs)) as ->.
  { unfold db_mkdir_p. destruct (Nat.leb_spec PATH_MAX (length d)); [lia|]. rewrite mkdir_again by done. by rewrite H2. }
  unfold heap_step. rewrite Hh. rewrite Hr.
  destruct (fs !! key (catalog_of d)) as [[|content mode uid]|] eqn:E; [done| |by subst ls].
  subst content. by rewrite (catalog_has_lines _ _ _ _ _ _ E HF), Hp.
Qed.

Lemma ensure_tables_kept tables wes fs ok fs' : Forall good_table tables -> ensure_tables (Some d) tables wes fs = (ok, fs') -> kept fs fs'.
Proof.
  intros HT. revert wes fs. induction HT as [|[name schema] tables (Hn & Hf & Hs) _ IH]; intros wes fs; cbn [ensure_tables].
  - intros [= _ <-]. apply kept_refl.
  - destruct wes as [|we wes]; [intros [= _ <-]; apply kept_refl|]. destruct (db_ensure_table we (Some d) name schema fs) as [b fs1] eqn:E.
    apply ensure_kept in E; [|done]. destruct b; [|by intros [= _ <-]]. intros H%IH. by eapply kept_trans.
Qed.

Lemma kept_placed ls more fs fs' name : table_name name -> kept fs fs' -> placed ls fs name -> placed (ls ++ more) fs' name.
Proof. intros Hn [Hk _] [Hp [n Hh]]. split; [by apply declared_more|]. exists n. apply Hk; [by apply heap_is_not_catalog|done]. Qed.

Lemma ensure_tables_place tables wes fs fs' ls : Forall good_table tables -> tables <> [] -> catalog_lines_are d fs ls ->
  ensure_tables (Some d) tables wes fs = (true, fs') ->
  exists more, housed (ls ++ more) fs' /\ Forall (fun t => placed (ls ++ more) fs' (fst t)) tables.
Proof.
  intros HT. revert wes fs ls. induction HT as [|[name schema] tables Ht HT IH]; intros wes fs ls Hne HL; [done|]. cbn [ensure_tables].
  destruct wes as [|we wes]; [done|]. destruct (db_ensure_table we (Some d) name schema fs) as [[] fs1] eqn:E; [|done]. intros H.
  destruct (ensure_places _ _ _ _ _ _ Ht HL E) as (m1 & Hh1 & Hp1). pose proof (ensure_tables_kept _ _ _ _ _ HT H) as K.
  destruct tables as [|t tables'] eqn:Et.
  - injection H as <-. exists m1. split; [done|]. constructor; [done|constructor].
  - destruct (IH _ _ _ ltac:(done) (ho_lines _ _ Hh1) H) as (m2 & Hh2 & Hp2). rewrite <-app_assoc in *. exists (m1 ++ m2). split; [done|].
    constructor; [|done]. rewrite app_assoc. eapply kept_placed; [apply Ht|done|done].
Qed.

Lemma ensure_tables_again tables wes fs ls : Forall good_table tables -> housed ls fs -> Forall (fun t => placed ls fs (fst t)) tables ->
  length wes = length tables -> Forall (fun we => we_readable we = true) wes -> ensure_tables (Some d) tables wes fs = (true, fs).
Proof.
  intros HT Hh. revert wes. induction HT as [|[name schema] tables Ht HT IH]; intros wes HP Hlen HR; [by destruct wes|].
  destruct wes as [|we wes]; [done|]. inversion HP; subst. inversion HR; subst. cbn [ensure_tables]. rewrite (ensure_again we name schema fs ls) by done. apply IH; auto.
Qed.

End Ensuring.

(** ** The tables of ballotd *)

Lemma ballotd_tables_named : Forall (fun t => table_name (fst t) /\ (length (fst t) <= 17)%nat /\ schema_ok (fst t) (snd t)) ballotd_tables.
Proof. apply (bool_decide_unpack _). vm_compute. exact I. Qed.

Lemma ballotd_tables_good d : (length d + 22 < PATH_BUF)%nat -> Forall (good_table d) ballotd_tables.
Proof.
  intros Hl. eapply Forall_impl; [apply ballotd_tables_named|]. intros t (Hn & H17 & Hs). split; [done|]. split; [|done]. unfold fits. lia.
Qed.

(** The catalog is absent, or whole lines that fit the reader's buffer. *)
Definition catalog_tidy (d : cstr) (fs : disk) : Prop := exists ls, catalog_lines_are d fs ls.

(** Once [ensure_tables] succeeds on a directory whose catalog is whole
    lines, all six tables are declared and have a heap file, nothing that was
    there changed but for lines added to the catalog, and starting again
    changes nothing at all. *)
Theorem provisioning_is_idempotent (d : cstr) (wes wes' : list weather) (fs fs' : disk) :
  d <> [] -> (length d + 22 < PATH_BUF)%nat -> catalog_tidy d fs ->
  ensure_tables (Some d) ballotd_tables wes fs = (true, fs') ->
  Forall (fun t => catalog_has true fs' (db_catalog_path PATH_BUF (Some d)) (fst t) = true /\ is_Some (fs' !! key (heap_of d (fst t)))) ballotd_tables /\
  kept d fs fs' /\ catalog_tidy d fs' /\
  (length wes' = length ballotd_tables -> Forall (fun we => we_readable we = true) wes' -> ensure_tables (Some d) ballotd_tables wes' fs' = (true, fs')).
Proof.
  intros Hd Hl [ls HL] H. pose proof (ballotd_tables_good d Hl) as HT.
  destruct (ensure_tables_place d Hd _ _ _ _ _ HT ltac:(done) HL H) as (more & Hh & HP). repeat split.
  - eapply Forall_impl; [exact HP|]. intros t [Hp Hheap]. split; [|done]. unfold db_catalog_path. change (default [] (Some d)) with d.
    rewrite trunc_id by (rewrite length_app; cbn; lia). destruct Hh as [[HF HLs] _ _ _]. fold (catalog_of d).
    destruct (fs' !! key (catalog_of d)) as [[|content mode uid]|] eqn:E; [done| |].
    + subst content. by rewrite (catalog_has_lines _ _ _ _ _ _ E HF).
    + rewrite HLs in Hp. done.
  - eapply ensure_tables_kept; eauto.
  - eapply ensure_tables_kept; eauto.
  - exists (ls ++ more). apply Hh.
  - intros Hw HR. by eapply ensure_tables_again.
Qed.

(** ** The secret *)

Lemma secret_read_all fuel reads content : (length content <= fuel)%nat -> Forall (fun n => n <> 0%nat) reads -> secret_read_loop fuel reads content = Some content.
Proof.
  revert reads content. induction fuel as [|fuel IH]; intros reads content Hf HR; [destruct content; [done|simpl in Hf; lia]|].
  destruct content as [|b content]; [done|]. cbn [secret_read_loop]. destruct HR as [|[|n] reads Hn HR]; [done|done|].
  rewrite IH; [by rewrite take_drop|rewrite length_drop; simpl in *; lia|done].
Qed.

Lemma secret_open_spec refused euid path fs content : secret_open refused euid path fs = Some content <->
  refused = false /\ exists mode, fs !! key path = Some (File content mode euid) /\ Z.land mode 63 = 0 /\ (AUTH_SECRET_MIN <= length content <= AUTH_SECRET_MAX)%nat.
Proof.
  unfold secret_open. split.
  - destruct (fs !! key path) as [[|c mode uid]|]; try done. destruct refused; [done|]. destruct (Z.eqb_spec (Z.land mode 63) 0); [|done].
    destruct (Z.eqb_spec uid euid) as [->|]; [|done]. cbn [negb]. destruct (Nat.ltb_spec (length c) AUTH_SECRET_MIN); [done|].
    destruct (Nat.ltb_spec AUTH_SECRET_MAX (length c)); [done|]. intros [= <-]. split; [done|]. exists mode. done.
  - intros (-> & mode & -> & Hm & Hlo & Hhi). rewrite Hm, !Z.eqb_refl. cbn [negb].
    destruct (Nat.ltb_spec (length content) AUTH_SECRET_MIN); [lia|]. destruct (Nat.ltb_spec AUTH_SECRET_MAX (length content)); [lia|done].
Qed.

Lemma mkdir_keeps refused p fs ok fs' k n : mkdir refused p fs = (ok, fs') -> fs !! k = Some n -> fs' !! k = Some n.
Proof. intros H E. destruct (mkdir_spec _ _ _ _ _ _ H (le_n _)) as [Hg _]. destruct (Hg k) as [->|[E' _]]; [done|congruence]. Qed.

(** Nothing that was there is rewritten. *)
Lemma provision_keeps mi euid root fs ok fs' k n : auth_secret_provision mi euid root fs = (ok, fs') -> fs !! k = Some n -> fs' !! k = Some n.
Proof.
  unfold auth_secret_provision. intros H E. destruct (secret_path root) as [path|]; [|by injection H as <- <-].
  destruct (fs !! key path) eqn:Ep; [by injection H as <- <-|]. destruct (_ <=? _)%nat; [by injection H as <- <-|].
  destruct (mkdir _ _ fs) as [b fs1] eqn:Em. assert (E1 : fs1 !! k = Some n) by (by eapply mkdir_keeps). destruct b; [|by injection H as <- <-].
  destruct (mi_rand mi) as [secret|]; [|by injection H as <- <-]. destruct (_ || _); [by injection H as <- <-|].
  destruct (write_all _ _) as [okw w]. assert (E2 : <[key path := File w 384 euid]> fs1 !! k = Some n).
  { rewrite lookup_insert_ne; [done|]. congruence. }
  destruct okw; by injection H as <- <-.
Qed.

(** What a successful run leaves: a file that passes the checks, the fresh
    bytes if there was none. *)
Lemma provision_leaves mi euid root path fs fs' : secret_path root = Some path -> auth_secret_provision mi euid root fs = (true, fs') ->
  exists content, secret_open false euid path fs' = Some content /\ (fs' = fs \/ (fs !! key path = None /\ mi_rand mi = Some content)).
Proof.
  unfold auth_secret_provision. intros -> H.
  assert (V : forall fs1, (bool_decide (is_Some (secret_open (mi_refused mi) euid path fs1)), fs1) = (true, fs') -> fs1 = fs' /\ exists content, secret_open false euid path fs' = Some content).
  { intros fs1 [= Hb%bool_decide_eq_true <-]. split; [done|]. destruct Hb as [content Hc]. exists content. apply secret_open_spec in Hc as [_ Hc]. by apply secret_open_spec. }
  destruct (fs !! key path) eqn:Ep; [apply V in H as (<- & content & Hc); exists content; by split; [|left]|].
  destruct (_ <=? _)%nat; [done|]. destruct (mkdir _ _ fs) as [[] fs1]; [|done]. destruct (mi_rand mi) as [secret|]; [|done]. destruct (_ || _); [done|].
  pose proof (write_all_shape secret (mi_takes mi)) as Hw. destruct (write_all _ _) as [[] w]; [|done]. destruct Hw as [_ Hw]. specialize (Hw eq_refl). subst w.
  apply V in H as (<- & content & Hc). exists content. split; [done|]. right. split; [done|]. f_equal.
  apply secret_open_spec in Hc as (_ & mode & Hc & _). rewrite lookup_insert_eq in Hc. by injection Hc as -> _.
Qed.

(** A secret that was provisioned loads, whole, however the reads fall; what
    was there before is what is there after; and provisioning again accepts it
    as it is. *)
Theorem provisioned_secret_loads (mi : minting) (euid : Z) (root : cstr) (fs fs' : disk) (reads : list nat) :
  auth_secret_provision mi euid root fs = (true, fs') -> Forall (fun n => n <> 0%nat) reads ->
  (forall k n, fs !! k = Some n -> fs' !! k = Some n) /\
  exists content, auth_secret_load false reads euid root AUTH_SECRET_MAX fs' = Some content /\
    (AUTH_SECRET_MIN <= length content <= AUTH_SECRET_MAX)%nat /\
    (fs' = fs \/ mi_rand mi = Some content) /\
    forall mi', mi_refused mi' = false -> auth_secret_provision mi' euid root fs' = (true, fs').
Proof.
  intros H HR. split; [intros k n; by eapply provision_keeps|]. destruct (secret_path root) as [path|] eqn:Epath; [|unfold auth_secret_provision in H; by rewrite Epath in H].
  destruct (provision_leaves _ _ _ _ _ _ Epath H) as (content & Hc & Hor). exists content.
  pose proof Hc as (_ & mode & E & Hm & Hlen)%secret_open_spec. split.
  { unfold auth_secret_load. rewrite Epath, Hc. unfold secret_read. destruct (Nat.ltb_spec AUTH_SECRET_MAX (length content)); [lia|]. by apply secret_read_all. }
  split; [done|]. split; [destruct Hor as [?|[_ ?]]; [by left|by right]|].
  intros mi' Hmi. unfold auth_secret_provision. rewrite Epath, E, Hmi, Hc. by rewrite bool_decide_eq_true_2 by (by eexists).
Qed.

(** Who can load: a regular file, private, the process's own, 32 to 64 bytes. *)
Theorem secret_loads_iff (reads : list nat) (euid : Z) (root path content : cstr) (fs : disk) :
  secret_path root = Some path -> Forall (fun n => n <> 0%nat) reads ->
  auth_secret_load false reads euid root AUTH_SECRET_MAX fs = Some content <->
  exists mode, fs !! key path = Some (File content mode euid) /\ Z.land mode 63 = 0 /\ (AUTH_SECRET_MIN <= length content <= AUTH_SECRET_MAX)%nat.
Proof.
  intros Hp HR. unfold auth_secret_load. rewrite Hp. transitivity (secret_open false euid path fs = Some content); [|rewrite secret_open_spec; naive_solver].
  destruct (secret_open false euid path fs) as [c|] eqn:E; [|done]. apply secret_open_spec in E as (_ & _ & _ & _ & Hhi).
  unfold secret_read. destruct (Nat.ltb_spec AUTH_SECRET_MAX (length c)); [lia|]. by rewrite secret_read_all.
Qed.

(** A write that fails half way leaves a file no later run accepts. *)
Definition a_root : disk := {[key ($"/srv") := Dir]}.
Definition a_secret : list ascii := replicate AUTH_SECRET_MIN "s"%char.
Definition mint (takes : list nat) : bool * disk := auth_secret_provision (mkMinting false (Some a_secret) false takes false) 0 ($"/srv") a_root.
Lemma half_a_secret : snd (mint [10; 0]%nat) !! key ($"/srv/auth/jwt_secret") = Some (File (take 10 a_secret) 384 0).
Proof. vm_compute. reflexivity. Qed.

Example half_a_secret_is_for_ever : fst (mint [10; 0]%nat) = false /\
  forall mi, auth_secret_provision mi 0 ($"/srv") (snd (mint [10; 0]%nat)) = (false, snd (mint [10; 0]%nat)).
Proof.
  split; [vm_compute; reflexivity|]. intros mi. unfold auth_secret_provision. change (secret_path ($"/srv")) with (Some ($"/srv/auth/jwt_secret")). cbv iota zeta.
  rewrite half_a_secret. unfold secret_open. rewrite half_a_secret. by destruct (mi_refused mi).
Qed.

Lemma minted : mint [10; 7]%nat = (true, snd (mint [10; 7]%nat)).
Proof. rewrite (surjective_pairing (mint _)) at 1. apply (f_equal2 pair); [vm_compute; reflexivity|reflexivity]. Qed.

Example provisioned_secret_loads_witness : exists content, auth_secret_load false [3; 1]%nat 0 ($"/srv") AUTH_SECRET_MAX (snd (mint [10; 7]%nat)) = Some content.
Proof.
  destruct (provisioned_secret_loads (mkMinting false (Some a_secret) false [10; 7]%nat false) 0 ($"/srv") a_root (snd (mint [10; 7]%nat)) [3; 1]%nat minted ltac:(by repeat constructor))
    as (_ & content & H & _).
  exists content. exact H.
Defined.

Definition fair : weather := mkWeather (fun _ => false) false [1000; 3000]%nat true true None 0.
Definition first_start : bool * disk := ensure_tables (Some ($"var/db")) ballotd_tables (replicate 6 fair) ∅.
Lemma first_start_ok : first_start = (true, snd first_start).
Proof. rewrite (surjective_pairing first_start) at 1. apply (f_equal2 pair); [vm_compute; reflexivity|reflexivity]. Qed.

Example provisioning_is_idempotent_witness : ensure_tables (Some ($"var/db")) ballotd_tables (replicate 6 fair) (snd first_start) = (true, snd first_start).
Proof.
  refine (proj2 (proj2 (proj2 (provisioning_is_idempotent ($"var/db") (replicate 6 fair) (replicate 6 fair) ∅ (snd first_start) _ _ _ first_start_ok))) _ _).
  - done.
  - apply Nat.ltb_lt. vm_compute. reflexivity.
  - exists []. split; [constructor|done].
  - done.
  - by repeat constructor.
Defined.

End Provision.
