(* ===== verification/Launch.v ===== *)
(** * Bringing a runner up: tetrisdb/runner.c and libtetrisdb/jvm.c

    The parts of the launcher that need no other process: the lock file's path
    and descriptor, what is checked before the fork, the command line, what
    the child does to its descriptors before it becomes the runner, and the
    wait for the socket.  A system call's answer is an argument. *)
From S2P Require Import Prelude CText Provision.
Import Provision.
Local Open Scope Z_scope.

Module Launch.

(** ** runner.h and socket/conf.h *)

Definition MAX_IPC_PATH : nat := 108.
Definition DB_DEFAULT_SESSIONS : Z := 16.
Definition DB_RUNNER_DEFAULT_WAIT_MS : Z := 10000.
Definition STDERR_FILENO : Z := 2.

Record db_runner_opts_t := mkOpts {
  dir : cstr; jar : cstr; java : cstr; err_path : cstr; ipc : cstr; sessions : Z; recover : bool }.

(** ** db_runner_lock, up to its [flock] *)

Definition lock_path (db_dir : cstr) : option cstr :=
  let path := db_dir ++ $"/.runner.lock" in if (PATH_MAX <=? length path)%nat then None else Some path.

(** The descriptor the lock is taken on: a low one is moved.  [dup] is what
    [fcntl(F_DUPFD, 3)] gives; on failure [opened] is closed all the same. *)
Definition lock_fd (opened : Z) (dup : option Z) : option Z :=
  if opened <=? STDERR_FILENO then dup else Some opened.

(** What the calls before [flock] meet. *)
Record opening := mkOpening { op_mkdir : cstr -> bool; op_refused : bool; op_opened : Z; op_dup : option Z; op_uid : Z }.

(** [open(path, O_RDWR | O_CREAT, 0640)]; 416 is 0640. *)
Definition open_creat (refused : bool) (uid : Z) (path : cstr) (fs : disk) : bool * disk :=
  if refused then (false, fs)
  else match fs !! key path with
       | Some (File _ _ _) => (true, fs)
       | Some Dir => (false, fs)
       | None => if is_dir fs (parent (key path)) then (true, <[key path := File [] 416 uid]> fs) else (false, fs)
       end.

Definition open_lock (op : opening) (db_dir : cstr) (fs : disk) : option Z * disk :=
  match db_dir with
  | [] => (None, fs)
  | _ =>
    match db_mkdir_p (op_mkdir op) db_dir fs with
    | (false, fs) => (None, fs)
    | (true, fs) =>
      match lock_path db_dir with
      | None => (None, fs)
      | Some path =>
        match open_creat (op_refused op) (op_uid op) path fs with
        | (false, fs) => (None, fs)
        | (true, fs) => (lock_fd (op_opened op) (op_dup op), fs)
        end
      end
    end
  end.

(** ** check_db_config, db_jvm_check and the command line *)

Definition paths_ok (o : db_runner_opts_t) : bool :=
  match dir o, ipc o with
  | [], _ | _, [] => false
  | _, p => (length p <? MAX_IPC_PATH)%nat
  end.

(** The jar is named and readable, the java binary is named: what stands
    before [java_runs] forks. *)
Definition jvm_named (o : db_runner_opts_t) (jar_readable : bool) : bool :=
  match jar o, java o with [], _ | _, [] => false | _, _ => jar_readable end.

Definition catalog (o : db_runner_opts_t) : cstr := db_catalog_path PATH_BUF (Some (dir o)).

(** [argv] up to its NULL. *)
Definition runner_argv (o : db_runner_opts_t) : list cstr :=
  [java o; $"-cp"; jar o; $"simpledb.SocketRunner"; catalog o; ipc o;
   trunc 32 ($"--sessions=" ++ print_int (if 0 <? sessions o then sessions o else DB_DEFAULT_SESSIONS))]
  ++ (if recover o then [] else [$"--no-recover"]).

(** ** The child's descriptors *)

Inductive file := Null | Err | Lock | Other (n : nat).
Abbreviation fds := (gmap Z file).

(** [dup2]: nothing happens when [a] is not open. *)
Definition dup2 (a b : Z) (t : fds) : fds := match t !! a with Some f => <[b := f]> t | None => t end.

(** From [setsid] to [execvp]; [null_fd] is what [open("/dev/null")] gave. *)
Definition child_table (null_fd : option Z) (err_fd : Z) (t : fds) : fds :=
  let t := match null_fd with
           | None => t
           | Some n =>
             let t := dup2 n 1 (dup2 n 0 (<[n := Null]> t)) in
             let t := if err_fd <? 0 then dup2 n STDERR_FILENO t else t in
             if STDERR_FILENO <? n then delete n t else t
           end in
  if 0 <=? err_fd then dup2 err_fd STDERR_FILENO t else t.

(** ** db_runner_wait *)

(** One turn: does [connect] succeed, has the child ended ([waitpid] gave its
    pid), what does the clock say. *)
Record look := mkLook { lk_reached : bool; lk_gone : bool; lk_now : Z }.
Inductive waited := Ready | Broken | Again.

Definition wait_turn (pid deadline : Z) (k : look) : waited :=
  if lk_reached k then Ready
  else if (0 <? pid) && lk_gone k then Broken
  else if deadline <=? lk_now k then Broken
  else Again.

Fixpoint wait_loop (fuel : nat) (pid deadline : Z) (ks : nat -> look) (n : nat) : option bool :=
  match fuel with
  | O => None
  | S f => match wait_turn pid deadline (ks n) with Ready => Some true | Broken => Some false | Again => wait_loop f pid deadline ks (S n) end
  end.

Definition deadline_of (now timeout_ms : Z) : Z := now + (if 0 <? timeout_ms then timeout_ms else DB_RUNNER_DEFAULT_WAIT_MS).

(** Did it answer 0?  [None]: still waiting after [fuel] turns. *)
Definition db_runner_wait (fuel : nat) (ipc : cstr) (pid timeout_ms now : Z) (ks : nat -> look) : option bool :=
  match ipc with [] => Some false | _ => wait_loop fuel pid (deadline_of now timeout_ms) ks 0 end.

(** ** The lock file's descriptor survives *)

Lemma lock_fd_high opened dup fd : lock_fd opened dup = Some fd -> (forall d, dup = Some d -> 3 <= d) -> STDERR_FILENO < fd.
Proof. unfold lock_fd, STDERR_FILENO. destruct (Z.leb_spec opened 2); intros E Hd; [specialize (Hd fd E)|simplify_eq]; lia. Qed.

Lemma dup2_other a b t fd : fd <> b -> dup2 a b t !! fd = t !! fd.
Proof. intros Hn. unfold dup2. destruct (t !! a); [by rewrite lookup_insert_ne|done]. Qed.

(** The runner inherits the descriptor the lock was taken on, whatever the
    other two descriptors are, and its standard streams are the null device
    and the error file when those were opened above them. *)
Theorem lock_is_inherited opened dup fd null_fd err_fd t f : lock_fd opened dup = Some fd -> (forall d, dup = Some d -> 3 <= d) ->
  t !! fd = Some f -> (forall n, null_fd = Some n -> t !! n = None) -> child_table null_fd err_fd t !! fd = Some f.
Proof.
  intros HL Hd Hf Hn. assert (H2 := lock_fd_high _ _ _ HL Hd). unfold STDERR_FILENO in H2. unfold child_table, STDERR_FILENO.
  assert (HE : forall t', t' !! fd = Some f -> (if 0 <=? err_fd then dup2 err_fd 2 t' else t') !! fd = Some f).
  { intros t' Ht. destruct (0 <=? err_fd); [rewrite dup2_other by lia|]; done. }
  apply HE. destruct null_fd as [n|]; [|done]. assert (n <> fd) by (intros ->; specialize (Hn _ eq_refl); congruence).
  assert (HT : forall t' : fds, t' !! fd = Some f -> (if 2 <? n then delete n t' else t') !! fd = Some f).
  { intros t' Ht. destruct (2 <? n); [rewrite lookup_delete_ne|]; done. }
  apply HT. destruct (err_fd <? 0); rewrite !dup2_other by lia; by rewrite lookup_insert_ne.
Qed.

Lemma child_streams n err_fd t : STDERR_FILENO < n -> STDERR_FILENO < err_fd -> n <> err_fd -> t !! err_fd = Some Err ->
  let u := child_table (Some n) err_fd t in u !! 0 = Some Null /\ u !! 1 = Some Null /\ u !! 2 = Some Err.
Proof.
  unfold child_table, STDERR_FILENO. intros Hn He Hne Ht. rewrite (proj2 (Z.ltb_ge err_fd 0)), (proj2 (Z.ltb_lt 2 n)), (proj2 (Z.leb_le 0 err_fd)) by lia.
  assert (E1 : dup2 n 1 (dup2 n 0 (<[n:=Null]> t)) = <[1:=Null]> (<[0:=Null]> (<[n:=Null]> t))).
  { unfold dup2 at 2. rewrite lookup_insert_eq. unfold dup2. by rewrite lookup_insert_ne, lookup_insert_eq by lia. }
  assert (E2 : delete n (<[1:=Null]> (<[0:=Null]> (<[n:=Null]> t))) !! err_fd = Some Err)
    by (rewrite lookup_delete_ne, !lookup_insert_ne by lia; done).
  rewrite E1. unfold dup2. rewrite E2.
  by rewrite lookup_insert_ne, lookup_delete_ne, lookup_insert_ne, lookup_insert_eq, lookup_insert_ne, lookup_delete_ne, lookup_insert_eq, lookup_insert_eq by lia.
Qed.

(** ** Waiting ends *)

Lemma wait_turns_out pid deadline ks fuel n : (forall m, lk_now (ks m) + 50 <= lk_now (ks (S m))) ->
  deadline <= lk_now (ks n) + 50 * (Z.of_nat fuel - 1) -> (0 < fuel)%nat -> is_Some (wait_loop fuel pid deadline ks n).
Proof.
  intros Ht. revert n. induction fuel as [|f IH]; intros n Hd Hf; [lia|]. cbn [wait_loop]. unfold wait_turn.
  destruct (lk_reached (ks n)); [by eexists|]. destruct ((0 <? pid) && lk_gone (ks n)); [by eexists|].
  destruct (Z.leb_spec deadline (lk_now (ks n))); [by eexists|]. destruct f as [|f]; [lia|]. apply IH; [|lia]. specialize (Ht n). lia.
Qed.

(** Whatever the socket and the child do, the wait is over after 201 turns:
    each sleeps 50 ms, and the deadline is ten seconds off. *)
Theorem wait_ends ipc pid now ks : (forall m, lk_now (ks m) + 50 <= lk_now (ks (S m))) -> now <= lk_now (ks O) ->
  is_Some (db_runner_wait 201 ipc pid 0 now ks).
Proof.
  intros Ht H0. unfold db_runner_wait. destruct ipc; [by eexists|]. apply wait_turns_out; [done| |lia].
  change (now + 10000 <= lk_now (ks O) + 50 * (201 - 1)). lia.
Qed.

(** And its answer is the first turn's that decides. *)
Lemma wait_answer fuel pid deadline ks n b : wait_loop fuel pid deadline ks n = Some b ->
  exists m, (n <= m)%nat /\ (forall j, (n <= j < m)%nat -> wait_turn pid deadline (ks j) = Again) /\
    wait_turn pid deadline (ks m) = if b then Ready else Broken.
Proof.
  revert n. induction fuel as [|f IH]; intros n; cbn [wait_loop]; [done|]. destruct (wait_turn pid deadline (ks n)) eqn:E; intros H.
  - injection H as <-. exists n. split; [lia|]. split; [lia|done].
  - injection H as <-. exists n. split; [lia|]. split; [lia|done].
  - destruct (IH _ H) as (m & Hm & HA & HE). exists m. split; [lia|]. split; [|done]. intros j Hj.
    destruct (decide (j = n)) as [->|]; [done|]. apply HA. lia.
Qed.

End Launch.
