(* ===== verification/Supervisor.v ===== *)
(** * One runner at a time: tetrisdb/main.c

    Any number of [tetrisdb start] and [tetrisdb stop] run side by side with
    the runners they bring up, and any process may die at any moment.  They
    meet in the lock file: its [flock], which a runner inherits and holds as
    long as it lives, and the pid written into it.  A step is one system call
    of one command (or a group of calls no other process can tell apart), the
    death of a child, or the death of a command; a run is any list of steps.

    The lock belongs to an open file description.  A command opens the file
    once, so the description is named by the command; it is open as long as the
    command holds its descriptor or a child forked with it lives. *)
From S2P Require Import Prelude CText Provision Launch Rc.
Import Provision Launch.
Local Open Scope Z_scope.

Module Supervisor.

(** ** Configuration *)

Definition MAX_SESSIONS : Z := 254.

Definition load_config (h : Rc.host) (rc : Rc.rc_state) : db_runner_opts_t * Rc.rc_state :=
  let '(_, dir, rc) := Rc.rc_get h ($"db_dir") (Some ($"var/db")) (Some []) PATH_MAX rc in
  let '(_, ipc, rc) := Rc.rc_get h ($"db_ipc") (Some ($"var/run/tetrisdb.sock")) (Some []) MAX_IPC_PATH rc in
  let '(_, jar, rc) := Rc.rc_get h ($"db_jar") (Some ($"db/dist/simpledb.jar")) (Some []) PATH_MAX rc in
  let '(_, java, rc) := Rc.rc_get h ($"db_java") (Some ($"java")) (Some []) PATH_MAX rc in
  let '(_, err, rc) := Rc.rc_get h ($"db_err_path") (Some ($"var/log/tetrisdb.err")) (Some []) PATH_MAX rc in
  let '(_, n, rc) := Rc.rc_get_int h ($"db_sessions") DB_DEFAULT_SESSIONS 1 MAX_SESSIONS (Some 0) [] rc in
  (mkOpts (default [] dir) (default [] jar) (default [] java) (default [] err) (default [] ipc) (default 0 n) true, rc).

Inductive verb := Start | Check | Stop.

(** The verb to run, or the exit code 2. *)
Definition main (argv : list cstr) (h : Rc.host) (rc : Rc.rc_state) : (verb + Z) * Rc.rc_state :=
  match argv with
  | [_; v] =>
    let '(_, enable, rc) := Rc.rc_get_bool h ($"db") 0 (Some 0) [] rc in
    (if default 0 enable =? 0 then inr 2
     else if streq v ($"start") then inl Start
     else if streq v ($"check") then inl Check
     else if streq v ($"stop") then inl Stop
     else inr 2, rc)
  | _ => (inr 2, rc)
  end.

(** [tetrisdb check]: is something listening? *)
Definition check (fuel : nat) (now : Z) (ks : nat -> look) (h : Rc.host) (rc : Rc.rc_state) : option Z :=
  match db_runner_wait fuel (ipc (fst (load_config h rc))) (-1) 1 now ks with Some true => Some 0 | Some false => Some 1 | None => None end.

(** ** The pid in the lock file *)

Definition pid_line (pid : Z) : cstr := print_int pid ++ [LF].

Inductive lock_pid := No_pid | Malformed | Names (pid : Z).

(** [buf] holds 64 bytes and is read as a C string. *)
Definition read_lock_pid (bytes : cstr) : lock_pid :=
  match bytes with
  | [] => No_pid
  | _ =>
    if (64 <=? length bytes)%nat then Malformed
    else let '(value, rest) := strtol (Rc.as_text bytes) in
         if (value <=? 1) || (INT_MAX <? value) || negb (bool_decide (rest = []) || bool_decide (rest = [LF])) then Malformed
         else Names value
  end.

(** ** What the disk needs first *)

(** auth.h, history.h. *)
Definition tables : list (cstr * cstr) :=
  [($"user", $"id int, name string, salt string, digest string, iters int, created_at int");
   ($"history", $"id int, player_id int, user_name string, score int, lines int, ts_start int, ts_end int")].

(** [strrchr]: what stands before the last slash. *)
Fixpoint before_last_slash (p : cstr) : option cstr :=
  match p with
  | [] => None
  | c :: p' => match before_last_slash p' with Some d => Some (c :: d) | None => if ceqb c "/" then Some [] else None end
  end.

Definition mkdir_parent (refused : cstr -> bool) (path : cstr) (fs : disk) : bool * disk :=
  if (PATH_MAX <=? length path)%nat then (false, fs)
  else match before_last_slash path with
       | None | Some [] => (true, fs)
       | Some d => db_mkdir_p refused d fs
       end.

Record preparing := mkPreparing { pp_tables : list weather; pp_secret : minting; pp_mkdir : cstr -> bool; pp_err : bool; pp_uid : Z }.

Definition provision (o : db_runner_opts_t) (wes : list weather) (fs : disk) : bool * disk := ensure_tables (Some (dir o)) tables wes fs.

(** [start] between the lock and the spawn, the error file's open included. *)
Definition prepare (o : db_runner_opts_t) (pp : preparing) (fs : disk) : bool * disk :=
  match provision o (pp_tables pp) fs with
  | (false, fs) => (false, fs)
  | (true, fs) =>
    match auth_secret_provision (pp_secret pp) (pp_uid pp) ($".") fs with
    | (false, fs) => (false, fs)
    | (true, fs) =>
      match mkdir_parent (pp_mkdir pp) (ipc o) fs with
      | (false, fs) => (false, fs)
      | (true, fs) =>
        match mkdir_parent (pp_mkdir pp) (err_path o) fs with
        | (false, fs) => (false, fs)
        | (true, fs) => open_creat (pp_err pp) (pp_uid pp) (err_path o) fs
        end
      end
    end
  end.

(** ** Where a command is *)

Inductive pc :=
  (** [start]: before the call named *)
  | S_open | S_flock | S_clear | S_prepare | S_probe
  | S_probing (pid : Z)                    (** [java_runs] waits for its child *)
  | S_fork
  | S_truncate (pid : Z) | S_write (pid : Z) (written : nat) | S_sync (pid : Z)   (** [record_pid] *)
  | S_deadline (pid : Z) | S_wait (pid deadline : Z)                              (** [db_runner_wait] *)
  | S_term (pid : Z) (clear : bool) | S_reap (pid : Z) (clear : bool) (i : nat)   (** [stop_failed_child] *)
  | S_kill (pid : Z) (clear : bool) | S_gone (pid : Z) (clear : bool)
  | S_clear_pid
  | Started (pid : Z)                      (** returned 0 *)
  (** [stop] *)
  | T_open | T_flock | T_clear | T_read | T_kill (pid : Z) | T_poll (pid : Z) (i : nat)
  | Returned (code : Z)                    (** [stop] returned, or [start] returned 1 *)
  | Crashed (child : option (Z * bool)).   (** died on the way, with this child *)

(** A child of a command: the JVM that is probed ([ch_runner = false]) or the
    runner.  One that ended and was not waited for is not running. *)
Record child := mkChild { ch_pid : Z; ch_by : nat; ch_runner : bool; ch_running : bool }.

(** [signals]: who signalled which pid, for the theorems. *)
Record world := mkWorld { cmds : list pc; children : list child; owner : option nat; fs : disk; signals : list (nat * Z) }.

(** [ftruncate] and the [lseek] and [fsync] behind it: all succeed, the first
    fails, a later one does. *)
Inductive clearing := Cleared | Not_truncated | Not_synced.

(** The system's answer to one step. *)
Inductive answer :=
  | A_open (op : opening)
  | A_flock (error : bool)
  | A_clear (c : clearing)
  | A_prepare (pp : preparing)
  | A_fork (readable : bool) (pid : option Z)   (** [access], [fork] *)
  | A_status (zero : bool)                      (** exited with status 0 *)
  | A_write (n : option nat)                    (** bytes taken; 0 an error; [None] EINTR *)
  | A_ok (ok : bool)
  | A_look (reached : bool) (now : Z)
  | A_now (now : Z).

Inductive event := Arrive (v : verb) | Go (i : nat) (a : answer) | Dies (pid : Z) | Killed (i : nat).

(** ** The kernel *)

Definition lock_key (o : db_runner_opts_t) : path_key := key (dir o ++ $"/.runner.lock").
Definition text (o : db_runner_opts_t) (w : world) : option cstr :=
  match fs w !! lock_key o with Some (File t _ _) => Some t | _ => None end.
Definition write_text (o : db_runner_opts_t) (t : cstr) (d : disk) : disk :=
  match d !! lock_key o with
  | Some (File _ mode uid) => <[lock_key o := File t mode uid]> d
  | _ => <[lock_key o := File t 416 0]> d
  end.

(** The child with this pid, if it was not waited for yet. *)
Definition find_child (pid : Z) (w : world) : option child := head (filter (fun c => ch_pid c = pid) (children w)).
Definition reap (pid : Z) (cs : list child) : list child := filter (fun c => ch_pid c <> pid) cs.
(** Numbers [fork] can give. *)
Definition fresh (pid : Z) (w : world) : bool := (1 <? pid) && (pid <=? INT_MAX) && negb (bool_decide (is_Some (find_child pid w))).

(** Does the command hold the lock file's descriptor? *)
Definition has_fd (p : pc) : bool :=
  match p with S_open | T_open | Started _ | Returned _ | Crashed _ => false | _ => true end.
Definition open_description (w : world) (i : nat) : bool :=
  match cmds w !! i with Some p => has_fd p | None => false end || existsb (fun c => ch_running c && bool_decide (ch_by c = i)) (children w).
(** Has the command returned or died? *)
Definition returned (p : pc) : bool := match p with Started _ | Returned _ | Crashed _ => true | _ => false end.
(** A child that ended after its parent did is waited for by init. *)
Definition kept_child (w : world) (c : child) : bool :=
  ch_running c || match cmds w !! ch_by c with Some p => negb (returned p) | None => false end.
Definition orphans_reaped (w : world) : world :=
  mkWorld (cmds w) (filter (fun c => kept_child w c = true) (children w)) (owner w) (fs w) (signals w).
(** The last descriptor closed lets the lock go. *)
Definition unlocked (w : world) : world :=
  match owner w with
  | Some i => if open_description w i then w else mkWorld (cmds w) (children w) None (fs w) (signals w)
  | None => w
  end.
Definition settle (w : world) : world := unlocked (orphans_reaped w).

Definition goto (i : nat) (p : pc) (w : world) : world := mkWorld (<[i := p]> (cmds w)) (children w) (owner w) (fs w) (signals w).
Definition with_children (cs : list child) (w : world) : world := mkWorld (cmds w) cs (owner w) (fs w) (signals w).
Definition with_owner (i : nat) (w : world) : world := mkWorld (cmds w) (children w) (Some i) (fs w) (signals w).
Definition with_fs (d : disk) (w : world) : world := mkWorld (cmds w) (children w) (owner w) d (signals w).
Definition send (i : nat) (pid : Z) (w : world) : world := mkWorld (cmds w) (children w) (owner w) (fs w) (signals w ++ [(i, pid)]).

(** [flock(fd, LOCK_EX | LOCK_NB)]. *)
Definition flock (i : nat) (w : world) : option world := match owner w with None => Some (with_owner i w) | Some _ => None end.

(** [ftruncate(fd, 0)] and what follows it: did all succeed? *)
Definition clear (o : db_runner_opts_t) (c : clearing) (w : world) : bool * world :=
  match c with
  | Not_truncated => (false, w)
  | Not_synced => (false, with_fs (write_text o [] (fs w)) w)
  | Cleared => (true, with_fs (write_text o [] (fs w)) w)
  end.

Definition fork (i : nat) (runner : bool) (pid : Z) (w : world) : world := with_children (children w ++ [mkChild pid i runner true]) w.

(** ** The commands *)

Section Commands.
Context (o : db_runner_opts_t).

Definition failed : pc := Returned 1.
Definition reaped (clear : bool) : pc := if clear then S_clear_pid else failed.

(** [acquire_lock]: [db_runner_lock] and the clearing of a stale pid. *)
Definition acquire_lock (i : nat) (p : pc) (a : answer) (w : world) : option world :=
  match p, a with
  | S_open, A_open op =>
    let '(fd, d) := open_lock op (dir o) (fs w) in
    Some (goto i (match fd with Some _ => S_flock | None => failed end) (with_fs d w))
  | S_flock, A_flock error =>
    match if error then None else flock i w with
    | Some w => Some (goto i S_clear w)
    | None => Some (goto i failed w)
    end
  | S_clear, A_clear c => let '(ok, w) := clear o c w in Some (goto i (if ok then S_prepare else failed) w)
  | _, _ => None
  end.

(** "java -version" in a child, and the wait for it. *)
Definition java_runs (i : nat) (p : pc) (a : answer) (w : world) : option world :=
  match p, a with
  | S_probe, A_fork _ (Some pid) => if fresh pid w then Some (goto i (S_probing pid) (fork i false pid w)) else None
  | S_probe, A_fork _ None => Some (goto i failed w)
  | S_probing pid, A_status zero =>
    match find_child pid w with
    | Some c => if ch_running c then None else Some (goto i (if zero then S_fork else failed) (with_children (reap pid (children w)) w))
    | None => None
    end
  | _, _ => None
  end.

(** [db_runner_spawn] in the launcher: [check_db_config] and the fork. *)
Definition db_runner_spawn (i : nat) (p : pc) (a : answer) (w : world) : option world :=
  match p, a with
  | S_probe, A_fork readable _ => if negb (paths_ok o && jvm_named o readable) then Some (goto i failed w) else java_runs i p a w
  | S_probing _, _ => java_runs i p a w
  | S_fork, A_fork readable pid =>
    if negb readable then Some (goto i failed w)
    else match pid with
         | None => Some (goto i failed w)
         | Some pid => if fresh pid w then Some (goto i (S_truncate pid) (fork i true pid w)) else None
         end
  | _, _ => None
  end.

Definition record_pid (i : nat) (p : pc) (a : answer) (w : world) : option world :=
  match p, a with
  | S_truncate pid, A_clear c =>
    let '(ok, w) := clear o c w in Some (goto i (if ok then S_write pid 0 else S_term pid true) w)
  | S_write pid k, A_write None => Some w
  | S_write pid k, A_write (Some n) =>
    if (n =? 0)%nat then Some (goto i (S_term pid true) w)
    else let k := (k + n)%nat in
         Some (goto i (if (k <? length (pid_line pid))%nat then S_write pid k else S_sync pid) (with_fs (write_text o (take k (pid_line pid)) (fs w)) w))
  | S_sync pid, A_ok ok => Some (goto i (if ok then S_deadline pid else S_term pid true) w)
  | _, _ => None
  end.

(** [db_runner_wait] on the runner, turn by turn. *)
Definition wait_ready (i : nat) (p : pc) (a : answer) (w : world) : option world :=
  match p, a with
  | S_deadline pid, A_now now => Some (goto i (match ipc o with [] => S_term pid false | _ => S_wait pid (deadline_of now 0) end) w)
  | S_wait pid deadline, A_look reached now =>
    let gone := match find_child pid w with Some c => negb (ch_running c) | None => false end in
    match wait_turn pid deadline (mkLook reached gone now) with
    | Ready => Some (goto i (Started pid) w)
    | Broken => Some (goto i (S_term pid false) (if gone then with_children (reap pid (children w)) w else w))
    | Again => Some w
    end
  | _, _ => None
  end.

(** [SIGTERM], a hundred looks, [SIGKILL] and a wait; then [start] clears the
    pid or fails at once. *)
Definition stop_failed_child (i : nat) (p : pc) (a : answer) (w : world) : option world :=
  match p, a with
  | S_term pid b, A_ok _ => Some (if pid <=? 0 then goto i (reaped b) w else goto i (S_reap pid b 0) (send i pid w))
  | S_reap pid b n, A_ok _ =>
    if (n <? 100)%nat then
      match find_child pid w with
      | None => Some (goto i (reaped b) w)
      | Some c => if ch_running c then Some (goto i (S_reap pid b (S n)) w) else Some (goto i (reaped b) (with_children (reap pid (children w)) w))
      end
    else Some (goto i (S_kill pid b) w)
  | S_kill pid b, A_ok _ => Some (goto i (S_gone pid b) (send i pid w))
  | S_gone pid b, A_ok _ =>
    match find_child pid w with
    | None => Some (goto i (reaped b) w)
    | Some c => if ch_running c then None else Some (goto i (reaped b) (with_children (reap pid (children w)) w))
    end
  | _, _ => None
  end.

(** One step of [start] at [p]. *)
Definition step_start (i : nat) (p : pc) (a : answer) (w : world) : option world :=
  match p with
  | S_open | S_flock | S_clear => acquire_lock i p a w
  | S_prepare =>
    match a with
    | A_prepare pp => let '(ok, d) := prepare o pp (fs w) in Some (goto i (if ok then S_probe else failed) (with_fs d w))
    | _ => None
    end
  | S_probe | S_probing _ | S_fork => db_runner_spawn i p a w
  | S_truncate _ | S_write _ _ | S_sync _ => record_pid i p a w
  | S_deadline _ | S_wait _ _ => wait_ready i p a w
  | S_term _ _ | S_reap _ _ _ | S_kill _ _ | S_gone _ _ => stop_failed_child i p a w
  | S_clear_pid => match a with A_clear c => Some (goto i failed (snd (clear o c w))) | _ => None end
  | _ => None
  end.

(** One step of [stop] at [p]. *)
Definition step_stop (i : nat) (p : pc) (a : answer) (w : world) : option world :=
  match p, a with
  | T_open, A_ok ok =>
    match lock_path (dir o), fs w !! lock_key o with
    | None, _ | _, Some Dir => Some (goto i failed w)
    | _, Some (File _ _ _) => Some (goto i (if ok then T_flock else failed) w)
    | _, None => Some (goto i (if ok then Returned 0 else failed) w)
    end
  | T_flock, A_flock error =>
    if error then Some (goto i failed w)
    else match flock i w with Some w => Some (goto i T_clear w) | None => Some (goto i T_read w) end
  | T_clear, A_clear c => let '(ok, w) := clear o c w in Some (goto i (Returned (if ok then 0 else 1)) w)
  | T_read, A_ok ok =>
    match ok, read_lock_pid (default [] (text o w)) with
    | true, Names pid => Some (goto i (T_kill pid) w)
    | _, _ => Some (goto i failed w)
    end
  | T_kill pid, A_ok ok => if ok then Some (goto i (T_poll pid 0) (send i pid w)) else Some (goto i failed w)
  | T_poll pid n, A_flock error =>
    if (n <? 200)%nat then
      match if error then None else flock i w with
      | Some w => Some (goto i T_clear w)
      | None => Some (goto i (T_poll pid (S n)) w)
      end
    else Some (goto i failed w)
  | _, _ => None
  end.

(** What a command that dies leaves behind. *)
Definition child_of (p : pc) : option (Z * bool) :=
  match p with
  | S_probing pid => Some (pid, false)
  | S_truncate pid | S_write pid _ | S_sync pid | S_deadline pid | S_wait pid _ | S_term pid _ | S_reap pid _ _ | S_kill pid _ | S_gone pid _
  | Started pid => Some (pid, true)
  | Crashed c => c
  | _ => None
  end.

Definition is_stop (p : pc) : bool := match p with T_open | T_flock | T_clear | T_read | T_kill _ | T_poll _ _ => true | _ => false end.

(** One event; [None]: it cannot happen here. *)
Definition step (e : event) (w : world) : option world :=
  settle <$>
  match e with
  | Arrive Start => Some (mkWorld (cmds w ++ [S_open]) (children w) (owner w) (fs w) (signals w))
  | Arrive Stop => Some (mkWorld (cmds w ++ [T_open]) (children w) (owner w) (fs w) (signals w))
  | Arrive Check => Some w
  | Go i a => match cmds w !! i with Some p => (if is_stop p then step_stop else step_start) i p a w | None => None end
  | Dies pid =>
    match find_child pid w with
    | Some c => if ch_running c
                then Some (with_children (map (fun c => if decide (ch_pid c = pid) then mkChild (ch_pid c) (ch_by c) (ch_runner c) false else c) (children w)) w)
                else None
    | None => None
    end
  | Killed i =>
    match cmds w !! i with
    | Some p => if returned p then None else Some (goto i (Crashed (child_of p)) w)
    | None => None
    end
  end.

Fixpoint run (es : list event) (w : world) : option world :=
  match es with [] => Some w | e :: es' => match step e w with Some w' => run es' w' | None => None end end.

(** The disk as it is found, and nothing running. *)
Definition initial (d : disk) : world := mkWorld [] [] None d [].

End Commands.

(** ** The invariant *)

Section Logic.
Context (o : db_runner_opts_t).

(** Between taking the lock and giving the descriptor up. *)
Definition locks (p : pc) : bool :=
  has_fd p && match p with S_flock | T_flock | T_read | T_kill _ | T_poll _ _ => false | _ => true end.

(** What the lock file holds once the command's own writes made it so. *)
Definition expects (p : pc) : option cstr :=
  match p with
  | S_write pid k => Some (take k (pid_line pid))
  | S_sync pid | S_deadline pid | S_wait pid _ | Started pid => Some (pid_line pid)
  | _ => None
  end.

Definition pid_ok (pid : Z) : Prop := 1 < pid <= INT_MAX.

Record inv (w : world) : Prop := mkInv {
  inv_lock i p : cmds w !! i = Some p -> locks p = true -> owner w = Some i;
  inv_child c : c ∈ children w -> ch_running c = true -> owner w = Some (ch_by c);
  inv_pids : NoDup (map ch_pid (children w));
  inv_by c : c ∈ children w -> exists p, cmds w !! ch_by c = Some p /\ child_of p = Some (ch_pid c, ch_runner c);
  inv_range i p pid r : cmds w !! i = Some p -> child_of p = Some (pid, r) -> pid_ok pid;
  inv_text i p t : cmds w !! i = Some p -> expects p = Some t -> owner w = Some i -> text o w = Some t }.

Lemma inv_initial d : inv (initial d).
Proof. by split; try (intros; set_solver); try constructor. Qed.

(** *** The kernel's part *)

Lemma open_running w c : c ∈ children w -> ch_running c = true -> open_description w (ch_by c) = true.
Proof.
  intros Hc Hr. unfold open_description. apply orb_true_iff. right. apply existsb_exists. exists c.
  rewrite Hr, bool_decide_eq_true_2 by done. split; [by apply list_elem_of_In|done].
Qed.

Lemma open_locked w i p : cmds w !! i = Some p -> locks p = true -> open_description w i = true.
Proof. intros Hp [HL _]%andb_true_iff. unfold open_description. by rewrite Hp, HL. Qed.

Lemma pids_filter (P : child -> Prop) `{!forall c, Decision (P c)} cs : NoDup (map ch_pid cs) -> NoDup (map ch_pid (filter P cs)).
Proof. intros Hn. eapply sublist_NoDup; [exact Hn|]. apply (fmap_sublist ch_pid). apply sublist_filter. Qed.

Lemma inv_orphans w : inv w -> inv (orphans_reaped w).
Proof.
  intros [HL HC HN HB HR HT]. split; cbn; try done.
  - intros c [_ Hc]%list_elem_of_filter. by apply HC.
  - by apply pids_filter.
  - intros c [_ Hc]%list_elem_of_filter. by apply HB.
Qed.

Lemma inv_unlocked w : inv w -> inv (unlocked w).
Proof.
  intros Hi. unfold unlocked. destruct (owner w) as [i|] eqn:Eo; [|done]. destruct (open_description w i) eqn:Ed; [done|].
  destruct Hi as [HL HC HN HB HR HT]. split; cbn; try done.
  - intros j p Hp Hl. assert (E := HL _ _ Hp Hl). assert (i = j) as -> by congruence. by rewrite (open_locked _ _ _ Hp Hl) in Ed.
  - intros c Hc Hr. assert (E := HC _ Hc Hr). assert (i = ch_by c) as -> by congruence. by rewrite (open_running _ _ Hc Hr) in Ed.
Qed.

Lemma inv_settle w : inv w -> inv (settle w).
Proof. intros Hi. by apply inv_unlocked, inv_orphans. Qed.

Lemma settled w i : owner (settle w) = Some i -> open_description (settle w) i = true.
Proof.
  unfold settle, unlocked. destruct (owner (orphans_reaped w)) as [j|] eqn:Eo; [|congruence].
  destruct (open_description _ j) eqn:Ed; [|done]. intros E. rewrite Eo in E. by simplify_eq.
Qed.

(** *** One command moves *)

(** The children of the command that moves, and the others'. *)
Definition own_child (w : world) (i : nat) (p' : pc) (c : child) : Prop :=
  ch_by c = i /\ child_of p' = Some (ch_pid c, ch_runner c) /\ (ch_running c = true -> owner w = Some i).

Lemma inv_move w w' i p p' : inv w -> cmds w !! i = Some p -> cmds w' = <[i := p']> (cmds w) ->
  (owner w' = owner w \/ owner w = None /\ owner w' = Some i) ->
  (locks p' = true -> owner w' = Some i) ->
  NoDup (map ch_pid (children w')) ->
  (forall c, c ∈ children w' -> (ch_by c <> i /\ c ∈ children w) \/ own_child w' i p' c) ->
  (forall pid r, child_of p' = Some (pid, r) -> pid_ok pid) ->
  (locks p = true \/ forall t, text o w = Some t -> text o w' = Some t) ->
  (forall t, expects p' = Some t -> owner w' = Some i -> text o w' = Some t) -> inv w'.
Proof.
  intros [HL HC HN HB HR HT] Hp Ec Ho Hl' HN' Hch Hr' Htx He'.
  assert (Hlt : (i < length (cmds w))%nat) by (by eapply lookup_lt_Some).
  split; rewrite ?Ec.
  - intros j q Hq Hlq. destruct (decide (i = j)) as [->|Hne]; [rewrite list_lookup_insert_eq in Hq by done; simplify_eq; auto|].
    rewrite list_lookup_insert_ne in Hq by done. assert (E := HL _ _ Hq Hlq). destruct Ho as [->|[E' _]]; [done|congruence].
  - intros c Hc Hrun. destruct (Hch _ Hc) as [[Hby Hin]|(Hby & _ & Hown)]; [|rewrite Hby; auto].
    assert (E := HC _ Hin Hrun). destruct Ho as [->|[E' _]]; [done|congruence].
  - done.
  - intros c Hc. destruct (Hch _ Hc) as [[Hby Hin]|(-> & Hof & _)].
    + destruct (HB _ Hin) as (q & Hq & Hof). exists q. by rewrite list_lookup_insert_ne.
    + exists p'. by rewrite list_lookup_insert_eq.
  - intros j q pid r Hq. destruct (decide (i = j)) as [->|Hne]; [rewrite list_lookup_insert_eq in Hq by done; simplify_eq; apply Hr'|].
    rewrite list_lookup_insert_ne in Hq by done. by eapply HR.
  - intros j q t Hq Heq Hoj. destruct (decide (i = j)) as [->|Hne]; [rewrite list_lookup_insert_eq in Hq by done; simplify_eq; auto|].
    rewrite list_lookup_insert_ne in Hq by done. destruct Ho as [Ho|[_ Ho]]; [|congruence]. rewrite Ho in Hoj.
    destruct Htx as [Hlk|Htx]; [assert (E := HL _ _ Hp Hlk); congruence|]. apply Htx. by eapply HT.
Qed.

(** The three things that happen to children. *)
Lemma children_stay w i p p' w' : inv w -> cmds w !! i = Some p -> child_of p' = child_of p ->
  children w' = children w -> (owner w' = owner w \/ owner w = None /\ owner w' = Some i) ->
  NoDup (map ch_pid (children w')) /\ (forall c, c ∈ children w' -> (ch_by c <> i /\ c ∈ children w) \/ own_child w' i p' c).
Proof.
  intros Hi Hp Hof -> Ho. split; [apply Hi|]. intros c Hc. destruct (decide (ch_by c = i)) as [Eb|]; [right|by left].
  destruct (inv_by _ Hi _ Hc) as (q & Hq & Hq'). rewrite Eb, Hp in Hq. simplify_eq. split; [done|]. split; [congruence|].
  intros Hr. assert (E := inv_child _ Hi _ Hc Hr). destruct Ho as [->|[E' _]]; congruence.
Qed.

Lemma find_child_none w pid c : find_child pid w = None -> c ∈ children w -> ch_pid c <> pid.
Proof. intros H Hc. by apply (head_filter_None (fun c => ch_pid c = pid) (children w) c). Qed.

Lemma children_fork w i p p' w' pid r : inv w -> cmds w !! i = Some p -> child_of p = None -> owner w = Some i -> fresh pid w = true ->
  child_of p' = Some (pid, r) -> children w' = children w ++ [mkChild pid i r true] -> owner w' = owner w ->
  NoDup (map ch_pid (children w')) /\ (forall c, c ∈ children w' -> (ch_by c <> i /\ c ∈ children w) \/ own_child w' i p' c).
Proof.
  intros Hi Hp Hof Hown Hf Hof' Ec Ho. unfold fresh in Hf. rewrite !andb_true_iff, negb_true_iff, bool_decide_eq_false, <-eq_None_not_Some in Hf.
  destruct Hf as [_ Hf]. rewrite Ec. split.
  - rewrite map_app. cbn. apply NoDup_app. split; [apply Hi|]. split; [|apply NoDup_singleton]. intros x Hx ->%list_elem_of_singleton.
    apply list_elem_of_fmap in Hx as (c & E & Hc). by apply (find_child_none w pid c).
  - intros c [Hc| ->%list_elem_of_singleton]%elem_of_app.
    + left. split; [|done]. intros Eb. destruct (inv_by _ Hi _ Hc) as (q & Hq & Hq'). rewrite Eb, Hp in Hq. by simplify_eq.
    + right. split; [done|]. split; [done|]. cbn. congruence.
Qed.

Lemma children_reap w i p p' w' pid r : inv w -> cmds w !! i = Some p -> child_of p = Some (pid, r) ->
  children w' = reap pid (children w) ->
  NoDup (map ch_pid (children w')) /\ (forall c, c ∈ children w' -> (ch_by c <> i /\ c ∈ children w) \/ own_child w' i p' c).
Proof.
  intros Hi Hp Hof ->. split.
  - apply pids_filter, Hi.
  - intros c [Hn Hc]%list_elem_of_filter. left. split; [|done]. intros Eb. destruct (inv_by _ Hi _ Hc) as (q & Hq & Hq'). rewrite Eb, Hp in Hq.
    by simplify_eq.
Qed.

Lemma reap_absent pid w : find_child pid w = None -> reap pid (children w) = children w.
Proof. intros H. apply filter_all, Forall_forall. intros c Hc. by eapply find_child_none. Qed.

(** *** The lock file *)

Lemma write_text_read t d w : text o (with_fs (write_text o t d) w) = Some t.
Proof. unfold text, write_text. cbn. destruct (d !! lock_key o) as [[]|]; by rewrite lookup_insert_eq. Qed.

Lemma open_lock_keeps op d fd d' t m u : open_lock op (dir o) d = (fd, d') -> d !! lock_key o = Some (File t m u) -> d' !! lock_key o = Some (File t m u).
Proof.
  unfold open_lock. intros H Hk. destruct (dir o) as [|x y] eqn:Ed; [by simplify_eq|].
  destruct (db_mkdir_p (op_mkdir op) (x :: y) d) as [b d1] eqn:Em. apply mkdir_p_grows in Em.
  assert (Hk1 : d1 !! lock_key o = Some (File t m u)) by (destruct (Em (lock_key o)) as [->|[? _]]; [done|congruence]).
  destruct b; [|by simplify_eq]. destruct (lock_path (x :: y)) as [path|]; [|by simplify_eq].
  unfold open_creat in H. destruct (op_refused op); [by simplify_eq|].
  destruct (d1 !! key path) as [[]|] eqn:Ek; [by simplify_eq|by simplify_eq|]. destruct (is_dir d1 (parent (key path))); [|by simplify_eq].
  simplify_eq. rewrite lookup_insert_ne; [done|]. intros E. rewrite E in Ek. congruence.
Qed.

Lemma open_lock_text op w fd d t : open_lock op (dir o) (fs w) = (fd, d) -> text o w = Some t -> text o (with_fs d w) = Some t.
Proof.
  unfold text. intros H. cbn. destruct (fs w !! lock_key o) as [[]|] eqn:E; intros ?; simplify_eq.
  by rewrite (open_lock_keeps _ _ _ _ _ _ _ H E).
Qed.

(** *** The shapes of a move *)

Definition same (w w0 : world) : Prop := cmds w0 = cmds w /\ children w0 = children w /\ owner w0 = owner w.

Lemma move_stay w w0 i p p' : inv w -> cmds w !! i = Some p -> same w w0 -> child_of p' = child_of p -> (locks p' = true -> locks p = true) ->
  (locks p = true \/ forall t, text o w = Some t -> text o w0 = Some t) ->
  (forall t, expects p' = Some t -> owner w = Some i -> text o w0 = Some t) -> inv (goto i p' w0).
Proof.
  intros Hi Hp (Ec & Eh & Eo) Hof Hl Ht He. destruct (children_stay w i p p' (goto i p' w0)) as [HN HC]; auto.
  eapply (inv_move w); eauto; cbn; rewrite ?Ec, ?Eo; auto.
  - intros H. by eapply inv_lock; eauto.
  - rewrite Hof. intros pid r H. by eapply inv_range.
Qed.

Lemma move_take w i p p' : inv w -> cmds w !! i = Some p -> owner w = None -> child_of p' = child_of p -> expects p' = None ->
  inv (goto i p' (with_owner i w)).
Proof.
  intros Hi Hp Ho Hof He. destruct (children_stay w i p p' (goto i p' (with_owner i w))) as [HN HC]; auto.
  eapply (inv_move w); eauto; cbn; auto; [|congruence]. rewrite Hof. intros pid r H. by eapply inv_range.
Qed.

Lemma move_fork w i p p' pid r : inv w -> cmds w !! i = Some p -> locks p = true -> child_of p = None -> fresh pid w = true ->
  child_of p' = Some (pid, r) -> expects p' = None -> inv (goto i p' (fork i r pid w)).
Proof.
  intros Hi Hp Hl Hof Hf Hof' He. assert (Ho := inv_lock _ Hi _ _ Hp Hl).
  destruct (children_fork w i p p' (goto i p' (fork i r pid w)) pid r) as [HN HC]; auto.
  eapply (inv_move w); eauto; [|congruence]. rewrite Hof'. intros ? ? [= <- <-]. unfold fresh in Hf. rewrite !andb_true_iff in Hf. unfold pid_ok. lia.
Qed.

Lemma move_reap w i p p' pid r : inv w -> cmds w !! i = Some p -> locks p = true -> child_of p = Some (pid, r) -> 
  child_of p' = None \/ child_of p' = child_of p -> expects p' = None -> inv (goto i p' (with_children (reap pid (children w)) w)).
Proof.
  intros Hi Hp Hl Hof Hof' He. assert (Ho := inv_lock _ Hi _ _ Hp Hl).
  destruct (children_reap w i p p' (goto i p' (with_children (reap pid (children w)) w)) pid r) as [HN HC]; auto.
  eapply (inv_move w); eauto; [|congruence]. intros q s. destruct Hof' as [->| ->]; [done|]. intros H. by eapply inv_range.
Qed.

Lemma move_gone w i p p' pid r : inv w -> cmds w !! i = Some p -> locks p = true -> child_of p = Some (pid, r) -> find_child pid w = None ->
  child_of p' = None \/ child_of p' = child_of p -> expects p' = None -> inv (goto i p' w).
Proof.
  intros Hi Hp Hl Hof Hf Hof' He. assert (H := move_reap w i p p' pid r Hi Hp Hl Hof Hof' He). rewrite reap_absent in H by done.
  by destruct w.
Qed.

Lemma clear_spec c w : same w (snd (clear o c w)) /\ (fst (clear o c w) = true -> text o (snd (clear o c w)) = Some []).
Proof. destruct c; (split; [by repeat split|]); cbn; try done. intros _. apply write_text_read. Qed.

Lemma move_clear w i p p' c : inv w -> cmds w !! i = Some p -> locks p = true -> child_of p' = child_of p ->
  (forall t, expects p' = Some t -> t = [] /\ fst (clear o c w) = true) -> inv (goto i p' (snd (clear o c w))).
Proof.
  intros Hi Hp Hl Hof He. destruct (clear_spec c w) as [Hs Ht]. eapply move_stay; eauto. intros t E _. destruct (He _ E) as [-> Hc]. auto.
Qed.

Lemma same_fs d w : same w (with_fs d w).
Proof. done. Qed.
Lemma same_refl w : same w w.
Proof. done. Qed.
Lemma same_send i pid w : same w (send i pid w).
Proof. done. Qed.
#[local] Hint Resolve same_fs same_refl same_send : core.

(** A move that leaves the lock file as it is. *)
Ltac stay := eapply move_stay; eauto; try done; intros; by eapply inv_text; eauto.

Lemma inv_start w i p a w' : inv w -> cmds w !! i = Some p -> step_start o i p a w = Some w' -> inv w'.
Proof.
  intros Hi Hp H. destruct p, a; cbn -[Nat.ltb Nat.eqb Z.ltb Z.leb] in H; try done.
  - destruct (open_lock op (dir o) (fs w)) as [fd d] eqn:E. injection H as <-. eapply move_stay; eauto; try (by destruct fd).
    right. intros t. by apply open_lock_text with op fd.
  - destruct error; [injection H as <-; by stay|]. unfold flock in H. destruct (owner w) eqn:Eo; injection H as <-; [stay|].
    by eapply move_take.
  - destruct (clear o c w) as [ok w1] eqn:E. injection H as <-. change w1 with (snd (ok, w1)). rewrite <-E.
    eapply move_clear; eauto; by destruct ok.
  - destruct (prepare o pp (fs w)) as [ok d]. injection H as <-. eapply move_stay; eauto; by destruct ok; auto.
  - destruct (negb _); [injection H as <-; by stay|]. destruct pid as [pid|]; [|injection H as <-; by stay].
    destruct (fresh pid w) eqn:Ef; [|done]. injection H as <-. by eapply move_fork.
  - destruct (find_child pid w) as [c|] eqn:Ef; [|done]. destruct (ch_running c); [done|]. injection H as <-.
    eapply move_reap; eauto; [by destruct zero; left|by destruct zero].
  - destruct (negb _); [injection H as <-; by stay|]. destruct pid as [pid|]; [|injection H as <-; by stay].
    destruct (fresh pid w) eqn:Ef; [|done]. injection H as <-. by eapply move_fork.
  - destruct (clear o c w) as [ok w1] eqn:E. injection H as <-. change w1 with (snd (ok, w1)). rewrite <-E.
    eapply move_clear; eauto; [by destruct ok|]. rewrite E. destruct ok; [|done]. cbn. by intros t [= <-].
  - destruct n as [n|]; [|by simplify_eq]. destruct (n =? 0)%nat; injection H as <-; [by stay|].
    destruct (Nat.ltb_spec (written + n) (length (pid_line pid))); (eapply move_stay; [exact Hi|exact Hp|apply same_fs|reflexivity|reflexivity|by left|]; intros t; rewrite write_text_read; cbn; intros [= <-] _).
    + done.
    + by rewrite take_ge by lia.
  - injection H as <-. destruct ok; stay.
  - injection H as <-. destruct (ipc o); stay.
  - unfold wait_turn in H. cbn -[Z.ltb Z.leb] in H. destruct reached; [injection H as <-; stay|].
    destruct (find_child pid w) as [c|] eqn:Ef; [destruct (ch_running c) eqn:Er|]; cbn -[Z.ltb Z.leb] in H; rewrite ?andb_false_r, ?andb_true_r in H.
    + destruct (_ <=? _); [injection H as <-; by stay|by simplify_eq].
    + destruct (_ <? _); [|destruct (_ <=? _)]; simplify_eq; try done; eapply move_reap; eauto.
    + destruct (_ <=? _); [injection H as <-; by stay|by simplify_eq].
  - injection H as <-. assert (HR := inv_range _ Hi _ _ pid true Hp eq_refl). rewrite (proj2 (Z.leb_gt pid 0)) by (unfold pid_ok in HR; lia). stay.
  - destruct (_ <? _)%nat; [|injection H as <-; by stay]. destruct (find_child pid w) as [c|] eqn:Ef; [destruct (ch_running c)|]; injection H as <-.
    + stay.
    + eapply move_reap; eauto; [by destruct clear0; left|by destruct clear0].
    + eapply move_gone; eauto; [by destruct clear0; left|by destruct clear0].
  - injection H as <-. stay.
  - destruct (find_child pid w) as [c|] eqn:Ef; [destruct (ch_running c); [done|]|]; injection H as <-.
    + eapply move_reap; eauto; [by destruct clear0; left|by destruct clear0].
    + eapply move_gone; eauto; [by destruct clear0; left|by destruct clear0].
  - injection H as <-. by eapply move_clear.
Qed.

Lemma inv_stop w i p a w' : inv w -> cmds w !! i = Some p -> step_stop o i p a w = Some w' -> inv w'.
Proof.
  intros Hi Hp H. destruct p, a; cbn -[Nat.ltb Nat.eqb Z.ltb Z.leb] in H; try done.
  - destruct (lock_path (dir o)); [|injection H as <-; by stay]. destruct (fs w !! lock_key o) as [[]|]; injection H as <-; try destruct ok; stay.
  - destruct error; [injection H as <-; by stay|]. unfold flock in H. destruct (owner w) eqn:Eo; injection H as <-; [stay|]. by eapply move_take.
  - destruct (clear o c w) as [ok w1] eqn:E. injection H as <-. change w1 with (snd (ok, w1)). rewrite <-E. by eapply move_clear.
  - destruct ok; [|injection H as <-; by stay]. destruct (read_lock_pid _); injection H as <-; stay.
  - destruct ok; injection H as <-; stay.
  - destruct (_ <? _)%nat; [|injection H as <-; by stay]. destruct error; [injection H as <-; by stay|].
    unfold flock in H. destruct (owner w) eqn:Eo; injection H as <-; [stay|]. by eapply move_take.
Qed.

(** *** Arrivals and deaths *)

Lemma inv_arrive w p : inv w -> child_of p = None -> expects p = None -> locks p = false ->
  inv (mkWorld (cmds w ++ [p]) (children w) (owner w) (fs w) (signals w)).
Proof.
  intros [HL HC HN HB HR HT] Hof He Hl.
  assert (HX : forall i q, (cmds w ++ [p]) !! i = Some q -> cmds w !! i = Some q \/ q = p).
  { intros i q [Hq|[_ Hq]]%lookup_app_Some; [by left|]. apply list_lookup_singleton_Some in Hq as [_ ->]. by right. }
  split; cbn; try done.
  - intros i q [Hq| ->]%HX; [by eapply HL|congruence].
  - intros c Hc. destruct (HB _ Hc) as (q & Hq & E). exists q. by rewrite (lookup_app_l_Some _ _ _ _ Hq).
  - intros i q pid r [Hq| ->]%HX; [by eapply HR|congruence].
  - intros i q t [Hq| ->]%HX; [by eapply HT|congruence].
Qed.

Lemma inv_dies w pid : inv w -> inv (with_children (map (fun c => if decide (ch_pid c = pid) then mkChild (ch_pid c) (ch_by c) (ch_runner c) false else c) (children w)) w).
Proof.
  intros [HL HC HN HB HR HT].
  assert (HX : forall c, c ∈ children (with_children (map (fun c => if decide (ch_pid c = pid) then mkChild (ch_pid c) (ch_by c) (ch_runner c) false else c) (children w)) w) ->
    exists c0, c0 ∈ children w /\ ch_pid c = ch_pid c0 /\ ch_by c = ch_by c0 /\ ch_runner c = ch_runner c0 /\ (ch_running c = true -> ch_running c0 = true)).
  { intros c (c0 & -> & Hc)%list_elem_of_fmap. exists c0. by destruct (decide _). }
  split; cbn; try done.
  - intros c (c0 & Hc & _ & Eb & _ & Hr)%HX Hr'. rewrite Eb. by apply HC; auto.
  - rewrite map_map. erewrite map_ext; [exact HN|]. intros c. by destruct (decide _).
  - intros c (c0 & Hc & Ep & Eb & Er & _)%HX. rewrite Ep, Eb, Er. by apply HB.
Qed.

Lemma inv_step e w w' : inv w -> step o e w = Some w' -> inv w'.
Proof.
  intros Hi H. unfold step in H. apply fmap_Some in H as (w1 & H & ->). apply inv_settle. destruct e.
  - destruct v; injection H as <-; [by apply inv_arrive|done|by apply inv_arrive].
  - destruct (cmds w !! i) as [p|] eqn:Hp; [|done]. destruct (is_stop p); [by eapply inv_stop|by eapply inv_start].
  - destruct (find_child pid w) as [c|]; [|done]. destruct (ch_running c); [|done]. injection H as <-. by apply inv_dies.
  - destruct (cmds w !! i) as [p|] eqn:Hp; [|done]. destruct (returned p); [done|]. injection H as <-. stay.
Qed.

Lemma inv_run es w w' : inv w -> run o es w = Some w' -> inv w'.
Proof.
  revert w. induction es as [|e es IH]; intros w Hi H; cbn in H; [by simplify_eq|]. destruct (step o e w) as [w1|] eqn:E; [|done].
  eapply IH; [by eapply inv_step|done].
Qed.

Definition reachable (w : world) : Prop := exists d es, run o es (initial d) = Some w.

Lemma reachable_inv w : reachable w -> inv w.
Proof. intros (d & es & H). eapply inv_run; [apply inv_initial|done]. Qed.

(** ** What follows *)

Lemma one_child w c c' : inv w -> c ∈ children w -> c' ∈ children w -> ch_by c = ch_by c' -> c = c'.
Proof.
  intros Hi Hc Hc' E. destruct (inv_by _ Hi _ Hc) as (p & Hp & Ep), (inv_by _ Hi _ Hc') as (p' & Hp' & Ep'). rewrite E in Hp. simplify_eq.
  apply list_elem_of_lookup in Hc as [k Hk], Hc' as [k' Hk']. assert (k = k') as ->; [|congruence].
  eapply (NoDup_lookup _ _ _ (ch_pid c)); [exact (inv_pids _ Hi)| |].
  - change (map ch_pid (children w)) with (ch_pid <$> children w). by rewrite list_lookup_fmap, Hk.
  - change (map ch_pid (children w)) with (ch_pid <$> children w). rewrite list_lookup_fmap, Hk'. cbn. congruence.
Qed.

Lemma pid_line_text pid : Rc.as_text (pid_line pid) = pid_line pid.
Proof.
  unfold Rc.as_text. rewrite Rc.cut_missing; [done|]. unfold pid_line. intros [Hc|Hc]%elem_of_app; [|by apply list_elem_of_singleton in Hc].
  assert (H := print_int_chars pid). rewrite Forall_forall in H. by specialize (H _ Hc).
Qed.

(** What [record_pid] wrote, [read_lock_pid] reads. *)
Lemma pid_line_reads pid : pid_ok pid -> read_lock_pid (pid_line pid) = Names pid.
Proof.
  intros Hp. assert (HL := print_int_length pid). unfold read_lock_pid. rewrite pid_line_text.
  assert (HN : (length (pid_line pid) < 64)%nat) by (unfold pid_line; rewrite length_app; cbn; lia).
  assert (HE : strtol (pid_line pid) = (pid, [LF])) by (apply strtol_print_int; [unfold pid_ok, INT_MAX in Hp; unfold LONG_MIN, LONG_MAX; lia|done]).
  destruct (pid_line pid) as [|x y] eqn:E; [by destruct (app_cons_not_nil _ _ _ (eq_sym E))|].
  rewrite HE, (proj2 (Nat.leb_gt _ _) HN). unfold pid_ok in Hp. by rewrite (proj2 (Z.leb_gt _ _)), (proj2 (Z.ltb_ge _ _)) by lia.
Qed.

Lemma started_text w i pid c : inv w -> cmds w !! i = Some (Started pid) -> c ∈ children w -> ch_by c = i -> ch_running c = true ->
  read_lock_pid (default [] (text o w)) = Names pid /\ owner w = Some i.
Proof.
  intros Hi Hp Hc Hb Hr. assert (Ho := inv_child _ Hi _ Hc Hr). rewrite Hb in Ho. rewrite (inv_text _ Hi _ _ _ Hp eq_refl Ho). split; [|done].
  apply pid_line_reads. by eapply inv_range.
Qed.

(** C25: whatever starts, stops and deaths came before: at most one JVM of the
    data directory is running; a stop that clears the lock file does so when
    none is; while the runner of a start that returned 0 runs, it is the one
    running and the lock file names it; and a start that returned 1 has left
    nothing behind. *)
Theorem one_runner w : reachable w ->
  (forall c c', c ∈ children w -> c' ∈ children w -> ch_running c = true -> ch_running c' = true -> c = c') /\
  (forall i c, cmds w !! i = Some T_clear -> c ∈ children w -> ch_running c = false) /\
  (forall i pid c, cmds w !! i = Some (Started pid) -> c ∈ children w -> ch_by c = i -> ch_running c = true ->
     ch_pid c = pid /\ ch_runner c = true /\ read_lock_pid (default [] (text o w)) = Names pid) /\
  (forall i code c, cmds w !! i = Some (Returned code) -> c ∈ children w -> ch_by c <> i).
Proof.
  intros Hi%reachable_inv. split_and!.
  - intros c c' Hc Hc' Hr Hr'. apply (one_child w); try done. assert (E := inv_child _ Hi _ Hc Hr). assert (E' := inv_child _ Hi _ Hc' Hr'). congruence.
  - intros i c Hp Hc. destruct (ch_running c) eqn:Hr; [|done]. assert (E := inv_child _ Hi _ Hc Hr).
    assert (E' := inv_lock _ Hi _ _ Hp eq_refl). destruct (inv_by _ Hi _ Hc) as (q & Hq & Ho). rewrite E' in E. injection E as ->. by simplify_eq.
  - intros i pid c Hp Hc Hb Hr. destruct (inv_by _ Hi _ Hc) as (q & Hq & Ho). rewrite Hb in Hq. simplify_eq. cbn in Ho. simplify_eq.
    split; [done|]. split; [done|]. by eapply started_text.
  - intros i code c Hp Hc <-. destruct (inv_by _ Hi _ Hc) as (q & Hq & Ho). by simplify_eq.
Qed.

(** A stop that finds the lock taken signals the runner that is up: it reads
    that runner's pid, and no other start can take the lock from it. *)
Theorem stop_signals_the_runner w i pid c : reachable w -> cmds w !! i = Some (Started pid) -> c ∈ children w -> ch_by c = i -> ch_running c = true ->
  (forall j, cmds w !! j = Some T_read -> step o (Go j (A_ok true)) w = Some (settle (goto j (T_kill pid) w))) /\
  (forall j, cmds w !! j = Some S_flock -> step o (Go j (A_flock false)) w = Some (settle (goto j (Returned 1) w))) /\
  (forall j, cmds w !! j = Some T_flock -> step o (Go j (A_flock false)) w = Some (settle (goto j T_read w))).
Proof.
  intros Hi%reachable_inv Hp Hc Hb Hr. destruct (started_text _ _ _ _ Hi Hp Hc Hb Hr) as [Ht Ho].
  split_and!; intros j Hj; unfold step; rewrite Hj; cbn; unfold flock; rewrite ?Ht, ?Ho; done.
Qed.

(** The lock is let go with the last process that holds it. *)
Lemma lock_is_free w : reachable w -> (forall i p, cmds w !! i = Some p -> has_fd p = false) -> (forall c, c ∈ children w -> ch_running c = false) ->
  owner w = None.
Proof.
  intros (d & es & H) Hf Hc.
  assert (Hs : forall i, owner w = Some i -> open_description w i = true).
  { destruct es as [|e es] using rev_ind; [by injection H as <-|]. clear IHes.
    assert (HS : forall es w0, run o (es ++ [e]) w0 = Some w -> exists w1, step o e w1 = Some w).
    { clear. induction es as [|e' es IH]; intros w0; cbn; [destruct (step o e w0) eqn:E; [intros [= <-]; eauto|done]|]. destruct (step o e' w0); [apply IH|done]. }
    destruct (HS _ _ H) as (w1 & Hs). unfold step in Hs. apply fmap_Some in Hs as (w2 & _ & ->). intros i. apply settled. }
  destruct (owner w) as [i|]; [|done]. specialize (Hs _ eq_refl). unfold open_description in Hs. apply orb_true_iff in Hs as [Hs|Hs].
  - destruct (cmds w !! i) eqn:E; [|done]. by rewrite (Hf _ _ E) in Hs.
  - apply existsb_exists in Hs as (c & Hin%list_elem_of_In & [Hr _]%andb_true_iff). by rewrite (Hc _ Hin) in Hr.
Qed.

(** *** A stop comes to an end *)

(** How many calls a stop can still make. *)
Definition left_ (p : pc) : nat :=
  match p with
  | T_open => 206 | T_flock => 205 | T_read => 204 | T_kill _ => 203 | T_poll _ n => 202 - Nat.min n 200 | T_clear => 1 | _ => 0
  end.

Lemma stop_decreases w i p a w' : step_stop o i p a w = Some w' ->
  exists p', cmds w' = <[i := p']> (cmds w) /\ (left_ p' < left_ p)%nat /\ (is_stop p' = true \/ exists code, p' = Returned code).
Proof.
  assert (HG : forall q w0, cmds w0 = cmds w -> Some (goto i q w0) = Some w' -> (left_ q < left_ p)%nat -> (is_stop q = true \/ exists code, q = Returned code) ->
    exists p', cmds w' = <[i := p']> (cmds w) /\ (left_ p' < left_ p)%nat /\ (is_stop p' = true \/ exists code, p' = Returned code)).
  { intros q w0 E [= <-] Hq. exists q. cbn. by rewrite E. }
  intros H. destruct p, a; try done; cbn [step_stop] in H.
  - destruct (lock_path (dir o)), (fs w !! lock_key o) as [[]|], ok; (eapply HG; [|exact H|cbn; lia|cbn; eauto]; done).
  - unfold flock in H. destruct error, (owner w); (eapply HG; [|exact H|cbn; lia|cbn; eauto]; done).
  - destruct c; (eapply HG; [|exact H|cbn; lia|cbn; eauto]; done).
  - destruct (read_lock_pid (default [] (text o w))), ok; (eapply HG; [|exact H|cbn; lia|cbn; eauto]; done).
  - destruct ok; (eapply HG; [|exact H|cbn; lia|cbn; eauto]; done).
  - unfold flock in H. destruct (Nat.ltb_spec i0 200), error, (owner w); (eapply HG; [|exact H|cbn; lia|cbn; eauto]; done).
Qed.

Lemma start_moves w i p a w' : step_start o i p a w = Some w' -> cmds w' = cmds w \/ exists p', cmds w' = <[i := p']> (cmds w).
Proof.
  intros H. destruct p, a; try done; cbn [step_start acquire_lock db_runner_spawn java_runs record_pid wait_ready stop_failed_child] in H; unfold flock, clear in H;
    repeat match type of H with context [match ?x with _ => _ end] =>
      lazymatch x with context [match _ with _ => _ end] => fail | _ => destruct x end end; try done; injection H as <-; cbn; eauto.
Qed.

Lemma settle_cmds w : cmds (settle w) = cmds w.
Proof. unfold settle, unlocked. cbn. by repeat case_match. Qed.

(** Another's event leaves a command where it is. *)
Lemma others_stay e w w' i p : step o e w = Some w' -> cmds w !! i = Some p -> (forall a, e <> Go i a) -> e <> Killed i -> cmds w' !! i = Some p.
Proof.
  intros H Hp Hg Hk. unfold step in H. apply fmap_Some in H as (w1 & H & ->).
  rewrite settle_cmds. destruct e as [v|j a|pid|j].
  - destruct v; injection H as <-; cbn; [by apply lookup_app_l_Some|done|by apply lookup_app_l_Some].
  - destruct (decide (j = i)) as [->|Hne]; [by destruct (Hg a)|]. destruct (cmds w !! j) as [q|] eqn:Hq; [|done]. destruct (is_stop q).
    + apply stop_decreases in H as (p' & -> & _). by rewrite list_lookup_insert_ne.
    + apply start_moves in H as [->|[p' ->]]; [done|]. by rewrite list_lookup_insert_ne.
  - destruct (find_child pid w) as [c|]; [|done]. destruct (ch_running c); [|done]. by injection H as <-.
  - destruct (decide (j = i)) as [->|Hne]; [done|]. destruct (cmds w !! j) as [q|] eqn:Hq; [|done]. destruct (returned q); [done|]. injection H as <-.
    cbn. by rewrite list_lookup_insert_ne.
Qed.

Definition is_go (i : nat) (e : event) : bool := match e with Go j _ => (i =? j)%nat | _ => false end.
Definition calls (i : nat) (es : list event) : nat := length (filter (fun e => is_go i e = true) es).

Lemma stop_calls es w w' i p : run o es w = Some w' -> cmds w !! i = Some p -> is_stop p = true \/ (exists code, p = Returned code) \/ (exists c, p = Crashed c) ->
  (calls i es <= left_ p)%nat.
Proof.
  revert w p. induction es as [|e es IH]; intros w p H Hp Hs; [cbn; lia|]. cbn in H. destruct (step o e w) as [w1|] eqn:E; [|done].
  assert (Hlt : (i < length (cmds w))%nat) by (by eapply lookup_lt_Some).
  unfold calls. rewrite filter_cons. destruct (decide (is_go i e = true)) as [Hg|Hg].
  - destruct e as [|j a| |]; try done. apply Nat.eqb_eq in Hg as <-. unfold step in E. apply fmap_Some in E as (w2 & E & ->). rewrite Hp in E.
    destruct Hs as [Hs|[[code ->]|[c ->]]]; [|by destruct a|by destruct a]. rewrite Hs in E. apply stop_decreases in E as (p' & Ep & Hl & Hs').
    assert (Hp' : cmds (settle w2) !! i = Some p') by (by rewrite settle_cmds, Ep, list_lookup_insert_eq). cbn.
    assert (HI := IH _ _ H Hp' ltac:(tauto)). unfold calls in HI. lia.
  - assert (Hk : e = Killed i \/ e <> Killed i) by (destruct e as [| | |j]; try (by right); destruct (decide (j = i)) as [->|]; [by left|right; congruence]).
    destruct Hk as [->|Hk].
    + unfold step in E. rewrite Hp in E. destruct (returned p); [done|]. injection E as <-.
      assert (HI := IH _ (Crashed (child_of p)) H ltac:(rewrite settle_cmds; cbn; by apply list_lookup_insert_eq) ltac:(eauto)). cbn in HI. unfold calls in HI. lia.
    + assert (Hp' : cmds w1 !! i = Some p) by (eapply others_stay; eauto; intros a ->; by cbn in Hg; rewrite Nat.eqb_refl in Hg). exact (IH _ _ H Hp' Hs).
Qed.

(** A stop makes at most 206 calls, whatever the others do. *)
Theorem stop_ends es w w' i : run o es w = Some w' -> cmds w !! i = Some T_open -> (calls i es <= 206)%nat.
Proof. intros H Hp. by apply (stop_calls _ _ _ _ _ H Hp); left. Qed.

End Logic.

(** ** Runs *)

Definition opts0 : db_runner_opts_t := mkOpts ($"var/db") ($"s.jar") ($"java") ($"var/err") ($"var/s.sock") 16 true.
(** The working directory, under the name [auth_secret_provision] is given. *)
Definition disk0 : disk := {[ key ($".") := Dir ]}.
Definition calm : weather := mkWeather (fun _ => false) false [] true true None 1000.
Definition quiet : preparing := mkPreparing [calm; calm] (mkMinting false (Some (replicate 32 "k"%char)) false [] false) (fun _ => false) false 1000.
Definition found : opening := mkOpening (fun _ => false) false 3 None 1000.

(** Command [i] takes the lock, prepares, probes the JVM (as pid 41) and forks
    the runner [pid]. *)
Definition launch (i : nat) (pid : Z) : list event :=
  [Arrive Start; Go i (A_open found); Go i (A_flock false); Go i (A_clear Cleared); Go i (A_prepare quiet); Go i (A_fork true (Some 41)); Dies 41;
   Go i (A_status true); Go i (A_fork true (Some pid)); Go i (A_clear Cleared)].
Definition written (i : nat) (n : nat) : list event := [Go i (A_write (Some n)); Go i (A_ok true); Go i (A_now 0)].
Definition up : list event := launch 0 1234 ++ written 0 5 ++ [Go 0 (A_look false 50); Go 0 (A_look true 100)].

(** A second start is turned away, a stop signals the runner, waits for its
    lock and clears the file. *)
Definition second : list event := [Arrive Start; Go 1 (A_open found); Go 1 (A_flock false)].
Definition stopping : list event := [Arrive Stop; Go 2 (A_ok true); Go 2 (A_flock false); Go 2 (A_ok true); Go 2 (A_ok true); Go 2 (A_flock false)].

Example starting_and_stopping : (let w := run opts0 (up ++ second ++ stopping ++ [Dies 1234; Go 2 (A_flock false); Go 2 (A_clear Cleared)]) (initial disk0) in
  (cmds <$> w, signals <$> w, text opts0 <$> w, owner <$> w)) = (Some [Started 1234; Returned 1; Returned 0], Some [(2%nat, 1234)], Some (Some []), Some None).
Proof. vm_compute. reflexivity. Qed.

(** A runner that ends before it listens: the start fails, its pid stays in
    the file, and the signal goes to a pid that was already waited for. *)
Definition unready : list event := launch 0 1234 ++ written 0 5 ++ [Dies 1234; Go 0 (A_look false 50); Go 0 (A_ok true); Go 0 (A_ok true)].
Example stale_pid : (let w := run opts0 unready (initial disk0) in
  (cmds <$> w, children <$> w, owner <$> w, text opts0 <$> w, signals <$> w)) =
  (Some [Returned 1], Some [], Some None, Some (Some (pid_line 1234)), Some [(0%nat, 1234)]).
Proof. vm_compute. reflexivity. Qed.

(** And a stop that comes between the next start's [flock] and its
    [ftruncate] signals that pid, when no runner exists. *)
Example stale_pid_signalled : (let w := run opts0 (unready ++ [Arrive Start; Go 1 (A_open found); Go 1 (A_flock false)] ++ take 5 stopping) (initial disk0) in
  (children <$> w, signals <$> w)) = (Some [], Some [(0%nat, 1234); (2%nat, 1234)]).
Proof. vm_compute. reflexivity. Qed.

(** A stop that reads between two short writes of the pid signals another
    process: the line is accepted without its end. *)
Example short_pid_signalled : (let w := run opts0 (launch 0 1234 ++ [Go 0 (A_write (Some 2%nat)); Arrive Stop; Go 1 (A_ok true); Go 1 (A_flock false); Go 1 (A_ok true); Go 1 (A_ok true)]) (initial disk0) in
  (map ch_pid ∘ children <$> w, signals <$> w)) = (Some [1234], Some [(1%nat, 12)]).
Proof. vm_compute. reflexivity. Qed.

Lemma one_runner_witness : exists w, reachable opts0 w /\ cmds w = [Started 1234; Returned 1] /\ children w = [mkChild 1234 0 true true] /\
  read_lock_pid (default [] (text opts0 w)) = Names 1234.
Proof.
  assert (H : (fun w => (cmds w, children w)) <$> run opts0 (up ++ second) (initial disk0) = Some ([Started 1234; Returned 1], [mkChild 1234 0 true true]))
    by (vm_compute; reflexivity).
  apply fmap_Some in H as (w & E & HW). injection HW as HC HH. exists w. assert (HR : reachable opts0 w) by (exists disk0, (up ++ second); exact E).
  destruct (one_runner opts0 w HR) as (_ & _ & HS & _). assert (Hp : cmds w !! O = Some (Started 1234)) by (rewrite <-HC; reflexivity).
  assert (Hc : mkChild 1234 0 true true ∈ children w) by (rewrite <-HH; left). destruct (HS _ _ _ Hp Hc eq_refl eq_refl) as (_ & _ & Ht).
  exact (conj HR (conj (eq_sym HC) (conj (eq_sym HH) Ht))).
Defined.

End Supervisor.
