(* ===== verification/Proc.v ===== *)
(** * The child that runs statements: libtetrisdb/pipe/proc.c

    One PipeRunner child and the two pipes to it, and the worker's use of them
    in queue.c.  The kernel is the descriptors and the children this process
    has; the theorems say that no path through a spawn, a statement, a kill or
    a close leaks either, that the handshake passes over the startup noise,
    and that the turns of Queue.v are the ones these calls give rise to. *)
From S2P Require Import Prelude CText Rows Wire Provision Launch Queue.
Import Wire Provision Queue.
Local Open Scope Z_scope.

Module Proc.

Definition DB_READY : cstr := $"<<READY>>".
Definition DB_PIPE_DEFAULT_TIMEOUT_MS : Z := 2000.
Definition DB_HANDSHAKE_MAX : nat := 256.
Definition LINE_BUF : nat := Z.to_nat 512.

Record db_opts_t := mkOpts { dir : cstr; jar : cstr; java : cstr; opt_timeout : Z }.

(** [sent]: the bytes written to the child, for the theorems. *)
Record db_proc_t := mkProc { pid : Z; in_fd : Z; out_fd : Z; out : db_wire_t; timeout_ms : Z; sent : cstr }.

Record kernel := mkKernel { k_fds : gset Z; k_kids : gset Z }.

#[export] Instance kernel_eq_dec : EqDecision kernel.
Proof. solve_decision. Defined.

Definition close (fd : Z) (k : kernel) : kernel := mkKernel (k_fds k ∖ {[fd]}) (k_kids k).
Definition piped (f : Z * Z) (k : kernel) : kernel := mkKernel (k_fds k ∪ {[fst f; snd f]}) (k_kids k).
Definition forked (c : Z) (k : kernel) : kernel := mkKernel (k_fds k) (k_kids k ∪ {[c]}).
(** [waitpid] until the child is gone, behind [SIGKILL] or its end. *)
Definition reap (c : Z) (k : kernel) : kernel := mkKernel (k_fds k) (k_kids k ∖ {[c]}).

(** ** db_proc_kill *)

Definition db_proc_kill (p : db_proc_t) (k : kernel) : db_proc_t * kernel :=
  if pid p <? 0 then (p, k)
  else
    let k := reap (pid p) k in
    let k := if 0 <=? in_fd p then close (in_fd p) k else k in
    let k := if 0 <=? out_fd p then close (out_fd p) k else k in
    (mkProc (-1) (-1) (-1) (out p) (timeout_ms p) (sent p), k).

(** ** db_proc_spawn *)

(** What it meets: the jar is readable, "java -version" exits with 0, the two
    [pipe]s, [fork], and what the child will be heard to say. *)
Record birth := mkBirth { b_readable : bool; b_runs : bool; b_to : option (Z * Z); b_from : option (Z * Z); b_fork : option Z; b_script : list wire_read }.

Definition db_jvm_check (java jar : cstr) (readable runs : bool) : bool :=
  match jar with [] => false | _ => readable end && match java with [] => false | _ => runs end.

(** What the child executes. *)
Definition child_argv (o : db_opts_t) : list cstr :=
  [java o; $"-cp"; trunc PATH_BUF (jar o); $"simpledb.PipeRunner"; db_catalog_path PATH_BUF (Some (dir o))].

Fixpoint handshake (fuel : nat) (w : db_wire_t) : bool * db_wire_t :=
  match fuel with
  | O => (false, w)
  | S f =>
    match db_wire_line w LINE_BUF with
    | (DB_WIRE_LINE line, w) => if Rows.starts_with DB_READY line then (true, w) else handshake f w
    | (_, w) => (false, w)
    end
  end.

Definition db_proc_spawn (o : db_opts_t) (b : birth) (k : kernel) : bool * db_proc_t * kernel :=
  let t := if 0 <? opt_timeout o then opt_timeout o else DB_PIPE_DEFAULT_TIMEOUT_MS in
  let none := mkProc (-1) (-1) (-1) (mkWire [] []) t [] in
  match dir o with
  | [] => (false, none, k)
  | _ =>
    if negb (db_jvm_check (java o) (jar o) (b_readable b) (b_runs b)) then (false, none, k)
    else match b_to b with
    | None => (false, none, k)
    | Some to_child =>
      let k := piped to_child k in
      match b_from b with
      | None => (false, none, close (snd to_child) (close (fst to_child) k))
      | Some from_child =>
        let k := piped from_child k in
        match b_fork b with
        | None => (false, none, close (snd from_child) (close (fst from_child) (close (snd to_child) (close (fst to_child) k))))
        | Some c =>
          let k := close (snd from_child) (close (fst to_child) (forked c k)) in
          let '(ready, w) := handshake DB_HANDSHAKE_MAX (mkWire [] (b_script b)) in
          let p := mkProc c (snd to_child) (fst from_child) w t [] in
          if ready then (true, p, k) else let '(p, k) := db_proc_kill p k in (false, p, k)
        end
      end
    end
  end.

(** ** db_proc_exec *)

(** [wrote], [ended]: the two writes succeed.  The code and the body. *)
Definition db_proc_exec (wrote ended : bool) (sql : cstr) (cap : option nat) (p : db_proc_t) : Z * cstr * db_proc_t :=
  if negb (wrote && ended) then (-1, [], p)
  else
    let '(st, body, w) := db_wire_response (out p) cap in
    (match st with DB_OK => 1 | DB_IO | DB_TIMEOUT => -1 | _ => 0 end, body,
     mkProc (pid p) (in_fd p) (out_fd p) w (timeout_ms p) (sent p ++ sql ++ [LF])).

(** ** db_proc_close *)

(** One turn of [reap_by]: did [waitpid] give the pid, was it interrupted, and
    the clock. *)
Record glance := mkGlance { g_ended : bool; g_now : Z }.

(** [None]: still waiting after [fuel] turns.  An interrupted [waitpid] is a
    child that has not ended; a child that is not ours is [ECHILD]. *)
Fixpoint reap_by (fuel : nat) (c deadline : Z) (gs : nat -> glance) (n : nat) (k : kernel) : option kernel :=
  match fuel with
  | O => None
  | S f =>
    if negb (bool_decide (c ∈ k_kids k)) then Some k
    else if g_ended (gs n) then Some (reap c k)
    else if deadline <=? g_now (gs n) then Some (reap c k)
    else reap_by f c deadline gs (S n) k
  end.

Definition db_proc_close (fuel : nat) (now : Z) (gs : nat -> glance) (p : db_proc_t) (k : kernel) : option (db_proc_t * kernel) :=
  if pid p <? 0 then Some (p, k)
  else
    let k := if 0 <=? in_fd p then close (in_fd p) k else k in
    match reap_by fuel (pid p) (now + timeout_ms p) gs 0 k with
    | None => None
    | Some k =>
      let k := if 0 <=? out_fd p then close (out_fd p) k else k in
      Some (mkProc (-1) (-1) (-1) (out p) (timeout_ms p) (sent p), k)
    end.

(** ** The worker's turn, queue.c's [execute] *)

Definition result_of (code : Z) : exec_result := if code <? 0 then Gone else if code =? 0 then Rejected else Ran.

Record worker_state := mkWs { ws_db : db_t; ws_proc : db_proc_t; ws_kernel : kernel }.

(** One turn of the loop.  [b] is for the restart. *)
Definition turn (o : db_opts_t) (attempt : nat) (sql : cstr) (wrote ended : bool) (b : birth) (s : worker_state) : option fate * worker_state :=
  if q_dead (ws_db s) then (Some FDropped, mkWs (count_dropped (ws_db s)) (ws_proc s) (ws_kernel s))
  else
    let '(r, _, p) := db_proc_exec wrote ended sql (Some DB_BODY_MAX) (ws_proc s) in
    if 0 <=? r then
      (Some (if r =? 0 then FRejected else FRan), mkWs (if r =? 0 then count_error (ws_db s) else ws_db s) p (ws_kernel s))
    else
      let '(p, k) := db_proc_kill p (ws_kernel s) in
      if (attempt =? DB_RESPAWN_MAX)%nat then (Some FDropped, mkWs (count_dropped (set_dead (ws_db s))) p k)
      else
        let '(ok, p, k) := db_proc_spawn o b k in
        if ok then (None, mkWs (ws_db s) p k) else (Some FDropped, mkWs (count_dropped (set_dead (ws_db s))) p k).

(** ** Nothing leaks *)

(** Two descriptors the process did not have. *)
Definition new_pair (f : Z * Z) (fds : gset Z) : Prop := 0 <= fst f /\ 0 <= snd f /\ fst f <> snd f /\ fst f ∉ fds /\ snd f ∉ fds.

(** What the kernel promises of a birth. *)
Record born (b : birth) (k : kernel) : Prop := mkBorn {
  born_to f : b_to b = Some f -> new_pair f (k_fds k);
  born_from f g : b_to b = Some f -> b_from b = Some g -> new_pair g (k_fds k ∪ {[fst f; snd f]});
  born_fork c : b_fork b = Some c -> 0 < c /\ c ∉ k_kids k }.

(** The process has what it had at [base], and the child's pipes and pid when
    [p] is running. *)
Definition owned (base : kernel) (p : db_proc_t) (k : kernel) : Prop :=
  (pid p < 0 /\ k = base) \/
  (0 <= pid p /\ new_pair (in_fd p, out_fd p) (k_fds base) /\ pid p ∉ k_kids base /\
   k = mkKernel (k_fds base ∪ {[in_fd p; out_fd p]}) (k_kids base ∪ {[pid p]})).

Lemma kernel_eq a b : k_fds a = k_fds b -> k_kids a = k_kids b -> a = b.
Proof. destruct a, b. cbn. by intros -> ->. Qed.

(** An equation between kernels, down to sets of numbers. *)
Ltac kernels := unfold new_pair in *; cbn in *; deconj; apply kernel_eq; cbn; apply set_eq; intros ?; set_solver.

Lemma kill_gives_back base p k : owned base p k -> exists q, db_proc_kill p k = (q, base) /\ pid q < 0.
Proof.
  unfold db_proc_kill. intros [[Hp ->]|(Hp & Hn & Hk & ->)]; [rewrite (proj2 (Z.ltb_lt _ _)) by done; by exists p|].
  rewrite (proj2 (Z.ltb_ge _ _)) by done. pose proof Hn as (Hi & Ho & _). cbn in Hi, Ho. rewrite (proj2 (Z.leb_le 0 (in_fd p))), (proj2 (Z.leb_le 0 (out_fd p))) by done.
  eexists. split; [f_equal|done]. kernels.
Qed.

Lemma spawn_owned o b base : born b base -> let '(ok, p, k) := db_proc_spawn o b base in owned base p k /\ (ok = true <-> 0 <= pid p).
Proof.
  intros [HT HF HK]. unfold db_proc_spawn. set (t := if 0 <? opt_timeout o then _ else _).
  assert (H0 : forall k, k = base -> owned base (mkProc (-1) (-1) (-1) (mkWire [] []) t []) k /\ (false = true <-> 0 <= -1)) by (intros ? ->; split; [by left|lia]).
  destruct (dir o); [by apply H0|]. destruct (negb _); [by apply H0|]. destruct (b_to b) as [f|]; [|by apply H0]. specialize (HT _ eq_refl).
  destruct (b_from b) as [g|]; [|apply H0; kernels]. specialize (HF _ _ eq_refl eq_refl).
  destruct (b_fork b) as [c|]; [|apply H0; kernels]. destruct (HK _ eq_refl) as [Hc Hk].
  destruct (handshake _ _) as [ready w]. set (p := mkProc c _ _ _ _ _). set (k := close _ _).
  assert (HO : owned base p k).
  { right. split; [cbn; lia|]. split; [unfold new_pair in *; cbn in *; set_solver|]. split; [done|]. subst k. kernels. }
  destruct ready; [split; [done|split; [cbn; lia|done]]|]. destruct (kill_gives_back _ _ _ HO) as (q & -> & Hq). split; [by left|split; [done|lia]].
Qed.

Lemma reap_by_ends fuel c deadline gs n k : (forall m, g_now (gs m) + 2 <= g_now (gs (S m))) -> deadline <= g_now (gs n) + 2 * (Z.of_nat fuel - 1) -> (0 < fuel)%nat ->
  reap_by fuel c deadline gs n k = Some (reap c k).
Proof.
  intros Ht. revert n. induction fuel as [|f IH]; intros n Hd Hf; [lia|]. cbn [reap_by]. destruct (bool_decide (c ∈ k_kids k)) eqn:Ec; cbn [negb].
  - destruct (g_ended (gs n)); [done|]. destruct (Z.leb_spec deadline (g_now (gs n))); [done|]. destruct f; [lia|]. apply IH; [|lia]. specialize (Ht n). lia.
  - apply bool_decide_eq_false in Ec. f_equal. destruct k. unfold reap. cbn in *. f_equal. set_solver.
Qed.

(** A close is over once the clock passed the deadline, at 2 ms a turn, and
    gives everything back. *)
Lemma close_gives_back fuel now gs base p k : owned base p k -> (forall m, g_now (gs m) + 2 <= g_now (gs (S m))) -> now <= g_now (gs O) ->
  timeout_ms p <= 2 * (Z.of_nat fuel - 1) -> (0 < fuel)%nat -> exists q, db_proc_close fuel now gs p k = Some (q, base) /\ pid q < 0.
Proof.
  intros HO Ht H0 Hf Hf0. unfold db_proc_close. destruct HO as [[Hp ->]|(Hp & Hn & Hk & ->)]; [rewrite (proj2 (Z.ltb_lt _ _)) by done; by exists p|].
  rewrite (proj2 (Z.ltb_ge _ _)) by done. pose proof Hn as (Hi & Ho & _). cbn in Hi, Ho. rewrite (proj2 (Z.leb_le 0 (in_fd p))), (proj2 (Z.leb_le 0 (out_fd p))) by done.
  rewrite reap_by_ends by (done || lia). eexists. split; [do 2 f_equal|done]. kernels.
Qed.

Lemma exec_same_child wrote ended sql cap p r body q : db_proc_exec wrote ended sql cap p = (r, body, q) -> pid q = pid p /\ in_fd q = in_fd p /\ out_fd q = out_fd p /\ timeout_ms q = timeout_ms p.
Proof. unfold db_proc_exec. destruct (negb _); [by intros [= <- <- <-]|]. destruct (db_wire_response _ _) as [[st b] w]. by intros [= <- <- <-]. Qed.

Lemma owned_exec base wrote ended sql cap p r body q k : owned base p k -> db_proc_exec wrote ended sql cap p = (r, body, q) -> owned base q k.
Proof. intros HO (E1 & E2 & E3 & _)%exec_same_child. unfold owned. by rewrite E1, E2, E3. Qed.

(** A worker between two turns: the ledger balances, and the child is there
    unless it was given up. *)
Definition sound (base : kernel) (s : worker_state) : Prop :=
  owned base (ws_proc s) (ws_kernel s) /\ (q_dead (ws_db s) = false -> 0 <= pid (ws_proc s)).

Lemma turn_sound o attempt sql wrote ended b base s : born b base -> sound base s -> sound base (snd (turn o attempt sql wrote ended b s)).
Proof.
  intros Hb [HO Hd]. unfold turn. destruct (q_dead (ws_db s)) eqn:Ed; [split; [done|cbn; by rewrite Ed]|].
  destruct (db_proc_exec _ _ _ _ _) as [[r body] p] eqn:Ex. assert (HO' := owned_exec _ _ _ _ _ _ _ _ _ _ HO Ex). destruct (exec_same_child _ _ _ _ _ _ _ _ Ex) as [Ep _].
  destruct (0 <=? r); [split; [done|cbn; rewrite Ep; by intros; apply Hd]|]. destruct (kill_gives_back _ _ _ HO') as (q & -> & Hq).
  destruct (attempt =? DB_RESPAWN_MAX)%nat; [split; [by left|done]|]. assert (HS := spawn_owned o b base Hb).
  destruct (db_proc_spawn o b base) as [[ok p'] k']. destruct HS as [HS Hok]. destruct ok; (split; [done|cbn; try done]). intros _. by apply Hok.
Qed.

(** What the turn does to the queue is [Queue.execute_turn], at the result of
    the statement and of the restart. *)
Theorem turn_refines o attempt sql wrote ended b s :
  exists r spawned, execute_turn attempt r spawned (ws_db s) = (fst (turn o attempt sql wrote ended b s), ws_db (snd (turn o attempt sql wrote ended b s))) /\
    (q_dead (ws_db s) = false -> r = result_of (fst (fst (db_proc_exec wrote ended sql (Some DB_BODY_MAX) (ws_proc s))))).
Proof.
  unfold turn, execute_turn. destruct (q_dead (ws_db s)); [by exists Gone, false|]. destruct (db_proc_exec _ _ _ _ _) as [[r body] p]. cbn [fst]. unfold result_of.
  destruct (Z.leb_spec 0 r) as [Hr|Hr].
  - exists (if r =? 0 then Rejected else Ran), false. rewrite (proj2 (Z.ltb_ge r 0)) by done. by destruct (r =? 0).
  - rewrite (proj2 (Z.ltb_lt r 0)) by done. destruct (db_proc_kill p (ws_kernel s)) as [q k]. destruct (attempt =? DB_RESPAWN_MAX)%nat; [by exists Gone, false|].
    destruct (db_proc_spawn o b k) as [[ok p'] k']. exists Gone, ok. by destruct ok.
Qed.

(** A worker's life: any turns, then [db_stop]'s close. *)
Record request := mkRequest { rq_attempt : nat; rq_sql : cstr; rq_wrote : bool; rq_ended : bool; rq_birth : birth }.
Definition life (o : db_opts_t) (rs : list request) (s : worker_state) : worker_state :=
  foldl (fun s r => snd (turn o (rq_attempt r) (rq_sql r) (rq_wrote r) (rq_ended r) (rq_birth r) s)) s rs.

Lemma life_sound o rs base s : Forall (fun r => born (rq_birth r) base) rs -> sound base s -> sound base (life o rs s).
Proof. intros HF. revert s. induction HF as [|r rs Hr _ IH]; intros s Hs; [done|]. cbn. by apply IH, turn_sound. Qed.

(** However often the child died and was restarted, or could not be, the
    process ends with the descriptors and the children it began with. *)
Theorem nothing_leaks o b base ok p k db rs fuel now gs : born b base -> db_proc_spawn o b base = (ok, p, k) -> ok = true -> 
  Forall (fun r => born (rq_birth r) base) rs ->
  (forall m, g_now (gs m) + 2 <= g_now (gs (S m))) -> now <= g_now (gs O) ->
  timeout_ms (ws_proc (life o rs (mkWs db p k))) <= 2 * (Z.of_nat fuel - 1) -> (0 < fuel)%nat ->
  exists q, db_proc_close fuel now gs (ws_proc (life o rs (mkWs db p k))) (ws_kernel (life o rs (mkWs db p k))) = Some (q, base) /\ pid q < 0.
Proof.
  intros Hb Hs -> HF Ht H0 Hf Hf0. assert (HS := spawn_owned o b base Hb). rewrite Hs in HS. destruct HS as [HO Hp].
  assert (HL : sound base (life o rs (mkWs db p k))) by (apply life_sound; [done|]; split; [done|]; intros _; by apply Hp).
  apply close_gives_back; try done. apply HL.
Qed.

(** ** What is said over the pipes *)

Lemma handshake_spec fuel w noise tail rest : Forall (Rows.no_char LF) noise -> Forall (fun l => Rows.starts_with DB_READY (take (LINE_BUF - 1) l) = false) noise ->
  Rows.no_char LF tail -> pending w = frame_lines noise ++ (DB_READY ++ tail) ++ LF :: rest -> (length noise < fuel)%nat ->
  exists w', handshake fuel w = (true, w') /\ pending w' = rest.
Proof.
  intros HN. revert fuel w. induction HN as [|l noise Hl HN IH]; intros fuel w HR HT Hp Hf; (destruct fuel as [|f]; [cbn in Hf; lia|]); cbn [handshake].
  - destruct (db_wire_line_spec w LINE_BUF (DB_READY ++ tail) rest) as (w' & -> & Hp' & _); [unfold LINE_BUF; lia| |done|].
    { apply Rows.no_char_app. split; [|done]. repeat constructor; done. }
    exists w'. split; [|done]. replace (Rows.starts_with DB_READY _) with true; [done|]. reflexivity.
  - inversion HR as [|? ? Hl' HR']; subst. unfold frame_lines in Hp. cbn [map concat] in Hp. rewrite <-!app_assoc in Hp. cbn [app] in Hp.
    destruct (db_wire_line_spec w LINE_BUF l (frame_lines noise ++ (DB_READY ++ tail) ++ LF :: rest)) as (w' & -> & Hp' & _); [unfold LINE_BUF; lia|done| |].
    { rewrite Hp. unfold frame_lines. by rewrite <-!app_assoc. }
    rewrite Hl'. apply IH; try done. cbn in Hf. lia.
Qed.

(** A child that prints at most 255 lines before it is ready, cut into reads
    anyhow, is taken into service, with what it says next left to be read. *)
Theorem spawn_passes_noise o b base f g c noise tail rest : dir o <> [] -> db_jvm_check (java o) (jar o) (b_readable b) (b_runs b) = true ->
  b_to b = Some f -> b_from b = Some g -> b_fork b = Some c ->
  Forall (Rows.no_char LF) noise -> Forall (fun l => Rows.starts_with DB_READY (take (LINE_BUF - 1) l) = false) noise -> Rows.no_char LF tail ->
  fst (delivered (b_script b)) = frame_lines noise ++ (DB_READY ++ tail) ++ LF :: rest -> (length noise < DB_HANDSHAKE_MAX)%nat ->
  exists p k, db_proc_spawn o b base = (true, p, k) /\ pid p = c /\ pending (out p) = rest.
Proof.
  intros Hd Hj Ef Eg Ec HN HR HT Hp Hf. unfold db_proc_spawn. rewrite Hj, Ef, Eg, Ec. cbn [negb].
  destruct (handshake_spec DB_HANDSHAKE_MAX (mkWire [] (b_script b)) noise tail rest) as (w' & -> & Hw); try done. destruct (dir o); [done|]. by do 2 eexists.
Qed.

(** A statement is written with its line end, its reply read up to and with
    the marker, and the marker decides the code. *)
Theorem exec_reads_reply sql cap p ls marker rest : Forall (Rows.no_char LF) ls -> Forall (fun l => Rows.starts_with DB_MARK_END (clip l) = false) ls ->
  Rows.no_char LF marker -> Rows.starts_with DB_MARK_END (clip marker) = true -> pending (out p) = frame_lines ls ++ marker ++ LF :: rest ->
  exists q, db_proc_exec true true sql cap p = (if bool_decide (clip marker = DB_MARK_OK) then 1 else 0, wire_body cap ls, q) /\
    pending (out q) = rest /\ sent q = sent p ++ sql ++ [LF].
Proof.
  intros HL HE HM HB Hp. unfold db_proc_exec. cbn [andb negb]. unfold db_wire_response.
  destruct (response_loop_spec (S (length (w_buf (out p)) + script_bytes (w_script (out p)))) (out p) cap [] ls marker rest) as (w' & -> & Hw); try done; [lia|].
  eexists. split; [do 2 f_equal|done].
  unfold classify. destruct (streq (clip marker) DB_MARK_OK) eqn:E.
  - apply streq_true in E. by rewrite bool_decide_eq_true_2.
  - rewrite bool_decide_eq_false_2; [by destruct (streq (clip marker) DB_MARK_RETRY)|]. intros E'. rewrite E', streq_refl in E. done.
Qed.

(** A child that is ready after a line of noise, answers one statement and
    dies over the next; its replacement never gets ready, and the close finds
    nothing left. *)
Definition opts0 : db_opts_t := mkOpts ($"var/db_log") ($"s.jar") ($"java") 0.
Definition lines (ls : list cstr) : wire_read := RData (frame_lines ls).
Definition first_child : birth :=
  mkBirth true true (Some (4, 5)) (Some (6, 7)) (Some 100) [lines [$"Added table log"; $"<<READY>>"]; lines [$"1 row"; $"<<END ok>>"]; REof].
Definition second_child : birth := mkBirth true true (Some (4, 5)) (Some (6, 7)) (Some 101) [lines [$"Exception"]; REof].
Definition base0 : kernel := mkKernel {[ 0; 1; 2; 3 ]} {[ 50 ]}.

Example restart_fails : (let '(ok, p, k) := db_proc_spawn opts0 first_child base0 in
  let s := mkWs (mkDb [] 1 0 0 0 false false 0 0) p k in
  let '(f1, s1) := turn opts0 0 ($"insert 1;") true true second_child s in
  let '(f2, s2) := turn opts0 0 ($"insert 2;") true true second_child s1 in
  (ok, bool_decide (k = mkKernel {[ 0; 1; 2; 3; 5; 6 ]} {[ 50; 100 ]}), f1, f2, q_dead (ws_db s2), q_dropped (ws_db s2), bool_decide (ws_kernel s2 = base0))) =
  (true, true, Some FRan, Some FDropped, true, 1, true).
Proof. vm_compute. reflexivity. Qed.

Lemma base0_born : born first_child base0 /\ born second_child base0.
Proof. split; split; cbn; unfold new_pair; cbn; intros; simplify_eq/=; set_solver by lia. Qed.

Lemma nothing_leaks_witness : exists p k, db_proc_spawn opts0 first_child base0 = (true, p, k) /\
  exists q, db_proc_close 1001 0 (fun n => mkGlance false (2 * Z.of_nat n)) p k = Some (q, base0) /\ pid q < 0.
Proof.
  do 2 eexists. split; [reflexivity|].
  apply (nothing_leaks opts0 first_child base0 true _ _ (mkDb [] 1 0 0 0 false false 0 0) [] 1001 0); try done; try apply base0_born; [|lia].
  intros m. cbn [g_now]. lia.
Defined.

End Proc.
