(* ===== verification/Shell.v ===== *)
(** * The shell: tetrish/main.c, shell.c and lib/rc_parser.c

    The prompt reads a line, splits it into words, runs a builtin or hands the
    words to [fork] and [execvp]; at start the same is done with the command
    lines of .tetrishrc, whose other lines belong to the readers of Rc.v.  The
    shell's state is its environment, its directory, what it printed and which
    programs it ran; a program it runs changes nothing of that. *)
From S2P Require Import Prelude CText Provision Rc.
Local Open Scope Z_scope.

Module Shell.

Definition MAX_LINE : nat := Z.to_nat 1024.
Definition MAX_ARGS : nat := 64.

(** SHELL_DELIMS. *)
Definition is_delim (c : ascii) : bool := ceqb c " " || ceqb c TAB || ceqb c CR || ceqb c LF.

(** [strtok] over a line: its words. *)
Fixpoint words (s cur : cstr) : list cstr :=
  match s with
  | [] => match cur with [] => [] | _ => [cur] end
  | c :: s' => if is_delim c then match cur with [] => words s' [] | _ => cur :: words s' [] end else words s' (cur ++ [c])
  end.

(** ** lib/rc_parser.c *)

Inductive rc_line_type_t := RC_LINE_EMPTY | RC_LINE_PATH (value : cstr) | RC_LINE_DIRECTIVE (value : cstr) | RC_LINE_COMMAND (value : cstr).

(** From the first white space on. *)
Fixpoint from_space (s : cstr) : cstr := match s with c :: s' => if is_space c then s else from_space s' | [] => [] end.

Definition is_declare_var (p : cstr) : bool :=
  match Rc.cut "=" p with
  | (_, None) => false
  | (before, Some _) =>
    match from_space before with
    | [] => negb (bool_decide (before = []))
    | sp => bool_decide (skip_space sp = [])
    end
  end.

(** What stands behind [PATH] and an equals sign. *)
Definition path_value (p : cstr) : option cstr :=
  match p with
  | "P"%char :: "A"%char :: "T"%char :: "H"%char :: q => match skip_space q with "="%char :: v => Some (skip_space v) | _ => None end
  | _ => None
  end.

Definition classify_rc_line (line : cstr) : rc_line_type_t :=
  match skip_space line with
  | [] => RC_LINE_EMPTY
  | (c :: _) as p =>
    match path_value p with
    | Some v => RC_LINE_PATH v
    | None => if ceqb c "#" then RC_LINE_EMPTY else if is_declare_var p then RC_LINE_DIRECTIVE p else RC_LINE_COMMAND p
    end
  end.

(** ** The environment *)

Abbreviation environ := (list (cstr * cstr)).

Definition getenv (k : cstr) (e : environ) : option cstr := snd <$> head (filter (fun b => fst b = k) e).
(** The C library refuses an empty name and one with an equals sign. *)
Definition name_ok (k : cstr) : bool := negb (bool_decide (k = [])) && negb (bool_decide ("="%char ∈ k)).
Fixpoint put (k v : cstr) (e : environ) : environ :=
  match e with [] => [(k, v)] | b :: e' => if decide (fst b = k) then (k, v) :: e' else b :: put k v e' end.
Definition setenv (k v : cstr) (e : environ) : environ := if name_ok k then put k v e else e.
Definition unsetenv (k : cstr) (e : environ) : environ := if name_ok k then filter (fun b => fst b <> k) e else e.

(** ** shell.c *)

Record shell := mkShell { env : environ; cwd : cstr; said : cstr; ran : list (list cstr) }.

Definition say (t : cstr) (s : shell) : shell := mkShell (env s) (cwd s) (said s ++ t) (ran s).
Definition with_env (e : environ) (s : shell) : shell := mkShell e (cwd s) (said s) (ran s).

Inductive shell_status_t := SHELL_INVALID_CMD | SHELL_EXIT | SHELL_SUCCESS.

(** The rest of an over-long line: how much was dropped, and what follows. *)
Fixpoint drain_line (stdin : cstr) : nat * cstr :=
  match stdin with
  | [] => (0%nat, [])
  | c :: stdin' => if ceqb c LF then (0%nat, stdin') else let '(n, rest) := drain_line stdin' in (S n, rest)
  end.

(** [None] is SHELL_EOF; a line that is refused reads as a blank one. *)
Definition read_command (stdin : cstr) : option (list cstr * cstr) :=
  match stdin with
  | [] => None
  | _ =>
    let '(chunk, rest) := Provision.fgets (MAX_LINE - 1) stdin in
    let line := Rc.as_text chunk in
    let '(long, rest) :=
      if bool_decide (LF ∈ line) then (false, rest)
      else let '(n, rest) := drain_line rest in ((0 <? n)%nat, rest) in
    let ws := words line [] in
    Some (if long || (MAX_ARGS - 1 <? length ws)%nat then [] else ws, rest)
  end.

Definition builtin_commands : list cstr := [$"cd"; $"help"; $"exit"; $"usage"; $"env"; $"setenv"; $"unsetenv"].

Section Shell.
(** [chdir]: the new directory, from the old one and the target. *)
Variable chdir : cstr -> cstr -> option cstr.

Definition shell_cd (args : list cstr) (s : shell) : shell_status_t * shell :=
  (SHELL_SUCCESS,
   match (match args !! 1%nat with Some t => Some t | None => getenv ($"HOME") (env s) end) with
   | None => s
   | Some target => match chdir (cwd s) target with Some d => mkShell (env s) d (said s) (ran s) | None => s end
   end).

Definition shell_help (args : list cstr) (s : shell) : shell_status_t * shell :=
  (SHELL_SUCCESS, say ($"Tetrish - supported builtin commands:" ++ [LF] ++ concat (map (fun b => $"  " ++ b ++ [LF]) builtin_commands)
    ++ $"Type 'usage <command>' for a brief description of a command." ++ [LF]) s).

Definition shell_exit (args : list cstr) (s : shell) : shell_status_t * shell := (SHELL_EXIT, s).

Definition descriptions : list cstr :=
  [$"cd [dir]        : change the current directory (defaults to $HOME)"; $"help            : list all builtin commands";
   $"exit            : exit the shell"; $"usage [cmd]     : show usage of a builtin command, or of all of them";
   $"env             : list all environment variables"; $"setenv KEY=VALUE: set or modify an environment variable";
   $"unsetenv KEY    : remove an environment variable"].

Definition shell_usage (args : list cstr) (s : shell) : shell_status_t * shell :=
  (SHELL_SUCCESS,
   match args !! 1%nat with
   | None => say ($"Command not given. Type usage <command>." ++ [LF]) s
   | Some name =>
     match head (filter (fun bd => fst bd = name) (zip builtin_commands descriptions)) with
     | Some (_, d) => say ($"  " ++ d ++ [LF]) s
     | None => say ($"The command '" ++ name ++ $"' is not part of Tetrish's builtin commands." ++ [LF]) s
     end
   end).

Definition list_env (args : list cstr) (s : shell) : shell_status_t * shell :=
  (SHELL_SUCCESS, say (concat (map (fun b => fst b ++ $"=" ++ snd b ++ [LF]) (env s))) s).

Definition set_env_var (args : list cstr) (s : shell) : shell_status_t * shell :=
  (SHELL_SUCCESS,
   match args !! 1%nat with
   | None => s
   | Some kv => match Rc.cut "=" kv with (_, None) | ([], _) => s | (k, Some v) => with_env (setenv k v (env s)) s end
   end).

Definition unset_env_var (args : list cstr) (s : shell) : shell_status_t * shell :=
  (SHELL_SUCCESS, match args !! 1%nat with None => s | Some k => with_env (unsetenv k (env s)) s end).

Definition builtin_command_func : list (list cstr -> shell -> shell_status_t * shell) :=
  [shell_cd; shell_help; shell_exit; shell_usage; list_env; set_env_var; unset_env_var].

(** ** main.c *)

Definition run_builtin (cmd : list cstr) (s : shell) : shell_status_t * shell :=
  match head (filter (fun bf => Some (fst bf) = head cmd) (zip builtin_commands builtin_command_func)) with
  | Some (_, f) => f cmd s
  | None => (SHELL_INVALID_CMD, s)
  end.

(** [fork], [execvp] in the child, and the wait. *)
Definition run_system_program (cmd : list cstr) (s : shell) : shell := mkShell (env s) (cwd s) (said s) (ran s ++ [cmd]).

Definition run_command (cmd : list cstr) (s : shell) : shell_status_t * shell :=
  match run_builtin cmd s with
  | (SHELL_INVALID_CMD, s) => (SHELL_INVALID_CMD, run_system_program cmd s)
  | r => r
  end.

Definition execute_command_line (line : cstr) (s : shell) : shell :=
  match take (MAX_ARGS - 1) (words line []) with [] => s | args => snd (run_command args s) end.

(** [line[strcspn(line, "\r\n")] = 0]. *)
Definition chomp (chunk : cstr) : cstr := fst (Rc.cut CR (fst (Rc.cut LF (Rc.as_text chunk)))).

Definition rc_line (line : cstr) (s : shell) : shell :=
  match classify_rc_line line with
  | RC_LINE_EMPTY | RC_LINE_DIRECTIVE _ => s
  | RC_LINE_PATH v => with_env (setenv ($"PATH") v (env s)) s
  | RC_LINE_COMMAND c => execute_command_line c s
  end.

Fixpoint rc_loop (fuel : nat) (content : cstr) (s : shell) : shell :=
  match fuel, content with
  | O, _ | _, [] => s
  | S f, _ => let '(chunk, rest) := Provision.fgets (MAX_LINE - 1) content in rc_loop f rest (rc_line (chomp chunk) s)
  end.

(** [fopen]: the files. *)
Definition process_rc_file (fopen : cstr -> option cstr) (shell_dir : cstr) (s : shell) : shell :=
  match fopen (trunc Rc.PATH_MAX (shell_dir ++ $"/.tetrishrc")) with
  | None => s
  | Some content => rc_loop (length content) content s
  end.

Definition type_prompt (s : shell) : shell := say ($"$$ ") s.

(** The loop at the prompt; [None]: out of fuel. *)
Fixpoint repl (fuel : nat) (stdin : cstr) (s : shell) : option (cstr * shell) :=
  match fuel with
  | O => None
  | S f =>
    let s := type_prompt s in
    match read_command stdin with
    | None => Some (stdin, say [LF] s)
    | Some ([], rest) => repl f rest s
    | Some (cmd, rest) => match run_command cmd s with (SHELL_EXIT, s) => Some (rest, s) | (_, s) => repl f rest s end
    end
  end.

(** The exit code, what is left of the input, and the shell. *)
Definition main (fopen : cstr -> option cstr) (getcwd : option cstr) (stdin : cstr) (s : shell) : option (Z * cstr * shell) :=
  match getcwd with
  | None => Some (1, stdin, say ($"Failed to get current working directory." ++ [LF]) s)
  | Some dir =>
    let s := with_env (setenv ($"TETRISH_ROOT") dir (env s)) s in
    match repl (S (length stdin)) stdin (process_rc_file fopen dir s) with Some (rest, s) => Some (0, rest, s) | None => None end
  end.

(** ** Words *)

Definition word (w : cstr) : Prop := w <> [] /\ Forall (fun c => is_delim c = false) w.

Lemma words_are_words s cur : Forall (fun c => is_delim c = false) cur -> Forall word (words s cur).
Proof.
  revert cur. induction s as [|c s IH]; intros cur Hc; cbn [words].
  - destruct cur; [constructor|]. constructor; [by split|constructor].
  - destruct (is_delim c) eqn:E.
    + destruct cur as [|x cur]; [apply IH; constructor|]. constructor; [done|]. apply IH. constructor.
    + apply IH. apply Forall_app. by repeat constructor.
Qed.

Lemma words_word w rest cur : Forall (fun c => is_delim c = false) w -> words (w ++ rest) cur = words rest (cur ++ w).
Proof.
  intros Hw. revert cur. induction Hw as [|c w Hc _ IH]; intros cur; [by rewrite app_nil_r|]. cbn [app words]. rewrite Hc, IH, <-app_assoc. done.
Qed.

(** Words, each with a blank behind it. *)
Definition spaced (ws : list cstr) : cstr := concat (map (fun w => w ++ $" ") ws).

Lemma words_spaced ws rest : Forall word ws -> words (spaced ws ++ rest) [] = ws ++ words rest [].
Proof.
  induction 1 as [|w ws [Hn Hw] _ IH]; [done|]. unfold spaced. cbn [map concat]. rewrite <-!app_assoc, words_word by done. cbn [app]. fold (spaced ws).
  change (words ($" " ++ spaced ws ++ rest) w) with (match w with [] => words (spaced ws ++ rest) [] | _ => w :: words (spaced ws ++ rest) [] end).
  rewrite IH. by destruct w.
Qed.

(** ** Reading a line *)

Lemma fgets_shorter room s : (0 < room)%nat -> s <> [] -> (length (snd (Provision.fgets room s)) < length s)%nat.
Proof.
  intros Hr Hs. destruct s as [|c s]; [done|]. destruct room as [|r]; [lia|]. cbn [Provision.fgets]. destruct (ceqb c LF); [cbn; lia|].
  assert (H : forall r s, (length (snd (Provision.fgets r s)) <= length s)%nat).
  { clear. induction r as [|r IH]; intros [|c s]; cbn [Provision.fgets]; try done. destruct (ceqb c LF); [cbn; lia|]. specialize (IH s).
    destruct (Provision.fgets r s). cbn in *. lia. }
  specialize (H r s). destruct (Provision.fgets r s). cbn in *. lia.
Qed.

Lemma drain_shorter s : (length (snd (drain_line s)) <= length s)%nat.
Proof. induction s as [|c s IH]; [done|]. cbn [drain_line]. destruct (ceqb c LF); [cbn; lia|]. destruct (drain_line s). cbn in *. lia. Qed.

(** Every line read leaves less to read. *)
Lemma read_consumes stdin cmd rest : read_command stdin = Some (cmd, rest) -> (length rest < length stdin)%nat.
Proof.
  unfold read_command. intros H. destruct stdin as [|c s] eqn:Es; [done|]. rewrite <-Es in *.
  assert (HF := fgets_shorter (MAX_LINE - 1) stdin ltac:(unfold MAX_LINE; lia) ltac:(by subst)). destruct (Provision.fgets _ stdin) as [chunk r]. cbn in HF.
  destruct (bool_decide (LF ∈ Rc.as_text chunk)); [injection H as <- <-; done|]. assert (HD := drain_shorter r).
  destruct (drain_line r) as [n r2]. injection H as <- <-. cbn in HD. lia.
Qed.

(** What is run fits the argument vector, and has no separator in it. *)
Lemma read_bounds stdin cmd rest : read_command stdin = Some (cmd, rest) -> (length cmd < MAX_ARGS)%nat /\ Forall word cmd.
Proof.
  unfold read_command. intros H. destruct stdin as [|c s]; [done|]. destruct (Provision.fgets _ _) as [chunk r].
  destruct (if bool_decide (LF ∈ Rc.as_text chunk) then _ else _) as [long r2]. injection H as <- <-.
  destruct long; cbn [orb]; [split; [unfold MAX_ARGS; cbn; lia|constructor]|]. unfold MAX_ARGS. cbn [Nat.sub].
  destruct (Nat.ltb_spec 63 (length (words (Rc.as_text chunk) []))); [split; [cbn; lia|constructor]|]. split; [lia|]. by apply words_are_words.
Qed.

(** The prompt comes to an end on every input. *)
Theorem repl_ends fuel stdin s : (length stdin < fuel)%nat -> is_Some (repl fuel stdin s).
Proof.
  revert stdin s. induction fuel as [|f IH]; intros stdin s Hf; [lia|]. cbn [repl]. destruct (read_command stdin) as [[cmd rest]|] eqn:E; [|by eexists].
  apply read_consumes in E. destruct cmd as [|w ws]; [apply IH; lia|]. destruct (run_command (w :: ws) (type_prompt s)) as [[] s2]; [|by eexists|]; apply IH; lia.
Qed.

Theorem main_returns fopen getcwd stdin s : exists code rest s', main fopen getcwd stdin s = Some (code, rest, s').
Proof.
  unfold main. destruct getcwd as [dir|]; [|eauto]. set (s0 := process_rc_file _ _ _).
  destruct (repl_ends (S (length stdin)) stdin s0 ltac:(lia)) as [[rest s'] ->]. eauto.
Qed.

(** No byte that cuts a line short. *)
Definition text_char (c : ascii) : Prop := c <> LF /\ c <> "000"%char.

Lemma fgets_text room l rest : Forall text_char l -> (length l < room)%nat -> Provision.fgets room (l ++ LF :: rest) = (l ++ [LF], rest).
Proof. intros Hl. apply Provision.fgets_line. eapply Forall_impl; [exact Hl|]. by intros c [? _]. Qed.

Lemma as_text_id l : "000"%char ∉ l -> Rc.as_text l = l.
Proof. intros H. unfold Rc.as_text. by rewrite Rc.cut_missing. Qed.

Lemma text_no_nul l : Forall text_char l -> "000"%char ∉ l.
Proof. intros H Hn. rewrite Forall_forall in H. by destruct (H _ Hn). Qed.

(** A line of at most 63 words that fits the buffer is read as its words, and
    exactly the line is taken from the input. *)
Theorem line_is_read ws rest : Forall word ws -> Forall (Forall text_char) ws -> (length ws < MAX_ARGS)%nat -> (length (spaced ws) < MAX_LINE - 1)%nat ->
  read_command (spaced ws ++ LF :: rest) = Some (ws, rest).
Proof.
  intros Hw Ht Hn Hl. assert (HT : Forall text_char (spaced ws)).
  { clear -Ht. induction Ht as [|w ws H _ IH]; [constructor|]. unfold spaced. cbn [map concat]. rewrite !Forall_app. split; [split; [done|by repeat constructor]|exact IH]. }
  unfold read_command. rewrite fgets_text by done. rewrite as_text_id.
  2: { intros [H|H%list_elem_of_singleton]%elem_of_app; [by apply text_no_nul in H|done]. }
  rewrite bool_decide_eq_true_2 by (apply elem_of_app; right; by left). rewrite words_spaced by done.
  change (words [LF] []) with (@nil cstr). rewrite app_nil_r. cbn [orb]. unfold MAX_ARGS in *. rewrite (proj2 (Nat.ltb_ge _ _)) by lia. by destruct (spaced ws).
Qed.

(** ** The environment *)

Lemma getenv_put k v j e : getenv j (put k v e) = if decide (j = k) then Some v else getenv j e.
Proof.
  unfold getenv. induction e as [|[x y] e IH]; cbn [put fst].
  - rewrite filter_cons. cbn [fst]. destruct (decide (k = j)) as [->|]; destruct (decide (j = _)); done.
  - destruct (decide (x = k)) as [->|Hx]; rewrite !filter_cons; cbn [fst]; [by destruct (decide (k = j)) as [->|], (decide (j = _))|].
    destruct (decide (x = j)) as [->|]; [destruct (decide (j = k)); done|]. exact IH.
Qed.

Lemma getenv_unset k j e : getenv j (filter (fun b => fst b <> k) e) = if decide (j = k) then None else getenv j e.
Proof.
  unfold getenv. rewrite filter_filter. destruct (decide (j = k)) as [->|Hn].
  - rewrite filter_none; [done|]. apply Forall_forall. by intros b _ [-> ?].
  - f_equal. f_equal. apply filter_iff. intros b _. split; [tauto|]. intros <-. done.
Qed.

(** "setenv KEY=VALUE" binds KEY to VALUE, whatever VALUE holds, and touches no
    other variable; "unsetenv KEY" takes it away. *)
Theorem environment_commands k v s : k <> [] -> "="%char ∉ k ->
  (forall j, getenv j (env (snd (set_env_var [$"setenv"; k ++ "="%char :: v] s))) = if decide (j = k) then Some v else getenv j (env s)) /\
  (forall j, getenv j (env (snd (unset_env_var [$"unsetenv"; k] s))) = if decide (j = k) then None else getenv j (env s)).
Proof.
  intros Hk Hq. assert (Hn : name_ok k = true) by (unfold name_ok; by rewrite !bool_decide_eq_false_2).
  split; intros j; cbn; [|unfold unsetenv; rewrite Hn; apply getenv_unset].
  rewrite Rc.cut_found by done. destruct k as [|c k]; [done|]. cbn. unfold setenv. rewrite Hn. apply getenv_put.
Qed.

(** ** Two readers of one file *)

Lemma cut_split c s a b : Rc.cut c s = (a, Some b) -> s = a ++ c :: b /\ c ∉ a.
Proof.
  revert a b. induction s as [|x s IH]; intros a b; cbn [Rc.cut]; [done|]. destruct (ceqb x c) eqn:E.
  - intros [= <- <-]. apply bool_decide_eq_true in E as ->. split; [done|set_solver].
  - destruct (Rc.cut c s) as [a' [b'|]] eqn:Ec; intros [= <- <-]. destruct (IH _ _ eq_refl) as [-> Hn]. split; [done|].
    apply bool_decide_eq_false in E. set_solver.
Qed.

Definition blank (s : cstr) : Prop := Forall (fun c => is_space c = true) s.
(** A key of one word. *)
Definition bare (k : cstr) : Prop := k <> [] /\ Forall (fun c => is_space c = false) k.

Lemma skip_space_split s : exists sp, blank sp /\ s = sp ++ skip_space s.
Proof.
  induction s as [|c s (sp & Hsp & E)]; [by exists []; split; [constructor|]|]. cbn [skip_space]. destruct (is_space c) eqn:Ec.
  - exists (c :: sp). split; [by constructor|]. cbn. by f_equal.
  - exists []. split; [constructor|done].
Qed.

Lemma skip_blank sp s : blank sp -> skip_space (sp ++ s) = skip_space s.
Proof. induction 1 as [|c sp Hc _ IH]; [done|]. cbn [app skip_space]. by rewrite Hc. Qed.

Lemma rstrip_split b : exists sp, blank sp /\ b = Rc.rstrip b ++ sp.
Proof.
  destruct (skip_space_split (reverse b)) as (sp & Hsp & E). exists (reverse sp). split; [by apply Forall_reverse|]. unfold Rc.rstrip.
  by rewrite <-reverse_app, <-E, reverse_involutive.
Qed.

Lemma rstrip_bare k sp : bare k -> blank sp -> Rc.rstrip (k ++ sp) = k.
Proof.
  intros [Hk Hs] Hb. unfold Rc.rstrip. rewrite reverse_app, skip_blank by (by apply Forall_reverse). destruct (reverse k) as [|c r] eqn:E.
  - destruct k; [done|]. by apply (f_equal length) in E; rewrite length_reverse in E.
  - assert (Hc : is_space c = false) by (apply Forall_reverse in Hs; rewrite E in Hs; by inversion Hs). cbn [skip_space]. rewrite Hc, <-E. apply reverse_involutive.
Qed.

Lemma from_space_word k s : Forall (fun c => is_space c = false) k -> from_space (k ++ s) = from_space s.
Proof. induction 1 as [|c k Hc _ IH]; [done|]. cbn [app from_space]. by rewrite Hc. Qed.

Lemma from_space_split s : exists k, Forall (fun c => is_space c = false) k /\ s = k ++ from_space s.
Proof.
  induction s as [|c s (k & Hk & E)]; [by exists []; split; [constructor|]|]. cbn [from_space]. destruct (is_space c) eqn:Ec.
  - exists []. split; [constructor|done].
  - exists (c :: k). split; [by constructor|]. cbn. by f_equal.
Qed.

Lemma blank_from sp : blank sp -> from_space sp = sp.
Proof. destruct 1 as [|c sp Hc]; [done|]. cbn. by rewrite Hc. Qed.

(** The declarations are the lines with one word before the equals sign. *)
Lemma declares_iff c p : is_space c = false ->
  is_declare_var (c :: p) = true <-> exists k sp v, bare k /\ blank sp /\ Rc.cut "=" (c :: p) = (k ++ sp, Some v).
Proof.
  intros Hc. unfold is_declare_var. destruct (Rc.cut "=" (c :: p)) as [before [v|]] eqn:E.
  2: { split; [done|]. by intros (? & ? & ? & _ & _ & ?). }
  assert (Hh : before <> [] -> exists b, before = c :: b).
  { intros Hne. destruct (cut_split _ _ _ _ E) as [Es _]. destruct before as [|x b]; [done|]. injection Es as -> _. by exists b. }
  split.
  - intros H. destruct (from_space_split before) as (k & Hk & Eb). destruct (from_space before) as [|x sp] eqn:Ef.
    + apply negb_true_iff, bool_decide_eq_false in H. exists k, [], v. rewrite app_nil_r in *. split; [split; [congruence|done]|]. split; [constructor|congruence].
    + apply bool_decide_eq_true in H. destruct (skip_space_split (x :: sp)) as (sp' & Hsp & Esp). rewrite H, app_nil_r in Esp. exists k, (x :: sp), v.
      split; [split; [|done]|split; [congruence|congruence]]. intros ->. destruct Hh as [b Hb]; [by rewrite Eb|]. rewrite Eb in Hb. injection Hb as -> _.
      rewrite <-Esp in Hsp. inversion Hsp. congruence.
  - intros (k & sp & v' & [Hk Hs] & Hb & [= -> <-]). rewrite from_space_word, blank_from by done. destruct sp as [|x sp].
    + rewrite app_nil_r. by rewrite bool_decide_eq_false_2.
    + apply bool_decide_eq_true_2. rewrite <-(app_nil_r (x :: sp)). by rewrite skip_blank.
Qed.

Lemma path_iff p : is_Some (path_value p) <-> exists sp v, blank sp /\ Rc.cut "=" p = ($"PATH" ++ sp, Some v).
Proof.
  split.
  - intros [w Hw]. assert (HP : exists q, p = $"PATH" ++ q /\ exists v, skip_space q = "="%char :: v).
    { unfold path_value in Hw. do 4 (destruct p as [|x p]; [done|]; repeat (destruct x as [[] [] [] [] [] [] [] []]; try done)).
      exists p. split; [done|]. destruct (skip_space p) as [|y v]; [done|]. exists v. by repeat (destruct y as [[] [] [] [] [] [] [] []]; try done). }
    destruct HP as (q & -> & v & Hq). destruct (skip_space_split q) as (sp & Hsp & E). rewrite Hq in E. exists sp, v. split; [done|]. subst q.
    rewrite app_assoc. apply Rc.cut_found. intros [H|H]%elem_of_app; [by repeat (apply elem_of_cons in H as [H|H]; [done|]); apply elem_of_nil in H|].
    unfold blank in Hsp. rewrite Forall_forall in Hsp. by specialize (Hsp _ H).
  - intros (sp & v & Hsp & E). destruct (cut_split _ _ _ _ E) as [-> _]. rewrite <-app_assoc. cbn. rewrite skip_blank by done. by eexists.
Qed.

Lemma line_value_iff key line c p before v : skip_space (fst (Rc.cut CR line)) = c :: p -> Rc.cut "=" (c :: p) = (before, Some v) -> c <> "#"%char ->
  is_Some (Rc.line_value key line) <-> Rc.rstrip before = key.
Proof.
  intros E Ec Hc. unfold Rc.line_value, Rc.lstrip. rewrite E, Ec. unfold ceqb. rewrite bool_decide_eq_false_2 by done.
  destruct (streq (Rc.rstrip before) key) eqn:Es.
  - apply streq_true in Es. split; [done|by eexists].
  - split; [by intros []|]. intros <-. by rewrite streq_refl in Es.
Qed.

Lemma space_free k : $"PATH" = k -> bare k.
Proof. intros <-. split; [done|]. by repeat constructor. Qed.

(** The shell and the configuration reader agree on every line of the file
    they share: what the shell takes for a search path or another reader's
    directive is an assignment to [rc_get], and what it runs or skips assigns
    no key of one word. *)
Theorem readers_agree line :
  match classify_rc_line (fst (Rc.cut CR line)) with
  | RC_LINE_PATH _ => is_Some (Rc.line_value ($"PATH") line)
  | RC_LINE_DIRECTIVE _ => exists key, bare key /\ key <> $"PATH" /\ is_Some (Rc.line_value key line)
  | RC_LINE_EMPTY | RC_LINE_COMMAND _ => forall key, bare key -> Rc.line_value key line = None
  end.
Proof.
  unfold classify_rc_line. destruct (skip_space (fst (Rc.cut CR line))) as [|c p] eqn:E.
  { intros key _. unfold Rc.line_value, Rc.lstrip. by rewrite E. }
  assert (Hc : is_space c = false).
  { clear -E. induction (fst (Rc.cut CR line)) as [|x s IH]; [done|]. cbn in E. destruct (is_space x) eqn:Ex; [auto|]. by injection E as -> _. }
  destruct (path_value (c :: p)) as [w|] eqn:Ep.
  { destruct (proj1 (path_iff (c :: p)) ltac:(by eexists)) as (sp & v & Hsp & Ec). eapply line_value_iff; eauto.
    - destruct (cut_split _ _ _ _ Ec) as [Es _]. by injection Es as -> _.
    - apply rstrip_bare; [by apply space_free|done]. }
  destruct (ceqb c "#") eqn:Eh.
  { intros key _. apply bool_decide_eq_true in Eh. subst c. unfold Rc.line_value, Rc.lstrip. rewrite E. by destruct (Rc.cut "=" ("#"%char :: p)) as [? []]. }
  apply bool_decide_eq_false in Eh. destruct (is_declare_var (c :: p)) eqn:Ed.
  - apply declares_iff in Ed as (k & sp & v & Hk & Hsp & Ec); [|done]. exists k. split; [done|]. split.
    + intros ->. assert (H : is_Some (path_value (c :: p))) by (apply path_iff; eauto). rewrite Ep in H. by destruct H.
    + eapply line_value_iff; eauto. by apply rstrip_bare.
  - intros key Hk. destruct (Rc.line_value key line) as [v|] eqn:Ev; [|done]. exfalso.
    destruct (Rc.cut "=" (c :: p)) as [before [w|]] eqn:Ec; [|unfold Rc.line_value, Rc.lstrip in Ev; by rewrite E, Ec in Ev].
    assert (Er : Rc.rstrip before = key) by (eapply line_value_iff; eauto). destruct (rstrip_split before) as (sp & Hsp & Eb). rewrite Er in Eb.
    assert (Hd : is_declare_var (c :: p) = true) by (apply declares_iff; [done|]; exists key, sp, w; by rewrite <-Eb). congruence.
Qed.

End Shell.

(** ** Runs *)

Definition anywhere (cwd target : cstr) : option cstr := Some target.
Definition fresh : shell := mkShell [($"HOME", $"/home/ann"); ($"PATH", $"/bin")] ($"/srv") [] [].
Definition startup : cstr := $"PATH = bin:/bin" ++ [LF] ++ $"db_dir = var/db" ++ [LF] ++ $"# note" ++ [LF] ++ $"setenv A=b=c" ++ [LF] ++ $"exit" ++ [LF].

(** A session: the file sets PATH and A, its "exit" does not end the shell,
    the directive is left alone, a program is run, and what follows "exit" is not read. *)
Example a_session :
  (fun r => (fst (fst r), snd (fst r), env (snd r), cwd (snd r), ran (snd r)))
    <$> main anywhere (fun _ => Some startup) (Some ($"/srv")) ($"tetrisd 	&" ++ [LF; LF] ++ $"cd" ++ [LF] ++ $"exit now" ++ [LF] ++ $"help" ++ [LF]) fresh =
  Some (0, $"help" ++ [LF], [($"HOME", $"/home/ann"); ($"PATH", $"bin:/bin"); ($"TETRISH_ROOT", $"/srv"); ($"A", $"b=c")], $"/home/ann", [[$"tetrisd"; $"&"]]).
Proof. vm_compute. reflexivity. Qed.

(** A directive longer than the shell's buffer, which [rc_get] reads whole, is
    read by the shell in two pieces, and the second is run as a command. *)
Definition long_directive : cstr := $"db_dir = " ++ replicate (Z.to_nat 1014) "x"%char ++ $"y --force".
Example long_directive_runs_its_tail :
  is_Some (Rc.line_value ($"db_dir") long_directive) /\ ran (process_rc_file anywhere (fun _ => Some long_directive) ($"/srv") fresh) = [[$"y"; $"--force"]].
Proof. split; [eexists; vm_compute; reflexivity|vm_compute; reflexivity]. Qed.

End Shell.
