(* ===== verification/Startup.v ===== *)
(** * Bringing ballotd up and down: ballotd/main.c and control_plane.c

    The options, from the configuration file and then the command line; the
    order of a start; the admin socket's file, which several daemons may contend for; and the two
    accepting threads, which a byte in the quit pipe ends.  What they do with
    a connection is in Ballotd.v. *)
From S2P Require Import Prelude CText Rc Provision.
Import Provision.
Local Open Scope Z_scope.

Module Startup.

(** ** Options *)

Definition DEFAULT_PORT : Z := 7676.
Definition DEFAULT_CERT : cstr := $"auth/server_signed.crt".
Definition DEFAULT_KEY : cstr := $"auth/private_key.pem".
Definition CTL_SOCK_DEFAULT : cstr := $"var/run/ballotd.ctl".
Definition DB_DEFAULT_DIR : cstr := $"var/db".
Definition DB_DEFAULT_IPC : cstr := $"var/run/tetrisdb.sock".
Definition DB_DEFAULT_TIMEOUT_MS : Z := 2000.
Definition DB_TIMEOUT_MIN_MS : Z := 100.
Definition DB_TIMEOUT_MAX_MS : Z := 60000.

Record ballotd_opts_t := mkOpts {
  port : Z; cert_path : cstr; key_path : cstr; ctl_path : cstr; db_dir : cstr; db_sock : cstr; db_timeout_ms : Z }.

(** The fields before the command line is read. *)
Definition configured (h : Rc.host) (rc : Rc.rc_state) : ballotd_opts_t * Rc.rc_state :=
  let '(_, p, rc) := Rc.rc_get_int h ($"ballotd_port") DEFAULT_PORT 1 65535 (Some DEFAULT_PORT) [] rc in
  let '(_, cert, rc) := Rc.rc_get h ($"ballotd_cert") (Some DEFAULT_CERT) (Some DEFAULT_CERT) Rc.PATH_MAX rc in
  let '(_, key, rc) := Rc.rc_get h ($"ballotd_key") (Some DEFAULT_KEY) (Some DEFAULT_KEY) Rc.PATH_MAX rc in
  let '(_, ctl, rc) := Rc.rc_get h ($"ballotd_ctl_ipc") (Some CTL_SOCK_DEFAULT) (Some CTL_SOCK_DEFAULT) Rc.PATH_MAX rc in
  let '(_, dir, rc) := Rc.rc_get h ($"db_dir") (Some DB_DEFAULT_DIR) (Some DB_DEFAULT_DIR) Rc.PATH_MAX rc in
  let '(_, sock, rc) := Rc.rc_get h ($"db_ipc") (Some DB_DEFAULT_IPC) (Some DB_DEFAULT_IPC) Rc.PATH_MAX rc in
  let '(_, t, rc) := Rc.rc_get_int h ($"db_timeout") DB_DEFAULT_TIMEOUT_MS DB_TIMEOUT_MIN_MS DB_TIMEOUT_MAX_MS (Some DB_DEFAULT_TIMEOUT_MS) [] rc in
  (mkOpts (default 0 p) (default [] cert) (default [] key) (default [] ctl) (default [] dir) (default [] sock) (default 0 t), rc).

(** [getopt]: what it gives one after the other.  [Bad] is a question mark. *)
Inductive gopt := Opt (c : ascii) (arg : option cstr) | Bad.

Section Getopt.

(** The option letters of a program, and whether each takes an argument. *)
Context (takes : ascii -> option bool).

(** The letters of one argument; an option's argument is the rest of it, or
    the next one. *)
Fixpoint cluster (cs : cstr) (rest : list cstr) : list gopt * list cstr :=
  match cs with
  | [] => ([], rest)
  | c :: cs' =>
    match takes c with
    | None => let '(os, rest) := cluster cs' rest in (Bad :: os, rest)
    | Some false => let '(os, rest) := cluster cs' rest in (Opt c None :: os, rest)
    | Some true =>
      match cs', rest with
      | _ :: _, _ => ([Opt c (Some cs')], rest)
      | [], a :: rest => ([Opt c (Some a)], rest)
      | [], [] => ([Bad], [])
      end
    end
  end.

(** The options, and the arguments that are none, which [getopt] moves to the
    end; "--" ends the options. *)
Fixpoint getopt (fuel : nat) (args : list cstr) : list gopt * list cstr :=
  match fuel, args with
  | O, _ | _, [] => ([], args)
  | S f, a :: rest =>
    match a with
    | "-"%char :: c :: cs' =>
      if bool_decide (a = $"--") then ([], rest)
      else let '(os, rest) := cluster (c :: cs') rest in let '(os', ns) := getopt f rest in (os ++ os', ns)
    | _ => let '(os, ns) := getopt f rest in (os, a :: ns)
    end
  end.

End Getopt.

Definition takes_arg (c : ascii) : option bool :=
  if bool_decide (c ∈ $"pcCdik") then Some true else if ceqb c "h" then Some false else None.

(** The body of the loop: the options, or the code [main] returns. *)
Definition take_option (g : gopt) (o : ballotd_opts_t) : ballotd_opts_t + Z :=
  let path a := trunc Rc.PATH_MAX a in
  match g with
  | Bad => inr 2
  | Opt c arg =>
    let a := default [] arg in
    if ceqb c "p" then
      let '(n, rest) := strtol a in
      if negb (bool_decide (rest = [])) || (n <=? 0) || (65536 <=? n) then inr 2
      else inl (mkOpts n (cert_path o) (key_path o) (ctl_path o) (db_dir o) (db_sock o) (db_timeout_ms o))
    else if ceqb c "c" then inl (mkOpts (port o) (path a) (key_path o) (ctl_path o) (db_dir o) (db_sock o) (db_timeout_ms o))
    else if ceqb c "k" then inl (mkOpts (port o) (cert_path o) (path a) (ctl_path o) (db_dir o) (db_sock o) (db_timeout_ms o))
    else if ceqb c "C" then inl (mkOpts (port o) (cert_path o) (key_path o) (path a) (db_dir o) (db_sock o) (db_timeout_ms o))
    else if ceqb c "d" then inl (mkOpts (port o) (cert_path o) (key_path o) (ctl_path o) (path a) (db_sock o) (db_timeout_ms o))
    else if ceqb c "i" then inl (mkOpts (port o) (cert_path o) (key_path o) (ctl_path o) (db_dir o) (path a) (db_timeout_ms o))
    else inr 0
  end.

Fixpoint take_options (gs : list gopt) (o : ballotd_opts_t) : ballotd_opts_t + Z :=
  match gs with [] => inl o | g :: gs' => match take_option g o with inl o => take_options gs' o | inr code => inr code end end.

(** [main] up to the pipes: the options, or the code it returns. *)
Definition parse_options (args : list cstr) (h : Rc.host) (rc : Rc.rc_state) : ballotd_opts_t + Z :=
  let '(gs, ns) := getopt takes_arg (length args) args in
  match take_options gs (fst (configured h rc)) with
  | inr code => inr code
  | inl o => match ns with [] => inl o | _ => inr 2 end
  end.

(** *** Options are in range *)

Definition opts_ok (o : ballotd_opts_t) : Prop :=
  1 <= port o <= 65535 /\ DB_TIMEOUT_MIN_MS <= db_timeout_ms o <= DB_TIMEOUT_MAX_MS /\
  Forall (fun p => length p < Rc.PATH_MAX)%nat [cert_path o; key_path o; ctl_path o; db_dir o; db_sock o].

Lemma rc_text_fits h key fallback out cap rc : (0 < cap)%nat -> (length out < cap)%nat -> 
  exists v, snd (fst (Rc.rc_get h key (Some fallback) (Some out) cap rc)) = Some v /\ (length v < cap)%nat.
Proof.
  intros Hc Ho. unfold Rc.rc_get. rewrite Rc.lookup_spec. destruct (Rc.content_ptr (Rc.snapshot h rc)) as [s|].
  2: { cbn. eexists. split; [done|]. by apply trunc_length. }
  destruct (bool_decide _); cbn; (eexists; split; [done|]); [by apply trunc_length|].
  unfold Rc.left_in. destruct (last (filter _ _)) as [v|] eqn:El; cbn; [|done].
  apply last_Some in El as [l El]. assert (Hv : v ∈ l ++ [v]) by (apply elem_of_app; right; by left). rewrite <-El in Hv.
  by apply list_elem_of_filter in Hv as [[_ ?] _].
Qed.

(** One reader after the other, keeping what its value satisfies. *)
Ltac read_int H := match goal with |- context [Rc.rc_get_int ?h ?k ?f ?lo ?hi (Some ?o) ?g ?rc] =>
  let v := fresh "v" in let E := fresh "E" in
  destruct (Rc.rc_int_range h k f lo hi o g rc) as (? & v & E & H); [by compute|by compute|by compute|];
  destruct (Rc.rc_get_int h k f lo hi (Some o) g rc) as [[? ?] ?]; cbn in E; injection E as -> -> end.
Ltac read_text H := match goal with |- context [Rc.rc_get ?h ?k (Some ?f) (Some ?o) ?cap ?rc] =>
  let v := fresh "v" in let E := fresh "E" in
  destruct (rc_text_fits h k f o cap rc) as (v & E & H); [unfold Rc.PATH_MAX; lia|unfold Rc.PATH_MAX; cbn; lia|];
  destruct (Rc.rc_get h k (Some f) (Some o) cap rc) as [[? ?] ?]; cbn in E; subst end.

Lemma configured_ok h rc : opts_ok (fst (configured h rc)).
Proof.
  unfold configured. read_int Hp. read_text H1. read_text H2. read_text H3. read_text H4. read_text H5. read_int Ht.
  split; [exact Hp|]. split; [exact Ht|]. repeat (apply Forall_cons; split; [assumption|]). apply Forall_nil_2.
Qed.

Lemma take_option_ok g o o' : opts_ok o -> take_option g o = inl o' -> opts_ok o'.
Proof.
  intros (Hp & Ht & HF) H. unfold opts_ok in *. rewrite !Forall_cons in *. assert (HC : forall a, (length (trunc Rc.PATH_MAX a) < Rc.PATH_MAX)%nat) by (intros; apply trunc_length; unfold Rc.PATH_MAX; lia).
  destruct g as [c arg|]; [|done]. cbn in H. destruct (ceqb c "p").
  { destruct (strtol (default [] arg)) as [n rest]. destruct (_ || _ || _) eqn:E; [done|]. injection H as <-. cbn.
    apply orb_false_iff in E as [[_ E1%Z.leb_gt]%orb_false_iff E2%Z.leb_gt]. split; [lia|]. done. }
  repeat (destruct (ceqb c _); [injection H as <-; cbn; deconj; split_and!; auto|]). done.
Qed.

(** Whatever the file and the command line say, the daemon starts with a port
    and a timeout in range and paths that fit, or not at all. *)
Theorem options_in_range args h rc o : parse_options args h rc = inl o -> opts_ok o.
Proof.
  unfold parse_options. destruct (getopt takes_arg (length args) args) as [gs ns]. assert (HO := configured_ok h rc). revert HO. generalize (fst (configured h rc)).
  intros o0 HO H. assert (HT : forall gs o0 o1, opts_ok o0 -> take_options gs o0 = inl o1 -> opts_ok o1).
  { clear. induction gs as [|g gs IH]; intros o0 o1 H0 H; cbn in H; [by simplify_eq|]. destruct (take_option g o0) as [o2|] eqn:E; [|done].
    eapply IH; [|exact H]. by eapply take_option_ok. }
  destruct (take_options gs o0) as [o1|] eqn:E; [|done]. destruct ns; [|done]. injection H as <-. by eapply HT.
Qed.

Definition no_file : Rc.host := Rc.mkHost None (fun _ => None).
Example options_read : parse_options [$"-p8000"; $"-C"; $"run/ctl"; $"-hd"] no_file Rc.rc_initial = inr 0 /\
  parse_options [$"-p"; $"70000"] no_file Rc.rc_initial = inr 2 /\ parse_options [$"file"; $"-p1"] no_file Rc.rc_initial = inr 2 /\
  parse_options [$"-dvar/x"; $"-p"; $"80"] no_file Rc.rc_initial = inl (mkOpts 80 DEFAULT_CERT DEFAULT_KEY CTL_SOCK_DEFAULT ($"var/x") DB_DEFAULT_IPC 2000).
Proof. by vm_compute. Qed.

(** ** The store's address *)

(** socket.c: the path and the timeout. *)
Definition db_socket_opts_load (h : Rc.host) (rc : Rc.rc_state) : cstr * Z * Rc.rc_state :=
  let '(_, sock, rc) := Rc.rc_get h ($"db_ipc") (Some DB_DEFAULT_IPC) (Some []) Rc.PATH_MAX rc in
  let '(_, t, rc) := Rc.rc_get_int h ($"db_timeout") DB_DEFAULT_TIMEOUT_MS 0 (DB_DEFAULT_TIMEOUT_MS * 10) (Some 0) [] rc in
  (default [] sock, default 0 t, rc).

(** [main] loads it and puts its own options in. *)
Definition db_opts (o : ballotd_opts_t) (h : Rc.host) (rc : Rc.rc_state) : cstr * Z * Rc.rc_state :=
  let '(_, _, rc) := db_socket_opts_load h rc in (trunc Rc.PATH_MAX (db_sock o), db_timeout_ms o, rc).

(** ** The order of a start *)

(** What the calls of [main] behind the options meet: all pipes made, both
    handlers installed, the admin socket open, the tables, [bb_create], the
    three threads. *)
Record booting := mkBooting {
  bo_pipes : bool; bo_signals : bool; bo_ctl : bool; bo_tables : list weather; bo_create : bool; bo_admin : bool; bo_listener : bool; bo_ctl_thread : bool }.

(** [None]: the threads run, and [main] waits for them. *)
Definition boot (bo : booting) (o : ballotd_opts_t) (fs : disk) : option Z * disk :=
  if negb (bo_pipes bo) then (Some 1, fs)
  else if negb (bo_signals bo) then (Some 1, fs)
  else if negb (bo_ctl bo) then (Some 1, fs)
  else match ensure_tables (Some (db_dir o)) ballotd_tables (bo_tables bo) fs with
       | (false, fs) => (Some 1, fs)
       | (true, fs) => (if bo_create bo && bo_admin bo && bo_listener bo && bo_ctl_thread bo then None else Some 1, fs)
       end.

(** A daemon that runs has its six tables declared and on disk, and nothing
    else that was there was changed. *)
Theorem running_daemon_has_its_tables bo o fs fs' : db_dir o <> [] -> (length (db_dir o) + 22 < PATH_BUF)%nat -> catalog_tidy (db_dir o) fs ->
  boot bo o fs = (None, fs') ->
  Forall (fun t => catalog_has true fs' (db_catalog_path PATH_BUF (Some (db_dir o))) (fst t) = true /\ is_Some (fs' !! key (heap_of (db_dir o) (fst t)))) ballotd_tables /\
  kept (db_dir o) fs fs'.
Proof.
  intros Hd Hl Ht H. unfold boot in H. do 3 (destruct (negb _); [done|]).
  destruct (ensure_tables (Some (db_dir o)) ballotd_tables (bo_tables bo) fs) as [[] fs1] eqn:E; [|done]. injection H as _ <-.
  destruct (provisioning_is_idempotent _ _ [] _ _ Hd Hl Ht E) as (H1 & H2 & _). done.
Qed.

(** ** The admin socket's file: ctl_open, and the end of ctl_thread

    Daemons on one path.  [Sock i] is the file daemon [i] bound. *)

Inductive entry := Missing | Other_file | Sock (i : nat).
#[export] Instance entry_eq_dec : EqDecision entry. Proof. solve_decision. Defined.

Inductive place :=
  | D_stat | D_probe | D_unlink | D_bind | D_listen      (** [ctl_open], before the call *)
  | D_serving                                            (** [ctl_thread] *)
  | D_leaving                                            (** the socket is closed, the file not yet removed *)
  | D_failed | D_gone.

Record doors := mkDoors { path : entry; daemons : list place }.

Definition move (i : nat) (p : place) (d : doors) : doors := mkDoors (path d) (<[i := p]> (daemons d)).
Definition set_path (e : entry) (d : doors) : doors := mkDoors e (daemons d).

(** Does a [connect] to the path succeed? *)
Definition answered (d : doors) : bool :=
  match path d with Sock j => match daemons d !! j with Some D_serving => true | _ => false end | _ => false end.

(** One call of [ctl_open] by daemon [i]; [refused]: the call fails for a
    reason of its own.  A name that is too long is [refused] at [D_stat]. *)
Definition open_step (i : nat) (refused : bool) (p : place) (d : doors) : option doors :=
  match p with
  | D_stat =>
    if refused then Some (move i D_failed d)
    else Some (move i (match path d with Missing => D_bind | Other_file => D_failed | Sock _ => D_probe end) d)
  | D_probe => Some (move i (if negb refused && answered d then D_failed else D_unlink) d)
  | D_unlink => Some (move i D_bind (if refused then d else set_path Missing d))
  | D_bind =>
    match refused, path d with
    | false, Missing => Some (move i D_listen (set_path (Sock i) d))
    | _, _ => Some (move i D_failed d)
    end
  | D_listen => if refused then Some (move i D_failed (set_path Missing d)) else Some (move i D_serving d)
  | _ => None
  end.

(** The loop ended: close, then unlink. *)
Definition leave_step (i : nat) (p : place) (d : doors) : option doors :=
  match p with
  | D_serving => Some (move i D_leaving d)
  | D_leaving => Some (move i D_gone (set_path Missing d))
  | _ => None
  end.

Inductive door_event := Launch | Open (i : nat) (refused : bool) | Leave (i : nat) | Dies (i : nat).

Definition door_step (e : door_event) (d : doors) : option doors :=
  match e with
  | Launch => Some (mkDoors (path d) (daemons d ++ [D_stat]))
  | Open i refused => match daemons d !! i with Some p => open_step i refused p d | None => None end
  | Leave i => match daemons d !! i with Some p => leave_step i p d | None => None end
  | Dies i => match daemons d !! i with Some _ => Some (move i D_gone d) | None => None end
  end.

Fixpoint door_run (es : list door_event) (d : doors) : option doors :=
  match es with [] => Some d | e :: es' => match door_step e d with Some d => door_run es' d | None => None end end.

(** From its first call to its last no other daemon is in [ctl_open], nor
    between its close and its unlink; and the probe can be made. *)
Definition busy (p : place) : bool := match p with D_probe | D_unlink | D_bind | D_listen | D_leaving => true | _ => false end.
Definition alone (e : door_event) (d : doors) : Prop :=
  match e with
  | Open i refused => (forall j p, j <> i -> daemons d !! j = Some p -> busy p = false) /\ (daemons d !! i = Some D_probe -> refused = false)
  | Leave i => forall j p, j <> i -> daemons d !! j = Some p -> busy p = false
  | _ => True
  end.
Fixpoint orderly (es : list door_event) (d : doors) : Prop :=
  match es with [] => True | e :: es' => alone e d /\ match door_step e d with Some d => orderly es' d | None => True end end.

(** What a daemon's place says of the path, when nobody interferes. *)
Definition owns (d : doors) (i : nat) (p : place) : Prop :=
  match p with
  | D_serving | D_listen | D_leaving => path d = Sock i
  | D_unlink | D_bind => forall j, daemons d !! j <> Some D_serving
  | _ => True
  end.
Definition door_ok (d : doors) : Prop := forall i p, daemons d !! i = Some p -> owns d i p.

Lemma lookup_move d i p j q : daemons (move i p d) !! j = Some q -> (i = j /\ p = q) \/ (i <> j /\ daemons d !! j = Some q).
Proof.
  cbn. intros H. destruct (decide (i = j)) as [->|Hn]; [|right; by rewrite list_lookup_insert_ne in H].
  left. assert (Hl := lookup_lt_Some _ _ _ H). rewrite length_insert in Hl. rewrite list_lookup_insert_eq in H by done. by simplify_eq.
Qed.

(** A daemon moves, maybe with the path: the others serve where they did, and
    none of them is busy. *)
Lemma door_move d i p e : door_ok d -> (forall j q, j <> i -> daemons d !! j = Some q -> busy q = false) ->
  (forall j, j <> i -> daemons d !! j = Some D_serving -> e = path d) -> owns (move i p (set_path e d)) i p -> door_ok (move i p (set_path e d)).
Proof.
  intros HD HB HS HO j q [[-> ->]|[Hn Hj]]%lookup_move; [done|]. assert (HQ := HD _ _ Hj). assert (Hb := HB _ _ (not_eq_sym Hn) Hj).
  destruct q; try done. cbn. rewrite (HS _ (not_eq_sym Hn) Hj). exact HQ.
Qed.

Lemma nobody_serves d i p : daemons d !! i = Some p -> p <> D_serving -> (forall j, j <> i -> daemons d !! j <> Some D_serving) ->
  forall e q, q <> D_serving -> forall j, daemons (move i q (set_path e d)) !! j <> Some D_serving.
Proof. intros Hp Hne Hs e q Hq j [[_ ->]|[Hn Hj]]%lookup_move; [done|]. by apply (Hs j (not_eq_sym Hn)). Qed.

Lemma unanswered d : door_ok d -> answered d = false -> forall j, daemons d !! j <> Some D_serving.
Proof. intros HD Ha j Hj. assert (E := HD _ _ Hj). cbn in E. unfold answered in Ha. by rewrite E, Hj in Ha. Qed.

Lemma door_step_ok e d d' : door_ok d -> alone e d -> door_step e d = Some d' -> door_ok d'.
Proof.
  intros HD HA H. assert (HM : forall i p, move i p d = move i p (set_path (path d) d)) by (by intros; destruct d). destruct e as [|i refused|i|i]; cbn in H.
  - injection H as <-. intros i p [Hi|[_ Hi]]%lookup_app_Some.
    + assert (HO := HD _ _ Hi). destruct p; try done; cbn in *; intros j [Hj|[_ Hj]]%lookup_app_Some;
        first [exact (HO j Hj)|by apply list_lookup_singleton_Some in Hj as [_ ?]].
    + by apply list_lookup_singleton_Some in Hi as [_ <-].
  - destruct HA as [HB HP]. destruct (daemons d !! i) as [p|] eqn:Hi; [|done]. assert (HO := HD _ _ Hi). destruct p; try done; cbn in H.
    + destruct refused; [injection H as <-; rewrite HM; by apply door_move|]. injection H as <-. rewrite HM. apply door_move; try done.
      destruct (path d) eqn:Ep; try done. cbn. refine (nobody_serves d i D_stat Hi _ _ Missing _ _); [done| |done]. intros j _ Hj. assert (E := HD _ _ Hj). cbn in E. congruence.
    + rewrite (HP eq_refl) in H. cbn in H. injection H as <-. rewrite HM. apply door_move; try done. destruct (answered d) eqn:Ea; [done|].
      cbn. refine (nobody_serves d i D_probe Hi _ _ Missing _ _); [done| |done]. intros j _. by apply unanswered.
    + injection H as <-. destruct refused; [rewrite HM|]; (apply door_move; [done|done|intros j _ Hj; by destruct (HO j)|]);
        cbn; (refine (nobody_serves d i D_unlink Hi _ _ Missing _ _); [done|intros j _; apply HO|done]).
    + destruct refused; [injection H as <-; rewrite HM; by apply door_move|]. destruct (path d) eqn:Ep; injection H as <-; try (rewrite HM; by apply door_move).
      apply door_move; try done. intros j _ Hj. by destruct (HO j).
    + cbn in HO. destruct refused; injection H as <-; [apply door_move; try done|rewrite HM; by apply door_move].
      intros j Hn Hj. assert (E := HD _ _ Hj). cbn in E. congruence.
  - destruct (daemons d !! i) as [p|] eqn:Hi; [|done]. assert (HO := HD _ _ Hi). destruct p; try done; cbn in H; injection H as <-.
    + rewrite HM. by apply door_move.
    + apply door_move; try done. intros j Hn Hj. assert (E := HD _ _ Hj). cbn in E, HO. congruence.
  - destruct (daemons d !! i) as [p|] eqn:Hi; [|done]. injection H as <-. intros j q [[-> <-]|[Hn Hj]]%lookup_move; [done|]. assert (HO := HD _ _ Hj).
    destruct q; try done; cbn in *; intros k Hk%lookup_move; destruct Hk as [[_ ?]|[_ Hk]]; try done; exact (HO k Hk).
Qed.

(** Daemons that open and close the admin socket one at a time never displace
    one another: a daemon that serves is the one at the path, so at most one
    serves. *)
Theorem one_front_door es e d : orderly es (mkDoors e []) -> door_run es (mkDoors e []) = Some d ->
  (forall i, daemons d !! i = Some D_serving -> path d = Sock i) /\
  (forall i j, daemons d !! i = Some D_serving -> daemons d !! j = Some D_serving -> i = j).
Proof.
  assert (HI : forall es d0, door_ok d0 -> orderly es d0 -> door_run es d0 = Some d -> door_ok d).
  { clear. induction es as [|e es IH]; intros d0 HD HO H; cbn in *; [by simplify_eq|]. destruct HO as [HA HO]. destruct (door_step e d0) as [d1|] eqn:E; [|done].
    eapply IH; [|exact HO|exact H]. by eapply door_step_ok. }
  intros HO H. assert (HD : door_ok d) by (eapply HI; [|exact HO|exact H]; intros i p; cbn; by rewrite lookup_nil).
  assert (HS : forall i, daemons d !! i = Some D_serving -> path d = Sock i) by (intros i; apply HD). split; [done|].
  intros i j Hi%HS Hj%HS. congruence.
Qed.

(** A file that is no socket is never touched, in any interleaving. *)
Theorem other_files_stay es d : door_run es (mkDoors Other_file []) = Some d ->
  path d = Other_file /\ forall i, daemons d !! i <> Some D_serving.
Proof.
  set (idle := fun d => path d = Other_file /\ Forall (fun p => p = D_stat \/ p = D_failed \/ p = D_gone) (daemons d)).
  assert (HI : forall es d0, idle d0 -> door_run es d0 = Some d -> idle d).
  { clear. intros es. induction es as [|e es IH]; intros d0 [HP HF] H; cbn in H; [by simplify_eq|]. destruct (door_step e d0) as [d1|] eqn:E; [|done].
    eapply IH; [|exact H]. destruct e as [|i refused|i|i]; cbn in E; [injection E as <-; split; [done|]; apply Forall_app; split; [done|]; constructor; [by left|constructor]| | |];
      (destruct (daemons d0 !! i) as [p|] eqn:Hi; [|done]); destruct (Forall_lookup_1 _ _ _ _ HF Hi) as [-> | [-> | ->]]; cbn in E; try done.
    - rewrite HP in E. destruct refused; injection E as <-; (split; [done|]); apply Forall_insert; auto.
    - injection E as <-. split; [done|]. apply Forall_insert; auto.
    - injection E as <-. split; [done|]. apply Forall_insert; auto.
    - injection E as <-. split; [done|]. apply Forall_insert; auto. }
  intros H. assert (H0 : idle (mkDoors Other_file [])) by (split; [done|apply Forall_nil_2]). destruct (HI _ _ H0 H) as [HP HF]. split; [done|]. intros i Hi.
  by destruct (Forall_lookup_1 _ _ _ _ HF Hi) as [? | [? | ?]].
Qed.

(** Without that order: two daemons that found the same stale file both end up
    serving, the first without a door; *)
Example two_daemons_serve : 
  door_run [Launch; Launch; Open 0 false; Open 1 false; Open 0 false; Open 1 false; Open 0 false; Open 0 false; Open 0 false; Open 1 false; Open 1 false; Open 1 false] (mkDoors (Sock 9) []) =
  Some (mkDoors (Sock 1) [D_serving; D_serving]).
Proof. reflexivity. Qed.

(** a daemon that leaves takes its successor's door down; *)
Example leaving_closes_the_next_door :
  door_run [Launch; Open 0 false; Open 0 false; Open 0 false; Leave 0; Launch; Open 1 false; Open 1 false; Open 1 false; Open 1 false; Open 1 false; Leave 0] (mkDoors Missing []) =
  Some (mkDoors Missing [D_gone; D_serving]).
Proof. reflexivity. Qed.

(** and one that cannot make the probe's socket removes a door that is served. *)
Example failed_probe_closes_the_door :
  door_run [Launch; Open 0 false; Open 0 false; Open 0 false; Launch; Open 1 false; Open 1 true; Open 1 false; Open 1 true] (mkDoors Missing []) =
  Some (mkDoors Missing [D_serving; D_failed]).
Proof. reflexivity. Qed.

(** ** The accepting threads

    [listener_thread] and [ctl_thread] wait on the quit pipe and on their
    listening socket; the byte in the quit pipe is never taken out. *)

Inductive polled := Interrupted | Poll_failed | Woken (connection : bool).
Inductive accepted := Accepted | Try_again | Accept_failed.

(** What one turn of a loop does; [quit]: there is a byte in the pipe. *)
Inductive turn_t := Stay | Serve | End_quit | End_error.
Definition loop_turn (quit : bool) (p : polled) (a : accepted) : turn_t :=
  match p with
  | Interrupted => Stay
  | Poll_failed => End_error
  | Woken connection =>
    if quit then End_quit
    else if negb connection then Stay
    else match a with Accepted => Serve | Try_again => Stay | Accept_failed => End_error end
  end.

(** [th_listener], [th_ctl]: running.  [th_served] counts the connections. *)
Record threads := mkThreads { th_quit : bool; th_listener : bool; th_ctl : bool; th_served : nat }.

Inductive thread_event :=
  | Signal                                                  (** [on_terminate] *)
  | Listen_failed                                           (** [make_listen_socket] fails: [request_stop] *)
  | Listener (p : polled) (a : accepted)
  | Ctl (p : polled) (a : accepted).

(** A byte into the quit pipe: [request_stop], [on_terminate]. *)
Definition request_stop (t : threads) : threads := mkThreads true (th_listener t) (th_ctl t) (th_served t).

(** One turn of [listener_thread]'s loop, and what follows its end. *)
Definition listener_thread (p : polled) (a : accepted) (t : threads) : option threads :=
  if negb (th_listener t) then None
  else match loop_turn (th_quit t) p a with
       | Stay => Some t
       | Serve => Some (mkThreads (th_quit t) true (th_ctl t) (S (th_served t)))
       | End_quit | End_error => Some (mkThreads (th_quit t) false (th_ctl t) (th_served t))
       end.

(** The same of [ctl_thread], which tells the daemon when it fails. *)
Definition ctl_thread (p : polled) (a : accepted) (t : threads) : option threads :=
  if negb (th_ctl t) then None
  else match loop_turn (th_quit t) p a with
       | Stay => Some t
       | Serve => Some (mkThreads (th_quit t) (th_listener t) true (S (th_served t)))
       | End_quit => Some (mkThreads (th_quit t) (th_listener t) false (th_served t))
       | End_error => Some (request_stop (mkThreads (th_quit t) (th_listener t) false (th_served t)))
       end.

Definition thread_step (e : thread_event) (t : threads) : option threads :=
  match e with
  | Signal => Some (request_stop t)
  | Listen_failed => if th_listener t then Some (request_stop (mkThreads (th_quit t) false (th_ctl t) (th_served t))) else None
  | Listener p a => listener_thread p a t
  | Ctl p a => ctl_thread p a t
  end.

Fixpoint thread_run (es : list thread_event) (t : threads) : option threads :=
  match es with [] => Some t | e :: es' => match thread_step e t with Some t => thread_run es' t | None => None end end.

Definition both : threads := mkThreads false true true 0.

Definition lost_listener (e : thread_event) : Prop := match e with Listener Poll_failed _ | Listener (Woken true) Accept_failed => True | _ => False end.

(** The daemon does not outlive its admin channel: once [ctl_thread] has
    returned, for whatever reason, the daemon has been told to stop; the same
    holds of the listener as long as neither its [poll] nor its [accept] fails. *)
Theorem channels_end_together es t : thread_run es both = Some t ->
  (th_ctl t = false -> th_quit t = true) /\ (Forall (fun e => ~ lost_listener e) es -> th_listener t = false -> th_quit t = true).
Proof.
  assert (HI : forall es t0 t, thread_run es t0 = Some t -> (th_ctl t0 = false -> th_quit t0 = true) ->
    (th_ctl t = false -> th_quit t = true) /\ (Forall (fun e => ~ lost_listener e) es -> (th_listener t0 = false -> th_quit t0 = true) -> th_listener t = false -> th_quit t = true)).
  { clear. induction es as [|e es IH]; intros t0 t H HC; cbn in H; [simplify_eq; auto|]. destruct (thread_step e t0) as [t1|] eqn:E; [|done].
    assert (H1 : (th_ctl t1 = false -> th_quit t1 = true) /\ (~ lost_listener e -> (th_listener t0 = false -> th_quit t0 = true) -> th_listener t1 = false -> th_quit t1 = true)).
    { destruct e as [| |p a|p a]; cbn in E; unfold request_stop, listener_thread, ctl_thread in E; destruct t0 as [q l c n]; cbn in *; [simplify_eq/=; intuition congruence|destruct l; simplify_eq/=; intuition congruence| |].
      - destruct l; [|done]. destruct p as [| |cn]; [simplify_eq/=; intuition congruence|simplify_eq/=; intuition congruence|]. destruct q; [simplify_eq/=; intuition congruence|]. cbn in E.
        destruct cn; [destruct a|]; cbn in E; simplify_eq/=; intuition congruence.
      - destruct c; [|done]. destruct p as [| |cn]; [simplify_eq/=; intuition congruence|simplify_eq/=; intuition congruence|]. destruct q; [simplify_eq/=; intuition congruence|]. cbn in E.
        destruct cn; [destruct a|]; cbn in E; simplify_eq/=; intuition congruence. }
    destruct H1 as [H1 H2]. destruct (IH _ _ H H1) as [H3 H4]. split; [done|]. intros [He HF]%Forall_cons HL. apply H4; auto. }
  intros H. destruct (HI _ _ _ H) as [H1 H2]; [done|]. split; [done|]. intros HF. by apply H2.
Qed.

(** Told to stop, each thread takes no other connection and ends the next time
    its [poll] returns. *)
Theorem quit_wins t : th_quit t = true ->
  (forall p a t', thread_step (Listener p a) t = Some t' -> th_served t' = th_served t) /\
  (forall p a t', thread_step (Ctl p a) t = Some t' -> th_served t' = th_served t) /\
  (forall c a, th_listener t = true -> thread_step (Listener (Woken c) a) t = Some (mkThreads true false (th_ctl t) (th_served t))) /\
  (forall c a, th_ctl t = true -> thread_step (Ctl (Woken c) a) t = Some (mkThreads true (th_listener t) false (th_served t))).
Proof.
  destruct t as [q l c n]. cbn. intros ->. split_and!.
  - intros p a t'. destruct l; [|done]. destruct p; cbn; intros E; by injection E as <-.
  - intros p a t'. destruct c; [|done]. destruct p; cbn; intros E; by injection E as <-.
  - by intros c' a ->.
  - by intros c' a ->.
Qed.

(** An [accept] of the listener that fails once, for want of a descriptor say,
    leaves a daemon that serves its administrator and no voter. *)
Example deaf_daemon : thread_run [Listener (Woken true) Accepted; Listener (Woken true) Accept_failed; Ctl (Woken true) Accepted] both = Some (mkThreads false false true 2).
Proof. reflexivity. Qed.

End Startup.
