(* ===== verification/Logstart.v ===== *)
(** * The log daemon's start and end: tetrislogd/logger.c and main.c

    Around the loop of Logd.v: the socket's file, the log file, the mirror, and
    the giving back of all of it.  Descriptors are a set, the socket's path is
    an [entry] as in Startup.v, the outcome of each call is an argument. *)
From S2P Require Import Prelude CText Rc Provision Startup Logmsg Logd.
Import Provision.
Local Open Scope Z_scope.

Module Logstart.

Definition LOGD_DB_TABLE : cstr := $"log".
Definition LOGD_DB_SCHEMA : cstr := $"id int, pid int, ts int, status string, msg string".

(** What this process has open, and what is at the socket's path; daemon [me]
    binds [Sock me]. *)
Record holdings := mkHoldings { fds : gset Z; at_path : Startup.entry }.
Definition open_fd (fd : Z) (h : holdings) : holdings := mkHoldings (fds h ∪ {[fd]}) (at_path h).
Definition close_fd (fd : Z) (h : holdings) : holdings := mkHoldings (fds h ∖ {[fd]}) (at_path h).
Definition leaves (e : Startup.entry) (h : holdings) : holdings := mkHoldings (fds h) e.

(** A new descriptor has a number that is not in use. *)
Definition new_fd (fd : option Z) (h : holdings) : option Z :=
  match fd with Some x => if decide (x ∈ fds h) then None else Some x | None => None end.

(** What [bind_to_socket] meets: [lstat] fails other than with ENOENT,
    [unlink] fails, [socket], [bind] fails. *)
Record binding := mkBinding { bi_lstat : bool; bi_unlink : bool; bi_socket : option Z; bi_bind : bool }.

Definition clear_path (b : binding) (h : holdings) : option holdings :=
  if bi_lstat b then None
  else match at_path h with
       | Startup.Missing => Some h
       | Startup.Other_file => None
       | Startup.Sock _ => if bi_unlink b then None else Some (leaves Startup.Missing h)
       end.

Definition bind_to_socket (me : nat) (b : binding) (path : cstr) (h : holdings) : option Z * holdings :=
  if (Logd.SUN_PATH <=? length path)%nat then (None, h)
  else match clear_path b h with
  | None => (None, h)
  | Some h =>
    match new_fd (bi_socket b) h with
    | None => (None, h)
    | Some fd => if bi_bind b then (None, h) else (Some fd, leaves (Startup.Sock me) (open_fd fd h))
    end
  end.

(** A FILE: the standard output, or a descriptor. *)
Inductive log_file := Stdout | Log_fd (fd : Z).

(** The path, and what [open] and [fdopen] ([true]: it fails) give. *)
Record opening := mkOpening { lo_path : cstr; lo_open : option Z; lo_fdopen : bool }.

Definition open_log_file (l : opening) (h : holdings) : option log_file * holdings :=
  if streq (lo_path l) ($"-") then (Some Stdout, h)
  else match new_fd (lo_open l) h with
       | None => (None, h)
       | Some fd => if lo_fdopen l then (None, h) else (Some (Log_fd fd), open_fd fd h)
       end.

Definition close_log_file (f : log_file) (h : holdings) : holdings := match f with Stdout => h | Log_fd fd => close_fd fd h end.

(** [sig_reopen] was set. *)
Definition reopen (s : log_file * holdings) (l : opening) : log_file * holdings :=
  match open_log_file l (snd s) with
  | (Some fresh, h) => (fresh, close_log_file (fst s) h)
  | (None, h) => (fst s, h)
  end.

(** The first id of the mirror, or [None] when it is off.  [started]: what
    [db_start] gave for the probe, [None] for NULL. *)
Definition open_db (we : weather) (started : option cstr) (o : Logd.logd_opts_t) (d : disk) : option Z * disk :=
  if Logd.db_enable o =? 0 then (None, d)
  else match db_ensure_table we (Some (Logd.db_dir o)) LOGD_DB_TABLE LOGD_DB_SCHEMA d with
       | (false, d) => (None, d)
       | (true, d) => (Logd.db_seed_id <$> started, d)
       end.

(** [logd_run]: the code and what is held afterwards.  [ran]: the loop of
    Logd.v succeeded, reopening the file as [ls] says.  [moved]: a reload gave
    the options another socket path, which is the one unlinked. *)
Definition logd_run (me : nat) (b : binding) (l : opening) (ls : list opening) (socket_path : cstr) (ran moved : bool) (h : holdings) : Z * holdings :=
  match bind_to_socket me b socket_path h with
  | (None, h) => (-1, h)
  | (Some fd, h) =>
    match open_log_file l h with
    | (None, h) => (-1, leaves Startup.Missing (close_fd fd h))
    | (Some f, h) =>
      let '(f, h) := foldl reopen (f, h) ls in
      let h := close_fd fd (close_log_file f h) in
      (if ran then 0 else -1, if moved then h else leaves Startup.Missing h)
    end
  end.

(** tetrislogd/main.c: [config], the four handlers, [logd_run]. *)
Definition main (configured installed : bool) (me : nat) (b : binding) (l : opening) (ls : list opening) (socket_path : cstr) (ran moved : bool) (h : holdings) : Z * holdings :=
  if negb configured then (1, h)
  else if negb installed then (1, h)
  else let '(rc, h) := logd_run me b l ls socket_path ran moved h in (if rc <? 0 then 1 else 0, h).

Lemma new_fd_fresh o h fd : new_fd o h = Some fd -> fd ∉ fds h.
Proof. unfold new_fd. destruct o as [x|]; [|done]. destruct (decide (x ∈ fds h)); [done|]. by intros [= <-]. Qed.

Lemma bind_holds me b path h : let '(r, h') := bind_to_socket me b path h in
  match r with
  | None => fds h' = fds h
  | Some fd => fds h' = fds h ∪ {[fd]} /\ fd ∉ fds h /\ at_path h' = Startup.Sock me
  end /\ (at_path h = Startup.Other_file -> r = None /\ h' = h).
Proof.
  unfold bind_to_socket, clear_path. destruct (_ <=? _)%nat; [done|]. destruct (bi_lstat b); [done|].
  destruct (at_path h) eqn:Ep; [|done|destruct (bi_unlink b); [done|]];
    (destruct (new_fd _ _) as [fd|] eqn:En; [apply new_fd_fresh in En; destruct (bi_bind b)|]; cbn; rewrite ?Ep; by repeat split).
Qed.

(** A log file that is open beside [base] and nothing else. *)
Definition logging (base : gset Z) (e : Startup.entry) (s : log_file * holdings) : Prop :=
  at_path (snd s) = e /\ match fst s with Stdout => fds (snd s) = base | Log_fd fd => fd ∉ base /\ fds (snd s) = base ∪ {[fd]} end.

Lemma open_logging l h r h' : open_log_file l h = (r, h') ->
  match r with None => h' = h | Some f => logging (fds h) (at_path h) (f, h') end.
Proof.
  unfold open_log_file. destruct (streq _ _); [by intros [= <- <-]|]. destruct (new_fd _ _) as [fd|] eqn:En; [|by intros [= <- <-]]. apply new_fd_fresh in En.
  destruct (lo_fdopen l); by intros [= <- <-].
Qed.

Lemma close_logging base e f h : logging base e (f, h) -> close_log_file f h = mkHoldings base e.
Proof. intros [Hp Hf]. cbn in *. destruct h as [F E]. cbn in *. subst. destruct f as [|fd]; cbn; [by subst|]. destruct Hf as [Hn ->]. unfold close_fd. cbn. f_equal. set_solver. Qed.

Lemma reopen_logging base e s l : logging base e s -> logging base e (reopen s l).
Proof.
  intros HL. unfold reopen. destruct (open_log_file l (snd s)) as [[f|] h] eqn:E; apply open_logging in E; [|subst; by destruct s].
  destruct s as [f0 h0], HL as [Hp Hf], E as [Hp' Hf']. cbn in *. destruct f0 as [|fd0]; cbn; [rewrite Hf in Hf'; split; [cbn; by rewrite Hp'|done]|].
  destruct Hf as [Hn Hf]. rewrite Hf in Hf'. split; [cbn; by rewrite Hp'|]. destruct f as [|fd]; cbn in *; [rewrite Hf'; set_solver|]. destruct Hf' as [Hn' ->]. set_solver.
Qed.

(** Whatever fails on the way, and however often the log file is reopened, the
    daemon ends with the descriptors it began with; a file at the path that is
    no socket is left alone and stops it; and unless a reload moved the socket
    the path of a run that reached its loop is clear again. *)
Theorem logd_gives_back me b l ls path ran moved h code h' : logd_run me b l ls path ran moved h = (code, h') ->
  fds h' = fds h /\ (at_path h = Startup.Other_file -> code = -1 /\ h' = h) /\ (code = 0 -> moved = false -> at_path h' = Startup.Missing).
Proof.
  intros H. unfold logd_run in H. assert (HB := bind_holds me b path h). destruct (bind_to_socket me b path h) as [r h1]. destruct HB as [HB HO].
  destruct r as [fd|]; [|injection H as <- <-; split; [done|]; split; [intros E; by destruct (HO E) as [_ ->]|done]].
  destruct HB as (Efd & Hn & Ep). assert (HX : at_path h <> Startup.Other_file) by (intros E; by destruct (HO E)).
  destruct (open_log_file l h1) as [[f|] h2] eqn:E; apply open_logging in E.
  - assert (HL : logging (fds h1) (at_path h1) (foldl reopen (f, h2) ls)).
    { clear -E. revert E. generalize (f, h2). induction ls as [|x ls IH]; intros s Hs; [done|]. cbn. by apply IH, reopen_logging. }
    destruct (foldl reopen (f, h2) ls) as [f3 h3]. rewrite (close_logging _ _ _ _ HL), Efd in H. injection H as <- <-.
    split; [destruct moved; cbn; set_solver|]. split; [done|]. by destruct moved.
  - subst h2. injection H as <- <-. split; [cbn; rewrite Efd; set_solver|done].
Qed.

(** Unlike [ctl_open] of Startup.v, [bind_to_socket] does not ask whether the
    socket it finds is served: a second daemon takes the path from the first. *)
Example second_logger_takes_the_socket :
  at_path (snd (bind_to_socket 2 (mkBinding false false (Some 3) false) ($"var/log.sock") (mkHoldings ∅ (Startup.Sock 1)))) = Startup.Sock 2.
Proof. reflexivity. Qed.

(** After a reload that changed log_ipc the old socket's file stays. *)
Example moved_socket_stays :
  at_path (snd (logd_run 1 (mkBinding false false (Some 3) false) (mkOpening ($"-") None false) [] ($"var/log.sock") true true (mkHoldings ∅ Startup.Missing))) = Startup.Sock 1.
Proof. reflexivity. Qed.

End Logstart.
