(* ===== verification/Dialog.v ===== *)
(** * Interactive programs

    ballotu and ballotctl talk to a terminal and to a daemon for as long as
    the user likes, so their screens are interaction trees over the events
    below.  A run is a finite piece of what a program does with the answers it
    got; [safe] says what holds of every run, with rules for each way of
    composing programs. *)
From Stdlib Require Import Eqdep.
From ITree Require Import ITree.
From S2P Require Import Prelude CText Types Rows Htttp Codec Client Transport.

Declare Scope dialog_scope.
Delimit Scope dialog_scope with dialog.

Module Dialog.
Import Codec Transport.

(** ** What a client does *)

(** What [wgetch] gives: a byte, or one of the keys the widgets know. *)
Inductive key := Byte (b : ascii) | KEY_DOWN | KEY_UP | KEY_LEFT | KEY_RIGHT | KEY_BACKSPACE | KEY_ENTER | OtherKey.

(** Lines of a window; [true] for those in reverse video. *)
Definition shown : Type := list (bool * cstr).
Definition plainly (lines : list cstr) : shown := map (pair false) lines.

Variant ev : Type -> Type :=
| Frame (title : cstr) : ev bool                 (** [newwin] gives a window *)
| Rows : ev Z                                    (** the rows of the terminal *)
| Draw (text : shown) : ev unit                  (** what the window shows *)
| Getch : ev key                                 (** [wgetch] *)
| Status (app actor state : cstr) : ev unit      (** [tetrisui_set_status] *)
| CtlPath (path : cstr) : ev unit                (** [bcl_set_ctl_path] *)
| Reach (path : cstr) : ev bool                  (** the control socket takes a connection *)
| Send (req : bcl_request_t) : ev (bb_result_t * bcl_response_t)   (** [bcl_send] *)
| Connect (host : cstr) (port : Z) (ca : cstr) : ev (bb_result_t * bcl_conn_t)   (** [bcl_connect_why] *)
| Auth (verb name pass : cstr) : ev (Z * Z)      (** [bcl_auth]: its value and [*status] *)
| Connected : ev bool                            (** [bcl_connected] *)
| Disconnect : ev unit                           (** [bcl_disconnect] *)
| Draws : ev (Z * Z).                            (** [time(NULL)] and [rand()] *)

Definition prog (R : Type) : Type := itree ev R.
Notation "'let!' x ':=' t 'in' k" := (ITree.bind t (fun x => k)) (at level 10, x pattern, t at level 100, k at level 200) : dialog_scope.
Notation "t ;! k" := (ITree.bind t (fun _ => k)) (at level 199, right associativity) : dialog_scope.
Definition ret {R} (r : R) : prog R := Ret r.
(** The events of the terminal. *)
Definition on_screen {T} (e : ev T) : bool := match e with Frame _ | Rows | Draw _ | Getch | Status _ _ _ => true | _ => false end.

Definition act_ {R} (e : ev R) : prog R := ITree.trigger e.

(** ** Runs *)

Inductive act : Type := Act (T : Type) (e : ev T) (answer : T).
Arguments Act {T} e answer.

(** [run n t tr o]: after [n] steps [t] has done [tr]; [o] is its result if
    it has returned. *)
Inductive run {R} : nat -> prog R -> list act -> option R -> Prop :=
| run_here t : run 0 t [] None
| run_ret t r : observe t = RetF r -> run 0 t [] (Some r)
| run_tau n t t' tr o : observe t = TauF t' -> run n t' tr o -> run (S n) t tr o
| run_vis n t T (e : ev T) k x tr o : observe t = VisF e k -> run n (k x) tr o -> run (S n) t (Act e x :: tr) o.

(** One step of a run of a program in head form. *)
Ltac run_inv H :=
  inversion H; clear H; subst;
  repeat match goal with
  | E : observe _ = _ |- _ => progress cbn in E
  | E : RetF _ = RetF _ |- _ => injection E as <-
  | E : TauF _ = TauF _ |- _ => injection E as <-
  | E : VisF _ _ = VisF _ _ |- _ => let He := fresh "He" in let Hk := fresh "Hk" in injection E as <- He Hk; apply inj_pair2 in He as <-; apply inj_pair2 in Hk as <-
  end; try discriminate.

Lemma observe_bind_ {A B} (t : prog A) (k : A -> prog B) :
  observe (ITree.bind t k) =
  match observe t with
  | RetF r => observe (k r)
  | TauF t' => TauF (ITree.bind t' k)
  | VisF e h => VisF e (fun x => ITree.bind (h x) k)
  end.
Proof.
  change (observe (ITree.bind t k)) with (observe (match observe t with RetF r => k r | TauF t' => Tau (ITree.bind t' k) | VisF e h => Vis e (fun x => ITree.bind (h x) k) end)).
  by destruct (observe t).
Qed.

Lemma run_bind {A B} n (t : prog A) (k : A -> prog B) tr o : run n (ITree.bind t k) tr o ->
  (run n t tr None /\ o = None) \/
  exists n1 n2 tr1 tr2 r, n = (n1 + n2)%nat /\ tr = tr1 ++ tr2 /\ run n1 t tr1 (Some r) /\ run n2 (k r) tr2 o.
Proof.
  remember (ITree.bind t k) as u eqn:Eu. intros H. revert t Eu.
  induction H as [u|u b Hu|n u u' tr o Hu H IH|n u T e h x tr o Hu H IH]; intros t ->.
  - left. split; [constructor|done].
  - right. rewrite observe_bind_ in Hu. destruct (observe t) as [a|t'|? e h] eqn:Et; [|done|done].
    exists 0%nat, 0%nat, [], [], a. repeat split; by constructor.
  - rewrite observe_bind_ in Hu. destruct (observe t) as [a|t'|? e h] eqn:Et; [|injection Hu as Hu|done].
    + right. exists 0%nat, (S n), [], tr, a. repeat split; [by constructor|by econstructor].
    + subst u'. destruct (IH t' eq_refl) as [[H1 ->]|(n1 & n2 & tr1 & tr2 & r & -> & -> & H1 & H2)].
      * left. split; [by econstructor|done].
      * right. exists (S n1), n2, tr1, tr2, r. repeat split; [by econstructor|done].
  - rewrite observe_bind_ in Hu. destruct (observe t) as [a|t'|? e' h'] eqn:Et; [|done|].
    + right. exists 0%nat, (S n), [], (Act e x :: tr), a. repeat split; [by constructor|by econstructor].
    + injection Hu as -> He Hh. apply inj_pair2 in He as ->. apply inj_pair2 in Hh as <-.
      destruct (IH (h' x) eq_refl) as [[H1 ->]|(n1 & n2 & tr1 & tr2 & r & -> & -> & H1 & H2)].
      * left. split; [by econstructor|done].
      * right. exists (S n1), n2, (Act e x :: tr1), tr2, r. repeat split; [by econstructor|done].
Qed.

Lemma run_iter {I R} n (body : I -> prog (I + R)) i tr o : run n (ITree.iter body i) tr o ->
  (run n (body i) tr None /\ o = None) \/
  exists n1 n2 tr1 tr2 lr, n = (n1 + n2)%nat /\ tr = tr1 ++ tr2 /\ run n1 (body i) tr1 (Some lr) /\
    match lr with
    | inl i' => (exists n3, n2 = S n3 /\ run n3 (ITree.iter body i') tr2 o) \/ (tr2 = [] /\ o = None)
    | inr r => tr2 = [] /\ (o = None \/ o = Some r)
    end.
Proof.
  intros H. assert (H' : run n (ITree.bind (body i) (fun lr => ITree.on_left lr l (Tau (ITree.iter body l)))) tr o).
  { inversion H; subst; [apply run_here|by apply run_ret|eapply run_tau; eauto|eapply run_vis; eauto]. }
  apply run_bind in H' as [?|(n1 & n2 & tr1 & tr2 & lr & -> & -> & H1 & H2)]; [by left|]. right. exists n1, n2, tr1, tr2, lr. repeat split; [done|].
  destruct lr as [i'|r]; run_inv H2; eauto.
Qed.

(** ** Driving a program

    [answer] gives the answers, as long as it has any. *)
Section Drive.
Context {W : Type} (answer : forall T, ev T -> W -> option (T * W)).
Fixpoint drive {R} (fuel : nat) (t : prog R) (w : W) : nat * list act * option R * W :=
  match fuel with
  | O => (O, [], None, w)
  | S f =>
    match observe t with
    | RetF r => (O, [], Some r, w)
    | TauF t' => let '(n, tr, o, w') := drive f t' w in (S n, tr, o, w')
    | VisF e k =>
      match answer _ e w with
      | Some (x, w1) => let '(n, tr, o, w') := drive f (k x) w1 in (S n, Act e x :: tr, o, w')
      | None => (O, [], None, w)
      end
    end
  end.

Lemma drive_run {R} fuel (t : prog R) w : let '(n, tr, o, _) := drive fuel t w in run n t tr o.
Proof.
  revert t w. induction fuel as [|fuel IH]; intros t w; cbn [drive]; [constructor|]. destruct (observe t) as [r0|t'|T e k] eqn:Et.
  - by constructor.
  - specialize (IH t' w). destruct (drive fuel t' w) as [[[n tr] o] w']. by econstructor.
  - destruct (answer T e w) as [[x w1]|]; [|constructor]. specialize (IH (k x) w1). destruct (drive fuel (k x) w1) as [[[n tr] o] w']. by econstructor.
Qed.

(** The same, by projections. *)
Lemma drive_runs {R} fuel (t : prog R) w : let d := drive fuel t w in run (fst (fst (fst d))) t (snd (fst (fst d))) (snd (fst d)).
Proof. pose proof (drive_run fuel t w) as H. by destruct (drive fuel t w) as [[[n tr] o] w']. Qed.

(** What holds of every answer holds along the run. *)
Lemma drive_answers {R} (A : act -> Prop) (I : W -> Prop) fuel (t : prog R) w :
  (forall T e w x w', I w -> answer T e w = Some (x, w') -> A (Act e x) /\ I w') -> I w -> Forall A (snd (fst (fst (drive fuel t w)))).
Proof.
  intros HA. revert t w. induction fuel as [|fuel IH]; intros t w Hw; cbn [drive]; [constructor|]. destruct (observe t) as [r0|t'|T e k]; [constructor|..].
  - specialize (IH t' w Hw). by destruct (drive fuel t' w) as [[[n tr] o] w'].
  - destruct (answer T e w) as [[x w1]|] eqn:E; [|constructor]. destruct (HA _ _ _ _ _ Hw E) as [Ha Hw1]. specialize (IH (k x) w1 Hw1).
    destruct (drive fuel (k x) w1) as [[[n tr] o] w']. by constructor.
Qed.
End Drive.

(** ** Along a run

    [M] is what an observer remembers ([upd]); [along P] says that [P] holds of
    each action, given what was remembered before it. *)
Section Along.
Context {M : Type} (upd : M -> act -> M).

Definition after (s : M) (tr : list act) : M := fold_left upd tr s.
Fixpoint along (P : M -> act -> Prop) (s : M) (tr : list act) : Prop := match tr with [] => True | a :: tr' => P s a /\ along P (upd s a) tr' end.

Lemma along_app P s a b : along P s (a ++ b) <-> along P s a /\ along P (after s a) b.
Proof. revert s. induction a as [|x a IH]; intros s; [by split; [|intros []]|]. cbn [app along]. rewrite IH. unfold after. cbn [fold_left]. tauto. Qed.

Lemma after_app s a b : after s (a ++ b) = after (after s a) b.
Proof. apply fold_left_app. Qed.

Lemma along_at P s tr1 a tr2 : along P s (tr1 ++ a :: tr2) -> P (after s tr1) a.
Proof. rewrite along_app. by intros (_ & ? & _). Qed.

Lemma along_forall P s tr : Forall (fun a => forall s, P s a) tr -> along P s tr.
Proof. intros H. revert s. induction H as [|a tr Ha _ IH]; intros s; [done|]. split; [apply Ha|apply IH]. Qed.
End Along.

(** ** What holds of every run

    [trust] is what is assumed of an answer and [good] what is to hold of an
    action. *)
Section Safe.
Context {M : Type} (upd : M -> act -> M) (trust : M -> act -> Prop) (good : M -> act -> Prop).

Definition safe {R} (s : M) (t : prog R) (Q : R -> M -> Prop) : Prop :=
  forall n tr o, run n t tr o -> along upd trust s tr -> along upd good s tr /\ forall r, o = Some r -> Q r (after upd s tr).

Lemma safe_ret {R} s (r : R) (Q : R -> M -> Prop) : Q r s -> safe s (Ret r) Q.
Proof. intros HQ n tr o H _. run_inv H; split; try done. by intros ? [= <-]. Qed.

Lemma safe_bind {A B} s (t : prog A) (k : A -> prog B) (P : A -> M -> Prop) (Q : B -> M -> Prop) :
  safe s t P -> (forall a s', P a s' -> safe s' (k a) Q) -> safe s (ITree.bind t k) Q.
Proof.
  intros Ht Hk n tr o H HT. apply run_bind in H as [[H ->]|(n1 & n2 & tr1 & tr2 & r & -> & -> & H1 & H2)].
  - destruct (Ht _ _ _ H HT) as [Hg _]. split; [done|]. done.
  - apply along_app in HT as [HT1 HT2]. destruct (Ht _ _ _ H1 HT1) as [Hg HP]. destruct (Hk r _ (HP r eq_refl) _ _ _ H2 HT2) as [Hg2 HQ].
    split; [by apply along_app|]. intros b Hb. rewrite after_app. auto.
Qed.

Lemma safe_act {T} s (e : ev T) (Q : T -> M -> Prop) :
  (forall x, trust s (Act e x) -> good s (Act e x) /\ Q x (upd s (Act e x))) -> safe s (act_ e) Q.
Proof.
  intros HQ n tr o H HT. run_inv H; [by split|]. match goal with H : run _ _ _ _ |- _ => rename H into H' end.
  destruct HT as [Hx HT]. destruct (HQ _ Hx) as [Hg HP]. run_inv H'; (split; [done|]); [done|]. by intros ? [= <-].
Qed.

Lemma safe_mono {R} s (t : prog R) (P Q : R -> M -> Prop) : safe s t P -> (forall r s', P r s' -> Q r s') -> safe s t Q.
Proof. intros Ht HPQ n tr o H HT. destruct (Ht _ _ _ H HT) as [Hg HP]. split; [done|]. auto. Qed.

(** A loop keeps its invariant. *)
Lemma safe_iter {I R} s i (body : I -> prog (I + R)) (Inv : I -> M -> Prop) (Q : R -> M -> Prop) :
  Inv i s -> (forall i s, Inv i s -> safe s (body i) (fun lr s' => match lr with inl i' => Inv i' s' | inr r => Q r s' end)) ->
  safe s (ITree.iter body i) Q.
Proof.
  intros Hi Hb n. revert s i Hi. induction (lt_wf n) as [n _ IH]. intros s i Hi tr o H HT.
  apply run_iter in H as [[H ->]|(n1 & n2 & tr1 & tr2 & lr & -> & -> & H1 & H2)].
  - destruct (Hb i s Hi _ _ _ H HT) as [Hg _]. split; [done|]. done.
  - apply along_app in HT as [HT1 HT2]. destruct (Hb i s Hi _ _ _ H1 HT1) as [Hg HP]. specialize (HP lr eq_refl).
    destruct lr as [i'|r].
    + destruct H2 as [(n3 & -> & H2)|[-> ->]]; [|rewrite app_nil_r; split; done].
      destruct (IH n3 ltac:(lia) _ i' HP _ _ H2 HT2) as [Hg2 HQ]. split; [by apply along_app|]. intros b Hb'. rewrite after_app. auto.
    + destruct H2 as [-> [->| ->]]; rewrite app_nil_r; split; try done. by intros ? [= <-].
Qed.

End Safe.

End Dialog.
