(* ===== verification/Tetrisui.v ===== *)
(** * The widgets: libtetrisui/tetrisui.c

    Each widget owns the terminal until the user answers: it draws, waits for
    a key and decides.  Geometry, padding and the cut at the window's width are
    left out of what is drawn. *)
From ITree Require Import ITree.
From S2P Require Import Prelude CText Types Codec Transport Dialog.
Import Dialog.
Local Open Scope dialog_scope.

Module Tetrisui.

Definition TETRISUI_MAX_ITEMS : Z := 16.
Definition TETRISUI_MAX_FIELDS : nat := 8.
Definition TETRISUI_FIELD_LEN : nat := 128.

Definition ESC : ascii := "027"%char.
Definition DEL : ascii := "127"%char.
Definition BS : ascii := "008"%char.

(** [ch == 27], [ch == '\n' || ch == KEY_ENTER || ch == '\r'] and the three
    ways to erase. *)
Definition is_escape (k : key) : bool := match k with Byte c => ceqb c ESC | _ => false end.
Definition is_enter (k : key) : bool := match k with Byte c => ceqb c LF || ceqb c CR | KEY_ENTER => true | _ => false end.
Definition is_erase (k : key) : bool := match k with Byte c => ceqb c DEL || ceqb c BS | KEY_BACKSPACE => true | _ => false end.
Definition is_byte (b : ascii) (k : key) : bool := match k with Byte c => ceqb c b | _ => false end.
Definition printable (c : ascii) : bool := ((32 <=? code c) && (code c <? 127))%Z.

(** ** Menus *)

(** Items, the selected one in reverse video. *)
Definition highlighted (sel : nat) (items : list cstr) : shown := imap (fun i s => (bool_decide (i = sel), s)) items.

Definition menu_body (items : list cstr) (count sel : Z) : prog (Z + Z) :=
  act_ (Draw (highlighted (Z.to_nat sel) items)) ;!
  let! ch := act_ Getch in
  let sel := match ch with KEY_UP => ((sel - 1 + count) mod count)%Z | KEY_DOWN => ((sel + 1) mod count)%Z | _ => sel end in
  ret (if is_byte "q" ch || is_escape ch then inr (-1)%Z else if is_byte LF ch then inr sel else inl sel).

(** The items are those [count] counts; -1 for cancelled. *)
Definition tetrisui_menu (title : cstr) (items : list cstr) (count : Z) : prog Z :=
  if ((count <=? 0) || (TETRISUI_MAX_ITEMS <? count))%Z then ret (-1)%Z
  else let! win := act_ (Frame title) in
       if negb win then ret (-1)%Z else ITree.iter (menu_body items count) 0%Z.

(** ** One line of input *)

Definition type_key (max : nat) (buf : cstr) (ch : key) : cstr :=
  if is_erase ch then removelast buf
  else match ch with
       | Byte c => if printable c && (length buf <? max)%nat then buf ++ [c] else buf
       | _ => buf
       end.

Definition input_body (prompt : cstr) (max : nat) (buf : cstr) : prog (cstr + option cstr) :=
  act_ (Draw (plainly [prompt; buf])) ;!
  let! ch := act_ Getch in
  ret (if is_escape ch then inr None else if is_enter ch then inr (Some buf) else inl (type_key max buf ch)).

(** [None]: cancelled, [out] is as it was. *)
Definition tetrisui_input (title prompt : cstr) (out_len : nat) : prog (option cstr) :=
  let! win := act_ (Frame title) in
  if negb win then ret None
  else let max := if (out_len - 1 <? TETRISUI_FIELD_LEN - 1)%nat then (out_len - 1)%nat else (TETRISUI_FIELD_LEN - 1)%nat in
       let! r := ITree.iter (input_body prompt max) [] in
       ret (match r with None => None | Some buf => Some (trunc out_len buf) end).

(** ** Forms *)

Definition draw_field_value (masked : bool) (value : cstr) : cstr :=
  if masked then replicate (Nat.min (length value) (TETRISUI_FIELD_LEN - 1)) "*"%char else value.

(** Labels and values; the field in focus in reverse video, the error line
    below. *)
Fixpoint form_lines (mask : Z) (i field : nat) (labels values : list cstr) : shown :=
  match labels, values with
  | l :: labels', v :: values' =>
    (false, l ++ $":") :: (bool_decide (i = field), draw_field_value (Z.testbit mask (Z.of_nat i)) v) :: form_lines mask (S i) field labels' values'
  | _, _ => []
  end.
Definition form_shown (mask : Z) (error : option cstr) (field : nat) (labels values : list cstr) : shown :=
  form_lines mask 0 field labels values ++ match error with Some e => [(false, e)] | None => [] end.

(** What a key makes of the values and the field in focus. *)
Definition form_key (values : list cstr) (field : nat) (ch : key) : list cstr * nat :=
  let count := length values in
  if is_byte TAB ch then (values, (S field mod count)%nat)
  else match ch with
       | KEY_DOWN => (values, (S field mod count)%nat)
       | KEY_UP => (values, ((field + count - 1) mod count)%nat)
       | _ => (alter (fun v => type_key (TETRISUI_FIELD_LEN - 1) v ch) field values, field)
       end.

Definition form_body (mask : Z) (error : option cstr) (labels : list cstr) (st : list cstr * nat) : prog ((list cstr * nat) + (bool * list cstr)) :=
  let '(values, field) := st in
  act_ (Draw (form_shown mask error field labels values)) ;!
  let! ch := act_ Getch in
  ret (if is_escape ch then inr (false, values) else if is_enter ch then inr (true, values) else inl (form_key values field ch)).

(** Whether it was submitted, and the values, edited in place either way. *)
Definition tetrisui_form_ex (title : cstr) (labels values : list cstr) (mask : Z) (error : option cstr) (start_field : nat) : prog (bool * list cstr) :=
  let count := length values in
  if (count =? 0)%nat || (TETRISUI_MAX_FIELDS <? count)%nat then ret (false, values)
  else let! win := act_ (Frame title) in
       if negb win then ret (false, values)
       else ITree.iter (form_body mask error labels) (values, if (start_field <? count)%nat then start_field else O).
Definition tetrisui_form (title : cstr) (labels values : list cstr) : prog (bool * list cstr) := tetrisui_form_ex title labels values 0 None 0.

(** ** Questions *)

Definition confirm_shown (question : cstr) (yes : bool) : shown := [(false, question); (yes, $"[ Yes ]"); (negb yes, $"[ No ]")].

Definition confirm_body (question : cstr) (yes : bool) : prog (bool + bool) :=
  act_ (Draw (confirm_shown question yes)) ;!
  let! ch := act_ Getch in
  let yes := match ch with KEY_LEFT | KEY_RIGHT => negb yes | _ => yes end in
  ret (if is_escape ch || is_byte "q" ch then inr false else if is_enter ch then inr yes else inl yes).

Definition tetrisui_confirm (title question : cstr) : prog bool :=
  let! win := act_ (Frame title) in
  if negb win then ret false else ITree.iter (confirm_body question) true.

(** ** Reports *)

Definition tetrisui_message (title : cstr) (lines : list cstr) : prog unit :=
  let! win := act_ (Frame title) in
  if negb win then ret tt else act_ (Draw (plainly lines)) ;! act_ Getch ;! ret tt.

Definition list_body (lines : list cstr) (visible : nat) (top : nat) : prog (nat + unit) :=
  act_ (Draw (plainly (take visible (drop top lines)))) ;!
  let! ch := act_ Getch in
  let top := match ch with
             | KEY_DOWN => if (top + visible <? length lines)%nat then S top else top
             | KEY_UP => (top - 1)%nat
             | _ => top
             end in
  ret (if is_byte "q" ch || is_escape ch || is_byte LF ch then inr tt else inl top).

Definition tetrisui_list_view (title : cstr) (lines : list cstr) : prog unit :=
  let! rows := act_ Rows in
  let height := (if 6 <? rows - 6 then rows - 6 else 6)%Z in
  let! win := act_ (Frame title) in
  if negb win then ret tt else ITree.iter (list_body lines (Z.to_nat (height - 3))) O.

(** The scripted progress of the demo programs: every step is fine. *)
Fixpoint progress_all (steps : list cstr) : prog unit :=
  match steps with
  | [] => ret tt
  | s :: more => act_ (Draw (plainly [s ++ $" ..."])) ;! act_ (Draw (plainly [s ++ $" ... OK"])) ;! progress_all more
  end.
Definition tetrisui_progress (title : cstr) (steps : list cstr) : prog unit :=
  let! win := act_ (Frame title) in
  if negb win then ret tt else progress_all steps.

(** The progress panel: [None] when there is no window. *)
Definition progress_begin (title : cstr) (steps : list cstr) : prog (option (list cstr)) :=
  match steps with
  | [] => ret None
  | _ => let! win := act_ (Frame title) in
         if negb win then ret None else act_ (Draw (plainly (map (fun s => s ++ $" ...") steps))) ;! ret (Some steps)
  end.
Definition progress_step (panel : option (list cstr)) (index : nat) (ok : bool) : prog unit :=
  match panel with
  | None => ret tt
  | Some steps => match steps !! index with
                  | None => ret tt
                  | Some s => act_ (Draw (plainly [s ++ $" ... " ++ (if ok then $"OK" else $"FAILED")]))
                  end
  end.

(** [strncpy] into the status bar's arrays. *)
Definition tetrisui_set_status (app actor state : cstr) : prog unit := act_ (Status (trunc 32 app) (trunc 64 actor) (trunc 32 state)).


(** ** What the user saw

    An observer remembers the last thing drawn, and what was on the screen
    when the user last pressed Enter. *)
Record view := mkView { vw_last : shown; vw_accepted : shown }.

Definition look (v : view) (a : act) : view :=
  match a with
  | Act e x =>
    match e in ev T return T -> view with
    | Draw text => fun _ => mkView text (vw_accepted v)
    | Getch => fun k => if is_enter k then mkView (vw_last v) (vw_last v) else v
    | _ => fun _ => v
    end x
  end.

Definition screen_act (a : act) : bool := match a with Act e _ => on_screen e end.

(** ** A user at the keyboard

    Keys to come, and a daemon that answers each request. *)
Record user := mkUser { us_keys : list key; us_daemon : Codec.bcl_request_t -> bb_result_t * Codec.bcl_response_t }.
Definition at_keys (T : Type) (e : ev T) (u : user) : option (T * user) :=
  match e in ev T return option (T * user) with
  | Frame _ => Some (true, u)
  | Rows => Some (24%Z, u)
  | Draw _ => Some (tt, u)
  | Getch => match us_keys u with [] => None | k :: ks => Some (k, mkUser ks (us_daemon u)) end
  | Status _ _ _ => Some (tt, u)
  | CtlPath _ => Some (tt, u)
  | Reach _ => Some (true, u)
  | Send req => Some (us_daemon u req, u)
  | Connect _ _ _ => Some ((BB_OK, Transport.BCL_CONN_OK), u)
  | Auth _ _ _ => Some ((0, 200)%Z, u)
  | Connected => Some (true, u)
  | Disconnect => Some (tt, u)
  | Draws => Some ((0, 0)%Z, u)
  end.
Definition typing (s : cstr) : list key := map Byte s ++ [Byte LF].

Section Widgets.
Context {X : Type} (updx : view -> X -> act -> X) (trust good : view * X -> act -> Prop).
Context (Hx : forall v x a, screen_act a = true -> updx v x a = x) (Hg : forall s a, screen_act a = true -> good s a).

Definition upd (s : view * X) (a : act) : view * X := (look (fst s) a, updx (fst s) (snd s) a).
Abbreviation safe := (Dialog.safe upd trust good).

Lemma safe_screen {T} v x (e : ev T) (Q : T -> view * X -> Prop) : on_screen e = true ->
  (forall r, Q r (look v (Act e r), x)) -> safe (v, x) (act_ e) Q.
Proof. intros He HQ. apply safe_act. intros r _. split; [by apply Hg|]. unfold upd. cbn [fst snd]. rewrite Hx by done. apply HQ. Qed.

Lemma safe_screen_bind {T R} v x (e : ev T) (k : T -> prog R) (Q : R -> view * X -> Prop) : on_screen e = true ->
  (forall r, safe (look v (Act e r), x) (k r) Q) -> safe (v, x) (ITree.bind (act_ e) k) Q.
Proof.
  intros He HQ. eapply safe_bind; [apply (safe_screen v x e (fun r s => s = (look v (Act e r), x))); [done|reflexivity]|].
  intros r s ->. apply HQ.
Qed.

(** Perform one event of the screen. *)
Ltac screen := apply safe_screen_bind; [reflexivity|intros ?; cbn [look]].

Lemma frame_spec {R} v x title (no yes : prog R) Q : safe (v, x) no Q -> safe (v, x) yes Q ->
  safe (v, x) (let! win := act_ (Frame title) in if negb win then no else yes) Q.
Proof. intros Hn Hy. screen. by destruct r. Qed.

Lemma enter_not_others k : is_enter k = true -> is_escape k = false /\ is_byte "q" k = false.
Proof. destruct k as [c| | | | | | |]; try done. cbn. unfold ceqb. intros [->%bool_decide_eq_true| ->%bool_decide_eq_true]%orb_true_iff; done. Qed.

Lemma menu_spec v x title items count :
  safe (v, x) (tetrisui_menu title items count)
    (fun r s => snd s = x /\ (r = -1 \/ (0 <= r < count /\ count <= TETRISUI_MAX_ITEMS /\ vw_accepted (fst s) = highlighted (Z.to_nat r) items)))%Z.
Proof.
  unfold tetrisui_menu. destruct (Z.leb_spec count 0); [apply safe_ret; auto|]. destruct (Z.ltb_spec TETRISUI_MAX_ITEMS count); [apply safe_ret; auto|]. cbn [orb].
  apply frame_spec; [apply safe_ret; auto|]. eapply (safe_iter _ _ _ _ _ _ (fun sel s => (0 <= sel < count)%Z /\ snd s = x)); [split; [lia|done]|].
  intros sel [v1 x1] [Hs Ex]. cbn in Ex. subst x1. unfold menu_body. screen. screen. rename r0 into ch. apply safe_ret.
  assert (Hm : forall z, (0 <= z mod count < count)%Z) by (intros; apply Z.mod_pos_bound; lia).
  destruct (is_byte "q" ch || is_escape ch); [destruct (is_enter ch); auto|]. destruct (is_byte LF ch) eqn:El.
  - destruct ch as [c| | | | | | |]; try done. cbn in El. apply bool_decide_eq_true in El as ->. cbn. auto.
  - destruct ch; cbn; auto.
Qed.

(** What can be typed: printable bytes, within the length. *)
Definition typed (max : nat) (s : cstr) : Prop := (length s <= max)%nat /\ Forall (fun c => printable c = true) s.

Lemma type_key_typed max buf ch : typed max buf -> typed max (type_key max buf ch).
Proof.
  intros [Hl Hp]. unfold type_key. destruct (is_erase ch).
  - rewrite removelast_firstn_len. split; [rewrite length_take; lia|by apply Forall_take].
  - destruct ch as [c| | | | | | |]; try done. destruct (printable c) eqn:Ec; [|done]. destruct (Nat.ltb_spec (length buf) max); [|done]. cbn [andb].
    split; [rewrite length_app; cbn; lia|]. apply Forall_app. split; [done|by repeat constructor].
Qed.

Lemma input_spec v x title prompt out_len : (0 < out_len)%nat ->
  safe (v, x) (tetrisui_input title prompt out_len)
    (fun r s => snd s = x /\ forall buf, r = Some buf -> typed (out_len - 1) buf /\ vw_accepted (fst s) = plainly [prompt; buf]).
Proof.
  intros Hout. unfold tetrisui_input. apply frame_spec; [by apply safe_ret|]. set (max := if (_ <? _)%nat then _ else _).
  assert (Hmax : (max <= out_len - 1)%nat) by (unfold max; destruct (Nat.ltb_spec (out_len - 1) (TETRISUI_FIELD_LEN - 1)); lia).
  eapply (safe_bind _ _ _ _ _ _ (fun r s => snd s = x /\ forall buf, r = Some buf -> typed max buf /\ vw_accepted (fst s) = plainly [prompt; buf])).
  - eapply (safe_iter _ _ _ _ _ _ (fun buf s => typed max buf /\ snd s = x)); [by split; [split; [cbn; lia|constructor]|]|].
    intros buf [v1 x1] [Hb Ex]. cbn in Ex. subst x1. unfold input_body. screen. screen. rename r0 into ch. apply safe_ret.
    destruct (is_escape ch); [by destruct (is_enter ch)|]. destruct (is_enter ch); [|by split; [apply type_key_typed|]].
    split; [done|]. by intros ? [= <-].
  - intros r [v1 x1] [Ex Hr]. apply safe_ret. split; [done|]. intros buf Hbuf. destruct r as [b|]; [|done]. injection Hbuf as <-.
    destruct (Hr b eq_refl) as [[Hl Hp] Ha]. unfold trunc. rewrite take_ge by lia. split; [split; [lia|done]|done].
Qed.

(** [ok i]: what the keys keep of the text of field [i]. *)
Definition fields_ok (ok : nat -> cstr -> Prop) (values : list cstr) : Prop := forall i s, values !! i = Some s -> ok i s.

Lemma form_key_shape (ok : nat -> cstr -> Prop) values field ch : (forall i s, ok i s -> ok i (type_key (TETRISUI_FIELD_LEN - 1) s ch)) ->
  (field < length values)%nat -> fields_ok ok values ->
  let '(values', field') := form_key values field ch in
  length values' = length values /\ (field' < length values)%nat /\ fields_ok ok values'.
Proof.
  intros Hok Hf HF. unfold form_key.
  assert (Ha : length (alter (fun v => type_key (TETRISUI_FIELD_LEN - 1) v ch) field values) = length values /\ (field < length values)%nat /\
    fields_ok ok (alter (fun v => type_key (TETRISUI_FIELD_LEN - 1) v ch) field values)).
  { rewrite length_alter. split; [done|]. split; [done|]. intros i s. destruct (decide (field = i)) as [->|Hne].
    - rewrite list_lookup_alter_eq. destruct (values !! i) eqn:E; [|done]. intros [= <-]. apply Hok. by apply HF.
    - rewrite list_lookup_alter_ne by done. apply HF. }
  destruct (is_byte TAB ch); [split; [done|split; [apply Nat.mod_upper_bound; lia|done]]|].
  destruct ch; try exact Ha; (split; [done|split; [apply Nat.mod_upper_bound; lia|done]]).
Qed.

Lemma form_spec (ok : nat -> cstr -> Prop) v x title labels values mask error start :
  (forall i s ch, ok i s -> ok i (type_key (TETRISUI_FIELD_LEN - 1) s ch)) -> fields_ok ok values ->
  safe (v, x) (tetrisui_form_ex title labels values mask error start)
    (fun r s => snd s = x /\ length (snd r) = length values /\ fields_ok ok (snd r) /\
       (fst r = true -> exists field, vw_accepted (fst s) = form_shown mask error field labels (snd r))).
Proof.
  intros Hok HF. unfold tetrisui_form_ex. destruct (Nat.eqb_spec (length values) 0) as [|Hc]; [by apply safe_ret|]. destruct (_ <? _)%nat; [by apply safe_ret|]. cbn [orb].
  apply frame_spec; [by apply safe_ret|].
  eapply (safe_iter _ _ _ _ _ _ (fun st s => snd s = x /\ length (fst st) = length values /\ (snd st < length values)%nat /\ fields_ok ok (fst st))).
  - split; [done|]. split; [done|]. split; [|done]. cbn [snd]. destruct (Nat.ltb_spec start (length values)); lia.
  - intros [vs field] [v1 x1] (Ex & Hl & Hf & HT). cbn in Ex, Hl, Hf, HT. subst x1. unfold form_body. screen. screen. rename r0 into ch. apply safe_ret.
    destruct (is_escape ch); [by destruct (is_enter ch)|]. destruct (is_enter ch); [split; [done|]; split; [done|]; split; [done|]; by eexists|].
    assert (Hk := form_key_shape ok vs field ch (fun i s => Hok i s ch) ltac:(lia) HT). destruct (form_key vs field ch) as [vs' f'].
    destruct Hk as (? & ? & ?). cbn. split; [done|]. split; [lia|]. split; [lia|done].
Qed.

Lemma confirm_spec v x title q :
  safe (v, x) (tetrisui_confirm title q) (fun r s => snd s = x /\ (r = true -> vw_accepted (fst s) = confirm_shown q true)).
Proof.
  unfold tetrisui_confirm. apply frame_spec; [by apply safe_ret|]. eapply (safe_iter _ _ _ _ _ _ (fun _ s => snd s = x)); [done|].
  intros yes [v1 x1] Ex. cbn in Ex. subst x1. unfold confirm_body. screen. screen. rename r0 into ch. apply safe_ret.
  destruct (is_escape ch || is_byte "q" ch); [by destruct (is_enter ch)|]. destruct (is_enter ch) eqn:Ee; [|by destruct ch].
  destruct ch as [c| | | | | | |]; try done; split; try done; by intros ->.
Qed.

Lemma message_spec v x title lines : safe (v, x) (tetrisui_message title lines) (fun _ s => snd s = x).
Proof. unfold tetrisui_message. apply frame_spec; [by apply safe_ret|]. screen. screen. apply safe_ret. by destruct (is_enter r0). Qed.

(** A view never runs past its lines. *)
Lemma list_view_spec v x title lines : safe (v, x) (tetrisui_list_view title lines) (fun _ s => snd s = x).
Proof.
  unfold tetrisui_list_view. screen. apply frame_spec; [by apply safe_ret|]. eapply (safe_iter _ _ _ _ _ _ (fun _ s => snd s = x)); [done|].
  intros top [v1 x1] Ex. cbn in Ex. subst x1. unfold list_body. screen. screen. apply safe_ret. destruct (is_enter r1); by destruct (_ || _).
Qed.

Lemma progress_begin_spec v x title steps :
  safe (v, x) (progress_begin title steps) (fun _ s => snd s = x /\ vw_accepted (fst s) = vw_accepted v).
Proof. unfold progress_begin. destruct steps as [|s steps]; [by apply safe_ret|]. apply frame_spec; [by apply safe_ret|]. screen. by apply safe_ret. Qed.

Lemma progress_step_spec v x panel i ok :
  safe (v, x) (progress_step panel i ok) (fun _ s => snd s = x /\ vw_accepted (fst s) = vw_accepted v).
Proof. unfold progress_step. destruct panel as [steps|]; [|by apply safe_ret]. destruct (steps !! i); [|by apply safe_ret]. by apply safe_screen. Qed.

Lemma progress_spec v x title steps : safe (v, x) (tetrisui_progress title steps) (fun _ s => snd s = x /\ vw_accepted (fst s) = vw_accepted v).
Proof.
  unfold tetrisui_progress. apply frame_spec; [by apply safe_ret|].
  assert (H : forall w, vw_accepted w = vw_accepted v -> safe (w, x) (progress_all steps) (fun _ s => snd s = x /\ vw_accepted (fst s) = vw_accepted v));
    [|by apply H].
  induction steps as [|s steps IH]; intros w Hw; cbn [progress_all]; [by apply safe_ret|]. screen. screen. by apply IH.
Qed.

Lemma set_status_spec v x app actor state :
  safe (v, x) (tetrisui_set_status app actor state) (fun _ s => s = (v, x)).
Proof. by apply safe_screen. Qed.

End Widgets.

End Tetrisui.
