(* ===== verification/Ballotctl.v ===== *)
(** * The administrator's client: ballotctl/ballotctl.c

    Screens over the widgets of Tetrisui.v and the requests of Client.v.  The
    theorems are about every run, whatever keys are pressed and whatever the
    daemon answers: what is sent is what the screen showed when the user
    pressed Enter, and it can be delivered. *)
From ITree Require Import ITree.
From S2P Require Import Prelude CText Types Rows Htttp Codec CodecLogic Delivery BrainDb Brain Daemon Client Dialog Tetrisui.
Import Dialog.
Local Open Scope dialog_scope.

Module Ballotctl.
Import Htttp Codec Client Tetrisui.

Definition DEFAULT_CTL_PATH : cstr := $"var/run/ballotd.ctl".
Definition CTL_PATH_BUF : nat := Z.to_nat 256.

Definition result_text (rc : bb_result_t) : cstr :=
  match rc with
  | BB_OK => $"OK"
  | BB_ERR_CONFIG_TITLE => $"Config invalid: title is required."
  | BB_ERR_CONFIG_OPTIONS => $"Config invalid: at least two options are required."
  | BB_ERR_CONFIG_TIME => $"Config invalid: close time must be after open time."
  | BB_ERR_CONFIG_ID_TAKEN => $"That election ID is already in use - pick another."
  | BB_ERR_ILLEGAL_TRANSITION => $"Not a legal transition from the election's current state."
  | BB_ERR_NOT_FOUND => $"Election not found."
  | BB_ERR_NOT_PUBLISHED => $"Results not available."
  | BB_ERR_NOT_ELIGIBLE => $"Not eligible to view this election's results."
  | BB_ERR_NOT_IMPLEMENTED => $"The backend storage is not wired up yet - try again once it is."
  | BB_ERR_DB => $"Could not reach ballotd."
  | _ => $"Rejected by System."
  end.

(** ** Text *)

Fixpoint skip_spaces (s : cstr) : cstr := match s with c :: s' => if ceqb c " " then skip_spaces s' else s | [] => [] end.
Definition trim_inplace (s : cstr) : cstr := reverse (skip_spaces (reverse (skip_spaces s))).

(** [strtok(buf, ",")] again and again: the pieces between commas, empty ones
    left out. *)
Fixpoint tokens (s cur : cstr) : list cstr :=
  match s with
  | [] => match cur with [] => [] | _ => [cur] end
  | c :: s' => if ceqb c "," then match cur with [] => tokens s' [] | _ => cur :: tokens s' [] end else tokens s' (cur ++ [c])
  end.

Definition split_csv (src : cstr) (max : nat) : list cstr :=
  map (fun tok => trunc BB_OPTION_LEN (trim_inplace tok)) (take max (tokens (trunc 256 src) [])).

(** ** Login *)

Definition login_body (path : cstr) (_ : unit) : prog (unit + option cstr) :=
  let! r := tetrisui_input ($"ballotctl - admin login") ($"Enter admin cert name (Esc to quit):") BB_CERT_LEN in
  match r with
  | None => ret (inr None)
  | Some typed_name =>
    match trim_inplace typed_name with
    | [] => ret (inl tt)
    | name =>
      let! panel := progress_begin ($"Authenticating") [$"Contacting ballotd admin socket"] in
      let! reachable := act_ (Reach path) in
      progress_step panel 0 reachable ;!
      if negb reachable then
        tetrisui_message ($"Connection failed")
          [trunc (CTL_PATH_BUF + 64) ($"Could not reach ballotd's admin socket at " ++ path ++ $"."); $"Check the server is running and try again."] ;!
        ret (inl tt)
      else
        act_ (CtlPath path) ;!
        tetrisui_set_status ($"ballotctl") name [] ;!
        ret (inr (Some (trunc BB_CERT_LEN name)))
    end
  end.
(** [Some g_cert_name], or [None] for 0. *)
Definition screen_login (path : cstr) : prog (option cstr) := ITree.iter (login_body path) tt.

Definition prompt_election_id (title : cstr) : prog (option cstr) :=
  let! r := tetrisui_input title ($"Enter election ID:") BB_ID_LEN in
  ret (match r with Some [] => None | _ => r end).

(** ** Create *)

Definition create_labels : list cstr :=
  [$"Title"; $"Election ID"; $"Options (comma-separated)"; $"Eligible voter usernames (comma-separated, not case-sensitive)"; $"Open time"; $"Close time"].
Definition value (values : list cstr) (i : nat) : cstr := nth i values [].

(** The configuration of the form; [inr] for the entry that is no user name.
    The slots behind [eligible_count] are left zeroed. *)
Definition form_config (values : list cstr) : bb_config_t + cstr :=
  let options := split_csv (value values 2) BB_MAX_OPTIONS in
  match bc_fold_eligible (split_csv (value values 3) BB_MAX_VOTERS) with
  | inr bad => inr (trunc BB_CERT_LEN bad)
  | inl eligible =>
    inl (mkConfig (trunc BB_TITLE_LEN (value values 0))
           (CodecLogic.pad BB_MAX_OPTIONS [] options) (Z.of_nat (length options))
           (CodecLogic.pad BB_MAX_VOTERS [] eligible) (Z.of_nat (length eligible))
           (trunc BB_TIME_LEN (value values 4)) (trunc BB_TIME_LEN (value values 5)))
  end.

(** The request with its id and name filled in. *)
Definition named (req : bcl_request_t) (id cert : cstr) : bcl_request_t :=
  mkReq (cr_op req) (trunc BB_CERT_LEN cert) (trunc BB_ID_LEN id) (cr_ballot req) (cr_hash req) (cr_config req).

(** What is sent, or the line shown and nothing sent. *)
Definition create_request (cert : cstr) (values : list cstr) : bcl_request_t + cstr :=
  match form_config values with
  | inr bad => inr (trunc 104 ($"'" ++ bad ++ $"' is not a valid username: 1-15 chars, letters/digits/_/-."))
  | inl config =>
    match bc_build_create config with
    | Err vr => inr (result_text vr)
    | Ok req => inl (named req (value values 1) cert)
    end
  end.

Definition create_body (cert : cstr) (values : list cstr) : prog (list cstr + unit) :=
  let! r := tetrisui_form ($"Create election (UC-1)") create_labels values in
  match r with
  | (false, _) => ret (inr tt)
  | (true, values) =>
    match create_request cert values with
    | inr line => tetrisui_message ($"Rejected (alt flow 4a)") [line; $"Staying in Draft - fix and retry."] ;! ret (inl values)
    | inl req =>
      let! panel := progress_begin ($"Creating election") [$"Sending to ballotd"] in
      let! a := act_ (Send req) in
      progress_step panel 0 (bool_decide (fst a = BB_OK)) ;!
      match fst a with
      | BB_OK =>
        tetrisui_message ($"Created")
          [trunc 64 ($"Election " ++ el_id (cp_election (snd a)) ++ $" created in Draft."); $"Use Open Election to make it live."] ;! ret (inr tt)
      | rc => tetrisui_message ($"Create failed") [result_text rc] ;! ret (inr tt)
      end
    end
  end.

Definition screen_create_election (cert : cstr) : prog unit :=
  let! peek := act_ (Send (zero_req BCL_ADMIN_NEXT_ID)) in
  let id := match fst peek with BB_OK => trunc TETRISUI_FIELD_LEN (el_id (cp_election (snd peek))) | _ => [] end in
  ITree.iter (create_body cert) [[]; id; []; []; $"2026-01-01T09:00:00Z"; $"2026-01-08T09:00:00Z"].

(** ** Open, close, publish *)

Definition question (verb id : cstr) : cstr := trunc 96 (verb ++ $" election " ++ id ++ $"?").

Definition transition (op : bcl_op_t) (verb screen_title cert : cstr) : prog unit :=
  let! r := prompt_election_id screen_title in
  match r with
  | None => ret tt
  | Some id =>
    let! yes := tetrisui_confirm ($"Confirm") (question verb id) in
    if negb yes then ret tt
    else match bc_build_transition op id with
    | Err _ => ret tt
    | Ok req =>
      let! panel := progress_begin verb [$"Sending to ballotd"] in
      let! a := act_ (Send (named req (cr_election_id req) cert)) in
      progress_step panel 0 (bool_decide (fst a = BB_OK)) ;!
      match fst a with
      | BB_OK => tetrisui_message ($"Done") [trunc 64 ($"Election " ++ id ++ $": " ++ verb ++ $" done.")]
      | rc => tetrisui_message ($"Invalid transition") [result_text rc]
      end
    end
  end.
Definition screen_open_election : cstr -> prog unit := transition BCL_OPEN ($"Open") ($"Open election").
Definition screen_close_election : cstr -> prog unit := transition BCL_CLOSE ($"Close") ($"Close election").
Definition screen_publish_results : cstr -> prog unit := transition BCL_PUBLISH ($"Publish") ($"Publish results").

(** ** Results *)

Definition status_of (a : bb_result_t * bcl_response_t) : bb_result_t := match fst a with BB_OK => cp_status (snd a) | rc => rc end.

(** [%-10s] and [%3d]. *)
Definition left10 (s : cstr) : cstr := s ++ replicate (10 - length s) " "%char.
Definition right3 (z : Z) : cstr := let t := print_int z in replicate (3 - length t) " "%char ++ t.
Definition bar (tally : Z) : cstr := replicate (Z.to_nat (Z.min tally 20)) "#"%char.
Definition tally_line (option : cstr) (tally : Z) : cstr := trunc 96 ($"  " ++ left10 option ++ $" " ++ right3 tally ++ $" " ++ bar tally).

Definition results_lines (id : cstr) (resp : bcl_response_t) : list cstr :=
  [trunc 96 ($"Title: " ++ el_title (cp_election resp)); trunc 96 ($"ID: " ++ id); $"Tally:"] ++
  map (fun i => tally_line (nth i (cp_options resp) []) (nth i (cp_tally resp) 0%Z)) (seq 0 (Z.to_nat (cp_option_count resp))).

Definition results_request (id : cstr) : bcl_request_t := mkReq BCL_ADMIN_RESULTS [] (trunc BB_ID_LEN id) zero_ballot [] zero_config.

Definition screen_view_results : prog unit :=
  let! r := prompt_election_id ($"View results (UC-5)") in
  match r with
  | None => ret tt
  | Some id =>
    let! a := act_ (Send (results_request id)) in
    match status_of a with
    | BB_OK => tetrisui_list_view ($"Election results") (results_lines id (snd a))
    | st => tetrisui_message ($"Not published") [result_text st]
    end
  end.

(** ** Check a ballot *)

Definition check_request (id hash : cstr) : bcl_request_t := mkReq BCL_ADMIN_CHECK [] (trunc BB_ID_LEN id) zero_ballot (trunc BB_HASH_LEN hash) zero_config.

Definition check_report (hash : cstr) (a : bb_result_t * bcl_response_t) : cstr * list cstr :=
  let line1 := trunc 96 ($"Receipt hash: " ++ hash) in
  let other := ($"Check unavailable", [line1; result_text (status_of a)]) in
  match status_of a with
  | BB_OK =>
    if (cp_found (snd a) =? 0)%Z then other
    else ($"Verified", [line1; trunc 96 ($"Found: counted for option index " ++ print_int (cp_found_option (snd a)) ++ $" (" ++ cp_found_option_name (snd a) ++ $").")])
  | BB_ERR_NOT_FOUND => ($"Not found", [line1; $"Not found: no live (non-superseded) ballot with this hash."])
  | _ => other
  end.

Definition screen_check_ballot : prog unit :=
  let! r := prompt_election_id ($"Check a ballot (UC-6)") in
  match r with
  | None => ret tt
  | Some id =>
    let! h := tetrisui_input ($"Check a ballot (UC-6)") ($"Enter the receipt hash:") BB_HASH_LEN in
    match h with
    | None | Some [] => ret tt
    | Some hash =>
      let! a := act_ (Send (check_request id hash)) in
      let '(title, lines) := check_report hash a in tetrisui_message title lines
    end
  end.

(** ** main *)

Definition menu_items : list cstr :=
  [$"Create election (UC-1)"; $"Open election"; $"Close election"; $"Publish results"; $"View results (UC-5)"; $"Check a ballot (UC-6)"; $"Quit"].

Definition choose (cert : cstr) (sel : Z) : prog unit :=
  match sel with
  | 0 => screen_create_election cert
  | 1 => screen_open_election cert
  | 2 => screen_close_election cert
  | 3 => screen_publish_results cert
  | 4 => screen_view_results
  | 5 => screen_check_ballot
  | _ => ret tt
  end%Z.

Definition menu_loop (cert : cstr) (_ : unit) : prog (unit + unit) :=
  let! sel := tetrisui_menu ($"ballotctl - admin menu") menu_items 7 in
  if ((sel <? 0) || (sel =? 6))%Z then ret (inr tt) else choose cert sel ;! ret (inl tt).

(** [path]: the argument of [-C], if it was given. *)
Definition main (path : option cstr) : prog unit :=
  tetrisui_set_status ($"ballotctl") ($"(not logged in)") [] ;!
  let! login := screen_login (trunc CTL_PATH_BUF (default DEFAULT_CTL_PATH path)) in
  match login with None => ret tt | Some cert => ITree.iter (menu_loop cert) tt end.


(** ** What is sent *)

Definition verb_of (op : bcl_op_t) : cstr := match op with BCL_OPEN => $"Open" | BCL_CLOSE => $"Close" | _ => $"Publish" end.

(** A field of the create form: typed, but for the id the daemon proposed. *)
Definition field_ok (i : nat) (s : cstr) : Prop :=
  (length s <= TETRISUI_FIELD_LEN - 1)%nat /\ Rows.no_char NUL s /\ (i <> 1%nat -> Forall (fun c => printable c = true) s).

Definition id_ok (id : cstr) : Prop := typed (BB_ID_LEN - 1) id /\ id <> [].
Definition cert_ok (cert : cstr) : Prop := typed (BB_CERT_LEN - 1) cert.

(** [req] is what the screen [vw_accepted v], on which Enter was pressed last,
    stands for. *)
Definition sent_ok (v : view) (req : bcl_request_t) : Prop :=
  match cr_op req with
  | BCL_ADMIN_NEXT_ID => req = zero_req BCL_ADMIN_NEXT_ID
  | BCL_CREATE =>
    exists cert field values, cert_ok cert /\ length values = 6%nat /\ fields_ok field_ok values /\
      vw_accepted v = form_shown 0 None field create_labels values /\ create_request cert values = inl req
  | BCL_OPEN | BCL_CLOSE | BCL_PUBLISH =>
    exists cert id, cert_ok cert /\ id_ok id /\
      vw_accepted v = confirm_shown (verb_of (cr_op req) ++ $" election " ++ id ++ $"?") true /\ req = mkReq (cr_op req) cert id zero_ballot [] zero_config
  | BCL_ADMIN_RESULTS =>
    exists id, id_ok id /\ vw_accepted v = plainly [$"Enter election ID:"; id] /\ req = mkReq BCL_ADMIN_RESULTS [] id zero_ballot [] zero_config
  | BCL_ADMIN_CHECK =>
    exists id hash, id_ok id /\ typed (BB_HASH_LEN - 1) hash /\ hash <> [] /\
      vw_accepted v = plainly [$"Enter the receipt hash:"; hash] /\ req = mkReq BCL_ADMIN_CHECK [] id zero_ballot hash zero_config
  | _ => False
  end.

Definition good (s : view * unit) (a : act) : Prop :=
  match a with
  | Act e _ => match e with Send req => sent_ok (fst s) req | Connect _ _ _ | Auth _ _ _ | Disconnect | Connected | Draws => False | _ => True end
  end.

(** The id of an answer is a C string. *)
Definition c_answers (s : view * unit) (a : act) : Prop :=
  match a with
  | Act e x => match e in ev T return T -> Prop with Send _ => fun r => Rows.no_char NUL (el_id (cp_election (snd r))) | _ => fun _ => True end x
  end.

Definition still (v : view) (x : unit) (a : act) : unit := x.
Abbreviation usafe := (Dialog.safe (upd still) c_answers good).

Lemma still_quiet v x a : screen_act a = true -> still v x a = x.
Proof. done. Qed.
Lemma good_quiet s a : screen_act a = true -> good s a.
Proof. by destruct a as [T e x]; destruct e. Qed.

(** Run a widget, by its lemma. *)
Ltac widget H := eapply safe_bind; [apply (H _ still c_answers good still_quiet good_quiet)|cbn beta; intros].

Lemma printable_not c d : printable c = true -> printable d = false -> c <> d.
Proof. intros Hc Hd ->. congruence. Qed.

Lemma typed_no_nul max s : typed max s -> Rows.no_char NUL s.
Proof. intros [_ H]. eapply Forall_impl; [exact H|]. intros c Hc. by apply (printable_not c NUL). Qed.

Lemma field_key i s ch : field_ok i s -> field_ok i (type_key (TETRISUI_FIELD_LEN - 1) s ch).
Proof.
  intros (Hl & Hn & Hp). unfold type_key. destruct (is_erase ch).
  - rewrite removelast_firstn_len. split; [rewrite length_take; lia|]. split; [by apply Forall_take|]. intros Hi. apply Forall_take. auto.
  - destruct ch as [c| | | | | | |]; try done. destruct (printable c) eqn:Ec; [|done]. destruct (Nat.ltb_spec (length s) (TETRISUI_FIELD_LEN - 1)); [|done]. cbn [andb].
    split; [rewrite length_app; cbn [length]; lia|]. split.
    + apply Forall_app. split; [done|]. constructor; [by apply (printable_not c NUL)|constructor].
    + intros Hi. apply Forall_app. split; [auto|by repeat constructor].
Qed.

(** A request is sent between a progress panel and its report. *)
Lemma send_spec {R} v x title steps req (k : option (list cstr) -> bb_result_t * bcl_response_t -> prog R) Q :
  (forall w, vw_accepted w = vw_accepted v -> sent_ok w req) ->
  (forall w panel a, usafe (w, x) (k panel a) Q) ->
  usafe (v, x) (let! panel := progress_begin title steps in let! a := act_ (Send req) in k panel a) Q.
Proof.
  intros Hs Hk. widget @progress_begin_spec. destruct s' as [w x']. cbn in H. destruct H as [_ Ha].
  eapply safe_bind; [apply (safe_act _ _ _ _ _ (fun _ _ => True)); intros; split; [by apply Hs|done]|].
  intros r [w' []] _. destruct x. apply Hk.
Qed.

Lemma report_spec {R} v x panel i ok title lines (r : R) :
  usafe (v, x) (progress_step panel i ok ;! tetrisui_message title lines ;! ret r) (fun r' _ => r' = r).
Proof. widget @progress_step_spec. destruct s' as [w x']. widget @message_spec. by apply safe_ret. Qed.

Lemma prompt_spec v x title : usafe (v, x) (prompt_election_id title)
  (fun r s => forall id, r = Some id -> id_ok id /\ vw_accepted (fst s) = plainly [$"Enter election ID:"; id]).
Proof.
  unfold prompt_election_id. widget @input_spec; [unfold BB_ID_LEN; lia|]. apply safe_ret. destruct H as [_ H].
  intros id Hid. destruct a as [[|c b]|]; try done. injection Hid as <-. destruct (H _ eq_refl) as [Ht Ha]. split; [split; done|done].
Qed.

Lemma trunc_typed n s : typed (n - 1) s -> trunc n s = s.
Proof. intros [Hl _]. unfold trunc. by rewrite take_ge. Qed.

Lemma question_fits op id : id_ok id -> question (verb_of op) id = verb_of op ++ $" election " ++ id ++ $"?".
Proof.
  intros [[Hl _] _]. apply trunc_id. rewrite !length_app. unfold BB_ID_LEN in Hl. destruct op; cbn [verb_of length app]; simpl; lia.
Qed.

Lemma transition_spec v x op title cert : op = BCL_OPEN \/ op = BCL_CLOSE \/ op = BCL_PUBLISH -> cert_ok cert ->
  usafe (v, x) (transition op (verb_of op) title cert) (fun _ _ => True).
Proof.
  intros Hop Hc. unfold transition. eapply safe_bind; [apply prompt_spec|]. intros [id|] [v1 x1] Hid; [|by apply safe_ret].
  destruct (Hid id eq_refl) as [Hi _]. widget @confirm_spec. destruct s' as [v2 x2], H as [_ Hyes]. destruct a; [|by apply safe_ret]. specialize (Hyes eq_refl). cbn [negb].
  assert (E : bc_build_transition op id = Ok (mkReq op [] (trunc BB_ID_LEN id) zero_ballot [] zero_config)) by (by destruct Hop as [->|[->| ->]]). rewrite E.
  apply send_spec.
  - intros w Hw. unfold sent_ok, named. cbn [cr_op cr_election_id cr_ballot cr_hash cr_config]. rewrite !(trunc_typed BB_ID_LEN id) by apply Hi.
    rewrite Hw. cbn [fst] in Hyes. rewrite Hyes, question_fits by done. rewrite (trunc_typed BB_CERT_LEN cert) by done.
    destruct Hop as [->|[->| ->]]; by exists cert, id.
  - intros w panel a. widget @progress_step_spec. destruct s' as [w' x']. destruct (fst a); eapply safe_mono; try (apply (message_spec still c_answers good still_quiet good_quiet)); done.
Qed.

Lemma results_spec v x : usafe (v, x) screen_view_results (fun _ _ => True).
Proof.
  unfold screen_view_results. eapply safe_bind; [apply prompt_spec|]. intros [id|] [v1 x1] Hid; [|by apply safe_ret].
  destruct (Hid id eq_refl) as [Hi Ha]. eapply safe_bind; [apply (safe_act _ _ _ _ _ (fun _ _ => True)); intros; split; [|done]|].
  - exists id. split; [done|]. split; [done|]. unfold results_request. by rewrite trunc_typed by apply Hi.
  - intros a [w []] _. destruct (status_of a); eapply safe_mono; try (apply (message_spec still c_answers good still_quiet good_quiet));
      try (apply (list_view_spec still c_answers good still_quiet good_quiet)); done.
Qed.

Lemma check_spec v x : usafe (v, x) screen_check_ballot (fun _ _ => True).
Proof.
  unfold screen_check_ballot. eapply safe_bind; [apply prompt_spec|]. intros [id|] [v1 x1] Hid; [|by apply safe_ret].
  destruct (Hid id eq_refl) as [Hi _]. widget @input_spec; [unfold BB_HASH_LEN; lia|]. destruct s' as [v2 x2], H as [_ H].
  destruct a as [[|c hash]|]; try (by apply safe_ret). destruct (H _ eq_refl) as [Hh Ha].
  eapply safe_bind; [apply (safe_act _ _ _ _ _ (fun _ _ => True)); intros; split; [|done]|].
  - exists id, (c :: hash). split; [done|]. split; [done|]. split; [done|]. split; [done|]. unfold check_request. by rewrite !trunc_typed by (done || apply Hi).
  - intros a [w []] _. destruct (check_report (c :: hash) a) as [title lines].
    eapply safe_mono; [apply (message_spec still c_answers good still_quiet good_quiet)|done].
Qed.

Lemma create_request_op cert values req : create_request cert values = inl req -> cr_op req = BCL_CREATE.
Proof. unfold create_request, bc_build_create. destruct (form_config values) as [g|]; [|done]. destruct (bc_prevalidate_config g); try done. by intros [= <-]. Qed.

Lemma create_spec v x cert : cert_ok cert -> usafe (v, x) (screen_create_election cert) (fun _ _ => True).
Proof.
  intros Hc. unfold screen_create_election.
  eapply safe_bind; [apply (safe_act _ _ _ _ _ (fun a _ => Rows.no_char NUL (el_id (cp_election (snd a))))); intros; split; [done|done]|].
  intros peek [w []] Hpeek. set (id := match fst peek with BB_OK => _ | _ => _ end).
  assert (Hid : field_ok 1 id).
  { unfold id. destruct (fst peek); try (by repeat split; [cbn; lia|constructor|]). unfold trunc. split; [rewrite length_take; lia|]. split; [by apply Forall_take|done]. }
  eapply (safe_iter _ _ _ _ _ _ (fun values _ => length values = 6%nat /\ fields_ok field_ok values)).
  - split; [done|]. intros i s Hs. repeat (destruct i as [|i]; [injection Hs as <-; try exact Hid; by repeat split; [cbn; lia|repeat constructor|intros _; repeat constructor]|]). done.
  - intros values [w1 []] [Hl HF]. unfold create_body. widget @form_spec; [exact field_key|exact HF|]. destruct a as [[] vs]; [|by apply safe_ret].
    destruct s' as [w2 []], H as (_ & Hl2 & HF2 & Hacc). cbn [fst snd] in *. destruct (Hacc eq_refl) as [field Hacc']. destruct (create_request cert vs) as [req|line] eqn:Er.
    + apply send_spec.
      * intros u Hu. unfold sent_ok. rewrite (create_request_op _ _ _ Er). exists cert, field, vs. split; [done|]. split; [lia|]. split; [done|]. split; [by rewrite Hu|done].
      * intros u panel a. destruct (fst a); (eapply safe_mono; [apply report_spec|by intros ? ? ->]).
    + widget @message_spec. apply safe_ret. split; [lia|done].
Qed.

Lemma skip_spaces_typed max s : typed max s -> typed max (skip_spaces s).
Proof.
  intros [Hl Hp]. split; [|].
  - etrans; [|exact Hl]. clear. induction s as [|c s IH]; cbn [skip_spaces length]; [lia|]. destruct (ceqb c " "); cbn [length]; lia.
  - induction Hp as [|c s Hc Hp IH]; cbn [skip_spaces]; [constructor|]. cbn [length] in Hl. destruct (ceqb c " "); [apply IH; lia|by constructor].
Qed.

Lemma reverse_typed max s : typed max s -> typed max (reverse s).
Proof. intros [Hl Hp]. split; [by rewrite length_reverse|by apply Forall_reverse]. Qed.

Lemma trim_typed max s : typed max s -> typed max (trim_inplace s).
Proof. unfold trim_inplace. auto using skip_spaces_typed, reverse_typed. Qed.

Lemma login_spec v x path : usafe (v, x) (screen_login path) (fun r _ => forall cert, r = Some cert -> cert_ok cert /\ cert <> []).
Proof.
  eapply (safe_iter _ _ _ _ _ _ (fun _ _ => True)); [done|]. intros [] [v1 []] _. unfold login_body. widget @input_spec; [unfold BB_CERT_LEN; lia|].
  destruct s' as [v2 []], H as [_ H]. destruct a as [name|]; [|by apply safe_ret]. destruct (H _ eq_refl) as [Hn _].
  pose proof (trim_typed _ _ Hn) as Ht. destruct (trim_inplace name) as [|c rest] eqn:Et; [by apply safe_ret|].
  widget @progress_begin_spec. destruct s' as [v3 []]. eapply safe_bind; [apply (safe_act _ _ _ _ _ (fun _ _ => True)); done|]. intros reach [v4 []] _.
  widget @progress_step_spec. destruct s' as [v5 []]. destruct reach; cbn [negb].
  - eapply safe_bind; [apply (safe_act _ _ _ _ _ (fun _ _ => True)); done|]. intros _ [v6 []] _. widget @set_status_spec. apply safe_ret.
    intros cert [= <-]. rewrite trunc_typed by done. done.
  - widget @message_spec. by apply safe_ret.
Qed.

Lemma choose_spec v x cert sel : cert_ok cert -> usafe (v, x) (choose cert sel) (fun _ _ => True).
Proof.
  intros Hc. assert (T : forall op title, op = BCL_OPEN \/ op = BCL_CLOSE \/ op = BCL_PUBLISH -> usafe (v, x) (transition op (verb_of op) title cert) (fun _ _ => True))
    by (intros; by apply transition_spec).
  unfold choose. destruct sel as [|p|p]; [by apply create_spec| |by apply safe_ret].
  do 3 (try destruct p as [p|p|]); try (by apply safe_ret); try apply results_spec; try apply check_spec;
    [apply (T BCL_PUBLISH)|apply (T BCL_CLOSE)|apply (T BCL_OPEN)]; auto.
Qed.

Lemma main_spec v x path : usafe (v, x) (main path) (fun _ _ => True).
Proof.
  unfold main. widget @set_status_spec. destruct s' as [v1 []]. eapply safe_bind; [apply login_spec|]. intros [cert|] [v2 []] Hc; [|by apply safe_ret].
  destruct (Hc cert eq_refl) as [Hcert _]. eapply (safe_iter _ _ _ _ _ _ (fun _ _ => True)); [done|]. intros [] [v3 []] _. unfold menu_loop.
  widget @menu_spec. destruct s' as [v4 []]. destruct (_ || _); [by apply safe_ret|].
  eapply safe_bind; [by apply choose_spec|]. intros _ [v5 []] _. by apply safe_ret.
Qed.

(** ** It can be delivered *)

Definition pr (s : cstr) : Prop := Forall (fun c => printable c = true) s.

Lemma typed_trunc n s : (0 < n)%nat -> pr s -> typed (n - 1) (trunc n s).
Proof. intros Hn Hs. split; [unfold trunc; rewrite length_take; lia|by apply Forall_take]. Qed.

Lemma typed_held n s : (0 < n)%nat -> typed (n - 1) s -> Delivery.held n s.
Proof. intros Hn Hs. split; [destruct Hs; lia|by eapply typed_no_nul]. Qed.

Lemma typed_oneline n s : typed n s -> CodecLogic.oneline s.
Proof. intros [_ Hs]. eapply Forall_impl; [exact Hs|]. intros c Hc. split; by apply (printable_not c). Qed.

Lemma typed_pr n s : typed n s -> pr s.
Proof. by intros []. Qed.

Lemma typed_field n s : typed n s -> valid_field s true = true.
Proof.
  intros [_ Hs]. unfold valid_field. apply forallb_forall. intros c Hc.
  rewrite Forall_forall in Hs. specialize (Hs c (proj2 (list_elem_of_In _ _) Hc)). unfold printable in Hs. apply andb_true_iff in Hs as [H1 H2].
  destruct (Z.eqb_spec (code c) 32) as [E|E].
  - assert (c = SP) as -> by (apply code_inj; by rewrite E). by rewrite orb_true_r.
  - apply orb_true_iff. left. apply andb_true_iff. split; apply Z.leb_le; lia.
Qed.

Lemma tokens_pr s cur : pr s -> pr cur -> Forall pr (tokens s cur).
Proof.
  intros Hs. revert cur. induction Hs as [|c s Hc _ IH]; intros cur Hcur; cbn [tokens]; [destruct cur; [constructor|by constructor; [|constructor]]|].
  destruct (ceqb c ","); [destruct cur; [apply IH; constructor|constructor; [done|apply IH; constructor]]|].
  apply IH. apply Forall_app. split; [done|by repeat constructor].
Qed.

Lemma split_csv_typed src max : pr src -> Forall (typed (BB_OPTION_LEN - 1)) (split_csv src max) /\ (length (split_csv src max) <= max)%nat.
Proof.
  intros Hs. unfold split_csv. split; [|rewrite length_map, length_take; lia]. apply Forall_fmap, Forall_take.
  eapply Forall_impl; [apply tokens_pr; [by apply Forall_take|constructor]|]. intros t Ht. apply (typed_trunc BB_OPTION_LEN (trim_inplace t)); [unfold BB_OPTION_LEN; lia|].
  eapply typed_pr. apply (trim_typed (length t)). by split.
Qed.

Lemma fold_char_pr c : user_name_char_ok c = true -> printable (fold_char c) = true.
Proof. by destruct c as [[] [] [] [] [] [] [] []]. Qed.

Lemma fold_names_typed out folded : fold_names out = (folded, None) -> Forall (typed (BB_CERT_LEN - 1)) folded /\ length folded = length out.
Proof.
  revert folded. induction out as [|n out IH]; intros folded; cbn [fold_names]; [by intros [= <-]|].
  destruct (user_name_ok n) eqn:En; [|done]. unfold user_name_fold. rewrite En. cbn [negb orb]. destruct (_ <? _)%nat; [done|].
  destruct (fold_names out) as [rest bad]. intros [= <- ->]. destruct (IH rest eq_refl) as [HF Hl]. cbn [orb length]. split; [|by rewrite Hl].
  constructor; [|done]. apply typed_trunc; [unfold BB_CERT_LEN; lia|]. unfold user_name_ok in En. apply andb_true_iff in En as [_ En].
  apply Forall_fmap.
  rewrite forallb_forall in En. apply Forall_forall. intros c Hc. apply fold_char_pr, En. by apply list_elem_of_In.
Qed.

Lemma drop_dups_typed kept out : Forall (typed (BB_CERT_LEN - 1)) kept -> Forall (typed (BB_CERT_LEN - 1)) out ->
  Forall (typed (BB_CERT_LEN - 1)) (drop_dups kept out) /\ (length (drop_dups kept out) <= length kept + length out)%nat.
Proof.
  intros Hk Ho. revert kept Hk. induction Ho as [|n out Hn _ IH]; intros kept Hk; cbn [drop_dups]; [split; [done|cbn; lia]|].
  destruct (existsb _ kept).
  - destruct (IH kept Hk). split; [done|cbn [length]; lia].
  - destruct (IH (kept ++ [trunc BB_CERT_LEN n])) as [H1 H2]; [apply Forall_app; split; [done|constructor; [by rewrite trunc_typed|constructor]]|].
    split; [done|]. rewrite length_app in H2. cbn [length] in *. lia.
Qed.

Lemma value_pr values i : fields_ok field_ok values -> i <> 1%nat -> pr (value values i).
Proof.
  intros HF Hi. unfold value. rewrite nth_lookup. destruct (values !! i) as [s|] eqn:E; [|constructor]. destruct (HF i s E) as (_ & _ & Hp). by apply Hp.
Qed.

Lemma entries_pad {A} n (x : A) l : entries (Z.of_nat (length l)) (CodecLogic.pad n x l) = l.
Proof. unfold entries, CodecLogic.pad. rewrite Nat2Z.id. by rewrite take_app_length. Qed.

Lemma pad_held n m l : (0 < m)%nat -> Forall (typed (m - 1)) l -> Forall (Delivery.held m) (CodecLogic.pad n [] l).
Proof.
  intros Hm HF. apply Forall_app. split; [eapply Forall_impl; [exact HF|]; intros; by apply typed_held|].
  apply Forall_replicate. split; [cbn; lia|constructor].
Qed.

(** Every text of the configuration. *)
Definition config_lines (g : bb_config_t) : list cstr :=
  [cfg_title g; cfg_open_time g; cfg_close_time g] ++ entries (cfg_option_count g) (cfg_options g) ++ entries (cfg_eligible_count g) (cfg_eligible g).

Lemma form_config_typed values g : fields_ok field_ok values -> form_config values = inl g ->
  Delivery.config_shaped g /\ Forall CodecLogic.oneline (config_lines g).
Proof.
  intros HF. unfold form_config. destruct (bc_fold_eligible _) as [el|] eqn:Ee; [|done]. intros [= <-].
  assert (V : forall i n, i <> 1%nat -> (0 < n)%nat -> typed (n - 1) (trunc n (value values i))) by (intros; apply typed_trunc; [done|by apply value_pr]).
  destruct (split_csv_typed (value values 2) BB_MAX_OPTIONS) as [Ho Hol]; [by apply value_pr|].
  destruct (split_csv_typed (value values 3) BB_MAX_VOTERS) as [_ Hvl]; [by apply value_pr|].
  assert (Hel : Forall (typed (BB_CERT_LEN - 1)) el /\ (length el <= BB_MAX_VOTERS)%nat).
  { unfold bc_fold_eligible in Ee. destruct (fold_names _) as [f []] eqn:Ef; [done|]. injection Ee as <-. apply fold_names_typed in Ef as [HF1 HF2].
    destruct (drop_dups_typed [] f ltac:(constructor) HF1). split; [done|]. cbn [length] in *. lia. }
  destruct Hel as [He Hell]. assert (T : typed (BB_TITLE_LEN - 1) (trunc BB_TITLE_LEN (value values 0))) by (by apply V; [|unfold BB_TITLE_LEN; lia]).
  assert (T4 : typed (BB_TIME_LEN - 1) (trunc BB_TIME_LEN (value values 4))) by (by apply V; [|unfold BB_TIME_LEN; lia]).
  assert (T5 : typed (BB_TIME_LEN - 1) (trunc BB_TIME_LEN (value values 5))) by (by apply V; [|unfold BB_TIME_LEN; lia]).
  split.
  - split; cbn -[BB_TITLE_LEN BB_TIME_LEN BB_OPTION_LEN BB_CERT_LEN BB_MAX_OPTIONS BB_MAX_VOTERS trunc split_csv CodecLogic.pad];
      try (apply typed_held; [unfold BB_TITLE_LEN, BB_TIME_LEN; lia|done]);
      (split; [by apply CodecLogic.pad_length|]; split; [lia|]; apply pad_held; [unfold BB_OPTION_LEN, BB_CERT_LEN; lia|done]).
  - unfold config_lines. cbn [cfg_title cfg_open_time cfg_close_time cfg_options cfg_option_count cfg_eligible cfg_eligible_count]. rewrite !entries_pad.
    repeat (apply Forall_app; split); [repeat (constructor; [by eapply typed_oneline|]); constructor|..]; (eapply Forall_impl; [eassumption|]; intros; by eapply typed_oneline).
Qed.

(** An id the request line can carry. *)
Definition sane_id (id : cstr) : Prop := Rows.no_char "/" id /\ valid_field id false = true.

Lemma sane_oneline id : valid_field id false = true -> CodecLogic.oneline id.
Proof. intros H. unfold valid_field in H. rewrite forallb_forall in H. apply Forall_forall. intros c Hc. specialize (H c (proj1 (list_elem_of_In _ _) Hc)). by split; intros ->. Qed.

Lemma path_field a b c : valid_field a false = true -> valid_field b false = true -> valid_field c false = true -> valid_field (a ++ b ++ c) false = true.
Proof. unfold valid_field. rewrite !forallb_app. by intros -> -> ->. Qed.

(** A request with no more than an id, a name and a hash. *)
Definition plain_op (op : bcl_op_t) : bool := match op with BCL_CREATE | BCL_CAST | BCL_UPDATE | BCL_ADMIN_NEXT_ID => false | _ => true end.
Definition check_op (op : bcl_op_t) : bool := match op with BCL_CHECK | BCL_ADMIN_CHECK => true | _ => false end.

Lemma plain_deliverable op cert id hash : plain_op op = true ->
  typed (BB_CERT_LEN - 1) cert -> id_ok id -> typed (BB_HASH_LEN - 1) hash -> (check_op op = true -> hash <> []) -> sane_id id ->
  Delivery.shaped (mkReq op cert id zero_ballot hash zero_config) /\ Delivery.clean (mkReq op cert id zero_ballot hash zero_config).
Proof.
  intros Hop Hc [Hi Hne] Hh Hhne [Hs Hv]. split.
  - split; cbn -[BB_CERT_LEN BB_ID_LEN BB_HASH_LEN]; try (apply typed_held; [unfold BB_CERT_LEN, BB_ID_LEN; lia|done]); try done.
    + by intros ->.
    + by intros [->| ->].
    + intros E. split; [apply typed_held; [unfold BB_HASH_LEN; lia|done]|]. apply Hhne. by destruct E as [->| ->].
  - split; [|split].
    + unfold Delivery.request_kvs. cbn [cr_op cr_hash]. apply typed_oneline in Hh. destruct op; try done; try apply Forall_nil_2; (apply Forall_cons_2; [exact Hh|apply Forall_nil_2]).
    + unfold Delivery.request_path. cbn [cr_op cr_election_id].
      assert (P0 : valid_field ($"/election/" ++ id) false = true) by (rewrite <-(app_nil_r id); by apply path_field).
      destruct op; try done; try exact P0; by apply path_field.
    + cbn. by eapply typed_field.
Qed.

Lemma create_deliverable cert values req : cert_ok cert -> fields_ok field_ok values -> create_request cert values = inl req -> sane_id (cr_election_id req) ->
  Delivery.shaped req /\ Delivery.clean req.
Proof.
  intros Hc HF. unfold create_request. destruct (form_config values) as [g|] eqn:Eg; [|done]. unfold bc_build_create. destruct (bc_prevalidate_config g); try done.
  intros [= <-]. unfold named. cbn [cr_op cr_cert_name cr_election_id cr_ballot cr_hash cr_config]. intros [_ Hv]. rewrite (trunc_typed BB_CERT_LEN cert) by done.
  destruct (form_config_typed _ _ HF Eg) as [Hg HL].
  assert (Hid : Delivery.held BB_ID_LEN (trunc BB_ID_LEN (value values 1))).
  { split; [apply trunc_length; unfold BB_ID_LEN; lia|]. apply Forall_take. unfold value. rewrite nth_lookup. destruct (values !! 1%nat) as [s|] eqn:E; [|constructor]. apply (HF _ _ E). }
  split.
  - split; cbn -[BB_CERT_LEN BB_ID_LEN trunc]; try done; [apply typed_held; [unfold BB_CERT_LEN; lia|done]|..]; intros [|]; done.
  - split; [|split; [done|by eapply typed_field]]. unfold Delivery.request_kvs, config_lines in *. cbn -[BB_ID_LEN trunc].
    rewrite !Forall_app in HL. destruct HL as (HL & Ho & He). inversion HL as [|? ? H1 HL1]; subst. inversion HL1 as [|? ? H2 HL2]; subst. inversion HL2 as [|? ? H3 _]; subst.
    apply sane_oneline in Hv. apply Forall_app. split; [destruct (trunc BB_ID_LEN (value values 1)); [apply Forall_nil_2|apply Forall_cons_2; [exact Hv|apply Forall_nil_2]]|].
    do 3 (apply Forall_cons_2; [done|]). apply Forall_app. split; by apply Forall_fmap.
Qed.

Lemma nil_held n : (0 < n)%nat -> Delivery.held n [].
Proof. intros Hn. split; [done|constructor]. Qed.
Lemma no_hash : typed (BB_HASH_LEN - 1) [].
Proof. split; [cbn; lia|constructor]. Qed.
Lemma no_cert : typed (BB_CERT_LEN - 1) [].
Proof. split; [cbn; lia|constructor]. Qed.

Lemma sent_deliverable v req : sent_ok v req -> sane_id (cr_election_id req) -> Delivery.shaped req /\ Delivery.clean req.
Proof.
  unfold sent_ok. intros Hs Hid. destruct (cr_op req) eqn:Eop; try done.
  - destruct Hs as (cert & field & values & Hc & _ & HF & _ & Hr). by eapply create_deliverable.
  - destruct Hs as (cert & id & Hc & Hi & _ & ->). apply plain_deliverable; auto using no_hash; done.
  - destruct Hs as (cert & id & Hc & Hi & _ & ->). apply plain_deliverable; auto using no_hash; done.
  - destruct Hs as (cert & id & Hc & Hi & _ & ->). apply plain_deliverable; auto using no_hash; done.
  - destruct Hs as (id & Hi & _ & ->). apply plain_deliverable; auto using no_hash, no_cert; done.
  - destruct Hs as (id & hash & Hi & Hh & Hne & _ & ->). apply plain_deliverable; auto 6 using no_cert.
  - subst req. split; [|split; [apply Forall_nil_2|done]].
    split; try done; try (by intros [|]); apply nil_held; unfold BB_CERT_LEN, BB_ID_LEN; cbn; lia.
Qed.

Definition start : view * unit := (mkView [] [], tt).

(** C37: the administrator gets what the screen showed.  Whatever keys are pressed
    and whatever the daemon answers, every request ballotctl sends is an admin
    request, made of what was on the screen when Enter was last pressed: the
    question with Yes highlighted, the filled-in form, or the input line.  If
    the request line can carry its id, the daemon decodes exactly that
    request. *)
Theorem admin_sends_what_was_shown path n tr o tr1 req ans tr2 :
  run n (main path) tr o -> along (upd still) c_answers start tr -> tr = tr1 ++ Act (Send req) ans :: tr2 ->
  sent_ok (fst (after (upd still) start tr1)) req /\
  (sane_id (cr_election_id req) -> exists out http,
     bcl_encode_request req Daemon.CTL_MAX_FRAME = Some out /\ htttp_parse_request out = HOk http /\ bcl_decode_request http = Some (Delivery.wire_view req)).
Proof.
  intros H HT ->. destruct (main_spec _ _ _ _ _ _ H HT) as [Hg _]. apply along_at in Hg. split; [exact Hg|]. intros Hid.
  destruct (sent_deliverable _ _ Hg Hid) as [Hs Hc]. destruct (Delivery.encode_shaped req Daemon.CTL_MAX_FRAME Hs) as [He _].
  { unfold Delivery.MESSAGE_MAX, Daemon.CTL_MAX_FRAME. lia. }
  destruct (Delivery.request_arrives req Hs Hc) as (http & Hp & Hd).
  exists (request_text (Delivery.request_http req)), http. auto.
Qed.

(** root opens E-1 and quits. *)
Definition opening : list key :=
  typing ($"root") ++ [KEY_DOWN; Byte LF] ++ typing ($"E-1") ++ [Byte LF; Byte "x"; Byte "q"].
Definition yes_man (req : bcl_request_t) : bb_result_t * bcl_response_t := (BB_OK, zero_resp).
Definition opening_run : nat * list act * option unit * user := drive at_keys 400 (main None) (mkUser opening yes_man).
Definition opening_trace : list act := snd (fst (fst opening_run)).
Definition is_send (a : act) : option bcl_request_t := match a with Act e _ => match e with Send req => Some req | _ => None end end.

(** It sends one request and ends. *)
Example opening_sends : snd (fst opening_run) = Some tt /\ omap is_send opening_trace = [mkReq BCL_OPEN ($"root") ($"E-1") zero_ballot [] zero_config].
Proof. split; vm_compute; reflexivity. Qed.

Definition open_e1 : bcl_request_t := mkReq BCL_OPEN ($"root") ($"E-1") zero_ballot [] zero_config.
Lemma opening_split : opening_trace = take 37 opening_trace ++ Act (Send open_e1) (yes_man open_e1) :: drop 38 opening_trace.
Proof. vm_compute. reflexivity. Qed.
Lemma opening_answers : along (upd still) c_answers start opening_trace.
Proof. vm_compute. repeat split; constructor. Qed.

Example admin_sends_what_was_shown_witness :
  sent_ok (fst (after (upd still) start (take 37 opening_trace))) open_e1 /\
  exists out http, bcl_encode_request open_e1 Daemon.CTL_MAX_FRAME = Some out /\ htttp_parse_request out = HOk http /\
    bcl_decode_request http = Some (Delivery.wire_view open_e1).
Proof.
  destruct (admin_sends_what_was_shown None _ opening_trace _ (take 37 opening_trace) open_e1 (yes_man open_e1) (drop 38 opening_trace)
    (drive_runs at_keys 400 (main None) (mkUser opening yes_man)) opening_answers opening_split) as [H1 H2].
  split; [exact H1|]. apply H2. split; [by repeat constructor|vm_compute; reflexivity].
Defined.

(** An id with a blank is accepted on create, but no later request can carry
    it: the election stays in Draft, and the user is told that ballotd cannot
    be reached. *)
Definition blank_form : list cstr := [$"Title"; $"a b"; $"x,y"; []; $"2026-01-01T09:00:00Z"; $"2026-01-08T09:00:00Z"].
Example blank_id_is_a_dead_end : exists req, create_request ($"root") blank_form = inl req /\ cr_election_id req = $"a b" /\
  bcl_encode_request req Daemon.CTL_MAX_FRAME <> None /\
  bcl_encode_request (mkReq BCL_OPEN ($"root") ($"a b") zero_ballot [] zero_config) Daemon.CTL_MAX_FRAME = None.
Proof. eexists. split; [vm_compute; reflexivity|]. split; [reflexivity|]. split; [vm_compute; discriminate|vm_compute; reflexivity]. Qed.

End Ballotctl.
