(* ===== verification/Ballotu.v ===== *)
(** * The voter's client: ballotu/ballotu.c

    Connecting, logging in, joining and voting, as screens over the widgets of
    Tetrisui.v, the session flows of Client.v and the transport's events.  The
    theorems are about every run, whatever keys are pressed and whatever the
    daemon answers. *)
From ITree Require Import ITree.
From S2P Require Import Prelude CText Types Rows Htttp Codec CodecLogic Delivery Answers BrainDb Brain Daemon Client Accounts Tetrissh Transport Dialog Tetrisui Ballotctl.
Import Dialog.
Local Open Scope dialog_scope.

Module Ballotu.
Import Htttp Codec Client Transport Tetrisui.

Definition DEFAULT_HOST : cstr := $"127.0.0.1".
Definition DEFAULT_PORT : Z := 7676.
Definition DEFAULT_CA_PATH : cstr := $"auth/cacsertificate.crt".
Definition HOST_BUF : nat := 64.
Definition WHERE_BUF : nat := 40.

Definition result_text (rc : bb_result_t) : cstr :=
  match rc with
  | BB_OK => $"OK"
  | BB_ERR_NOT_OPEN => $"The election is not open."
  | BB_ERR_CLOSED => $"Election closed mid-submit. Rejected by System."
  | BB_ERR_NOT_ELIGIBLE => $"Your cert is not on the eligible-voter list."
  | BB_ERR_CERT_INVALID => $"Cert rejected."
  | BB_ERR_CERT_EXPIRED => $"Cert expired or forged."
  | BB_ERR_REPLAY => $"That ballot was already submitted (replay)."
  | BB_ERR_BAD_OPTION => $"Selected option was out of range."
  | BB_ERR_DECRYPT => $"Ballot could not be decrypted."
  | BB_ERR_NOT_PUBLISHED => $"Results not available."
  | BB_ERR_NOT_FOUND => $"Not found."
  | BB_ERR_NOT_IMPLEMENTED => $"The backend storage is not wired up yet - try again once it is."
  | BB_ERR_DB => $"Could not reach ballotd."
  | _ => $"Rejected by System."
  end.

Inductive bu_screen_t := BU_SCREEN_OK | BU_SCREEN_QUIT | BU_SCREEN_DISCONNECTED.

Definition still_live : prog bu_screen_t :=
  let! live := act_ Connected in ret (if live then BU_SCREEN_OK else BU_SCREEN_DISCONNECTED).

Definition say (title line : cstr) : prog unit := tetrisui_message title [line].
Definition say2 (title first second : cstr) : prog unit := tetrisui_message title [first; second].

(** ** What may be typed *)

Definition id_char (c : ascii) : bool :=
  (((97 <=? code c) && (code c <=? 122)) || ((65 <=? code c) && (code c <=? 90)) ||
   ((48 <=? code c) && (code c <=? 57)) || ceqb c "-" || ceqb c "_")%Z.
Definition election_id_ok (s : cstr) : bool :=
  if (length s =? 0)%nat || (BB_ID_LEN <=? length s)%nat then false else forallb id_char s.

Definition lower_hex (c : ascii) : ascii := if ((65 <=? code c) && (code c <=? 70))%Z then ascii_of_N (Z.to_N (code c - 65 + 97)) else c.
Definition is_hex (c : ascii) : bool := (((48 <=? code c) && (code c <=? 57)) || ((97 <=? code c) && (code c <=? 102)))%Z.

(** The text folded in place, when it is a receipt hash. *)
Definition receipt_hash_ok (s : cstr) : option cstr :=
  if negb (length s =? BB_HASH_LEN - 1)%nat then None
  else let s := map lower_hex s in if forallb is_hex s then Some s else None.

Definition port_ok (s : cstr) : option Z :=
  match s with
  | [] => None
  | _ => let '(v, rest) := strtol s in
         match rest with [] => if ((v <? 1) || (65535 <? v))%Z then None else Some v | _ => None end
  end.

Definition ask_id_body (title prompt : cstr) (_ : unit) : prog (unit + option cstr) :=
  let! r := tetrisui_input title prompt BB_ID_LEN in
  match r with
  | None => ret (inr None)
  | Some [] => ret (inl tt)
  | Some id =>
    if negb (election_id_ok id) then
      say2 ($"Invalid election ID") ($"Use letters, digits, '-' or '_' only (e.g. E-100),") ($"up to 15 characters.") ;! ret (inl tt)
    else ret (inr (Some id))
  end.
Definition ask_election_id (title prompt : cstr) : prog (option cstr) := ITree.iter (ask_id_body title prompt) tt.

Definition ask_hash_body (title : cstr) (_ : unit) : prog (unit + option cstr) :=
  let! r := tetrisui_input title ($"Enter your receipt hash:") BB_HASH_LEN in
  match r with
  | None => ret (inr None)
  | Some [] => ret (inl tt)
  | Some typed_hash =>
    match receipt_hash_ok typed_hash with
    | None =>
      say2 ($"Invalid receipt hash") ($"A receipt is exactly 64 hexadecimal characters -") ($"the hash shown when the ballot was cast.") ;! ret (inl tt)
    | Some hash => ret (inr (Some hash))
    end
  end.
Definition ask_receipt_hash (title : cstr) : prog (option cstr) := ITree.iter (ask_hash_body title) tt.

(** ** Logging in *)

Definition AUTH_PASS_MIN : nat := 8.
Definition AUTH_PASS_MAX : nat := 128.

(** What the form holds, its error line and the field in focus. *)
Record form_state := mkForm { fm_values : list cstr; fm_error : option cstr; fm_start : nat }.

Definition no_session (cert : cstr) : bu_session_t := mkSession cert 0 [] 0 0 [] [] [] 0.

(** What is wrong with a filled-in form, or the folded name. *)
Definition check_credentials (registering : bool) (values : list cstr) : (cstr * nat) + cstr :=
  let user := nth 0 values [] in
  let pass := nth 1 values [] in
  match (if user_name_ok user then user_name_fold Accounts.MAX_USER_NAME user else None) with
  | None => inl ($"Username must be 1-15 characters: letters, digits, _ or -.", 0%nat)
  | Some folded =>
    if (length pass =? 0)%nat then inl ($"Password is required.", 1%nat)
    else if registering && ((length pass <? AUTH_PASS_MIN)%nat || (AUTH_PASS_MAX <? length pass)%nat)
    then inl ($"Password must be 8-128 characters.", 1%nat)
    else inr folded
  end.

(** What a status other than 200 puts on the form. *)
Definition auth_error (status : Z) : cstr * nat :=
  match status with
  | 400 => ($"Rejected: malformed request.", 0%nat)
  | 401 => ($"Incorrect password.", 1%nat)
  | 404 => ($"No account with that username. Register instead?", 0%nat)
  | 409 => ($"That username is already taken - pick another.", 0%nat)
  | _ => ($"Could not reach the account service - try again shortly.", 0%nat)
  end%Z.

Definition again (values : list cstr) (e : cstr * nat) : form_state := mkForm values (Some (fst e)) (snd e).

Definition credential_labels : list cstr := [$"Username"; $"Password"].
Definition PASSWORD_MASK : Z := 2.

Definition credential_body (registering : bool) (where_ : cstr) (f : form_state) : prog (form_state + option bu_session_t) :=
  let! r := tetrisui_form_ex (if registering then $"Register" else $"Log in") credential_labels (fm_values f) PASSWORD_MASK (fm_error f) (fm_start f) in
  match r with
  | (false, _) => ret (inr None)
  | (true, values) =>
    match check_credentials registering values with
    | inl e => ret (inl (again values e))
    | inr folded =>
      let! panel := progress_begin ($"Contacting ballotd") [if registering then $"Registering" else $"Logging in"] in
      let! a := act_ (Auth (if registering then $"REGISTER" else $"LOGIN") folded (nth 1 values [])) in
      progress_step panel 0 ((fst a =? 0) && (snd a =? 200))%Z ;!
      let values := <[1%nat := []]> values in
      if negb (fst a =? 0)%Z then ret (inl (again values ($"Could not reach ballotd.", 0%nat)))
      else if (snd a =? 200)%Z then
        tetrisui_set_status ($"ballotu") folded where_ ;! ret (inr (Some (no_session (trunc BB_CERT_LEN folded))))
      else ret (inl (again values (auth_error (snd a))))
    end
  end.
Definition screen_credential_flow (registering : bool) (where_ : cstr) : prog (option bu_session_t) :=
  ITree.iter (credential_body registering where_) (mkForm [[]; []] None 0).

Definition auth_body (where_ : cstr) (_ : unit) : prog (unit + option bu_session_t) :=
  let! sel := tetrisui_menu ($"ballotu - login") [$"Log in"; $"Register"] 2 in
  if (sel <? 0)%Z then ret (inr None)
  else let! r := screen_credential_flow (sel =? 1)%Z where_ in
       ret (match r with Some s => inr (Some s) | None => inl tt end).
Definition screen_auth (where_ : cstr) : prog (option bu_session_t) := ITree.iter (auth_body where_) tt.

(** ** Connecting *)

Definition conn_text (why : bcl_conn_t) : cstr :=
  match why with
  | BCL_CONN_ERR_ADDRESS => $"That is not a dotted-quad IPv4 address (e.g. 127.0.0.1)."
  | BCL_CONN_ERR_REFUSED => $"No route to that address, or nothing is listening on that port."
  | BCL_CONN_ERR_CERT => $"Reached a server, but its certificate failed CA verification."
  | BCL_CONN_ERR_IO => $"Reached a server, which then closed the connection mid-handshake."
  | BCL_CONN_ERR_PROTO => $"Reached a server, but the secure handshake failed."
  | _ => $"Could not open a socket on this machine."
  end.

(** [g_host] and [g_port]. *)
Record address := mkAddress { ad_host : cstr; ad_port : Z }.
Definition where_text (a : address) : cstr := trunc WHERE_BUF (ad_host a ++ $":" ++ print_int (ad_port a)).

Definition connect_body (ca : cstr) (f : form_state) : prog (form_state + option address) :=
  let! r := tetrisui_form_ex ($"ballotu - connect") [$"Server IP"; $"Port"] (fm_values f) 0 (fm_error f) (fm_start f) in
  match r with
  | (false, _) => ret (inr None)
  | (true, values) =>
    let host_buf := trunc HOST_BUF (nth 0 values []) in
    let port_buf := trunc 16 (nth 1 values []) in
    match port_ok port_buf with
    | None => ret (inl (again [host_buf; port_buf] ($"Port must be a number between 1 and 65535.", 1%nat)))
    | Some port =>
      let! panel := progress_begin ($"Connecting") [$"Opening TCP connection"; $"tetrissh handshake (verifying server cert)"] in
      let! a := act_ (Connect host_buf port ca) in
      let up := bool_decide (fst a = BB_OK) in
      let tcp_up := up || match snd a with BCL_CONN_ERR_CERT | BCL_CONN_ERR_IO | BCL_CONN_ERR_PROTO => true | _ => false end in
      progress_step panel 0 tcp_up ;!
      (if tcp_up then progress_step panel 1 up else ret tt) ;!
      if negb up then ret (inl (again [host_buf; port_buf] (conn_text (snd a), 0%nat)))
      else let ad := mkAddress (trunc HOST_BUF host_buf) port in
           tetrisui_set_status ($"ballotu") ($"(not logged in)") (where_text ad) ;! ret (inr (Some ad))
    end
  end.
Definition screen_connect (ca : cstr) (ad : address) : prog (option address) :=
  ITree.iter (connect_body ca) (mkForm [trunc HOST_BUF (ad_host ad); trunc 16 (print_int (ad_port ad))] None 0).

(** ** Casting *)

(** [%08lx] and [%08x]. *)
Fixpoint hex_digits (fuel : nat) (z : Z) (acc : cstr) : cstr :=
  match fuel with
  | O => acc
  | S f => let acc := Brain.hex_digit (z mod 16) :: acc in if (z / 16 =? 0)%Z then acc else hex_digits f (z / 16) acc
  end.
Definition hex8 (z : Z) : cstr := let t := hex_digits 16 z [] in replicate (8 - length t) "0"%char ++ t.
Definition make_nonce (now rnd : Z) : cstr := trunc BB_NONCE_LEN (hex8 (now mod 2 ^ 64) ++ hex8 (rnd mod 2 ^ 32)).

Definition vote_question (option : cstr) : cstr := trunc 96 ($"Confirm vote for '" ++ option ++ $"'?").

(** The request [bu_submit_vote] sends, when it gets that far. *)
Definition submit_request (s : bu_session_t) (sel : Z) (nonce : cstr) : option bcl_request_t :=
  match bu_route_vote s with
  | BU_MUST_JOIN => None
  | _ => match bu_encrypt_ballot sel nonce with Ok b => Some (vote_request s b) | Err _ => None end
  end.
Definition submit_vote (s : bu_session_t) (sel : Z) (nonce : cstr) : prog (bb_result_t * bu_session_t * option bb_receipt_t) :=
  match submit_request s sel nonce with
  | None => ret (bu_submit_vote (fun _ => (BB_ERR_DB, zero_resp)) s sel nonce)
  | Some req => let! a := act_ (Send req) in ret (bu_submit_vote (fun _ => a) s sel nonce)
  end.

(** From the choice of an option to the receipt. *)
Definition cast_ballot (is_update : bool) (s : bu_session_t) : prog (bu_screen_t * bu_session_t) :=
  let items := take (Z.to_nat (us_option_count s)) (us_options s) in
  let title := if is_update then trunc 96 ($"Update vote (prior ballot v" ++ print_int (us_ballot_version s) ++ $" exists)")
               else trunc 96 ($"Cast vote: " ++ us_title s) in
  let! sel := tetrisui_menu title items (us_option_count s) in
  if (sel <? 0)%Z then ret (BU_SCREEN_OK, s)
  else
    let! yes := tetrisui_confirm ($"Confirm ballot") (vote_question (nth (Z.to_nat sel) (us_options s) [])) in
    if negb yes then ret (BU_SCREEN_OK, s)
    else
      let! d := act_ Draws in
      let nonce := make_nonce (fst d) (snd d) in
      let! panel := progress_begin (if is_update then $"Submitting updated ballot" else $"Submitting ballot") [$"Encrypting ballot and submitting"] in
      let! r := submit_vote s sel nonce in
      let '(rc, s, receipt) := r in
      progress_step panel 0 (bool_decide (rc = BB_OK)) ;!
      match rc with
      | BB_OK =>
        tetrisui_message ($"Success")
          [if is_update then $"Vote updated. New receipt issued:" else $"Vote recorded. Receipt issued:";
           match receipt with Some x => rc_hash x | None => [] end; $"Keep this hash to check your vote later (UC-6)."] ;! ret (BU_SCREEN_OK, s)
      | _ => say ($"Vote rejected") (result_text rc) ;! let! live := still_live in ret (live, s)
      end.

Definition cast_common (is_update : bool) (s : bu_session_t) : prog (bu_screen_t * bu_session_t) :=
  if (us_joined s =? 0)%Z then say ($"Not joined") ($"You must join an election first (UC-2).") ;! ret (BU_SCREEN_OK, s)
  else match is_update, bu_route_vote s with
  | true, BU_CAST => say2 ($"Nothing to update") ($"You have no prior ballot yet.") ($"Routing you to Cast Vote (UC-3).") ;! cast_ballot false s
  | false, BU_UPDATE => say2 ($"Already voted") ($"You already have a final ballot.") ($"Routing you to Update Vote (UC-4).") ;! cast_ballot true s
  | _, _ => cast_ballot is_update s
  end.

(** ** Joining *)

Definition joined_lines (s : bu_session_t) : list cstr :=
  [trunc 96 ($"Joined " ++ us_election_id s ++ $": " ++ us_title s); $"Ballot options:"] ++
  map (fun i => trunc 96 ($"  " ++ print_int (Z.of_nat i + 1) ++ $") " ++ nth i (us_options s) [])) (seq 0 (Z.to_nat (us_option_count s))).

Definition screen_join_election (s : bu_session_t) : prog (bu_screen_t * bu_session_t) :=
  let! r := ask_election_id ($"Join election (UC-2)") ($"Enter election ID (e.g. E-100):") in
  match r with
  | None => ret (BU_SCREEN_OK, s)
  | Some id =>
    let! panel := progress_begin ($"Joining election") [$"Contacting ballotd"] in
    let! a := act_ (Send (join_request id (us_cert_name s))) in
    let '(outcome, s) := bu_join (fun _ => a) s id (us_cert_name s) in
    progress_step panel 0 (match outcome with BU_JOIN_TIMEOUT => false | _ => true end) ;!
    match outcome with
    | BU_JOIN_TIMEOUT =>
      say2 ($"Join failed") ($"Could not reach the election.") (result_text BB_ERR_NOT_IMPLEMENTED) ;! let! live := still_live in ret (live, s)
    | BU_JOIN_NOT_FOUND => say ($"Join failed") (trunc 64 ($"Election '" ++ id ++ $"' not found.")) ;! ret (BU_SCREEN_OK, s)
    | BU_JOIN_NOT_ELIGIBLE => say2 ($"Join refused") ($"Your cert is not on the eligible-voter list") ($"for this election. Refused.") ;! ret (BU_SCREEN_OK, s)
    | BU_JOIN_NOT_OPEN => say2 ($"Join refused") (trunc 96 ($"Cannot join " ++ id ++ $": election is not Open.")) ($"Refused.") ;! ret (BU_SCREEN_OK, s)
    | BU_JOIN_ADMITTED =>
      tetrisui_set_status ($"ballotu") (us_cert_name s) (trunc 32 (us_election_id s ++ $": " ++ us_title s)) ;!
      if negb (us_has_ballot s =? 0)%Z then
        say2 ($"Already voted") ($"You already have a ballot for this election.") ($"Routing you to Update Vote (UC-4).") ;! cast_common true s
      else tetrisui_message ($"Join successful") (joined_lines s) ;! ret (BU_SCREEN_OK, s)
    end
  end.

(** ** Results and receipts *)

Definition results_request (id cert : cstr) : bcl_request_t := mkReq BCL_RESULTS (trunc BB_CERT_LEN cert) (trunc BB_ID_LEN id) zero_ballot [] zero_config.
Definition check_request (id hash : cstr) : bcl_request_t := mkReq BCL_CHECK [] (trunc BB_ID_LEN id) zero_ballot (trunc BB_HASH_LEN hash) zero_config.

Definition screen_view_results (s : bu_session_t) : prog bu_screen_t :=
  let! r := ask_election_id ($"View results (UC-5)") ($"Enter election ID:") in
  match r with
  | None => ret BU_SCREEN_OK
  | Some id =>
    let! a := act_ (Send (results_request id (us_cert_name s))) in
    match Ballotctl.status_of a with
    | BB_OK => tetrisui_list_view ($"Election results") (Ballotctl.results_lines id (snd a)) ;! ret BU_SCREEN_OK
    | st => say ($"Not published") (result_text st) ;! still_live
    end
  end.

Definition screen_check_vote : prog bu_screen_t :=
  let! h := ask_receipt_hash ($"Check your vote (UC-6)") in
  match h with
  | None => ret BU_SCREEN_OK
  | Some hash =>
    let! r := ask_election_id ($"Check your vote (UC-6)") ($"Enter the election ID to check against:") in
    match r with
    | None => ret BU_SCREEN_OK
    | Some id =>
      let! a := act_ (Send (check_request id hash)) in
      let line1 := trunc 96 ($"Receipt hash: " ++ hash) in
      match bu_classify_check (Ballotctl.status_of a) (cp_found (snd a)) with
      | BU_CHECK_COUNTED =>
        say2 ($"Verified") line1
          (trunc 96 ($"Your vote is option index " ++ print_int (cp_found_option (snd a)) ++ $" (" ++ cp_found_option_name (snd a) ++ $") and is included in the tally.")) ;!
        ret BU_SCREEN_OK
      | BU_CHECK_DROPPED =>
        tetrisui_message ($"Verification failed")
          [line1; $"Hash not found among live (non-superseded) ballots."; $"Verification FAILED - dropped ballot."; $"Please raise this with the Admin."] ;!
        ret BU_SCREEN_OK
      | BU_CHECK_UNAVAILABLE => say2 ($"Verification unavailable") line1 (result_text (Ballotctl.status_of a)) ;! still_live
      end
    end
  end.

(** ** The menu and main *)

Definition keeping (s : bu_session_t) (t : prog bu_screen_t) : prog (bu_screen_t * bu_session_t) := let! r := t in ret (r, s).

Definition choose (s : bu_session_t) (sel : Z) : prog (bu_screen_t * bu_session_t) :=
  match sel with
  | 0 => screen_join_election s
  | 1 => cast_common false s
  | 2 => cast_common true s
  | 3 => keeping s (screen_view_results s)
  | 4 => keeping s screen_check_vote
  | _ => ret (BU_SCREEN_OK, s)
  end%Z.

Definition menu_items : list cstr :=
  [$"Join election (UC-2)"; $"Cast vote (UC-3)"; $"Update vote (UC-4)"; $"View results (UC-5)"; $"Check your vote (UC-6)"; $"Quit"].

Definition menu_loop (s : bu_session_t) : prog (bu_session_t + bu_screen_t) :=
  let! sel := tetrisui_menu ($"ballotu - voter menu") menu_items 6 in
  if ((sel <? 0) || (sel =? 5))%Z then ret (inr BU_SCREEN_QUIT)
  else let! r := choose s sel in
       ret (match fst r with BU_SCREEN_DISCONNECTED => inr BU_SCREEN_DISCONNECTED | _ => inl (snd r) end).
Definition voter_menu (s : bu_session_t) : prog bu_screen_t := ITree.iter menu_loop s.

Definition offer_reconnect : prog bool := tetrisui_confirm ($"Disconnected") ($"The connection to ballotd is gone. Reconnect?").

Definition logged_out : prog unit := tetrisui_set_status ($"ballotu") ($"(not logged in)") [].

Definition main_loop (ca : cstr) (ad : address) : prog (address + unit) :=
  let! c := screen_connect ca ad in
  match c with
  | None => ret (inr tt)
  | Some ad =>
    let! login := screen_auth (where_text ad) in
    match login with
    | None => act_ Disconnect ;! logged_out ;! ret (inl ad)
    | Some s =>
      let! r := voter_menu s in
      match r with
      | BU_SCREEN_DISCONNECTED =>
        act_ Disconnect ;! logged_out ;!
        let! yes := offer_reconnect in
        ret (if yes then inl ad else inr tt)
      | _ => ret (inr tt)
      end
    end
  end.

(** [host], [port] and [ca]: the arguments of [-H], [-p] and [-C] where given;
    [None] is exit status 2 for a bad port. *)
Definition main (host port ca : option cstr) : option (prog unit) :=
  match (match port with None => Some DEFAULT_PORT | Some p => port_ok p end) with
  | None => None
  | Some port =>
    Some (logged_out ;!
          ITree.iter (main_loop (trunc 512 (default DEFAULT_CA_PATH ca))) (mkAddress (trunc HOST_BUF (default DEFAULT_HOST host)) port) ;!
          act_ Disconnect)
  end.


(** ** What an observer knows

    Who proved a name on the connection that is open, and the paper of the
    last admitted join: the election and its options. *)
Record facts := mkFacts { fa_name : option cstr; fa_paper : option (cstr * list cstr) }.

Definition nobody : facts := mkFacts None None.

Definition paper_of (id : cstr) (resp : bcl_response_t) : cstr * list cstr :=
  (id, take (Z.to_nat (el_option_count (cp_election resp))) (el_options (cp_election resp))).

Definition learn (v : view) (f : facts) (a : act) : facts :=
  match a with
  | Act e x =>
    match e in ev T return T -> facts with
    | Auth _ name _ => fun r => if ((fst r =? 0) && (snd r =? 200))%Z then mkFacts (Some name) None else f
    | Connect _ _ _ => fun _ => nobody
    | Disconnect => fun _ => nobody
    | Send req => fun r =>
      match cr_op req with
      | BCL_JOIN =>
        match bu_classify_join (Ballotctl.status_of r) (cp_election (snd r)) with
        | BU_JOIN_ADMITTED => mkFacts (fa_name f) (Some (paper_of (cr_election_id req) (snd r)))
        | BU_JOIN_NOT_OPEN => mkFacts (fa_name f) None
        | _ => f
        end
      | _ => f
      end
    | _ => fun _ => f
    end x
  end.

(** ** What may be sent *)

(** [req] comes from the user [name], and is what the screen [vw_accepted v]
    stands for. *)
Definition sent_ok (v : view) (f : facts) (req : bcl_request_t) : Prop :=
  exists name, (fa_name f = Some name /\ typed (BB_CERT_LEN - 1) name) /\ election_id_ok (cr_election_id req) = true /\
  match cr_op req with
  | BCL_JOIN =>
    exists prompt, vw_accepted v = plainly [prompt; cr_election_id req] /\ req = mkReq BCL_JOIN name (cr_election_id req) zero_ballot [] zero_config
  | BCL_CAST | BCL_UPDATE =>
    exists options sel option nonce, fa_paper f = Some (cr_election_id req, options) /\ options !! sel = Some option /\ (sel < BB_MAX_OPTIONS)%nat /\
      vw_accepted v = confirm_shown ($"Confirm vote for '" ++ option ++ $"'?") true /\
      Delivery.held BB_NONCE_LEN nonce /\ CodecLogic.oneline nonce /\
      req = mkReq (cr_op req) name (cr_election_id req)
              (mkBallot name nonce (CodecLogic.pad BB_CIPHERTEXT_MAX NUL [ascii_of_nat sel]) 1) [] zero_config
  | BCL_RESULTS =>
    vw_accepted v = plainly [$"Enter election ID:"; cr_election_id req] /\ req = mkReq BCL_RESULTS name (cr_election_id req) zero_ballot [] zero_config
  | BCL_CHECK =>
    exists hash, vw_accepted v = plainly [$"Enter the election ID to check against:"; cr_election_id req] /\
      length hash = (BB_HASH_LEN - 1)%nat /\ forallb is_hex hash = true /\ req = mkReq BCL_CHECK [] (cr_election_id req) zero_ballot hash zero_config
  | _ => False
  end.

(** Credentials are those of the form, whose password field shows stars. *)
Definition auth_ok (v : view) (name pass : cstr) : Prop :=
  exists error field user, vw_accepted v = form_shown PASSWORD_MASK error field credential_labels [user; pass] /\
    user_name_fold Accounts.MAX_USER_NAME user = Some name /\ pass <> [] /\ (length pass < TETRISUI_FIELD_LEN)%nat.

Definition good (s : view * facts) (a : act) : Prop :=
  match a with
  | Act e _ =>
    match e with
    | Send req => sent_ok (fst s) (snd s) req
    | Auth _ name pass => auth_ok (fst s) name pass
    | Reach _ | CtlPath _ => False
    | Connect _ port _ => (1 <= port <= 65535)%Z
    | _ => True
    end
  end.

(** A decoded answer fits its arrays (see [decoded_election_fits]). *)
Definition election_fits (e : bb_election_t) : Prop :=
  (0 <= el_option_count e <= Z.of_nat BB_MAX_OPTIONS)%Z /\ length (el_options e) = BB_MAX_OPTIONS /\ Forall (fun o => length o < BB_OPTION_LEN)%nat (el_options e).

Definition fit_answers (s : view * facts) (a : act) : Prop :=
  match a with
  | Act e x => match e in ev T return T -> Prop with Send _ => fun r => election_fits (cp_election (snd r)) | _ => fun _ => True end x
  end.

Abbreviation usafe := (Dialog.safe (upd learn) fit_answers good).

Lemma learn_quiet v f a : screen_act a = true -> learn v f a = f.
Proof. by destruct a as [T e x]; destruct e. Qed.
Lemma voter_good_quiet s a : screen_act a = true -> good s a.
Proof. by destruct a as [T e x]; destruct e. Qed.

Ltac widget H := eapply safe_bind; [apply (H _ learn fit_answers good learn_quiet voter_good_quiet)|cbn beta; intros].
Ltac last_widget H := eapply safe_mono; [apply (H _ learn fit_answers good learn_quiet voter_good_quiet)|cbn beta].

(** ** The session and what is known of it *)

Definition knows (s : bu_session_t) (f : facts) : Prop :=
  exists name, fa_name f = Some name /\ us_cert_name s = name /\ typed (BB_CERT_LEN - 1) name /\
  (us_joined s <> 0%Z -> election_id_ok (us_election_id s) = true /\
     fa_paper f = Some (us_election_id s, take (Z.to_nat (us_option_count s)) (us_options s)) /\
     length (us_options s) = BB_MAX_OPTIONS /\ (0 <= us_option_count s <= Z.of_nat BB_MAX_OPTIONS)%Z /\ Forall (fun o => length o < BB_OPTION_LEN)%nat (us_options s)).

Lemma still_live_spec v f (Q : bu_screen_t -> view * facts -> Prop) : (forall r, Q r (v, f)) -> usafe (v, f) still_live Q.
Proof.
  intros HQ. unfold still_live. eapply safe_bind; [apply (safe_act _ _ _ _ _ (fun _ s => s = (v, f))); intros; split; done|]. intros live s ->. apply safe_ret, HQ.
Qed.

Lemma say_spec v f title line : usafe (v, f) (say title line) (fun _ s => snd s = f).
Proof. apply (message_spec learn fit_answers good learn_quiet voter_good_quiet). Qed.
Lemma say2_spec v f title a b : usafe (v, f) (say2 title a b) (fun _ s => snd s = f).
Proof. apply (message_spec learn fit_answers good learn_quiet voter_good_quiet). Qed.

Lemma ask_id_spec v f title prompt : usafe (v, f) (ask_election_id title prompt)
  (fun r s => snd s = f /\ forall id, r = Some id -> election_id_ok id = true /\ vw_accepted (fst s) = plainly [prompt; id]).
Proof.
  eapply (safe_iter _ _ _ _ _ _ (fun _ s => snd s = f)); [done|]. intros [] [v1 f1] Ef. cbn in Ef. subst f1. unfold ask_id_body.
  widget @input_spec; [unfold BB_ID_LEN; lia|]. destruct s' as [v2 f2], H as [Ef H]. cbn in Ef. subst f2.
  destruct a as [[|c id]|]; try (by apply safe_ret). destruct (H _ eq_refl) as [Ht Ha]. destruct (election_id_ok (c :: id)) eqn:Ei; cbn [negb].
  - apply safe_ret. split; [done|]. by intros ? [= <-].
  - eapply safe_bind; [apply say2_spec|]. intros [] [v3 f3] Ef. by apply safe_ret.
Qed.

Lemma ask_hash_spec v f title : usafe (v, f) (ask_receipt_hash title)
  (fun r s => snd s = f /\ forall hash, r = Some hash -> length hash = (BB_HASH_LEN - 1)%nat /\ forallb is_hex hash = true).
Proof.
  eapply (safe_iter _ _ _ _ _ _ (fun _ s => snd s = f)); [done|]. intros [] [v1 f1] Ef. cbn in Ef. subst f1. unfold ask_hash_body.
  widget @input_spec; [unfold BB_HASH_LEN; lia|]. destruct s' as [v2 f2], H as [Ef H]. cbn in Ef. subst f2.
  destruct a as [[|c h]|]; try (by apply safe_ret). destruct (receipt_hash_ok (c :: h)) as [hash|] eqn:Eh.
  - apply safe_ret. split; [done|]. intros ? [= <-]. unfold receipt_hash_ok in Eh. destruct (Nat.eqb_spec (length (c :: h)) (BB_HASH_LEN - 1)) as [El|]; [|done]. cbn [negb] in Eh.
    destruct (forallb is_hex (map lower_hex (c :: h))) eqn:Ef; [|done]. injection Eh as <-. split; [cbn [length]; by rewrite length_map|done].
  - eapply safe_bind; [apply say2_spec|]. intros [] [v3 f3] Ef. by apply safe_ret.
Qed.

(** ** Logging in *)

Definition short_field (i : nat) (s : cstr) : Prop := (length s <= TETRISUI_FIELD_LEN - 1)%nat.

Lemma short_key i s ch : short_field i s -> short_field i (type_key (TETRISUI_FIELD_LEN - 1) s ch).
Proof.
  unfold short_field, type_key. intros Hl. destruct (is_erase ch); [rewrite removelast_firstn_len, length_take; lia|].
  destruct ch as [c| | | | | | |]; try done. destruct (printable c); [|done]. destruct (Nat.ltb_spec (length s) (TETRISUI_FIELD_LEN - 1)); [|done]. cbn [andb]. rewrite length_app. cbn [length]. lia.
Qed.

Lemma fields2 (P : nat -> cstr -> Prop) a b : P 0%nat a -> P 1%nat b -> fields_ok P [a; b].
Proof. intros Ha Hb [|[|i]] s; cbn; by intros [= <-]. Qed.

Lemma folded_typed user name : user_name_fold Accounts.MAX_USER_NAME user = Some name -> typed (BB_CERT_LEN - 1) name.
Proof.
  unfold user_name_fold. destruct (_ <? _)%nat; [done|]. destruct (user_name_ok user) eqn:Eu; [|done]. intros [= <-]. unfold user_name_ok in Eu.
  apply andb_true_iff in Eu as [Eu Hc]. apply andb_true_iff in Eu as [_ Hl]. apply Nat.leb_le in Hl. split; [rewrite length_map; unfold USER_NAME_MAX, BB_CERT_LEN in *; lia|].
  apply Forall_fmap. rewrite forallb_forall in Hc. apply Forall_forall. intros c Hin. apply Ballotctl.fold_char_pr, Hc. by apply list_elem_of_In.
Qed.

(** After a login, the session is the proven user's and nothing is joined. *)
Lemma credential_spec v f registering where_ : usafe (v, f) (screen_credential_flow registering where_)
  (fun r s => forall u, r = Some u -> knows u (snd s)).
Proof.
  eapply (safe_iter _ _ _ _ _ _ (fun st _ => exists a b, fm_values st = [a; b] /\ fields_ok short_field [a; b])).
  { exists [], []. split; [done|]. apply fields2; unfold short_field; cbn; lia. }
  intros [values error start] [v1 f1] (ua & pa & Ev & HF). cbn in Ev. subst values. unfold credential_body. cbn [fm_values fm_error fm_start].
  widget @form_spec; [exact short_key|exact HF|]. destruct s' as [v2 f2], a as [[] vs], H as (_ & Hl & HF2 & Hacc); [|by apply safe_ret].
  cbn [fst snd length] in *. destruct vs as [|user [|pass [|]]]; try done. destruct (Hacc eq_refl) as [field Ha].
  assert (Again : forall e w, w = [user; pass] \/ w = [user; []] -> exists a b, fm_values (again w e) = [a; b] /\ fields_ok short_field [a; b]).
  { intros e w [->| ->]; [by exists user, pass|]. exists user, []. split; [done|]. apply fields2; [by apply (HF2 0%nat)|unfold short_field; cbn; lia]. }
  unfold check_credentials. cbn [nth]. destruct (user_name_ok user) eqn:Eu; [|apply safe_ret; apply Again; auto].
  destruct (user_name_fold Accounts.MAX_USER_NAME user) as [name|] eqn:En; [|apply safe_ret; apply Again; auto].
  destruct (Nat.eqb_spec (length pass) 0) as [|Hp]; [apply safe_ret; apply Again; auto|]. destruct (registering && _); [apply safe_ret; apply Again; auto|].
  widget @progress_begin_spec. destruct s' as [v3 f3], H as [_ Hv]. cbn [fst] in Hv.
  eapply (safe_bind _ _ _ _ _ _ (fun r s => ((fst r =? 0) && (snd r =? 200))%Z = true -> snd s = mkFacts (Some name) None)).
  - apply safe_act. intros r _. split; [|cbn; by intros ->]. exists error, field, user. cbn [fst]. rewrite Hv. split; [done|]. split; [done|].
    split; [by destruct pass|]. specialize (HF2 1%nat pass eq_refl). unfold short_field in HF2. unfold TETRISUI_FIELD_LEN in *. lia.
  - intros r [v4 f4] Hr. widget @progress_step_spec. destruct s' as [v5 f5], H as [Ef _]. cbn in Ef. subst f5. cbn [snd] in Hr.
    destruct (Z.eqb_spec (fst r) 0) as [E0|]; cbn [negb]; [|apply safe_ret; apply Again; auto].
    destruct (Z.eqb_spec (snd r) 200) as [E2|]; [|apply safe_ret; apply Again; auto]. specialize (Hr eq_refl).
    widget @set_status_spec. subst s'. apply safe_ret. intros u [= <-]. cbn [snd]. rewrite Hr. pose proof (folded_typed _ _ En) as Ht.
    exists name. unfold no_session. cbn [us_cert_name us_joined fa_name]. rewrite (Ballotctl.trunc_typed BB_CERT_LEN) by done. done.
Qed.

Lemma auth_spec v f where_ : usafe (v, f) (screen_auth where_) (fun r s => forall u, r = Some u -> knows u (snd s)).
Proof.
  eapply (safe_iter _ _ _ _ _ _ (fun _ _ => True)); [done|]. intros [] [v1 f1] _. unfold auth_body. widget @menu_spec. destruct s' as [v2 f2].
  destruct (_ <? _)%Z; [by apply safe_ret|]. eapply safe_bind; [apply credential_spec|]. intros [u|] [v3 f3] Hu; apply safe_ret; [|done]. intros ? [= <-]. by apply Hu.
Qed.

Lemma connect_spec v f ca ad : usafe (v, f) (screen_connect ca ad) (fun _ _ => True).
Proof.
  eapply (safe_iter _ _ _ _ _ _ (fun _ _ => True)); [done|]. intros [values error start] [v1 f1] _. unfold connect_body. cbn [fm_values fm_error fm_start].
  eapply safe_bind; [apply (form_spec learn fit_answers good learn_quiet voter_good_quiet (fun _ _ => True)); done|]. intros a s' _. destruct s' as [v2 f2], a as [[] vs]; [|by apply safe_ret].
  destruct (port_ok _) as [port|] eqn:Ep; [|by apply safe_ret].
  assert (Hport : (1 <= port <= 65535)%Z).
  { unfold port_ok in Ep. destruct (trunc 16 _); [done|]. destruct (strtol _) as [z [|]]; [|done]. destruct (Z.ltb_spec z 1); [done|]. destruct (Z.ltb_spec 65535 z); [done|]. injection Ep as <-. lia. }
  widget @progress_begin_spec. destruct s' as [v3 f3]. eapply safe_bind; [apply (safe_act _ _ _ _ _ (fun _ _ => True)); done|]. intros r [v4 f4] _.
  widget @progress_step_spec. destruct s' as [v5 f5].
  eapply (safe_bind _ _ _ _ _ _ (fun _ _ => True)); [destruct (_ || _); [by last_widget @progress_step_spec|by apply safe_ret]|]. intros [] [v6 f6] _.
  destruct (negb _); [by apply safe_ret|]. widget @set_status_spec. by apply safe_ret.
Qed.

(** ** Voting *)

Lemma id_char_pr c : id_char c = true -> printable c = true /\ ((33 <=? code c) && (code c <=? 126))%Z = true /\ c <> "/"%char.
Proof. by destruct c as [[] [] [] [] [] [] [] []]. Qed.

Lemma id_ok_typed id : election_id_ok id = true -> typed (BB_ID_LEN - 1) id /\ id <> [] /\ Ballotctl.sane_id id.
Proof.
  unfold election_id_ok. destruct (Nat.eqb_spec (length id) 0) as [|Hl]; [done|]. destruct (Nat.leb_spec BB_ID_LEN (length id)); [done|]. cbn [orb]. intros Hc.
  rewrite forallb_forall in Hc. assert (HC : Forall (fun c => printable c = true /\ ((33 <=? code c) && (code c <=? 126))%Z = true /\ c <> "/"%char) id).
  { apply Forall_forall. intros c Hin. apply id_char_pr, Hc. by apply list_elem_of_In. }
  split; [split; [lia|eapply Forall_impl; [exact HC|]; by intros c (? & _)]|]. split; [by destruct id|]. split; [eapply Forall_impl; [exact HC|]; by intros c (_ & _ & ?)|].
  unfold valid_field. apply forallb_forall. intros c Hin. rewrite Forall_forall in HC. destruct (HC c (proj2 (list_elem_of_In _ _) Hin)) as (_ & -> & _). done.
Qed.

Lemma hex_digit_plain n : Brain.hex_digit n <> NUL /\ Brain.hex_digit n <> CR /\ Brain.hex_digit n <> LF.
Proof. unfold Brain.hex_digit. destruct (Z.to_nat n) as [|[|[|[|[|[|[|[|[|[|[|[|[|[|[|[|m]]]]]]]]]]]]]]]]; done. Qed.

Definition hexadecimal (s : cstr) : Prop := Forall (fun c => c <> NUL /\ c <> CR /\ c <> LF) s.

Lemma hex_digits_text fuel z acc : hexadecimal acc -> hexadecimal (hex_digits fuel z acc).
Proof.
  revert z acc. induction fuel as [|fuel IH]; intros z acc Ha; cbn [hex_digits]; [done|].
  assert (hexadecimal (Brain.hex_digit (z mod 16) :: acc)) by (constructor; [apply hex_digit_plain|done]). destruct (_ =? _)%Z; [done|by apply IH].
Qed.

Lemma hex8_text z : hexadecimal (hex8 z).
Proof. apply Forall_app. split; [by apply Forall_replicate|apply hex_digits_text; constructor]. Qed.

Lemma nonce_held a b : Delivery.held BB_NONCE_LEN (make_nonce a b) /\ CodecLogic.oneline (make_nonce a b).
Proof.
  assert (H : hexadecimal (make_nonce a b)) by (apply Forall_take, Forall_app; split; apply hex8_text).
  split; [split; [apply trunc_length; unfold BB_NONCE_LEN; lia|]|]; (eapply Forall_impl; [exact H|]; cbn; tauto).
Qed.

Lemma vote_question_fits option : (length option < BB_OPTION_LEN)%nat -> vote_question option = $"Confirm vote for '" ++ option ++ $"'?".
Proof. intros Hl. apply trunc_id. rewrite !length_app. unfold BB_OPTION_LEN in Hl. cbn [length]. simpl. lia. Qed.

(** The ballot that [submit_request] makes. *)
Lemma submit_request_shape s sel nonce req : us_joined s <> 0%Z -> (0 <= sel < 256)%Z -> typed (BB_CERT_LEN - 1) (us_cert_name s) -> election_id_ok (us_election_id s) = true ->
  Delivery.held BB_NONCE_LEN nonce -> submit_request s sel nonce = Some req ->
  (cr_op req = BCL_CAST \/ cr_op req = BCL_UPDATE) /\ cr_election_id req = us_election_id s /\
  req = mkReq (cr_op req) (us_cert_name s) (us_election_id s)
          (mkBallot (us_cert_name s) nonce (CodecLogic.pad BB_CIPHERTEXT_MAX NUL [ascii_of_nat (Z.to_nat sel)]) 1) [] zero_config.
Proof.
  intros Hj Hs Hn Hid [Hh _]. unfold submit_request, bu_encrypt_ballot. destruct (id_ok_typed _ Hid) as [Ht _].
  destruct (Z.ltb_spec sel 0); [lia|]. destruct (Z.ltb_spec 255 sel); [lia|]. cbn [orb].
  assert (E : u8 sel = sel) by (unfold u8; apply Z.mod_small; lia). rewrite E.
  assert (Hb : forall op, mkReq op (trunc BB_CERT_LEN (us_cert_name s)) (trunc BB_ID_LEN (us_election_id s))
     (mkBallot (trunc BB_CERT_LEN (us_cert_name s)) (trunc BB_NONCE_LEN nonce) (<[0%nat := ascii_of_N (Z.to_N sel)]> (bl_payload zero_ballot)) 1) [] zero_config =
     mkReq op (us_cert_name s) (us_election_id s) (mkBallot (us_cert_name s) nonce (CodecLogic.pad BB_CIPHERTEXT_MAX NUL [ascii_of_nat (Z.to_nat sel)]) 1) [] zero_config).
  { intros op. rewrite !(Ballotctl.trunc_typed BB_CERT_LEN) by done. rewrite (Ballotctl.trunc_typed BB_ID_LEN) by done. rewrite (trunc_id BB_NONCE_LEN) by done.
    unfold ascii_of_nat. replace (N.of_nat (Z.to_nat sel)) with (Z.to_N sel) by lia. reflexivity. }
  destruct (bu_route_vote s) eqn:Er; [unfold bu_route_vote in Er; destruct (Z.eqb_spec (us_joined s) 0); [done|by destruct (_ =? 0)%Z]|..]; intros [= <-];
    unfold vote_request; rewrite Er; cbn [bl_nonce bl_payload bl_payload_len cr_op cr_election_id];
    (split; [tauto|]; split; [by rewrite (Ballotctl.trunc_typed BB_ID_LEN)|apply Hb]).
Qed.

(** A vote changes nothing of what is known. *)
Lemma submit_keeps send s sel nonce : let '(_, s', _) := bu_submit_vote send s sel nonce in
  us_cert_name s' = us_cert_name s /\ us_joined s' = us_joined s /\ us_election_id s' = us_election_id s /\ us_options s' = us_options s /\ us_option_count s' = us_option_count s.
Proof.
  unfold bu_submit_vote. destruct (bu_route_vote s); [done|..]; (destruct (bu_encrypt_ballot sel nonce) as [b|]; [|done]; destruct (send (vote_request s b)) as [rc resp];
    destruct (match rc with BB_OK => cp_status resp | _ => rc end); done).
Qed.

Lemma knows_same s s' f : knows s f -> us_cert_name s' = us_cert_name s -> us_joined s' = us_joined s -> us_election_id s' = us_election_id s ->
  us_options s' = us_options s -> us_option_count s' = us_option_count s -> knows s' f.
Proof. unfold knows. intros H -> -> -> -> ->. exact H. Qed.

Lemma submit_spec v f s sel nonce option : knows s f -> us_joined s <> 0%Z -> (0 <= sel < us_option_count s)%Z -> us_options s !! Z.to_nat sel = Some option ->
  Delivery.held BB_NONCE_LEN nonce /\ CodecLogic.oneline nonce -> vw_accepted v = confirm_shown ($"Confirm vote for '" ++ option ++ $"'?") true ->
  usafe (v, f) (submit_vote s sel nonce) (fun r w => snd w = f /\ knows (snd (fst r)) f).
Proof.
  intros HK Hj Hsel Ho [Hn1 Hn2] Ha. unfold submit_vote. pose proof HK as (name & Hname & Hcert & Htyped & Hpaper). destruct (Hpaper Hj) as (Hid & Hp & Hlen & Hcnt & _).
  unfold BB_MAX_OPTIONS in Hcnt. destruct (submit_request s sel nonce) as [req|] eqn:Er.
  - destruct (submit_request_shape s sel nonce req) as (Hop & Eid & Ereq); [done|lia|by rewrite Hcert|done|done|done|].
    eapply (safe_bind _ _ _ _ _ _ (fun _ w => snd w = f)).
    + apply safe_act. intros r _. split; [|unfold upd, learn; cbn; by destruct Hop as [->| ->]].
      cbn [good fst snd]. exists name. split; [done|]. rewrite Eid. split; [done|].
      assert (E : exists options sel0 option nonce, fa_paper f = Some (us_election_id s, options) /\ options !! sel0 = Some option /\ (sel0 < BB_MAX_OPTIONS)%nat /\
        vw_accepted v = confirm_shown ($"Confirm vote for '" ++ option ++ $"'?") true /\ Delivery.held BB_NONCE_LEN nonce /\ CodecLogic.oneline nonce /\
        req = mkReq (cr_op req) name (us_election_id s) (mkBallot name nonce (CodecLogic.pad BB_CIPHERTEXT_MAX NUL [ascii_of_nat sel0]) 1) [] zero_config).
      { exists (take (Z.to_nat (us_option_count s)) (us_options s)), (Z.to_nat sel), option, nonce. split; [done|]. split; [rewrite lookup_take_lt; [done|lia]|].
        split; [unfold BB_MAX_OPTIONS; lia|]. split; [done|]. split; [done|]. split; [done|]. by rewrite <-Hcert. }
      destruct Hop as [Eo|Eo]; rewrite Eo in *; exact E.
    + intros r [v1 f1] Ef. apply safe_ret. split; [done|]. pose proof (submit_keeps (fun _ => r) s sel nonce) as Hk.
      destruct (bu_submit_vote _ s sel nonce) as [[rc s'] rec]. destruct Hk as (? & ? & ? & ? & ?). by eapply knows_same.
  - apply safe_ret. split; [done|]. pose proof (submit_keeps (fun _ => (BB_ERR_DB, zero_resp)) s sel nonce) as Hk.
    destruct (bu_submit_vote _ s sel nonce) as [[rc s'] rec]. destruct Hk as (? & ? & ? & ? & ?). by eapply knows_same.
Qed.

Lemma cast_ballot_spec v f s upd_ : knows s f -> us_joined s <> 0%Z -> usafe (v, f) (cast_ballot upd_ s) (fun r w => knows (snd r) (snd w)).
Proof.
  intros HK Hj. unfold cast_ballot. pose proof HK as (name & _ & _ & _ & Hpaper). destruct (Hpaper Hj) as (_ & _ & Hlen & Hcnt & Hshort).
  widget @menu_spec. destruct s' as [v1 f1], H as [Ef Hsel]. cbn in Ef. subst f1. rename a into sel. destruct (Z.ltb_spec sel 0); [by apply safe_ret|].
  destruct Hsel as [->|(Hsel & _ & _)]; [done|]. destruct (lookup_lt_is_Some_2 (us_options s) (Z.to_nat sel)) as [option Ho]; [lia|].
  rewrite (nth_lookup_Some _ _ _ _ Ho). widget @confirm_spec. destruct s' as [v2 f2], H0 as [Ef Hyes]. cbn in Ef. subst f2. destruct a; [|by apply safe_ret]. cbn [negb].
  specialize (Hyes eq_refl). rewrite vote_question_fits in Hyes by (by eapply (Forall_lookup_1 _ _ _ _ Hshort)).
  eapply safe_bind; [apply (safe_act _ _ _ _ _ (fun _ w => w = (v2, f))); done|]. intros dr w ->.
  widget @progress_begin_spec. destruct s' as [v3 f3], H0 as [Ef Ha]. cbn in Ef, Ha. subst f3.
  eapply safe_bind; [apply (submit_spec _ _ _ _ _ option); try done; [apply nonce_held|by rewrite Ha]|]. intros [[rc s1] receipt] [v4 f4] [Ef HK1]. cbn in Ef, HK1. subst f4.
  widget @progress_step_spec. destruct s' as [v5 f5], H0 as [Ef _]. cbn in Ef. subst f5.
  assert (Rej : usafe (v5, f) (say ($"Vote rejected") (result_text rc) ;! let! live := still_live in ret (live, s1)) (fun r w => knows (snd r) (snd w))).
  { eapply safe_bind; [apply say_spec|]. intros [] [v6 f6] Ef. cbn in Ef. subst f6. eapply safe_bind; [apply (still_live_spec _ _ (fun _ w => w = (v6, f))); done|].
    intros live w ->. by apply safe_ret. }
  destruct rc; try exact Rej. widget @message_spec. destruct s' as [v6 f6]. cbn in H0. subst f6. by apply safe_ret.
Qed.

Lemma cast_common_spec v f s upd_ : knows s f -> usafe (v, f) (cast_common upd_ s) (fun r w => knows (snd r) (snd w)).
Proof.
  intros HK. unfold cast_common. destruct (Z.eqb_spec (us_joined s) 0) as [|Hj].
  - eapply safe_bind; [apply say_spec|]. intros [] [v1 f1] Ef. cbn in Ef. subst f1. by apply safe_ret.
  - assert (Rt : forall t a b u, usafe (v, f) (say2 t a b ;! cast_ballot u s) (fun r w => knows (snd r) (snd w))).
    { intros. eapply safe_bind; [apply say2_spec|]. intros [] [v1 f1] Ef. cbn in Ef. subst f1. by apply cast_ballot_spec. }
    destruct upd_, (bu_route_vote s); try apply Rt; by apply cast_ballot_spec.
Qed.

(** ** Joining *)

Lemma knows_id s f id : knows s f -> election_id_ok id = true -> exists name, (fa_name f = Some name /\ typed (BB_CERT_LEN - 1) name) /\ trunc BB_CERT_LEN (us_cert_name s) = name /\ trunc BB_ID_LEN id = id /\ us_cert_name s = name.
Proof.
  intros (name & Hn & Hc & Ht & _) Hid. exists name. rewrite Hc, !Ballotctl.trunc_typed by (done || apply (id_ok_typed _ Hid)). done.
Qed.

(** The session after an answer is what an observer of the answer knows. *)
Lemma join_knows s f v id r : knows s f -> election_id_ok id = true -> election_fits (cp_election (snd r)) ->
  knows (snd (bu_join (fun _ => r) s id (us_cert_name s))) (learn v f (Act (Send (join_request id (us_cert_name s))) r)).
Proof.
  intros HK Hid (Hc & Hl & HF). destruct (knows_id _ _ _ HK Hid) as (name & [Hn _] & E1 & E2 & E3). destruct HK as (name' & Hn' & Hc' & Ht & Hp).
  assert (name' = name) as -> by congruence. unfold bu_join, learn, join_request. cbn [cr_op cr_election_id]. rewrite !E1, !E2.
  destruct r as [rc resp]. assert (Ballotctl.status_of (rc, resp) = match rc with BB_OK => cp_status resp | _ => rc end) as -> by (by destruct rc). cbn [fst snd] in *. destruct (bu_classify_join _ (cp_election resp)); cbn [snd].
  - by exists name.
  - by exists name.
  - by exists name.
  - exists name. cbn [us_cert_name us_joined fa_name]. split; [done|]. split; [done|]. split; [done|]. done.
  - exists name. cbn [us_cert_name us_joined fa_name us_election_id us_options us_option_count fa_paper]. rewrite <-E1, !Ballotctl.trunc_typed by (rewrite E3; done).
    rewrite E3. split; [done|]. split; [done|]. split; [done|]. intros _. do 4 (split; [done|]). done.
Qed.

Lemma report_live v f s title a b : knows s f ->
  usafe (v, f) (say2 title a b ;! let! live := still_live in ret (live, s)) (fun r w => knows (snd r) (snd w)).
Proof.
  intros HK. eapply safe_bind; [apply say2_spec|]. intros [] [v1 f1] Ef. cbn in Ef. subst f1. eapply safe_bind; [apply (still_live_spec _ _ (fun _ w => w = (v1, f))); done|].
  intros live w ->. by apply safe_ret.
Qed.

Lemma join_spec v f s : knows s f -> usafe (v, f) (screen_join_election s) (fun r w => knows (snd r) (snd w)).
Proof.
  intros HK. unfold screen_join_election. eapply safe_bind; [apply ask_id_spec|]. intros [id|] [v1 f1] [Ef Hid]; cbn in Ef; subst f1; [|by apply safe_ret].
  destruct (Hid id eq_refl) as [Hok Ha]. cbn [fst] in Ha. destruct (knows_id _ _ _ HK Hok) as (name & Hn & E1 & E2 & E3).
  widget @progress_begin_spec. destruct s' as [v2 f2], H as [Ef Hv]. cbn in Ef, Hv. subst f2.
  eapply (safe_bind _ _ _ _ _ _ (fun r w => knows (snd (bu_join (fun _ => r) s id (us_cert_name s))) (snd w))).
  { apply safe_act. intros r Hr. split; [|by apply join_knows]. exists name. unfold join_request. cbn [cr_op cr_election_id fst snd]. rewrite E1, E2.
    split; [done|]. split; [done|]. eexists. split; [by rewrite Hv, Ha|done]. }
  intros r [v3 f3] HK3. cbn [snd] in HK3. destruct (bu_join (fun _ => r) s id (us_cert_name s)) as [outcome s1]. cbn [snd] in HK3.
  widget @progress_step_spec. destruct s' as [v4 f4], H as [Ef _]. cbn in Ef. subst f4. destruct outcome.
  - by apply report_live.
  - eapply safe_bind; [apply say_spec|]. intros [] [v5 f5] Ef. cbn in Ef. subst f5. by apply safe_ret.
  - eapply safe_bind; [apply say2_spec|]. intros [] [v5 f5] Ef. cbn in Ef. subst f5. by apply safe_ret.
  - eapply safe_bind; [apply say2_spec|]. intros [] [v5 f5] Ef. cbn in Ef. subst f5. by apply safe_ret.
  - widget @set_status_spec. subst s'. destruct (negb _).
    + eapply safe_bind; [apply say2_spec|]. intros [] [v5 f5] Ef. cbn in Ef. subst f5. by apply cast_common_spec.
    + widget @message_spec. destruct s' as [v5 f5]. cbn in H. subst f5. by apply safe_ret.
Qed.

(** ** Results and receipts *)

Lemma voter_results_spec v f s : knows s f -> usafe (v, f) (screen_view_results s) (fun _ w => snd w = f).
Proof.
  intros HK. unfold screen_view_results. eapply safe_bind; [apply ask_id_spec|]. intros [id|] [v1 f1] [Ef Hid]; cbn in Ef; subst f1; [|by apply safe_ret].
  destruct (Hid id eq_refl) as [Hok Ha]. destruct (knows_id _ _ _ HK Hok) as (name & Hn & E1 & E2 & _).
  eapply (safe_bind _ _ _ _ _ _ (fun _ w => snd w = f)).
  { apply safe_act. intros r _. split; [|done]. exists name. unfold results_request. cbn [cr_op cr_election_id fst snd]. rewrite E1, E2. done. }
  intros r [v2 f2] Ef. cbn in Ef. subst f2.
  assert (Rej : forall st, usafe (v2, f) (say ($"Not published") (result_text st) ;! still_live) (fun _ w => snd w = f)).
  { intros st. eapply safe_bind; [apply say_spec|]. intros [] [v3 f3] Ef. cbn in Ef. subst f3. by apply still_live_spec. }
  destruct (Ballotctl.status_of r); try apply Rej. widget @list_view_spec. by apply safe_ret.
Qed.

Lemma voter_check_spec v f s : knows s f -> usafe (v, f) screen_check_vote (fun _ w => snd w = f).
Proof.
  intros HK. unfold screen_check_vote. eapply safe_bind; [apply ask_hash_spec|]. intros [hash|] [v0 f0] [Ef Hh]; cbn in Ef; subst f0; [|by apply safe_ret].
  destruct (Hh hash eq_refl) as [Hlen Hhex].
  eapply safe_bind; [apply ask_id_spec|]. intros [id|] [v1 f1] [Ef Hid]; cbn in Ef; subst f1; [|by apply safe_ret].
  destruct (Hid id eq_refl) as [Hok Ha]. destruct (knows_id _ _ _ HK Hok) as (name & Hn & _ & E2 & _).
  eapply (safe_bind _ _ _ _ _ _ (fun _ w => snd w = f)).
  { apply safe_act. intros r _. split; [|done]. exists name. unfold check_request. cbn [cr_op cr_election_id fst snd]. rewrite E2.
    split; [done|]. split; [done|]. exists hash. rewrite trunc_id by (unfold BB_HASH_LEN in *; lia). done. }
  intros r [v2 f2] Ef. cbn in Ef. subst f2. cbv zeta. destruct (bu_classify_check _ _).
  - eapply safe_bind; [apply say2_spec|]. intros [] [v3 f3] Ef. by apply safe_ret.
  - widget @message_spec. by apply safe_ret.
  - eapply safe_bind; [apply say2_spec|]. intros [] [v3 f3] Ef. cbn in Ef. subst f3. by apply still_live_spec.
Qed.

(** ** The whole program *)

Lemma voter_choose_spec v f s sel : knows s f -> usafe (v, f) (choose s sel) (fun r w => knows (snd r) (snd w)).
Proof.
  intros HK. assert (Kp : forall t, usafe (v, f) t (fun _ w => snd w = f) -> usafe (v, f) (keeping s t) (fun r w => knows (snd r) (snd w))).
  { intros t Ht. eapply safe_bind; [exact Ht|]. intros r [v1 f1] Ef. cbn in Ef. subst f1. by apply safe_ret. }
  unfold choose. destruct sel as [|p|p]; [by apply join_spec| |by apply safe_ret].
  do 3 (try destruct p as [p|p|]); try (by apply safe_ret); try (by apply cast_common_spec); [by apply Kp, voter_results_spec|by eapply Kp, voter_check_spec].
Qed.

Lemma menu_loop_spec v f s : knows s f -> usafe (v, f) (voter_menu s) (fun _ _ => True).
Proof.
  intros HK. eapply (safe_iter _ _ _ _ _ _ (fun s w => knows s (snd w))); [done|]. clear v f s HK. intros s [v f] HK. cbn [snd] in HK. unfold menu_loop.
  widget @menu_spec. destruct s' as [v1 f1], H as [Ef _]. cbn in Ef. subst f1. destruct (_ || _); [by apply safe_ret|].
  eapply safe_bind; [by apply voter_choose_spec|]. intros [r s1] [v2 f2] HK2. apply safe_ret. by destruct r.
Qed.

Lemma voter_main_spec v f host port ca t : main host port ca = Some t -> usafe (v, f) t (fun _ _ => True).
Proof.
  unfold main. destruct (match port with None => _ | Some p => _ end) as [p|]; [|done]. intros [= <-].
  widget @set_status_spec. subst s'. eapply (safe_bind _ _ _ _ _ _ (fun _ _ => True)); [|intros [] [v1 f1] _; apply safe_act; done].
  eapply (safe_iter _ _ _ _ _ _ (fun _ _ => True)); [done|]. clear v f. intros ad [v f] _. unfold main_loop.
  eapply safe_bind; [apply connect_spec|]. intros [ad1|] [v1 f1] _; [|by apply safe_ret].
  eapply safe_bind; [apply auth_spec|]. intros [s|] [v2 f2] HK.
  - eapply safe_bind; [apply menu_loop_spec; by apply HK|]. intros r [v3 f3] _. destruct r; try (by apply safe_ret).
    eapply safe_bind; [apply (safe_act _ _ _ _ _ (fun _ _ => True)); done|]. intros [] [v4 f4] _. widget @set_status_spec. subst s'.
    widget @confirm_spec. apply safe_ret. by case_match.
  - eapply safe_bind; [apply (safe_act _ _ _ _ _ (fun _ _ => True)); done|]. intros [] [v4 f4] _. widget @set_status_spec. by apply safe_ret.
Qed.

(** ** It can be delivered *)

Lemma hex_typed hash : length hash = (BB_HASH_LEN - 1)%nat -> forallb is_hex hash = true -> typed (BB_HASH_LEN - 1) hash.
Proof.
  intros Hl Hh. split; [lia|]. rewrite forallb_forall in Hh. apply Forall_forall. intros c Hc. specialize (Hh c (proj1 (list_elem_of_In _ _) Hc)). by destruct c as [[] [] [] [] [] [] [] []].
Qed.

Lemma ballot_deliverable op name id nonce sel : op = BCL_CAST \/ op = BCL_UPDATE -> typed (BB_CERT_LEN - 1) name -> election_id_ok id = true ->
  Delivery.held BB_NONCE_LEN nonce -> CodecLogic.oneline nonce ->
  let req := mkReq op name id (mkBallot name nonce (CodecLogic.pad BB_CIPHERTEXT_MAX NUL [ascii_of_nat sel]) 1) [] zero_config in Delivery.shaped req /\ Delivery.clean req.
Proof.
  intros Hop Hn Hid Hh Ho req. destruct (id_ok_typed _ Hid) as (Ht & Hne & Hs & Hv). split.
  - split; unfold req; cbn [cr_cert_name cr_election_id cr_op cr_ballot]; try (apply Ballotctl.typed_held; [unfold BB_CERT_LEN, BB_ID_LEN; lia|done]); try done.
    + by destruct Hop as [->| ->].
    + by destruct Hop as [->| ->]; intros [|].
  - split; [|split].
    + unfold Delivery.request_kvs, req. cbn [cr_op cr_ballot bl_nonce]. assert (H : CodecLogic.oneline (CodecLogic.hex_text (Delivery.payload_bytes (cr_ballot req)))).
      { apply CodecLogic.hex_text_plain. }
      destruct Hop as [->| ->]; (apply Forall_cons_2; [exact Ho|apply Forall_cons_2; [exact H|apply Forall_nil_2]]).
    + unfold Delivery.request_path, req. cbn [cr_op cr_election_id]. destruct Hop as [->| ->]; by apply Ballotctl.path_field.
    + unfold req. cbn. by eapply Ballotctl.typed_field.
Qed.

Lemma voter_sent_deliverable v f req : sent_ok v f req -> Delivery.shaped req /\ Delivery.clean req.
Proof.
  intros (name & [_ Hn] & Hid & H). destruct (id_ok_typed _ Hid) as (Ht & Hne & Hs). destruct (cr_op req) eqn:Eop; try done.
  - destruct H as (prompt & _ & ->). apply Ballotctl.plain_deliverable; auto using Ballotctl.no_hash; done.
  - destruct H as (o & sel & x & nonce & _ & _ & _ & _ & Hh & Ho & ->). apply ballot_deliverable; auto.
  - destruct H as (o & sel & x & nonce & _ & _ & _ & _ & Hh & Ho & ->). apply ballot_deliverable; auto.
  - destruct H as (_ & ->). apply Ballotctl.plain_deliverable; auto using Ballotctl.no_hash; done.
  - destruct H as (hash & _ & Hl & Hh & ->). apply Ballotctl.plain_deliverable; auto using Ballotctl.no_cert, hex_typed; [done|]. intros _ ->. done.
Qed.

(** ** Answers fit: what [bcl_send] gives back is zeroed or decoded *)

Lemma storage_fits r : Answers.resp_storage r -> election_fits (cp_election r).
Proof. intros H. split; [apply H|]. apply H. Qed.

Lemma zero_fits : election_fits (cp_election zero_resp).
Proof. apply storage_fits, Answers.zero_bounded. Qed.

Lemma read_answer_fits rbuf : election_fits (cp_election (snd (read_answer rbuf))).
Proof.
  unfold read_answer. destruct (htttp_parse_response rbuf) as [http|]; [|apply zero_fits]. pose proof (Answers.decoded_response_in_bounds http) as [Hs _].
  destruct (bcl_decode_response http) as [resp ok]. cbn [fst] in Hs. destruct ok; by apply storage_fits.
Qed.

Theorem answers_fit `{Tetrissh.OpenSSL} iv fd req c : election_fits (cp_election (snd (fst (bcl_send iv fd req c)))).
Proof.
  pose proof zero_fits as Z. unfold bcl_send. destruct (is_admin_op (cr_op req)).
  - unfold send_via_ctl. destruct (cx_ctl_path c) as [|ch path]; [exact Z|]. destruct (_ <=? _)%nat; [exact Z|]. destruct fd as [k|]; [|exact Z].
    destruct (bcl_encode_request _ _); [|exact Z]. destruct (ctl_frame_write _ _) as [[] k1]; [|exact Z]. destruct (ctl_frame_read _ _) as [[|rbuf] k2]; [exact Z|].
    pose proof (read_answer_fits rbuf) as Hf. by destruct (read_answer rbuf).
  - unfold send_via_session. destruct (cx_transport c) as [t|]; [|exact Z]. destruct (negb _); [exact Z|]. destruct (bcl_encode_request _ _) as [wire|]; [|exact Z].
    destruct (exchange_frames iv wire t) as [[|rbuf] t1]; [exact Z|]. pose proof (read_answer_fits rbuf) as Hf. by destruct (read_answer rbuf).
Qed.

(** ** The ballot is the one confirmed *)

Definition start : view * facts := (mkView [] [], nobody).

(** The voter gets what the screen showed.  Whatever keys are pressed and
    whatever the daemon answers, every request ballotu sends goes out under a
    name proved on the connection that is open, names an election the request
    line can carry, and is what was on the screen when Enter was last pressed.
    A ballot names the election of the last admitted join and carries the
    index of the option, on the paper of that join, that the confirmation
    named with Yes highlighted.  The daemon decodes exactly that request. *)
Theorem voter_sends_what_was_shown host port ca t n tr o tr1 req ans tr2 :
  main host port ca = Some t -> run n t tr o -> along (upd learn) fit_answers start tr -> tr = tr1 ++ Act (Send req) ans :: tr2 ->
  let s := after (upd learn) start tr1 in
  sent_ok (fst s) (snd s) req /\
  exists out http, bcl_encode_request req Daemon.SESSION_MAX_FRAME = Some out /\ htttp_parse_request out = HOk http /\
    bcl_decode_request http = Some (Delivery.wire_view req).
Proof.
  intros Hm H HT -> s. destruct (voter_main_spec _ _ _ _ _ _ Hm _ _ _ H HT) as [Hg _]. apply along_at in Hg. split; [exact Hg|].
  destruct (voter_sent_deliverable _ _ _ Hg) as [Hs Hc]. destruct (Delivery.encode_shaped req Daemon.SESSION_MAX_FRAME Hs) as [He _].
  { unfold Delivery.MESSAGE_MAX, Daemon.SESSION_MAX_FRAME. lia. }
  destruct (Delivery.request_arrives req Hs Hc) as (http & Hp & Hd). exists (request_text (Delivery.request_http req)), http. auto.
Qed.

(** Ann logs in, joins E-1 and votes for its second option. *)
Definition voting : list key :=
  [Byte LF; Byte LF] ++ map Byte ($"Ann") ++ [Byte TAB] ++ typing ($"password") ++ [Byte LF] ++ typing ($"E-1") ++
  [Byte "x"; KEY_DOWN; Byte LF; KEY_DOWN; Byte LF; Byte LF; Byte "x"; Byte "q"].
Definition open_election : bb_election_t :=
  mkElection ($"E-1") ($"Lunch") BB_STATE_OPEN (<[1%nat := $"Soup"]> (<[0%nat := $"Pie"]> (el_options zero_election))) 2 (el_eligible zero_election) 0 [] [] zero_tally.
Definition friendly (req : bcl_request_t) : bb_result_t * bcl_response_t := (BB_OK, set_election open_election zero_resp).
Definition client : prog unit := default (ret tt) (main None None None).
Definition voting_run : nat * list act * option unit * user := drive at_keys 400 client (mkUser voting friendly).
Definition voting_trace : list act := snd (fst (fst voting_run)).

Definition soup : bcl_request_t := mkReq BCL_CAST ($"ann") ($"E-1") (mkBallot ($"ann") (make_nonce 0 0) (CodecLogic.pad BB_CIPHERTEXT_MAX NUL ["001"%char]) 1) [] zero_config.
Example voting_sends : snd (fst voting_run) = Some tt /\ omap Ballotctl.is_send voting_trace = [mkReq BCL_JOIN ($"ann") ($"E-1") zero_ballot [] zero_config; soup].
Proof. split; vm_compute; reflexivity. Qed.

Lemma friendly_fits : election_fits open_election.
Proof.
  split; [split; vm_compute; discriminate|]. split; [reflexivity|]. apply (bool_decide_unpack _). vm_compute. exact I.
Qed.

Lemma voting_answers : along (upd learn) fit_answers start voting_trace.
Proof.
  apply along_forall. apply (drive_answers at_keys _ (fun u => us_daemon u = friendly)); [|done]. intros T e u x u' Hu Ha. destruct e; cbn in Ha; try (injection Ha as <- <-; done).
  - destruct (us_keys u); [done|]. by injection Ha as <- <-.
  - injection Ha as <- <-. rewrite Hu. split; [|done]. intros s. exact friendly_fits.
Qed.

Lemma voting_split : voting_trace = take 81 voting_trace ++ Act (Send soup) (friendly soup) :: drop 82 voting_trace.
Proof. vm_compute. reflexivity. Qed.

Example voter_sends_what_was_shown_witness :
  let s := after (upd learn) start (take 81 voting_trace) in
  sent_ok (fst s) (snd s) soup /\
  exists out http, bcl_encode_request soup Daemon.SESSION_MAX_FRAME = Some out /\ htttp_parse_request out = HOk http /\
    bcl_decode_request http = Some (Delivery.wire_view soup).
Proof.
  exact (voter_sends_what_was_shown None None None client _ voting_trace _ (take 81 voting_trace) soup (friendly soup) (drop 82 voting_trace)
    eq_refl (drive_runs at_keys 400 client (mkUser voting friendly)) voting_answers voting_split).
Defined.

End Ballotu.
