(* ===== verification/Polling.v ===== *)
(** * From the keyboard to the box

    The voter's client, the wire, the daemon and the store in one statement:
    what is recorded is what was confirmed on the screen. *)
From ITree Require Import ITree.
From S2P Require Import Prelude CText Types Rows Sql Wire Server BrainDb Brain Fixture Store Record Htttp Codec CodecLogic Delivery Answers Daemon Frame Channels Client EndToEnd Dialog Tetrisui Ballotctl Ballotu.

Module Polling.
Import Server Brain Htttp Codec CodecLogic Delivery Answers Daemon Client EndToEnd Dialog Tetrisui Ballotu.

(** The session of a user who joined [id]; [voted_before] as the daemon said. *)
Definition joined (name id : cstr) (voted_before : bool) : bu_session_t := mkSession name 1 id (if voted_before then 1 else 0) 0 [] [] [] 0.

Lemma joined_fits name id b : typed (BB_CERT_LEN - 1) name -> election_id_ok id = true -> session_fits (joined name id b).
Proof.
  intros Hn Hid. destruct (id_ok_typed _ Hid) as (Ht & Hne & Hs & Hv). split; cbn [us_joined us_cert_name us_election_id joined]; [done|..].
  - split; [apply Ballotctl.typed_held; [unfold BB_CERT_LEN; lia|done]|by eapply Ballotctl.typed_field].
  - split; [apply Ballotctl.typed_held; [unfold BB_ID_LEN; lia|done]|]. done.
Qed.

(** The ballot that was sent, as the request of such a session. *)
Lemma sent_is_vote op name id nonce sel : op = BCL_CAST \/ op = BCL_UPDATE -> typed (BB_CERT_LEN - 1) name -> election_id_ok id = true ->
  mkReq op name id (mkBallot name nonce (pad BB_CIPHERTEXT_MAX NUL [ascii_of_nat sel]) 1) [] zero_config =
  vote_req (joined name id (bool_decide (op = BCL_UPDATE))) (Z.of_nat sel) nonce.
Proof.
  intros Hop Hn Hid. destruct (id_ok_typed _ Hid) as (Ht & _). unfold vote_req, vote_request, vote_ballot. cbn [us_cert_name us_election_id joined bl_nonce bl_payload bl_payload_len].
  rewrite !(Ballotctl.trunc_typed BB_CERT_LEN), (Ballotctl.trunc_typed BB_ID_LEN) by done. unfold ascii_of_nat. replace (Z.to_N (Z.of_nat sel)) with (N.of_nat sel) by lia.
  by destruct Hop as [->| ->].
Qed.

Section Confirmed.
Context `{R : Runner} (host port ca : option cstr) (t : prog unit) (n : nat) (tr1 tr2 : list act) (o : option unit) (req : bcl_request_t) (ans : bb_result_t * bcl_response_t).

(** What is on the screen and what is known when [req] is sent. *)
Definition at_send : view * facts := after (upd learn) start tr1.

(** C10: what the voter confirms is what is recorded.  Whatever keys were pressed
    and whatever was answered before, a ballot that ballotu sends was confirmed
    by Enter on a question that names one option, Yes highlighted; the option
    is on the paper of the election the voter last joined; and the daemon that
    serves the voter's session leaves every store, whatever its faults, where
    [bb_record_ballot] leaves it for a ballot of that option, in that election,
    under the name the session proved. *)
Theorem confirmed_vote_is_recorded : main host port ca = Some t -> run n t (tr1 ++ Act (Send req) ans :: tr2) o ->
  along (upd learn) fit_answers start (tr1 ++ Act (Send req) ans :: tr2) -> cr_op req = BCL_CAST \/ cr_op req = BCL_UPDATE ->
  exists name id options sel option nonce,
    fa_name (snd at_send) = Some name /\ fa_paper (snd at_send) = Some (id, options) /\ options !! sel = Some option /\
    vw_accepted (fst at_send) = confirm_shown ($"Confirm vote for '" ++ option ++ $"'?") true /\
    forall date w, date_ok date ->
      let '(r, w') := bb_record_ballot id (voted name nonce (Z.of_nat sel)) w in
      r <> Err BB_ERR_RETRY -> served date name w req = w' /\ fst (send_over date name w req) = code_of r.
Proof.
  intros Hm H HT Hop. destruct (voter_main_spec _ _ _ _ _ _ Hm _ _ _ H HT) as [Hg _]. apply along_at in Hg. fold at_send in Hg. destruct Hg as (name & [Hname Hn] & Hid & Hs).
  assert (E : exists options sel option nonce, fa_paper (snd at_send) = Some (cr_election_id req, options) /\ options !! sel = Some option /\ (sel < BB_MAX_OPTIONS)%nat /\
    vw_accepted (fst at_send) = confirm_shown ($"Confirm vote for '" ++ option ++ $"'?") true /\ held BB_NONCE_LEN nonce /\ oneline nonce /\
    req = mkReq (cr_op req) name (cr_election_id req) (mkBallot name nonce (pad BB_CIPHERTEXT_MAX NUL [ascii_of_nat sel]) 1) [] zero_config)
    by (destruct Hop as [Eo|Eo]; rewrite Eo in *; exact Hs). clear Hs.
  destruct E as (options & sel & option & nonce & Hp & Ho & Hsel & Ha & Hh & Hone & Ereq). exists name, (cr_election_id req), options, sel, option, nonce.
  do 4 (split; [done|]). intros date w Hd. rewrite (sent_is_vote (cr_op req) name (cr_election_id req) nonce sel Hop Hn Hid) in Ereq.
  pose proof (vote_served (joined name (cr_election_id req) (bool_decide (cr_op req = BCL_UPDATE))) (Z.of_nat sel) nonce (joined_fits _ _ _ Hn Hid) (conj Hh Hone) date name w Hd) as Hv.
  rewrite <-Ereq in Hv. cbn [us_election_id joined] in Hv. destruct (bb_record_ballot _ _ w) as [r w']. intros Hr. destruct (Hv Hr) as (Hserved & resp & -> & _). done.
Qed.
End Confirmed.

Import Fixture.

(** Ann's run of Ballotu.v: the ballot she confirmed is that of her second
    option. *)
Example confirmed_vote_is_recorded_witness :
  exists name id options sel option nonce,
    fa_name (snd (at_send (take 81 voting_trace))) = Some name /\ fa_paper (snd (at_send (take 81 voting_trace))) = Some (id, options) /\ options !! sel = Some option /\
    vw_accepted (fst (at_send (take 81 voting_trace))) = confirm_shown ($"Confirm vote for '" ++ option ++ $"'?") true /\
    forall date w, date_ok date ->
      let '(r, w') := bb_record_ballot id (voted name nonce (Z.of_nat sel)) w in
      r <> Err BB_ERR_RETRY -> served date name w soup = w' /\ fst (send_over date name w soup) = code_of r.
Proof.
  refine (confirmed_vote_is_recorded None None None client _ (take 81 voting_trace) (drop 82 voting_trace) _ soup (friendly soup) eq_refl _ _ (or_introl eq_refl)).
  - rewrite <-voting_split. exact (drive_runs at_keys 400 client (mkUser voting friendly)).
  - rewrite <-voting_split. exact voting_answers.
Defined.

End Polling.
