(* ===== verification/Options.v ===== *)
(** * The command lines of the clients: the options of ballotu.c and ballotctl.c

    Both read their options with [getopt] and then run the screens.  Whatever
    the command line, a client ends with a status at once or is the program
    Ballotu.v and Ballotctl.v reason about, at the last option of each letter. *)
From ITree Require Import ITree.
From S2P Require Import Prelude CText Startup Dialog Tetrisui Ballotctl Ballotu.
Local Open Scope Z_scope.

Module Options.
Import Dialog Startup.

(** The argument of the last option [c] among the options read. *)
Fixpoint last_arg (c : ascii) (gs : list gopt) (so_far : option cstr) : option cstr :=
  match gs with
  | [] => so_far
  | Opt d arg :: gs' => last_arg c gs' (if ceqb d c then Some (default [] arg) else so_far)
  | Bad :: gs' => last_arg c gs' so_far
  end.

(** ** ballotu *)

Definition bu_takes (c : ascii) : option bool := if bool_decide (c ∈ $"HpC") then Some true else if ceqb c "h" then Some false else None.

(** [g_host], [g_port] and [g_ca_path]. *)
Record bu_opts := mkBu { g_host : cstr; g_port : Z; g_ca_path : cstr }.

Definition bu_initial : bu_opts :=
  mkBu (trunc Ballotu.HOST_BUF Ballotu.DEFAULT_HOST) Ballotu.DEFAULT_PORT (trunc 512 Ballotu.DEFAULT_CA_PATH).

(** The options, or the status [main] returns. *)
Definition bu_option (g : gopt) (o : bu_opts) : bu_opts + Z :=
  match g with
  | Bad => inr 2
  | Opt c arg =>
    let a := default [] arg in
    if ceqb c "H" then inl (mkBu (trunc Ballotu.HOST_BUF a) (g_port o) (g_ca_path o))
    else if ceqb c "p" then match Ballotu.port_ok a with Some p => inl (mkBu (g_host o) p (g_ca_path o)) | None => inr 2 end
    else if ceqb c "C" then inl (mkBu (g_host o) (g_port o) (trunc 512 a))
    else if ceqb c "h" then inr 0
    else inr 2
  end.

Fixpoint bu_options (gs : list gopt) (o : bu_opts) : bu_opts + Z :=
  match gs with [] => inl o | g :: gs' => match bu_option g o with inl o' => bu_options gs' o' | inr rc => inr rc end end.

Definition bu_screens (o : bu_opts) : prog unit :=
  ITree.bind Ballotu.logged_out (fun _ => ITree.bind (ITree.iter (Ballotu.main_loop (g_ca_path o)) (Ballotu.mkAddress (g_host o) (g_port o))) (fun _ => act_ Disconnect)).

(** [main] of ballotu.c; arguments that are no options are not looked at. *)
Definition bu_main (args : list cstr) : prog unit + Z :=
  match bu_options (fst (getopt bu_takes (length args) args)) bu_initial with
  | inl o => inl (bu_screens o)
  | inr rc => inr rc
  end.

(** ** ballotctl *)

Definition ctl_takes (c : ascii) : option bool := if ceqb c "C" then Some true else if ceqb c "h" then Some false else None.

Fixpoint ctl_options (gs : list gopt) (g_ctl_path : cstr) : cstr + Z :=
  match gs with
  | [] => inl g_ctl_path
  | Bad :: _ => inr 2
  | Opt c arg :: gs' =>
    if ceqb c "C" then ctl_options gs' (trunc Ballotctl.CTL_PATH_BUF (default [] arg))
    else if ceqb c "h" then inr 0
    else inr 2
  end.

Definition ctl_main (args : list cstr) : prog unit + Z :=
  match ctl_options (fst (getopt ctl_takes (length args) args)) (trunc Ballotctl.CTL_PATH_BUF Ballotctl.DEFAULT_CTL_PATH) with
  | inl path =>
    inl (ITree.bind (Tetrisui.tetrisui_set_status ($"ballotctl") ($"(not logged in)") []) (fun _ =>
         ITree.bind (Ballotctl.screen_login path) (fun login =>
         match login with None => ret tt | Some cert => ITree.iter (Ballotctl.menu_loop cert) tt end)))
  | inr rc => inr rc
  end.

(** ** The last options decide *)

(** The options stand for these arguments of [-H], [-p] and [-C]. *)
Definition stands_for (h p c : option cstr) (o : bu_opts) : Prop :=
  g_host o = trunc Ballotu.HOST_BUF (default Ballotu.DEFAULT_HOST h) /\
  match p with None => Some Ballotu.DEFAULT_PORT | Some p => Ballotu.port_ok p end = Some (g_port o) /\
  g_ca_path o = trunc 512 (default Ballotu.DEFAULT_CA_PATH c).

Lemma bu_options_last gs : forall h p c o, stands_for h p c o ->
  (exists rc, bu_options gs o = inr rc /\ (rc = 0 \/ rc = 2)) \/
  (exists o', bu_options gs o = inl o' /\ stands_for (last_arg "H" gs h) (last_arg "p" gs p) (last_arg "C" gs c) o').
Proof.
  induction gs as [|[d arg|] gs IH]; intros h p c o Ho; cbn [bu_options last_arg]; [right; by eexists| |left; by eauto].
  unfold bu_option. destruct Ho as (H1 & H2 & H3). unfold ceqb.
  destruct (decide (d = "H"%char)) as [->|]; [by apply IH|]. destruct (decide (d = "p"%char)) as [->|].
  { cbn. destruct (Ballotu.port_ok (default [] arg)) as [q|] eqn:Ep; [|left; by eauto]. apply IH. by split. }
  destruct (decide (d = "C"%char)) as [->|]; [by apply IH|]. rewrite !bool_decide_eq_false_2 by done.
  destruct (bool_decide _); left; by eauto.
Qed.

(** Whatever the command line, [ballotu] ends at once with status 0 or 2, or is
    [Ballotu.main] at its last options, of which the theorems about every run
    hold. *)
Lemma bu_main_is_main args :
  let gs := fst (getopt bu_takes (length args) args) in
  bu_main args = inr 0 \/ bu_main args = inr 2 \/
  exists t, bu_main args = inl t /\ Ballotu.main (last_arg "H" gs None) (last_arg "p" gs None) (last_arg "C" gs None) = Some t.
Proof.
  cbn zeta. unfold bu_main. set (gs := fst (getopt bu_takes (length args) args)).
  destruct (bu_options_last gs None None None bu_initial ltac:(done)) as [(rc & -> & [-> | ->])|(o & -> & H1 & H2 & H3)]; [by left|by right; left|].
  right. right. eexists. split; [done|]. unfold Ballotu.main, bu_screens. by rewrite H2, H1, H3.
Qed.

(** The same of [ballotctl]. *)
Lemma ctl_main_is_main args :
  ctl_main args = inr 0 \/ ctl_main args = inr 2 \/
  ctl_main args = inl (Ballotctl.main (last_arg "C" (fst (getopt ctl_takes (length args) args)) None)).
Proof.
  unfold ctl_main, Ballotctl.main. set (gs := fst (getopt ctl_takes (length args) args)).
  assert (H : forall c path, path = trunc Ballotctl.CTL_PATH_BUF (default Ballotctl.DEFAULT_CTL_PATH c) ->
    ctl_options gs path = inr 0 \/ ctl_options gs path = inr 2 \/ ctl_options gs path = inl (trunc Ballotctl.CTL_PATH_BUF (default Ballotctl.DEFAULT_CTL_PATH (last_arg "C" gs c)))).
  { clear. induction gs as [|[d arg|] gs IH]; intros c path ->; cbn [ctl_options last_arg]; [auto| |auto]. unfold ceqb.
    destruct (decide (d = "C"%char)) as [->|]; [by apply IH|]. rewrite !(bool_decide_eq_false_2 (d = "C"%char)) by done. case_bool_decide; auto. }
  destruct (H None (trunc Ballotctl.CTL_PATH_BUF Ballotctl.DEFAULT_CTL_PATH) eq_refl) as [-> |[-> | ->]]; auto.
Qed.

(** ** Trying it *)

Example port_refused : bu_main [$"-p"; $"abc"; $"-p"; $"7676"] = inr 2 /\ bu_main [$"-h"] = inr 0 /\ bu_main [$"-x"] = inr 2.
Proof. by vm_compute. Qed.

Example client_options_read : bu_options (fst (getopt bu_takes 9 [$"-H10.0.0.1"; $"extra"; $"-p"; $"80"; $"-C"; $"ca.pem"; $"-p81"])) bu_initial = inl (mkBu ($"10.0.0.1") 81 ($"ca.pem")).
Proof. by vm_compute. Qed.

End Options.
