(* ===== verification/Demo.v ===== *)
(** * The voter's demo: ballotu/mock.c, screens.c and main.c

    The first screens of the voter's client, over a mock of the ballot box in
    the client's own memory.  They share the widgets of Tetrisui.v with the
    real client; a screen takes the mock's state and returns it.  What both
    demos have in copy (mock.c's hashes, the results view) is here once. *)
From ITree Require Import ITree.
From S2P Require Import Prelude CText Types Rows Codec Rc Dialog Tetrisui.
Import Dialog.
Local Open Scope Z_scope.

Module Demo.
Import Tetrisui.
Local Open Scope dialog_scope.

(** ** mock.h *)

Definition MOCK_MAX_OPTIONS : nat := 8.
Definition MOCK_MAX_HASHES : nat := 40.
Definition MOCK_HASH_LEN : nat := 65.

Inductive election_state_t := ELECTION_DRAFT | ELECTION_OPEN | ELECTION_CLOSED | ELECTION_PUBLISHED.
#[export] Instance election_state_eq_dec : EqDecision election_state_t. Proof. solve_decision. Defined.

Record ballot_hash_t := mkHash { hash : cstr; option_index : nat; version : Z; superseded : bool }.

(** [option_count] and [hash_count] are the lengths. *)
Record election_t := mkElection { id : cstr; title : cstr; state : election_state_t; options : list cstr; tally : list Z; hashes : list ballot_hash_t }.

Inductive cert_status_t := CERT_INVALID | CERT_EXPIRED | CERT_NOT_ELIGIBLE | CERT_VALID.

(** [joined_election] is an index, or -1. *)
Record voter_session_t := mkSession { cert_name : cstr; joined_election : Z; has_ballot : bool; ballot_version : Z; my_hash : cstr }.

(** [g_elections], [g_session] and [hash_counter]. *)
Record demo := mkDemo { elections : list election_t; session : voter_session_t; hash_counter : Z }.

(** ** mock.c *)

Definition mock_state_str (s : election_state_t) : cstr :=
  match s with ELECTION_DRAFT => $"Draft" | ELECTION_OPEN => $"Open" | ELECTION_CLOSED => $"Closed" | ELECTION_PUBLISHED => $"Published" end.

Definition hex_digit (n : Z) : ascii := nth (Z.to_nat n) ($"0123456789abcdef") "0"%char.

Fixpoint hash_loop (n : nat) (state : Z) : cstr :=
  match n with
  | O => []
  | S n' => let state := u32 (state * 1103515245 + 12345) in hex_digit (Z.land (Z.shiftr state 16) 15) :: hash_loop n' state
  end.

Definition mock_generate_hash (seed : Z) : cstr := hash_loop (MOCK_HASH_LEN - 1) (u32 (u32 seed * 2654435761 + 1)).

(** [while (counted < tally && hash_count < MOCK_MAX_HASHES)]: the hashes added,
    given how many there are. *)
Fixpoint fill (fuel : nat) (o : nat) (counted tally : Z) (seed : Z -> Z) (hs : list ballot_hash_t) : list ballot_hash_t :=
  match fuel with
  | O => hs
  | S f =>
    if (counted <? tally) && (length hs <? MOCK_MAX_HASHES)%nat
    then fill f o (counted + 1) tally seed (hs ++ [mkHash (mock_generate_hash (seed counted)) o 1 false])
    else hs
  end.

(** The rest of the published election's list, [counted] starting at 1 for the
    second option. *)
Definition fill_option (tally : list Z) (hs : list ballot_hash_t) (o : nat) : list ballot_hash_t :=
  fill MOCK_MAX_HASHES o (if bool_decide (o = 1%nat) then 1 else 0) (nth o tally 0) (fun counted => 3000 + Z.of_nat o * 100 + counted) hs.

Definition published_hashes : list ballot_hash_t :=
  foldl (fill_option [14; 6]) [mkHash (mock_generate_hash 1001) 0 1 true; mkHash (mock_generate_hash 1002) 1 2 false] [0; 1]%nat.

Definition e100 : election_t := mkElection ($"E-100") ($"Board Motion 2026") ELECTION_OPEN [$"Approve"; $"Reject"; $"Abstain"] [0; 0; 0] [].
Definition e042 : election_t := mkElection ($"E-042") ($"Budget Ratification") ELECTION_PUBLISHED [$"Yes"; $"No"] [14; 6] published_hashes.

Definition mock_init : demo := mkDemo [e100; e042] (mkSession [] (-1) false 0 []) 1.

Definition mock_hash_key (key : cstr) : cstr :=
  if streq key ($"alice23489ut49499") then mock_generate_hash 1002
  else mock_generate_hash (i32 (Z.lor (foldl (fun h c => u32 (h * 33 + code c)) 5381 key) 1073741824)).

Definition mock_check_voter_cert (name : cstr) : cert_status_t :=
  if streq name ($"expired") then CERT_EXPIRED
  else if streq name ($"mallory") then CERT_NOT_ELIGIBLE
  else if streq name ($"alice") || streq name ($"bob") then CERT_VALID
  else CERT_INVALID.

Definition mock_is_eligible (e : election_t) (cert_name : cstr) : bool := negb (streq cert_name ($"mallory")).

(** ** screens.c *)

Definition with_session (s : voter_session_t) (d : demo) : demo := mkDemo (elections d) s (hash_counter d).
Definition join (idx : Z) (d : demo) : demo :=
  let s := session d in with_session (mkSession (cert_name s) idx (has_ballot s) (ballot_version s) (my_hash s)) d.

Definition login_body (d : demo) : prog (demo + (bool * demo)) :=
  let! r := tetrisui_input ($"ballotu - login") ($"Enter your cert name (Esc to quit):") 32 in
  match r with
  | None => ret (inr (false, d))
  | Some [] => ret (inl d)
  | Some name =>
    tetrisui_progress ($"Authenticating") [$"Opening secure session"; $"Presenting cert (tetrissh handshake)"] ;!
    match mock_check_voter_cert name with
    | CERT_EXPIRED => tetrisui_message ($"Login failed") [$"Cert expired or forged."; $"Rejected by System."] ;! ret (inl d)
    | CERT_INVALID => tetrisui_message ($"Login failed") [$"Unrecognized cert."; $"Rejected by System."] ;! ret (inl d)
    | _ =>
      tetrisui_set_status ($"ballotu") name [] ;!
      let s := session d in
      ret (inr (true, with_session (mkSession (trunc 32 name) (joined_election s) (has_ballot s) (ballot_version s) (my_hash s)) d))
    end
  end.
Definition screen_login (d : demo) : prog (bool * demo) := ITree.iter login_body d.

(** [%-24s] and [%-*s]. *)
Definition pad_to (n : nat) (s : cstr) : cstr := s ++ replicate (n - length s) " "%char.

Definition election_label (e : election_t) : cstr := trunc 64 (id e ++ $"  " ++ pad_to 24 (title e) ++ $" [" ++ mock_state_str (state e) ++ $"]").

Definition pick_election (menu_title : cstr) (es : list election_t) : prog Z := tetrisui_menu menu_title (map election_label es) (Z.of_nat (length es)).

(** The ballot of option [sel]: an update supersedes what the session holds. *)
Definition supersede (mine : cstr) (h : ballot_hash_t) : ballot_hash_t :=
  if negb (superseded h) && streq (hash h) mine then mkHash (hash h) (option_index h) (version h) true else h.

Definition record (is_update : bool) (sel : nat) (e : election_t) (s : voter_session_t) (new_hash : cstr) : election_t * voter_session_t :=
  let hs := if is_update then map (supersede (my_hash s)) (hashes e) else hashes e in
  let v := if is_update then ballot_version s + 1 else 1 in
  let hs := if (length hs <? MOCK_MAX_HASHES)%nat then hs ++ [mkHash new_hash sel v false] else hs in
  (mkElection (id e) (title e) (state e) (options e) (tally e) hs, mkSession (cert_name s) (joined_election s) true v (trunc MOCK_HASH_LEN new_hash)).

(** From the menu of options on. *)
Definition cast_ballot (is_update : bool) (idx : nat) (e : election_t) (d : demo) : prog demo :=
  let title := if is_update then trunc 64 ($"Update vote (prior ballot v" ++ print_int (ballot_version (session d)) ++ $" exists)")
               else trunc 64 ($"Cast vote: " ++ title e) in
  let! sel := tetrisui_menu title (options e) (Z.of_nat (length (options e))) in
  if sel <? 0 then ret d
  else
    let! yes := tetrisui_confirm ($"Confirm ballot") (trunc 96 ($"Confirm vote for '" ++ nth (Z.to_nat sel) (options e) [] ++ $"'?")) in
    if negb yes then ret d
    else
      tetrisui_progress (if is_update then $"Submitting updated ballot" else $"Submitting ballot")
        [$"Encrypting ballot (RSA-OAEP)"; $"Attaching anti-replay nonce"; $"Submitting over session"; $"System verifying nonce/eligibility"; $"Recording in authoritative store"] ;!
      let new_hash := mock_generate_hash (hash_counter d) in
      let '(e', s') := record is_update (Z.to_nat sel) e (session d) new_hash in
      tetrisui_message ($"Success")
        [if is_update then $"Vote updated. New receipt issued:" else $"Vote recorded. Receipt issued:"; new_hash; $"Keep this hash to check your vote later (UC-6)."] ;!
      ret (mkDemo (<[idx := e']> (elections d)) s' (hash_counter d + 1)).

(** [turns]: the calls of the other screen still allowed; the second call
    finds the ballot as the first left it and makes none. *)
Fixpoint cast_common (turns : nat) (is_update : bool) (d : demo) : prog demo :=
  if joined_election (session d) <? 0 then tetrisui_message ($"Not joined") [$"You must join an election first (UC-2)."] ;! ret d
  else
    let idx := Z.to_nat (joined_election (session d)) in
    match elections d !! idx with
    | None => ret d
    | Some e =>
      if negb (bool_decide (state e = ELECTION_OPEN)) then tetrisui_message ($"Vote rejected") [$"Election closed mid-submit."; $"Rejected by System."] ;! ret d
      else
        let reroute := match turns with O => ret d | S t => cast_common t (negb is_update) d end in
        if negb is_update && has_ballot (session d)
        then tetrisui_message ($"Already voted") [$"You already have a final ballot."; $"Routing you to Update Vote (UC-4)."] ;! reroute
        else if is_update && negb (has_ballot (session d))
        then tetrisui_message ($"Nothing to update") [$"You have no prior ballot yet."; $"Routing you to Cast Vote (UC-3)."] ;! reroute
        else cast_ballot is_update idx e d
    end.

Definition screen_cast_vote : demo -> prog demo := cast_common 1 false.
Definition screen_update_vote : demo -> prog demo := cast_common 1 true.

Fixpoint find_election (i : nat) (wanted : cstr) (es : list election_t) : option (nat * election_t) :=
  match es with
  | [] => None
  | e :: es' => if Rc.strcaseeq (id e) wanted then Some (i, e) else find_election (S i) wanted es'
  end.

Definition join_lines (e : election_t) : list cstr :=
  [trunc 80 ($"Joined " ++ id e ++ $": " ++ title e); $"Ballot options:"]
  ++ imap (fun i o => trunc 80 ($"  " ++ print_int (Z.of_nat i + 1) ++ $") " ++ o)) (options e).

Definition screen_join_election (d : demo) : prog demo :=
  let! r := tetrisui_input ($"Join election (UC-2)") ($"Enter election ID (e.g. E-100):") 16 in
  match r with
  | None => ret d
  | Some wanted =>
    match find_election 0 wanted (elections d) with
    | None => tetrisui_message ($"Join failed") [trunc 64 ($"Election '" ++ wanted ++ $"' not found.")] ;! ret d
    | Some (idx, e) =>
      if negb (bool_decide (state e = ELECTION_OPEN)) then
        tetrisui_message ($"Join refused") [trunc 96 ($"Cannot join " ++ id e ++ $": election is " ++ mock_state_str (state e) ++ $", not Open."); $"Refused."] ;! ret d
      else if negb (mock_is_eligible e (cert_name (session d))) then
        tetrisui_message ($"Join refused") [$"Your cert is not on the eligible-voter list"; $"for this election. Refused."] ;! ret d
      else
        tetrisui_progress ($"Joining election") [$"Presenting voter cert"; $"Verifying eligibility"; $"Confirming election is Open"] ;!
        let d := join (Z.of_nat idx) d in
        if has_ballot (session d)
        then tetrisui_message ($"Already voted") [$"You already have a ballot for this election."; $"Routing you to Update Vote (UC-4)."] ;! screen_update_vote d
        else tetrisui_message ($"Join successful") (join_lines e) ;! ret d
    end
  end.

(** *** The results view *)

Definition COL_W : nat := 66.
Definition MAX_LINES : nat := MOCK_MAX_OPTIONS + MOCK_MAX_HASHES + 6.
Definition LINE_BYTES : nat := MOCK_MAX_OPTIONS * COL_W + 1.

Definition tally_line (option : cstr) (n : Z) : cstr :=
  let t := print_int n in
  trunc LINE_BYTES ($"  " ++ pad_to 10 option ++ $" " ++ replicate (3 - length t) " "%char ++ t ++ $" " ++ replicate (Z.to_nat (Z.min n 20)) "#"%char).

(** One line of columns: [pos] and what the line holds, [snprintf] writing at
    [pos] what still fits. *)
Definition add_column (st : nat * cstr) (cell : cstr) : nat * cstr :=
  let '(pos, buf) := st in (pos + length (pad_to COL_W cell), buf ++ trunc (LINE_BYTES - pos) (pad_to COL_W cell))%nat.
Definition column_line (cells : list cstr) : cstr := snd (foldl add_column (0%nat, []) cells).

(** [per[o]]: the counted hashes of option [o], in order. *)
Definition per (e : election_t) (o : nat) : list cstr :=
  map hash (List.filter (fun h => negb (superseded h) && bool_decide (option_index h = o)) (hashes e)).

Definition max_cnt (e : election_t) : nat := list_max (map (fun o => length (per e o)) (seq 0 (length (options e)))).

Definition results_lines (e : election_t) : list cstr :=
  [trunc LINE_BYTES (id e ++ $": " ++ title e); $"Tally:"]
  ++ zip_with tally_line (options e) (tally e)
  ++ [$"Ballot hashes (counted votes, one column per option):"; column_line (options e)]
  ++ map (fun r => column_line (map (fun o => nth r (per e o) []) (seq 0 (length (options e))))) (seq 0 (max_cnt e)).

Definition view_results (menu_title : cstr) (es : list election_t) : prog unit :=
  let! idx := pick_election menu_title es in
  if idx <? 0 then ret tt
  else match es !! Z.to_nat idx with
       | None => ret tt
       | Some e =>
         if negb (bool_decide (state e = ELECTION_PUBLISHED)) then tetrisui_message ($"Not published") [$"Results not available."]
         else tetrisui_list_view ($"Election results") (results_lines e)
       end.
Definition screen_view_results (d : demo) : prog unit := view_results ($"Select election") (elections d).

(** *** Checking a vote *)

Fixpoint find_counted (wanted : cstr) (hs : list ballot_hash_t) : option ballot_hash_t :=
  match hs with
  | [] => None
  | h :: hs' => if superseded h then find_counted wanted hs' else if streq (hash h) wanted then Some h else find_counted wanted hs'
  end.

Fixpoint find_receipt (wanted : cstr) (es : list election_t) : option (election_t * ballot_hash_t) :=
  match es with
  | [] => None
  | e :: es' =>
    if negb (bool_decide (state e = ELECTION_PUBLISHED)) then find_receipt wanted es'
    else match find_counted wanted (hashes e) with Some h => Some (e, h) | None => find_receipt wanted es' end
  end.

Definition check_report (key : cstr) (es : list election_t) : cstr * list cstr :=
  let h := mock_hash_key key in
  let line1 := trunc 96 ($"Receipt hash: " ++ h) in
  match find_receipt h es with
  | Some (e, b) =>
    ($"Verified", [line1; trunc 96 (id e ++ $": " ++ title e); trunc 96 ($"Your vote is '" ++ nth (option_index b) (options e) [] ++ $"' and is included in the tally.")])
  | None => ($"Verification failed", [line1; $"Hash not found in the published tally."; $"Verification FAILED - dropped ballot."; $"Please raise this with the Admin."])
  end.

Definition screen_check_vote (d : demo) : prog unit :=
  let! r := tetrisui_input ($"Check your vote (UC-6)") ($"Enter your secret ballot key:") 64 in
  match r with
  | None | Some [] => ret tt
  | Some key => let '(t, lines) := check_report key (elections d) in tetrisui_message t lines
  end.

(** ** main.c *)

Definition menu_items : list cstr :=
  [$"Join election (UC-2)"; $"Cast vote (UC-3)"; $"Update vote (UC-4)"; $"View results (UC-5)"; $"Check your vote (UC-6)"; $"Quit"].

Definition choose (sel : Z) (d : demo) : prog demo :=
  match sel with
  | 0 => screen_join_election d
  | 1 => screen_cast_vote d
  | 2 => screen_update_vote d
  | 3 => screen_view_results d ;! ret d
  | 4 => screen_check_vote d ;! ret d
  | _ => ret d
  end.

Definition menu_loop (d : demo) : prog (demo + demo) :=
  let! sel := tetrisui_menu ($"ballotu - voter menu") menu_items 6 in
  if (sel <? 0) || (sel =? 5) then ret (inr d) else let! d := choose sel d in ret (inl d).

(** The state at the end is only for the theorems. *)
Definition main : prog demo :=
  tetrisui_set_status ($"ballotu") ($"(not logged in)") [] ;!
  let! r := screen_login mock_init in
  let '(ok, d) := r in if ok then ITree.iter menu_loop d else ret d.

End Demo.

Module DemoLogic.
Import Tetrisui Demo.

Lemma hash_length seed : length (mock_generate_hash seed) = 64%nat.
Proof. unfold mock_generate_hash. generalize (u32 (u32 seed * 2654435761 + 1)). change (MOCK_HASH_LEN - 1)%nat with 64%nat.
  generalize 64%nat. induction n as [|n IH]; intros z; cbn [hash_loop length]; [done|]. by rewrite IH. Qed.

(** The proofs use nothing of the published election but its state. *)
Local Opaque published_hashes mock_generate_hash.

(** ** What the mock holds at every menu *)

Definition counted (e : election_t) : list ballot_hash_t := List.filter (fun h => negb (superseded h)) (hashes e).

Definition el_ok (e : election_t) : Prop :=
  (length (options e) <= MOCK_MAX_OPTIONS)%nat /\ length (tally e) = length (options e) /\ Forall (fun o => length o < 32)%nat (options e)
  /\ (length (hashes e) <= MOCK_MAX_HASHES)%nat /\ Forall (fun h => option_index h < length (options e) /\ length (hash h) = 64)%nat (hashes e).

(** The open election and what the session says of it: one counted ballot, the
    one whose receipt the voter holds, as long as the list has room. *)
Definition paper_ok (e : election_t) (s : voter_session_t) : Prop :=
  if has_ballot s then
    joined_election s = 0 /\ 1 <= ballot_version s /\ length (hashes e) = Z.to_nat (Z.min (ballot_version s) 40)
    /\ map hash (counted e) = if ballot_version s <=? 40 then [my_hash s] else []
  else hashes e = [] /\ (joined_election s = -1 \/ joined_election s = 0).

Definition box (d : demo) : Prop :=
  exists e, elections d = [e; e042] /\ state e = ELECTION_OPEN /\ id e = id e100 /\ el_ok e /\ options e <> [] /\ paper_ok e (session d).

Lemma counted_app e hs h : counted (mkElection (id e) (title e) (state e) (options e) (tally e) (hs ++ [h])) =
  List.filter (fun h => negb (superseded h)) hs ++ (if superseded h then [] else [h]).
Proof. unfold counted. cbn [hashes]. rewrite List.filter_app. cbn. by destruct (superseded h). Qed.

(** Superseding the hash the counted ones have leaves none counted. *)
Lemma supersede_all mine hs : (forall h, h ∈ List.filter (fun h => negb (superseded h)) hs -> hash h = mine) ->
  List.filter (fun h => negb (superseded h)) (map (supersede mine) hs) = [].
Proof.
  induction hs as [|h hs IH]; intros H; [done|]. cbn [map List.filter] in *. unfold supersede at 1. destruct (superseded h) eqn:E; cbn [negb andb] in *.
  - rewrite E. cbn [negb]. by apply IH.
  - assert (hash h = mine) as -> by (apply H; left). unfold streq. rewrite (proj2 (strcmp_0 mine mine)) by done. cbn [superseded negb Z.eqb].
    apply IH. intros x Hx. apply H. by right.
Qed.

Lemma supersede_keeps mine hs n : Forall (fun h => option_index h < n /\ length (hash h) = 64)%nat hs ->
  Forall (fun h => option_index h < n /\ length (hash h) = 64)%nat (map (supersede mine) hs).
Proof. intros H. apply List.Forall_map. eapply Forall_impl; [exact H|]. intros h Hh. unfold supersede. by destruct (_ && _). Qed.

Lemma record_ok is_update sel e s seed :
  el_ok e -> state e = ELECTION_OPEN -> (sel < length (options e))%nat -> joined_election s = 0 -> has_ballot s = is_update -> paper_ok e s ->
  let '(e', s') := record is_update sel e s (mock_generate_hash seed) in
  el_ok e' /\ paper_ok e' s' /\ options e' = options e /\ state e' = state e /\ id e' = id e.
Proof.
  intros (H1 & H2 & H3 & H4 & H5) Hst Hsel Hj Hb Hp. unfold record. set (nh := mock_generate_hash seed).
  assert (Hn : length nh = 64%nat) by apply hash_length.
  assert (HT : trunc MOCK_HASH_LEN nh = nh) by (unfold trunc; rewrite take_ge; [done|unfold MOCK_HASH_LEN; lia]).
  set (hs := if is_update then map (supersede (my_hash s)) (hashes e) else hashes e).
  assert (HL : length hs = length (hashes e)) by (unfold hs; destruct is_update; [apply length_map|done]).
  assert (HF : Forall (fun h => option_index h < length (options e) /\ length (hash h) = 64)%nat hs)
    by (unfold hs; destruct is_update; [by apply supersede_keeps|done]).
  assert (HN : List.filter (fun h => negb (superseded h)) hs = []).
  { unfold hs, paper_ok in *. rewrite Hb in Hp. destruct is_update; [|by destruct Hp as [-> _]]. destruct Hp as (_ & _ & _ & Hc).
    apply supersede_all. intros h Hh. fold (counted e) in Hh. assert (Hm : hash h ∈ map hash (counted e)) by (apply list_elem_of_fmap; eauto).
    rewrite Hc in Hm. destruct (_ <=? _); [by apply list_elem_of_singleton in Hm|by apply elem_of_nil in Hm]. }
  set (v := if is_update then ballot_version s + 1 else 1).
  assert (HV : 1 <= v /\ length (hashes e) = Z.to_nat (Z.min (v - 1) 40)).
  { unfold v, paper_ok in *. rewrite Hb in Hp. destruct is_update; [|by destruct Hp as [-> _]].
    destruct Hp as (_ & Hv & Hl & _). replace (ballot_version s + 1 - 1) with (ballot_version s) by lia. split; [lia|done]. }
  destruct HV as [HV HVl]. unfold MOCK_MAX_HASHES in *. destruct (Nat.ltb_spec (length hs) 40) as [Hr|Hr].
  - split; [|split; [|done]].
    + split; [done|]. split; [done|]. split; [done|]. cbn [hashes options]. rewrite length_app. cbn [length]. split; [unfold MOCK_MAX_HASHES; lia|].
      apply Forall_app. split; [done|]. repeat constructor; done.
    + unfold paper_ok. cbn [has_ballot joined_election ballot_version my_hash hashes]. rewrite counted_app, HN, HT, length_app. cbn [superseded app map hash length].
      split; [done|]. split; [done|]. split; [lia|]. rewrite (proj2 (Z.leb_le _ _)) by lia. done.
  - split; [|split; [|done]].
    + split; [done|]. split; [done|]. split; [done|]. cbn [hashes options]. split; [unfold MOCK_MAX_HASHES; lia|done].
    + unfold paper_ok. cbn [has_ballot joined_election ballot_version my_hash hashes]. unfold counted. cbn [hashes]. rewrite HN.
      split; [done|]. split; [done|]. split; [lia|]. rewrite (proj2 (Z.leb_gt _ _)) by lia. done.
Qed.

(** ** Every run

    The demo does nothing but read keys and draw. *)
Definition no_trust (s : view * unit) (a : act) : Prop := True.
Definition drawn (s : view * unit) (a : act) : Prop := screen_act a = true.
Definition still (v : view) (x : unit) (a : act) : unit := x.

Lemma nothing_kept v x a : screen_act a = true -> still v x a = x.
Proof. done. Qed.
Lemma drawn_screen s a : screen_act a = true -> drawn s a.
Proof. done. Qed.

Abbreviation dsafe := (Dialog.safe (upd still) no_trust drawn).
Ltac widget H := eapply safe_bind; [apply (H _ still no_trust drawn nothing_kept drawn_screen)|cbn beta; intros ? [? []] ?].

Definition returns_box (d : demo) (_ : view * unit) : Prop := box d.

(** A message or a progress panel, then the rest. *)
Lemma message_then {R} v x title lines (k : prog R) Q : (forall w, dsafe (w, tt) k Q) -> dsafe (v, x) (ITree.bind (tetrisui_message title lines) (fun _ => k)) Q.
Proof. intros H. widget @message_spec. apply H. Qed.
Lemma progress_then {R} v x title steps (k : prog R) Q : (forall w, dsafe (w, tt) k Q) -> dsafe (v, x) (ITree.bind (tetrisui_progress title steps) (fun _ => k)) Q.
Proof. intros H. widget @progress_spec. apply H. Qed.

Ltac told := apply message_then || apply progress_then; intros ?.

Lemma demo_ballot_spec v is_update e d : elections d = [e; e042] -> box d -> has_ballot (session d) = is_update -> joined_election (session d) = 0 ->
  dsafe (v, tt) (cast_ballot is_update 0 e d) returns_box.
Proof.
  intros He Hbox Hb Hj. unfold cast_ballot. widget @menu_spec. destruct (Z.ltb_spec a 0); [exact (safe_ret _ _ _ _ _ _ Hbox)|].
  destruct H as [_ [->|(Hr & _)]]; [lia|]. widget @confirm_spec. destruct (negb a0); [exact (safe_ret _ _ _ _ _ _ Hbox)|]. told.
  destruct Hbox as (e' & He' & Hst & Hid & Hok & Hne & Hp). assert (E : e = e') by (rewrite He in He'; exact (f_equal (fun l => nth 0 l e) He')). subst e'.
  pose proof (record_ok is_update (Z.to_nat a) e (session d) (hash_counter d) Hok Hst ltac:(lia) Hj Hb Hp) as HR.
  destruct (record is_update (Z.to_nat a) e (session d) (mock_generate_hash (hash_counter d))) as [e1 s1]. destruct HR as (Hok1 & Hp1 & Ho1 & Hs1 & Hi1).
  told. apply safe_ret. exists e1. cbn [elections session]. rewrite He, Ho1, Hs1, Hi1. done.
Qed.

(** The two screens send the voter to each other once at most. *)
Lemma demo_cast_spec v is_update d t : box d -> (has_ballot (session d) = is_update \/ t <> 0%nat) -> dsafe (v, tt) (cast_common t is_update d) returns_box.
Proof.
  intros Hbox. pose proof Hbox as (e & He & Hst & _ & _ & _ & Hp). revert v is_update. induction t as [|t IH]; intros v is_update Ht; cbn [cast_common].
  all: destruct (Z.ltb_spec (joined_election (session d)) 0); [told; exact (safe_ret _ _ _ _ _ _ Hbox)|].
  all: assert (Hj : joined_election (session d) = 0) by (unfold paper_ok in Hp; destruct (has_ballot (session d)); [apply Hp|destruct Hp as [_ [|]]; lia]).
  all: rewrite Hj, (eq_trans (f_equal (lookup (Z.to_nat 0)) He) (eq_refl (Some e))), Hst; rewrite bool_decide_eq_true_2 by reflexivity; cbn [negb].
  - destruct Ht as [Ht|]; [|done]. rewrite Ht. destruct is_update; cbn [negb andb]; by apply demo_ballot_spec.
  - destruct (has_ballot (session d)) eqn:Hb, is_update; cbn [negb andb].
    + by apply demo_ballot_spec.
    + told. apply IH. by left.
    + told. apply IH. by left.
    + by apply demo_ballot_spec.
Qed.

Lemma join_box d : box d -> box (join 0 d).
Proof.
  intros (e & He & Hst & Hid & Hok & Hne & Hp). exists e. do 5 (split; [done|]). unfold paper_ok in *. cbn [join with_session session has_ballot joined_election ballot_version my_hash].
  destruct (has_ballot (session d)); [|destruct Hp; auto]. destruct Hp as (_ & ? & ? & ?). auto.
Qed.

Lemma demo_join_spec v d : box d -> dsafe (v, tt) (screen_join_election d) returns_box.
Proof.
  intros Hbox. unfold screen_join_election. widget @input_spec; [lia|]. destruct a as [wanted|]; [|exact (safe_ret _ _ _ _ _ _ Hbox)].
  destruct (find_election 0 wanted (elections d)) as [[idx e]|] eqn:Ef; [|told; exact (safe_ret _ _ _ _ _ _ Hbox)].
  destruct (bool_decide (state e = ELECTION_OPEN)) eqn:Eo; cbn [negb]; [|told; exact (safe_ret _ _ _ _ _ _ Hbox)]. apply bool_decide_eq_true in Eo.
  destruct (negb (mock_is_eligible e _)); [told; exact (safe_ret _ _ _ _ _ _ Hbox)|]. told.
  assert (Hi : idx = 0%nat).
  { destruct Hbox as (e' & He & _). rewrite He in Ef. cbn [find_election] in Ef. destruct (Rc.strcaseeq (id e') wanted); [by simplify_eq|].
    destruct (Rc.strcaseeq (id e042) wanted); [|done]. injection Ef as <- <-. discriminate Eo. }
  subst idx. pose proof (join_box d Hbox) as Hjb. change (Z.of_nat 0) with 0.
  destruct (has_ballot (session (join 0 d))); told; [|exact (safe_ret _ _ _ _ _ _ Hjb)]. apply demo_cast_spec; auto.
Qed.

Lemma demo_view_spec v title es : dsafe (v, tt) (view_results title es) (fun _ _ => True).
Proof.
  unfold view_results, pick_election. widget @menu_spec. destruct (a <? 0); [by apply safe_ret|]. destruct (es !! Z.to_nat a) as [e|]; [|by apply safe_ret].
  destruct (negb _); eapply safe_mono; try done; [apply (message_spec still no_trust drawn nothing_kept drawn_screen)|apply (list_view_spec still no_trust drawn nothing_kept drawn_screen)].
Qed.

Lemma demo_check_spec v d : dsafe (v, tt) (screen_check_vote d) (fun _ _ => True).
Proof.
  unfold screen_check_vote. widget @input_spec; [lia|]. destruct a as [[|c key]|]; [by apply safe_ret| |by apply safe_ret].
  destruct (check_report (c :: key) (elections d)) as [t lines]. eapply safe_mono; [apply (message_spec still no_trust drawn nothing_kept drawn_screen)|done].
Qed.

Lemma demo_choose_spec v sel d : box d -> dsafe (v, tt) (choose sel d) returns_box.
Proof.
  intros Hbox. unfold choose.
  assert (HS : forall (t : prog unit), (forall w, dsafe (w, tt) t (fun _ _ => True)) -> dsafe (v, tt) (ITree.bind t (fun _ => ret d)) returns_box).
  { intros t Ht. eapply safe_bind; [apply Ht|]. intros _ s _. exact (safe_ret _ _ _ _ _ _ Hbox). }
  destruct sel as [|[[[]|[]|]|[[]|[]|]|]|]; try exact (safe_ret _ _ _ _ _ _ Hbox).
  - by apply demo_join_spec.
  - apply HS. intros w. apply demo_view_spec.
  - apply HS. intros w. apply demo_check_spec.
  - apply demo_cast_spec; auto.
  - apply demo_cast_spec; auto.
Qed.

Lemma initial_box : box mock_init.
Proof.
  exists e100. do 3 (split; [reflexivity|]). split; [|split; [discriminate|split; [reflexivity|by left]]].
  unfold el_ok. cbn [e100 options tally hashes]. repeat split; repeat constructor; cbn; unfold MOCK_MAX_OPTIONS; lia.
Qed.

Lemma demo_login_spec v d : box d -> dsafe (v, tt) (screen_login d) (fun r _ => box (snd r)).
Proof.
  intros Hbox. unfold screen_login. apply (safe_iter _ _ _ _ _ _ returns_box); [exact Hbox|]. clear v d Hbox. intros d [v []] Hbox.
  unfold login_body. widget @input_spec; [lia|]. destruct a as [[|c name]|]; [(apply safe_ret; exact Hbox)| |(apply safe_ret; exact Hbox)]. told.
  destruct (mock_check_voter_cert (c :: name)); try (told; (apply safe_ret; exact Hbox));
    (widget @set_status_spec; apply safe_ret; exact Hbox).
Qed.

(** In every run of the demo, whatever is typed, it reads keys and draws and
    nothing else, and when it ends the voter has one counted ballot, the one of
    the receipt on the last screen, or none: before the first vote, and once
    the list of forty is full. *)
Lemma demo_main_spec v : dsafe (v, tt) main returns_box.
Proof.
  unfold main. widget @set_status_spec. destruct H. eapply safe_bind; [apply (demo_login_spec _ _ initial_box)|]. intros [ok d] [w []] Hbox. cbn [snd] in Hbox.
  destruct ok; [|(apply safe_ret; exact Hbox)]. apply (safe_iter _ _ _ _ _ _ returns_box); [exact Hbox|]. clear. intros d [v []] Hbox.
  unfold menu_loop. widget @menu_spec. destruct ((a <? 0) || (a =? 5)); [(apply safe_ret; exact Hbox)|].
  eapply safe_bind; [by apply demo_choose_spec|]. intros d' s' Hd. (apply safe_ret; exact Hd).
Qed.

(** ** The results view fits *)

Lemma column_line_length cells : (length cells <= MOCK_MAX_OPTIONS)%nat -> Forall (fun c => length c <= COL_W)%nat cells ->
  column_line cells = concat (map (pad_to COL_W) cells) /\ length (column_line cells) = (COL_W * length cells)%nat.
Proof.
  intros Hn Hc. unfold column_line.
  assert (H : forall pos buf, length buf = pos -> (pos + COL_W * length cells < LINE_BYTES)%nat ->
    snd (foldl add_column (pos, buf) cells) = buf ++ concat (map (pad_to COL_W) cells) /\ length (concat (map (pad_to COL_W) cells)) = (COL_W * length cells)%nat).
  { clear Hn. induction Hc as [|c cells Hc _ IH]; intros pos buf Hb Hl; cbn [foldl map concat]; [by rewrite app_nil_r, Nat.mul_0_r|].
    assert (HP : length (pad_to COL_W c) = COL_W) by (unfold pad_to; rewrite length_app, length_replicate; lia).
    cbn [length] in Hl. unfold add_column at 2. rewrite HP. assert (HT : trunc (LINE_BYTES - pos) (pad_to COL_W c) = pad_to COL_W c) by (unfold trunc; apply take_ge; lia).
    rewrite HT. destruct (IH (pos + COL_W)%nat (buf ++ pad_to COL_W c)) as [-> H2]; [by rewrite length_app, HP, Hb|lia|].
    rewrite length_app, HP, H2, <-app_assoc. split; [done|]. cbn [length]. lia. }
  destruct (H 0%nat [] eq_refl) as [-> HL]; [unfold LINE_BYTES, COL_W, MOCK_MAX_OPTIONS in *; lia|]. by rewrite app_nil_l.
Qed.

Lemma per_length e o : (length (per e o) <= length (hashes e))%nat.
Proof. unfold per. rewrite length_map. apply List.filter_length_le. Qed.

(** The lines of an election fit the screen's arrays. *)
Lemma results_fit e : el_ok e -> (length (results_lines e) <= MAX_LINES)%nat.
Proof.
  intros (H1 & H2 & _ & H4 & _). unfold results_lines. rewrite !length_app, length_zip_with, H2, length_map, length_seq. cbn [length].
  assert (max_cnt e <= MOCK_MAX_HASHES)%nat; [|unfold MAX_LINES, MOCK_MAX_OPTIONS, MOCK_MAX_HASHES in *; lia].
  apply list_max_le. rewrite List.Forall_map. apply Forall_forall. intros o _. pose proof (per_length e o). lia.
Qed.

(** ** Trying it *)

Example alice_key : check_report ($"alice23489ut49499") [e100; e042] =
  ($"Verified", [$"Receipt hash: " ++ mock_generate_hash 1002; $"E-042: Budget Ratification"; $"Your vote is 'No' and is included in the tally."]).
Proof. vm_compute. reflexivity. Qed.

(** The published list matches its tally. *)
Example published_matches : map (fun o => length (per e042 o)) [0; 1]%nat = [14; 6]%nat /\ length published_hashes = 21%nat.
Proof. vm_compute. done. Qed.

(** One vote and forty updates: the last receipt is of no ballot. *)
Fixpoint vote_again (n : nat) (seed : Z) (e : election_t) (s : voter_session_t) : election_t * voter_session_t :=
  match n with
  | O => (e, s)
  | S n' => let '(e, s) := record (has_ballot s) 0 e s (mock_generate_hash seed) in vote_again n' (seed + 1) e s
  end.
Example forty_first_is_lost :
  let s0 := mkSession ($"alice") 0 false 0 [] in
  length (counted (fst (vote_again 40 1 e100 s0))) = 1%nat /\ counted (fst (vote_again 41 1 e100 s0)) = [].
Proof. vm_compute. done. Qed.

(** Alice logs in, joins, votes for the second option and quits. *)
Definition session_keys : list key :=
  typing ($"alice") ++ [Byte LF] ++ typing ($"E-100") ++ [Byte LF; KEY_DOWN; Byte LF; KEY_DOWN; Byte LF; Byte LF; Byte LF; Byte "q"].
Definition at_demo : option demo := snd (fst (drive at_keys 400 main (mkUser session_keys (fun _ => (BB_OK, Codec.zero_resp))))).
Example alice_votes : (fun d => map (fun e => (option_index <$> counted e)) (take 1 (elections d))) <$> at_demo = Some [[1%nat]]
  /\ (fun d => ballot_version (session d)) <$> at_demo = Some 1.
Proof. vm_compute. done. Qed.

End DemoLogic.
