(* ===== verification/Democtl.v ===== *)
(** * The administrator's demo: ballotctl/mock.c, screens.c and main.c

    The screens of the first admin client over the mock's elections, with the
    widgets of Tetrisui.v and what Demo.v shares with the voter's demo. *)
From ITree Require Import ITree.
From S2P Require Import Prelude CText Types Rows Codec Rc Dialog Tetrisui Ballotctl Demo.
Import Dialog.
Local Open Scope Z_scope.

Module Democtl.
Import Tetrisui Demo.
Local Open Scope dialog_scope.

Definition MOCK_MAX_ELECTIONS : nat := 8.
Definition MOCK_MAX_VOTERS : nat := 8.

(** What an election has here beside the voter's part of it. *)
Record admin_election_t := mkAdmin { base : election_t; eligible : list cstr; open_time : cstr; close_time : cstr }.

Definition mock_check_admin_cert (name : cstr) : bool := streq name ($"admin").

Definition mock_init : list admin_election_t := [mkAdmin e042 [$"alice"; $"bob"] ($"2026-06-01 09:00") ($"2026-06-08 09:00")].

(** ** screens.c *)

Definition login_body (_ : unit) : prog (unit + bool) :=
  let! r := tetrisui_input ($"ballotctl - admin login") ($"Enter admin cert name (Esc to quit):") 32 in
  match r with
  | None => ret (inr false)
  | Some [] => ret (inl tt)
  | Some name =>
    tetrisui_progress ($"Authenticating") [$"Opening secure session"; $"Presenting admin cert"] ;!
    if negb (mock_check_admin_cert name)
    then tetrisui_message ($"Login failed") [$"Invalid admin cert."; $"Rejected and logged."] ;! ret (inl tt)
    else tetrisui_set_status ($"ballotctl") name [] ;! ret (inr true)
  end.
Definition screen_login : prog bool := ITree.iter login_body tt.

Definition split_csv (src : cstr) (max : nat) : list cstr :=
  map (fun tok => trunc 32 (Ballotctl.skip_spaces tok)) (take max (Ballotctl.tokens (trunc 256 src) [])).

Definition create_labels : list cstr :=
  [$"Title"; $"Options (comma-separated)"; $"Eligible voter certs (comma-separated)"; $"Open time"; $"Close time"].
Definition create_values : list cstr := [[]; []; []; $"2026-01-01 09:00"; $"2026-01-08 09:00"].

Definition field (values : list cstr) (i : nat) : cstr := nth i values [].

(** The election of a form, in its place in the table. *)
Definition new_election (place : nat) (values : list cstr) : admin_election_t :=
  let opts := split_csv (field values 1) MOCK_MAX_OPTIONS in
  mkAdmin (mkElection (trunc 16 ($"E-" ++ print_int (100 + Z.of_nat place))) (trunc 64 (field values 0)) ELECTION_DRAFT opts (map (fun _ => 0) opts) [])
    (split_csv (field values 2) MOCK_MAX_VOTERS) (trunc 32 (field values 3)) (trunc 32 (field values 4)).

Definition create_body (es : list admin_election_t) (values : list cstr) : prog (list cstr + list admin_election_t) :=
  let! r := tetrisui_form ($"Create election (UC-1)") create_labels values in
  let '(entered, values) := r in
  if negb entered then ret (inr es)
  else if bool_decide (field values 0 = []) || bool_decide (split_csv (field values 1) MOCK_MAX_OPTIONS = []) then
    tetrisui_message ($"Rejected (alt flow 4a)") [$"Config invalid: title and options are required."; $"Staying in Draft - fix and retry."] ;! ret (inl values)
  else if 0 <=? strcmp (field values 3) (field values 4) then
    tetrisui_message ($"Rejected (alt flow 4a)") [$"Config invalid: close time must be after open time."; $"Staying in Draft - fix and retry."] ;! ret (inl values)
  else if (MOCK_MAX_ELECTIONS <=? length es)%nat then
    tetrisui_message ($"Rejected") [$"Demo limit reached: cannot create more elections."] ;! ret (inr es)
  else
    let e := new_election (length es) values in
    tetrisui_progress ($"Creating election") [$"Verifying admin cert"; $"Validating configuration"; $"Initialising authoritative store (Draft)"] ;!
    tetrisui_message ($"Created") [trunc 64 ($"Election " ++ id (base e) ++ $" created in Draft."); $"Use Open Election to make it live."] ;!
    ret (inr (es ++ [e])).
Definition screen_create_election (es : list admin_election_t) : prog (list admin_election_t) := ITree.iter (create_body es) create_values.

Definition with_state (st : election_state_t) (a : admin_election_t) : admin_election_t :=
  let e := base a in mkAdmin (mkElection (id e) (title e) st (options e) (tally e) (hashes e)) (eligible a) (open_time a) (close_time a).

Definition pick (menu_title : cstr) (es : list admin_election_t) : prog Z := pick_election menu_title (map base es).

Definition transition (from to : election_state_t) (verb : cstr) (steps : list cstr) (es : list admin_election_t) : prog (list admin_election_t) :=
  let! idx := pick verb es in
  if idx <? 0 then ret es
  else match es !! Z.to_nat idx with
       | None => ret es
       | Some a =>
         if negb (bool_decide (state (base a) = from)) then
           tetrisui_message ($"Invalid transition") [trunc 96 ($"Cannot " ++ verb ++ $": election is currently " ++ mock_state_str (state (base a)) ++ $".")] ;! ret es
         else
           let! yes := tetrisui_confirm ($"Confirm") (trunc 96 (verb ++ $" election " ++ id (base a) ++ $"?")) in
           if negb yes then ret es
           else tetrisui_progress verb steps ;!
                tetrisui_message ($"Done") [trunc 64 ($"Election " ++ id (base a) ++ $" is now " ++ mock_state_str to ++ $".")] ;!
                ret (<[Z.to_nat idx := with_state to a]> es)
       end.
Definition screen_open_election : list admin_election_t -> prog (list admin_election_t) :=
  transition ELECTION_DRAFT ELECTION_OPEN ($"Open") [$"Transitioning Draft -> Open"; $"System begins accepting voters"].
Definition screen_close_election : list admin_election_t -> prog (list admin_election_t) :=
  transition ELECTION_OPEN ELECTION_CLOSED ($"Close") [$"Transitioning Open -> Closed"; $"System stops accepting new ballots"].

(** The made-up count: [3 * (o + 1)] votes for option [o], a hash each while
    there is room. *)
Definition mock_tally (n : nat) : list Z := map (fun o => (Z.of_nat o + 1) * 3) (seq 0 n).
Definition mock_hashes (n : nat) : list ballot_hash_t :=
  foldl (fun hs o => fill MOCK_MAX_HASHES o 0 ((Z.of_nat o + 1) * 3) (fun i => 2000 + Z.of_nat o * 100 + i) hs) [] (seq 0 n).

Definition publish (a : admin_election_t) : admin_election_t :=
  let e := base a in
  let '(t, hs) := match hashes e with [] => (mock_tally (length (options e)), mock_hashes (length (options e))) | _ => (tally e, hashes e) end in
  mkAdmin (mkElection (id e) (title e) ELECTION_PUBLISHED (options e) t hs) (eligible a) (open_time a) (close_time a).

Definition screen_publish_results (es : list admin_election_t) : prog (list admin_election_t) :=
  let! idx := pick ($"Publish") es in
  if idx <? 0 then ret es
  else match es !! Z.to_nat idx with
       | None => ret es
       | Some a =>
         if negb (bool_decide (state (base a) = ELECTION_CLOSED)) then
           tetrisui_message ($"Invalid transition") [trunc 96 ($"Cannot publish: election is currently " ++ mock_state_str (state (base a)) ++ $".")] ;! ret es
         else
           let! yes := tetrisui_confirm ($"Confirm") (trunc 64 ($"Publish results for " ++ id (base a) ++ $"?")) in
           if negb yes then ret es
           else tetrisui_progress ($"Publish") [$"Aggregating tally"; $"Compiling ballot hash list"; $"Publishing result view"] ;!
                tetrisui_message ($"Done") [trunc 64 ($"Election " ++ id (base a) ++ $" published.")] ;!
                ret (<[Z.to_nat idx := publish a]> es)
       end.

Definition screen_view_results (es : list admin_election_t) : prog unit := view_results ($"View results (UC-5)") (map base es).

Definition status_line (a : admin_election_t) : cstr :=
  let e := base a in
  trunc 100 (id e ++ $"  " ++ pad_to 24 (title e) ++ $" [" ++ mock_state_str (state e) ++ $"]  open:" ++ open_time a ++ $" close:" ++ close_time a).
Definition screen_election_status (es : list admin_election_t) : prog unit := tetrisui_list_view ($"Election status") (map status_line es).

(** ** main.c *)

Definition menu_items : list cstr :=
  [$"Create election (UC-1)"; $"Open election"; $"Close election"; $"Publish results"; $"View results (UC-5)"; $"Election status"; $"Quit"].

Definition choose (sel : Z) (es : list admin_election_t) : prog (list admin_election_t) :=
  match sel with
  | 0 => screen_create_election es
  | 1 => screen_open_election es
  | 2 => screen_close_election es
  | 3 => screen_publish_results es
  | 4 => screen_view_results es ;! ret es
  | 5 => screen_election_status es ;! ret es
  | _ => ret es
  end.

Definition menu_loop (es : list admin_election_t) : prog (list admin_election_t + list admin_election_t) :=
  let! sel := tetrisui_menu ($"ballotctl - admin menu") menu_items 7 in
  if (sel <? 0) || (sel =? 6) then ret (inr es) else let! es := choose sel es in ret (inl es).

Definition main : prog (list admin_election_t) :=
  tetrisui_set_status ($"ballotctl") ($"(not logged in)") [] ;!
  let! ok := screen_login in
  if ok then ITree.iter menu_loop mock_init else ret mock_init.

End Democtl.

Module DemoctlLogic.
Import Tetrisui Demo DemoLogic Democtl.
Local Opaque published_hashes mock_generate_hash.

(** ** What happens to the table *)

Definition rank (st : election_state_t) : nat := match st with ELECTION_DRAFT => 0 | ELECTION_OPEN => 1 | ELECTION_CLOSED => 2 | ELECTION_PUBLISHED => 3 end.

(** The same election, further along; a published one does not change. *)
Definition follows (a b : admin_election_t) : Prop :=
  id (base b) = id (base a) /\ title (base b) = title (base a) /\ options (base b) = options (base a) /\ eligible b = eligible a
  /\ open_time b = open_time a /\ close_time b = close_time a
  /\ (rank (state (base a)) <= rank (state (base b)))%nat /\ (state (base a) = ELECTION_PUBLISHED -> b = a).

#[export] Instance follows_preorder : PreOrder follows.
Proof.
  split; [intros a; unfold follows; auto 10|].
  intros a b c (A1 & A2 & A3 & A4 & A5 & A6 & A7 & A8) (B1 & B2 & B3 & B4 & B5 & B6 & B7 & B8). unfold follows.
  split_and!; try congruence; [lia|]. intros H. specialize (A8 H). subst b. auto.
Qed.

(** Elections are added at the end and follow themselves. *)
Definition grows (es es' : list admin_election_t) : Prop := forall i a, es !! i = Some a -> exists b, es' !! i = Some b /\ follows a b.

#[export] Instance grows_preorder : PreOrder grows.
Proof.
  split; [intros es i a H; exists a; split; [done|reflexivity]|]. intros e1 e2 e3 H1 H2 i a Ha.
  destruct (H1 i a Ha) as (b & Hb & Hab). destruct (H2 i b Hb) as (c & Hc & Hbc). exists c. split; [done|]. by transitivity b.
Qed.

Definition id_table : list cstr := [$"E-042"; $"E-101"; $"E-102"; $"E-103"; $"E-104"; $"E-105"; $"E-106"; $"E-107"].

Definition table_ok (es : list admin_election_t) : Prop :=
  (length es <= MOCK_MAX_ELECTIONS)%nat /\ (forall i a, es !! i = Some a -> id_table !! i = Some (id (base a))) /\ Forall (fun a => el_ok (base a) /\ options (base a) <> []) es.

(** No two elections of the table have the same id. *)
Lemma ids_unique es i j a b : table_ok es -> es !! i = Some a -> es !! j = Some b -> id (base a) = id (base b) -> i = j.
Proof.
  intros (_ & H & _) Ha Hb E. apply H in Ha, Hb. rewrite E in Ha. assert (HN : NoDup id_table) by (apply (bool_decide_unpack _); vm_compute; exact I).
  by eapply NoDup_lookup.
Qed.

Lemma set_ok es i a b : table_ok es -> es !! i = Some a -> follows a b -> el_ok (base b) -> table_ok (<[i := b]> es) /\ grows es (<[i := b]> es).
Proof.
  intros (H1 & H2 & H3) Ha Hf Hb. rewrite Forall_lookup in H3.
  assert (HL : forall j c, <[i := b]> es !! j = Some c -> (j = i /\ c = b) \/ es !! j = Some c).
  { intros j c Hj. apply list_lookup_insert_Some in Hj as [(-> & -> & _)|[_ ?]]; auto. }
  split; [split; [by rewrite length_insert|split]|].
  - intros j c Hj. destruct (HL j c Hj) as [[-> ->]|Hj']; [|by apply H2]. rewrite (H2 i a Ha). f_equal. symmetry. apply Hf.
  - apply Forall_lookup. intros j c Hj. destruct (HL j c Hj) as [[-> ->]|Hj']; [|exact (H3 j c Hj')]. split; [done|].
    destruct Hf as (_ & _ & -> & _). by apply (H3 i a Ha).
  - intros j c Hj. destruct (decide (j = i)) as [->|Hne].
    + rewrite Ha in Hj. simplify_eq. exists b. split; [|done]. apply list_lookup_insert_eq. by eapply lookup_lt_Some.
    + exists c. split; [by rewrite list_lookup_insert_ne|reflexivity].
Qed.

Lemma state_ok to a : el_ok (base a) -> el_ok (base (with_state to a)).
Proof. done. Qed.

Lemma state_follows to a : (rank (state (base a)) < rank to)%nat -> follows a (with_state to a).
Proof.
  intros H. unfold follows. cbn [with_state base id title options eligible open_time close_time state]. split_and!; try done; [lia|].
  intros E. rewrite E in H. destruct to; cbn in H; lia.
Qed.

(** Made-up hashes stay within the list and name an option. *)
Lemma fill_ok n o tally seed fuel : forall counted hs, (o < n)%nat -> (length hs <= MOCK_MAX_HASHES)%nat ->
  Forall (fun h => option_index h < n /\ length (hash h) = 64)%nat hs ->
  (length (fill fuel o counted tally seed hs) <= MOCK_MAX_HASHES)%nat /\
  Forall (fun h => option_index h < n /\ length (hash h) = 64)%nat (fill fuel o counted tally seed hs).
Proof.
  induction fuel as [|f IH]; intros counted hs Ho Hl HF; cbn [fill]; [done|]. destruct (counted <? tally); [|done]. cbn [andb].
  destruct (Nat.ltb_spec (length hs) MOCK_MAX_HASHES) as [Hr|]; [|done]. apply IH; [done|rewrite length_app; cbn; lia|].
  apply Forall_app. split; [done|]. apply Forall_singleton. split; [done|]. apply hash_length.
Qed.

Lemma mock_hashes_ok n : (length (mock_hashes n) <= MOCK_MAX_HASHES)%nat /\ Forall (fun h => option_index h < n /\ length (hash h) = 64)%nat (mock_hashes n).
Proof.
  unfold mock_hashes. assert (HS : Forall (fun o => o < n)%nat (seq 0 n)) by (apply List.Forall_forall; intros o [_ ?]%in_seq; lia).
  assert (H : forall hs, (length hs <= MOCK_MAX_HASHES)%nat -> Forall (fun h => option_index h < n /\ length (hash h) = 64)%nat hs ->
    let r := foldl (fun hs o => fill MOCK_MAX_HASHES o 0 ((Z.of_nat o + 1) * 3) (fun i => 2000 + Z.of_nat o * 100 + i) hs) hs (seq 0 n) in
    (length r <= MOCK_MAX_HASHES)%nat /\ Forall (fun h => option_index h < n /\ length (hash h) = 64)%nat r).
  { induction HS as [|o os Ho _ IH]; intros hs Hl HF; cbn [foldl]; [done|]. destruct (fill_ok n o ((Z.of_nat o + 1) * 3) (fun i => 2000 + Z.of_nat o * 100 + i) MOCK_MAX_HASHES 0 hs Ho Hl HF).
    by apply IH. }
  apply H; [cbn; lia|constructor].
Qed.

Lemma publish_ok a : el_ok (base a) -> el_ok (base (publish a)).
Proof.
  intros (H1 & H2 & H3 & H4 & H5). unfold publish, el_ok. destruct (hashes (base a)) as [|h hs] eqn:E; cbn [base options tally hashes]; [|done].
  destruct (mock_hashes_ok (length (options (base a)))). split_and!; try done. unfold mock_tally. by rewrite length_map, length_seq.
Qed.

Lemma publish_follows a : state (base a) = ELECTION_CLOSED -> follows a (publish a).
Proof.
  intros H. unfold follows, publish. destruct (hashes (base a)); cbn [base id title options eligible open_time close_time state]; rewrite H;
    (split_and!; try done; cbn; lia).
Qed.

(** ** Every run *)

Definition moves_on (es es' : list admin_election_t) (_ : view * unit) : Prop := table_ok es' /\ grows es es'.

Lemma stays es v : table_ok es -> dsafe (v, tt) (ret es) (moves_on es).
Proof. intros H. apply safe_ret. split; [done|reflexivity]. Qed.

Lemma admin_transition_spec v from to verb steps es : (rank from < rank to)%nat -> table_ok es -> dsafe (v, tt) (transition from to verb steps es) (moves_on es).
Proof.
  intros Hr Hok. unfold transition, pick, pick_election. widget @menu_spec. destruct (a <? 0); [by apply stays|].
  destruct (es !! Z.to_nat a) as [e|] eqn:Ee; [|by apply stays]. destruct (bool_decide (state (base e) = from)) eqn:Es; cbn [negb]; [|told; by apply stays].
  apply bool_decide_eq_true in Es. widget @confirm_spec. destruct (negb a0); [by apply stays|]. told. told. apply safe_ret.
  apply set_ok with e; [done..| |].
  - apply state_follows. by rewrite Es.
  - destruct Hok as (_ & _ & HF). rewrite Forall_lookup in HF. by apply (HF _ e Ee).
Qed.

Lemma admin_publish_spec v es : table_ok es -> dsafe (v, tt) (screen_publish_results es) (moves_on es).
Proof.
  intros Hok. unfold screen_publish_results, pick, pick_election. widget @menu_spec. destruct (a <? 0); [by apply stays|].
  destruct (es !! Z.to_nat a) as [e|] eqn:Ee; [|by apply stays]. destruct (bool_decide (state (base e) = ELECTION_CLOSED)) eqn:Es; cbn [negb]; [|told; by apply stays].
  apply bool_decide_eq_true in Es. widget @confirm_spec. destruct (negb a0); [by apply stays|]. told. told. apply safe_ret.
  apply set_ok with e; [done..|by apply publish_follows|]. destruct Hok as (_ & _ & HF). rewrite Forall_lookup in HF. by apply publish_ok, (HF _ e Ee).
Qed.

Lemma split_csv_fits s n : (length (split_csv s n) <= n)%nat /\ Forall (fun o => length o < 32)%nat (split_csv s n).
Proof.
  unfold split_csv. rewrite length_map, length_take. split; [lia|]. apply List.Forall_map, List.Forall_forall. intros t _. unfold trunc. rewrite length_take. lia.
Qed.

Lemma new_election_ok place values : (1 <= place < MOCK_MAX_ELECTIONS)%nat ->
  el_ok (base (new_election place values)) /\ id_table !! place = Some (id (base (new_election place values))).
Proof.
  intros Hp. destruct (split_csv_fits (field values 1) MOCK_MAX_OPTIONS) as [H1 H2]. split.
  - unfold el_ok, new_election. cbn [base options tally hashes]. split_and!; [done|apply length_map|done|cbn; unfold MOCK_MAX_HASHES; lia|constructor].
  - unfold MOCK_MAX_ELECTIONS in Hp. do 8 (destruct place as [|place]; [lia || reflexivity|]). lia.
Qed.

Lemma admin_create_spec v es : es <> [] -> table_ok es -> dsafe (v, tt) (screen_create_election es) (moves_on es).
Proof.
  intros Hne Hok. unfold screen_create_election. apply (safe_iter _ _ _ _ _ _ (fun _ _ => True)); [done|]. clear v. intros values [v []] _.
  assert (HS : forall w, dsafe (w, tt) (ret (inr es : list cstr + list admin_election_t)) (fun lr s' => match lr with inl _ => True | inr r => moves_on es r s' end))
    by (intros w; apply safe_ret; split; [done|reflexivity]).
  unfold create_body. eapply safe_bind.
  { apply (form_spec still no_trust drawn nothing_kept drawn_screen (fun _ _ => True)); [done|]. by intros i s _. }
  intros [entered vs] [w []] _. cbn beta iota. destruct entered; cbn [negb]; [|by apply HS].
  destruct (bool_decide (field vs 0 = [])); cbn [orb]; [told; by apply safe_ret|].
  destruct (bool_decide (split_csv (field vs 1) MOCK_MAX_OPTIONS = [])) eqn:Eo; cbn [orb]; [told; by apply safe_ret|]. apply bool_decide_eq_false in Eo.
  destruct (0 <=? _); [told; by apply safe_ret|]. destruct (Nat.leb_spec MOCK_MAX_ELECTIONS (length es)) as [Hm|Hm]; [told; apply HS|]. told. told. apply safe_ret.
  destruct (new_election_ok (length es) vs) as [Ho Hi]; [destruct es; [done|cbn in *; lia]|]. destruct Hok as (H1 & H2 & H3). split; [split; [rewrite length_app; cbn; lia|split]|].
  - intros i a Ha. apply lookup_app_Some in Ha as [Ha|[Hl Ha]]; [by apply H2|]. apply list_lookup_singleton_Some in Ha as [E <-].
    by assert (i = length es) as -> by lia.
  - apply Forall_app. split; [done|]. apply Forall_singleton. by split.
  - intros i a Ha. exists a. split; [by apply lookup_app_l_Some|reflexivity].
Qed.

Lemma admin_choose_spec v sel es : es <> [] -> table_ok es -> dsafe (v, tt) (choose sel es) (moves_on es).
Proof.
  intros Hne Hok. unfold choose.
  assert (HS : forall t : prog unit, (forall w, dsafe (w, tt) t (fun _ _ => True)) -> dsafe (v, tt) (ITree.bind t (fun _ => ret es)) (moves_on es)).
  { intros t Ht. eapply safe_bind; [apply Ht|]. intros _ [w []] _. by apply stays. }
  destruct sel as [|[[[]|[]|]|[[]|[]|]|]|]; try (by apply stays).
  - by apply admin_create_spec.
  - apply HS. intros w. eapply safe_mono; [apply (list_view_spec still no_trust drawn nothing_kept drawn_screen)|done].
  - by apply admin_publish_spec.
  - apply HS. intros w. apply demo_view_spec.
  - apply admin_transition_spec; [cbn; lia|done].
  - apply admin_transition_spec; [cbn; lia|done].
Qed.

Lemma e042_ok : el_ok e042.
Proof.
  unfold el_ok. cbn [e042 options tally hashes]. split_and!; [cbn; unfold MOCK_MAX_OPTIONS; lia|done|repeat constructor; cbn; lia| |].
  - assert (E : length published_hashes = 21%nat) by (vm_compute; reflexivity). rewrite E. unfold MOCK_MAX_HASHES. lia.
  - assert (E : forallb (fun h => (option_index h <? 2) && (length (hash h) =? 64))%nat published_hashes = true) by (vm_compute; reflexivity).
    rewrite forallb_forall in E. apply List.Forall_forall. intros h Hh. apply E in Hh. rewrite andb_true_iff, Nat.ltb_lt, Nat.eqb_eq in Hh. exact Hh.
Qed.

Lemma initial_table : table_ok mock_init.
Proof.
  split; [cbn; unfold MOCK_MAX_ELECTIONS; lia|]. split.
  - intros [|i] a Ha; [|done]. injection Ha as <-. reflexivity.
  - apply Forall_singleton. split; [apply e042_ok|discriminate].
Qed.

Lemma admin_login_spec v : dsafe (v, tt) screen_login (fun _ _ => True).
Proof.
  unfold screen_login. apply (safe_iter _ _ _ _ _ _ (fun _ _ => True)); [done|]. clear v. intros [] [v []] _. unfold login_body. widget @input_spec; [lia|].
  destruct a as [[|c name]|]; [by apply safe_ret| |by apply safe_ret]. told. destruct (negb _); [told; by apply safe_ret|]. widget @set_status_spec. by apply safe_ret.
Qed.

(** In every run of the admin demo, whatever is typed, it reads keys and draws
    and nothing else; when it ends the table holds eight elections at most with
    different ids, each with one to eight options, and every election it began
    with is there, no further back than it was and with the same ballot paper. *)
Lemma admin_demo_spec v : dsafe (v, tt) main (moves_on mock_init).
Proof.
  unfold main. widget @set_status_spec. eapply safe_bind; [apply admin_login_spec|]. intros ok [w []] _. destruct ok; [|by apply stays, initial_table].
  apply (safe_iter _ _ _ _ _ _ (fun es s => moves_on mock_init es s /\ es <> [])); [split; [split; [apply initial_table|reflexivity]|discriminate]|].
  clear. intros es [v []] [[Hok Hg] Hne]. unfold menu_loop. widget @menu_spec. destruct ((a <? 0) || (a =? 6)); [apply safe_ret; by split|].
  eapply safe_bind; [by apply admin_choose_spec|]. intros es' s' [Hok' Hg']. apply safe_ret. split; [split; [done|by transitivity es]|].
  destruct es as [|x es]; [done|]. destruct (Hg' 0%nat x eq_refl) as (b & Hb & _). by destruct es'.
Qed.

(** ** Trying it *)

(** The comment in the code promises a hash per counted vote; the list has room
    for those of four options. *)
Example four_options_match : map (fun o => Z.of_nat (length (filter (fun h => option_index h = o) (mock_hashes 4)))) [0; 1; 2; 3]%nat = mock_tally 4.
Proof. vm_compute. reflexivity. Qed.
Example five_options_do_not : map (fun o => Z.of_nat (length (filter (fun h => option_index h = o) (mock_hashes 5)))) [0; 1; 2; 3; 4]%nat = [3; 6; 9; 12; 10]
  /\ mock_tally 5 = [3; 6; 9; 12; 15].
Proof. vm_compute. done. Qed.

(** A blank between two commas is an option without a name. *)
Example nameless_option : split_csv ($"yes, ,no") MOCK_MAX_OPTIONS = [$"yes"; []; $"no"].
Proof. vm_compute. reflexivity. Qed.

(** An administrator creates an election and opens it. *)
Definition admin_keys : list key :=
  typing ($"admin") ++ [Byte LF] ++ map Byte ($"Lunch") ++ [Byte TAB] ++ map Byte ($"Soup, Bread") ++ [Byte LF; Byte LF]
  ++ [KEY_DOWN; Byte LF; KEY_DOWN; Byte LF; Byte LF; Byte LF; Byte "q"].
Definition at_admin : option (list admin_election_t) := snd (fst (drive at_keys 400 main (mkUser admin_keys (fun _ => (BB_OK, Codec.zero_resp))))).
Example lunch_opens : map (fun a => (id (base a), options (base a), state (base a))) <$> at_admin =
  Some [($"E-042", [$"Yes"; $"No"], ELECTION_PUBLISHED); ($"E-101", [$"Soup"; $"Bread"], ELECTION_OPEN)].
Proof. vm_compute. reflexivity. Qed.

End DemoctlLogic.
