(* ===== verification/Listing.v ===== *)
(** * The listing utilities: tetrish/lib/perms.c, system_programs/find.c, ld.c and ldr.c

    [find], [ld] and [ldr] walk directories the operating system shows them.
    What it shows is the record [os]: the entries of a directory or the text of
    the error, and the mode behind a path.  A walk keeps one descriptor open
    for each level, so the descriptors left are what its recursion runs on:
    the recursion of the code ends in [EMFILE], not in the model's fuel. *)
From S2P Require Import Prelude CText Rc.
Local Open Scope Z_scope.

Module Perms.

(** ** lib/perms.c *)

Definition S_IFMT : Z := 61440.  (* 0170000 *)
Definition S_IFDIR : Z := 16384. (* 0040000 *)
Definition S_IFCHR : Z := 8192.  (* 0020000 *)
Definition S_IFBLK : Z := 24576. (* 0060000 *)

Definition S_ISDIR (mode : Z) : bool := Z.land mode S_IFMT =? S_IFDIR.
Definition S_ISCHR (mode : Z) : bool := Z.land mode S_IFMT =? S_IFCHR.
Definition S_ISBLK (mode : Z) : bool := Z.land mode S_IFMT =? S_IFBLK.

(** [if (test) str[i] = c;] *)
Definition put_if (test : bool) (i : nat) (c : ascii) (str : cstr) : cstr := if test then <[i := c]> str else str.

(** [mode & flag] as a condition. *)
Definition has (mode flag : Z) : bool := negb (Z.land mode flag =? 0).

Definition perms_to_string (mode : Z) : cstr :=
  let str := $"----------" in
  let str := put_if (S_ISDIR mode) 0 "d" str in
  let str := put_if (S_ISCHR mode) 0 "c" str in
  let str := put_if (S_ISBLK mode) 0 "b" str in
  let str := put_if (has mode 256) 1 "r" str in
  let str := put_if (has mode 128) 2 "w" str in
  let str := put_if (has mode 64) 3 "x" str in
  let str := put_if (has mode 32) 4 "r" str in
  let str := put_if (has mode 16) 5 "w" str in
  let str := put_if (has mode 8) 6 "x" str in
  let str := put_if (has mode 4) 7 "r" str in
  let str := put_if (has mode 2) 8 "w" str in
  put_if (has mode 1) 9 "x" str.

(** The permissions a ten-character string stands for. *)
Definition weigh (c : ascii) (w : Z) : Z := if ceqb c "-" then 0 else w.
Definition read_perms (s : cstr) : Z :=
  match s with
  | _ :: cs => foldr Z.add 0 (zip_with weigh cs [256; 128; 64; 32; 16; 8; 4; 2; 1])
  | [] => 0
  end.

(** What the first character says. *)
Definition kind_char (mode : Z) : ascii :=
  if S_ISBLK mode then "b" else if S_ISCHR mode then "c" else if S_ISDIR mode then "d" else "-".

Lemma has_pow2 mode k : 0 <= k -> has mode (2 ^ k) = Z.testbit mode k.
Proof.
  intros Hk. unfold has. destruct (Z.testbit mode k) eqn:E.
  - apply negb_true_iff, Z.eqb_neq. intros H.
    assert (HB : Z.testbit (Z.land mode (2 ^ k)) k = true) by (by rewrite Z.land_spec, E, Z.pow2_bits_true).
    by rewrite H, Z.bits_0 in HB.
  - apply negb_false_iff, Z.eqb_eq, Z.bits_inj'. intros i Hi. rewrite Z.land_spec, Z.bits_0, Z.pow2_bits_eqb by done.
    destruct (Z.eqb_spec k i) as [<-|]; [by rewrite E|apply andb_false_r].
Qed.

Lemma put_if_here b c x s : put_if b 0 c (x :: s) = (if b then c else x) :: s.
Proof. by destruct b. Qed.

Lemma put_if_later b i c x s : put_if b (S i) c (x :: s) = x :: put_if b i c s.
Proof. by destruct b. Qed.

Definition flag_char (mode : Z) (k : Z) (c : ascii) : ascii := if Z.testbit mode k then c else "-".

(** Every position of the string, from the mode's bits alone. *)
Lemma perms_by_bits mode :
  perms_to_string mode =
  kind_char mode :: zip_with (flag_char mode) [8; 7; 6; 5; 4; 3; 2; 1; 0] ($"rwxrwxrwx").
Proof.
  unfold perms_to_string, kind_char, flag_char.
  rewrite !(has_pow2 mode 8 : _ -> has mode 256 = _), !(has_pow2 mode 7 : _ -> has mode 128 = _),
    !(has_pow2 mode 6 : _ -> has mode 64 = _), !(has_pow2 mode 5 : _ -> has mode 32 = _),
    !(has_pow2 mode 4 : _ -> has mode 16 = _), !(has_pow2 mode 3 : _ -> has mode 8 = _),
    !(has_pow2 mode 2 : _ -> has mode 4 = _), !(has_pow2 mode 1 : _ -> has mode 2 = _),
    !(has_pow2 mode 0 : _ -> has mode 1 = _) by lia.
  cbn [String.list_ascii_of_string]. repeat rewrite ?put_if_later, ?put_if_here. cbn [zip_with].
  reflexivity.
Qed.

(** The nine low bits of a mode, and the string shows nothing else of it but
    its kind. *)
Lemma perms_read_back mode : read_perms (perms_to_string mode) = mode mod 512.
Proof.
  rewrite perms_by_bits.
  set (x := mode mod 512).
  assert (HB : forall k, 0 <= k < 9 -> Z.testbit mode k = Z.testbit x k).
  { intros k Hk. unfold x. change 512 with (2 ^ 9). by rewrite Z.mod_pow2_bits_low by lia. }
  unfold flag_char. cbn [zip_with String.list_ascii_of_string].
  rewrite !HB by lia.
  assert (Hx : 0 <= x < 512) by (apply Z.mod_pos_bound; lia).
  clearbody x. clear HB.
  assert (HA : forallb (fun n => read_perms ("-"%char :: zip_with (flag_char (Z.of_nat n)) [8; 7; 6; 5; 4; 3; 2; 1; 0] ($"rwxrwxrwx")) =? Z.of_nat n)
                 (seq 0 512) = true) by (vm_compute; reflexivity).
  rewrite forallb_forall in HA. specialize (HA (Z.to_nat x) ltac:(apply in_seq; lia)).
  apply Z.eqb_eq in HA. rewrite Z2Nat.id in HA by lia. exact HA.
Qed.

Lemma perms_length mode : length (perms_to_string mode) = 10%nat.
Proof. by rewrite perms_by_bits. Qed.

End Perms.

(** ** What the operating system shows *)

Definition DT_DIR : Z := 4.
Definition NAME_MAX : nat := Z.to_nat 255.

Record dirent := mkDirent { d_name : cstr; d_type : Z }.

(** [emfile]: the text of the error once no descriptor is left; [closedir]:
    the text of its error, if it has one. *)
Record os := mkOs { opendir : cstr -> list dirent + cstr; stat : cstr -> option Z; closedir : cstr -> option cstr; emfile : cstr }.

Inductive line := Out (t : cstr) | Err (t : cstr).

(** A function returns to its caller or ends the process. *)
Inductive ended := Returned (rc : Z) | Exited (rc : Z).

#[export] Instance line_eq_dec : EqDecision line. Proof. solve_decision. Defined.
#[export] Instance ended_eq_dec : EqDecision ended. Proof. solve_decision. Defined.

Definition stdout (ls : list line) : list cstr := omap (fun l => match l with Out t => Some t | Err _ => None end) ls.

(** [opendir] for a process that may open [fds] more files. *)
Definition opens (o : os) (fds : nat) (p : cstr) : list dirent + cstr :=
  match fds with O => inr (emfile o) | S _ => opendir o p end.

Definition join (dir name : cstr) : cstr := dir ++ "/"%char :: name.

Definition is_dots (n : cstr) : bool := streq n ($".") || streq n ($"..").

Module Find.

(** ** find.c *)

Definition FIND_PATH : nat := Z.to_nat 1024.

(** [strstr(hay, needle) != NULL]. *)
Fixpoint strstr (hay needle : cstr) : bool :=
  bool_decide (needle `prefix_of` hay) || match hay with [] => false | _ :: h => strstr h needle end.

Definition cannot (dir_name why : cstr) : line := Err ($"Cannot open directory '" ++ dir_name ++ $"': " ++ why).
Definition too_long : line := Err ($"Path length has got too long.").
Definition not_closed (dir_name why : cstr) : line := Err ($"Could not close '" ++ dir_name ++ $"': " ++ why).

Section Walk.
Context (o : os) (to_match : cstr).

(** The loop over the entries, [walk] being the recursive call. *)
Fixpoint entries (walk : cstr -> list line * ended) (dir_name : cstr) (es : list dirent) : list line * option Z :=
  match es with
  | [] => ([], None)
  | e :: es' =>
    let hit := if strstr (d_name e) to_match then [Out (join dir_name (d_name e))] else [] in
    let '(deep, gone) :=
      if Perms.has (d_type e) DT_DIR && negb (is_dots (d_name e)) then
        let path := join dir_name (d_name e) in
        if (Rc.PATH_MAX <=? length path)%nat then ([too_long], Some 1)
        else let '(ls, r) := walk (trunc FIND_PATH path) in (ls, match r with Exited rc => Some rc | Returned _ => None end)
      else ([], None) in
    match gone with
    | Some rc => (hit ++ deep, Some rc)
    | None => let '(rest, gone') := entries walk dir_name es' in (hit ++ deep ++ rest, gone')
    end
  end.

Definition dir_of (arg0 : cstr) : cstr := if streq arg0 ($"find") then $"." else arg0.

Fixpoint find_execute (fds : nat) (arg0 : cstr) : list line * ended :=
  let dir_name := dir_of arg0 in
  match fds with
  | O => ([cannot dir_name (emfile o)], Returned 1)
  | S fds' =>
    match opendir o dir_name with
    | inr why => ([cannot dir_name why], Returned 1)
    | inl es =>
      match entries (find_execute fds') dir_name es with
      | (ls, Some rc) => (ls, Exited rc)
      | (ls, None) => (ls ++ match closedir o dir_name with Some why => [not_closed dir_name why] | None => [] end, Returned 0)
      end
    end
  end.

End Walk.

Definition usage : line := Out ($"Usage: find [keyword], to find any matching filename in this directory or its children").

(** [find_main]: the status of the process. *)
Definition find_main (o : os) (fds : nat) (args : list cstr) : list line * Z :=
  match args with
  | arg0 :: to_match :: _ => let '(ls, r) := find_execute o to_match fds arg0 in (ls, match r with Returned rc | Exited rc => rc end)
  | _ => ([usage], 1)
  end.

End Find.

Module Ld.

(** ** ld.c *)

Definition ESC : ascii := "027"%char.
Definition colour (n : cstr) : cstr := ESC :: $"[" ++ n ++ $"m".
Definition COLOR_RED : cstr := colour ($"31").
Definition COLOR_GREEN : cstr := colour ($"32").
Definition COLOR_YELLOW : cstr := colour ($"33").
Definition COLOR_RESET : cstr := colour ($"0").

(** [strtok(arg, "-")]: the token, and what the argument reads afterwards. *)
Fixpoint dashes (s : cstr) : cstr * cstr :=
  match s with c :: s' => if ceqb c "-" then let '(d, r) := dashes s' in (c :: d, r) else ([], s) | [] => ([], []) end.

Definition strtok_dash (arg : cstr) : option (cstr * cstr) :=
  let '(d, r) := dashes arg in
  match r with [] => None | _ => let token := fst (Rc.cut "-" r) in Some (token, d ++ token) end.

Definition hidden (n : cstr) : bool := match n with c :: _ => ceqb c "." | [] => false end.

Definition invalid : line := Out ($"Invalid option. Use -r to display all files within the current directory and its subdirectories.").

Definition shown (o : os) (e : dirent) : list line :=
  if hidden (d_name e) then []
  else match stat o (d_name e) with
       | Some mode => [Out (COLOR_RED ++ Perms.perms_to_string mode ++ $" " ++ COLOR_GREEN ++ d_name e ++ [LF] ++ COLOR_RESET)]
       | None => [Err ($"stat failed")]
       end.

(** The process became another program, or printed and returned. *)
Inductive outcome := Became (file : cstr) (argv : list cstr) | Printed (ls : list line) (rc : Z).

Definition list_here (o : os) (fds : nat) : outcome :=
  match opens o fds ($".") with
  | inl es => Printed (es ≫= shown o) 0
  | inr _ => Printed [Out ($"Directory doesn't exist. ")] 0
  end.

Definition ld_execute (o : os) (fds : nat) (exec_ok : bool) (args : list cstr) : outcome :=
  match args with
  | arg0 :: arg1 :: more =>
    match strtok_dash arg1 with
    | Some (token, arg1') =>
      if streq token ($"r") then
        if exec_ok then Became ($"./bin/ldr") (arg0 :: arg1' :: more)
        else Printed [Err ($"Failed to ld_execute, command is invalid.")] 1
      else Printed [invalid] 0
    | None => list_here o fds
    end
  | _ => list_here o fds
  end.

End Ld.

Module Ldr.

(** ** ldr.c *)

Definition LDR_PATH : nat := Z.to_nat 1000.

Definition print_path_with_colored_slash (path : cstr) : cstr :=
  path ≫= fun c => if ceqb c "/" then Ld.COLOR_YELLOW ++ $"/" ++ Ld.COLOR_GREEN ++ Ld.COLOR_RESET else [c].

Definition entry_line (mode : Z) (path : cstr) : cstr :=
  Ld.COLOR_RED ++ Perms.perms_to_string mode ++ $" " ++ Ld.COLOR_RESET ++ print_path_with_colored_slash path ++ [LF].

Section Walk.

(** [junk path] is what the unset [st.st_mode] holds when [stat] fails. *)
Context (o : os) (junk : cstr -> Z).

Definition visit (list_directory : cstr -> list cstr) (basePath : cstr) (e : dirent) : list cstr :=
  if is_dots (d_name e) then []
  else
    let path := trunc LDR_PATH (join basePath (d_name e)) in
    if Ld.hidden (d_name e) then []
    else
      let st_mode := default (junk path) (stat o path) in
      match stat o path with Some mode => [entry_line mode path] | None => [] end
      ++ if Perms.S_ISDIR st_mode then list_directory path else [].

Fixpoint list_directory (fds : nat) (basePath : cstr) : list cstr :=
  match fds with
  | O => []
  | S fds' => match opendir o basePath with inr _ => [] | inl es => es ≫= visit (list_directory fds') basePath end
  end.

Definition ldr_main (fds : nat) : list cstr * Z := (list_directory fds ($"."), 0).

End Walk.

End Ldr.

(** ** Directory trees

    A tree as [readdir] lists it, the two dot entries wherever they come; a
    leaf is anything that is not a directory. *)
Inductive node := Leaf (d_type mode : Z) | Dots | Dir (mode : Z) (kids : list (cstr * node)).

Lemma node_tree_ind (P : node -> Prop) :
  (forall t m, P (Leaf t m)) -> P Dots -> (forall m kids, Forall (fun k => P (snd k)) kids -> P (Dir m kids)) -> forall n, P n.
Proof.
  intros HL HDots HD. fix IH 1. intros [t m| |m kids]; [apply HL|apply HDots|].
  apply HD. induction kids as [|[n k] kids IHk]; constructor; [apply IH|exact IHk].
Qed.

Definition entry (k : cstr * node) : dirent := mkDirent (fst k) (match snd k with Leaf t _ => t | _ => DT_DIR end).

Fixpoint depth (n : node) : nat := match n with Dir _ kids => S (list_max (map (fun k => depth (snd k)) kids)) | _ => 0%nat end.

#[export] Instance node_dots_dec (n : node) : Decision (n = Dots).
Proof. destruct n; [right|left|right]; done. Defined.

(** The operating system shows tree [n] at path [p], and no path in it fills a
    buffer of [cap] bytes. *)
Inductive shows (o : os) (cap : nat) : cstr -> node -> Prop :=
  | shows_dots p : shows o cap p Dots
  | shows_leaf p t m why :
      (length p < cap)%nat -> stat o p = Some m -> Perms.S_ISDIR m = false -> opendir o p = inr why -> shows o cap p (Leaf t m)
  | shows_dir p m kids :
      (length p < cap)%nat -> stat o p = Some m -> Perms.S_ISDIR m = true ->
      opendir o p = inl (map entry kids) -> closedir o p = None ->
      Forall (fun k => is_dots (fst k) = bool_decide (snd k = Dots) /\ shows o cap (join p (fst k)) (snd k)) kids ->
      shows o cap p (Dir m kids).

Lemma depth_kid m kids k : k ∈ kids -> (depth (snd k) < depth (Dir m kids))%nat.
Proof.
  intros Hk. cbn [depth]. apply Nat.lt_succ_r.
  pose proof (proj1 (list_max_le (map (fun k => depth (snd k)) kids) _) (Nat.le_refl _)) as HF.
  rewrite List.Forall_map, Forall_forall in HF. by apply HF.
Qed.

Module FindLogic.
Import Find.

(** Every name under [p] that has the keyword, parents before children. *)
Fixpoint found (key : cstr) (p : cstr) (n : node) : list cstr :=
  match n with
  | Dir _ kids => kids ≫= fun '(name, k) => (if strstr name key then [join p name] else []) ++ found key (join p name) k
  | _ => []
  end.

Lemma join_not_find p n : streq (join p n) ($"find") = false.
Proof.
  apply not_true_iff_false. unfold streq. rewrite Z.eqb_eq, strcmp_0. intros H.
  assert (HS : "/"%char ∈ $"find") by (rewrite <-H; unfold join; set_solver).
  cbn in HS. repeat (apply elem_of_cons in HS as [HS|HS]; [done|]). by apply elem_of_nil in HS.
Qed.

Lemma trunc_short n s : (length s < n)%nat -> trunc n s = s.
Proof. intros H. unfold trunc. apply take_ge. lia. Qed.

Lemma stdout_app a b : stdout (a ++ b) = stdout a ++ stdout b.
Proof. unfold stdout. apply omap_app. Qed.

Section Walk.
Context (o : os) (key : cstr).

(** The walk of a subtree prints what the subtree holds, and returns. *)
Definition walks (fds : nat) (p : cstr) (n : node) : Prop :=
  stdout (fst (find_execute o key fds p)) = found key p n /\ exists rc, snd (find_execute o key fds p) = Returned rc.

Lemma entries_walk fds p kids :
  Forall (fun k => is_dots (fst k) = bool_decide (snd k = Dots) /\
                   (snd k <> Dots -> (length (join p (fst k)) < FIND_PATH)%nat /\ walks fds (join p (fst k)) (snd k))) kids ->
  stdout (fst (entries key (find_execute o key fds) p (map entry kids))) = found key p (Dir 0 kids)
  /\ snd (entries key (find_execute o key fds) p (map entry kids)) = None.
Proof.
  induction 1 as [|[name k] kids [Hd Hk] _ [IH1 IH2]]; [done|]. cbn [map entries entry d_name d_type fst snd] in *.
  cbn [found]. rewrite bind_cons.
  destruct (entries key (find_execute o key fds) p (map entry kids)) as [rest g]. cbn [fst snd] in IH1, IH2. subst g.
  assert (HD : exists deep, (if Perms.has (match k with Leaf t _ => t | _ => DT_DIR end) DT_DIR && negb (is_dots name) then
      if (Rc.PATH_MAX <=? length (join p name))%nat then ([too_long], Some 1)
      else let '(ls, r) := find_execute o key fds (trunc FIND_PATH (join p name)) in (ls, match r with Exited rc => Some rc | Returned _ => None end)
    else ([], None)) = (deep, None : option Z) /\ stdout deep = found key (join p name) k).
  { rewrite Hd. case_bool_decide as HDt; cbn [negb].
    - subst k. rewrite andb_false_r. by eexists.
    - rewrite andb_true_r. destruct (Hk HDt) as [Hl [Hw1 [rc Hw2]]].
      rewrite trunc_short by done. unfold FIND_PATH in Hl. rewrite (proj2 (Nat.leb_gt _ _)) by (unfold Rc.PATH_MAX; lia).
      destruct (find_execute o key fds (join p name)) as [ls r]. cbn [fst snd] in Hw1, Hw2. subst r.
      destruct k as [t m| |m ks]; [|done|]; [|by eexists].
      destruct (Perms.has t DT_DIR); by eexists. }
  destruct HD as (deep & -> & HDeep). cbn [fst snd]. split; [|done].
  rewrite !stdout_app, IH1, HDeep, app_assoc. f_equal. by destruct (strstr name key).
Qed.

Lemma execute_walk n : forall p fds, shows o FIND_PATH p n -> n <> Dots -> streq p ($"find") = false -> (depth n <= fds)%nat -> walks fds p n.
Proof.
  induction n as [t m| |m kids IH] using node_tree_ind; intros p fds Hs Hn Hp Hd; [|done|].
  - inversion Hs as [|? ? ? why Hl Hst Hm Ho|]; subst. unfold walks.
    destruct fds as [|fds]; cbn [find_execute]; unfold dir_of; rewrite Hp; [by eauto|]. rewrite Ho. by eauto.
  - inversion Hs as [| |? ? ? Hl Hst Hm Ho Hc HF]; subst. destruct fds as [|fds]; [cbn [depth] in Hd; lia|].
    unfold walks. cbn [find_execute]. unfold dir_of. rewrite Hp, Ho.
    destruct (entries_walk fds p kids) as [H1 H2].
    { rewrite Forall_forall in *. intros k Hk. destruct (HF k Hk) as [Hdots Hks]. split; [done|]. intros Hkd. split.
      - by destruct Hks.
      - apply IH; [done..|apply join_not_find|]. pose proof (depth_kid m kids k Hk). lia. }
    destruct (entries key (find_execute o key fds) p (map entry kids)) as [ls g]. cbn [fst snd] in *. subst g.
    rewrite Hc, app_nil_r. by eauto.
Qed.

End Walk.

(** ** The path buffer

    A directory whose path fills the 1024 bytes: the path of anything in it is
    cut to its own. *)
Lemma full_path_repeats p n : length p = (FIND_PATH - 1)%nat -> trunc FIND_PATH (join p n) = p.
Proof. intros H. unfold trunc, join. rewrite <-H. apply take_app_length. Qed.

Lemma cut_fits p : (length (trunc FIND_PATH p) < FIND_PATH)%nat.
Proof. unfold trunc. rewrite length_take. unfold FIND_PATH. lia. Qed.

Lemma join_fits p n : (length p < FIND_PATH)%nat -> (length n <= NAME_MAX)%nat -> (length (join p n) < Rc.PATH_MAX)%nat.
Proof. unfold join. rewrite length_app. cbn [length]. unfold FIND_PATH, NAME_MAX, Rc.PATH_MAX. lia. Qed.

Definition descends (e : dirent) : bool := Perms.has (d_type e) DT_DIR && negb (is_dots (d_name e)).

(** The loop reaches the recursive call of every entry it descends into, when
    no call ends the process. *)
Lemma entries_reach key walk p es e l :
  (forall q, (length q < FIND_PATH)%nat -> exists rc, snd (walk q) = Returned rc) -> Forall (fun e => (length (join p (d_name e)) < Rc.PATH_MAX)%nat) es ->
  e ∈ es -> descends e = true -> l ∈ fst (walk (trunc FIND_PATH (join p (d_name e)))) -> l ∈ fst (entries key walk p es).
Proof.
  intros Hw Hf He Hd Hl. induction es as [|x es IH]; [by apply elem_of_nil in He|]. inversion Hf; subst. cbn [entries].
  fold (descends x). rewrite (proj2 (Nat.leb_gt _ _)) by done.
  destruct (Hw (trunc FIND_PATH (join p (d_name x))) (cut_fits _)) as [rc Hrc].
  apply elem_of_cons in He as [->|He].
  - rewrite Hd. destruct (walk (trunc FIND_PATH (join p (d_name x)))) as [ls r]. cbn [fst snd] in *. subst r.
    destruct (entries key walk p es). cbn [fst]. set_solver.
  - specialize (IH ltac:(done) He). destruct (walk (trunc FIND_PATH (join p (d_name x)))) as [ls r]. cbn [snd] in Hrc. subst r.
    destruct (descends x), (entries key walk p es); cbn [fst] in *; set_solver.
Qed.

Section Bounds.
Context (o : os) (key : cstr).
Context (short_names : forall p es, opendir o p = inl es -> Forall (fun e => (length (d_name e) <= NAME_MAX)%nat) es).

Lemma entries_return walk p es :
  (forall q, (length q < FIND_PATH)%nat -> exists rc, snd (walk q) = Returned rc) -> (length p < FIND_PATH)%nat ->
  Forall (fun e => (length (d_name e) <= NAME_MAX)%nat) es -> snd (entries key walk p es) = None.
Proof.
  intros Hw Hp. induction 1 as [|e es He _ IH]; [done|]. cbn [entries].
  rewrite (proj2 (Nat.leb_gt _ _)) by (by apply join_fits).
  destruct (Hw (trunc FIND_PATH (join p (d_name e))) (cut_fits _)) as [rc Hrc].
  destruct (walk (trunc FIND_PATH (join p (d_name e)))) as [ls r]. cbn [snd] in Hrc. subst r.
  destruct (Perms.has (d_type e) DT_DIR && negb (is_dots (d_name e))), (entries key walk p es); exact IH.
Qed.

(** The test of the path's length never fires: what it guards is cut to 1023
    bytes before it is used, and a name adds 256 at most. *)
Lemma never_too_long fds p : (length p < FIND_PATH)%nat -> exists rc, snd (find_execute o key fds p) = Returned rc.
Proof.
  revert p. induction fds as [|fds IH]; intros p Hp; cbn [find_execute]; [by eexists|].
  destruct (opendir o (dir_of p)) as [es|why] eqn:E; [|by eexists].
  assert (HR : snd (entries key (find_execute o key fds) (dir_of p) es) = None).
  { apply entries_return; [exact IH| |by eapply short_names]. unfold dir_of. destruct (streq p ($"find")); [|done].
    unfold FIND_PATH. cbn. lia. }
  destruct (entries key (find_execute o key fds) (dir_of p) es) as [ls g]. cbn [snd] in HR. subst g. by eexists.
Qed.

(** A directory at a path of 1023 bytes that has a subdirectory: the walk
    enters it again and again, however many descriptors there are. *)
Lemma full_path_reenters p es e :
  length p = (FIND_PATH - 1)%nat -> opendir o p = inl es -> e ∈ es -> descends e = true ->
  forall fds, cannot p (emfile o) ∈ fst (find_execute o key fds p).
Proof.
  intros Hp Ho He Hd fds.
  assert (Hlt : (length p < FIND_PATH)%nat) by (unfold FIND_PATH in *; lia).
  assert (HN : dir_of p = p).
  { unfold dir_of. destruct (streq p ($"find")) eqn:E; [|done]. unfold streq in E. apply Z.eqb_eq, strcmp_0 in E. subst p.
    unfold FIND_PATH in Hp. cbn in Hp. lia. }
  induction fds as [|fds IH]; cbn [find_execute]; rewrite HN; [set_solver|]. rewrite Ho.
  assert (HI : cannot p (emfile o) ∈ fst (entries key (find_execute o key fds) p es)).
  { apply (entries_reach key _ p es e); [apply never_too_long| |done..|by rewrite full_path_repeats; auto].
    eapply Forall_impl; [by eapply short_names|]. intros x Hx. by apply join_fits. }
  destruct (entries key (find_execute o key fds) p es) as [ls [rc|]]; cbn [fst] in *; set_solver.
Qed.

End Bounds.

End FindLogic.

Module LdrLogic.
Import Ldr.

(** A terminal's reading of the colour sequences: they show nothing. *)
Fixpoint on_screen (in_seq : bool) (s : cstr) : cstr :=
  match s with
  | [] => []
  | c :: s' => if in_seq then on_screen (negb (ceqb c "m")) s' else if ceqb c Ld.ESC then on_screen true s' else c :: on_screen false s'
  end.

Lemma shown_plain p s : Ld.ESC ∉ p -> on_screen false (p ++ s) = p ++ on_screen false s.
Proof.
  induction p as [|c p IH]; [done|]. intros H. cbn [app on_screen]. unfold ceqb. rewrite bool_decide_eq_false_2 by set_solver.
  by rewrite IH by set_solver.
Qed.

(** The colouring of the slashes changes no character of the path. *)
Lemma coloured_path_reads p : Ld.ESC ∉ p -> on_screen false (print_path_with_colored_slash p) = p.
Proof.
  induction p as [|c p IH]; intros H; [done|]. unfold print_path_with_colored_slash. rewrite bind_cons.
  fold (print_path_with_colored_slash p). unfold ceqb at 1. case_bool_decide as Hc.
  - subst c. transitivity ("/"%char :: on_screen false (print_path_with_colored_slash p)); [reflexivity|]. rewrite IH by set_solver. done.
  - cbn [app on_screen]. unfold ceqb. rewrite bool_decide_eq_false_2 by set_solver. by rewrite IH by set_solver.
Qed.

(** Everything under [p] that is not hidden, and nothing below what is. *)
Fixpoint listed (p : cstr) (n : node) : list cstr :=
  match n with
  | Dir _ kids =>
    kids ≫= fun '(name, k) =>
      if Ld.hidden name then []
      else match k with
           | Dots => []
           | Leaf _ m => [entry_line m (join p name)]
           | Dir m _ => entry_line m (join p name) :: listed (join p name) k
           end
  | _ => []
  end.

Section Walk.
Context (o : os) (junk : cstr -> Z).

Lemma list_directory_walk n : forall p fds, shows o LDR_PATH p n -> n <> Dots -> (depth n <= fds)%nat -> list_directory o junk fds p = listed p n.
Proof.
  induction n as [t m| |m kids IH] using node_tree_ind; intros p fds Hs Hn Hd; [|done|].
  - inversion Hs as [|? ? ? why Hl Hst Hm Ho|]; subst. destruct fds; [done|]. cbn [list_directory]. by rewrite Ho.
  - inversion Hs as [| |? ? ? Hl Hst Hm Ho Hc HF]; subst. destruct fds as [|fds]; [cbn [depth] in Hd; lia|].
    cbn [list_directory]. rewrite Ho. cbn [listed].
    assert (HK : forall k, k ∈ kids -> (depth (snd k) <= fds)%nat) by (intros k Hk; pose proof (depth_kid m kids k Hk); lia).
    clear Ho Hd Hs. induction kids as [|[name k] kids IHk]; [done|].
    inversion HF as [|? ? [Hdots Hk] HF']; inversion IH as [|? ? IH1 IH2]; subst. cbn [map]. rewrite !bind_cons. cbn [fst snd] in *. f_equal.
    + unfold visit. cbn [entry d_name fst]. rewrite Hdots. case_bool_decide as HDt; [subst k; by destruct (Ld.hidden name)|].
      destruct (Ld.hidden name); [done|].
      assert (HL : (length (join p name) < LDR_PATH)%nat) by (by destruct Hk).
      rewrite FindLogic.trunc_short by done. specialize (IH1 (join p name) fds Hk HDt (HK (name, k) ltac:(left))).
      destruct Hk as [|? ? ? ? ? Hst' Hm'|? ? ? ? Hst' Hm']; [done| |]; rewrite Hst'; unfold from_option, id; rewrite Hm'; [done|].
      by rewrite IH1.
    + apply IHk; [done..|]. intros x Hx. apply HK. by right.
Qed.

(** [ld] shows of a directory what [ldr] shows on its first level: the same
    names with the same modes, in the same order. *)
Lemma ld_is_first_level m kids fds :
  shows o LDR_PATH ($".") (Dir m kids) -> (depth (Dir m kids) <= fds)%nat -> (forall n, stat o n = stat o (join ($".") n)) ->
  exists rows : list (Z * cstr * list cstr),
    Ld.list_here o fds = Ld.Printed (map (fun '(md, n, _) =>
      Out (Ld.COLOR_RED ++ Perms.perms_to_string md ++ $" " ++ Ld.COLOR_GREEN ++ n ++ [LF] ++ Ld.COLOR_RESET)) rows) 0
    /\ list_directory o junk fds ($".") = rows ≫= (fun '(md, n, below) => entry_line md (join ($".") n) :: below).
Proof.
  intros Hs Hd Hrel. rewrite (list_directory_walk (Dir m kids)) by done.
  inversion Hs as [| |? ? ? Hl Hst Hm Ho Hc HF]; subst. destruct fds as [|fds]; [cbn [depth] in Hd; lia|].
  unfold Ld.list_here, opens. rewrite Ho. cbn [listed]. clear Ho Hd Hs.
  induction HF as [|[name k] kids [Hdots Hk] _ IH]; [by exists []|].
  destruct IH as (rows & Hp & HR). inversion Hp as [Hp']. cbn [map]. rewrite !bind_cons, Hp', HR.
  unfold Ld.shown at 1. cbn [entry d_name fst snd] in *. destruct (Ld.hidden name) eqn:Hh; [by exists rows|]. rewrite Hrel.
  inversion Hk as [|? t md why _ Hq|? md ks _ Hq]; subst k.
  - unfold is_dots in Hdots. rewrite bool_decide_eq_true_2 in Hdots by done. unfold streq in Hdots.
    rewrite orb_true_iff, !Z.eqb_eq, !strcmp_0 in Hdots. destruct Hdots as [-> | ->]; vm_compute in Hh; done.
  - rewrite Hq. exists ((md, name, []) :: rows). split; [done|]. by rewrite bind_cons.
  - rewrite Hq. exists ((md, name, listed (join ($".") name) (Dir md ks)) :: rows). split; [done|]. by rewrite bind_cons.
Qed.

End Walk.

(** A directory at a path of 999 bytes with a visible directory in it: its
    own line is printed once for every descriptor left. *)
Lemma full_path_repeats_listing o junk p m e es :
  length p = (LDR_PATH - 1)%nat -> opendir o p = inl es -> stat o p = Some m -> Perms.S_ISDIR m = true ->
  e ∈ es -> is_dots (d_name e) = false -> Ld.hidden (d_name e) = false ->
  forall fds, (fds <= length (list_directory o junk fds p))%nat.
Proof.
  intros Hp Ho Hs Hm He Hd Hh fds. induction fds as [|fds IH]; [cbn; lia|]. cbn [list_directory]. rewrite Ho.
  assert (HV : visit o junk (list_directory o junk fds) p e = entry_line m p :: list_directory o junk fds p).
  { unfold visit. rewrite Hd, Hh. assert (trunc LDR_PATH (join p (d_name e)) = p) as -> by (unfold trunc, join; rewrite <-Hp; apply take_app_length).
    rewrite Hs. unfold from_option, id. by rewrite Hm. }
  apply list_elem_of_split in He as (l1 & l2 & ->). rewrite bind_app, bind_cons, HV, !length_app. cbn [length]. lia.
Qed.

End LdrLogic.

(** ** Trying it *)

Definition tree0 : node :=
  Dir 16877 [($".", Dots); ($"..", Dots); ($"etc", Dir 16832 [($".", Dots); ($"rc", Leaf 8 33188); ($"..", Dots)]); ($"rc.sock", Leaf 12 49645); ($".rc", Leaf 8 33152)].

Definition os0 : os :=
  mkOs (fun p => if bool_decide (p = $".") then inl (map entry [($".", Dots); ($"..", Dots); ($"etc", Dir 16832 []); ($"rc.sock", Leaf 12 49645); ($".rc", Leaf 8 33152)])
                 else if bool_decide (p = $"./etc") then inl (map entry [($".", Dots); ($"rc", Leaf 8 33188); ($"..", Dots)])
                 else inr ($"Not a directory"))
       (fun p => if bool_decide (p ∈ [$"."; $"./."]) then Some 16877
                 else if bool_decide (p ∈ [$"etc"; $"./etc"]) then Some 16832
                 else if bool_decide (p = $"./etc/rc") then Some 33188
                 else if bool_decide (p ∈ [$"rc.sock"; $"./rc.sock"]) then Some 49645
                 else if bool_decide (p ∈ [$".rc"; $"./.rc"]) then Some 33152
                 else None)
       (fun _ => None) ($"Too many open files").

Example find_rc : Find.find_main os0 8 [$"find"; $"rc"] =
  ([Out ($"./etc/rc"); Out ($"./rc.sock"); Find.cannot ($"./rc.sock") ($"Not a directory"); Out ($"./.rc")], 0).
Proof. vm_compute. reflexivity. Qed.

Example ldr_tree : map (LdrLogic.on_screen false) (fst (Ldr.ldr_main os0 (fun _ => 0) 8)) =
  [$"drwx------ ./etc" ++ [LF]; $"-rw-r--r-- ./etc/rc" ++ [LF]; $"-rwxr-xr-x ./rc.sock" ++ [LF]].
Proof. vm_compute. reflexivity. Qed.

Example ld_option : Ld.ld_execute os0 8 true [$"ld"; $"-r"] = Ld.Became ($"./bin/ldr") [$"ld"; $"-r"]
  /\ Ld.ld_execute os0 8 true [$"ld"; $"r-l"] = Ld.Became ($"./bin/ldr") [$"ld"; $"r"]
  /\ Ld.ld_execute os0 8 true [$"ld"; $"-l"] = Ld.Printed [Ld.invalid] 0
  /\ Ld.ld_execute os0 8 true [$"ld"; $"--"] = Ld.list_here os0 8.
Proof. vm_compute. done. Qed.
