(* ===== verification/Spawn.v ===== *)
(** * Spawning daemons: tetrish/system_programs/dspawn.c, dspawn2.c and dcheck.c

    [dspawn] and [dspawn2] fork twice and become the program they are given;
    [dspawn2] first asks the pid file of that program whether one is running,
    and its daemon writes that file.  [dcheck] counts daemons: those [ps] shows
    under the name dspawn, and the pid files that name a live process.
    Several [dspawn2] of one program at once are a machine whose shared state
    is the pid file and the live processes. *)
From S2P Require Import Prelude CText Rc Launch Listing.
Local Open Scope Z_scope.

Module Spawn.
Import Launch.

Definition DEFAULT_PID_DIR : cstr := $"var/run".
Definition DEFAULT_ERR_DIR : cstr := $"var/log".

(** ** Pid files *)

(** [fscanf(f, "%ld", &pid)]: the number, when one was read. *)
Definition scan_ld (bytes : cstr) : option Z := let '(v, rest) := strtol bytes in if bool_decide (rest = bytes) then None else Some v.

Inductive kill_t := K_sent | K_EPERM | K_ESRCH.

Definition counts_as_alive (k : kill_t) : bool := match k with K_ESRCH => false | _ => true end.

(** [got == 1 && pid > 0 && kill((pid_t)pid, 0)] succeeds or is forbidden. *)
Definition names_live (kill : Z -> kill_t) (bytes : cstr) : bool :=
  match scan_ld bytes with
  | Some pid => if pid <=? 0 then false else counts_as_alive (kill (i32 pid))
  | None => false
  end.

Definition already_running (fopen : cstr -> option cstr) (kill : Z -> kill_t) (pidfile : cstr) : bool :=
  match fopen pidfile with
  | None => false
  | Some bytes => names_live kill bytes
  end.

Definition pid_line (pid : Z) : cstr := print_int pid ++ [LF].

(** What follows the last slash: [strrchr(p, '/')], or all of it. *)
Fixpoint after_slash (p : cstr) : option cstr :=
  match p with
  | [] => None
  | c :: p' => match after_slash p' with Some n => Some n | None => if ceqb c "/" then Some p' else None end
  end.
Definition base_name (p : cstr) : cstr := default p (after_slash p).

(** The first part of [main] of dspawn2.c: the two paths, or the usage error. *)
Definition paths (h : Rc.host) (rc : Rc.rc_state) (argv : list cstr) : option (cstr * cstr) * Rc.rc_state :=
  match argv with
  | _ :: target :: _ =>
    let '(_, pid_dir, rc) := Rc.rc_get h ($"dspawn_pid_dir") (Some DEFAULT_PID_DIR) (Some []) Rc.PATH_MAX rc in
    let '(_, err_dir, rc) := Rc.rc_get h ($"dspawn_err_dir") (Some DEFAULT_ERR_DIR) (Some []) Rc.PATH_MAX rc in
    let name := base_name target in
    (Some (trunc Rc.PATH_MAX (default [] pid_dir ++ $"/" ++ name ++ $".pid"),
           trunc Rc.PATH_MAX (default [] err_dir ++ $"/" ++ name ++ $".err")), rc)
  | _ => (None, rc)
  end.

(** ** The daemon's descriptors *)

(** [for (x = max; x >= 0; x--) close(x);] *)
Definition close_down (max : Z) (t : fds) : fds := filter (fun e => max < fst e \/ fst e < 0) t.

(** The lowest descriptor not in use, which [open] and [dup] give. *)
Fixpoint lowest (tries : nat) (from : Z) (t : fds) : Z :=
  match tries with O => from | S n => match t !! from with None => from | Some _ => lowest n (from + 1) t end end.
Definition give (f : file) (t : fds) : fds := <[lowest (size t) 0 t := f]> t.
Definition dup (a : Z) (t : fds) : fds := match t !! a with Some f => give f t | None => t end.

(** dspawn2.c: stdin from /dev/null, stdout and stderr to the error log. *)
Definition log_table (max : Z) (null_ok err_ok : bool) (t : fds) : fds :=
  let t := close_down max t in
  let t := if null_ok then give Null t else t in
  let fd1 := lowest (size t) 0 t in
  let t := if err_ok then give Err t else if null_ok then give Null t else t in
  if err_ok || null_ok then dup fd1 t else t.

(** dspawn.c: all three to /dev/null. *)
Definition null_table (max : Z) (null_ok : bool) (t : fds) : fds :=
  let t := close_down max t in
  let t := if null_ok then give Null t else t in
  dup 0 (dup 0 t).

(** ** dspawn.c

    One process's run of it, from what its calls gave that process: a fork
    gives a negative number, zero in the child or the child's pid. *)
Record view := mkView { fork1 : Z; setsid_ok : bool; fork2 : Z; chdir_ok : bool; null_ok : bool; exec_ok : bool }.
Record image := mkImage { table : fds; umask : Z; cwd : cstr; ignored : list cstr }.
Inductive fate := Exits (rc : Z) | Runs (argv : list cstr) (i : image).

Definition spawn_daemon (max : Z) (v : view) (i : image) : Z + image :=
  if fork1 v <? 0 then inl 1
  else if 0 <? fork1 v then inl 0
  else if negb (setsid_ok v) then inl 1
  else
    let i := mkImage (table i) (umask i) (cwd i) (ignored i ++ [$"SIGCHLD"; $"SIGHUP"]) in
    if fork2 v <? 0 then inl 1
    else if 0 <? fork2 v then inl 0
    else
      let i := mkImage (table i) 0 (cwd i) (ignored i) in
      if negb (chdir_ok v) then inl 1
      else inr (mkImage (null_table max (null_ok v) (table i)) (umask i) ($"/") (ignored i)).

Definition dspawn_main (max : Z) (v : view) (i : image) (argv : list cstr) : fate :=
  match argv with
  | _ :: target =>
    match target with
    | [] => Exits 1
    | _ => match spawn_daemon max v i with
           | inl rc => Exits rc
           | inr i' => if exec_ok v then Runs target i' else Exits 1
           end
    end
  | [] => Exits 1
  end.

(** ** dcheck.c *)

Definition PID_SUFFIX : cstr := $".pid".

(** [len > 4 && strcmp(d_name + len - 4, ".pid") == 0]. *)
Definition is_pid_file (n : cstr) : bool := (4 <? length n)%nat && streq (drop (length n - 4) n) PID_SUFFIX.

Section Check.
Context (o : os) (fopen : cstr -> option cstr) (kill : Z -> kill_t).

Fixpoint count_loop (pid_dir : cstr) (es : list dirent) (count : Z) : Z :=
  match es with
  | [] => count
  | e :: es' =>
    if negb (is_pid_file (d_name e)) then count_loop pid_dir es' count
    else
      match fopen (trunc Rc.PATH_MAX (pid_dir ++ $"/" ++ d_name e)) with
      | None => count_loop pid_dir es' count
      | Some bytes =>
        match scan_ld bytes with
        | Some pid =>
          if (0 <? pid) && counts_as_alive (kill (i32 pid)) then count_loop pid_dir es' (count + 1)
          else count_loop pid_dir es' count
        | None => count_loop pid_dir es' count
        end
      end
  end.

Definition pid_dir_of (h : Rc.host) (rc : Rc.rc_state) : cstr :=
  let '(_, pid_dir, _) := Rc.rc_get h ($"dspawn_pid_dir") (Some DEFAULT_PID_DIR) (Some []) Rc.PATH_MAX rc in default [] pid_dir.

Definition count_dspawn2_daemons (h : Rc.host) (rc : Rc.rc_state) : Z :=
  let pid_dir := pid_dir_of h rc in
  match opendir o pid_dir with
  | inr _ => 0
  | inl es => count_loop pid_dir es 0
  end.

(** A process as [ps -eo tty,comm] shows it, and the two [grep]s. *)
Record process := mkProcess { tty : cstr; comm : cstr }.
Definition ps_line (p : process) : cstr := tty p ++ $" " ++ comm p.
Definition kept (l : cstr) : bool := Find.strstr l ($"dspawn") && negb (Find.strstr l ($"tty") || Find.strstr l ($"pts")).

(** What [dcheck] prints a number for; [None] when [popen] fails. *)
Definition dcheck_main (popen : option (list process)) (h : Rc.host) (rc : Rc.rc_state) : option Z :=
  match popen with
  | None => None
  | Some ps => Some (Z.of_nat (length (List.filter (fun p => kept (ps_line p)) ps)) + count_dspawn2_daemons h rc)
  end.

End Check.

(** ** dspawn2.c: several at once

    Where a [dspawn2] stands, its calls being steps: the foreground process
    checks and forks, the intermediate one forks again, the daemon opens the
    pid file (emptying it), writes it and becomes the program. *)
Inductive pc :=
  | P_check | P_fork1 | P_setsid | P_fork2
  | P_open (pid : Z) | P_write (pid : Z) (inode : nat) | P_exec (pid : Z) | P_unlink (pid : Z)
  | P_running (pid : Z) | P_over.

(** [front]: the status of the command as the shell saw it. *)
Record cmd := mkCmd { front : option Z; at_ : pc }.

(** [link]: the file the name of the pid file stands for. *)
Record world := mkWorld { cmds : list cmd; files : list cstr; link : option nat; alive : gset Z }.

Inductive answer := A_ok (b : bool) | A_fork (pid : option Z).
Inductive event := Arrive | Go (i : nat) (a : answer) | Dies (pid : Z) | Born (pid : Z).

#[export] Instance pc_eq_dec : EqDecision pc. Proof. solve_decision. Defined.

Definition text (w : world) : option cstr := n ← link w; files w !! n.

Definition with_files (fs : list cstr) (l : option nat) (w : world) : world := mkWorld (cmds w) fs l (alive w).
Definition with_alive (a : gset Z) (w : world) : world := mkWorld (cmds w) (files w) (link w) a.
Definition goto (i : nat) (c : cmd) (w : world) : world := mkWorld (<[i := c]> (cmds w)) (files w) (link w) (alive w).

(** A write at the start of a file that may have been written meanwhile. *)
Definition overwrite (line old : cstr) : cstr := line ++ drop (length line) old.

Definition fresh (pid : Z) (w : world) : bool := (0 <? pid) && (pid <=? INT_MAX) && bool_decide (pid ∉ alive w).

Definition pid_of (p : pc) : option Z :=
  match p with P_open q | P_write q _ | P_exec q | P_unlink q | P_running q => Some q | _ => None end.

Definition over (c : cmd) : cmd := mkCmd (front c) P_over.

Section Steps.

(** [groups]: what [kill] says of a number that names no single process. *)
Context (groups : Z -> kill_t).

Definition kill_in (w : world) (pid : Z) : kill_t :=
  if 0 <? pid then if bool_decide (pid ∈ alive w) then K_sent else K_ESRCH else groups pid.

Definition refused (w : world) : bool := match text w with None => false | Some bytes => names_live (kill_in w) bytes end.

Definition go (i : nat) (c : cmd) (a : answer) (w : world) : option world :=
  match at_ c, a with
  | P_check, A_ok _ => Some (goto i (if refused w then mkCmd (Some 1) P_over else mkCmd None P_fork1) w)
  | P_fork1, A_fork None => Some (goto i (mkCmd (Some 1) P_over) w)
  | P_fork1, A_fork (Some _) => Some (goto i (mkCmd (Some 0) P_setsid) w)
  | P_setsid, A_ok b => Some (goto i (mkCmd (front c) (if b then P_fork2 else P_over)) w)
  | P_fork2, A_fork None => Some (goto i (over c) w)
  | P_fork2, A_fork (Some pid) =>
    if fresh pid w then Some (goto i (mkCmd (front c) (P_open pid)) (with_alive ({[pid]} ∪ alive w) w)) else None
  | P_open pid, A_ok false => Some (goto i (over c) (with_alive (alive w ∖ {[pid]}) w))
  | P_open pid, A_ok true =>
    Some (match link w with
          | Some n => goto i (mkCmd (front c) (P_write pid n)) (with_files (<[n := []]> (files w)) (link w) w)
          | None => goto i (mkCmd (front c) (P_write pid (length (files w)))) (with_files (files w ++ [[]]) (Some (length (files w))) w)
          end)
  | P_write pid n, A_ok b =>
    Some (goto i (mkCmd (front c) (P_exec pid))
            (if b then with_files (alter (overwrite (pid_line pid)) n (files w)) (link w) w else w))
  | P_exec pid, A_ok b => Some (goto i (mkCmd (front c) (if b then P_running pid else P_unlink pid)) w)
  | P_unlink pid, A_ok b =>
    Some (goto i (over c) (with_alive (alive w ∖ {[pid]}) (if b then with_files (files w) None w else w)))
  | _, _ => None
  end.

Definition step (e : event) (w : world) : option world :=
  match e with
  | Arrive => Some (mkWorld (cmds w ++ [mkCmd None P_check]) (files w) (link w) (alive w))
  | Go i a => match cmds w !! i with Some c => go i c a w | None => None end
  | Dies pid =>
    Some (mkWorld (map (fun c => if bool_decide (pid_of (at_ c) = Some pid) then over c else c) (cmds w))
            (files w) (link w) (alive w ∖ {[pid]}))
  | Born pid => if fresh pid w then Some (with_alive ({[pid]} ∪ alive w) w) else None
  end.

(** A command past its check and not yet its daemon. *)
Definition in_flight (p : pc) : bool := match p with P_check | P_running _ | P_over => false | _ => true end.

(** A schedule in which no command checks while another is in flight, and the
    line of the pid file is written. *)
Definition orderly (e : event) (w : world) : bool :=
  match e with
  | Go i a =>
    match at_ <$> cmds w !! i, a with
    | Some P_check, _ => forallb (fun c => negb (in_flight (at_ c))) (cmds w)
    | Some (P_write _ _), A_ok b => b
    | _, _ => true
    end
  | _ => true
  end.

Fixpoint run (ordered : bool) (es : list event) (w : world) : option world :=
  match es with
  | [] => Some w
  | e :: es' => if ordered && negb (orderly e w) then None else match step e w with Some w' => run ordered es' w' | None => None end
  end.

End Steps.

(** ** Pid files: what is written is what is read *)

Definition pid_ok (pid : Z) : Prop := 0 < pid <= INT_MAX.

Lemma scan_pid_line pid : pid_ok pid -> scan_ld (pid_line pid) = Some pid.
Proof.
  intros [H0 H1]. unfold INT_MAX in H1. unfold scan_ld, pid_line.
  rewrite strtol_print_int; [|unfold LONG_MIN, LONG_MAX; lia|done].
  rewrite bool_decide_eq_false_2; [done|]. intros E. apply (f_equal length) in E. rewrite length_app in E. cbn [length] in E.
  assert (length (print_int pid) = 0%nat) as HL by lia. apply length_zero_iff_nil in HL.
  pose proof (strtol_print_int pid [] ltac:(unfold LONG_MIN, LONG_MAX; lia) I) as HP. rewrite HL in HP. cbn in HP. inversion HP. lia.
Qed.

Lemma i32_pid pid : pid_ok pid -> i32 pid = pid.
Proof. intros [H0 H1]. unfold INT_MAX, i32 in *. rewrite Z.mod_small; lia. Qed.

(** Whoever finds a daemon's own line asks after that daemon. *)
Lemma names_live_line kill pid : pid_ok pid -> names_live kill (pid_line pid) = counts_as_alive (kill pid).
Proof.
  intros H. unfold names_live. rewrite scan_pid_line, i32_pid by done. rewrite (proj2 (Z.leb_gt _ _)); [done|]. by destruct H.
Qed.

(** ** One daemon at a time *)

Section Logic.
Context (groups : Z -> kill_t).

Definition active (p : pc) : bool := match p with P_check | P_over => false | _ => true end.

Definition recorded (p : Z) (w : world) : Prop := pid_ok p /\ p ∈ alive w.

(** What holds while a command stands at [p]. *)
Definition holds (p : pc) (w : world) : Prop :=
  match p with
  | P_open q => recorded q w
  | P_write q n => recorded q w /\ link w = Some n /\ files w !! n = Some []
  | P_exec q | P_running q => recorded q w /\ text w = Some (pid_line q)
  | _ => True
  end.

(** The name of the pid file stands for a file. *)
Definition linked (w : world) : Prop := forall n, link w = Some n -> (n < length (files w))%nat.

Record inv (w : world) : Prop := mkInv {
  inv_one : forall i j c d, cmds w !! i = Some c -> cmds w !! j = Some d -> active (at_ c) = true -> active (at_ d) = true -> i = j;
  inv_holds : forall i c, cmds w !! i = Some c -> holds (at_ c) w;
  inv_linked : linked w }.

Definition alone (i : nat) (w : world) : Prop := forall j d, cmds w !! j = Some d -> active (at_ d) = true -> j = i.

Lemma inactive_holds p w : active p = false -> holds p w.
Proof. by destruct p. Qed.

(** The command at [i] moves, nothing else being active. *)
Lemma inv_alone_moves i c w w' : cmds w' = cmds w -> alone i w -> linked w' -> holds (at_ c) w' -> inv (goto i c w').
Proof.
  intros Hc Ha Hl Hh.
  assert (HO : forall j d, cmds (goto i c w') !! j = Some d -> j <> i -> active (at_ d) = false).
  { intros j d Hj Hn. cbn [goto cmds] in Hj. rewrite Hc, list_lookup_insert_ne in Hj by done.
    apply not_true_iff_false. intros HA. apply Hn. by eapply Ha. }
  assert (HS : forall d, cmds (goto i c w') !! i = Some d -> d = c).
  { intros d Hd. cbn [goto cmds] in Hd. apply list_lookup_insert_Some in Hd as [(_ & Hd & _)|[? _]]; done. }
  split.
  - intros j k d e Hj Hk Hd He. destruct (decide (j = i)) as [->|Hji]; [|by rewrite (HO j d) in Hd].
    destruct (decide (k = i)) as [->|Hki]; [done|]. by rewrite (HO k e) in He.
  - intros j d Hj. destruct (decide (j = i)) as [->|Hji]; [by rewrite (HS d Hj)|]. by apply inactive_holds, (HO j).
  - exact Hl.
Qed.

(** An inactive command moves to an inactive place. *)
Lemma inv_idle i c w : inv w -> active (at_ c) = false -> inv (goto i c w).
Proof.
  intros [H1 H2 H3] Hc. split.
  - intros j k d e Hj Hk Hd He. cbn [goto cmds] in Hj, Hk.
    apply list_lookup_insert_Some in Hj as [(-> & <- & _)|[_ Hj]]; [by rewrite Hc in Hd|].
    apply list_lookup_insert_Some in Hk as [(-> & <- & _)|[_ Hk]]; [by rewrite Hc in He|]. by eapply H1.
  - intros j d Hj. cbn [goto cmds] in Hj. apply list_lookup_insert_Some in Hj as [(-> & <- & _)|[_ Hj]]; [by apply inactive_holds|].
    exact (H2 j d Hj).
  - exact H3.
Qed.

Lemma active_alone w i c : inv w -> cmds w !! i = Some c -> active (at_ c) = true -> alone i w.
Proof. intros [H1 _ _] Hi Ha j d Hj Hd. by eapply H1. Qed.

(** A running daemon refuses the next. *)
Lemma running_refuses w i c pid : inv w -> cmds w !! i = Some c -> at_ c = P_running pid -> refused groups w = true.
Proof.
  intros [_ H2 _] Hi Hp. specialize (H2 i c Hi). rewrite Hp in H2. destruct H2 as [[Hok Hin] Ht].
  unfold refused. rewrite Ht, names_live_line by done. unfold kill_in. rewrite (proj2 (Z.ltb_lt _ _)) by apply Hok.
  by rewrite bool_decide_eq_true_2.
Qed.

(** A check that passes, with nothing in flight, passes alone. *)
Lemma passed_alone w i : inv w -> Forall (fun c => in_flight (at_ c) = false) (cmds w) -> refused groups w = false -> alone i w.
Proof.
  intros HI HF HR j d Hj Ha. rewrite Forall_lookup in HF. specialize (HF j d Hj).
  destruct (at_ d) eqn:E; try done. by rewrite (running_refuses w j d pid) in HR.
Qed.

(** The file after [fopen(pidfile, "w")]: the linked one, emptied, or a new one. *)
Lemma go_opens i c pid w w' : inv w -> cmds w !! i = Some c -> at_ c = P_open pid -> go groups i c (A_ok true) w = Some w' -> inv w'.
Proof.
  intros HI Hi Hp Hg. unfold go in Hg. rewrite Hp in Hg.
  pose proof (active_alone w i c HI Hi ltac:(by rewrite Hp)) as HA.
  pose proof (inv_holds w HI i c Hi) as HH. rewrite Hp in HH. pose proof (inv_linked w HI) as HL.
  destruct (link w) as [n|] eqn:El; simplify_eq; apply (inv_alone_moves i _ w); try done.
  - intros k Hk. cbn [with_files files link] in *. rewrite length_insert. simplify_eq. by apply HL.
  - split; [done|]. split; [done|]. cbn [with_files files]. apply list_lookup_insert_eq. by apply HL.
  - intros k Hk. cbn [with_files files link] in *. rewrite length_app. cbn [length]. simplify_eq. lia.
  - split; [done|]. split; [done|]. cbn [with_files files]. by rewrite lookup_app_r, Nat.sub_diag by lia.
Qed.

Lemma go_writes i c pid n w w' : inv w -> cmds w !! i = Some c -> at_ c = P_write pid n -> go groups i c (A_ok true) w = Some w' -> inv w'.
Proof.
  intros HI Hi Hp Hg. unfold go in Hg. rewrite Hp in Hg. simplify_eq.
  pose proof (active_alone w i c HI Hi ltac:(by rewrite Hp)) as HA.
  pose proof (inv_holds w HI i c Hi) as HH. rewrite Hp in HH. destruct HH as (HR & Hl & Hf).
  apply (inv_alone_moves i _ w); [done..| |].
  - intros k Hk. cbn [with_files files link] in *. rewrite length_alter. by apply (inv_linked w HI).
  - split; [done|]. unfold text. cbn [with_files files link]. rewrite Hl. cbn. rewrite list_lookup_alter_eq, Hf. cbn. unfold overwrite.
    by rewrite drop_nil, app_nil_r.
Qed.

Lemma go_inv i c a w w' : inv w -> cmds w !! i = Some c -> orderly (Go i a) w = true -> go groups i c a w = Some w' -> inv w'.
Proof.
  intros HI Hi Ho Hg.
  pose proof (inv_holds w HI i c Hi) as HH. pose proof (inv_linked w HI) as HL.
  assert (HA : active (at_ c) = true -> alone i w) by (by apply active_alone).
  destruct (at_ c) as [| | | |pid|pid n|pid|pid|pid|] eqn:Hp; unfold orderly in Ho; rewrite Hi in Ho; cbn [fmap option_fmap option_map] in Ho;
    rewrite ?Hp in Ho.
  - unfold go in Hg. rewrite Hp in Hg. destruct a; simplify_eq. destruct (refused groups w) eqn:HR; [by apply inv_idle|].
    apply (inv_alone_moves i _ w); [done| |done..]. apply passed_alone; [done| |done].
    rewrite forallb_forall in Ho. apply List.Forall_forall. intros x Hx. by apply negb_true_iff, Ho.
  - unfold go in Hg. rewrite Hp in Hg. destruct a as [|[q|]]; simplify_eq; apply (inv_alone_moves i _ w); auto; done.
  - unfold go in Hg. rewrite Hp in Hg. destruct a as [[]|]; simplify_eq; apply (inv_alone_moves i _ w); auto; done.
  - unfold go in Hg. rewrite Hp in Hg. destruct a as [|[q|]]; simplify_eq; [|apply (inv_alone_moves i _ w); auto; done].
    destruct (fresh q w) eqn:HF; simplify_eq. apply (inv_alone_moves i _ w); [done|by apply HA|done|].
    unfold fresh in HF. rewrite !andb_true_iff, bool_decide_eq_true, Z.ltb_lt, Z.leb_le in HF.
    split; [unfold pid_ok; tauto|]. cbn [with_alive alive]. set_solver.
  - destruct a as [[]|]; [by eapply go_opens| |]; unfold go in Hg; rewrite Hp in Hg; simplify_eq.
    apply (inv_alone_moves i _ w); auto; done.
  - destruct a as [b|]; [|unfold go in Hg; by rewrite Hp in Hg]. cbn in Ho. subst b. by eapply go_writes.
  - unfold go in Hg. rewrite Hp in Hg. destruct a as [[]|]; simplify_eq; apply (inv_alone_moves i _ w); auto; done.
  - unfold go in Hg. rewrite Hp in Hg. destruct a as [[]|]; simplify_eq; apply (inv_alone_moves i _ w); auto; done.
  - unfold go in Hg. rewrite Hp in Hg. by destruct a.
  - unfold go in Hg. rewrite Hp in Hg. by destruct a.
Qed.

(** What a daemon's place needs survives the end of another process. *)
Lemma holds_after_death p pid w w' :
  files w' = files w -> link w' = link w -> alive w' = alive w ∖ {[pid]} -> pid_of p <> Some pid -> holds p w -> holds p w'.
Proof.
  intros Hf Hl Ha Hp. destruct p; cbn [holds pid_of] in *; unfold recorded, text; rewrite ?Hf, ?Hl, ?Ha; try done;
    intros H; destruct_and?; split_and?; done || set_solver.
Qed.

Lemma dies_inv pid w w' : inv w -> step groups (Dies pid) w = Some w' -> inv w'.
Proof.
  intros [H1 H2 H3] Hs. cbn [step] in Hs. simplify_eq.
  assert (HD : forall j d, map (fun c => if bool_decide (pid_of (at_ c) = Some pid) then over c else c) (cmds w) !! j = Some d ->
            d = over d \/ (cmds w !! j = Some d /\ pid_of (at_ d) <> Some pid)).
  { intros j d Hj. change (map ?f ?l) with (f <$> l) in Hj. apply list_lookup_fmap_Some in Hj as (c & -> & Hj).
    case_bool_decide; [by left|by right]. }
  split; [| |exact H3].
  - intros i j c d Hi Hj Hc Hd. destruct (HD i c Hi) as [E|[Hi' _]]; [rewrite E in Hc; done|].
    destruct (HD j d Hj) as [E|[Hj' _]]; [rewrite E in Hd; done|]. by eapply H1.
  - intros i c Hi. destruct (HD i c Hi) as [E|[Hi' Hn]]; [rewrite E; done|].
    by apply (holds_after_death (at_ c) pid w); [..|eauto].
Qed.

Lemma holds_after_birth p w a : alive w ⊆ a -> holds p w -> holds p (with_alive a w).
Proof. intros Ha. destruct p; cbn [holds]; unfold recorded, text; cbn [with_alive alive files link]; try done;
  intros H; destruct_and?; split_and?; done || set_solver. Qed.

Lemma step_inv e w w' : inv w -> orderly e w = true -> step groups e w = Some w' -> inv w'.
Proof.
  intros HI Ho Hs. destruct e as [|i a|pid|pid].
  - cbn [step] in Hs. simplify_eq. destruct HI as [H1 H2 H3].
    assert (HN : forall j d, (cmds w ++ [mkCmd None P_check]) !! j = Some d -> cmds w !! j = Some d \/ at_ d = P_check).
    { intros j d Hj. apply lookup_app_Some in Hj as [?|[_ Hj]]; [by left|]. right.
      apply list_lookup_singleton_Some in Hj as [_ <-]. done. }
    split; [| |exact H3].
    + intros i j c d Hi Hj Hc Hd. destruct (HN i c Hi) as [Hi'|E]; [|by rewrite E in Hc].
      destruct (HN j d Hj) as [Hj'|E]; [by eapply H1|by rewrite E in Hd].
    + intros i c Hi. destruct (HN i c Hi) as [Hi'|E]; [exact (H2 i c Hi')|by rewrite E].
  - cbn [step] in Hs. destruct (cmds w !! i) as [c|] eqn:Hi; [|done]. by eapply go_inv.
  - by eapply dies_inv.
  - cbn [step] in Hs. destruct (fresh pid w); [|done]. simplify_eq. destruct HI as [H1 H2 H3]. split; [done| |done].
    intros i c Hi. apply holds_after_birth; [set_solver|]. exact (H2 i c Hi).
Qed.

Lemma run_inv es : forall w w', inv w -> run groups true es w = Some w' -> inv w'.
Proof.
  induction es as [|e es IH]; intros w w' HI HR; cbn [run] in HR; [by simplify_eq|].
  destruct (orderly e w) eqn:Ho; [|done]. cbn [negb andb] in HR.
  destruct (step groups e w) as [w1|] eqn:Hs; [|done]. eapply IH; [|done]. by eapply step_inv.
Qed.

Definition initial (left_over : option cstr) (others : gset Z) : world :=
  match left_over with
  | Some t => mkWorld [] [t] (Some 0%nat) others
  | None => mkWorld [] [] None others
  end.

Lemma initial_inv t others : inv (initial t others).
Proof. destruct t; split; try done. intros n Hn. cbn in *. simplify_eq. lia. Qed.

(** In an orderly schedule one daemon runs at most, its pid is in the pid file
    and the next command is refused. *)
Lemma one_daemon t others es w :
  run groups true es (initial t others) = Some w ->
  forall i c pid, cmds w !! i = Some c -> at_ c = P_running pid ->
  text w = Some (pid_line pid) /\ pid ∈ alive w /\ refused groups w = true
  /\ forall j d q, cmds w !! j = Some d -> at_ d = P_running q -> j = i.
Proof.
  intros HR i c pid Hi Hp. pose proof (run_inv es _ w (initial_inv t others) HR) as HI.
  pose proof (inv_holds w HI i c Hi) as HH. rewrite Hp in HH. destruct HH as [[_ Hin] Ht].
  split; [done|]. split; [done|]. split; [by eapply running_refuses|].
  intros j d q Hj Hq. eapply (inv_one w HI); [done..| |]; [by rewrite Hq|by rewrite Hp].
Qed.

End Logic.

(** ** dcheck and dspawn2 agree *)

Lemma count_loop_filter fopen kill pid_dir es : forall n,
  count_loop fopen kill pid_dir es n =
  n + Z.of_nat (length (List.filter (fun e => is_pid_file (d_name e) &&
                          already_running fopen kill (trunc Rc.PATH_MAX (pid_dir ++ $"/" ++ d_name e))) es)).
Proof.
  induction es as [|e es IH]; intros n; cbn [count_loop List.filter]; [cbn; lia|].
  unfold already_running at 1, names_live. destruct (is_pid_file (d_name e)); cbn [negb andb]; [|apply IH].
  destruct (fopen _) as [bytes|]; [|apply IH]. destruct (scan_ld bytes) as [pid|]; [|apply IH].
  rewrite Z.leb_antisym. destruct (0 <? pid); cbn [negb andb]; [|apply IH].
  destruct (counts_as_alive (kill (i32 pid))); [|apply IH]. rewrite IH. cbn [length]. lia.
Qed.

Lemma pid_file_suffix n : n <> [] -> is_pid_file (n ++ PID_SUFFIX) = true.
Proof.
  intros Hn. unfold is_pid_file. rewrite length_app. change (length PID_SUFFIX) with 4%nat. rewrite Nat.add_sub, drop_app_length.
  destruct n; [done|]. cbn [length]. rewrite (proj2 (Nat.ltb_lt _ _)) by lia. unfold streq. by rewrite (proj2 (strcmp_0 _ _)).
Qed.

(** ** The daemon's descriptors *)

Lemma close_down_all max t : (forall fd f, t !! fd = Some f -> 0 <= fd <= max) -> close_down max t = ∅.
Proof.
  intros H. apply map_empty. intros fd. apply map_lookup_filter_None. right. intros f Hf. cbn. specialize (H fd f Hf). lia.
Qed.

(** A program started by [dspawn2] reads /dev/null and writes its log: nothing
    its starter had open is left to it. *)
Lemma log_table_spec max err_ok t : (forall fd f, t !! fd = Some f -> 0 <= fd <= max) ->
  log_table max true err_ok t = {[0 := Null; 1 := if err_ok then Err else Null; 2 := if err_ok then Err else Null]}.
Proof. intros H. unfold log_table. rewrite close_down_all by done. destruct err_ok; vm_compute; reflexivity. Qed.

Lemma null_table_spec max t : (forall fd f, t !! fd = Some f -> 0 <= fd <= max) ->
  null_table max true t = {[0 := Null; 1 := Null; 2 := Null]}.
Proof. intros H. unfold null_table. rewrite close_down_all by done. vm_compute. reflexivity. Qed.

(** ** dcheck cannot see what dspawn started *)

Lemma strstr_app_space a b k : " "%char ∉ k -> k <> [] -> Find.strstr (a ++ $" " ++ b) k = Find.strstr a k || Find.strstr b k.
Proof.
  intros Hk Hn. induction a as [|c a IH].
  - cbn [app String.list_ascii_of_string Find.strstr]. destruct k as [|x k]; [done|].
    rewrite !bool_decide_eq_false_2; [done| |]; [by intros [? ?]|]. intros [? E]. inversion E. set_solver.
  - cbn [app Find.strstr]. rewrite IH, !orb_assoc. f_equal. f_equal. apply bool_decide_ext.
    split; [|intros H; change (c :: a ++ $" " ++ b) with ((c :: a) ++ $" " ++ b); by apply prefix_app_r].
    intros H. change (c :: a ++ $" " ++ b) with ((c :: a) ++ $" " ++ b) in H.
    destruct (prefix_weak_total k (c :: a) ((c :: a) ++ $" " ++ b) H ltac:(by apply prefix_app_r)) as [?|[r ->]]; [done|].
    apply prefix_app_inv in H. destruct r as [|x r]; [by rewrite app_nil_r|]. destruct H as [? E]. inversion E. set_solver.
Qed.

(** The kernel names a process after the program it became: the last component
    of its path, 15 bytes of it. *)
Definition comm_of (target : cstr) : cstr := take 15 (base_name target).

(** A daemon [dspawn] started is not among the lines [dcheck] keeps, unless the
    program itself is called dspawn. *)
Lemma dspawn_daemon_unseen o fopen kill ps target h rc :
  Find.strstr (comm_of target) ($"dspawn") = false ->
  dcheck_main o fopen kill (Some (ps ++ [mkProcess ($"?") (comm_of target)])) h rc = dcheck_main o fopen kill (Some ps) h rc.
Proof.
  intros H. unfold dcheck_main. rewrite List.filter_app. cbn [List.filter].
  assert (HK : kept (ps_line (mkProcess ($"?") (comm_of target))) = false).
  { unfold kept, ps_line. cbn [tty comm]. rewrite strstr_app_space, H; [done| |done].
    cbn [String.list_ascii_of_string]. set_solver. }
  by rewrite HK, app_nil_r.
Qed.

(** The number [dcheck] adds for [dspawn2] is the number of pid files whose
    program [dspawn2] would refuse to start again. *)
Lemma dcheck_counts_refusals o fopen kill h rc es :
  opendir o (pid_dir_of h rc) = inl es ->
  count_dspawn2_daemons o fopen kill h rc =
  Z.of_nat (length (List.filter (fun e => is_pid_file (d_name e) &&
    already_running fopen kill (trunc Rc.PATH_MAX (pid_dir_of h rc ++ $"/" ++ d_name e))) es)).
Proof. intros H. unfold count_dspawn2_daemons. rewrite H. apply count_loop_filter. Qed.

Lemma same_pid_file h rc prog target more :
  base_name target <> [] ->
  is_pid_file (base_name target ++ PID_SUFFIX) = true /\
  exists err rc', paths h rc (prog :: target :: more) =
    (Some (trunc Rc.PATH_MAX (pid_dir_of h rc ++ $"/" ++ base_name target ++ PID_SUFFIX), err), rc').
Proof.
  intros Hn. split; [by apply pid_file_suffix|]. unfold paths, pid_dir_of.
  destruct (Rc.rc_get h ($"dspawn_pid_dir") _ _ _ rc) as [[? pid_dir] rc1].
  destruct (Rc.rc_get h ($"dspawn_err_dir") _ _ _ rc1) as [[? err_dir] rc2]. by do 2 eexists.
Qed.

(** ** dspawn: the three processes *)

Lemma dspawn_foreground max v i prog target more : 0 < fork1 v -> dspawn_main max v i (prog :: target :: more) = Exits 0.
Proof.
  intros H. unfold dspawn_main, spawn_daemon. rewrite (proj2 (Z.ltb_ge _ _)), (proj2 (Z.ltb_lt _ _)) by lia. done.
Qed.

Lemma dspawn_daemon max v i prog target more : fork1 v = 0 -> setsid_ok v = true -> fork2 v = 0 -> chdir_ok v = true -> null_ok v = true ->
  exec_ok v = true -> (forall fd f, table i !! fd = Some f -> 0 <= fd <= max) ->
  dspawn_main max v i (prog :: target :: more) =
  Runs (target :: more) (mkImage {[0 := Null; 1 := Null; 2 := Null]} 0 ($"/") (ignored i ++ [$"SIGCHLD"; $"SIGHUP"])).
Proof.
  intros H1 H2 H3 H4 H5 H6 HT. unfold dspawn_main, spawn_daemon. rewrite H1, H2, H3, H4, H5, H6. cbn [negb table umask ignored].
  by rewrite null_table_spec.
Qed.

(** ** Trying it *)

Definition nobody (_ : Z) : kill_t := K_sent.

(** [dspawn2 x] from its arrival to its daemon. *)
Definition whole (i : nat) (pid : Z) : list event :=
  [Arrive; Go i (A_ok true); Go i (A_fork (Some 1)); Go i (A_ok true); Go i (A_fork (Some pid)); Go i (A_ok true); Go i (A_ok true); Go i (A_ok true)].

Example second_refused : exists w, run nobody true (whole 0 500 ++ [Arrive; Go 1 (A_ok true)]) (initial (Some ($"77")) ∅) = Some w
  /\ map front (cmds w) = [Some 0; Some 1] /\ map at_ (cmds w) = [P_running 500; P_over].
Proof. eexists. split; [vm_compute; reflexivity|]. done. Qed.

(** Two commands typed one after the other: the first one's status is there
    before the second arrives, and both daemons run. *)
Definition typed_twice : list event :=
  [Arrive; Go 0 (A_ok true); Go 0 (A_fork (Some 1))]
  ++ [Arrive; Go 1 (A_ok true); Go 1 (A_fork (Some 1))]
  ++ [Go 0 (A_ok true); Go 0 (A_fork (Some 500)); Go 0 (A_ok true); Go 0 (A_ok true); Go 0 (A_ok true)]
  ++ [Go 1 (A_ok true); Go 1 (A_fork (Some 501)); Go 1 (A_ok true); Go 1 (A_ok true); Go 1 (A_ok true)].

Example two_daemons : exists w1 w2, run nobody false (take 3 typed_twice) (initial None ∅) = Some w1 /\ map front (cmds w1) = [Some 0]
  /\ run nobody false typed_twice (initial None ∅) = Some w2
  /\ map at_ (cmds w2) = [P_running 500; P_running 501] /\ text w2 = Some (pid_line 501).
Proof. do 2 eexists. split; [vm_compute; reflexivity|]. split; [done|]. split; [vm_compute; reflexivity|]. done. Qed.

(** A line the disk did not take: the daemon runs, nothing names it and the
    next command starts another. *)
Example unwritten : exists w,
  run nobody false (take 6 (whole 0 500) ++ [Go 0 (A_ok false); Go 0 (A_ok true); Arrive; Go 1 (A_ok true)]) (initial None ∅) = Some w
  /\ map at_ (cmds w) = [P_running 500; P_fork1] /\ text w = Some [].
Proof. eexists. split; [vm_compute; reflexivity|]. done. Qed.

(** A number past [pid_t]: the file reads 4294967296, [kill] asks after 0. *)
Example pid_narrowed : names_live (fun p => if p =? 0 then K_sent else K_ESRCH) ($"4294967296") = true.
Proof. vm_compute. reflexivity. Qed.

End Spawn.
