(* ===== verification/Backup.v ===== *)
(** * Archiving and the system summary: tetrish/system_programs/backup.c and sys.c

    [backup] builds a command line for [system]; how the command interpreter
    splits such a line into words is modelled for the characters that matter
    here, single quotes, blanks and operators.  [sys] prints what the machine
    says of itself. *)
From S2P Require Import Prelude CText Rc Provision Shell Listing Spawn.
Local Open Scope Z_scope.

Module Backup.
Import Listing.Ld.

(** ** backup.c *)

Definition COMMAND_BYTES : nat := Rc.PATH_MAX * 3.

Inductive mkdir_t := M_made | M_EEXIST | M_failed (why : cstr).

(** What the process finds: its environment, the files, the clock and what
    [system] says of a command (a wait status, or -1). *)
Record site := mkSite {
  backup_dir : option cstr; stat : cstr -> Z + cstr; getcwd : option cstr; mkdir : cstr -> mkdir_t; timestamp : cstr; system : cstr -> Z }.

(** [while (tlen > 1 && copy[tlen - 1] == '/')], on the reversed text. *)
Fixpoint strip_slashes (rev_copy : cstr) : cstr :=
  match rev_copy with
  | c :: ((_ :: _) as rest) => if ceqb c "/" then strip_slashes rest else rev_copy
  | _ => rev_copy
  end.

Definition target_base (backup_target : cstr) : cstr := Spawn.base_name (reverse (strip_slashes (reverse (trunc Rc.PATH_MAX backup_target)))).

Definition archive_dir (project_dir : cstr) : cstr := trunc Rc.PATH_MAX (project_dir ++ $"/archive").

Definition archive_path (project_dir backup_target stamp : cstr) : cstr :=
  trunc Rc.PATH_MAX (archive_dir project_dir ++ $"/" ++ target_base backup_target ++ $"_" ++ stamp ++ $".zip").

Definition command (archive target : cstr) : cstr := trunc COMMAND_BYTES ($"zip -r -q '" ++ archive ++ $"' '" ++ target ++ $"'").

Definition WEXITSTATUS (rc : Z) : Z := Z.land (Z.shiftr rc 8) 255.

(** What is printed, the exit status, and the command that ran. *)
Definition main (s : site) : list line * Z * option cstr :=
  match backup_dir s with
  | None | Some [] =>
    ([Err (COLOR_RED ++ $"backup: BACKUP_DIR environment variable is not set." ++ [LF] ++ COLOR_RESET);
      Err ($"Set it first, e.g.  setenv BACKUP_DIR=<file-or-directory>")], 1, None)
  | Some target =>
    match stat s target with
    | inr why => ([Err (COLOR_RED ++ $"backup: cannot access '" ++ target ++ $"': " ++ why ++ [LF] ++ COLOR_RESET)], 1, None)
    | inl st_mode =>
      match getcwd s with
      | None => ([Err ($"getcwd() error")], 1, None)
      | Some project_dir =>
        match mkdir s (archive_dir project_dir) with
        | M_failed why =>
          ([Err (COLOR_RED ++ $"backup: cannot create '" ++ archive_dir project_dir ++ $"': " ++ why ++ [LF] ++ COLOR_RESET)], 1, None)
        | _ =>
          let archive := archive_path project_dir target (timestamp s) in
          let rc := system s (command archive target) in
          if (rc =? -1) || negb (WEXITSTATUS rc =? 0)
          then ([Err (COLOR_RED ++ $"backup: failed to create archive for '" ++ target ++ $"'" ++ [LF] ++ COLOR_RESET)], 1, Some (command archive target))
          else ([Out (COLOR_GREEN ++ $"Backup successful!" ++ [LF] ++ COLOR_RESET);
                 Out ($"  Source : " ++ target ++ $" (" ++ (if Perms.S_ISDIR st_mode then $"directory" else $"file") ++ $")");
                 Out ($"  Archive: " ++ archive)], 0, Some (command archive target))
        end
      end
    end
  end.

(** ** The command interpreter's reading of a line *)

Inductive token := Word (w : cstr) | Op (c : ascii).
#[export] Instance token_eq_dec : EqDecision token. Proof. solve_decision. Defined.

Definition is_op (c : ascii) : bool := bool_decide (c ∈ [";"; "&"; "|"; "<"; ">"; "("; ")"; LF]%char).

Definition emit (cur : option cstr) : list token := match cur with Some w => [Word w] | None => [] end.

(** [None] is a quote left open. *)
Fixpoint sh_split (quoted : bool) (cur : option cstr) (s : cstr) : option (list token) :=
  match s with
  | [] => if quoted then None else Some (emit cur)
  | c :: s' =>
    if quoted then if ceqb c QUOTE then sh_split false cur s' else sh_split true (Some (default [] cur ++ [c])) s'
    else if ceqb c QUOTE then sh_split true (Some (default [] cur)) s'
    else if ceqb c " " then app (emit cur) <$> sh_split false None s'
    else if is_op c then app (emit cur ++ [Op c]) <$> sh_split false None s'
    else sh_split false (Some (default [] cur ++ [c])) s'
  end.

Lemma split_quoted t : forall w s, QUOTE ∉ t -> sh_split true (Some w) (t ++ QUOTE :: s) = sh_split false (Some (w ++ t)) s.
Proof.
  induction t as [|c t IH]; intros w s Hq; [by rewrite app_nil_r|]. cbn [app sh_split]. unfold ceqb at 1.
  rewrite bool_decide_eq_false_2 by set_solver. rewrite IH by set_solver. cbn [default from_option id]. by rewrite <-app_assoc.
Qed.

Definition plain (c : ascii) : bool := negb (ceqb c QUOTE) && negb (ceqb c " ") && negb (is_op c).

Lemma split_plain w : forall cur s, forallb plain w = true -> cur <> None \/ w <> [] ->
  sh_split false cur (w ++ " "%char :: s) = app [Word (default [] cur ++ w)] <$> sh_split false None s.
Proof.
  induction w as [|c w IH]; intros cur s Hw Hn.
  - destruct cur as [v|]; [|by destruct Hn]. cbn [app sh_split emit default from_option id]. by rewrite app_nil_r.
  - cbn [forallb] in Hw. apply andb_true_iff in Hw as [Hc Hw]. unfold plain in Hc. rewrite !andb_true_iff, !negb_true_iff in Hc.
    destruct Hc as [[H1 H2] H3]. cbn [app sh_split]. rewrite H1, H2, H3, IH by auto. cbn [default from_option id]. by rewrite <-app_assoc.
Qed.

Lemma split_open s : sh_split false None (QUOTE :: s) = sh_split true (Some []) s.
Proof. reflexivity. Qed.

(** A text without quotes stays one word of the command. *)
Lemma command_words archive target :
  QUOTE ∉ archive -> QUOTE ∉ target -> (length archive < Rc.PATH_MAX)%nat -> (length target < Rc.PATH_MAX)%nat ->
  sh_split false None (command archive target) = Some [Word ($"zip"); Word ($"-r"); Word ($"-q"); Word archive; Word target].
Proof.
  intros Ha Ht La Lt. unfold command, trunc. rewrite take_ge.
  2:{ rewrite !length_app. unfold COMMAND_BYTES, Rc.PATH_MAX in *. cbn [length String.list_ascii_of_string]. lia. }
  change ($"zip -r -q '" ++ archive ++ $"' '" ++ target ++ $"'")
    with ($"zip" ++ " "%char :: $"-r" ++ " "%char :: $"-q" ++ " "%char :: QUOTE :: archive ++ QUOTE :: [] ++ " "%char :: QUOTE :: target ++ QUOTE :: []).
  rewrite !split_plain by (done || auto). rewrite split_open, split_quoted, split_plain, split_open, split_quoted by (done || auto).
  by rewrite app_nil_r.
Qed.

(** ** The archive's name *)

Lemma base_no_slash p : "/"%char ∉ Spawn.base_name p.
Proof.
  unfold Spawn.base_name. assert (H : forall p, match Spawn.after_slash p with Some n => "/"%char ∉ n | None => "/"%char ∉ p end).
  { clear. induction p as [|c p IH]; [set_solver|]. cbn [Spawn.after_slash]. destruct (Spawn.after_slash p); [done|].
    unfold ceqb. case_bool_decide; set_solver. }
  specialize (H p). by destruct (Spawn.after_slash p).
Qed.

Lemma after_slash_app d n : "/"%char ∉ n -> Spawn.after_slash (d ++ "/"%char :: n) = Some n.
Proof.
  intros Hn. assert (HN : forall n, "/"%char ∉ n -> Spawn.after_slash n = None).
  { clear. induction n as [|c n IH]; intros H; [done|]. cbn [Spawn.after_slash]. rewrite IH by set_solver.
    unfold ceqb. by rewrite bool_decide_eq_false_2 by set_solver. }
  induction d as [|c d IH]; cbn [app Spawn.after_slash]; [|by rewrite IH]. by rewrite HN.
Qed.

Lemma strip_slashes_rep n k : n <> [] -> head n <> Some "/"%char -> strip_slashes (replicate k "/"%char ++ n) = n.
Proof.
  intros Hn Hh. induction k as [|k IH]; cbn [replicate app].
  - destruct n as [|c [|d n]]; [done..|]. cbn [strip_slashes]. unfold ceqb. rewrite bool_decide_eq_false_2; [done|]. by intros ->.
  - cbn [strip_slashes]. destruct (replicate k "/"%char ++ n) as [|x r] eqn:E; [destruct k; [destruct n|]; done|].
    unfold ceqb. rewrite bool_decide_eq_true_2 by done. exact IH.
Qed.

(** The archive is named after the last component of the target, whatever
    slashes end it. *)
Lemma target_base_spec dir name k :
  name <> [] -> "/"%char ∉ name -> (length (dir ++ "/"%char :: name ++ replicate k "/"%char) < Rc.PATH_MAX)%nat ->
  target_base (dir ++ "/"%char :: name ++ replicate k "/"%char) = name.
Proof.
  intros Hn Hs Hl. unfold target_base. rewrite FindLogic.trunc_short by done.
  change (dir ++ "/"%char :: name ++ replicate k "/"%char) with (dir ++ ("/"%char :: name) ++ replicate k "/"%char).
  rewrite app_assoc, reverse_app, reverse_replicate, strip_slashes_rep, reverse_involutive.
  - unfold Spawn.base_name. by rewrite after_slash_app.
  - rewrite reverse_app, reverse_cons. intros E. apply (f_equal length) in E. rewrite !length_app in E. cbn in E. lia.
  - rewrite reverse_app, reverse_cons. destruct (reverse name) as [|c r] eqn:E.
    { apply (f_equal reverse) in E. rewrite reverse_involutive in E. done. }
    cbn. intros [= ->]. apply Hs. rewrite <-(reverse_involutive name), E, elem_of_reverse. left.
Qed.

(** ** From the prompt to the archiver *)

Lemma not_elem_of_plain c s : forallb (fun x => negb (ceqb x c)) s = true -> c ∉ s.
Proof. intros H Hc. rewrite forallb_forall in H. apply list_elem_of_In, H in Hc. unfold ceqb in Hc. by rewrite bool_decide_eq_true_2 in Hc. Qed.

Lemma elem_of_take_in {A} n (l : list A) x : x ∈ take n l -> x ∈ l.
Proof. intros H. rewrite <-(take_drop n l). apply elem_of_app. by left. Qed.

Lemma no_quote_base t : QUOTE ∉ t -> QUOTE ∉ target_base t.
Proof.
  assert (HA : forall p n, Spawn.after_slash p = Some n -> forall c, c ∈ n -> c ∈ p).
  { induction p as [|x p IH]; intros n Hn c Hc; [done|]. cbn [Spawn.after_slash] in Hn. destruct (Spawn.after_slash p) as [m|]; [simplify_eq; right; by eapply IH|].
    destruct (ceqb x "/"); simplify_eq. by right. }
  assert (HS : forall r c, c ∈ strip_slashes r -> c ∈ r).
  { induction r as [|x [|y r] IH]; intros c Hc; [done..|]. cbn [strip_slashes] in Hc. destruct (ceqb x "/"); [right; by apply IH|done]. }
  intros Hq Hc. apply Hq. unfold target_base, Spawn.base_name in Hc.
  assert (HR : QUOTE ∈ reverse (strip_slashes (reverse (trunc Rc.PATH_MAX t)))) by (destruct (Spawn.after_slash _) eqn:E; [by eapply HA|done]).
  rewrite elem_of_reverse in HR. apply HS in HR. rewrite elem_of_reverse in HR. by apply elem_of_take_in in HR.
Qed.

Lemma archive_short p t stamp : (length (archive_path p t stamp) < Rc.PATH_MAX)%nat.
Proof. unfold archive_path, trunc. rewrite length_take. unfold Rc.PATH_MAX. lia. Qed.

Lemma archive_no_quote p t stamp : QUOTE ∉ p -> QUOTE ∉ t -> QUOTE ∉ stamp -> QUOTE ∉ archive_path p t stamp.
Proof.
  intros Hp Ht Hs. unfold archive_path, archive_dir, trunc. intros H%elem_of_take_in. rewrite !elem_of_app in H.
  destruct H as [H%elem_of_take_in|[H|[H|[H|[H|H]]]]]; [rewrite elem_of_app in H; destruct H as [|H]; [done|]| |by apply (no_quote_base t Ht)| |done|];
    revert H; apply not_elem_of_plain; reflexivity.
Qed.

(** The process [backup] in a shell's environment and directory. *)
Definition in_shell (sh : Shell.shell) (st : cstr -> Z + cstr) (mk : cstr -> mkdir_t) (stamp : cstr) (sys : cstr -> Z) : site :=
  mkSite (Shell.getenv ($"BACKUP_DIR") (Shell.env sh)) st (Some (Shell.cwd sh)) mk stamp sys.

(** "setenv BACKUP_DIR=target" and then "backup": the archiver gets the archive
    and the target as they are, when no name has a quote in it. *)
Lemma typed_backup target sh st mk stamp sys mode :
  target <> [] -> st target = inl mode -> (forall p, mk p = M_made \/ mk p = M_EEXIST) ->
  QUOTE ∉ target -> QUOTE ∉ Shell.cwd sh -> QUOTE ∉ stamp -> (length target < Rc.PATH_MAX)%nat ->
  let sh' := snd (Shell.set_env_var [$"setenv"; $"BACKUP_DIR" ++ "="%char :: target] sh) in
  exists cmd, snd (main (in_shell sh' st mk stamp sys)) = Some cmd
  /\ sh_split false None cmd = Some [Word ($"zip"); Word ($"-r"); Word ($"-q"); Word (archive_path (Shell.cwd sh) target stamp); Word target].
Proof.
  intros Hn Hst Hmk Hq Hc Hs Hl sh'.
  destruct (Shell.environment_commands Shell.anywhere ($"BACKUP_DIR") target sh) as [HE _]; [done|apply not_elem_of_plain; reflexivity|].
  specialize (HE ($"BACKUP_DIR")). rewrite decide_True in HE by done.
  assert (Hcwd : Shell.cwd sh' = Shell.cwd sh) by reflexivity.
  exists (command (archive_path (Shell.cwd sh) target stamp) target). split.
  - unfold main, in_shell. cbn [backup_dir stat getcwd mkdir timestamp system]. fold sh' in HE. rewrite HE, Hcwd. destruct target as [|c t]; [done|]. rewrite Hst.
    destruct (Hmk (archive_dir (Shell.cwd sh))) as [-> | ->]; by destruct (_ || _).
  - apply command_words; [by apply archive_no_quote|done|apply archive_short|done].
Qed.

(** ** Trying it *)

Definition site0 (target : cstr) (status : Z) : site :=
  mkSite (Some target) (fun _ => inl 16877) (Some ($"/srv")) (fun _ => M_EEXIST) ($"2026-01-02_03-04-05") (fun _ => status).

Example backup_runs : snd (main (site0 ($"var/db//") 0)) = Some ($"zip -r -q '/srv/archive/db_2026-01-02_03-04-05.zip' 'var/db//'").
Proof. vm_compute. reflexivity. Qed.

(** A target whose name has a quote runs a command of its own. *)
Example backup_injects :
  sh_split false None (default [] (snd (main (site0 ($"d'; reboot; '") 0)))) =
  Some [Word ($"zip"); Word ($"-r"); Word ($"-q"); Word ($"/srv/archive/d"); Op ";"; Word ($"reboot"); Op ";"; Word ($"_2026-01-02_03-04-05.zip"); Word ($"d"); Op ";"; Word ($"reboot"); Op ";"; Word []].
Proof. vm_compute. reflexivity. Qed.

(** An archiver ended by signal 9 leaves the wait status 9: a success. *)
Example backup_killed : snd (fst (main (site0 ($"var/db") 9))) = 0 /\ snd (fst (main (site0 ($"var/db") (12 * 256)))) = 1.
Proof. vm_compute. done. Qed.

End Backup.

Module Sys.

(** ** sys.c *)

Definition SHELL_BUFFERSIZE : nat := Z.to_nat 256.
Definition COLOR_CYAN : cstr := Ld.colour ($"36").

(** [sysconf]'s two numbers, multiplied as [unsigned long long]. *)
Definition get_total_memory (pages page_size : Z) : Z :=
  if (0 <? pages) && (0 <? page_size) then (pages * page_size) mod 2 ^ 64 else 0.

Definition is_blank (c : ascii) : bool := ceqb c " " || ceqb c TAB.
Fixpoint skip_blanks (s : cstr) : cstr := match s with c :: s' => if is_blank c then skip_blanks s' else s | [] => [] end.

(** One line of /proc/cpuinfo: the model, if it gives one. *)
Definition model_of (line : cstr) : option cstr :=
  if bool_decide ($"model name" `prefix_of` line) then
    match Rc.cut ":" line with
    | (_, Some colon) => Some (fst (Rc.cut LF (skip_blanks colon)))
    | (_, None) => None
    end
  else None.

Fixpoint model_loop (fuel : nat) (cpuinfo : cstr) : option cstr :=
  match fuel, cpuinfo with
  | O, _ | _, [] => None
  | S f, _ =>
    let '(line, rest) := Provision.fgets (SHELL_BUFFERSIZE - 1) cpuinfo in
    match model_of (Rc.as_text line) with Some m => Some m | None => model_loop f rest end
  end.

(** Every turn takes a byte at least: the length of the file is fuel enough. *)
Definition get_cpu_model (size : nat) (cpuinfo : option cstr) (fallback : cstr) : cstr :=
  match cpuinfo ≫= fun f => model_loop (length f) f with
  | Some m => trunc size m
  | None => trunc size fallback
  end.

Definition get_cpu_count (n : Z) : Z := if 0 <? n then n else 1.

(** The user: the password database, then [getlogin], then USER. *)
Definition user_name (pw login user : option cstr) : cstr :=
  match pw with Some n => n | None => match login with Some n => n | None => default ($"unknown") user end end.

Definition round_even (num den : Z) : Z :=
  let q := num / den in
  let r := num mod den in
  if 2 * r <? den then q else if den <? 2 * r then q + 1 else if Z.even q then q else q + 1.

(** The [double] nearest to a 64-bit count. *)
Definition to_double (n : Z) : Z :=
  if n <? 2 ^ 53 then n else let s := Z.log2 n - 52 in round_even n (2 ^ s) * 2 ^ s.

(** ["%.2f"] of that number over the bytes of a GiB, which divides exactly. *)
Definition hundredths (total : Z) : Z := round_even (100 * to_double total) (2 ^ 30).
Definition gib_text (total : Z) : cstr :=
  let h := hundredths total in print_uint (h / 100) ++ $"." ++ [digit_char (h mod 100 / 10); digit_char (h mod 10)].

Record machine := mkMachine {
  sysname : cstr; nodename : cstr; release : cstr; machine_ : cstr; pw_name : option cstr; getlogin : option cstr; env_user : option cstr;
  gethostname : option cstr; cpuinfo : option cstr; nprocs : Z; phys_pages : Z; page_size : Z }.

Definition label (l : cstr) : cstr := COLOR_CYAN ++ l ++ Ld.COLOR_RESET.

(** [None] is a failed [uname]. *)
Definition execute (uname : option machine) : list line * Z :=
  match uname with
  | None => ([Err ($"uname failed")], 1)
  | Some m =>
    let username := user_name (pw_name m) (getlogin m) (env_user m) in
    let hostname := match gethostname m with Some h => h | None => trunc SHELL_BUFFERSIZE (nodename m) end in
    let cpu_model := get_cpu_model SHELL_BUFFERSIZE (cpuinfo m) (machine_ m) in
    let total_mem := get_total_memory (phys_pages m) (page_size m) in
    ([Out (Ld.COLOR_GREEN ++ username ++ Ld.COLOR_RESET ++ $"@" ++ Ld.COLOR_GREEN ++ hostname ++ [LF] ++ Ld.COLOR_RESET);
      Out ($"-----------------------------");
      Out (label ($"OS:      ") ++ sysname m);
      Out (label ($"Host:    ") ++ nodename m);
      Out (label ($"Kernel:  ") ++ release m ++ $" " ++ machine_ m);
      Out (label ($"User:    ") ++ username);
      Out (label ($"CPU:     ") ++ cpu_model ++ $" (" ++ print_int (get_cpu_count (nprocs m)) ++ $" cores)");
      Out (if 0 <? total_mem
           then label ($"Memory:  ") ++ gib_text total_mem ++ $" GiB (" ++ print_uint total_mem ++ $" bytes)"
           else label ($"Memory:  ") ++ $"unavailable")], 0)
  end.

(** ** The figures are those of the machine *)

Lemma round_even_close num den : 0 < den -> 2 * Z.abs (den * round_even num den - num) <= den.
Proof.
  intros Hd. unfold round_even. pose proof (Z.div_mod num den ltac:(lia)) as HE. pose proof (Z.mod_pos_bound num den Hd) as HM.
  destruct (Z.ltb_spec (2 * (num mod den)) den); [nia|]. destruct (Z.ltb_spec den (2 * (num mod den))); [nia|].
  destruct (Z.even (num / den)); nia.
Qed.

(** The figure is the nearest hundredth of a GiB, for any memory a [double]
    holds exactly. *)
Lemma hundredths_close total : 0 <= total < 2 ^ 53 -> 2 * Z.abs (2 ^ 30 * hundredths total - 100 * total) <= 2 ^ 30.
Proof.
  intros H. unfold hundredths, to_double. rewrite (proj2 (Z.ltb_lt _ _)) by lia. by apply round_even_close.
Qed.

Lemma total_memory_exact pages size : 0 < pages -> 0 < size -> pages * size < 2 ^ 64 -> get_total_memory pages size = pages * size.
Proof.
  intros Hp Hs Hb. unfold get_total_memory. rewrite !(proj2 (Z.ltb_lt _ _)) by done. cbn [andb]. apply Z.mod_small. nia.
Qed.

(** A file of short lines: the first line that gives a model is the answer. *)
Lemma model_loop_lines ls rest : forall fuel,
  Forall (fun l => LF ∉ l /\ "000"%char ∉ l /\ (length l < SHELL_BUFFERSIZE - 1)%nat /\ model_of (l ++ [LF]) = None) ls ->
  (length ls <= fuel)%nat -> model_loop fuel (concat (map (fun l => l ++ [LF]) ls) ++ rest) = model_loop (fuel - length ls) rest.
Proof.
  induction ls as [|l ls IH]; intros fuel HF Hf; [by rewrite Nat.sub_0_r|].
  inversion HF as [|? ? (H1 & H2 & H3 & H4) HF']; subst. destruct fuel as [|f]; [cbn in Hf; lia|].
  cbn [map concat length Nat.sub]. rewrite <-!app_assoc. cbn [app].
  transitivity (let '(line, rest0) := Provision.fgets (SHELL_BUFFERSIZE - 1) (l ++ LF :: concat (map (fun l0 => l0 ++ [LF]) ls) ++ rest) in
                match model_of (Rc.as_text line) with Some m => Some m | None => model_loop f rest0 end); [by destruct l|].
  rewrite Provision.fgets_line; [| |done].
  2:{ apply List.Forall_forall. intros c Hc ->. apply H1. by apply list_elem_of_In. }
  rewrite Shell.as_text_id, H4; [|set_solver]. apply IH; [done|cbn in Hf; lia].
Qed.

(** ** Trying it *)

Definition cpu0 : cstr := $"processor : 0" ++ [LF] ++ $"model name" ++ [TAB] ++ $": Ten Cores" ++ [LF] ++ $"flags : fpu" ++ [LF].

Example sys_cpu : get_cpu_model SHELL_BUFFERSIZE (Some cpu0) ($"arm64") = $"Ten Cores" /\ get_cpu_model 4 (Some cpu0) ($"arm64") = $"Ten"
  /\ get_cpu_model SHELL_BUFFERSIZE None ($"arm64") = $"arm64".
Proof. vm_compute. done. Qed.

Example sys_gib : map gib_text [16 * 2 ^ 30; 33567072256; 1; 5368709; 2 ^ 64 - 1] = [$"16.00"; $"31.26"; $"0.00"; $"0.00"; $"17179869184.00"].
Proof. vm_compute. reflexivity. Qed.

End Sys.
